(* ===== verification/_CoqProject ===== *)
-Q . S2P
Prelude.v
Bits.v
Links.v
Queue.v
MmHeap.v
MmMore.v
MmLayout.v
MmFreeList.v
MmInv.v
MmRun.v
MmInit.v
MmMalloc.v
MmFree.v
MmClient.v
MmQuery.v
MmZero.v
Wdog.v
WdogRep.v
WdogTime.v
WdogProps.v
Inode.v
InodeTree.v
InodeOps.v
InodeRemove.v
InodeProps.v
Vfs.v
VfsInv.v
VfsOps.v
VfsRun.v
VfsProps.v
Hw.v
Gpio.v
GpioProps.v
Pwm.v
PwmProps.v
Stm32Pwm.v
Stm32PwmProps.v
Stm32Wave.v
Float.v
Motor.v
MotorProps.v
MotorSafe.v
Board.v
BoardProps.v
BoardTim.v
I2c.v
I2cProps.v
Imu.v
ImuProps.v
Sched.v
SchedRep.v
SchedInv.v
SchedOps.v
SchedCalls.v
SchedPrio.v
Sem.v
SemOps.v
Task.v
TaskOps.v
Kern.v
KernInv.v
KernActs.v
KernRun.v
KernProps.v
SchedProps.v
SchedLimits.v
Calendar.v
CalendarProps.v
Rtc.v
Clock.v
ClockProps.v
RtcProps.v
Timed.v
KernQuiet.v
TimedDogs.v
TimedInv.v
TimedRun.v
TimedProps.v
WorkQ.v
WorkProps.v
