(* ===== verification/Prelude.v ===== *)
(** * Verification of the chewie flight firmware

    The repository is a drone firmware: the NuttX operating system
    (src/nuttx) and the flight application apps/chewie (src/apps/chewie), built
    for the board xingtong-pyboard (STM32F405).  This development translates the
    parts of it below into Rocq functions, function by function, and proves what
    they are meant to do.  Definitions keep the names of the source.

    ** The parts and how they interact

    The application drives four motors through [drv_motor.c] and
    [drv_pwm_out.c], which call [open], [ioctl] and [close].  These are the
    calls of the virtual file system on the file descriptors of the task.  A
    descriptor refers to a node of the inode tree, where the board registered
    the PWM driver at start-up; the node leads to the methods of the driver,
    whose upper half is [drivers/pwm/pwm.c] and whose lower half, the timer TIM2
    and its pins, is [arch/arm/src/stm32/stm32_pwm.c] and [stm32_gpio.c].
    The inertial sensor is read the same way, through [lib_i2c.c] and the I2C
    character driver.
    Below all of this are the kernel's own services: the scheduler with its task
    lists, the semaphores on which tasks wait, the memory manager, the watchdog
    timers driven by the tick interrupt, and the linked queues all of these are
    built on.

    ** Files

    - [Prelude]: results of C code ([res]: a value, or a bad access, a loop that
      does not end, a wait that would block, a division by zero), memory, machine integers, arrays;
      tactics and lemmas on them.  [Bits]: masks.  [Links]: linked lists in memory.
    - [Queue]: libs/libc/queue.  [Sq] and [Dq] hold one definition per function of
      sq_*.c and dq_*.c; a state is the link fields of all nodes and the head and
      tail of the queue.
    - [MmHeap], [MmMore]: mm/mm_heap, all of it, on 32-bit words of memory at the
      addresses the code computes.  [MmLayout], [MmFreeList], [MmInv]: the
      invariant of a heap.  [MmRun] to [MmZero]: the theorems on each operation;
      [MmClient]: sequences of operations.
    - [Wdog]: sched/wdog.  [WdogRep], [WdogTime]: what the queue of relative delays
      means.  [WdogProps]: the theorems.
    - [Inode]: fs/inode and fs/driver, the tree of named nodes with its lock and
      reference counts.  [InodeTree] to [InodeRemove]: the tree they represent;
      [InodeProps]: the theorems.  The kernel's allocator is the class [NodeAlloc].
    - [Vfs]: the file list of fs/inode/fs_files.c and the calls of fs/vfs.  A driver
      is a table of methods over the state of the devices.  [VfsInv], [VfsOps],
      [VfsRun]: the invariant of descriptors and reference counts, and the class
      [Drivers], what the calls rely on; also the class [Posix] of system calls the
      application uses, with the file calls as an instance.  [VfsProps]: the theorems.
    - [Hw]: the memory-mapped registers as a class of reads and writes, with the
      reference manual of the chip as its laws and a simulation that satisfies
      them.  [Gpio], [GpioProps]: stm32_gpio.c, the configuration of pins.
    - [Pwm]: drivers/pwm/pwm.c over a record of lower half operations.  [PwmProps]:
      the class [PwmLower] (the comments of struct pwm_ops_s as laws on the
      phases of a lower half: off, set up, outputting, halted), the specification
      of a device and the theorems.
    - [Stm32Pwm]: stm32_pwm.c for the timer of the board.  [Stm32PwmProps]: the
      phases as values of its registers, and the timer as an instance of
      [PwmLower].  [Stm32Wave]: the pulses the registers stand for.
    - [Float]: IEEE arithmetic of the constants and of the sensor values.
    - [Motor]: apps/chewie: drv_pwm_out.c, drv_motor.c and test_motor of
      chewie_main.c over the class [Posix].  [MotorProps]: the class
      [PwmSystem], what the motor driver relies on, and its functional behaviour.
      [MotorSafe]: safety on any operating system.
    - [Board]: the registration of the device by the board, and the proof that the
      file calls and the PWM driver are a [PwmSystem].  [BoardProps]: the end to end
      theorems over any lower half.  [BoardTim]: the same down to the pins.
    - [I2c], [I2cProps]: drivers/i2c/i2c_driver.c over a bus master.  [Imu]:
      apps/chewie: lib_i2c.c and drv_imu_jy901b.c, with the malloc of the heap.
      [ImuProps]: the class [I2cSensor], what the sensor code relies on, and its
      theorems.
    - [Sched]: sched/sched and the task switching of arch/arm/src/armv7-m: the task
      lists, blocking and unblocking, pending tasks, priorities, the preemption
      lock, time slices.  A state has the control blocks, the links of all lists
      and the table of identifiers.  [SchedRep], [SchedInv]: the lists they
      represent and their invariant; [SchedOps], [SchedCalls], [SchedPrio]: each operation as an operation on these lists.
    - [Sem]: sched/semaphore; [SemOps]: counts and waiting tasks.
      [Task]: the identifiers of tasks, their set-up, activation and deletion, and
      nx_start; [TaskOps]: what they do to the lists.
    - [Kern]: calls of tasks as sequences of sections that cannot be interrupted,
      interrupts between them, and runs of the whole system.  [KernInv], [KernActs],
      [KernRun]: the invariant of runs and its preservation by every
      section and every interrupt.  [KernProps], [SchedProps]: the theorems.
      [SchedLimits]: the cases in which the code falls short.
    - [Calendar], [CalendarProps]: libs/libc/time and clock_dow.c, dates and seconds.
      [Rtc], [RtcProps]: the date registers of stm32f40xxx_rtcc.c.  [Clock],
      [ClockProps]: sched/clock, the time of day and its conversion to ticks.
    - [Timed]: runs of the kernel with waits that time out (sem_tickwait.c,
      sem_timedwait.c), their watchdogs and the tick interrupt of
      sched_processtimer.c.  [KernQuiet], [TimedDogs], [TimedInv], [TimedRun]: the invariant that ties calls, tasks and watchdogs together, for
      every section and for the tick.  [TimedProps]: the theorems.
    - [WorkQ]: sched/wqueue, both work queues, their threads and the drivers that
      queue work, as one system of events.  [WorkProps]: the promise on lists of
      entries, each operation, and the theorems.

    ** What the theorems show

    - Scheduler: from start-up on, in every run of tasks and interrupts, the task
      of the highest priority runs; the preemption lock keeps the processor; the
      tick slices round robin tasks; merging the pending tasks is the same as
      readying them one by one; identifiers are unique; tasks are at most
      CONFIG_MAX_TASKS and their fields stay in range.
    - Semaphores: units are neither lost nor made in any run; a post wakes the
      waiting task of the highest priority; timeouts end exactly one wait; a reset
      gives its units to the waiting tasks in order.
    - Timed waits: scheduling and semaphores stay correct with them; a wait times out
      with the tick its delay or its deadline asks for, and no watchdog is lost.
    - Time: gmtime_r follows the calendar and mktime inverts it until the end of 2100;
      the time of day is what was set and the ticks since, also over a restart
      through the registers of the real-time clock; deadlines give the right ticks
      up to 24.9 days ahead.
    - Work queues: refine lists of entries under every interleaving; work is performed
      as asked, once and not early; the threads neither oversleep (for delays below
      2^32 - 1 ticks) nor miss work.
    - Motors: the pins output pulses of the length the flight code writes into
      g_motor_state, limited to the range from armed to full throttle, through all
      layers down to the registers of timer and pins; no other duty
      is ever sent, whatever fails; the motor test of the application runs to its
      end.
    - PWM driver: refines, answers included, a device with characteristics and a
      switch; it counts its users up to 255.
    - Timer and pins: a start gives the frequency and duties asked for within
      stated bounds on a period and a pulse; configuring a pin gives it what its
      encoding says, with output level and interrupt source, and changes nothing else.
    - Sensor: an update of the inertial unit gives exactly the values of the
      registers scaled to physical units; the I2C driver counts its users and
      can be removed when the last is gone.
    - File calls: every sequence of them returns and keeps reference counts exact;
      the behaviour of open and close on every branch; opening and closing restores
      the state; the end of a task closes everything.
    - Inode tree: search, registration and removal change exactly the paths they
      should.
    - Memory manager: any sequence of allocations and releases keeps blocks
      disjoint and within the heap and leaks nothing; each operation on every
      branch.
    - Watchdogs: refine a list of timers, each of which fires once, at its tick and in
      order, also when the functions that are called start and cancel watchdogs.
    - Queues: refine lists.
    - Some theorems prove defects of the code; their comments say so.

    ** Fuel and bounds

    A loop over a linked structure runs with fuel [walk_fuel m], the number of
    memory cells plus one: a walk without repetition cannot be longer, and the
    theorems show that the result is never [Err Diverge].  The loop that reads the date
    registers needs two rounds when they change at most once, at midnight.  Loops with a constant
    bound (the buckets of the heap, the descriptors, the channels) run for that
    number; loops over a path run for its length.  Machine integers are Z with
    their wrap-around written out ([u8], [u16], [u32], [s16], [s32]).  The constants
    that the compiler computes in floating point use the IEEE doubles of the
    standard library.

    The theorems on runs of the kernel ask that callers keep the promises listed in
    [Kern] ([possible]): semaphores exist and do not overflow, the preemption lock is
    nested less than 32767 times, the idle task does not wait, a control block is used
    once, and a ready task that does not run is only given a priority above that of
    the running one.  [SchedLimits] shows what happens otherwise.  [Timed] adds that the
    arguments of a wait are those the code accepts ([tpossible]).  The main theorems
    have this as a hypothesis on the events ([kernel_promise], [timed_promise]); the
    others are about [krun] and [trun], runs in which events that break a promise are
    left out.  Tasks are created but not deleted in these runs; deletion is a definition
    of [Task], with a theorem of [SchedLimits] about it.  The theorems on work queues
    ask that a work structure that is pending on one queue is not queued or cancelled
    on the other one ([wpromised]); [WorkProps] shows what happens otherwise.

    The configuration is configs/xingtong-pyboard/nsh/defconfig: 32 bits, one
    processor, no tickless mode, assertions compiled out, 8 descriptors per task,
    4 PWM channels on TIM2 at 84 MHz, no pulse counting, no soft links, no network.

    ** Not modelled

    The rest of the code under arch (interrupts, the bus drivers, clock set-up,
    assembler), so that the I2C bus master is a parameter; the hardware itself,
    of which [HwLaws] states what the reference manual says; the registers that a
    context switch saves and restores (a task is the sections left of its call);
    initialization and write protection of the real-time clock, whose counting, by the
    calendar and in digits, is a hypothesis; the delivery of the signal that wakes a worker thread, its garbage
    collection and the work notifier; priority inheritance, sporadic scheduling and several processors, which the
    configuration leaves out; signals, message queues, threads and task groups.
    The heap, the inode tree and the drivers were modelled as the code of one
    task: there a semaphore is its count, and a wait that would block is reported
    as such.  The file systems and block drivers are parameters of the file calls.
    The network, the C library apart from queues, semaphores and time, and the other drivers and
    applications are left out.  Log messages are left out. *)

From stdpp Require Export base list gmap numbers option sorting.
From Stdlib Require Export ZArith Lia.

Local Open Scope Z_scope.

(** ** Results of C code

    A C function that may dereference a bad pointer, loop for ever, block or
    divide by zero is a function into [res]: [Ok] carries the result, [Err] says why there
    is none. *)

Inductive fault :=
  | BadAddr (a : Z)   (** access to NULL or to memory outside the model *)
  | Diverge           (** a loop that has not finished within its fuel *)
  | WouldBlock        (** the caller is suspended, e.g. on a semaphore *)
  | DivByZero.        (** an integer division by zero *)

Inductive res (A : Type) :=
  | Ok (x : A)
  | Err (e : fault).
Arguments Ok {A} _.
Arguments Err {A} _.

#[export] Instance res_ret : MRet res := @Ok.
#[export] Instance res_bind : MBind res := fun A B f m =>
  match m with Ok x => f x | Err e => Err e end.
#[export] Instance res_fmap : FMap res := fun A B f m =>
  match m with Ok x => Ok (f x) | Err e => Err e end.

(** ** Word-addressed memory

    A map from addresses to words.  Address 0 is NULL: it can be neither read
    nor written, whatever the map holds. *)

Abbreviation mem := (gmap Z Z).

Definition load (m : mem) (a : Z) : res Z :=
  if a =? 0 then Err (BadAddr 0) else
  match m !! a with Some v => Ok v | None => Err (BadAddr a) end.

Definition store (m : mem) (a v : Z) : res mem :=
  if a =? 0 then Err (BadAddr 0) else
  match m !! a with Some _ => Ok (<[a := v]> m) | None => Err (BadAddr a) end.

(** Element [i] of a C array; an index out of range is a bad access. *)
Definition array_get {A} (l : list A) (i : nat) : res A :=
  match l !! i with Some v => Ok v | None => Err (BadAddr (Z.of_nat i)) end.

Definition array_set {A} (l : list A) (i : nat) (v : A) : res (list A) :=
  if (i <? length l)%nat then Ok (<[i := v]> l) else Err (BadAddr (Z.of_nat i)).

(** ** Machine integers *)

Definition u8 (x : Z) : Z := x mod 2 ^ 8.
Definition u16 (x : Z) : Z := x mod 2 ^ 16.
Definition u32 (x : Z) : Z := x mod 2 ^ 32.
Definition s16 (x : Z) : Z := (x + 2 ^ 15) mod 2 ^ 16 - 2 ^ 15.
Definition s32 (x : Z) : Z := (x + 2 ^ 31) mod 2 ^ 32 - 2 ^ 31.

(** ** Error codes (negated errno values) *)

Definition OK : Z := 0.
Definition ERROR : Z := -1.
Definition EINTR : Z := 4.
Definition EAGAIN : Z := 11.
Definition ENOMEM : Z := 12.
Definition EINVAL : Z := 22.
Definition ENOENT : Z := 2.
Definition EMFILE : Z := 24.
Definition ENOTTY : Z := 25.

(** ** Automation *)

Create HintDb nx.

(** Split an [if] or a [match] on a [res] in the goal or a hypothesis. *)
Ltac split_if :=
  match goal with
  | |- context [if ?b then _ else _] => destruct b eqn:?
  | H : context [if ?b then _ else _] |- _ => destruct b eqn:?
  end.

(** Turn boolean comparisons into propositions. *)
Ltac b2p :=
  repeat match goal with
  | H : (_ =? _) = true |- _ => apply Z.eqb_eq in H
  | H : (_ =? _) = false |- _ => apply Z.eqb_neq in H
  | H : (_ <? _) = true |- _ => apply Z.ltb_lt in H
  | H : (_ <? _) = false |- _ => apply Z.ltb_ge in H
  | H : (_ <=? _) = true |- _ => apply Z.leb_le in H
  | H : (_ <=? _) = false |- _ => apply Z.leb_gt in H
  | H : (_ && _) = true |- _ => apply andb_true_iff in H as [? ?]
  | H : (_ || _) = false |- _ => apply orb_false_iff in H as [? ?]
  end.

(** Linear arithmetic with constant divisors and moduli. *)
Ltac modlia := Z.div_mod_to_equations; lia.

(** ** Lemmas on results and memory *)

Lemma bind_Ok {A B} (x : A) (f : A -> res B) : (Ok x ≫= f) = f x.
Proof. reflexivity. Qed.

Lemma bind_Ok_inv {A B} (c : res A) (f : A -> res B) (y : B) :
  (c ≫= f) = Ok y <-> exists x, c = Ok x /\ f x = Ok y.
Proof. destruct c; simpl; split; [eauto | intros (? & [= ->] & ?); done | done | intros (? & ? & _); done]. Qed.

(** ** Computations that return *)

Definition returns {A} (c : res A) (Q : A -> Prop) : Prop := exists x, c = Ok x /\ Q x.

Lemma returns_Ok {A} (x : A) (Q : A -> Prop) : Q x -> returns (Ok x) Q.
Proof. intros H. by exists x. Qed.

Lemma returns_bind {A B} (c : res A) (f : A -> res B) (P : A -> Prop) (Q : B -> Prop) :
  returns c P -> (forall x, P x -> returns (f x) Q) -> returns (c ≫= f) Q.
Proof. intros (x & -> & Hx) Hf. by apply Hf. Qed.

Lemma returns_impl {A} (c : res A) (P Q : A -> Prop) : returns c P -> (forall x, P x -> Q x) -> returns c Q.
Proof. intros (x & E & Hx) HQ. exists x. eauto. Qed.

Lemma load_Ok (m : mem) a v : a <> 0 -> m !! a = Some v -> load m a = Ok v.
Proof. intros Ha E. unfold load. apply Z.eqb_neq in Ha. by rewrite Ha, E. Qed.

Lemma store_Ok (m : mem) a v : a <> 0 -> is_Some (m !! a) -> store m a v = Ok (<[a := v]> m).
Proof. intros Ha [w E]. unfold store. apply Z.eqb_neq in Ha. by rewrite Ha, E. Qed.

Lemma load_Ok_inv (m : mem) a v : load m a = Ok v -> a <> 0 /\ m !! a = Some v.
Proof. unfold load. destruct (a =? 0) eqn:E; [done|]. b2p. destruct (m !! a); naive_solver. Qed.

Lemma store_Ok_inv (m m' : mem) a v :
  store m a v = Ok m' -> a <> 0 /\ is_Some (m !! a) /\ m' = <[a := v]> m.
Proof. unfold store. destruct (a =? 0) eqn:E; [done|]. b2p. destruct (m !! a); naive_solver. Qed.

Lemma store_dom (m m' : mem) a v : store m a v = Ok m' -> dom m' = dom m.
Proof. intros (_ & H & ->)%store_Ok_inv. by apply dom_insert_lookup_L. Qed.

(** Invert a computation that ended in [Ok], down to its loads and stores. *)
Ltac res_inv :=
  repeat match goal with
  | H : (_ ≫= _) = Ok _ |- _ => apply bind_Ok_inv in H as (? & ? & ?)
  | H : Ok _ = Ok _ |- _ => injection H; clear H; intros; subst
  | H : Err _ = Ok _ |- _ => discriminate H
  | H : (let '(_, _) := ?p in _) = Ok _ |- _ => destruct p
  | H : (if ?b then _ else _) = Ok _ |- _ => destruct b eqn:?
  | H : store _ _ _ = Ok _ |- _ => apply store_dom in H
  | H : load _ _ = Ok _ |- _ => clear H
  end.

(** ** Lists *)

Lemma elem_of_app_fmap {A} (f : A -> Z) (l1 l2 : list A) (x : Z) :
  x ∈ (f <$> l1) ++ (f <$> l2) -> exists y, x = f y /\ y ∈ l1 ++ l2.
Proof. rewrite <- fmap_app. apply list_elem_of_fmap. Qed.

(** ** Walks

    A list of distinct mapped addresses is no longer than the map: the bound
    on every walk along links. *)

Lemma nodup_length_size (m : mem) (l : list Z) :
  NoDup l -> (forall x, x ∈ l -> is_Some (m !! x)) -> (length l <= size m)%nat.
Proof.
  intros Hnd Hl. rewrite <- (size_dom (D := gset Z)).
  rewrite <- (size_list_to_set (C := gset Z)) by done.
  apply subseteq_size. intros x Hx%elem_of_list_to_set. by apply elem_of_dom, Hl.
Qed.

Lemma insert_is_Some (m : mem) i j v : is_Some (m !! j) -> is_Some (<[i := v]> m !! j).
Proof. intros H. destruct (decide (i = j)) as [->|]; simplify_map_eq; eauto. Qed.
#[export] Hint Resolve insert_is_Some : nx.

Lemma lookup_insert_at (m : mem) i j v : i = j -> <[i := v]> m !! j = Some v.
Proof. intros ->. apply lookup_insert_eq. Qed.

(** Look a word up through the stores made before, by comparing addresses. *)
Ltac mlook :=
  repeat first [rewrite lookup_insert_at by lia | rewrite lookup_insert_ne by lia].

(** Run the next load, store or bind of a goal about [res]. *)
Ltac mem_side := solve [eassumption | lia | eauto with nx | mlook; eassumption | mlook; reflexivity].
Ltac run1 :=
  match goal with
  | |- context [Ok ?x ≫= ?f] => rewrite (bind_Ok x f)
  | |- context [load ?m ?a] => erewrite (load_Ok m a) by mem_side
  | |- context [store ?m ?a ?v] => rewrite (store_Ok m a v) by mem_side
  end.
Ltac run := repeat (run1; cbv beta iota zeta).

(** [n] words of zeroed memory from address [a]. *)
Definition zeros (a : Z) (n : nat) : mem := list_to_map ((fun j => (a + 4 * Z.of_nat j, 0)) <$> seq 0 n).

Lemma zeros_mapped a n w : a <= w < a + 4 * Z.of_nat n -> (w - a) mod 4 = 0 -> is_Some (zeros a n !! w).
Proof.
  intros Hw Hm. apply elem_of_dom. unfold zeros. rewrite dom_list_to_map_L.
  apply elem_of_list_to_set, list_elem_of_fmap. exists (w, 0). split; [done|].
  apply list_elem_of_fmap. exists (Z.to_nat ((w - a) / 4)). split; [|apply elem_of_seq; modlia].
  f_equal. modlia.
Qed.
