(* ===== verification/Bits.v ===== *)
(** * Bit masks on unsigned machine words

    The masking idioms of the C sources (alignment masks, flag bits) as
    arithmetic on [Z]. *)

From S2P Require Import Prelude.
Local Open Scope Z_scope.

(** The complement of [x] as a 32-bit unsigned value. *)
Definition not32 (x : Z) : Z := u32 (Z.lnot x).

Lemma u32_small x : 0 <= x < 2 ^ 32 -> u32 x = x.
Proof. intros. unfold u32. by apply Z.mod_small. Qed.

Lemma u32_range x : 0 <= u32 x < 2 ^ 32.
Proof. apply Z.mod_pos_bound. lia. Qed.

Lemma s32_small x : - 2 ^ 31 <= x < 2 ^ 31 -> s32 x = x.
Proof. intros H. unfold s32. rewrite Z.mod_small by lia. lia. Qed.

Lemma testbit_high x n i : 0 <= x < 2 ^ n -> n <= i -> Z.testbit x i = false.
Proof.
  intros Hx Hi. destruct (decide (0 <= n)) as [Hn|Hn].
  - rewrite <- (Z.mod_small x (2 ^ n)) by done. by apply Z.mod_pow2_bits_high.
  - rewrite Z.pow_neg_r in Hx by lia. lia.
Qed.

(** A flag bit above the value. *)
Lemma land_flag_clear x n : 0 <= n -> 0 <= x < 2 ^ n -> Z.land x (2 ^ n) = 0.
Proof.
  intros Hn Hx. apply Z.bits_inj'. intros i Hi. rewrite Z.land_spec, Z.bits_0.
  destruct (decide (i = n)) as [->|Hne].
  - by rewrite (testbit_high x n) by lia.
  - rewrite Z.pow2_bits_false by lia. apply andb_false_r.
Qed.

Lemma lor_flag x n : 0 <= n -> 0 <= x < 2 ^ n -> Z.lor x (2 ^ n) = x + 2 ^ n.
Proof.
  intros Hn Hx. rewrite <- Z.lxor_lor by (by apply land_flag_clear).
  symmetry. apply Z.add_nocarry_lxor. by apply land_flag_clear.
Qed.

Lemma land_flag_set x n : 0 <= n -> 0 <= x < 2 ^ n -> Z.land (x + 2 ^ n) (2 ^ n) = 2 ^ n.
Proof.
  intros Hn Hx. rewrite <- lor_flag by done. rewrite Z.land_lor_distr_l.
  rewrite land_flag_clear by done. rewrite Z.land_diag. apply Z.lor_0_l.
Qed.

Lemma land_low x n : 0 <= n -> 0 <= x < 2 ^ n -> Z.land (x + 2 ^ n) (Z.ones n) = x.
Proof.
  intros Hn Hx. rewrite Z.land_ones by done.
  replace (x + 2 ^ n) with (x + 1 * 2 ^ n) by lia.
  rewrite Z.mod_add by lia. by apply Z.mod_small.
Qed.

Lemma land_low_id x n : 0 <= n -> 0 <= x < 2 ^ n -> Z.land x (Z.ones n) = x.
Proof. intros Hn Hx. rewrite Z.land_ones by done. by apply Z.mod_small. Qed.

(** Clearing the low [n] bits of a [w]-bit word. *)
Lemma land_align x n w : 0 <= n <= w -> 0 <= x < 2 ^ w ->
  Z.land x (2 ^ w - 2 ^ n) = 2 ^ n * (x / 2 ^ n).
Proof.
  intros Hn Hx. replace (2 ^ w - 2 ^ n) with (Z.shiftl (Z.ones (w - n)) n).
  2: { rewrite Z.shiftl_mul_pow2, Z.ones_equiv by lia. unfold Z.pred.
       rewrite Z.mul_add_distr_r, <- Z.pow_add_r by lia.
       replace (w - n + n) with w by lia. lia. }
  rewrite Z.mul_comm, <- Z.shiftr_div_pow2, <- Z.shiftl_mul_pow2 by lia.
  apply Z.bits_inj'. intros i Hi. rewrite Z.land_spec, !Z.shiftl_spec by done.
  destruct (decide (i < n)) as [Hlt|Hge].
  - rewrite !(Z.testbit_neg_r _ (i - n)) by lia. by rewrite andb_false_r.
  - rewrite Z.shiftr_spec by lia. replace (i - n + n) with i by lia.
    destruct (decide (i < w)) as [Hw|Hw].
    + rewrite Z.ones_spec_low by lia. apply andb_true_r.
    + rewrite (testbit_high x w i) by lia. done.
Qed.

(** Two fields next to each other. *)
Lemma lor_shift x y n : 0 <= n -> 0 <= x < 2 ^ n -> Z.lor x (Z.shiftl y n) = x + y * 2 ^ n.
Proof.
  intros Hn Hx. assert (Z.land x (Z.shiftl y n) = 0) as H0.
  { apply Z.bits_inj'. intros i Hi. rewrite Z.land_spec, Z.bits_0. destruct (decide (i < n)) as [Hin|Hin].
    - rewrite Z.shiftl_spec_low by done. apply andb_false_r.
    - by rewrite (testbit_high x n) by lia. }
  rewrite <- Z.lxor_lor, <- Z.add_nocarry_lxor, Z.shiftl_mul_pow2 by done. done.
Qed.

(** ** Fields of a word *)

(** The [w] bits of [x] from bit [k] on. *)
Definition field (w k x : Z) : Z := Z.land (Z.shiftr x k) (Z.ones w).

Lemma field_bits w k x i : 0 <= w -> 0 <= k -> 0 <= i -> Z.testbit (field w k x) i = (i <? w) && Z.testbit x (i + k).
Proof.
  intros Hw Hk Hi. unfold field. rewrite Z.land_spec, Z.shiftr_spec, Z.testbit_ones by lia.
  rewrite (proj2 (Z.leb_le 0 i)) by done. apply andb_comm.
Qed.

Lemma field_range w k x : 0 <= w -> 0 <= field w k x < 2 ^ w.
Proof. intros Hw. unfold field. rewrite Z.land_ones by done. apply Z.mod_pos_bound. lia. Qed.

Lemma ones_shift_bits w k i : 0 <= w -> 0 <= k -> 0 <= i -> Z.testbit (Z.shiftl (Z.ones w) k) i = (k <=? i) && (i <? k + w).
Proof.
  intros Hw Hk Hi. rewrite Z.shiftl_spec by done. destruct (Z.leb_spec k i).
  - rewrite Z.testbit_ones_nonneg by lia. by destruct (Z.ltb_spec (i - k) w), (Z.ltb_spec i (k + w)); try lia.
  - rewrite Z.testbit_neg_r by lia. done.
Qed.

(** Writing a field: clear its bits, then set them. *)
Lemma field_set w k x v : 0 <= w -> 0 <= k -> 0 <= v < 2 ^ w ->
  field w k (Z.lor (Z.ldiff x (Z.shiftl (Z.ones w) k)) (Z.shiftl v k)) = v.
Proof.
  intros Hw Hk Hv. apply Z.bits_inj'. intros i Hi. rewrite field_bits by done.
  rewrite Z.lor_spec, Z.ldiff_spec, ones_shift_bits, Z.shiftl_spec by lia.
  replace (i + k - k) with i by lia. destruct (Z.ltb_spec i w); cbn [andb].
  - rewrite (proj2 (Z.leb_le k (i + k))), (proj2 (Z.ltb_lt (i + k) (k + w))) by lia. by rewrite andb_false_r.
  - by rewrite (testbit_high v w) by lia.
Qed.

Lemma field_other w k x v w' k' : 0 <= w -> 0 <= w' -> 0 <= k -> 0 <= k' -> 0 <= v < 2 ^ w -> k' + w' <= k \/ k + w <= k' ->
  field w' k' (Z.lor (Z.ldiff x (Z.shiftl (Z.ones w) k)) (Z.shiftl v k)) = field w' k' x.
Proof.
  intros Hw Hw' Hk Hk' Hv Hd. apply Z.bits_inj'. intros i Hi. rewrite !field_bits by done.
  destruct (Z.ltb_spec i w'); cbn [andb]; [|done].
  rewrite Z.lor_spec, Z.ldiff_spec, ones_shift_bits, Z.shiftl_spec by lia.
  assert ((k <=? i + k') && (i + k' <? k + w) = false) as ->.
  { apply andb_false_iff. destruct Hd; [left; apply Z.leb_gt|right; apply Z.ltb_ge]; lia. }
  rewrite andb_true_r. destruct Hd.
  - rewrite (Z.testbit_neg_r v) by lia. apply orb_false_r.
  - rewrite (testbit_high v w) by lia. apply orb_false_r.
Qed.

Lemma shiftl_range v w k n : 0 <= k -> 0 <= v < 2 ^ w -> w + k <= n -> 0 <= Z.shiftl v k < 2 ^ n.
Proof.
  intros Hk Hv Hn. rewrite Z.shiftl_mul_pow2 by done.
  assert (0 <= w) by (destruct (decide (0 <= w)); [done|]; rewrite Z.pow_neg_r in Hv; lia).
  assert (2 ^ (w + k) <= 2 ^ n) by (apply Z.pow_le_mono_r; lia). rewrite Z.pow_add_r in * by lia.
  split; [lia|]. apply Z.lt_le_trans with (2 ^ w * 2 ^ k); [|done]. apply Z.mul_lt_mono_pos_r; lia.
Qed.

(** A masked field, compared with a shifted constant. *)
Lemma land_field w k x c : 0 <= w -> 0 <= k -> (Z.land x (Z.shiftl (Z.ones w) k) =? Z.shiftl c k) = (field w k x =? c).
Proof.
  intros Hw Hk. assert (Z.land x (Z.shiftl (Z.ones w) k) = Z.shiftl (field w k x) k) as ->.
  { apply Z.bits_inj'. intros i Hi. rewrite Z.land_spec, ones_shift_bits, Z.shiftl_spec by done.
    destruct (Z.leb_spec k i); cbn [andb].
    - rewrite field_bits by lia. replace (i - k + k) with i by lia. rewrite andb_comm. f_equal.
      by destruct (Z.ltb_spec (i - k) w), (Z.ltb_spec i (k + w)); try lia.
    - rewrite (Z.testbit_neg_r (field _ _ _)) by lia. apply andb_false_r. }
  rewrite !Z.shiftl_mul_pow2 by done. destruct (Z.eqb_spec (field w k x) c) as [->|Hn]; [apply Z.eqb_refl|].
  apply Z.eqb_neq. intros E. apply Hn. by apply Z.mul_reg_r in E; [|lia].
Qed.

(** A masked field, shifted down. *)
Lemma shiftr_field w k x : 0 <= k -> Z.shiftr (Z.land x (Z.shiftl (Z.ones w) k)) k = field w k x.
Proof. intros Hk. unfold field. by rewrite Z.shiftr_land, Z.shiftr_shiftl_l, Z.sub_diag, Z.shiftl_0_r by lia. Qed.

(** A masked bit, tested. *)
Lemma land_bit k x : 0 <= k -> negb (Z.land x (Z.shiftl 1 k) =? 0) = (field 1 k x =? 1).
Proof.
  intros Hk. pose proof (land_field 1 k x 0 ltac:(lia) Hk) as E. rewrite Z.shiftl_0_l in E. change (Z.ones 1) with 1 in E.
  rewrite E. pose proof (field_range 1 k x ltac:(lia)).
  destruct (Z.eqb_spec (field 1 k x) 0), (Z.eqb_spec (field 1 k x) 1); done || lia.
Qed.
