(* ===== verification/Links.v ===== *)
(** * Linked lists in memory

    The shape predicates shared by every linked list of the development: the
    queues of libs/libc/queue, the free list of the memory manager and the
    task lists of the scheduler.  They are stated over the functions [F] and
    [B] that read a node's forward and backward link, so that they apply to
    any layout of the node in memory. *)

From S2P Require Import Prelude.
Local Open Scope Z_scope.

(** Last element of a list, or a default. *)
Definition lastd (d : Z) (l : list Z) : Z := default d (last l).

(** [slinks F l n]: the nodes of [l] are chained by their forward links and
    the last one points to [n]. *)
Fixpoint slinks (F : Z -> option Z) (l : list Z) (n : Z) : Prop :=
  match l with
  | [] => True
  | x :: l' => F x = Some (hd n l') /\ slinks F l' n
  end.

(** [dlinks F B p l n]: the nodes of [l] are chained in both directions; the
    first one points back to [p] and the last one forward to [n]. *)
Fixpoint dlinks (F B : Z -> option Z) (p : Z) (l : list Z) (n : Z) : Prop :=
  match l with
  | [] => True
  | x :: l' => F x = Some (hd n l') /\ B x = Some p /\ dlinks F B x l' n
  end.

Lemma lastd_app d l1 l2 : lastd d (l1 ++ l2) = lastd (lastd d l1) l2.
Proof. unfold lastd. rewrite last_app. by destruct (last l2). Qed.

Lemma lastd_cons d x l : lastd d (x :: l) = lastd x l.
Proof. apply (lastd_app d [x] l). Qed.

Lemma lastd_snoc d l x : lastd d (l ++ [x]) = x.
Proof. by rewrite lastd_app. Qed.

Lemma lastd_elem d l : l <> [] -> lastd d l ∈ l.
Proof.
  intros Hl. unfold lastd. destruct (last l) eqn:E; simpl.
  - by apply last_Some_elem_of.
  - by apply last_None in E.
Qed.

Lemma lastd_nonempty d d' l : l <> [] -> lastd d l = lastd d' l.
Proof. intros Hl. unfold lastd. destruct (last l) eqn:E; [done|]. by apply last_None in E. Qed.

Lemma hd_app (n : Z) (l1 l2 : list Z) : hd n (l1 ++ l2) = hd (hd n l2) l1.
Proof. by destruct l1. Qed.

Lemma hd_elem (n : Z) (l : list Z) : l <> [] -> hd n l ∈ l.
Proof. destruct l; [done|]. intros _. by left. Qed.

(** Case analysis on the last node of a list. *)
Lemma list_snoc_inv (l : list Z) : l = [] \/ exists l' x, l = l' ++ [x].
Proof. destruct l as [|? ? _] using rev_ind; eauto. Qed.

Section Slinks.
Implicit Types (F : Z -> option Z) (l : list Z).

Lemma slinks_ext F F' l n :
  (forall x, x ∈ l -> F' x = F x) -> slinks F l n -> slinks F' l n.
Proof.
  revert n. induction l as [|x l IH]; simpl; [done|].
  intros n HF [E H]. split.
  - rewrite HF; [done | by left].
  - apply IH; [|done]. intros y Hy. apply HF. by right.
Qed.

Lemma slinks_app F l1 l2 n :
  slinks F (l1 ++ l2) n <-> slinks F l1 (hd n l2) /\ slinks F l2 n.
Proof.
  induction l1 as [|x l1 IH]; simpl; [tauto|].
  rewrite IH, hd_app. tauto.
Qed.

(** The last node of the chain is redirected. *)
Lemma slinks_retail F F' l x n n' :
  x ∉ l -> (forall y, y <> x -> F' y = F y) -> F' x = Some n' ->
  slinks F (l ++ [x]) n -> slinks F' (l ++ [x]) n'.
Proof.
  intros Hx HF Ex [Hl _]%slinks_app. apply slinks_app. simpl. split; [|done].
  eapply slinks_ext; [|exact Hl]. intros y Hy. apply HF. set_solver.
Qed.

(** Insertion in the middle of a chain. *)
Lemma slinks_insert F F' l1 node l2 n :
  NoDup (l1 ++ l2) -> node ∉ l1 ++ l2 ->
  F' node = Some (hd n l2) ->
  (forall x, x ∈ l1 ++ l2 -> (l1 <> [] /\ x = lastd 0 l1) -> F' x = Some node) ->
  (forall x, x ∈ l1 ++ l2 -> ~ (l1 <> [] /\ x = lastd 0 l1) -> F' x = F x) ->
  slinks F (l1 ++ l2) n -> slinks F' (l1 ++ node :: l2) n.
Proof.
  intros Hnd Hfresh En Hlast Hother [H1 H2]%slinks_app.
  apply NoDup_app in Hnd as (Hnd1 & Hdisj & _).
  apply slinks_app. simpl. repeat split; [|done|].
  - destruct (list_snoc_inv l1) as [->|(l & x & ->)]; [done|].
    apply NoDup_app in Hnd1 as (_ & Hx & _).
    apply slinks_app. apply slinks_app in H1 as [H1 _]. simpl in *. split.
    + eapply slinks_ext; [|exact H1]. intros y Hy. apply Hother; [set_solver|].
      rewrite lastd_snoc. set_solver.
    + split; [|done]. apply Hlast; [set_solver|]. rewrite lastd_snoc. by destruct l.
  - eapply slinks_ext; [|exact H2]. intros y Hy. apply Hother; [set_solver|].
    intros [Hne ->]. eapply Hdisj; [|exact Hy]. by apply lastd_elem.
Qed.

(** Removal from the middle of a chain. *)
Lemma slinks_remove F F' l1 node l2 n :
  NoDup (l1 ++ node :: l2) ->
  (l1 <> [] -> F' (lastd 0 l1) = Some (hd n l2)) ->
  (forall x, x ∈ l1 ++ l2 -> ~ (l1 <> [] /\ x = lastd 0 l1) -> F' x = F x) ->
  slinks F (l1 ++ node :: l2) n -> slinks F' (l1 ++ l2) n.
Proof.
  intros Hnd Hlast Hother [H1 [_ H2]]%slinks_app.
  apply NoDup_app in Hnd as (Hnd1 & Hdisj & Hnd2).
  apply slinks_app. split.
  - destruct (list_snoc_inv l1) as [->|(l & x & ->)]; [done|].
    apply NoDup_app in Hnd1 as (_ & Hx & _).
    apply slinks_app. apply slinks_app in H1 as [H1 _]. simpl in *. split.
    + eapply slinks_ext; [|exact H1]. intros y Hy. apply Hother; [set_solver|].
      rewrite lastd_snoc. set_solver.
    + rewrite lastd_snoc in Hlast. split; [|done]. apply Hlast. by destruct l.
  - eapply slinks_ext; [|exact H2]. intros y Hy. apply Hother; [set_solver|].
    intros [Hne ->]. eapply (Hdisj (lastd 0 l1)); [by apply lastd_elem | by right].
Qed.
End Slinks.

Section Dlinks.
Implicit Types (F B : Z -> option Z) (l : list Z).

Lemma dlinks_ext F F' B B' p l n :
  (forall x, x ∈ l -> F' x = F x /\ B' x = B x) ->
  dlinks F B p l n -> dlinks F' B' p l n.
Proof.
  revert p. induction l as [|x l IH]; simpl; [done|].
  intros p HE (EF & EB & H). destruct (HE x) as [-> ->]; [by left|].
  repeat split; [done..|]. apply IH; [|done]. intros y Hy. apply HE. by right.
Qed.

Lemma dlinks_app F B p l1 l2 n :
  dlinks F B p (l1 ++ l2) n <->
  dlinks F B p l1 (hd n l2) /\ dlinks F B (lastd p l1) l2 n.
Proof.
  revert p. induction l1 as [|x l1 IH]; intros p; simpl; [unfold lastd; tauto|].
  rewrite IH, hd_app, lastd_cons. tauto.
Qed.

(** A double chain read forwards only. *)
Lemma dlinks_slinks F B p l n : dlinks F B p l n -> slinks F l n.
Proof. revert p. induction l; naive_solver. Qed.

(** The last node gets a new successor. *)
Lemma dlinks_next F F' B B' p l n n' :
  NoDup l ->
  (l <> [] -> F' (lastd 0 l) = Some n') ->
  (forall x, x ∈ l -> x <> lastd 0 l -> F' x = F x) ->
  (forall x, x ∈ l -> B' x = B x) ->
  dlinks F B p l n -> dlinks F' B' p l n'.
Proof.
  intros Hnd Hl HF HB H. destruct (list_snoc_inv l) as [->|(l' & x & ->)]; [done|].
  rewrite lastd_snoc in *. apply dlinks_app in H as (H1 & _ & EB & _).
  apply NoDup_app in Hnd as (_ & Hx & _).
  apply dlinks_app. repeat split.
  - eapply dlinks_ext; [|exact H1]. intros y Hy. split; [apply HF|apply HB]; set_solver.
  - apply Hl. by destruct l'.
  - rewrite HB; [done|set_solver].
Qed.

(** The first node gets a new predecessor. *)
Lemma dlinks_prev F F' B B' p p' l n :
  NoDup l ->
  (l <> [] -> B' (hd 0 l) = Some p') ->
  (forall x, x ∈ l -> F' x = F x) ->
  (forall x, x ∈ l -> x <> hd 0 l -> B' x = B x) ->
  dlinks F B p l n -> dlinks F' B' p' l n.
Proof.
  intros Hnd Hh HF HB. destruct l as [|x l]; [done|]. simpl in *.
  apply NoDup_cons in Hnd as [Hx _]. intros (EF & EB & H).
  repeat split.
  - rewrite HF; [done|by left].
  - by apply Hh.
  - eapply dlinks_ext; [|exact H]. intros y Hy. split; [apply HF|apply HB]; set_solver.
Qed.

(** Insertion: only the neighbours' links towards the new node change. *)
Lemma dlinks_insert F F' B B' p l1 node l2 n :
  NoDup (l1 ++ l2) ->
  F' node = Some (hd n l2) -> B' node = Some (lastd p l1) ->
  (l1 <> [] -> F' (lastd 0 l1) = Some node) ->
  (l2 <> [] -> B' (hd 0 l2) = Some node) ->
  (forall x, x ∈ l1 ++ l2 -> (l1 <> [] -> x <> lastd 0 l1) -> F' x = F x) ->
  (forall x, x ∈ l1 ++ l2 -> (l2 <> [] -> x <> hd 0 l2) -> B' x = B x) ->
  dlinks F B p (l1 ++ l2) n -> dlinks F' B' p (l1 ++ node :: l2) n.
Proof.
  intros Hnd EF EB Hl Hh HF HB [H1 H2]%dlinks_app.
  apply NoDup_app in Hnd as (Hnd1 & Hdisj & Hnd2).
  apply dlinks_app. simpl. repeat split; [|done|done|].
  - eapply dlinks_next; [done|done| | |exact H1]; intros x Hx.
    + intros Hne. apply HF; set_solver.
    + apply HB; [set_solver|]. intros Hl2 ->. eapply Hdisj; [exact Hx|]. by apply hd_elem.
  - eapply dlinks_prev; [done|done| | |exact H2]; intros x Hx.
    + apply HF; [set_solver|]. intros Hl1 ->. eapply Hdisj; [|exact Hx]. by apply lastd_elem.
    + intros Hne. apply HB; set_solver.
Qed.

(** Removal: only the neighbours' links towards the removed node change. *)
Lemma dlinks_remove F F' B B' p l1 node l2 n :
  NoDup (l1 ++ node :: l2) ->
  (l1 <> [] -> F' (lastd 0 l1) = Some (hd n l2)) ->
  (l2 <> [] -> B' (hd 0 l2) = Some (lastd p l1)) ->
  (forall x, x ∈ l1 ++ l2 -> (l1 <> [] -> x <> lastd 0 l1) -> F' x = F x) ->
  (forall x, x ∈ l1 ++ l2 -> (l2 <> [] -> x <> hd 0 l2) -> B' x = B x) ->
  dlinks F B p (l1 ++ node :: l2) n -> dlinks F' B' p (l1 ++ l2) n.
Proof.
  intros Hnd Hl Hh HF HB (H1 & _ & _ & H2)%dlinks_app.
  apply NoDup_app in Hnd as (Hnd1 & Hdisj & Hnd2). apply NoDup_cons in Hnd2 as [_ Hnd2].
  apply dlinks_app. split.
  - eapply dlinks_next; [done|done| | |exact H1]; intros x Hx.
    + intros Hne. apply HF; set_solver.
    + apply HB; [set_solver|]. intros Hl2 ->. eapply Hdisj; [exact Hx|].
      right. by apply hd_elem.
  - eapply dlinks_prev; [done|done| | |exact H2]; intros x Hx.
    + apply HF; [set_solver|]. intros Hl1 ->.
      eapply (Hdisj (lastd 0 l1)); [by apply lastd_elem|by right].
    + intros Hne. apply HB; set_solver.
Qed.

(** The links stored in a node of the chain. *)
Lemma dlinks_mid F B p l1 node l2 n :
  dlinks F B p (l1 ++ node :: l2) n ->
  F node = Some (hd n l2) /\ B node = Some (lastd p l1).
Proof. intros (_ & ? & ? & _)%dlinks_app. done. Qed.
End Dlinks.
