(* ===== verification/Queue.v ===== *)
(** * Singly and doubly linked queues (src/nuttx/libs/libc/queue)

    [Sq] and [Dq] model the [sq_*] and [dq_*] functions on linked nodes.  The
    forward (and backward) link of every node is kept in a map from node
    addresses to links; a queue object ([head], [tail]) is passed and returned
    by value, where the C code updates it through a pointer.  Each module ends
    with the representation predicate that ties the linked nodes to the list
    of their addresses, and with one lemma per function. *)

From S2P Require Import Prelude Links.
Local Open Scope Z_scope.

(** Only the links of the nodes in [l] may have changed. *)
Definition frame (l : list Z) (m m' : mem) : Prop :=
  forall x, x ∉ l -> m' !! x = m !! x.

(** Fuel for a walk along links: one step per node, and one for the NULL. *)
Definition walk_fuel (m : mem) : nat := S (size m).

Module Sq.

Record sq_queue_s := SQ { sq_head : Z; sq_tail : Z }.

Definition sq_init : sq_queue_s := SQ 0 0.

(** [sq_move(q1, q2)]: the new [q1] and [q2]. *)
Definition sq_move (q1 q2 : sq_queue_s) : sq_queue_s * sq_queue_s :=
  (SQ 0 0, SQ (sq_head q1) (sq_tail q1)).

Definition sq_empty (q : sq_queue_s) : bool := sq_head q =? 0.

Definition sq_addfirst (fl : mem) (q : sq_queue_s) (node : Z) : res (mem * sq_queue_s) :=
  fl ← store fl node (sq_head q);
  let q := if sq_head q =? 0 then SQ (sq_head q) node else q in
  Ok (fl, SQ node (sq_tail q)).

Definition sq_addlast (fl : mem) (q : sq_queue_s) (node : Z) : res (mem * sq_queue_s) :=
  fl ← store fl node 0;
  if sq_head q =? 0 then Ok (fl, SQ node node)
  else
    fl ← store fl (sq_tail q) node;
    Ok (fl, SQ (sq_head q) node).

Definition sq_addafter (fl : mem) (q : sq_queue_s) (prev node : Z) : res (mem * sq_queue_s) :=
  if (sq_head q =? 0) || (prev =? sq_tail q) then sq_addlast fl q node
  else
    n ← load fl prev;
    fl ← store fl node n;
    fl ← store fl prev node;
    Ok (fl, q).

Definition sq_remfirst (fl : mem) (q : sq_queue_s) : res (mem * sq_queue_s * Z) :=
  let ret := sq_head q in
  if ret =? 0 then Ok (fl, q, ret)
  else
    n ← load fl ret;
    let q := SQ n (if n =? 0 then 0 else sq_tail q) in
    fl ← store fl ret 0;
    Ok (fl, q, ret).

Definition sq_remafter (fl : mem) (q : sq_queue_s) (node : Z) : res (mem * sq_queue_s * Z) :=
  ret ← load fl node;
  if negb (sq_head q =? 0) && negb (ret =? 0) then
    '(fl, q) ←
      (if sq_tail q =? ret then
         fl ← store fl node 0;
         Ok (fl, SQ (sq_head q) node)
       else
         n ← load fl ret;
         fl ← store fl node n;
         Ok (fl, q));
    fl ← store fl ret 0;
    Ok (fl, q, ret)
  else Ok (fl, q, ret).

(** [for (; prev && prev->flink != node; prev = prev->flink);] *)
Fixpoint sq_findprev (fuel : nat) (fl : mem) (prev node : Z) : res Z :=
  match fuel with
  | O => Err Diverge
  | S fuel =>
      if prev =? 0 then Ok 0
      else
        n ← load fl prev;
        if n =? node then Ok prev else sq_findprev fuel fl n node
  end.

Definition sq_remlast (fl : mem) (q : sq_queue_s) : res (mem * sq_queue_s * Z) :=
  let ret := sq_tail q in
  if ret =? 0 then Ok (fl, q, ret)
  else
    '(fl, q) ←
      (if sq_head q =? sq_tail q then Ok (fl, SQ 0 0)
       else
         prev ← sq_findprev (walk_fuel fl) fl (sq_head q) ret;
         if prev =? 0 then Ok (fl, q)
         else
           fl ← store fl prev 0;
           Ok (fl, SQ (sq_head q) prev));
    fl ← store fl ret 0;
    Ok (fl, q, ret).

Definition sq_rem (fl : mem) (q : sq_queue_s) (node : Z) : res (mem * sq_queue_s) :=
  if negb (sq_head q =? 0) && negb (node =? 0) then
    if node =? sq_head q then
      n ← load fl node;
      Ok (fl, SQ n (if node =? sq_tail q then 0 else sq_tail q))
    else
      prev ← sq_findprev (walk_fuel fl) fl (sq_head q) node;
      if prev =? 0 then Ok (fl, q)
      else
        '(fl, q, _) ← sq_remafter fl q prev;
        Ok (fl, q)
  else Ok (fl, q).

(** [sq_cat(queue1, queue2)]: the new [queue1] and [queue2]. *)
Definition sq_cat (fl : mem) (queue1 queue2 : sq_queue_s)
    : res (mem * sq_queue_s * sq_queue_s) :=
  if sq_empty queue2 then
    let '(queue1, queue2) := sq_move queue1 queue2 in Ok (fl, queue1, queue2)
  else if negb (sq_empty queue1) then
    fl ← store fl (sq_tail queue2) (sq_head queue1);
    Ok (fl, sq_init, SQ (sq_head queue2) (sq_tail queue1))
  else Ok (fl, queue1, queue2).

Fixpoint sq_count_loop (fuel : nat) (fl : mem) (node count : Z) : res Z :=
  match fuel with
  | O => Err Diverge
  | S fuel =>
      if node =? 0 then Ok count
      else n ← load fl node; sq_count_loop fuel fl n (count + 1)
  end.

Definition sq_count (fl : mem) (q : sq_queue_s) : res Z :=
  sq_count_loop (walk_fuel fl) fl (sq_head q) 0.

(** The queue object [q] with links [fl] holds the nodes [l], in this order. *)
Record sq_rep (fl : mem) (q : sq_queue_s) (l : list Z) : Prop := {
  sqr_nodup : NoDup l;
  sqr_null : 0 ∉ l;
  sqr_links : slinks (fun x => fl !! x) l 0;
  sqr_head : sq_head q = hd 0 l;
  sqr_tail : sq_tail q = lastd 0 l
}.

(** A node that can be linked: not NULL and part of the memory. *)
Definition is_node (fl : mem) (x : Z) : Prop := x <> 0 /\ is_Some (fl !! x).

(** ** Lemmas *)

Lemma sq_rep_node fl q l x : sq_rep fl q l -> x ∈ l -> is_node fl x.
Proof.
  intros H Hx. split; [intros ->; by apply (sqr_null _ _ _ H)|].
  destruct (list_elem_of_split _ _ Hx) as (l1 & l2 & ->).
  destruct H as [_ _ H _ _]. apply slinks_app in H as [_ [E _]]. eauto.
Qed.

Lemma sq_rep_length fl q l : sq_rep fl q l -> (length l < walk_fuel fl)%nat.
Proof.
  intros H. unfold walk_fuel. apply Nat.lt_succ_r, nodup_length_size; [apply H|].
  intros x Hx. by eapply sq_rep_node.
Qed.

Lemma sq_rep_head fl q l : sq_rep fl q l -> (sq_head q =? 0) = bool_decide (l = []).
Proof.
  intros H. rewrite (sqr_head _ _ _ H). destruct (decide (l = [])) as [->|Hl]; [done|].
  rewrite bool_decide_eq_false_2 by done. apply Z.eqb_neq.
  by apply (sq_rep_node _ _ _ _ H), hd_elem.
Qed.

Lemma sq_rep_tail fl q l : sq_rep fl q l -> (sq_tail q =? 0) = bool_decide (l = []).
Proof.
  intros H. rewrite (sqr_tail _ _ _ H). destruct (decide (l = [])) as [->|Hl]; [done|].
  rewrite bool_decide_eq_false_2 by done. apply Z.eqb_neq.
  by apply (sq_rep_node _ _ _ _ H), lastd_elem.
Qed.

Lemma sq_init_spec fl : sq_rep fl sq_init [].
Proof. split; simpl; [constructor | set_solver | done..]. Qed.

Lemma sq_addfirst_spec fl q l node :
  sq_rep fl q l -> is_node fl node -> node ∉ l ->
  exists fl' q', sq_addfirst fl q node = Ok (fl', q') /\
    sq_rep fl' q' (node :: l) /\ frame [node] fl fl'.
Proof.
  intros H [Hn Hs] Hnl. unfold sq_addfirst. run.
  rewrite (sq_rep_head _ _ _ H). do 2 eexists. split; [done|]. split.
  - split; simpl.
    + by apply NoDup_cons_2; [|apply H].
    + pose proof (sqr_null _ _ _ H). set_solver.
    + split; [rewrite lookup_insert_eq; by rewrite (sqr_head _ _ _ H)|].
      eapply slinks_ext; [|apply H]. intros x Hx. rewrite lookup_insert_ne; [done|set_solver].
    + done.
    + rewrite lastd_cons. case_bool_decide as E; simpl; [by subst l|].
      rewrite (sqr_tail _ _ _ H). by apply lastd_nonempty.
  - intros x Hx. rewrite lookup_insert_ne; [done|set_solver].
Qed.

Lemma sq_addlast_spec fl q l node :
  sq_rep fl q l -> is_node fl node -> node ∉ l ->
  exists fl' q', sq_addlast fl q node = Ok (fl', q') /\
    sq_rep fl' q' (l ++ [node]) /\ frame (node :: l) fl fl'.
Proof.
  intros H [Hn Hs] Hnl. unfold sq_addlast. run. rewrite (sq_rep_head _ _ _ H).
  case_bool_decide as E.
  - subst l. do 2 eexists. split; [done|]. split.
    + split; simpl; [apply NoDup_singleton | set_solver | | done | done].
      by rewrite lookup_insert_eq.
    + intros x Hx. rewrite lookup_insert_ne; [done|set_solver].
  - rewrite (sqr_tail _ _ _ H), (sqr_head _ _ _ H).
    pose proof (lastd_elem 0 l E) as Ht.
    destruct (sq_rep_node _ _ _ _ H Ht) as [Ht0 Hts]. run.
    do 2 eexists. split; [done|]. split.
    + split; simpl.
      * apply NoDup_app. split; [apply H|]. split; [set_solver|apply NoDup_singleton].
      * pose proof (sqr_null _ _ _ H). set_solver.
      * apply (slinks_insert (fun x => fl !! x) _ l node []); rewrite ?app_nil_r.
        -- apply H.
        -- done.
        -- rewrite lookup_insert_ne by set_solver. by rewrite lookup_insert_eq.
        -- intros x _ [_ ->]. by rewrite lookup_insert_eq.
        -- intros x Hx Hnx. rewrite !lookup_insert_ne; [done|set_solver..].
        -- apply H.
      * rewrite hd_app. destruct l; [done|reflexivity].
      * by rewrite lastd_snoc.
    + intros x Hx. rewrite !lookup_insert_ne; [done|set_solver..].
Qed.

Lemma sq_addafter_spec fl q l1 prev l2 node :
  sq_rep fl q (l1 ++ prev :: l2) -> is_node fl node -> node ∉ l1 ++ prev :: l2 ->
  exists fl' q', sq_addafter fl q prev node = Ok (fl', q') /\
    sq_rep fl' q' (l1 ++ prev :: node :: l2) /\ frame (node :: l1 ++ prev :: l2) fl fl'.
Proof.
  intros H Hnode Hnl. unfold sq_addafter. rewrite (sq_rep_head _ _ _ H).
  rewrite bool_decide_eq_false_2 by (by destruct l1). simpl.
  assert (Hp : prev ∈ l1 ++ prev :: l2) by set_solver.
  destruct (sq_rep_node _ _ _ _ H Hp) as [Hp0 Hps].
  pose proof (sqr_nodup _ _ _ H) as Hnd. pose proof (sqr_links _ _ _ H) as Hl.
  apply slinks_app in Hl as (_ & Ep & _).
  destruct (prev =? sq_tail q) eqn:E; b2p.
  - assert (l2 = []) as ->.
    { destruct l2 as [|y l2]; [done|]. exfalso.
      rewrite (sqr_tail _ _ _ H), lastd_app, lastd_cons, lastd_cons in E.
      apply NoDup_app in Hnd as (_ & _ & Hnd). apply NoDup_cons in Hnd as [Hnd _].
      destruct (decide (l2 = [])) as [->|Hl2]; [set_solver|].
      apply Hnd. right. rewrite E. by apply lastd_elem. }
    destruct (sq_addlast_spec _ _ _ _ H Hnode Hnl) as (fl' & q' & Eq & Hr & Hf).
    exists fl', q'. rewrite <- app_assoc in Hr. repeat split; [done|apply Hr..|done].
  - destruct Hnode as [Hn Hs]. run. do 2 eexists. split; [done|].
    assert (Hne : prev <> node) by set_solver. split.
    + assert (Hperm : forall x, x ∈ l1 ++ prev :: node :: l2 <-> x = node \/ x ∈ l1 ++ prev :: l2)
        by set_solver.
      replace (l1 ++ prev :: node :: l2) with ((l1 ++ [prev]) ++ node :: l2) in *
        by (by rewrite <- app_assoc).
      replace (l1 ++ prev :: l2) with ((l1 ++ [prev]) ++ l2) in *
        by (by rewrite <- app_assoc).
      split; simpl.
      * apply NoDup_app in Hnd as (? & Hd & ?). apply NoDup_app.
        split; [done|]. split; [set_solver|]. apply NoDup_cons. set_solver.
      * pose proof (sqr_null _ _ _ H). set_solver.
      * apply (slinks_insert (fun x => fl !! x)); [done|set_solver|..|apply H].
        -- rewrite lookup_insert_ne by done. by rewrite lookup_insert_eq.
        -- intros x _ [_ ->]. rewrite lastd_snoc. by rewrite lookup_insert_eq.
        -- intros x Hx Hnx. rewrite lastd_snoc in Hnx.
           rewrite !lookup_insert_ne; [done|set_solver|].
           intros ->. apply Hnx. split; [by destruct l1|done].
      * rewrite (sqr_head _ _ _ H), !hd_app. by destruct l1.
      * rewrite (sqr_tail _ _ _ H) in *. rewrite !lastd_app, !lastd_cons.
        destruct l2 as [|y l2]; [|by rewrite !lastd_cons].
        rewrite app_nil_r, lastd_snoc in E. done.
    + intros x Hx. rewrite !lookup_insert_ne; [done|set_solver..].
Qed.

Lemma sq_remfirst_spec fl q l :
  sq_rep fl q l ->
  exists fl' q', sq_remfirst fl q = Ok (fl', q', hd 0 l) /\
    sq_rep fl' q' (tl l) /\ frame (take 1 l) fl fl'.
Proof.
  intros H. unfold sq_remfirst. rewrite (sq_rep_head _ _ _ H), (sqr_head _ _ _ H).
  destruct l as [|x l].
  - rewrite bool_decide_eq_true_2 by done. 
    do 2 eexists. split; [done|]. split; [done|]. by intros x Hx.
  - rewrite bool_decide_eq_false_2 by done. simpl.
    destruct (sq_rep_node _ _ _ x H) as [Hx0 Hxs]; [by left|].
    destruct (sqr_links _ _ _ H) as [Ex Hl]. pose proof (sqr_nodup _ _ _ H) as Hnd.
    apply NoDup_cons in Hnd as [Hx Hnd]. run. do 2 eexists. split; [done|]. split.
    + split; simpl; [done| | |done|].
      * pose proof (sqr_null _ _ _ H). set_solver.
      * eapply slinks_ext; [|exact Hl]. intros y Hy. rewrite lookup_insert_ne; [done|set_solver].
      * rewrite (sqr_tail _ _ _ H), lastd_cons. destruct l as [|y l]; [done|]. simpl.
        destruct (sq_rep_node _ _ _ y H) as [Hy0 _]; [set_solver|].
        apply Z.eqb_neq in Hy0. by rewrite Hy0, !lastd_cons.
    + intros y Hy. rewrite lookup_insert_ne; [done|set_solver].
Qed.

(** Unlinking the node after [p]: the store that redirects [p] and the one
    that clears the removed node, in either order. *)
Lemma sq_unlink fl q q' l1 p x l2 fl' :
  sq_rep fl q (l1 ++ p :: x :: l2) ->
  fl' !! p = Some (hd 0 l2) ->
  frame [p; x] fl fl' ->
  sq_head q' = sq_head q ->
  sq_tail q' = lastd 0 (l1 ++ p :: l2) ->
  sq_rep fl' q' (l1 ++ p :: l2).
Proof.
  intros H Ep Hf Eh Et. pose proof (sqr_nodup _ _ _ H) as Hnd.
  pose proof (sqr_links _ _ _ H) as Hl. pose proof (sqr_head _ _ _ H) as Hh.
  pose proof (sqr_null _ _ _ H) as H0.
  replace (l1 ++ p :: x :: l2) with ((l1 ++ [p]) ++ x :: l2) in * by (by rewrite <- app_assoc).
  replace (l1 ++ p :: l2) with ((l1 ++ [p]) ++ l2) in * by (by rewrite <- app_assoc).
  assert (Hnd' : NoDup ((l1 ++ [p]) ++ l2)).
  { apply NoDup_app in Hnd as (? & ? & [_ ?]%NoDup_cons). apply NoDup_app. set_solver. }
  split; [done | set_solver | | | done].
  - apply (slinks_remove (fun x => fl !! x) _ _ x); [done| | |done].
    + rewrite lastd_snoc. done.
    + intros y Hy Hny. apply Hf. rewrite lastd_snoc in Hny.
      assert (y <> p) by (intros ->; apply Hny; split; [by destruct l1|done]).
      apply NoDup_app in Hnd as (_ & Hd & [Hx _]%NoDup_cons). set_solver.
  - rewrite Eh, Hh, !hd_app. by destruct l1.
Qed.

Lemma sq_remafter_spec fl q l1 p l2 :
  sq_rep fl q (l1 ++ p :: l2) ->
  exists fl' q', sq_remafter fl q p = Ok (fl', q', hd 0 l2) /\
    sq_rep fl' q' (l1 ++ p :: tl l2) /\ frame (p :: take 1 l2) fl fl'.
Proof.
  intros H. unfold sq_remafter.
  destruct (sq_rep_node _ _ _ p H) as [Hp0 Hps]; [set_solver|].
  pose proof (sqr_links _ _ _ H) as Hl. apply slinks_app in Hl as (_ & Ep & Hl).
  run. rewrite (sq_rep_head _ _ _ H). rewrite bool_decide_eq_false_2 by (by destruct l1).
  destruct l2 as [|x l2].
  { simpl. do 2 eexists. split; [done|]. split; [done|]. by intros ??. }
  simpl in *. destruct (sq_rep_node _ _ _ x H) as [Hx0 Hxs]; [set_solver|].
  assert (Hpx : p <> x /\ x ∉ l2).
  { pose proof (sqr_nodup _ _ _ H) as Hnd.
    apply NoDup_app in Hnd as (_ & _ & [Hnd [Hnd' _]%NoDup_cons]%NoDup_cons). set_solver. }
  destruct Hpx as [Hpx Hxl]. destruct Hl as [Ex Hl].
  replace (x =? 0) with false by (symmetry; by apply Z.eqb_neq). simpl.
  assert (Ht : (sq_tail q =? x) = bool_decide (l2 = [])).
  { rewrite (sqr_tail _ _ _ H), lastd_app, !lastd_cons.
    destruct (decide (l2 = [])) as [->|Hne]; [by apply Z.eqb_refl|].
    rewrite bool_decide_eq_false_2 by done. apply Z.eqb_neq. intros E.
    apply Hxl. rewrite <- E. by apply lastd_elem. }
  rewrite Ht. case_bool_decide as E2.
  - subst l2. run. do 2 eexists. split; [done|].
    assert (Hf : frame [p; x] fl (<[x:=0]> (<[p:=0]> fl)))
      by (intros y Hy; rewrite !lookup_insert_ne; [done|set_solver..]).
    split; [|done]. eapply sq_unlink; [exact H| |done..|].
    + rewrite lookup_insert_ne by done. by rewrite lookup_insert_eq.
    + simpl. by rewrite lastd_snoc.
  - run. do 2 eexists. split; [done|].
    assert (Hf : frame [p; x] fl (<[x:=0]> (<[p:=hd 0 l2]> fl)))
      by (intros y Hy; rewrite !lookup_insert_ne; [done|set_solver..]).
    split; [|done]. eapply sq_unlink; [exact H| |done..|].
    + rewrite lookup_insert_ne by done. by rewrite lookup_insert_eq.
    + rewrite (sqr_tail _ _ _ H), !lastd_app, !lastd_cons. by apply lastd_nonempty.
Qed.

Lemma sq_findprev_found fl l1 p x l2 fuel n :
  slinks (fun x => fl !! x) (l1 ++ p :: x :: l2) n -> NoDup (l1 ++ p :: x :: l2) ->
  0 ∉ l1 ++ p :: x :: l2 -> (length l1 < fuel)%nat ->
  sq_findprev fuel fl (hd 0 (l1 ++ [p])) x = Ok p.
Proof.
  revert fuel. induction l1 as [|y l1 IH]; intros fuel Hl Hnd H0 Hfuel;
    destruct fuel as [|fuel]; simpl in *; try lia.
  - assert (p <> 0) by set_solver. destruct Hl as [Ep _].
    rewrite (proj2 (Z.eqb_neq p 0)) by done. run. by rewrite Z.eqb_refl.
  - assert (y <> 0) by set_solver. destruct Hl as [Ey Hl].
    rewrite (proj2 (Z.eqb_neq y 0)) by done. run.
    apply NoDup_cons in Hnd as [Hy Hnd].
    assert (E : hd n (l1 ++ p :: x :: l2) = hd 0 (l1 ++ [p])) by (by rewrite !hd_app).
    rewrite E. rewrite (proj2 (Z.eqb_neq _ x)).
    + apply IH; [done|done|set_solver|lia].
    + destruct l1 as [|z l1]; simpl.
      * apply NoDup_cons in Hnd. set_solver.
      * apply NoDup_cons in Hnd. set_solver.
Qed.

Lemma sq_findprev_notfound fl l x fuel :
  slinks (fun x => fl !! x) l 0 -> 0 ∉ l -> x <> 0 -> x ∉ tl l -> (length l < fuel)%nat ->
  sq_findprev fuel fl (hd 0 l) x = Ok 0.
Proof.
  revert fuel. induction l as [|y l IH]; intros fuel Hl H0 Hx Hxl Hfuel;
    destruct fuel as [|fuel]; simpl in *; try lia; [done|].
  assert (y <> 0) by set_solver. destruct Hl as [Ey Hl].
  rewrite (proj2 (Z.eqb_neq y 0)) by done. run.
  rewrite (proj2 (Z.eqb_neq _ x)) by (destruct l; set_solver).
  apply IH; [done|set_solver|done| |lia]. destruct l; set_solver.
Qed.

Lemma sq_remlast_spec fl q l x :
  sq_rep fl q (l ++ [x]) ->
  exists fl' q', sq_remlast fl q = Ok (fl', q', x) /\
    sq_rep fl' q' l /\ frame (l ++ [x]) fl fl'.
Proof.
  intros H. unfold sq_remlast. rewrite (sqr_tail _ _ _ H), (sqr_head _ _ _ H), lastd_snoc.
  destruct (sq_rep_node _ _ _ x H) as [Hx0 Hxs]; [set_solver|].
  rewrite (proj2 (Z.eqb_neq x 0)) by done.
  destruct (list_snoc_inv l) as [->|(l1 & p & ->)].
  - simpl. rewrite Z.eqb_refl. run. do 2 eexists. split; [done|]. split; [apply sq_init_spec|].
    intros y Hy. rewrite lookup_insert_ne; [done|set_solver].
  - assert (E : (hd 0 ((l1 ++ [p]) ++ [x]) =? x) = false).
    { apply Z.eqb_neq. pose proof (sqr_nodup _ _ _ H) as (_ & Hd & _)%NoDup_app.
      rewrite hd_app. intros E. apply (Hd x); [|set_solver].
      rewrite <- E at 1. apply hd_elem. by destruct l1. }
    rewrite E. rewrite <- app_assoc in H. simpl in H.
    pose proof (sq_rep_length _ _ _ H) as Hlen.
    replace (hd 0 ((l1 ++ [p]) ++ [x])) with (hd 0 (l1 ++ [p])) by (by destruct l1).
    rewrite (sq_findprev_found fl l1 p x [] _ 0); [|apply H..|].
    2: { rewrite length_app in Hlen. simpl in Hlen. lia. }
    destruct (sq_rep_node _ _ _ p H) as [Hp0 Hps]; [set_solver|].
    run. rewrite (proj2 (Z.eqb_neq p 0)) by done. run.
    do 2 eexists. split; [done|].
    assert (Hpx : p <> x).
    { pose proof (sqr_nodup _ _ _ H) as (_ & _ & [Hd _]%NoDup_cons)%NoDup_app. set_solver. }
    split.
    + eapply sq_unlink; [exact H| | | |].
      * rewrite lookup_insert_ne by done. by rewrite lookup_insert_eq.
      * intros y Hy. rewrite !lookup_insert_ne; [done|set_solver..].
      * simpl. rewrite (sqr_head _ _ _ H). by destruct l1.
      * simpl. by rewrite lastd_snoc.
    + intros y Hy. rewrite !lookup_insert_ne; [done|set_solver..].
Qed.

Lemma sq_remlast_empty fl q : sq_rep fl q [] -> sq_remlast fl q = Ok (fl, q, 0).
Proof. intros H. unfold sq_remlast. by rewrite (sqr_tail _ _ _ H). Qed.

Lemma sq_rem_spec fl q l1 x l2 :
  sq_rep fl q (l1 ++ x :: l2) ->
  exists fl' q', sq_rem fl q x = Ok (fl', q') /\
    sq_rep fl' q' (l1 ++ l2) /\ frame (l1 ++ [x]) fl fl'.
Proof.
  intros H. unfold sq_rem. rewrite (sq_rep_head _ _ _ H).
  rewrite bool_decide_eq_false_2 by (by destruct l1).
  destruct (sq_rep_node _ _ _ x H) as [Hx0 Hxs]; [set_solver|].
  rewrite (proj2 (Z.eqb_neq x 0)) by done. cbn [negb andb]. rewrite (sqr_head _ _ _ H).
  pose proof (sqr_nodup _ _ _ H) as Hnd.
  destruct (list_snoc_inv l1) as [->|(l & p & ->)].
  - simpl in *. rewrite Z.eqb_refl. destruct (sqr_links _ _ _ H) as [Ex Hl]. run.
    apply NoDup_cons in Hnd as [Hx Hnd].
    do 2 eexists. split; [done|]. split; [|by intros ??].
    split; simpl; [done| |done|done|].
    + pose proof (sqr_null _ _ _ H). set_solver.
    + rewrite (sqr_tail _ _ _ H), lastd_cons. destruct (decide (l2 = [])) as [->|Hne].
      * unfold lastd. simpl. by rewrite Z.eqb_refl.
      * rewrite (proj2 (Z.eqb_neq _ _)); [by apply lastd_nonempty|].
        intros E. apply Hx. rewrite E. by apply lastd_elem.
  - rewrite (proj2 (Z.eqb_neq x _)).
    2: { apply NoDup_app in Hnd as (_ & Hd & _). intros E. apply (Hd x); [|set_solver].
         rewrite E, hd_app. apply hd_elem. by destruct l. }
    rewrite <- app_assoc in H, Hnd. simpl in H, Hnd.
    pose proof (sq_rep_length _ _ _ H) as Hlen.
    replace (hd 0 ((l ++ [p]) ++ x :: l2)) with (hd 0 (l ++ [p])) by (by destruct l).
    rewrite (sq_findprev_found fl l p x l2 _ 0); [|apply H..|].
    2: { rewrite length_app in Hlen. simpl in Hlen. lia. }
    destruct (sq_rep_node _ _ _ p H) as [Hp0 _]; [set_solver|].
    run. rewrite (proj2 (Z.eqb_neq p 0)) by done.
    destruct (sq_remafter_spec _ _ _ _ _ H) as (fl' & q' & -> & Hr & Hf). run.
    exists fl', q'. split; [done|]. rewrite <- app_assoc. split; [done|].
    intros y Hy. apply Hf. set_solver.
Qed.

Lemma sq_rem_absent fl q l x : sq_rep fl q l -> x ∉ l -> sq_rem fl q x = Ok (fl, q).
Proof.
  intros H Hx. unfold sq_rem. rewrite (sq_rep_head _ _ _ H). case_bool_decide as E; [done|].
  destruct (x =? 0) eqn:Ex; b2p; [done|]. cbn [negb andb].
  rewrite (proj2 (Z.eqb_neq x _)) by (rewrite (sqr_head _ _ _ H); intros ->; by apply Hx, hd_elem).
  rewrite (sqr_head _ _ _ H), (sq_findprev_notfound fl l x); [done|apply H..|done| |].
  - destruct l; set_solver.
  - by eapply sq_rep_length.
Qed.

Lemma sq_cat_spec fl q1 q2 l1 l2 :
  sq_rep fl q1 l1 -> sq_rep fl q2 l2 -> l1 ## l2 ->
  exists fl' q2', sq_cat fl q1 q2 = Ok (fl', sq_init, q2') /\
    sq_rep fl' q2' (l2 ++ l1) /\ frame l2 fl fl'.
Proof.
  intros H1 H2 Hd. unfold sq_cat, sq_empty.
  rewrite (sq_rep_head _ _ _ H1), (sq_rep_head _ _ _ H2).
  case_bool_decide as E2; [subst l2|case_bool_decide as E1; [subst l1|]]; simpl.
  - do 2 eexists. split; [done|]. split; [|by intros ??]. by destruct q1, H1.
  - exists fl, q2. rewrite app_nil_r. split; [|by split; [|intros ??]].
    pose proof (sqr_head _ _ _ H1) as Eh. pose proof (sqr_tail _ _ _ H1) as Et.
    destruct q1. simpl in *. by subst.
  - pose proof (lastd_elem 0 l2 E2) as Ht. rewrite (sqr_tail _ _ _ H2).
    destruct (sq_rep_node _ _ _ _ H2 Ht) as [Ht0 Hts]. run.
    do 2 eexists. split; [done|]. split.
    + split; simpl.
      * apply NoDup_app. split; [apply H2|]. split; [set_solver|apply H1].
      * pose proof (sqr_null _ _ _ H1). pose proof (sqr_null _ _ _ H2). set_solver.
      * apply slinks_app. destruct (list_snoc_inv l2) as [->|(l & x & ->)]; [done|].
        rewrite lastd_snoc in *. split.
        -- eapply slinks_retail; [| |by rewrite lookup_insert_eq, (sqr_head _ _ _ H1)|apply H2].
           ++ pose proof (sqr_nodup _ _ _ H2) as (_ & Hdd & _)%NoDup_app. set_solver.
           ++ intros y Hy. by rewrite lookup_insert_ne.
        -- eapply slinks_ext; [|apply H1]. intros y Hy. rewrite lookup_insert_ne; [done|set_solver].
      * rewrite (sqr_head _ _ _ H2), hd_app. by destruct l2.
      * rewrite (sqr_tail _ _ _ H1), lastd_app. by apply lastd_nonempty.
    + intros y Hy. rewrite lookup_insert_ne; [done|set_solver].
Qed.

Lemma sq_count_loop_spec fl l fuel c :
  slinks (fun x => fl !! x) l 0 -> 0 ∉ l -> (length l < fuel)%nat ->
  sq_count_loop fuel fl (hd 0 l) c = Ok (c + Z.of_nat (length l)).
Proof.
  revert fuel c. induction l as [|x l IH]; intros fuel c Hl H0 Hfuel;
    destruct fuel as [|fuel]; simpl in *; try lia.
  - f_equal. lia.
  - destruct Hl as [Ex Hl]. assert (x <> 0) by set_solver.
    rewrite (proj2 (Z.eqb_neq x 0)) by done. run.
    rewrite IH; [f_equal; lia|done|set_solver|lia].
Qed.

Lemma sq_count_spec fl q l : sq_rep fl q l -> sq_count fl q = Ok (Z.of_nat (length l)).
Proof.
  intros H. unfold sq_count. rewrite (sqr_head _ _ _ H).
  rewrite sq_count_loop_spec; [done|apply H..|]. by eapply sq_rep_length.
Qed.

(** ** Refinement of a list of nodes

    The abstract queue is the list of its node addresses.  [sq_op] names the
    operations, [list_step] gives their meaning on lists, [sq_step] runs the
    modelled code. *)

Inductive sq_op :=
  | AddFirst (node : Z) | AddLast (node : Z) | AddAfter (prev node : Z)
  | RemFirst | RemLast | RemAfter (node : Z) | Rem (node : Z) | Count.

Fixpoint insert_after (p x : Z) (l : list Z) : list Z :=
  match l with
  | [] => []
  | y :: l => if decide (y = p) then y :: x :: l else y :: insert_after p x l
  end.

Fixpoint remove_after (p : Z) (l : list Z) : list Z * Z :=
  match l with
  | [] => ([], 0)
  | y :: l =>
      if decide (y = p) then (y :: tl l, hd 0 l)
      else let '(l', r) := remove_after p l in (y :: l', r)
  end.

Definition list_step (l : list Z) (op : sq_op) : list Z * Z :=
  match op with
  | AddFirst x => (x :: l, 0)
  | AddLast x => (l ++ [x], 0)
  | AddAfter p x => (insert_after p x l, 0)
  | RemFirst => (tl l, hd 0 l)
  | RemLast => (removelast l, lastd 0 l)
  | RemAfter p => remove_after p l
  | Rem x => (filter (fun y => y <> x) l, 0)
  | Count => (l, Z.of_nat (length l))
  end.

(** What the callers of each operation have to ensure. *)
Definition op_pre (pool : gset Z) (l : list Z) (op : sq_op) : Prop :=
  match op with
  | AddFirst x | AddLast x => x <> 0 /\ x ∈ pool /\ x ∉ l
  | AddAfter p x => p ∈ l /\ x <> 0 /\ x ∈ pool /\ x ∉ l
  | RemAfter p => p ∈ l
  | RemFirst | RemLast | Rem _ | Count => True
  end.

Definition sq_step (fl : mem) (q : sq_queue_s) (op : sq_op) : res (mem * sq_queue_s * Z) :=
  match op with
  | AddFirst x => '(fl, q) ← sq_addfirst fl q x; Ok (fl, q, 0)
  | AddLast x => '(fl, q) ← sq_addlast fl q x; Ok (fl, q, 0)
  | AddAfter p x => '(fl, q) ← sq_addafter fl q p x; Ok (fl, q, 0)
  | RemFirst => sq_remfirst fl q
  | RemLast => sq_remlast fl q
  | RemAfter p => sq_remafter fl q p
  | Rem x => '(fl, q) ← sq_rem fl q x; Ok (fl, q, 0)
  | Count => n ← sq_count fl q; Ok (fl, q, n)
  end.

(** A run of operations, collecting the values returned. *)
Fixpoint sq_run (fl : mem) (q : sq_queue_s) (ops : list sq_op) : res (mem * sq_queue_s * list Z) :=
  match ops with
  | [] => Ok (fl, q, [])
  | op :: ops =>
      '(fl, q, r) ← sq_step fl q op;
      '(fl, q, rs) ← sq_run fl q ops;
      Ok (fl, q, r :: rs)
  end.

Fixpoint list_run (l : list Z) (ops : list sq_op) : list Z * list Z :=
  match ops with
  | [] => (l, [])
  | op :: ops =>
      let '(l, r) := list_step l op in
      let '(l, rs) := list_run l ops in (l, r :: rs)
  end.

Fixpoint run_pre (pool : gset Z) (l : list Z) (ops : list sq_op) : Prop :=
  match ops with
  | [] => True
  | op :: ops => op_pre pool l op /\ run_pre pool (list_step l op).1 ops
  end.

Lemma sq_step_dom fl q op fl' q' r : sq_step fl q op = Ok (fl', q', r) -> dom fl' = dom fl.
Proof.
  destruct op; simpl; unfold sq_addfirst, sq_addafter, sq_addlast, sq_remfirst, sq_remlast,
    sq_rem, sq_remafter, sq_count; intros; res_inv; congruence.
Qed.

Lemma insert_after_split p x l1 l2 :
  p ∉ l1 -> insert_after p x (l1 ++ p :: l2) = l1 ++ p :: x :: l2.
Proof.
  induction l1 as [|y l1 IH]; simpl; intros Hp.
  - by rewrite decide_True.
  - rewrite decide_False by set_solver. rewrite IH; [done|set_solver].
Qed.

Lemma remove_after_split p l1 l2 :
  p ∉ l1 -> remove_after p (l1 ++ p :: l2) = (l1 ++ p :: tl l2, hd 0 l2).
Proof.
  induction l1 as [|y l1 IH]; simpl; intros Hp.
  - by rewrite decide_True.
  - rewrite decide_False by set_solver. rewrite IH; [done|set_solver].
Qed.

Lemma filter_ne_id (x : Z) (l : list Z) : x ∉ l -> filter (fun y => y <> x) l = l.
Proof.
  induction l as [|y l IH]; [done|]. intros Hx.
  rewrite filter_cons_True by set_solver. rewrite IH; [done|set_solver].
Qed.

Lemma filter_ne_split (x : Z) (l1 l2 : list Z) :
  NoDup (l1 ++ x :: l2) -> filter (fun y => y <> x) (l1 ++ x :: l2) = l1 ++ l2.
Proof.
  intros (_ & Hd & [Hx _]%NoDup_cons)%NoDup_app.
  rewrite filter_app, filter_cons_False by (by intros []).
  rewrite !filter_ne_id; [done|set_solver..].
Qed.

Lemma sq_step_refines fl q l op :
  sq_rep fl q l -> op_pre (dom fl) l op ->
  exists fl' q', sq_step fl q op = Ok (fl', q', (list_step l op).2) /\
    sq_rep fl' q' (list_step l op).1.
Proof.
  intros H Hpre. pose proof (sqr_nodup _ _ _ H) as Hnd. destruct op; simpl in *.
  - destruct Hpre as (? & ?%elem_of_dom & ?).
    destruct (sq_addfirst_spec fl q l node) as (? & ? & -> & ? & _); [done..|]. eauto.
  - destruct Hpre as (? & ?%elem_of_dom & ?).
    destruct (sq_addlast_spec fl q l node) as (? & ? & -> & ? & _); [done..|]. eauto.
  - destruct Hpre as (Hp & ? & ?%elem_of_dom & ?).
    apply list_elem_of_split in Hp as (l1 & l2 & ->).
    apply NoDup_app in Hnd as (_ & Hd & _).
    destruct (sq_addafter_spec fl q l1 prev l2 node) as (? & ? & -> & ? & _); [done..|].
    rewrite insert_after_split by set_solver. eauto.
  - destruct (sq_remfirst_spec _ _ _ H) as (? & ? & ? & ? & _). eauto.
  - destruct (list_snoc_inv l) as [->|(l1 & x & ->)].
    + rewrite sq_remlast_empty by done. eauto.
    + destruct (sq_remlast_spec _ _ _ _ H) as (? & ? & ? & ? & _).
      rewrite removelast_last, lastd_snoc. eauto.
  - apply list_elem_of_split in Hpre as (l1 & l2 & ->).
    apply NoDup_app in Hnd as (_ & Hd & _).
    destruct (sq_remafter_spec _ _ _ _ _ H) as (? & ? & ? & ? & _).
    rewrite remove_after_split by set_solver. eauto.
  - destruct (decide (node ∈ l)) as [Hin|Hin].
    + apply list_elem_of_split in Hin as (l1 & l2 & ->).
      destruct (sq_rem_spec _ _ _ _ _ H) as (? & ? & -> & ? & _).
      rewrite filter_ne_split by done. eauto.
    + rewrite (sq_rem_absent _ _ _ _ H Hin). rewrite filter_ne_id by done. eauto.
  - rewrite (sq_count_spec _ _ _ H). eauto.
Qed.

(** Any sequence of calls to the [sq_*] functions on a well-formed queue,
    each respecting its caller's obligations, runs without a bad access and
    terminates, returns what the same operations return on the list of nodes,
    and leaves a well-formed queue that holds exactly that list. *)
Theorem sq_run_refines fl q l ops :
  sq_rep fl q l -> run_pre (dom fl) l ops ->
  exists fl' q', sq_run fl q ops = Ok (fl', q', (list_run l ops).2) /\
    sq_rep fl' q' (list_run l ops).1.
Proof.
  revert fl q l. induction ops as [|op ops IH]; intros fl q l H Hpre; simpl in *; [eauto|].
  destruct Hpre as [Hpre Hpres].
  destruct (sq_step_refines _ _ _ _ H Hpre) as (fl1 & q1 & E1 & H1). rewrite E1. run.
  pose proof (sq_step_dom _ _ _ _ _ _ E1) as Hdom. rewrite <- Hdom in Hpres.
  destruct (list_step l op) as [l1 r]. simpl in *.
  destruct (IH _ _ _ H1 Hpres) as (fl2 & q2 & E2 & H2). rewrite E2. run.
  destruct (list_run l1 ops). eauto.
Qed.

(** Three nodes at 4, 8 and 12: two are queued, one is put
    between them, the last is removed and the first is taken. *)
Definition sq_example_ops : list sq_op :=
  [AddLast 8; AddLast 12; AddAfter 8 4; RemLast; Count; RemFirst; Rem 4; RemFirst].

Lemma sq_run_refines_witness :
  exists fl' q', sq_run {[4 := 0; 8 := 0; 12 := 0]} sq_init sq_example_ops
                 = Ok (fl', q', [0; 0; 0; 12; 2; 8; 0; 0]) /\ sq_rep fl' q' [].
Proof.
  apply (sq_run_refines {[4 := 0; 8 := 0; 12 := 0]} sq_init [] sq_example_ops).
  - apply sq_init_spec.
  - simpl. repeat split; try (apply elem_of_dom; vm_compute; eauto); try (vm_compute; discriminate);
      try (set_solver by lia).
Defined.

End Sq.

Module Dq.

Record dq_queue_s := DQ { dq_head : Z; dq_tail : Z }.

(** The [flink] and [blink] fields of the nodes. *)
Record dq_links := DL { dq_flink : mem; dq_blink : mem }.

Definition set_flink (d : dq_links) (x v : Z) : res dq_links :=
  fl ← store (dq_flink d) x v; Ok (DL fl (dq_blink d)).
Definition set_blink (d : dq_links) (x v : Z) : res dq_links :=
  bl ← store (dq_blink d) x v; Ok (DL (dq_flink d) bl).

Definition dq_init : dq_queue_s := DQ 0 0.

(** [dq_move(q1, q2)]: the new [q1] and [q2]. *)
Definition dq_move (q1 q2 : dq_queue_s) : dq_queue_s * dq_queue_s :=
  (DQ 0 0, DQ (dq_head q1) (dq_tail q1)).

Definition dq_empty (q : dq_queue_s) : bool := dq_head q =? 0.

Definition dq_addfirst (d : dq_links) (q : dq_queue_s) (node : Z) : res (dq_links * dq_queue_s) :=
  d ← set_blink d node 0;
  d ← set_flink d node (dq_head q);
  if dq_head q =? 0 then Ok (d, DQ node node)
  else
    d ← set_blink d (dq_head q) node;
    Ok (d, DQ node (dq_tail q)).

Definition dq_addlast (d : dq_links) (q : dq_queue_s) (node : Z) : res (dq_links * dq_queue_s) :=
  d ← set_flink d node 0;
  d ← set_blink d node (dq_tail q);
  if dq_head q =? 0 then Ok (d, DQ node node)
  else
    d ← set_flink d (dq_tail q) node;
    Ok (d, DQ (dq_head q) node).

Definition dq_addafter (d : dq_links) (q : dq_queue_s) (prev node : Z)
    : res (dq_links * dq_queue_s) :=
  if (dq_head q =? 0) || (prev =? dq_tail q) then dq_addlast d q node
  else
    next ← load (dq_flink d) prev;
    d ← set_blink d node prev;
    d ← set_flink d node next;
    d ← set_blink d next node;
    d ← set_flink d prev node;
    Ok (d, q).

Definition dq_addbefore (d : dq_links) (q : dq_queue_s) (next node : Z)
    : res (dq_links * dq_queue_s) :=
  if (dq_head q =? 0) || (next =? dq_head q) then dq_addfirst d q node
  else
    prev ← load (dq_blink d) next;
    d ← set_flink d node next;
    d ← set_blink d node prev;
    d ← set_flink d prev node;
    d ← set_blink d next node;
    Ok (d, q).

Definition dq_rem (d : dq_links) (q : dq_queue_s) (node : Z) : res (dq_links * dq_queue_s) :=
  prev ← load (dq_blink d) node;
  next ← load (dq_flink d) node;
  '(d, q) ←
    (if prev =? 0 then Ok (d, DQ next (dq_tail q))
     else d ← set_flink d prev next; Ok (d, q));
  '(d, q) ←
    (if next =? 0 then Ok (d, DQ (dq_head q) prev)
     else d ← set_blink d next prev; Ok (d, q));
  d ← set_flink d node 0;
  d ← set_blink d node 0;
  Ok (d, q).

Definition dq_remfirst (d : dq_links) (q : dq_queue_s) : res (dq_links * dq_queue_s * Z) :=
  let ret := dq_head q in
  if ret =? 0 then Ok (d, q, ret)
  else
    next ← load (dq_flink d) ret;
    '(d, q) ←
      (if next =? 0 then Ok (d, DQ 0 0)
       else d ← set_blink d next 0; Ok (d, DQ next (dq_tail q)));
    d ← set_flink d ret 0;
    d ← set_blink d ret 0;
    Ok (d, q, ret).

Definition dq_remlast (d : dq_links) (q : dq_queue_s) : res (dq_links * dq_queue_s * Z) :=
  let ret := dq_tail q in
  if ret =? 0 then Ok (d, q, ret)
  else
    prev ← load (dq_blink d) ret;
    '(d, q) ←
      (if prev =? 0 then Ok (d, DQ 0 0)
       else d ← set_flink d prev 0; Ok (d, DQ (dq_head q) prev));
    d ← set_flink d ret 0;
    d ← set_blink d ret 0;
    Ok (d, q, ret).

(** [dq_cat(queue1, queue2)]: the new [queue1] and [queue2]. *)
Definition dq_cat (d : dq_links) (queue1 queue2 : dq_queue_s)
    : res (dq_links * dq_queue_s * dq_queue_s) :=
  if dq_empty queue2 then
    let '(queue1, queue2) := dq_move queue1 queue2 in Ok (d, queue1, queue2)
  else if negb (dq_empty queue1) then
    d ← set_flink d (dq_tail queue2) (dq_head queue1);
    d ← set_blink d (dq_head queue1) (dq_tail queue2);
    Ok (d, dq_init, DQ (dq_head queue2) (dq_tail queue1))
  else Ok (d, queue1, queue2).

(** The same walk as [sq_count]: [dq_count] only follows [flink]. *)
Fixpoint dq_count_loop (fuel : nat) (d : dq_links) (node count : Z) : res Z :=
  match fuel with
  | O => Err Diverge
  | S fuel =>
      if node =? 0 then Ok count
      else n ← load (dq_flink d) node; dq_count_loop fuel d n (count + 1)
  end.

Definition dq_count (d : dq_links) (q : dq_queue_s) : res Z :=
  dq_count_loop (walk_fuel (dq_flink d)) d (dq_head q) 0.

(** The queue object [q] with links [d] holds the nodes [l], in this order. *)
Record dq_rep (d : dq_links) (q : dq_queue_s) (l : list Z) : Prop := {
  dqr_nodup : NoDup l;
  dqr_null : 0 ∉ l;
  dqr_links : dlinks (fun x => dq_flink d !! x) (fun x => dq_blink d !! x) 0 l 0;
  dqr_head : dq_head q = hd 0 l;
  dqr_tail : dq_tail q = lastd 0 l
}.

Definition is_node (d : dq_links) (x : Z) : Prop :=
  x <> 0 /\ is_Some (dq_flink d !! x) /\ is_Some (dq_blink d !! x).

Definition dframe (l : list Z) (d d' : dq_links) : Prop :=
  frame l (dq_flink d) (dq_flink d') /\ frame l (dq_blink d) (dq_blink d').

(** ** Lemmas *)

Lemma set_flink_Ok d x v : is_node d x ->
  set_flink d x v = Ok (DL (<[x := v]> (dq_flink d)) (dq_blink d)).
Proof. intros (? & ? & ?). unfold set_flink. by run. Qed.

Lemma set_blink_Ok d x v : is_node d x ->
  set_blink d x v = Ok (DL (dq_flink d) (<[x := v]> (dq_blink d))).
Proof. intros (? & ? & ?). unfold set_blink. by run. Qed.

Lemma is_node_flink d x y v : is_node d x -> is_node (DL (<[y := v]> (dq_flink d)) (dq_blink d)) x.
Proof. intros (? & ? & ?). repeat split; simpl; eauto with nx. Qed.

Lemma is_node_blink d x y v : is_node d x -> is_node (DL (dq_flink d) (<[y := v]> (dq_blink d))) x.
Proof. intros (? & ? & ?). repeat split; simpl; eauto with nx. Qed.
#[local] Hint Resolve is_node_flink is_node_blink : nx.

Lemma dq_rep_node d q l x : dq_rep d q l -> x ∈ l -> is_node d x.
Proof.
  intros H Hx. destruct (list_elem_of_split _ _ Hx) as (l1 & l2 & ->).
  destruct (dlinks_mid _ _ _ _ _ _ _ (dqr_links _ _ _ H)) as [EF EB].
  repeat split; [|eauto..]. intros ->. by apply (dqr_null _ _ _ H).
Qed.

Lemma dq_rep_length d q l : dq_rep d q l -> (length l < walk_fuel (dq_flink d))%nat.
Proof.
  intros H. apply Nat.lt_succ_r, nodup_length_size; [apply H|].
  intros x Hx. by eapply dq_rep_node.
Qed.

Lemma dq_rep_head d q l : dq_rep d q l -> (dq_head q =? 0) = bool_decide (l = []).
Proof.
  intros H. rewrite (dqr_head _ _ _ H). destruct (decide (l = [])) as [->|Hl]; [done|].
  rewrite bool_decide_eq_false_2 by done. apply Z.eqb_neq.
  by apply (dq_rep_node _ _ _ _ H), hd_elem.
Qed.

Lemma dq_rep_tail d q l : dq_rep d q l -> (dq_tail q =? 0) = bool_decide (l = []).
Proof.
  intros H. rewrite (dqr_tail _ _ _ H). destruct (decide (l = [])) as [->|Hl]; [done|].
  rewrite bool_decide_eq_false_2 by done. apply Z.eqb_neq.
  by apply (dq_rep_node _ _ _ _ H), lastd_elem.
Qed.

Lemma dq_init_spec d : dq_rep d dq_init [].
Proof. split; simpl; [constructor | set_solver | done..]. Qed.

(** The links around a node that has been put between [l1] and [l2]. *)
Lemma dq_rep_insert d d' q q' l1 node l2 :
  dq_rep d q (l1 ++ l2) -> node <> 0 -> node ∉ l1 ++ l2 ->
  dq_flink d' !! node = Some (hd 0 l2) -> dq_blink d' !! node = Some (lastd 0 l1) ->
  (l1 <> [] -> dq_flink d' !! lastd 0 l1 = Some node) ->
  (l2 <> [] -> dq_blink d' !! hd 0 l2 = Some node) ->
  frame (node :: (if decide (l1 = []) then [] else [lastd 0 l1])) (dq_flink d) (dq_flink d') ->
  frame (node :: (if decide (l2 = []) then [] else [hd 0 l2])) (dq_blink d) (dq_blink d') ->
  dq_head q' = hd node l1 -> dq_tail q' = lastd node l2 ->
  dq_rep d' q' (l1 ++ node :: l2).
Proof.
  intros H Hn0 Hn EF EB Hl Hh Ff Fb Eh Et. pose proof (dqr_nodup _ _ _ H) as Hnd.
  split.
  - apply NoDup_app in Hnd as (? & ? & ?). apply NoDup_app. split; [done|].
    split; [set_solver|]. apply NoDup_cons. set_solver.
  - pose proof (dqr_null _ _ _ H). set_solver.
  - eapply dlinks_insert; [done..| | |apply H]; intros x Hx Hne.
    + apply Ff. destruct (decide (l1 = [])); set_solver.
    + apply Fb. destruct (decide (l2 = [])); set_solver.
  - rewrite Eh, hd_app. by destruct l1.
  - by rewrite Et, lastd_app, lastd_cons.
Qed.

(** The links after the node between [l1] and [l2] has been taken out. *)
Lemma dq_rep_remove d d' q q' l1 node l2 :
  dq_rep d q (l1 ++ node :: l2) ->
  (l1 <> [] -> dq_flink d' !! lastd 0 l1 = Some (hd 0 l2)) ->
  (l2 <> [] -> dq_blink d' !! hd 0 l2 = Some (lastd 0 l1)) ->
  frame (node :: (if decide (l1 = []) then [] else [lastd 0 l1])) (dq_flink d) (dq_flink d') ->
  frame (node :: (if decide (l2 = []) then [] else [hd 0 l2])) (dq_blink d) (dq_blink d') ->
  dq_head q' = hd (hd 0 l2) l1 -> dq_tail q' = lastd (lastd 0 l1) l2 ->
  dq_rep d' q' (l1 ++ l2).
Proof.
  intros H Hl Hh Ff Fb Eh Et. pose proof (dqr_nodup _ _ _ H) as Hnd.
  pose proof (dqr_links _ _ _ H) as Hlinks.
  assert (Hn : node ∉ l1 ++ l2).
  { apply NoDup_app in Hnd as (_ & ? & [? _]%NoDup_cons). set_solver. }
  split.
  - apply NoDup_app in Hnd as (? & ? & [_ ?]%NoDup_cons). apply NoDup_app. set_solver.
  - pose proof (dqr_null _ _ _ H). set_solver.
  - eapply dlinks_remove; [exact Hnd|done..| | |exact Hlinks]; intros x Hx Hne.
    + apply Ff. destruct (decide (l1 = [])); set_solver.
    + apply Fb. destruct (decide (l2 = [])); set_solver.
  - by rewrite Eh, hd_app.
  - by rewrite Et, lastd_app.
Qed.

Ltac drun1 :=
  match goal with
  | |- context [Ok ?x ≫= ?f] => rewrite (bind_Ok x f)
  | |- context [set_flink ?d ?x ?v] => rewrite (set_flink_Ok d x v) by eauto 8 with nx
  | |- context [set_blink ?d ?x ?v] => rewrite (set_blink_Ok d x v) by eauto 8 with nx
  | |- context [load ?m ?a] => erewrite (load_Ok m a) by mem_side
  end.
Ltac drun := repeat (drun1; cbv beta iota).

(** Close a goal on the updated link maps. *)
Ltac links :=
  simpl; repeat (rewrite lookup_insert_eq || rewrite lookup_insert_ne by (done || set_solver));
  try done.
Ltac dframes :=
  repeat split; intros ? ?; simpl; rewrite ?lookup_insert_ne by set_solver; try done.

Lemma dq_addfirst_spec d q l node :
  dq_rep d q l -> is_node d node -> node ∉ l ->
  exists d' q', dq_addfirst d q node = Ok (d', q') /\
    dq_rep d' q' (node :: l) /\ dframe (node :: l) d d'.
Proof.
  intros H Hn Hnl. unfold dq_addfirst. drun. rewrite (dq_rep_head _ _ _ H).
  rewrite (dqr_head _ _ _ H). case_bool_decide as E.
  - subst l. do 2 eexists. split; [done|]. split; [|dframes].
    apply (dq_rep_insert d _ q _ [] node []); [done|apply Hn|done|links|links|done|done| | |done|done].
    + dframes.
    + dframes.
  - pose proof (hd_elem 0 l E) as Hh. pose proof (dq_rep_node _ _ _ _ H Hh) as Hhn. drun.
    do 2 eexists. split; [done|]. split; [|dframes].
    apply (dq_rep_insert d _ q _ [] node l); [done|apply Hn|done|links|links|done| | | |done|].
    + intros _. links.
    + dframes.
    + rewrite decide_False by done. dframes.
    + simpl. rewrite (dqr_tail _ _ _ H). by apply lastd_nonempty.
Qed.

Lemma dq_addlast_spec d q l node :
  dq_rep d q l -> is_node d node -> node ∉ l ->
  exists d' q', dq_addlast d q node = Ok (d', q') /\
    dq_rep d' q' (l ++ [node]) /\ dframe (node :: l) d d'.
Proof.
  intros H Hn Hnl. unfold dq_addlast. drun. rewrite (dq_rep_head _ _ _ H).
  rewrite (dqr_tail _ _ _ H). case_bool_decide as E.
  - subst l. do 2 eexists. split; [done|]. split; [|dframes].
    apply (dq_rep_insert d _ q _ [] node []); [done|apply Hn|done|links|links|done|done| | |done|done].
    + dframes.
    + dframes.
  - pose proof (lastd_elem 0 l E) as Hl. pose proof (dq_rep_node _ _ _ _ H Hl) as Hln. drun.
    do 2 eexists. split; [done|]. split; [|dframes].
    apply (dq_rep_insert d _ q _ l node []); rewrite ?app_nil_r;
      [done|apply Hn|done|links|links| |done| | | |done].
    + intros _. links.
    + rewrite decide_False by done. dframes.
    + dframes.
    + simpl. rewrite (dqr_head _ _ _ H). by destruct l.
Qed.

Lemma dq_tail_mid d q l1 p l2 :
  dq_rep d q (l1 ++ p :: l2) -> (p =? dq_tail q) = bool_decide (l2 = []).
Proof.
  intros H. rewrite (dqr_tail _ _ _ H), lastd_app, lastd_cons.
  destruct (decide (l2 = [])) as [->|Hne]; [by apply Z.eqb_refl|].
  rewrite bool_decide_eq_false_2 by done. apply Z.eqb_neq. intros E.
  pose proof (dqr_nodup _ _ _ H) as (_ & _ & [Hp _]%NoDup_cons)%NoDup_app.
  apply Hp. rewrite E. by apply lastd_elem.
Qed.

Lemma dq_head_mid d q l1 p l2 :
  dq_rep d q (l1 ++ p :: l2) -> (p =? dq_head q) = bool_decide (l1 = []).
Proof.
  intros H. rewrite (dqr_head _ _ _ H), hd_app. simpl.
  destruct (decide (l1 = [])) as [->|Hne]; [by apply Z.eqb_refl|].
  rewrite bool_decide_eq_false_2 by done. apply Z.eqb_neq. intros E.
  pose proof (dqr_nodup _ _ _ H) as (_ & Hd & _)%NoDup_app.
  apply (Hd p); [|set_solver]. rewrite E. by apply hd_elem.
Qed.

Lemma dq_addafter_spec d q l1 prev l2 node :
  dq_rep d q (l1 ++ prev :: l2) -> is_node d node -> node ∉ l1 ++ prev :: l2 ->
  exists d' q', dq_addafter d q prev node = Ok (d', q') /\
    dq_rep d' q' (l1 ++ prev :: node :: l2) /\ dframe (node :: l1 ++ prev :: l2) d d'.
Proof.
  intros H Hn Hnl. unfold dq_addafter. rewrite (dq_rep_head _ _ _ H), (dq_tail_mid _ _ _ _ _ H).
  rewrite bool_decide_eq_false_2 by (by destruct l1). case_bool_decide as E; cbn [orb].
  - subst l2. destruct (dq_addlast_spec _ _ _ _ H Hn Hnl) as (d' & q' & -> & Hr & Hf).
    exists d', q'. rewrite <- app_assoc in Hr. by repeat split; [apply Hr..|apply Hf|apply Hf].
  - destruct (dlinks_mid _ _ _ _ _ _ _ (dqr_links _ _ _ H)) as [EF _].
    assert (Hp : is_node d prev) by (eapply dq_rep_node; [done|set_solver]).
    pose proof (hd_elem 0 l2 E) as Hh.
    assert (Hhn : is_node d (hd 0 l2)) by (eapply dq_rep_node; [done|set_solver]).
    pose proof (proj1 Hp). drun. do 2 eexists. split; [done|].
    pose proof (dqr_head _ _ _ H) as Eh. pose proof (dqr_tail _ _ _ H) as Et.
    replace (l1 ++ prev :: node :: l2) with ((l1 ++ [prev]) ++ node :: l2) by (by rewrite <- app_assoc).
    replace (l1 ++ prev :: l2) with ((l1 ++ [prev]) ++ l2) in * by (by rewrite <- app_assoc).
    split; [|dframes].
    apply (dq_rep_insert d _ q); [done|apply Hn|done| | | | | | | |].
    + links.
    + rewrite lastd_snoc. links.
    + intros _. rewrite lastd_snoc. links.
    + intros _. links.
    + rewrite lastd_snoc. rewrite decide_False by (by destruct l1). dframes.
    + rewrite decide_False by done. dframes.
    + rewrite Eh, hd_app. by destruct l1.
    + rewrite Et, lastd_app. by apply lastd_nonempty.
Qed.

Lemma dq_addbefore_spec d q l1 next l2 node :
  dq_rep d q (l1 ++ next :: l2) -> is_node d node -> node ∉ l1 ++ next :: l2 ->
  exists d' q', dq_addbefore d q next node = Ok (d', q') /\
    dq_rep d' q' (l1 ++ node :: next :: l2) /\ dframe (node :: l1 ++ next :: l2) d d'.
Proof.
  intros H Hn Hnl. unfold dq_addbefore. rewrite (dq_rep_head _ _ _ H), (dq_head_mid _ _ _ _ _ H).
  rewrite bool_decide_eq_false_2 by (by destruct l1). case_bool_decide as E; cbn [orb].
  - subst l1. by destruct (dq_addfirst_spec _ _ _ _ H Hn Hnl) as (d' & q' & -> & Hr & Hf); eauto.
  - destruct (dlinks_mid _ _ _ _ _ _ _ (dqr_links _ _ _ H)) as [_ EB].
    assert (Hp : is_node d next) by (eapply dq_rep_node; [done|set_solver]).
    pose proof (lastd_elem 0 l1 E) as Hh.
    assert (Hhn : is_node d (lastd 0 l1)) by (eapply dq_rep_node; [done|set_solver]).
    pose proof (proj1 Hp). drun. do 2 eexists. split; [done|]. split; [|dframes].
    apply (dq_rep_insert d _ q); [done|apply Hn|done| | | | | | | |].
    + links.
    + links.
    + intros _. links.
    + intros _. links.
    + rewrite decide_False by done. dframes.
    + rewrite decide_False by done. simpl. dframes.
    + rewrite (dqr_head _ _ _ H), hd_app. by destruct l1.
    + rewrite (dqr_tail _ _ _ H), lastd_app, !lastd_cons. done.
Qed.

Lemma lastd_eqb d q l1 l2 :
  dq_rep d q (l1 ++ l2) -> (lastd 0 l1 =? 0) = bool_decide (l1 = []).
Proof.
  intros H. destruct (decide (l1 = [])) as [->|Hne]; [done|].
  rewrite bool_decide_eq_false_2 by done. apply Z.eqb_neq.
  pose proof (lastd_elem 0 l1 Hne). eapply (dq_rep_node _ _ _ _ H). set_solver.
Qed.

Lemma hd_eqb d q l1 l2 :
  dq_rep d q (l1 ++ l2) -> (hd 0 l2 =? 0) = bool_decide (l2 = []).
Proof.
  intros H. destruct (decide (l2 = [])) as [->|Hne]; [done|].
  rewrite bool_decide_eq_false_2 by done. apply Z.eqb_neq.
  pose proof (hd_elem 0 l2 Hne). eapply (dq_rep_node _ _ _ _ H). set_solver.
Qed.

Lemma dq_rem_spec d q l1 node l2 :
  dq_rep d q (l1 ++ node :: l2) ->
  exists d' q', dq_rem d q node = Ok (d', q') /\
    dq_rep d' q' (l1 ++ l2) /\ dframe (l1 ++ node :: l2) d d' /\
    dq_flink d' !! node = Some 0 /\ dq_blink d' !! node = Some 0.
Proof.
  intros H. unfold dq_rem.
  destruct (dlinks_mid _ _ _ _ _ _ _ (dqr_links _ _ _ H)) as [EF EB].
  assert (Hn : is_node d node) by (eapply dq_rep_node; [done|set_solver]).
  pose proof (proj1 Hn). drun.
  pose proof (dqr_nodup _ _ _ H) as Hnd. pose proof (dqr_head _ _ _ H) as Eh.
  pose proof (dqr_tail _ _ _ H) as Et.
  rewrite (lastd_eqb d q _ _ H).
  rewrite (hd_eqb d q (l1 ++ [node]) l2) by (by rewrite <- app_assoc).
  assert (Hd : node ∉ l1 /\ node ∉ l2).
  { apply NoDup_app in Hnd as (_ & ? & [? _]%NoDup_cons). set_solver. }
  destruct Hd as [Hd1 Hd2].
  pose proof (fun E => dq_rep_node _ _ _ (lastd 0 l1) H
                (proj2 (elem_of_app _ _ _) (or_introl (lastd_elem 0 l1 E)))) as Hn1.
  pose proof (fun E => dq_rep_node _ _ _ (hd 0 l2) H
                (proj2 (elem_of_app _ _ _) (or_intror (list_elem_of_further _ _ _ (hd_elem 0 l2 E))))) as Hn2.
  pose proof (lastd_elem 0 l1) as Hl1. pose proof (hd_elem 0 l2) as Hl2.
  assert (Hd3 : l1 <> [] -> lastd 0 l1 <> node) by (intros ? <-; auto).
  assert (Hd4 : l2 <> [] -> hd 0 l2 <> node) by (intros ? <-; auto).
  destruct (decide (l1 = [])) as [E1|E1]; destruct (decide (l2 = [])) as [E2|E2];
    rewrite ?(bool_decide_eq_true_2 _ E1), ?(bool_decide_eq_false_2 _ E1),
      ?(bool_decide_eq_true_2 _ E2), ?(bool_decide_eq_false_2 _ E2);
    try specialize (Hn1 E1); try specialize (Hn2 E2);
    try specialize (Hl1 E1); try specialize (Hl2 E2);
    try specialize (Hd3 E1); try specialize (Hd4 E2); drun;
    (do 2 eexists; split; [done|]; split; [|split; [dframes|split; links]]);
    (apply (dq_rep_remove d _ q _ l1 node l2);
      [done|intros ?; try done; links|intros ?; try done; links
      |try rewrite decide_True by done; try rewrite decide_False by done; dframes
      |try rewrite decide_True by done; try rewrite decide_False by done; dframes| |]);
    subst; simpl in *; rewrite ?Eh, ?Et, ?hd_app, ?lastd_app, ?lastd_cons; try done;
    try (by destruct l1); try (by apply lastd_nonempty).
Qed.

Lemma dq_remfirst_spec d q l :
  dq_rep d q l ->
  exists d' q', dq_remfirst d q = Ok (d', q', hd 0 l) /\
    dq_rep d' q' (tl l) /\ dframe l d d'.
Proof.
  intros H. unfold dq_remfirst. rewrite (dq_rep_head _ _ _ H), (dqr_head _ _ _ H).
  destruct l as [|x l].
  { rewrite bool_decide_eq_true_2 by done. do 2 eexists. split; [done|]. split; [done|dframes]. }
  rewrite bool_decide_eq_false_2 by done. simpl.
  assert (Hn : is_node d x) by (eapply dq_rep_node; [done|set_solver]). pose proof (proj1 Hn).
  destruct (dqr_links _ _ _ H) as (EF & _ & _). drun.
  rewrite (hd_eqb d q [x] l) by done. pose proof (dqr_tail _ _ _ H) as Et.
  pose proof (dqr_nodup _ _ _ H) as [Hx _]%NoDup_cons. case_bool_decide as E.
  - subst l. drun. do 2 eexists. split; [done|]. split; [|dframes]. apply dq_init_spec.
  - pose proof (hd_elem 0 l E) as Hh.
    assert (Hhn : is_node d (hd 0 l)) by (eapply dq_rep_node; [done|set_solver]). drun.
    do 2 eexists. split; [done|]. split; [|dframes].
    apply (dq_rep_remove d _ q _ [] x l); [done|done|intros _; links| | |done|].
    + dframes.
    + rewrite decide_False by done. dframes.
    + simpl. rewrite Et, lastd_cons. by apply lastd_nonempty.
Qed.

Lemma dq_remlast_spec d q l x :
  dq_rep d q (l ++ [x]) ->
  exists d' q', dq_remlast d q = Ok (d', q', x) /\
    dq_rep d' q' l /\ dframe (l ++ [x]) d d'.
Proof.
  intros H. unfold dq_remlast. rewrite (dq_rep_tail _ _ _ H), (dqr_tail _ _ _ H), lastd_snoc.
  rewrite bool_decide_eq_false_2 by (by destruct l).
  assert (Hn : is_node d x) by (eapply dq_rep_node; [done|set_solver]). pose proof (proj1 Hn).
  destruct (dlinks_mid _ _ _ _ _ _ _ (dqr_links _ _ _ H)) as [_ EB]. drun.
  rewrite (lastd_eqb d q l [x]) by done. pose proof (dqr_head _ _ _ H) as Eh.
  pose proof (dqr_nodup _ _ _ H) as (_ & Hx & _)%NoDup_app. case_bool_decide as E.
  - subst l. drun. do 2 eexists. split; [done|]. split; [|dframes]. apply dq_init_spec.
  - pose proof (lastd_elem 0 l E) as Hh.
    assert (Hhn : is_node d (lastd 0 l)) by (eapply dq_rep_node; [done|set_solver]).
    assert (Hxl : x ∉ l) by set_solver. drun.
    do 2 eexists. split; [done|]. split; [|dframes].
    match goal with |- dq_rep ?d ?q _ => enough (dq_rep d q (l ++ [])) by (by rewrite app_nil_r in *) end.
    apply (dq_rep_remove d _ q _ l x []); [done|intros _; links|done| | | |done].
    + rewrite decide_False by done. dframes.
    + dframes.
    + simpl. rewrite Eh, hd_app. by destruct l.
Qed.

Lemma dq_remlast_empty d q : dq_rep d q [] -> dq_remlast d q = Ok (d, q, 0).
Proof. intros H. unfold dq_remlast. by rewrite (dqr_tail _ _ _ H). Qed.

Lemma dq_cat_spec d q1 q2 l1 l2 :
  dq_rep d q1 l1 -> dq_rep d q2 l2 -> l1 ## l2 ->
  exists d' q2', dq_cat d q1 q2 = Ok (d', dq_init, q2') /\
    dq_rep d' q2' (l2 ++ l1) /\ dframe (l1 ++ l2) d d'.
Proof.
  intros H1 H2 Hd. unfold dq_cat, dq_empty.
  rewrite (dq_rep_head _ _ _ H1), (dq_rep_head _ _ _ H2).
  case_bool_decide as E2; [subst l2|case_bool_decide as E1; [subst l1|]]; simpl.
  - do 2 eexists. split; [done|]. split; [|dframes]. by destruct q1, H1.
  - exists d, q2. rewrite app_nil_r. split; [|by split; [|dframes]].
    pose proof (dqr_head _ _ _ H1) as Eh. pose proof (dqr_tail _ _ _ H1) as Et.
    destruct q1. simpl in *. by subst.
  - pose proof (lastd_elem 0 l2 E2) as Ht. pose proof (hd_elem 0 l1 E1) as Hh.
    pose proof (dq_rep_node _ _ _ _ H2 Ht). pose proof (dq_rep_node _ _ _ _ H1 Hh).
    rewrite (dqr_tail _ _ _ H2), (dqr_head _ _ _ H1). drun.
    do 2 eexists. split; [done|]. split; [|dframes]. split; simpl.
    + apply NoDup_app. split; [apply H2|]. split; [set_solver|apply H1].
    + pose proof (dqr_null _ _ _ H1). pose proof (dqr_null _ _ _ H2). set_solver.
    + apply dlinks_app. split.
      * eapply dlinks_next; [apply H2|intros _; by rewrite lookup_insert_eq|..|apply H2].
        -- intros x Hx Hne. by rewrite lookup_insert_ne.
        -- intros x Hx. rewrite lookup_insert_ne; [done|set_solver].
      * eapply dlinks_prev; [apply H1|intros _; by rewrite lookup_insert_eq|..|apply H1].
        -- intros x Hx. rewrite lookup_insert_ne; [done|set_solver].
        -- intros x Hx Hne. by rewrite lookup_insert_ne.
    + rewrite (dqr_head _ _ _ H2), hd_app. by destruct l2.
    + rewrite (dqr_tail _ _ _ H1), lastd_app. by apply lastd_nonempty.
Qed.

Lemma dq_count_loop_spec d l fuel c :
  slinks (fun x => dq_flink d !! x) l 0 -> 0 ∉ l -> (length l < fuel)%nat ->
  dq_count_loop fuel d (hd 0 l) c = Ok (c + Z.of_nat (length l)).
Proof.
  revert fuel c. induction l as [|x l IH]; intros fuel c Hl H0 Hfuel;
    destruct fuel as [|fuel]; simpl in *; try lia.
  - f_equal. lia.
  - destruct Hl as [Ex Hl]. assert (x <> 0) by set_solver.
    rewrite (proj2 (Z.eqb_neq x 0)) by done. run.
    rewrite IH; [f_equal; lia|done|set_solver|lia].
Qed.

Lemma dq_count_spec d q l : dq_rep d q l -> dq_count d q = Ok (Z.of_nat (length l)).
Proof.
  intros H. unfold dq_count. rewrite (dqr_head _ _ _ H). rewrite dq_count_loop_spec; [done|..].
  - eapply dlinks_slinks, H.
  - apply H.
  - by eapply dq_rep_length.
Qed.

(** ** Refinement of a list of nodes *)

Inductive dq_op :=
  | AddFirst (node : Z) | AddLast (node : Z) | AddAfter (prev node : Z)
  | AddBefore (next node : Z) | RemFirst | RemLast | Rem (node : Z) | Count.

Fixpoint insert_before (p x : Z) (l : list Z) : list Z :=
  match l with
  | [] => []
  | y :: l => if decide (y = p) then x :: y :: l else y :: insert_before p x l
  end.

Definition list_step (l : list Z) (op : dq_op) : list Z * Z :=
  match op with
  | AddFirst x => (x :: l, 0)
  | AddLast x => (l ++ [x], 0)
  | AddAfter p x => (Sq.insert_after p x l, 0)
  | AddBefore p x => (insert_before p x l, 0)
  | RemFirst => (tl l, hd 0 l)
  | RemLast => (removelast l, lastd 0 l)
  | Rem x => (filter (fun y => y <> x) l, 0)
  | Count => (l, Z.of_nat (length l))
  end.

(** The nodes that can be linked. *)
Definition pool (d : dq_links) : gset Z := dom (dq_flink d) ∩ dom (dq_blink d).

Definition op_pre (pl : gset Z) (l : list Z) (op : dq_op) : Prop :=
  match op with
  | AddFirst x | AddLast x => x <> 0 /\ x ∈ pl /\ x ∉ l
  | AddAfter p x | AddBefore p x => p ∈ l /\ x <> 0 /\ x ∈ pl /\ x ∉ l
  | Rem x => x ∈ l
  | RemFirst | RemLast | Count => True
  end.

Definition dq_step (d : dq_links) (q : dq_queue_s) (op : dq_op) : res (dq_links * dq_queue_s * Z) :=
  match op with
  | AddFirst x => '(d, q) ← dq_addfirst d q x; Ok (d, q, 0)
  | AddLast x => '(d, q) ← dq_addlast d q x; Ok (d, q, 0)
  | AddAfter p x => '(d, q) ← dq_addafter d q p x; Ok (d, q, 0)
  | AddBefore p x => '(d, q) ← dq_addbefore d q p x; Ok (d, q, 0)
  | RemFirst => dq_remfirst d q
  | RemLast => dq_remlast d q
  | Rem x => '(d, q) ← dq_rem d q x; Ok (d, q, 0)
  | Count => n ← dq_count d q; Ok (d, q, n)
  end.

Fixpoint dq_run (d : dq_links) (q : dq_queue_s) (ops : list dq_op)
    : res (dq_links * dq_queue_s * list Z) :=
  match ops with
  | [] => Ok (d, q, [])
  | op :: ops =>
      '(d, q, r) ← dq_step d q op;
      '(d, q, rs) ← dq_run d q ops;
      Ok (d, q, r :: rs)
  end.

Fixpoint list_run (l : list Z) (ops : list dq_op) : list Z * list Z :=
  match ops with
  | [] => (l, [])
  | op :: ops =>
      let '(l, r) := list_step l op in
      let '(l, rs) := list_run l ops in (l, r :: rs)
  end.

Fixpoint run_pre (pl : gset Z) (l : list Z) (ops : list dq_op) : Prop :=
  match ops with
  | [] => True
  | op :: ops => op_pre pl l op /\ run_pre pl (list_step l op).1 ops
  end.

Lemma pool_node d x : x <> 0 -> x ∈ pool d -> is_node d x.
Proof. intros H0 [?%elem_of_dom ?%elem_of_dom]%elem_of_intersection. done. Qed.

Lemma set_flink_pool d x v d' : set_flink d x v = Ok d' -> pool d' = pool d.
Proof. unfold set_flink, pool. intros. res_inv. simpl. congruence. Qed.

Lemma set_blink_pool d x v d' : set_blink d x v = Ok d' -> pool d' = pool d.
Proof. unfold set_blink, pool. intros. res_inv. simpl. congruence. Qed.

Lemma dq_step_pool d q op d' q' r : dq_step d q op = Ok (d', q', r) -> pool d' = pool d.
Proof.
  destruct op; simpl; unfold dq_addafter, dq_addbefore, dq_addfirst, dq_addlast, dq_remfirst,
    dq_remlast, dq_rem, dq_count; intros; res_inv;
    repeat match goal with
    | H : set_flink _ _ _ = Ok _ |- _ => apply set_flink_pool in H
    | H : set_blink _ _ _ = Ok _ |- _ => apply set_blink_pool in H
    end; congruence.
Qed.

Lemma insert_before_split p x l1 l2 :
  p ∉ l1 -> insert_before p x (l1 ++ p :: l2) = l1 ++ x :: p :: l2.
Proof.
  induction l1 as [|y l1 IH]; simpl; intros Hp.
  - by rewrite decide_True.
  - rewrite decide_False by set_solver. rewrite IH; [done|set_solver].
Qed.

Lemma dq_step_refines d q l op :
  dq_rep d q l -> op_pre (pool d) l op ->
  exists d' q', dq_step d q op = Ok (d', q', (list_step l op).2) /\
    dq_rep d' q' (list_step l op).1.
Proof.
  intros H Hpre. pose proof (dqr_nodup _ _ _ H) as Hnd. destruct op; simpl in *.
  - destruct Hpre as (? & ?%pool_node & ?); [|done].
    destruct (dq_addfirst_spec d q l node) as (? & ? & -> & ? & _); [done..|]. eauto.
  - destruct Hpre as (? & ?%pool_node & ?); [|done].
    destruct (dq_addlast_spec d q l node) as (? & ? & -> & ? & _); [done..|]. eauto.
  - destruct Hpre as (Hp & ? & ?%pool_node & ?); [|done].
    apply list_elem_of_split in Hp as (l1 & l2 & ->). apply NoDup_app in Hnd as (_ & Hd & _).
    destruct (dq_addafter_spec d q l1 prev l2 node) as (? & ? & -> & ? & _); [done..|].
    rewrite Sq.insert_after_split by set_solver. eauto.
  - destruct Hpre as (Hp & ? & ?%pool_node & ?); [|done].
    apply list_elem_of_split in Hp as (l1 & l2 & ->). apply NoDup_app in Hnd as (_ & Hd & _).
    destruct (dq_addbefore_spec d q l1 next l2 node) as (? & ? & -> & ? & _); [done..|].
    rewrite insert_before_split by set_solver. eauto.
  - destruct (dq_remfirst_spec _ _ _ H) as (? & ? & ? & ? & _). eauto.
  - destruct (list_snoc_inv l) as [->|(l1 & x & ->)].
    + rewrite dq_remlast_empty by done. eauto.
    + destruct (dq_remlast_spec _ _ _ _ H) as (? & ? & ? & ? & _).
      rewrite removelast_last, lastd_snoc. eauto.
  - apply list_elem_of_split in Hpre as (l1 & l2 & ->).
    destruct (dq_rem_spec _ _ _ _ _ H) as (? & ? & -> & ? & _).
    rewrite Sq.filter_ne_split by done. eauto.
  - rewrite (dq_count_spec _ _ _ H). eauto.
Qed.

(** C33: Any sequence of calls to the [dq_*] functions on a well-formed doubly
    linked queue, each respecting its caller's obligations, runs without a bad
    access and terminates, returns what the same operations return on the list
    of nodes, and leaves both directions of links consistent with that list. *)
Theorem dq_run_refines d q l ops :
  dq_rep d q l -> run_pre (pool d) l ops ->
  exists d' q', dq_run d q ops = Ok (d', q', (list_run l ops).2) /\
    dq_rep d' q' (list_run l ops).1.
Proof.
  revert d q l. induction ops as [|op ops IH]; intros d q l H Hpre; simpl in *; [eauto|].
  destruct Hpre as [Hpre Hpres].
  destruct (dq_step_refines _ _ _ _ H Hpre) as (d1 & q1 & E1 & H1). rewrite E1. run.
  pose proof (dq_step_pool _ _ _ _ _ _ E1) as Hdom. rewrite <- Hdom in Hpres.
  destruct (list_step l op) as [l1 r]. simpl in *.
  destruct (IH _ _ _ H1 Hpres) as (d2 & q2 & E2 & H2). rewrite E2. run.
  destruct (list_run l1 ops). eauto.
Qed.

Definition dq_example_links : dq_links :=
  DL {[4 := 0; 8 := 0; 12 := 0]} {[4 := 0; 8 := 0; 12 := 0]}.

Lemma dq_run_refines_witness :
  exists d' q', dq_run dq_example_links dq_init
                  [AddLast 8; AddBefore 8 4; AddAfter 8 12; Rem 8; Count; RemLast]
                = Ok (d', q', [0; 0; 0; 0; 2; 12]) /\ dq_rep d' q' [4].
Proof.
  apply (dq_run_refines dq_example_links dq_init []
           [AddLast 8; AddBefore 8 4; AddAfter 8 12; Rem 8; Count; RemLast]).
  - apply dq_init_spec.
  - simpl. repeat split; try (apply elem_of_intersection; split; apply elem_of_dom; vm_compute; eauto);
      try (vm_compute; discriminate); try (set_solver by lia).
Defined.

(** [dq_cat] appends [queue1] to [queue2] and empties [queue1]: both queues
    stay well formed, no node is lost or duplicated, and links of nodes outside
    the two queues are untouched. *)
Theorem dq_cat_appends d q1 q2 l1 l2 :
  dq_rep d q1 l1 -> dq_rep d q2 l2 -> l1 ## l2 ->
  exists d' q1' q2', dq_cat d q1 q2 = Ok (d', q1', q2') /\
    dq_rep d' q1' [] /\ dq_rep d' q2' (l2 ++ l1) /\ dframe (l1 ++ l2) d d'.
Proof.
  intros H1 H2 Hd. destruct (dq_cat_spec _ _ _ _ _ H1 H2 Hd) as (d' & q2' & E & Hr & Hf).
  exists d', dq_init, q2'. split; [done|]. split; [apply dq_init_spec|done].
Qed.

Lemma dq_cat_appends_witness :
  exists d' q1' q2',
    dq_cat (DL {[4 := 0; 8 := 0]} {[4 := 0; 8 := 0]}) (DQ 4 4) (DQ 8 8) = Ok (d', q1', q2') /\
    dq_rep d' q1' [] /\ dq_rep d' q2' [8; 4] /\
    dframe [4; 8] (DL {[4 := 0; 8 := 0]} {[4 := 0; 8 := 0]}) d'.
Proof.
  apply (dq_cat_appends _ (DQ 4 4) (DQ 8 8) [4] [8]).
  - split; [apply NoDup_singleton | set_solver by lia | repeat split | done | done].
  - split; [apply NoDup_singleton | set_solver by lia | repeat split | done | done].
  - set_solver by lia.
Defined.

End Dq.
