(* ===== verification/MmHeap.v ===== *)
(** * The memory manager (src/nuttx/mm/mm_heap)

    A heap is a set of regions, each tiled by chunks that start with a header
    ([size] and [preceding]); the free chunks and the 19 bucket heads of
    [mm_nodelist] form one doubly linked list ordered by size.  The model works
    on 32-bit words of memory, at the addresses the C code computes:

    - a node at address [a] has [size] at [a], [preceding] at [a + 4],
      [flink] at [a + 8] and [blink] at [a + 12];
    - [mm_nodelist[i]] is the node at [mm_nodelist + 16 * i].

    The configuration is that of the chewie build: 32-bit pointers,
    CONFIG_MM_SMALL not set, DEBUGASSERT compiled out. *)

From S2P Require Import Prelude Bits Links Queue.
Local Open Scope Z_scope.

Definition MM_MIN_SHIFT : Z := 4.
Definition MM_MAX_SHIFT : Z := 22.
Definition MM_MIN_CHUNK : Z := Z.shiftl 1 MM_MIN_SHIFT.
Definition MM_MAX_CHUNK : Z := Z.shiftl 1 MM_MAX_SHIFT.
Definition MM_NNODES : Z := MM_MAX_SHIFT - MM_MIN_SHIFT + 1.
Definition MM_GRAN_MASK : Z := MM_MIN_CHUNK - 1.
Definition MM_ALLOC_BIT : Z := 2 ^ 31.
Definition SIZEOF_MM_ALLOCNODE : Z := 8.
Definition SIZEOF_MM_FREENODE : Z := 16.
Definition NO_HOLDER : Z := -1.

Definition MM_ALIGN_UP (a : Z) : Z := Z.land (u32 (a + MM_GRAN_MASK)) (not32 MM_GRAN_MASK).
Definition MM_ALIGN_DOWN (a : Z) : Z := Z.land a (not32 MM_GRAN_MASK).

(** The heap structure, without [mm_nodelist] itself, which is in memory at
    the address [mm_nodelist]; [mm_semcount] is the count of [mm_semaphore]. *)
Record mm_heap_s := MkHeap {
  mm_semcount : Z;
  mm_holder : Z;
  mm_counts_held : Z;
  mm_heapsize : Z;
  mm_heapstart : list Z;
  mm_heapend : list Z;
  mm_nregions : nat;
  mm_nodelist : Z
}.

(** ** The semaphore of the heap (mm_sem.c) *)

Definition set_sem (h : mm_heap_s) (semcount holder counts : Z) : mm_heap_s :=
  MkHeap semcount holder counts (mm_heapsize h) (mm_heapstart h) (mm_heapend h)
    (mm_nregions h) (mm_nodelist h).

Definition mm_seminitialize (h : mm_heap_s) : mm_heap_s := set_sem h 1 NO_HOLDER 0.

(** [my_pid] is the value of [getpid()]. *)
Definition mm_trysemaphore (my_pid : Z) (h : mm_heap_s) : mm_heap_s * Z :=
  if mm_holder h =? my_pid then
    (set_sem h (mm_semcount h) (mm_holder h) (mm_counts_held h + 1), OK)
  else if 0 <? mm_semcount h then (set_sem h (mm_semcount h - 1) my_pid 1, OK)
  else (h, - EAGAIN).

Definition mm_takesemaphore (my_pid : Z) (h : mm_heap_s) : res mm_heap_s :=
  if mm_holder h =? my_pid then
    Ok (set_sem h (mm_semcount h) (mm_holder h) (mm_counts_held h + 1))
  else if 0 <? mm_semcount h then Ok (set_sem h (mm_semcount h - 1) my_pid 1)
  else Err WouldBlock.

Definition mm_givesemaphore (h : mm_heap_s) : mm_heap_s :=
  if 1 <? mm_counts_held h then
    set_sem h (mm_semcount h) (mm_holder h) (mm_counts_held h - 1)
  else set_sem h (mm_semcount h + 1) NO_HOLDER 0.

(** ** The free list *)

(** The bits of [size_t] bound the number of shifts. *)
Fixpoint size2ndx_loop (fuel : nat) (size ndx : Z) : Z :=
  match fuel with
  | O => ndx
  | S fuel => if 1 <? size then size2ndx_loop fuel (Z.shiftr size 1) (ndx + 1) else ndx
  end.

Definition mm_size2ndx (size : Z) : Z :=
  if MM_MAX_CHUNK <=? size then MM_NNODES - 1
  else size2ndx_loop 32 (Z.shiftr size MM_MIN_SHIFT) 0.

Definition bucket (nodelist ndx : Z) : Z := nodelist + SIZEOF_MM_FREENODE * ndx.

(** [for (; next && next->size && next->size < node->size;
         prev = next, next = next->flink);] *)
Fixpoint addfreechunk_search (fuel : nat) (m : mem) (size prev next : Z) : res (Z * Z) :=
  match fuel with
  | O => Err Diverge
  | S fuel =>
      if next =? 0 then Ok (prev, next)
      else
        sz ← load m next;
        if (sz =? 0) || (size <=? sz) then Ok (prev, next)
        else
          n ← load m (next + 8);
          addfreechunk_search fuel m size next n
  end.

Definition mm_addfreechunk (nodelist : Z) (m : mem) (node : Z) : res mem :=
  size ← load m node;
  let ndx := mm_size2ndx size in
  next ← load m (bucket nodelist ndx + 8);
  '(prev, next) ← addfreechunk_search (walk_fuel m) m size (bucket nodelist ndx) next;
  m ← store m (prev + 8) node;
  m ← store m (node + 12) prev;
  m ← store m (node + 8) next;
  if next =? 0 then Ok m else store m (next + 12) node.

(** Taking a node out of the free list, as [mm_malloc], [mm_free],
    [mm_shrinkchunk] and [mm_realloc] all do in line. *)
Definition unlink (m : mem) (node : Z) : res mem :=
  blink ← load m (node + 12);
  flink ← load m (node + 8);
  m ← store m (blink + 8) flink;
  flink ← load m (node + 8);
  if flink =? 0 then Ok m
  else
    blink ← load m (node + 12);
    store m (flink + 12) blink.

(** ** Allocation *)

(** [for (; node && node->size < alignsize; node = node->flink);] *)
Fixpoint malloc_search (fuel : nat) (m : mem) (alignsize node : Z) : res Z :=
  match fuel with
  | O => Err Diverge
  | S fuel =>
      if node =? 0 then Ok 0
      else
        sz ← load m node;
        if sz <? alignsize then
          n ← load m (node + 8);
          malloc_search fuel m alignsize n
        else Ok node
  end.

(** The part of [mm_malloc] that runs when a node has been found. *)
Definition malloc_take (nodelist : Z) (m : mem) (alignsize node : Z) : res (mem * Z) :=
  m ← unlink m node;
  size ← load m node;
  let remaining := u32 (size - alignsize) in
  m ←
    (if SIZEOF_MM_FREENODE <=? remaining then
       let next := node + size in
       let remainder := node + alignsize in
       m ← store m remainder remaining;
       m ← store m (remainder + 4) alignsize;
       m ← store m node alignsize;
       np ← load m (next + 4);
       m ← store m (next + 4) (Z.lor remaining (Z.land np MM_ALLOC_BIT));
       mm_addfreechunk nodelist m remainder
     else Ok m);
  p ← load m (node + 4);
  m ← store m (node + 4) (Z.lor p MM_ALLOC_BIT);
  Ok (m, node + SIZEOF_MM_ALLOCNODE).

Definition mm_malloc (my_pid : Z) (h : mm_heap_s) (m : mem) (size : Z)
    : res (mm_heap_s * mem * Z) :=
  if size <? 1 then Ok (h, m, 0)
  else
    let alignsize := MM_ALIGN_UP (u32 (size + SIZEOF_MM_ALLOCNODE)) in
    h ← mm_takesemaphore my_pid h;
    let ndx :=
      if MM_MAX_CHUNK <=? alignsize then MM_NNODES - 1 else mm_size2ndx alignsize in
    first ← load m (bucket (mm_nodelist h) ndx + 8);
    node ← malloc_search (walk_fuel m) m alignsize first;
    '(m, ret) ← (if node =? 0 then Ok (m, 0) else malloc_take (mm_nodelist h) m alignsize node);
    Ok (mm_givesemaphore h, m, ret).

(** ** Deallocation *)

(** The part of [mm_free] that merges the free chunk at [next] into [node]. *)
Definition free_merge_next (m : mem) (node next : Z) : res (mem * Z) :=
  nsize ← load m next;
  let andbeyond := next + nsize in
  m ← unlink m next;
  size ← load m node;
  nsize ← load m next;
  m ← store m node (u32 (size + nsize));
  size ← load m node;
  ap ← load m (andbeyond + 4);
  m ← store m (andbeyond + 4) (Z.lor size (Z.land ap MM_ALLOC_BIT));
  Ok (m, andbeyond).

(** The part of [mm_free] that merges [node] into the free chunk at [prev]. *)
Definition free_merge_prev (m : mem) (prev node next : Z) : res (mem * Z) :=
  m ← unlink m prev;
  psize ← load m prev;
  size ← load m node;
  m ← store m prev (u32 (psize + size));
  psize ← load m prev;
  np ← load m (next + 4);
  m ← store m (next + 4) (Z.lor psize (Z.land np MM_ALLOC_BIT));
  Ok (m, prev).

Definition mm_free (my_pid : Z) (h : mm_heap_s) (m : mem) (memp : Z) : res (mm_heap_s * mem) :=
  if memp =? 0 then Ok (h, m)
  else
    h ← mm_takesemaphore my_pid h;
    let node := memp - SIZEOF_MM_ALLOCNODE in
    p ← load m (node + 4);
    m ← store m (node + 4) (Z.land p (not32 MM_ALLOC_BIT));
    size ← load m node;
    let next := node + size in
    np ← load m (next + 4);
    '(m, next) ←
      (if Z.land np MM_ALLOC_BIT =? 0 then free_merge_next m node next else Ok (m, next));
    p ← load m (node + 4);
    let prev := node - p in
    pp ← load m (prev + 4);
    '(m, node) ←
      (if Z.land pp MM_ALLOC_BIT =? 0 then free_merge_prev m prev node next else Ok (m, node));
    m ← mm_addfreechunk (mm_nodelist h) m node;
    Ok (mm_givesemaphore h, m).

(** ** Shrinking *)

Definition mm_shrinkchunk (nodelist : Z) (m : mem) (node size : Z) : res mem :=
  nsz ← load m node;
  let next := node + nsz in
  np ← load m (next + 4);
  if Z.land np MM_ALLOC_BIT =? 0 then
    nextsize ← load m next;
    let andbeyond := next + nextsize in
    m ← unlink m next;
    let newnode := node + size in
    nextsize ← load m next;
    nsz ← load m node;
    m ← store m newnode (u32 (u32 (nextsize + nsz) - size));
    m ← store m (newnode + 4) size;
    m ← store m node size;
    newsize ← load m newnode;
    ap ← load m (andbeyond + 4);
    m ← store m (andbeyond + 4) (Z.lor newsize (Z.land ap MM_ALLOC_BIT));
    mm_addfreechunk nodelist m newnode
  else if u32 (size + SIZEOF_MM_FREENODE) <=? nsz then
    let newnode := node + size in
    m ← store m newnode (u32 (nsz - size));
    m ← store m (newnode + 4) size;
    m ← store m node size;
    newsize ← load m newnode;
    m ← store m (next + 4) (Z.lor newsize MM_ALLOC_BIT);
    mm_addfreechunk nodelist m newnode
  else Ok m.

(** ** Initialization *)

Definition mm_addregion (h : mm_heap_s) (m : mem) (heapstart heapsize : Z)
    : res (mm_heap_s * mem) :=
  let IDX := mm_nregions h in
  let heapbase := MM_ALIGN_UP heapstart in
  let heapend := MM_ALIGN_DOWN (u32 (heapstart + heapsize)) in
  let heapsize := u32 (heapend - heapbase) in
  starts ← array_set (mm_heapstart h) IDX heapbase;
  m ← store m heapbase SIZEOF_MM_ALLOCNODE;
  m ← store m (heapbase + 4) MM_ALLOC_BIT;
  let node := heapbase + SIZEOF_MM_ALLOCNODE in
  m ← store m node (u32 (heapsize - 2 * SIZEOF_MM_ALLOCNODE));
  m ← store m (node + 4) SIZEOF_MM_ALLOCNODE;
  let hend := heapend - SIZEOF_MM_ALLOCNODE in
  ends ← array_set (mm_heapend h) IDX hend;
  m ← store m hend SIZEOF_MM_ALLOCNODE;
  size ← load m node;
  m ← store m (hend + 4) (Z.lor size MM_ALLOC_BIT);
  let h := MkHeap (mm_semcount h) (mm_holder h) (mm_counts_held h)
             (u32 (mm_heapsize h + heapsize)) starts ends (S IDX) (mm_nodelist h) in
  m ← mm_addfreechunk (mm_nodelist h) m node;
  Ok (h, m).

(** [memset(heap->mm_nodelist, 0, ...)]: the four words of each node. *)
Fixpoint clear_words (n : nat) (m : mem) (a : Z) : res mem :=
  match n with
  | O => Ok m
  | S n => m ← store m a 0; clear_words n m (a + 4)
  end.

(** [for (i = 1; i < MM_NNODES; i++)], with [n] iterations left. *)
Fixpoint link_buckets (n : nat) (nodelist : Z) (m : mem) (i : Z) : res mem :=
  match n with
  | O => Ok m
  | S n =>
      m ← store m (bucket nodelist (i - 1) + 8) (bucket nodelist i);
      m ← store m (bucket nodelist i + 12) (bucket nodelist (i - 1));
      link_buckets n nodelist m (i + 1)
  end.

Definition mm_initialize (h : mm_heap_s) (m : mem) (heapstart heapsize : Z)
    : res (mm_heap_s * mem) :=
  let h := MkHeap (mm_semcount h) (mm_holder h) (mm_counts_held h) 0
             (mm_heapstart h) (mm_heapend h) 0 (mm_nodelist h) in
  m ← clear_words (4 * Z.to_nat MM_NNODES) m (mm_nodelist h);
  m ← link_buckets (Z.to_nat MM_NNODES - 1) (mm_nodelist h) m 1;
  let h := mm_seminitialize h in
  mm_addregion h m heapstart heapsize.
