(* ===== verification/MmMore.v ===== *)
(** * The rest of the memory manager (src/nuttx/mm/mm_heap)

    [mm_zalloc], [mm_calloc], [mm_memalign], [mm_realloc], [mm_extend],
    [mm_brkaddr], [mm_heapmember] and [mm_mallinfo], over the same memory of
    32-bit words.  The sizes that [mm_realloc] passes to memcpy are multiples of
    four; memset of a size that is not clears the low bytes of the last word
    (the target is little-endian). *)

From S2P Require Import Prelude Bits Links Queue MmHeap.
Local Open Scope Z_scope.

(** ** memset and memcpy on words *)

Definition memset_zero (m : mem) (a size : Z) : res mem :=
  m ← clear_words (Z.to_nat (size / 4)) m a;
  let r := size mod 4 in
  if r =? 0 then Ok m
  else
    let last := a + 4 * (size / 4) in
    w ← load m last;
    store m last (Z.land w (not32 (2 ^ (8 * r) - 1))).

(** [n] words from [src] to [dst], lowest address first. *)
Fixpoint memcpy_words (n : nat) (m : mem) (dst src : Z) : res mem :=
  match n with
  | O => Ok m
  | S n =>
      w ← load m src;
      m ← store m dst w;
      memcpy_words n m (dst + 4) (src + 4)
  end.

Definition memcpy (m : mem) (dst src size : Z) : res mem := memcpy_words (Z.to_nat (size / 4)) m dst src.

(** ** Zeroed and aligned allocation *)

Definition mm_zalloc (my_pid : Z) (h : mm_heap_s) (m : mem) (size : Z) : res (mm_heap_s * mem * Z) :=
  '(h, m, alloc) ← mm_malloc my_pid h m size;
  if alloc =? 0 then Ok (h, m, 0)
  else
    m ← memset_zero m alloc size;
    Ok (h, m, alloc).

Definition SIZE_MAX : Z := 2 ^ 32 - 1.

Definition mm_calloc (my_pid : Z) (h : mm_heap_s) (m : mem) (n elem_size : Z)
    : res (mm_heap_s * mem * Z) :=
  if (0 <? n) && (0 <? elem_size) then
    if n <=? SIZE_MAX / elem_size then mm_zalloc my_pid h m (u32 (n * elem_size))
    else Ok (h, m, 0)
  else Ok (h, m, 0).

(** The part of [mm_memalign] that frees the space before the aligned address:
    the result is the new node, its address and the new [allocsize]. *)
Definition memalign_front (nodelist : Z) (m : mem) (node rawchunk alignedchunk alignment : Z)
    : res (mem * Z * Z * Z) :=
  nsz ← load m node;
  let next := node + nsz in
  let newnode := alignedchunk - SIZEOF_MM_ALLOCNODE in
  let precedingsize := u32 (newnode - node) in
  let '(alignedchunk, newnode, precedingsize) :=
    if precedingsize <? SIZEOF_MM_FREENODE then
      let alignedchunk := u32 (alignedchunk + alignment) in
      let newnode := alignedchunk - SIZEOF_MM_ALLOCNODE in
      (alignedchunk, newnode, u32 (newnode - node))
    else (alignedchunk, newnode, precedingsize) in
  m ← store m newnode (u32 (next - newnode));
  m ← store m (newnode + 4) (Z.lor precedingsize MM_ALLOC_BIT);
  m ← store m node precedingsize;
  p ← load m (node + 4);
  m ← store m (node + 4) (Z.land p (not32 MM_ALLOC_BIT));
  newsize ← load m newnode;
  np ← load m (next + 4);
  m ← store m (next + 4) (Z.lor newsize (Z.land np MM_ALLOC_BIT));
  newsize ← load m newnode;
  let allocsize := u32 (newsize - SIZEOF_MM_ALLOCNODE) in
  m ← mm_addfreechunk nodelist m node;
  Ok (m, newnode, alignedchunk, allocsize).

Definition mm_memalign (my_pid : Z) (h : mm_heap_s) (m : mem) (alignment size : Z)
    : res (mm_heap_s * mem * Z) :=
  let mask := u32 (alignment - 1) in
  if alignment <=? MM_MIN_CHUNK then mm_malloc my_pid h m size
  else
    let size := MM_ALIGN_UP size in
    let allocsize := u32 (size + 2 * alignment) in
    '(h, m, rawchunk) ← mm_malloc my_pid h m allocsize;
    if rawchunk =? 0 then Ok (h, m, 0)
    else
      h ← mm_takesemaphore my_pid h;
      let node := rawchunk - SIZEOF_MM_ALLOCNODE in
      let alignedchunk := Z.land (u32 (rawchunk + mask)) (not32 mask) in
      '(m, node, alignedchunk, allocsize) ←
        (if alignedchunk =? rawchunk then Ok (m, node, alignedchunk, allocsize)
         else memalign_front (mm_nodelist h) m node rawchunk alignedchunk alignment);
      let size := MM_ALIGN_UP (u32 (size + SIZEOF_MM_ALLOCNODE)) in
      m ← (if size <? allocsize then mm_shrinkchunk (mm_nodelist h) m node size else Ok m);
      Ok (mm_givesemaphore h, m, alignedchunk).

(** ** Reallocation *)

(** How much [mm_realloc] takes from the previous and from the next chunk. *)
Definition realloc_split (needed prevsize nextsize : Z) : Z * Z :=
  let '(takeprev, takenext, needed) :=
    if (0 <? prevsize) && ((prevsize <=? nextsize) || (nextsize <? 1)) then
      if prevsize <? needed then (prevsize, needed - prevsize, 0) else (needed, 0, 0)
    else (0, 0, needed) in
  if (0 <? nextsize) && negb (needed =? 0) then
    if nextsize <? needed then (needed - nextsize, nextsize) else (0, needed)
  else (takeprev, takenext).

(** Extending into the previous chunk: the new node, its size and its payload. *)
Definition realloc_prev (nodelist : Z) (m : mem) (oldnode prev next oldmem oldsize prevsize takeprev : Z)
    : res (mem * Z * Z * Z) :=
  m ← unlink m prev;
  let newnode := oldnode - takeprev in
  m ←
    (if takeprev <? prevsize then
       psize ← load m prev;
       m ← store m prev (u32 (psize - takeprev));
       m ← store m newnode (u32 (oldsize + takeprev));
       psize ← load m prev;
       m ← store m (newnode + 4) (Z.lor psize MM_ALLOC_BIT);
       nsize ← load m newnode;
       np ← load m (next + 4);
       m ← store m (next + 4) (Z.lor nsize (Z.land np MM_ALLOC_BIT));
       mm_addfreechunk nodelist m prev
     else
       nsize ← load m newnode;
       m ← store m newnode (u32 (nsize + oldsize));
       p ← load m (newnode + 4);
       m ← store m (newnode + 4) (Z.lor p MM_ALLOC_BIT);
       nsize ← load m newnode;
       np ← load m (next + 4);
       store m (next + 4) (Z.lor nsize (Z.land np MM_ALLOC_BIT)));
  oldsize ← load m newnode;
  let newmem := newnode + SIZEOF_MM_ALLOCNODE in
  m ← memcpy m newmem oldmem (u32 (oldsize - SIZEOF_MM_ALLOCNODE));
  Ok (m, newnode, oldsize, newmem).

(** Extending into the next chunk. *)
Definition realloc_next (nodelist : Z) (m : mem) (oldnode next oldsize nextsize takenext : Z) : res mem :=
  let andbeyond := next + nextsize in
  m ← unlink m next;
  m ← store m oldnode (u32 (oldsize + takenext));
  osize ← load m oldnode;
  let newnode := oldnode + osize in
  if takenext <? nextsize then
    m ← store m newnode (u32 (nextsize - takenext));
    osize ← load m oldnode;
    m ← store m (newnode + 4) osize;
    nsize ← load m newnode;
    ap ← load m (andbeyond + 4);
    m ← store m (andbeyond + 4) (Z.lor nsize (Z.land ap MM_ALLOC_BIT));
    mm_addfreechunk nodelist m newnode
  else
    osize ← load m oldnode;
    ap ← load m (andbeyond + 4);
    store m (andbeyond + 4) (Z.lor osize (Z.land ap MM_ALLOC_BIT)).

Definition mm_realloc (my_pid : Z) (h : mm_heap_s) (m : mem) (oldmem size : Z)
    : res (mm_heap_s * mem * Z) :=
  if oldmem =? 0 then mm_malloc my_pid h m size
  else if size <? 1 then
    '(h, m) ← mm_free my_pid h m oldmem;
    Ok (h, m, 0)
  else
    let newsize := MM_ALIGN_UP (u32 (size + SIZEOF_MM_ALLOCNODE)) in
    let oldnode := oldmem - SIZEOF_MM_ALLOCNODE in
    h ← mm_takesemaphore my_pid h;
    oldsize ← load m oldnode;
    if newsize <=? oldsize then
      m ← (if newsize <? oldsize then mm_shrinkchunk (mm_nodelist h) m oldnode newsize else Ok m);
      Ok (mm_givesemaphore h, m, oldmem)
    else
      osize ← load m oldnode;
      let next := oldnode + osize in
      np ← load m (next + 4);
      nextsize ← (if Z.land np MM_ALLOC_BIT =? 0 then load m next else Ok 0);
      op ← load m (oldnode + 4);
      let prev := oldnode - Z.land op (not32 MM_ALLOC_BIT) in
      pp ← load m (prev + 4);
      prevsize ← (if Z.land pp MM_ALLOC_BIT =? 0 then load m prev else Ok 0);
      if newsize <=? u32 (nextsize + prevsize + oldsize) then
        let needed := u32 (newsize - oldsize) in
        let '(takeprev, takenext) := realloc_split needed prevsize nextsize in
        '(m, oldnode, oldsize, newmem) ←
          (if takeprev =? 0 then Ok (m, oldnode, oldsize, oldmem)
           else realloc_prev (mm_nodelist h) m oldnode prev next oldmem oldsize prevsize takeprev);
        m ←
          (if takenext =? 0 then Ok m
           else realloc_next (mm_nodelist h) m oldnode next oldsize nextsize takenext);
        Ok (mm_givesemaphore h, m, newmem)
      else
        let h := mm_givesemaphore h in
        '(h, m, newmem) ← mm_malloc my_pid h m size;
        if newmem =? 0 then Ok (h, m, 0)
        else
          m ← memcpy m newmem oldmem oldsize;
          '(h, m) ← mm_free my_pid h m oldmem;
          Ok (h, m, newmem).

(** ** Extending a region; queries *)

Definition mm_extend (my_pid : Z) (h : mm_heap_s) (m : mem) (memp size : Z) (region : nat)
    : res (mm_heap_s * mem) :=
  let blockend := u32 (memp + size) in
  h ← mm_takesemaphore my_pid h;
  oldnode ← array_get (mm_heapend h) region;
  m ← store m oldnode size;
  let newnode := blockend - SIZEOF_MM_ALLOCNODE in
  m ← store m newnode SIZEOF_MM_ALLOCNODE;
  osize ← load m oldnode;
  m ← store m (newnode + 4) (Z.lor osize MM_ALLOC_BIT);
  ends ← array_set (mm_heapend h) region newnode;
  let h := MkHeap (mm_semcount h) (mm_holder h) (mm_counts_held h) (mm_heapsize h)
             (mm_heapstart h) ends (mm_nregions h) (mm_nodelist h) in
  let h := mm_givesemaphore h in
  mm_free my_pid h m memp.

Definition mm_brkaddr (h : mm_heap_s) (region : nat) : res Z :=
  brkaddr ← array_get (mm_heapend h) region;
  Ok (if brkaddr =? 0 then 0 else brkaddr + SIZEOF_MM_ALLOCNODE).

(** [for (i = 0; i < heap->mm_nregions; i++)], with [n] regions left. *)
Fixpoint heapmember_loop (n : nat) (h : mm_heap_s) (memp : Z) (i : nat) : res bool :=
  match n with
  | O => Ok false
  | S n =>
      s ← array_get (mm_heapstart h) i;
      e ← array_get (mm_heapend h) i;
      if (s <? memp) && (memp <? e) then Ok true else heapmember_loop n h memp (S i)
  end.

Definition mm_heapmember (h : mm_heap_s) (memp : Z) : res bool :=
  heapmember_loop (mm_nregions h) h memp 0.

Record mallinfo := MallInfo { arena : Z; ordblks : Z; mxordblk : Z; uordblks : Z; fordblks : Z }.

(** The walk along the nodes of one region. *)
Fixpoint mallinfo_walk (fuel : nat) (m : mem) (node hend : Z) (i : mallinfo) : res mallinfo :=
  match fuel with
  | O => Err Diverge
  | S fuel =>
      if node <? hend then
        p ← load m (node + 4);
        size ← load m node;
        let i :=
          if Z.land p MM_ALLOC_BIT =? 0 then
            MallInfo (arena i) (ordblks i + 1) (if mxordblk i <? size then size else mxordblk i)
              (uordblks i) (u32 (fordblks i + size))
          else MallInfo (arena i) (ordblks i) (mxordblk i) (u32 (uordblks i + size)) (fordblks i) in
        mallinfo_walk fuel m (node + size) hend i
      else Ok i
  end.

Fixpoint mallinfo_regions (n : nat) (my_pid : Z) (h : mm_heap_s) (m : mem) (region : nat) (i : mallinfo)
    : res (mm_heap_s * mallinfo) :=
  match n with
  | O => Ok (h, i)
  | S n =>
      h ← mm_takesemaphore my_pid h;
      s ← array_get (mm_heapstart h) region;
      e ← array_get (mm_heapend h) region;
      i ← mallinfo_walk (walk_fuel m) m s e i;
      let i := MallInfo (arena i) (ordblks i) (mxordblk i) (u32 (uordblks i + SIZEOF_MM_ALLOCNODE)) (fordblks i) in
      mallinfo_regions n my_pid (mm_givesemaphore h) m (S region) i
  end.

Definition mm_mallinfo (my_pid : Z) (h : mm_heap_s) (m : mem) : res (mm_heap_s * mallinfo) :=
  '(h, i) ← mallinfo_regions (mm_nregions h) my_pid h m 0 (MallInfo 0 0 0 0 0);
  Ok (h, MallInfo (mm_heapsize h) (ordblks i) (mxordblk i) (uordblks i) (fordblks i)).
