(* ===== verification/MmLayout.v ===== *)
(** * Chunks and regions of the memory manager

    The abstract view of a heap used by the proofs about src/nuttx/mm/mm_heap:
    a region is the list of its chunks in address order, each a size and an
    allocated flag.  The header that every chunk must have in memory is
    computed from that list. *)

From S2P Require Import Prelude Bits Links Queue MmHeap.
Local Open Scope Z_scope.

(** Size and allocated flag. *)
Abbreviation chunk := (Z * bool)%type.

(** A chunk placed in memory: address, size, size of the preceding chunk. *)
Record entry := Entry { ea : Z; es : Z; ep : Z; eal : bool }.

Fixpoint entries (a p : Z) (l : list chunk) : list entry :=
  match l with
  | [] => []
  | (s, al) :: l => Entry a s p al :: entries (a + s) s l
  end.

Definition total (l : list chunk) : Z := foldr (fun c n => c.1 + n) 0 l.
Definition lastsz (p : Z) (l : list chunk) : Z := default p (fst <$> last l).

(** The [preceding] word: the size of the preceding chunk and the flag. *)
Definition enc (p : Z) (al : bool) : Z := if al then p + MM_ALLOC_BIT else p.

Record region := Region { r_base : Z; r_chunks : list chunk }.
Definition r_end (r : region) : Z := r_base r + total (r_chunks r).

Definition chunk_ok (c : chunk) : Prop := 16 <= c.1 /\ c.1 mod 16 = 0.

(** Two guard nodes and a multiple of 16 bytes in between. *)
Record region_ok (r : region) : Prop := {
  ro_shape : exists l, r_chunks r = (8, true) :: l ++ [(8, true)] /\ Forall chunk_ok l;
  ro_base : 0 < r_base r /\ r_base r mod 16 = 0;
  ro_total : total (r_chunks r) < 2 ^ 31
}.

(** No two neighbouring chunks are free; [pf] says whether the chunk before the
    list is. *)
Fixpoint coalesced_from (pf : bool) (l : list chunk) : Prop :=
  match l with
  | [] => True
  | (_, al) :: l => (pf = true -> al = true) /\ coalesced_from (negb al) l
  end.
Definition coalesced (l : list chunk) : Prop := coalesced_from false l.

Definition in_heap (rs : list region) (e : entry) : Prop :=
  exists i r, rs !! i = Some r /\ e ∈ entries (r_base r) 0 (r_chunks r).

(** ** Arithmetic of headers *)

Lemma lor_alloc_enc p : 0 <= p < 2 ^ 31 -> Z.lor p MM_ALLOC_BIT = enc p true.
Proof. apply (lor_flag p 31). lia. Qed.

Lemma land_enc p al : 0 <= p < 2 ^ 31 ->
  Z.land (enc p al) MM_ALLOC_BIT = if al then MM_ALLOC_BIT else 0.
Proof.
  intros. destruct al; simpl; [by apply (land_flag_set p 31)|by apply (land_flag_clear p 31)].
Qed.

Lemma land_enc_eqb p al : 0 <= p < 2 ^ 31 ->
  (Z.land (enc p al) MM_ALLOC_BIT =? 0) = negb al.
Proof. intros. rewrite land_enc by done. by destruct al. Qed.

Lemma lor_land_enc r p al : 0 <= r < 2 ^ 31 -> 0 <= p < 2 ^ 31 ->
  Z.lor r (Z.land (enc p al) MM_ALLOC_BIT) = enc r al.
Proof.
  intros. rewrite land_enc by done. destruct al; [by apply lor_alloc_enc|apply Z.lor_0_r].
Qed.

Lemma land_not_alloc p al : 0 <= p < 2 ^ 31 -> Z.land (enc p al) (not32 MM_ALLOC_BIT) = p.
Proof.
  intros. replace (not32 MM_ALLOC_BIT) with (Z.ones 31) by done.
  destruct al; simpl; [by apply (land_low p 31)|by apply land_low_id].
Qed.

Lemma align_up_spec a : 0 <= a < 2 ^ 32 - 15 ->
  MM_ALIGN_UP a mod 16 = 0 /\ a <= MM_ALIGN_UP a < a + 16.
Proof.
  intros Ha. unfold MM_ALIGN_UP. change MM_GRAN_MASK with 15.
  rewrite u32_small by lia. change (not32 15) with (2 ^ 32 - 2 ^ 4).
  rewrite land_align by lia. change (2 ^ 4) with 16.
  pose proof (Z.div_mod (a + 15) 16). pose proof (Z.mod_pos_bound (a + 15) 16).
  split; [|lia]. rewrite Z.mul_comm. apply Z.mod_mul. lia.
Qed.

Lemma align_down_spec a : 0 <= a < 2 ^ 32 ->
  MM_ALIGN_DOWN a mod 16 = 0 /\ a - 16 < MM_ALIGN_DOWN a <= a.
Proof.
  intros Ha. unfold MM_ALIGN_DOWN. change MM_GRAN_MASK with 15.
  change (not32 15) with (2 ^ 32 - 2 ^ 4). rewrite land_align by lia. change (2 ^ 4) with 16.
  pose proof (Z.div_mod a 16). pose proof (Z.mod_pos_bound a 16).
  split; [|lia]. rewrite Z.mul_comm. apply Z.mod_mul. lia.
Qed.

Lemma size2ndx_loop_spec fuel size ndx :
  1 <= size < 2 ^ Z.of_nat (S fuel) ->
  size2ndx_loop fuel size ndx = ndx + Z.log2 size.
Proof.
  revert size ndx. induction fuel as [|fuel IH]; intros size ndx Hs; cbn [size2ndx_loop].
  - change (2 ^ Z.of_nat 1) with 2 in Hs. replace size with 1 by lia. simpl. lia.
  - destruct (1 <? size) eqn:E; b2p.
    + rewrite Nat2Z.inj_succ, Z.pow_succ_r in Hs by lia. rewrite IH.
      * rewrite Z.log2_shiftr by lia.
        assert (1 <= Z.log2 size) by (apply Z.log2_le_pow2; lia). lia.
      * rewrite Z.shiftr_div_pow2 by lia. change (2 ^ 1) with 2.
        split; [apply Z.div_le_lower_bound; lia|apply Z.div_lt_upper_bound; lia].
    + replace size with 1 by lia. simpl. lia.
Qed.

(** Bucket [k] holds the sizes from [2^(k+4)] up to [2^(k+5)] exclusive, the
    last one every size from [MM_MAX_CHUNK] on. *)
Lemma size2ndx_bucket size :
  MM_MIN_CHUNK <= size < 2 ^ 32 ->
  0 <= mm_size2ndx size < MM_NNODES /\ 2 ^ (mm_size2ndx size + MM_MIN_SHIFT) <= size /\
  (size < 2 ^ (mm_size2ndx size + MM_MIN_SHIFT + 1) \/ mm_size2ndx size = MM_NNODES - 1).
Proof.
  intros Hs. change MM_MIN_CHUNK with 16 in Hs. unfold mm_size2ndx.
  change MM_NNODES with 19. change MM_MIN_SHIFT with 4. change MM_MAX_CHUNK with (2 ^ 22).
  destruct (2 ^ 22 <=? size) eqn:E; b2p.
  { change (2 ^ (19 - 1 + 4)) with (2 ^ 22). lia. }
  assert (Hsh : Z.shiftr size 4 = size / 16) by (by rewrite Z.shiftr_div_pow2).
  rewrite size2ndx_loop_spec.
  2: { rewrite Hsh. split; [apply Z.div_le_lower_bound; lia|].
       apply Z.div_lt_upper_bound; [lia|]. change (Z.of_nat 33) with 33. lia. }
  rewrite Hsh. assert (Hd : 1 <= size / 16) by (apply Z.div_le_lower_bound; lia).
  replace (0 + Z.log2 (size / 16)) with (Z.log2 size - 4).
  2: { rewrite <- Hsh, Z.log2_shiftr by lia. rewrite Z.max_r; [lia|].
       assert (4 <= Z.log2 size) by (apply Z.log2_le_pow2; lia). lia. }
  pose proof (Z.log2_spec size ltac:(lia)) as [Hlo Hhi].
  replace (Z.log2 size - 4 + 4) with (Z.log2 size) by lia.
  replace (Z.log2 size + 1) with (Z.succ (Z.log2 size)) by lia.
  assert (4 <= Z.log2 size) by (apply Z.log2_le_pow2; lia).
  assert (Z.log2 size < 22) by (apply Z.log2_lt_pow2; lia). lia.
Qed.

(** ** Entries of a chunk list *)

Lemma total_app l1 l2 : total (l1 ++ l2) = total l1 + total l2.
Proof. induction l1 as [|c l1 IH]; simpl; [lia|]. unfold total in *. simpl. lia. Qed.

Lemma lastsz_snoc p l s al : lastsz p (l ++ [(s, al)]) = s.
Proof. unfold lastsz. by rewrite last_snoc. Qed.

Lemma lastsz_cons p c l : lastsz p (c :: l) = lastsz c.1 l.
Proof. unfold lastsz. rewrite last_cons. by destruct (last l). Qed.

Lemma entries_app a p l1 l2 :
  entries a p (l1 ++ l2) = entries a p l1 ++ entries (a + total l1) (lastsz p l1) l2.
Proof.
  revert a p. induction l1 as [|[s al] l1 IH]; intros a p; simpl.
  - by rewrite Z.add_0_r.
  - rewrite IH, lastsz_cons. simpl. by rewrite Z.add_assoc.
Qed.

(** A chunk found by its entry. *)
Lemma entries_split a p l e :
  e ∈ entries a p l ->
  exists l1 l2, l = l1 ++ (es e, eal e) :: l2 /\ ea e = a + total l1 /\ ep e = lastsz p l1.
Proof.
  revert a p. induction l as [|[s al] l IH]; intros a p; simpl; [set_solver|].
  rewrite elem_of_cons. intros [->|He].
  - exists [], l. simpl. split; [done|]. split; [lia|done].
  - apply IH in He as (l1 & l2 & -> & Ea & Ep). exists ((s, al) :: l1), l2.
    rewrite lastsz_cons. simpl. split; [done|]. split; [lia|done].
Qed.

Lemma total_nonneg l : Forall (fun c : chunk => 8 <= c.1) l -> 0 <= total l.
Proof. induction 1; simpl; unfold total in *; simpl; lia. Qed.

(** Every entry lies within the region and two entries do not overlap. *)
Lemma entries_range a p l e :
  Forall (fun c : chunk => 8 <= c.1) l -> e ∈ entries a p l ->
  a <= ea e /\ ea e + es e <= a + total l /\ 8 <= es e.
Proof.
  revert a p. induction l as [|[s al] l IH]; intros a p Hl; simpl; [set_solver|].
  apply Forall_cons in Hl as [Hs Hl]. simpl in Hs. pose proof (total_nonneg l Hl).
  rewrite elem_of_cons. intros [->|He]; simpl; [unfold total in *; lia|].
  apply IH in He; [|done]. unfold total in *. lia.
Qed.

Lemma entries_sep a p l e1 e2 :
  Forall (fun c : chunk => 8 <= c.1) l -> e1 ∈ entries a p l -> e2 ∈ entries a p l ->
  e1 = e2 \/ ea e1 + es e1 <= ea e2 \/ ea e2 + es e2 <= ea e1.
Proof.
  revert a p. induction l as [|[s al] l IH]; intros a p Hl; simpl; [set_solver|].
  apply Forall_cons in Hl as [Hs Hl]. rewrite !elem_of_cons. intros [->|H1] [->|H2]; simpl.
  - by left.
  - apply (entries_range _ _ _ _ Hl) in H2. lia.
  - apply (entries_range _ _ _ _ Hl) in H1. lia.
  - by eapply IH.
Qed.

Lemma length_entries a p l : length (entries a p l) = length l.
Proof. revert a p. induction l as [|[s al] l IH]; intros a p; simpl; [done|]. by rewrite IH. Qed.

Lemma entries_nodup a p l : Forall (fun c : chunk => 8 <= c.1) l -> NoDup (ea <$> entries a p l).
Proof.
  intros Hl. revert a p. induction Hl as [|[s al] l Hs Hl IH]; intros a p; simpl; [apply NoDup_nil_2|].
  apply NoDup_cons. split; [|apply IH]. simpl in Hs.
  intros (e & Ee & He)%list_elem_of_fmap. apply (entries_range _ _ _ _ Hl) in He. lia.
Qed.

(** ** Coalescing *)

Definition last_free (pf : bool) (l : list chunk) : bool :=
  match last l with Some c => negb c.2 | None => pf end.

Lemma coalesced_from_app pf l1 l2 :
  coalesced_from pf (l1 ++ l2) <-> coalesced_from pf l1 /\ coalesced_from (last_free pf l1) l2.
Proof.
  revert pf. induction l1 as [|[s al] l1 IH]; intros pf; simpl; [tauto|].
  rewrite IH. assert (E : last_free pf ((s, al) :: l1) = last_free (negb al) l1).
  { unfold last_free. rewrite last_cons. by destruct (last l1). }
  rewrite E. tauto.
Qed.

Lemma coalesced_app l1 l2 :
  coalesced (l1 ++ l2) <-> coalesced l1 /\ coalesced_from (last_free false l1) l2.
Proof. apply coalesced_from_app. Qed.
