(* ===== verification/MmFreeList.v ===== *)
(** * The free list of the memory manager

    The nodes of the list are the 19 bucket heads and the free chunks, in one
    order: a bucket head stands at the lower bound of its bucket.  [flist] is
    the representation invariant of the linked nodes; the lemmas give the
    effect of unlinking a node, of [mm_addfreechunk] and of the search of
    [mm_malloc] on it. *)

From S2P Require Import Prelude Bits Links Queue MmHeap MmLayout.
Local Open Scope Z_scope.

Inductive fnode := FHead (k : nat) | FFree (a s : Z).

Definition faddr (nl : Z) (f : fnode) : Z :=
  match f with FHead k => bucket nl (Z.of_nat k) | FFree a _ => a end.
Definition fsize (f : fnode) : Z := match f with FHead _ => 0 | FFree _ s => s end.

(** The position of a node: twice the size, a head just below the sizes of
    its bucket. *)
Definition fkey (f : fnode) : Z :=
  match f with FHead k => 2 * 2 ^ (Z.of_nat k + 4) | FFree _ s => 2 * s + 1 end.

Record flist (nl : Z) (m : mem) (fl : list fnode) : Prop := {
  fl_pos : forall f, f ∈ fl -> 0 < faddr nl f;
  fl_heads : forall k, FHead k ∈ fl <-> (k < 19)%nat;
  fl_sizes : forall f, f ∈ fl -> m !! faddr nl f = Some (fsize f);
  fl_free : forall a s, FFree a s ∈ fl -> 16 <= s < 2 ^ 31;
  fl_nodup : NoDup fl;
  fl_sep : forall f g, f ∈ fl -> g ∈ fl ->
    f = g \/ faddr nl f + 16 <= faddr nl g \/ faddr nl g + 16 <= faddr nl f;
  fl_sorted : StronglySorted (fun f g => fkey f <= fkey g) fl;
  fl_links : dlinks (fun x => m !! (x + 8)) (fun x => m !! (x + 12)) 0 (faddr nl <$> fl) 0
}.

(** The link words of the nodes of a list. *)
Definition link_word (nl : Z) (fl : list fnode) (w : Z) : Prop :=
  exists f, f ∈ fl /\ (w = faddr nl f + 8 \/ w = faddr nl f + 12).

Lemma link_word_app nl l1 l2 w : link_word nl (l1 ++ l2) w <-> link_word nl l1 w \/ link_word nl l2 w.
Proof. unfold link_word. set_solver. Qed.

Lemma link_word_cons nl f l w :
  link_word nl (f :: l) w <-> w = faddr nl f + 8 \/ w = faddr nl f + 12 \/ link_word nl l w.
Proof. unfold link_word. set_solver. Qed.

Section FList.
Context (nl : Z).
Implicit Types (m : mem) (fl : list fnode).
Local Abbreviation adr := (faddr nl).

Lemma fl_addr_inj m fl f g : flist nl m fl -> f ∈ fl -> g ∈ fl -> adr f = adr g -> f = g.
Proof. intros H Hf Hg E. destruct (fl_sep _ _ _ H f g Hf Hg) as [?|?]; [done|lia]. Qed.

Lemma fl_nodup_addr m fl : flist nl m fl -> NoDup (adr <$> fl).
Proof.
  intros H. apply (NoDup_fmap_2_strong _ fl); [|apply H].
  intros f g Hf Hg E. by eapply fl_addr_inj.
Qed.

(** The words of a node of the list are mapped. *)
Lemma fl_node m fl f : flist nl m fl -> f ∈ fl ->
  is_Some (m !! (adr f + 8)) /\ is_Some (m !! (adr f + 12)).
Proof.
  intros H Hf. destruct (list_elem_of_split _ _ Hf) as (l1 & l2 & ->).
  pose proof (fl_links _ _ _ H) as Hl. rewrite fmap_app in Hl. simpl in Hl.
  destruct (dlinks_mid _ _ _ _ _ _ _ Hl) as [E1 E2]. eauto.
Qed.

Lemma fl_links_at m l1 f l2 : flist nl m (l1 ++ f :: l2) ->
  m !! (adr f + 8) = Some (hd 0 (adr <$> l2)) /\ m !! (adr f + 12) = Some (lastd 0 (adr <$> l1)).
Proof.
  intros H. pose proof (fl_links _ _ _ H) as Hl. rewrite fmap_app in Hl. simpl in Hl.
  exact (dlinks_mid _ _ _ _ _ _ _ Hl).
Qed.

Lemma flist_frame m m' fl :
  (forall f, f ∈ fl -> m' !! adr f = m !! adr f /\ m' !! (adr f + 8) = m !! (adr f + 8) /\
               m' !! (adr f + 12) = m !! (adr f + 12)) ->
  flist nl m fl -> flist nl m' fl.
Proof.
  intros HE H. split; try apply H.
  - intros f Hf. destruct (HE f Hf) as [-> _]. by apply H.
  - eapply dlinks_ext; [|apply H]. intros x (f & -> & Hf)%list_elem_of_fmap.
    by destruct (HE f Hf) as (_ & -> & ->).
Qed.

Lemma fl_length m fl : flist nl m fl -> (length fl < walk_fuel m)%nat.
Proof.
  intros H. rewrite <- (length_fmap adr fl).
  apply Nat.lt_succ_r, nodup_length_size; [by eapply fl_nodup_addr|].
  intros x (f & -> & Hf)%list_elem_of_fmap. rewrite (fl_sizes _ _ _ H f Hf). eauto.
Qed.

(** A free node has a bucket head before it. *)
Lemma fl_before m l1 a s l2 : flist nl m (l1 ++ FFree a s :: l2) -> l1 <> [].
Proof.
  intros H ->. simpl in H. pose proof (fl_heads _ _ _ H 0%nat) as [_ Hh].
  specialize (Hh ltac:(lia)). apply elem_of_cons in Hh as [?|Hh]; [done|].
  pose proof (fl_sorted _ _ _ H) as [Hs _]%StronglySorted_cons.
  rewrite Forall_forall in Hs. apply Hs in Hh. simpl in Hh.
  assert (16 <= s) by (apply (fl_free _ _ _ H a s); set_solver).
  change (2 * 2 ^ (Z.of_nat 0 + 4)) with 32 in Hh. lia.
Qed.

Lemma flist_remove m m' l1 a s l2 :
  flist nl m (l1 ++ FFree a s :: l2) ->
  (forall w, ~ link_word nl (l1 ++ l2) w -> m' !! w = m !! w) ->
  dlinks (fun x => m' !! (x + 8)) (fun x => m' !! (x + 12)) 0 (adr <$> (l1 ++ l2)) 0 ->
  flist nl m' (l1 ++ l2).
Proof.
  intros H Hw Hl.
  assert (Hin : forall f, f ∈ l1 ++ l2 -> f ∈ l1 ++ FFree a s :: l2) by set_solver.
  split; [..|done].
  - intros f Hf. by apply (fl_pos _ _ _ H), Hin.
  - intros k. rewrite <- (fl_heads _ _ _ H k). set_solver.
  - intros f Hf. rewrite Hw; [by apply (fl_sizes _ _ _ H), Hin|].
    intros (g & Hg & E). destruct (fl_sep _ _ _ H f g) as [->|?]; [auto..|lia|lia].
  - intros a' s' Hf. by apply (fl_free _ _ _ H a'), Hin.
  - pose proof (fl_nodup _ _ _ H) as (? & ? & [_ ?]%NoDup_cons)%NoDup_app.
    apply NoDup_app. set_solver.
  - intros f g Hf Hg. apply (fl_sep _ _ _ H); auto.
  - pose proof (fl_sorted _ _ _ H) as (Hs1 & Hs2 & Hs3)%StronglySorted_app.
    apply StronglySorted_cons in Hs3 as [_ Hs3]. apply StronglySorted_app. set_solver.
Qed.

Lemma unlink_spec m l1 a s l2 :
  flist nl m (l1 ++ FFree a s :: l2) ->
  exists m', unlink m a = Ok m' /\ flist nl m' (l1 ++ l2) /\
    (forall w, ~ link_word nl (l1 ++ l2) w -> m' !! w = m !! w).
Proof.
  intros H. pose proof (fl_before _ _ _ _ _ H) as Hne.
  destruct (fl_links_at _ _ _ _ H) as [EF EB]. simpl in EF, EB.
  pose proof (fl_nodup_addr _ _ H) as Hnd. rewrite fmap_app in Hnd. simpl in Hnd.
  assert (Ha : 0 < a) by (apply (fl_pos _ _ _ H (FFree a s)); set_solver).
  assert (Hl : exists fb, fb ∈ l1 /\ lastd 0 (adr <$> l1) = adr fb).
  { assert (Hne' : adr <$> l1 <> []) by (by destruct l1).
    pose proof (lastd_elem 0 _ Hne') as (fb & E & Hfb)%list_elem_of_fmap. eauto. }
  destruct Hl as (fb & Hfb & Efb).
  assert (Hb : 0 < adr fb) by (apply (fl_pos _ _ _ H); set_solver).
  assert (Hbs : is_Some (m !! (adr fb + 8))) by (eapply fl_node; [done|set_solver]).
  assert (Hba : adr fb + 16 <= a \/ a + 16 <= adr fb).
  { destruct (fl_sep _ _ _ H fb (FFree a s)) as [->|?]; [set_solver..| |done].
    pose proof (fl_nodup _ _ _ H) as (_ & Hd & _)%NoDup_app. set_solver. }
  unfold unlink. rewrite Efb in EB.
  run.
  set (m1 := <[adr fb + 8 := hd 0 (adr <$> l2)]> m) in *.
  assert (E1 : m1 !! (a + 8) = Some (hd 0 (adr <$> l2)))
    by (unfold m1; rewrite lookup_insert_ne; [done|lia]).
  assert (E2 : m1 !! (a + 12) = Some (adr fb))
    by (unfold m1; rewrite lookup_insert_ne; [done|lia]).
  run.
  assert (Hlinks : dlinks (fun x => m !! (x + 8)) (fun x => m !! (x + 12)) 0
                     ((adr <$> l1) ++ a :: (adr <$> l2)) 0).
  { pose proof (fl_links _ _ _ H) as Hl. by rewrite fmap_app in Hl. }
  destruct l2 as [|fn l2].
  - simpl. eexists. split; [done|].
    assert (Hw : forall w, ~ link_word nl (l1 ++ []) w -> m1 !! w = m !! w).
    { intros w Hw. unfold m1. rewrite lookup_insert_ne; [done|]. intros <-.
      apply Hw. exists fb. rewrite app_nil_r. auto. }
    split; [|done]. eapply flist_remove; [done..|]. rewrite fmap_app.
    apply (dlinks_remove (fun x => m !! (x + 8)) _ (fun x => m !! (x + 12)) _ 0 (adr <$> l1) a []);
      [done| |done| | |done].
    + intros _. rewrite Efb. unfold m1. by rewrite lookup_insert_eq.
    + intros x Hx Hxl. unfold m1. rewrite lookup_insert_ne; [done|]. intros ?.
      apply Hxl; [by destruct l1|]. lia.
    + intros x Hx _. rewrite app_nil_r in Hx. apply list_elem_of_fmap in Hx as (f & -> & Hf).
      unfold m1. rewrite lookup_insert_ne; [done|].
      destruct (fl_sep _ _ _ H f fb) as [->|?]; [set_solver..|lia|lia].
  - simpl. assert (Hn : 0 < adr fn) by (apply (fl_pos _ _ _ H); set_solver).
    rewrite (proj2 (Z.eqb_neq _ _)) by lia. run.
    assert (Hns : is_Some (m1 !! (adr fn + 12))).
    { unfold m1. apply insert_is_Some. eapply fl_node; [done|set_solver]. }
    run. eexists. split; [done|].
    set (m2 := <[adr fn + 12 := adr fb]> m1).
    assert (Hw : forall w, ~ link_word nl (l1 ++ fn :: l2) w -> m2 !! w = m !! w).
    { intros w Hw. unfold m2, m1. rewrite !lookup_insert_ne; [done|..];
        intros <-; apply Hw; [exists fb|exists fn]; set_solver. }
    split; [|done]. eapply flist_remove; [done..|]. rewrite fmap_app.
    assert (Hsep : forall f g, f ∈ l1 ++ fn :: l2 -> g ∈ l1 ++ fn :: l2 ->
                     adr f + 8 <> adr g + 12).
    { intros f g Hf Hg. destruct (fl_sep _ _ _ H f g) as [->|?]; [set_solver..|lia|lia]. }
    apply (dlinks_remove (fun x => m !! (x + 8)) _ (fun x => m !! (x + 12)) _ 0 (adr <$> l1) a);
      [done| | | | |done].
    + intros _. rewrite Efb. unfold m2, m1. rewrite lookup_insert_ne.
      * by rewrite lookup_insert_eq.
      * apply not_eq_sym, Hsep; set_solver.
    + intros _. simpl. unfold m2. rewrite lookup_insert_eq. by rewrite Efb.
    + intros x (f & -> & Hf)%elem_of_app_fmap Hxl. unfold m2, m1. rewrite !lookup_insert_ne; [done|..].
      * intros ?. apply Hxl; [by destruct l1|]. lia.
      * apply not_eq_sym, Hsep; set_solver.
    + intros x (f & -> & Hf)%elem_of_app_fmap Hxl. unfold m2, m1. rewrite !lookup_insert_ne; [done|..].
      * apply Hsep; set_solver.
      * intros ?. apply Hxl; [done|]. simpl. lia.
Qed.

(** Where a search stops: before a bucket head or a chunk that is not smaller. *)
Definition stop_at (size : Z) (l : list fnode) : Prop :=
  match l with FFree _ s :: _ => size <= s | _ => True end.

Lemma addfreechunk_search_spec m size post prev fuel :
  (forall f, f ∈ post -> 0 < adr f /\ m !! adr f = Some (fsize f)) ->
  (forall a s, FFree a s ∈ post -> 16 <= s) ->
  slinks (fun x => m !! (x + 8)) (adr <$> post) 0 -> (length post < fuel)%nat ->
  exists p1 p2, post = p1 ++ p2 /\
    addfreechunk_search fuel m size prev (hd 0 (adr <$> post))
      = Ok (lastd prev (adr <$> p1), hd 0 (adr <$> p2)) /\
    (forall f, f ∈ p1 -> exists a s, f = FFree a s /\ s < size) /\ stop_at size p2.
Proof.
  revert prev fuel. induction post as [|f post IH]; intros prev fuel Hn Hs Hl Hfuel;
    (destruct fuel as [|fuel]; [simpl in *; lia|]).
  - exists [], []. simpl. split_and!; [done|done|set_solver|done].
  - destruct (Hn f) as [Hf0 Hfs]; [by left|]. rewrite fmap_cons in *. destruct Hl as [EF Hl].
    cbn [addfreechunk_search hd]. rewrite (proj2 (Z.eqb_neq (adr f) 0)) by lia.
    rewrite (load_Ok m (adr f) (fsize f)) by (done || lia). run.
    destruct ((fsize f =? 0) || (size <=? fsize f)) eqn:E.
    + exists [], (f :: post). split_and!; [done|done|set_solver|].
      destruct f as [k|a s]; [done|]. apply orb_true_iff in E as [E|E]; b2p; simpl in *.
      * assert (16 <= s) by (apply (Hs a); by left). lia.
      * done.
    + destruct (IH (adr f) fuel) as (p1 & p2 & -> & Esearch & Hp1 & Hp2).
      * intros g Hg. apply Hn. by right.
      * intros a s Hg. apply (Hs a). by right.
      * done.
      * simpl in Hfuel. lia.
      * exists (f :: p1), p2. split_and!; [done|..|done].
        -- by rewrite Esearch, fmap_cons, lastd_cons.
        -- intros g [->|Hg]%elem_of_cons; [|auto]. b2p.
           destruct f as [k|a s]; [done|]. simpl in *. eauto.
Qed.

(** A chunk goes between the smaller chunks of its bucket and the rest. *)
Lemma insert_sorted m pre k p1 p2 a s :
  flist nl m (pre ++ FHead k :: p1 ++ p2) -> 16 <= s < 2 ^ 31 ->
  Z.of_nat k = mm_size2ndx s ->
  (forall f, f ∈ p1 -> exists a' s', f = FFree a' s' /\ s' < s) -> stop_at s p2 ->
  StronglySorted (fun f g => fkey f <= fkey g) ((pre ++ FHead k :: p1) ++ FFree a s :: p2).
Proof.
  intros H Hs Ek Hp1 Hp2. pose proof (fl_sorted _ _ _ H) as Hss.
  replace (pre ++ FHead k :: p1 ++ p2) with ((pre ++ FHead k :: p1) ++ p2) in *
    by (rewrite <- app_assoc; done).
  pose proof (size2ndx_bucket s) as Hb. change MM_MIN_CHUNK with 16 in Hb.
  change MM_NNODES with 19 in Hb. change MM_MIN_SHIFT with 4 in Hb.
  rewrite <- Ek in Hb. specialize (Hb ltac:(lia)) as (Hk & Hlo & Hhi).
  apply StronglySorted_app in Hss as (Hs12 & Hs1 & Hs2).
  assert (Hfirst : forall f, f ∈ pre ++ FHead k :: p1 -> fkey f <= 2 * s + 1).
  { intros f Hf. apply StronglySorted_app in Hs1 as (Hs1 & _ & _).
    apply elem_of_app in Hf as [Hf|[->|Hf]%elem_of_cons].
    - assert (fkey f <= fkey (FHead k)) by (apply Hs1; set_solver). simpl in *. lia.
    - simpl. lia.
    - destruct (Hp1 _ Hf) as (a' & s' & -> & ?). simpl. lia. }
  assert (Hsecond : forall g, g ∈ p2 -> 2 * s + 1 <= fkey g).
  { destruct p2 as [|g p2]; [set_solver|].
    assert (Hg : 2 * s + 1 <= fkey g).
    { destruct g as [j|a' s']; simpl in *; [|lia].
      assert (Hkj : fkey (FHead k) <= fkey (FHead j)) by (apply Hs12; set_solver).
      assert (k <> j).
      { intros <-. pose proof (fl_nodup _ _ _ H) as (_ & Hd & _)%NoDup_app.
        apply (Hd (FHead k)); set_solver. }
      assert (Hj : (j < 19)%nat) by (apply (fl_heads _ _ _ H); set_solver).
      assert (Hlt : (k < j)%nat).
      { destruct (decide (k < j)%nat); [done|]. exfalso. simpl in Hkj.
        assert (2 ^ (Z.of_nat j + 4) < 2 ^ (Z.of_nat k + 4)) by (apply Z.pow_lt_mono_r; lia). lia. }
      destruct Hhi as [Hhi|?]; [|lia].
      assert (2 ^ (Z.of_nat k + 4 + 1) <= 2 ^ (Z.of_nat j + 4)) by (apply Z.pow_le_mono_r; lia). lia. }
    apply StronglySorted_cons in Hs2 as [Hs2 _]. rewrite Forall_forall in Hs2.
    intros f [->|Hf]%elem_of_cons; [done|]. specialize (Hs2 f Hf). simpl in *. lia. }
  apply StronglySorted_app. split; [|split; [done|]].
  - intros f g Hf [->|Hg]%elem_of_cons; [by apply Hfirst|].
    specialize (Hfirst f Hf). specialize (Hsecond g Hg). lia.
  - apply StronglySorted_cons. split; [|done]. apply Forall_forall. intros g Hg. by apply Hsecond.
Qed.

Lemma flist_insert m m' l1 a s l2 :
  flist nl m (l1 ++ l2) -> 16 <= s < 2 ^ 31 -> 0 < a -> m !! a = Some s ->
  (forall f, f ∈ l1 ++ l2 -> adr f + 16 <= a \/ a + 16 <= adr f) ->
  StronglySorted (fun f g => fkey f <= fkey g) (l1 ++ FFree a s :: l2) ->
  (forall w, ~ link_word nl (FFree a s :: l1 ++ l2) w -> m' !! w = m !! w) ->
  dlinks (fun x => m' !! (x + 8)) (fun x => m' !! (x + 12)) 0 (adr <$> (l1 ++ FFree a s :: l2)) 0 ->
  flist nl m' (l1 ++ FFree a s :: l2).
Proof.
  intros H Hs Ha Es Hsep Hss Hw Hl.
  assert (Hin : forall f, f ∈ l1 ++ FFree a s :: l2 <-> f = FFree a s \/ f ∈ l1 ++ l2) by set_solver.
  split; [..|done].
  - intros f [->|Hf]%Hin; [done|]. by apply (fl_pos _ _ _ H).
  - intros k. rewrite <- (fl_heads _ _ _ H k), Hin. naive_solver.
  - intros f Hf%Hin. rewrite Hw.
    + destruct Hf as [->|Hf]; [done|]. by apply (fl_sizes _ _ _ H).
    + intros (g & Hg & E). rewrite elem_of_cons in Hg. destruct Hf as [->|Hf], Hg as [->|Hg].
      * simpl in E. lia.
      * specialize (Hsep g Hg). simpl in E. lia.
      * specialize (Hsep f Hf). simpl in E. lia.
      * destruct (fl_sep _ _ _ H f g Hf Hg) as [->|?]; lia.
  - intros a' s' [[= -> ->]|Hf]%Hin; [done|]. by apply (fl_free _ _ _ H a').
  - pose proof (fl_nodup _ _ _ H) as (? & ? & ?)%NoDup_app.
    assert (FFree a s ∉ l1 ++ l2) by (intros Hf; specialize (Hsep _ Hf); simpl in Hsep; lia).
    apply NoDup_app. rewrite NoDup_cons. set_solver.
  - intros f g Hf%Hin Hg%Hin. destruct Hf as [->|Hf], Hg as [->|Hg].
    + by left.
    + right. specialize (Hsep g Hg). simpl. lia.
    + right. specialize (Hsep f Hf). simpl. lia.
    + by apply (fl_sep _ _ _ H).
  - done.
Qed.

(** The four stores that link a new node between [l1] and [l2]. *)
Lemma link_between m l1 l2 fb a s :
  flist nl m (l1 ++ l2) -> l1 <> [] -> lastd 0 (adr <$> l1) = adr fb -> fb ∈ l1 ->
  0 < a -> (forall f, f ∈ l1 ++ l2 -> adr f + 16 <= a \/ a + 16 <= adr f) ->
  let m3 := <[a + 8 := hd 0 (adr <$> l2)]> (<[a + 12 := adr fb]> (<[adr fb + 8 := a]> m)) in
  let m4 := match l2 with [] => m3 | fn :: _ => <[adr fn + 12 := a]> m3 end in
  (forall w, ~ link_word nl (FFree a s :: l1 ++ l2) w -> m4 !! w = m !! w) /\
  dlinks (fun x => m4 !! (x + 8)) (fun x => m4 !! (x + 12)) 0 (adr <$> (l1 ++ FFree a s :: l2)) 0.
Proof.
  intros H Hne Efb Hfb Ha Hsep m3 m4.
  assert (Hs : forall f g, f ∈ l1 ++ l2 -> g ∈ l1 ++ l2 -> adr f + 8 <> adr g + 12).
  { intros f g Hf Hg. destruct (fl_sep _ _ _ H f g Hf Hg) as [->|?]; lia. }
  assert (Hfb' : fb ∈ l1 ++ l2) by (apply elem_of_app; by left).
  assert (E3 : forall w, w <> a + 8 -> w <> a + 12 -> w <> adr fb + 8 -> m3 !! w = m !! w).
  { intros w ???. unfold m3. by rewrite !lookup_insert_ne by done. }
  assert (E4 : forall w, (forall fn, fn ∈ l2 -> w <> adr fn + 12) -> m4 !! w = m3 !! w).
  { intros w Hw. unfold m4. destruct l2 as [|fn l2]; [done|].
    rewrite lookup_insert_ne; [done|]. apply not_eq_sym, Hw. by left. }
  split.
  - intros w Hw. rewrite E4.
    + apply E3; intros ->; apply Hw; [exists (FFree a s)|exists (FFree a s)|exists fb];
        (split; [|auto]); [by left|by left|by right].
    + intros fn Hfn ->. apply Hw. exists fn. split; [|auto].
      right. apply elem_of_app. by right.
  - rewrite fmap_app, fmap_cons. simpl (adr (FFree a s)).
    pose proof (fl_links _ _ _ H) as Hl. pose proof (fl_nodup_addr _ _ H) as Hnd.
    rewrite fmap_app in Hl, Hnd.
    assert (Hnode : forall f, f ∈ l1 ++ l2 -> adr f <> a).
    { intros f Hf. specialize (Hsep f Hf). lia. }
    assert (Hlast : forall f, f ∈ l1 ++ l2 -> adr f <> lastd 0 (adr <$> l1) ->
                      m4 !! (adr f + 8) = m !! (adr f + 8)).
    { intros f Hf Hx. rewrite E4; [apply E3; [specialize (Hnode f Hf)| specialize (Hsep f Hf)|]; lia|].
      intros fn Hfn. apply Hs; [done|]. apply elem_of_app. by right. }
    apply (dlinks_insert (fun x => m !! (x + 8)) _ (fun x => m !! (x + 12))); [done|..|done].
    + rewrite E4.
      * unfold m3. by rewrite lookup_insert_eq.
      * intros fn Hfn. specialize (Hsep fn). rewrite elem_of_app in Hsep.
        specialize (Hsep (or_intror Hfn)). lia.
    + rewrite E4.
      * unfold m3. rewrite lookup_insert_ne by lia. rewrite lookup_insert_eq. by rewrite Efb.
      * intros fn Hfn. specialize (Hnode fn). rewrite elem_of_app in Hnode.
        specialize (Hnode (or_intror Hfn)). lia.
    + intros _. rewrite Efb, E4.
      * unfold m3. specialize (Hsep fb Hfb'). rewrite !lookup_insert_ne by lia.
        by rewrite lookup_insert_eq.
      * intros fn Hfn. apply Hs; [done|]. apply elem_of_app. by right.
    + intros Hl2. unfold m4. destruct l2 as [|fn l2]; [done|]. simpl. by rewrite lookup_insert_eq.
    + intros x (f & -> & Hf)%elem_of_app_fmap Hx. apply Hlast; [done|]. apply Hx. by destruct l1.
    + intros x (f & -> & Hf)%elem_of_app_fmap Hx.
      assert (E : m4 !! (adr f + 12) = m3 !! (adr f + 12)).
      { unfold m4. destruct l2 as [|fn l2]; [done|]. rewrite lookup_insert_ne; [done|].
        intros E. apply Hx; [done|]. simpl. lia. }
      rewrite E. apply E3.
      * specialize (Hsep f Hf). lia.
      * specialize (Hnode f Hf). lia.
      * apply not_eq_sym, Hs; done.
Qed.

Lemma addfreechunk_spec m fl a s :
  flist nl m fl -> m !! a = Some s -> 16 <= s < 2 ^ 31 -> 0 < a ->
  is_Some (m !! (a + 8)) -> is_Some (m !! (a + 12)) ->
  (forall f, f ∈ fl -> adr f + 16 <= a \/ a + 16 <= adr f) ->
  exists m' l1 l2, mm_addfreechunk nl m a = Ok m' /\ fl = l1 ++ l2 /\
    flist nl m' (l1 ++ FFree a s :: l2) /\
    (forall w, ~ link_word nl (FFree a s :: fl) w -> m' !! w = m !! w).
Proof.
  intros H Es Hs Ha Hm8 Hm12 Hsep. unfold mm_addfreechunk. run.
  pose proof (size2ndx_bucket s) as Hb. change MM_MIN_CHUNK with 16 in Hb.
  change MM_NNODES with 19 in Hb. specialize (Hb ltac:(lia)) as [Hk _].
  set (k := Z.to_nat (mm_size2ndx s)). assert (Ek : Z.of_nat k = mm_size2ndx s) by lia.
  assert (Hh : FHead k ∈ fl) by (apply (fl_heads _ _ _ H); lia).
  apply list_elem_of_split in Hh as (pre & post & ->).
  destruct (fl_links_at _ _ _ _ H) as [EF _].
  assert (Hkpos : 0 < adr (FHead k)) by (apply (fl_pos _ _ _ H); set_solver).
  simpl in EF, Hkpos. rewrite Ek in EF, Hkpos.
  run.
  destruct (addfreechunk_search_spec m s post (bucket nl (mm_size2ndx s)) (walk_fuel m))
    as (p1 & p2 & -> & Esearch & Hp1 & Hp2).
  { intros f Hf. split; [apply (fl_pos _ _ _ H)|apply (fl_sizes _ _ _ H)]; set_solver. }
  { intros a' s' Hf. apply (fl_free _ _ _ H a'). set_solver. }
  { pose proof (dlinks_slinks _ _ _ _ _ (fl_links _ _ _ H)) as Hl.
    rewrite fmap_app in Hl. apply slinks_app in Hl as [_ [_ Hl]]. done. }
  { pose proof (fl_length _ _ H) as Hl. rewrite length_app in Hl. simpl in Hl. lia. }
  rewrite Esearch. run.
  pose proof (insert_sorted _ _ _ _ _ a s H Hs Ek Hp1 Hp2) as Hsorted.
  set (l1 := pre ++ FHead k :: p1) in *.
  assert (El : pre ++ FHead k :: p1 ++ p2 = l1 ++ p2)
    by (unfold l1; by rewrite <- app_assoc).
  rewrite El in *. assert (Hne : l1 <> []) by (unfold l1; by destruct pre).
  assert (Elast : lastd (bucket nl (mm_size2ndx s)) (adr <$> p1) = lastd 0 (adr <$> l1)).
  { unfold l1. rewrite fmap_app, fmap_cons, lastd_app, lastd_cons. simpl. by rewrite Ek. }
  assert (Hl : exists fb, fb ∈ l1 /\ lastd 0 (adr <$> l1) = adr fb).
  { assert (Hne' : adr <$> l1 <> []) by (by destruct l1).
    pose proof (lastd_elem 0 _ Hne') as (fb & E & Hfb)%list_elem_of_fmap. eauto. }
  destruct Hl as (fb & Hfb & Efb). rewrite Elast, Efb.
  assert (Hfb' : fb ∈ l1 ++ p2) by (apply elem_of_app; by left).
  pose proof (fl_pos _ _ _ H fb Hfb') as Hb0. destruct (fl_node _ _ _ H Hfb') as [Hb8 _].
  destruct (link_between m l1 p2 fb a s H Hne Efb Hfb Ha Hsep) as [Hw Hd].
  run.
  destruct p2 as [|fn p2].
  - simpl. exists (<[a + 8 := 0]> (<[a + 12 := adr fb]> (<[adr fb + 8 := a]> m))), l1, [].
    split_and!; [done|done| |done]. by eapply flist_insert.
  - assert (Hfn : fn ∈ l1 ++ fn :: p2) by (apply elem_of_app; right; by left).
    pose proof (fl_pos _ _ _ H fn Hfn) as Hn0. destruct (fl_node _ _ _ H Hfn) as [_ Hn12].
    rewrite fmap_cons. cbn [hd]. rewrite (proj2 (Z.eqb_neq (adr fn) 0)) by lia.
    rewrite store_Ok by (lia || eauto with nx).
    eexists _, l1, (fn :: p2). split_and!; [done|done| |done]. by eapply flist_insert.
Qed.

(** ** The search of [mm_malloc] *)

Lemma malloc_search_spec m size post fuel :
  0 < size ->
  (forall f, f ∈ post -> 0 < adr f /\ m !! adr f = Some (fsize f)) ->
  slinks (fun x => m !! (x + 8)) (adr <$> post) 0 -> (length post < fuel)%nat ->
  exists p1 p2, post = p1 ++ p2 /\
    malloc_search fuel m size (hd 0 (adr <$> post)) = Ok (hd 0 (adr <$> p2)) /\
    (forall f, f ∈ p1 -> fsize f < size) /\
    match p2 with [] => True | f :: _ => size <= fsize f end.
Proof.
  intros Hsize. revert fuel. induction post as [|f post IH]; intros fuel Hn Hl Hfuel;
    (destruct fuel as [|fuel]; [simpl in *; lia|]).
  - exists [], []. simpl. split_and!; [done|done|set_solver|done].
  - destruct (Hn f) as [Hf0 Hfs]; [by left|]. rewrite fmap_cons in *. destruct Hl as [EF Hl].
    cbn [malloc_search hd]. rewrite (proj2 (Z.eqb_neq (adr f) 0)) by lia.
    rewrite (load_Ok m (adr f) (fsize f)) by (done || lia). run.
    destruct (fsize f <? size) eqn:E; b2p.
    + destruct (IH fuel) as (p1 & p2 & -> & Esearch & Hp1 & Hp2).
      * intros g Hg. apply Hn. by right.
      * done.
      * simpl in Hfuel. lia.
      * exists (f :: p1), p2. split_and!; [done| | |done].
        -- by rewrite Esearch.
        -- intros g [->|Hg]%elem_of_cons; auto.
    + exists [], (f :: post). split_and!; [done|done|set_solver|done].
Qed.

(** The chunks in front of a bucket head are too small for the bucket. *)
Lemma before_head m pre k post size :
  flist nl m (pre ++ FHead k :: post) -> 16 <= size < 2 ^ 32 -> Z.of_nat k = mm_size2ndx size ->
  forall a s, FFree a s ∈ pre -> s < size.
Proof.
  intros H Hs Ek a s Hin. pose proof (fl_sorted _ _ _ H) as (Hss & _ & _)%StronglySorted_app.
  assert (Hkey : fkey (FFree a s) <= fkey (FHead k)) by (apply Hss; [done|by left]).
  destruct (size2ndx_bucket size) as (_ & Hlo & _); [done|].
  rewrite <- Ek in Hlo. change MM_MIN_SHIFT with 4 in Hlo. simpl in Hkey. lia.
Qed.

(** The search finds the smallest free chunk that is large enough. *)
Lemma malloc_find m fl size :
  flist nl m fl -> 16 <= size < 2 ^ 32 ->
  let ndx := if MM_MAX_CHUNK <=? size then MM_NNODES - 1 else mm_size2ndx size in
  exists first node, load m (bucket nl ndx + 8) = Ok first /\
    malloc_search (walk_fuel m) m size first = Ok node /\
    ((node = 0 /\ forall a s, FFree a s ∈ fl -> s < size) \/
     (exists s, node <> 0 /\ FFree node s ∈ fl /\ size <= s /\
        forall a t, FFree a t ∈ fl -> size <= t -> s <= t)).
Proof.
  intros H Hs ndx. assert (En : ndx = mm_size2ndx size).
  { unfold ndx, mm_size2ndx. by destruct (MM_MAX_CHUNK <=? size). }
  destruct (size2ndx_bucket size) as (Hk & _); [done|]. change MM_NNODES with 19 in Hk.
  set (k := Z.to_nat ndx). assert (Ek : Z.of_nat k = ndx) by lia.
  assert (Hh : FHead k ∈ fl) by (apply (fl_heads _ _ _ H); lia).
  apply list_elem_of_split in Hh as (pre & post & ->).
  destruct (fl_links_at _ _ _ _ H) as [EF _].
  assert (Hkpos : 0 < adr (FHead k)) by (apply (fl_pos _ _ _ H); set_solver).
  simpl in EF, Hkpos. rewrite Ek in EF, Hkpos.
  destruct (malloc_search_spec m size post (walk_fuel m)) as (p1 & p2 & -> & Esearch & Hp1 & Hp2).
  { lia. }
  { intros f Hf. split; [apply (fl_pos _ _ _ H)|apply (fl_sizes _ _ _ H)]; set_solver. }
  { pose proof (dlinks_slinks _ _ _ _ _ (fl_links _ _ _ H)) as Hl.
    rewrite fmap_app in Hl. apply slinks_app in Hl as [_ [_ Hl]]. done. }
  { pose proof (fl_length _ _ H) as Hl. rewrite length_app in Hl. simpl in Hl. lia. }
  eexists _, _. split_and!; [apply load_Ok; [lia|done]|done|].
  assert (Hsmall : forall a t, FFree a t ∈ pre ++ FHead k :: p1 -> t < size).
  { intros a t [Hf|[[=]|Hf]%elem_of_cons]%elem_of_app; [|exact (Hp1 _ Hf)].
    eapply (before_head m pre k _ size H); [lia|lia|done]. }
  destruct p2 as [|f p2].
  - left. split; [done|]. rewrite app_nil_r. exact Hsmall.
  - right. destruct f as [j|a s]; [simpl in Hp2; lia|]. exists s. cbn [fmap list_fmap hd adr].
    split_and!; [|set_solver|done|].
    + assert (0 < adr (FFree a s)) by (apply (fl_pos _ _ _ H); set_solver). simpl in *. lia.
    + intros b t Hb Ht.
      replace (pre ++ FHead k :: p1 ++ FFree a s :: p2) with ((pre ++ FHead k :: p1) ++ FFree a s :: p2)
        in * by (by rewrite <- app_assoc).
      apply elem_of_app in Hb as [Hb|[[= -> ->]|Hb]%elem_of_cons]; [|lia|].
      * specialize (Hsmall _ _ Hb). lia.
      * pose proof (fl_sorted _ _ _ H) as (_ & _ & [Hss _]%StronglySorted_cons)%StronglySorted_app.
        rewrite Forall_forall in Hss. specialize (Hss _ Hb). simpl in Hss. lia.
Qed.
End FList.
