(* ===== verification/MmInv.v ===== *)
(** * The invariant of a heap

    [heap_inv] ties the words in memory to the regions (lists of chunks) and to
    the free list.  [inv_surgery] is the one lemma through which every operation
    re-establishes it: a run of chunks of one region is replaced by another run
    of the same total size. *)

From S2P Require Import Prelude Bits Links Queue MmHeap MmLayout MmFreeList.
Local Open Scope Z_scope.

Definition hdr (m : mem) (e : entry) : Prop :=
  m !! ea e = Some (es e) /\ m !! (ea e + 4) = Some (enc (ep e) (eal e)).

Record heap_inv (nl : Z) (m : mem) (rs : list region) (fl : list fnode) : Prop := {
  hi_ok : forall i r, rs !! i = Some r -> region_ok r;
  hi_coal : forall i r, rs !! i = Some r -> coalesced (r_chunks r);
  hi_sep : forall i j r1 r2, i <> j -> rs !! i = Some r1 -> rs !! j = Some r2 ->
    r_end r1 <= r_base r2 \/ r_end r2 <= r_base r1;
  hi_nl : forall i r, rs !! i = Some r -> r_end r <= nl \/ nl + 16 * 19 <= r_base r;
  hi_mapped : forall i r w, rs !! i = Some r -> r_base r <= w < r_end r -> w mod 4 = 0 ->
    is_Some (m !! w);
  hi_hdr : forall e, in_heap rs e -> hdr m e;
  hi_flist : flist nl m fl;
  hi_fl_mem : forall a s, FFree a s ∈ fl <-> exists p, in_heap rs (Entry a s p false)
}.

(** ** Regions *)

Lemma region_sizes r : region_ok r -> Forall (fun c : chunk => 8 <= c.1) (r_chunks r).
Proof.
  intros [(l & -> & Hl) _ _]. apply Forall_cons. split; [done|]. apply Forall_app. split.
  - eapply Forall_impl; [exact Hl|]. intros c [? _]. lia.
  - by apply Forall_singleton.
Qed.

(** A chunk that is not a guard has guards, or chunks, on both sides. *)
Lemma region_mid r l1 old l2 :
  region_ok r -> r_chunks r = l1 ++ old ++ l2 -> old <> [] ->
  Forall (fun c : chunk => 16 <= c.1) old ->
  exists m1 m2, l1 = (8, true) :: m1 /\ l2 = m2 ++ [(8, true)] /\
    Forall chunk_ok m1 /\ Forall chunk_ok old /\ Forall chunk_ok m2.
Proof.
  intros [(l & E & Hl) _ _] E' Hne Hold. rewrite E in E'.
  destruct l1 as [|c l1].
  { exfalso. destruct old as [|c old]; [done|]. injection E' as <- _.
    apply Forall_cons in Hold as [? _]. simpl in *. lia. }
  injection E' as <- E'. destruct l2 as [|c l2 _] using rev_ind.
  { exfalso. rewrite app_nil_r in E'. destruct old as [|c old _] using rev_ind; [done|].
    rewrite app_assoc in E'. apply app_inj_tail in E' as [_ <-].
    apply Forall_app in Hold as [_ Hold].
    rewrite Forall_singleton in Hold. simpl in Hold. lia. }
  rewrite !app_assoc in E'. apply app_inj_tail in E' as [-> <-].
  apply Forall_app in Hl as [Hl H2]. apply Forall_app in Hl as [H1 Ho].
  exists l1, l2. done.
Qed.

Lemma region_surgery r l1 old l2 new :
  region_ok r -> r_chunks r = l1 ++ old ++ l2 -> old <> [] ->
  Forall (fun c : chunk => 16 <= c.1) old -> Forall chunk_ok new -> total new = total old ->
  region_ok (Region (r_base r) (l1 ++ new ++ l2)) /\
  r_end (Region (r_base r) (l1 ++ new ++ l2)) = r_end r.
Proof.
  intros Hr E Hne Hold Hnew Ht.
  destruct (region_mid _ _ _ _ Hr E Hne Hold) as (m1 & m2 & -> & -> & H1 & _ & H2).
  assert (Htot : total (((8, true) :: m1) ++ new ++ m2 ++ [(8, true)]) = total (r_chunks r)).
  { rewrite E, !total_app. lia. }
  split; [|unfold r_end; cbn [r_base r_chunks]; lia].
  split; cbn [r_base r_chunks]; [|apply Hr|rewrite Htot; apply Hr].
  exists (m1 ++ new ++ m2). split; [by rewrite <- !app_assoc|]. by rewrite !Forall_app.
Qed.

(** The size of a chunk fits in the [preceding] word of the next one. *)
Lemma region_lastsz r l1 l2 : region_ok r -> r_chunks r = l1 ++ l2 -> 0 <= lastsz 0 l1 < 2 ^ 31.
Proof.
  intros Hr E. pose proof (region_sizes r Hr) as Hs. pose proof (ro_total _ Hr) as Ht.
  unfold lastsz. destruct (last l1) as [[s al]|] eqn:El; simpl; [|lia].
  apply last_Some in El as [l ->]. rewrite E, !total_app in Ht.
  rewrite E, !Forall_app, Forall_singleton in Hs. destruct Hs as [[H1 H2] H3].
  pose proof (total_nonneg _ H1). pose proof (total_nonneg _ H3). unfold total in *. simpl in *. lia.
Qed.

(** Addresses of the chunks of a region are 8 modulo 16, after the first guard. *)
Lemma chunks_mod l : Forall chunk_ok l -> total l mod 16 = 0.
Proof.
  induction 1 as [|c l [_ Hc] _ IH]; [done|]. simpl.
  change (foldr (fun (c : chunk) n => c.1 + n) 0 l) with (total l).
  rewrite Z.add_mod, Hc, IH by lia. done.
Qed.

Lemma mid_align r l1 old l2 :
  region_ok r -> r_chunks r = l1 ++ old ++ l2 -> old <> [] ->
  Forall (fun c : chunk => 16 <= c.1) old ->
  (r_base r + total l1) mod 16 = 8 /\ 0 < r_base r + total l1 /\ l2 <> [] /\
  0 <= lastsz 0 l1 < 2 ^ 31 /\ Forall chunk_ok old /\ 0 <= total old < 2 ^ 31.
Proof.
  intros Hr E Hne Hold. pose proof (region_lastsz _ _ _ Hr E).
  destruct (region_mid _ _ _ _ Hr E Hne Hold) as (m1 & m2 & -> & -> & H1 & Ho & H2).
  destruct Hr as [_ [Hb0 Hb] Htot]. rewrite E, !total_app in Htot. cbn [total foldr fst] in *.
  change (foldr (fun (c : chunk) n => c.1 + n) 0 m1) with (total m1) in *.
  pose proof (chunks_mod _ H1) as Hm1.
  assert (Hnn : forall l, Forall chunk_ok l -> 0 <= total l).
  { intros l Hl. apply total_nonneg. eapply Forall_impl; [exact Hl|]. intros c [? _]. lia. }
  pose proof (Hnn _ H1). pose proof (Hnn _ H2). pose proof (Hnn _ Ho).
  split_and!; [|lia|by destruct m2|lia|lia|done|lia|lia].
  rewrite Z.add_mod, (Z.add_mod 8), Hm1, Hb by lia. done.
Qed.

(** ** Entries of a heap *)

Section Inv.
Context (nl : Z) (m : mem) (rs : list region) (fl : list fnode).
Hypothesis Hinv : heap_inv nl m rs fl.
Local Abbreviation adr := (faddr nl).

Lemma in_heap_range e : in_heap rs e ->
  exists i r, rs !! i = Some r /\ r_base r <= ea e /\ ea e + es e <= r_end r /\
    8 <= es e /\ 0 < ea e /\ e ∈ entries (r_base r) 0 (r_chunks r).
Proof.
  intros (i & r & Hr & He). pose proof (hi_ok _ _ _ _ Hinv i r Hr) as Hok.
  pose proof (entries_range _ _ _ _ (region_sizes r Hok) He). pose proof (ro_base _ Hok).
  exists i, r. unfold r_end. split_and!; [done|lia..|done].
Qed.

Lemma in_heap_sep e1 e2 : in_heap rs e1 -> in_heap rs e2 ->
  e1 = e2 \/ ea e1 + es e1 <= ea e2 \/ ea e2 + es e2 <= ea e1.
Proof.
  intros H1 H2. destruct (in_heap_range e1 H1) as (i & r1 & Hr1 & ? & ? & ? & _ & He1).
  destruct (in_heap_range e2 H2) as (j & r2 & Hr2 & ? & ? & ? & _ & He2).
  destruct (decide (i = j)) as [<-|Hne].
  - simplify_eq. apply (entries_sep (r_base r1) 0 (r_chunks r1)); [|done..].
    by eapply region_sizes, (hi_ok _ _ _ _ Hinv).
  - destruct (hi_sep _ _ _ _ Hinv i j r1 r2 Hne Hr1 Hr2); lia.
Qed.

(** A node of the free list is a bucket head, away from every region, or a
    free chunk. *)
Lemma fl_away e f : in_heap rs e -> f ∈ fl ->
  (exists p, f = FFree (ea e) (es e) /\ e = Entry (ea e) (es e) p false) \/
  adr f + 16 <= ea e \/ ea e + es e <= adr f.
Proof.
  intros He Hf. destruct f as [k|a s].
  - right. apply (fl_heads _ _ _ (hi_flist _ _ _ _ Hinv)) in Hf.
    destruct (in_heap_range e He) as (i & r & Hr & ? & ? & _).
    pose proof (hi_nl _ _ _ _ Hinv i r Hr). simpl. unfold bucket, SIZEOF_MM_FREENODE. lia.
  - pose proof (fl_free _ _ _ (hi_flist _ _ _ _ Hinv) a s Hf) as Hs.
    apply (hi_fl_mem _ _ _ _ Hinv) in Hf as [p Hp].
    destruct (in_heap_sep e _ He Hp) as [->|Hsep]; [left; by exists p|]. simpl in *. lia.
Qed.

(** Header words are never link words. *)
Lemma hdr_not_link e : in_heap rs e ->
  ~ link_word nl fl (ea e) /\ ~ link_word nl fl (ea e + 4).
Proof.
  intros He. destruct (in_heap_range e He) as (_ & _ & _ & _ & _ & ? & _).
  split; intros (f & Hf & E); destruct (fl_away e f He Hf) as [(p & -> & _)|?]; simpl in *; lia.
Qed.

(** The payload of an allocated chunk is disjoint from the free list. *)
Lemma payload_not_link e w : in_heap rs e -> eal e = true ->
  ea e <= w < ea e + es e -> ~ link_word nl fl w.
Proof.
  intros He Hal Hw (f & Hf & E). destruct (fl_away e f He Hf) as [(p & _ & Ee)|?]; [|lia].
  rewrite Ee in Hal. done.
Qed.
End Inv.

(** ** Replacing a run of chunks *)

Lemma entries_parts b l1 old c2 l2 e :
  e ∈ entries b 0 (l1 ++ old ++ c2 :: l2) <->
  e ∈ entries b 0 l1 \/ e ∈ entries (b + total l1) (lastsz 0 l1) old \/
  e = Entry (b + total l1 + total old) c2.1 (lastsz (lastsz 0 l1) old) c2.2 \/
  e ∈ entries (b + total l1 + total old + c2.1) c2.1 l2.
Proof.
  rewrite !entries_app. destruct c2 as [s al]. cbn [entries fst snd].
  rewrite !elem_of_app, elem_of_cons. done.
Qed.

Lemma lastsz_nonempty p q l : l <> [] -> lastsz p l = lastsz q l.
Proof.
  intros Hl. unfold lastsz. destruct (last l) eqn:E; [done|]. by apply last_None in E.
Qed.

(** The block with header at [a] and chunk size [s] is allocated; the two
    guards of each region count as allocated blocks of size 8. *)
Definition allocated (rs : list region) (a s : Z) : Prop :=
  exists p, in_heap rs (Entry a s p true).

(** The addresses that the regions cover. *)
Definition bounds (rs : list region) : list (Z * Z) := (fun r => (r_base r, r_end r)) <$> rs.

Section Surgery.
Context (nl : Z) (m m' : mem) (rs : list region) (fl fl' : list fnode).
Context (i : nat) (r : region) (l1 old new l2 : list chunk) (c2 : chunk).
Definition s_lo := r_base r + total l1.
Definition s_hi := s_lo + total old.
Hypothesis Hinv : heap_inv nl m rs fl.
Hypothesis Hr : rs !! i = Some r.
Hypothesis Hchunks : r_chunks r = l1 ++ old ++ c2 :: l2.
Hypothesis Hone : old <> [].
Hypothesis Hold : Forall (fun c : chunk => 16 <= c.1) old.
Hypothesis Hnne : new <> [].
Hypothesis Hnew : Forall chunk_ok new.
Hypothesis Htot : total new = total old.
Let r' := Region (r_base r) (l1 ++ new ++ c2 :: l2).
Let rs' := <[i := r']> rs.

Lemma surgery_bounds :
  region_ok r /\ region_ok r' /\ r_end r' = r_end r /\ r_base r <= s_lo /\
  s_lo + 16 <= s_hi /\ s_hi + 8 <= r_end r /\ 0 < r_base r /\ 8 <= c2.1.
Proof.
  pose proof (hi_ok _ _ _ _ Hinv i r Hr) as Hok.
  destruct (region_surgery r l1 old (c2 :: l2) new Hok Hchunks Hone Hold Hnew Htot) as [Hok' He].
  pose proof (region_sizes r Hok) as Hs. pose proof (ro_base _ Hok) as [Hb _].
  rewrite Hchunks in Hs. apply Forall_app in Hs as [H1 Hs]. apply Forall_app in Hs as [H2 Hs].
  apply Forall_cons in Hs as [H3 H4].
  pose proof (total_nonneg _ H1). pose proof (total_nonneg _ H4).
  assert (16 <= total old).
  { destruct old as [|c old']; [done|]. apply Forall_cons in Hold as [? Hold'].
    apply Forall_cons in H2 as [_ H2]. pose proof (total_nonneg _ H2).
    unfold total in *. simpl in *. lia. }
  split_and!; [done..| |unfold s_hi; lia| |done|done].
  - unfold s_lo. lia.
  - unfold s_hi, s_lo, r_end. rewrite Hchunks, !total_app. unfold total in *. simpl in *. lia.
Qed.

Lemma surgery_lookup j r1 : rs' !! j = Some r1 ->
  (j = i /\ r1 = r') \/ (j <> i /\ rs !! j = Some r1).
Proof.
  unfold rs'. intros H. destruct (decide (j = i)) as [->|Hne].
  - left. rewrite list_lookup_insert_eq in H by (by eapply lookup_lt_Some). naive_solver.
  - right. by rewrite list_lookup_insert_ne in H by done.
Qed.

(** The chunks of another region are away from the run. *)
Lemma surgery_other j r1 : j <> i -> rs !! j = Some r1 ->
  r_end r1 <= s_lo \/ s_hi + 8 <= r_base r1.
Proof.
  intros Hne H1. destruct surgery_bounds as (_ & _ & _ & ? & ? & ? & _).
  destruct (hi_sep _ _ _ _ Hinv j i r1 r Hne H1 Hr); lia.
Qed.

(** The entries of the heap after the replacement. *)
Lemma surgery_entries e : in_heap rs' e ->
  (in_heap rs e /\ (ea e + es e <= s_lo \/ s_hi + 8 <= ea e)) \/
  e ∈ entries s_lo (lastsz 0 l1) new \/
  e = Entry s_hi c2.1 (lastsz 0 new) c2.2.
Proof.
  intros (j & r1 & Hj & He). destruct (surgery_lookup _ _ Hj) as [[-> ->]|[Hne Hj']].
  - unfold r' in He. cbn [r_base r_chunks] in He. apply entries_parts in He.
    rewrite Htot in He. change (r_base r + total l1) with s_lo in He.
    change (s_lo + total old) with s_hi in He.
    pose proof (region_sizes r (hi_ok _ _ _ _ Hinv i r Hr)) as Hs. rewrite Hchunks in Hs.
    apply Forall_app in Hs as [H1 Hs]. apply Forall_app in Hs as [_ [H3 H4]%Forall_cons].
    destruct He as [He|[He|[->|He]]].
    + left. split.
      * exists i, r. rewrite Hchunks. split; [done|]. apply entries_parts. by left.
      * apply (entries_range _ _ _ _ H1) in He. unfold s_lo. lia.
    + right. by left.
    + right. right. f_equal. by apply lastsz_nonempty.
    + left. split.
      * exists i, r. rewrite Hchunks. split; [done|]. apply entries_parts. by do 3 right.
      * apply (entries_range _ _ _ _ H4) in He. lia.
  - left. assert (Hin : in_heap rs e) by (by exists j, r1). split; [done|].
    pose proof (hi_ok _ _ _ _ Hinv j r1 Hj') as Hok.
    pose proof (entries_range _ _ _ _ (region_sizes _ Hok) He).
    pose proof (surgery_other j r1 Hne Hj'). unfold r_end in *. lia.
Qed.

(** Every entry of the heap before that is not in the run is still there, the
    one after the run with its new [preceding]. *)
Lemma surgery_keeps e : in_heap rs e ->
  (s_lo <= ea e < s_hi /\ e ∈ entries s_lo (lastsz 0 l1) old) \/
  exists p, in_heap rs' (Entry (ea e) (es e) p (eal e)).
Proof.
  intros (j & r1 & Hj & He). destruct (decide (j = i)) as [->|Hne].
  - simplify_eq. rewrite Hchunks in He. apply entries_parts in He.
    change (r_base r + total l1) with s_lo in He. change (s_lo + total old) with s_hi in He.
    assert (Hin : forall e', e' ∈ entries (r_base r) 0 (l1 ++ new ++ c2 :: l2) -> in_heap rs' e').
    { intros e' He'. exists i, r'. split; [|done]. unfold rs'.
      by rewrite list_lookup_insert_eq by (by eapply lookup_lt_Some). }
    pose proof (region_sizes r (hi_ok _ _ _ _ Hinv i r Hr)) as Hs. rewrite Hchunks in Hs.
    apply Forall_app in Hs as [H1 Hs]. apply Forall_app in Hs as [H2 [H3 H4]%Forall_cons].
    destruct He as [He|[He|[->|He]]].
    + right. exists (ep e). destruct e. apply Hin, entries_parts. by left.
    + left. split; [|done]. apply (entries_range _ _ _ _ H2) in He. unfold s_hi. lia.
    + right. exists (lastsz 0 new). apply Hin, entries_parts. right. right. left.
      rewrite Htot. cbn [ea es eal]. change (r_base r + total l1) with s_lo.
      change (s_lo + total old) with s_hi. f_equal. by apply lastsz_nonempty.
    + right. exists (ep e). destruct e. apply Hin, entries_parts.
      rewrite Htot. by do 3 right.
  - right. exists (ep e). exists j, r1. split; [|by destruct e].
    unfold rs'. by rewrite list_lookup_insert_ne by done.
Qed.

Lemma surgery_new e : e ∈ entries s_lo (lastsz 0 l1) new -> in_heap rs' e.
Proof.
  intros He. exists i, r'. split.
  - unfold rs'. by rewrite list_lookup_insert_eq by (by eapply lookup_lt_Some).
  - apply entries_parts. right. by left.
Qed.

Lemma surgery_new_range e : e ∈ entries s_lo (lastsz 0 l1) new ->
  s_lo <= ea e /\ ea e + es e <= s_hi.
Proof.
  intros He. assert (H8 : Forall (fun c : chunk => 8 <= c.1) new).
  { eapply Forall_impl; [exact Hnew|]. intros c [? _]. lia. }
  apply (entries_range _ _ _ _ H8) in He. unfold s_hi. lia.
Qed.

Lemma surgery_region_bounds : bounds rs' = bounds rs.
Proof.
  destruct surgery_bounds as (_ & _ & E & _). unfold bounds, rs'. rewrite list_fmap_insert.
  apply list_insert_id. rewrite list_lookup_fmap, Hr. simpl. by rewrite E.
Qed.

(** A chunk that is not in the run is on one side of it. *)
Lemma surgery_outside e : in_heap rs e -> e ∉ entries s_lo (lastsz 0 l1) old ->
  ea e + es e <= s_lo \/ s_hi <= ea e.
Proof.
  intros Hin Hout. destruct surgery_bounds as (_ & _ & _ & _ & ? & _ & _ & ?).
  destruct (surgery_keeps _ Hin) as [[_ ?]|[p' Hp']]; [done|].
  destruct (surgery_entries _ Hp') as [[_ Ho]|[Ho|E]].
  - cbn [ea es] in Ho. lia.
  - destruct (in_heap_range _ _ _ _ Hinv _ Hin) as (j & r1 & Hj & _ & _ & _ & _ & He).
    destruct (decide (j = i)) as [->|Hne].
    + simplify_eq. rewrite Hchunks in He. apply entries_parts in He.
      pose proof (region_sizes r (hi_ok _ _ _ _ Hinv i r Hr)) as Hs. rewrite Hchunks in Hs.
      apply Forall_app in Hs as [H1 Hs]. apply Forall_app in Hs as [_ [_ H4]%Forall_cons].
      change (r_base r + total l1) with s_lo in He. change (s_lo + total old) with s_hi in He.
      destruct He as [He|[He|[->|He]]]; [|done|simpl; lia|].
      * apply (entries_range _ _ _ _ H1) in He. unfold s_lo. lia.
      * apply (entries_range _ _ _ _ H4) in He. lia.
    + pose proof (entries_range _ _ _ _ (region_sizes _ (hi_ok _ _ _ _ Hinv j r1 Hj)) He).
      pose proof (surgery_other j r1 Hne Hj). unfold r_end in *. lia.
  - injection E as E1 _ _ _. lia.
Qed.

(** The allocated blocks after the replacement. *)
Lemma surgery_alloc a s :
  allocated rs' a s <->
  (allocated rs a s /\ (a < s_lo \/ s_hi <= a)) \/
  exists p, Entry a s p true ∈ entries s_lo (lastsz 0 l1) new.
Proof.
  destruct surgery_bounds as (_ & _ & _ & _ & ? & _ & _ & ?). split.
  - intros [p Hp]. destruct (surgery_entries _ Hp) as [[Hin Hout]|[?|E]].
    + left. cbn [ea es] in Hout. split; [by exists p|].
      destruct (in_heap_range _ _ _ _ Hinv _ Hin) as (_ & _ & _ & _ & _ & ? & _ & _).
      cbn [es] in *. lia.
    + right. eauto.
    + left. injection E as -> -> _ Eal. split; [|lia].
      exists (lastsz (lastsz 0 l1) old), i, r. split; [done|]. rewrite Hchunks.
      apply entries_parts. right. right. left. by rewrite Eal.
  - intros [[[p Hp] Hout]|[p Hp]]; [|exists p; by apply surgery_new].
    destruct (surgery_keeps _ Hp) as [[Hin _]|[p' Hp']]; [simpl in *; lia|by exists p'].
Qed.

Hypothesis Hcoal : coalesced (l1 ++ new ++ c2 :: l2).
Hypothesis Hdom : dom m' = dom m.
Hypothesis Hhdr : forall e, e ∈ entries s_lo (lastsz 0 l1) new -> hdr m' e.
Hypothesis Hnext : hdr m' (Entry s_hi c2.1 (lastsz 0 new) c2.2).
Hypothesis Hsame : forall w, ~ link_word nl fl w -> w < s_lo \/ s_hi + 8 <= w -> m' !! w = m !! w.
Hypothesis Hflist : flist nl m' fl'.
Hypothesis Hflmem : forall a s, FFree a s ∈ fl' <->
  (FFree a s ∈ fl /\ (a < s_lo \/ s_hi <= a)) \/
  exists p, Entry a s p false ∈ entries s_lo (lastsz 0 l1) new.

(** The contents of the blocks outside the run. *)
Lemma surgery_payload a s w : allocated rs a s -> a < s_lo \/ s_hi <= a ->
  a + 8 <= w < a + s -> m' !! w = m !! w.
Proof.
  intros [p Hp] Hout Hw. destruct surgery_bounds as (_ & _ & _ & _ & ? & _).
  apply Hsame; [by eapply (payload_not_link _ _ _ _ Hinv _ _ Hp); [|simpl; lia]|].
  destruct (surgery_keeps _ Hp) as [[Hin _]|[p' Hp']]; [simpl in *; lia|].
  destruct (surgery_entries _ Hp') as [[_ Ho]|[Ho|E]].
  - cbn [ea es] in Ho. lia.
  - apply surgery_new_range in Ho. cbn [ea es] in Ho. lia.
  - injection E as -> -> _ _. lia.
Qed.

Lemma inv_surgery : heap_inv nl m' rs' fl'.
Proof.
  destruct surgery_bounds as (Hok & Hok' & Hend & Hlo & Hlh & Hhi & Hb & Hc2).
  split.
  - intros j r1 Hj. destruct (surgery_lookup _ _ Hj) as [[-> ->]|[_ Hj']]; [done|].
    by eapply (hi_ok _ _ _ _ Hinv).
  - intros j r1 Hj. destruct (surgery_lookup _ _ Hj) as [[-> ->]|[_ Hj']]; [done|].
    by eapply (hi_coal _ _ _ _ Hinv).
  - intros j k r1 r2 Hne Hj Hk.
    destruct (surgery_lookup _ _ Hj) as [[-> ->]|[? Hj']];
      destruct (surgery_lookup _ _ Hk) as [[-> ->]|[? Hk']]; [done|..].
    + rewrite Hend. by apply (hi_sep _ _ _ _ Hinv i k r r2).
    + rewrite Hend. by apply (hi_sep _ _ _ _ Hinv j i r1 r).
    + by apply (hi_sep _ _ _ _ Hinv j k r1 r2).
  - intros j r1 Hj. destruct (surgery_lookup _ _ Hj) as [[-> ->]|[_ Hj']].
    + rewrite Hend. by apply (hi_nl _ _ _ _ Hinv i r).
    + by eapply (hi_nl _ _ _ _ Hinv).
  - intros j r1 w Hj Hw Hmod. apply elem_of_dom. rewrite Hdom. apply elem_of_dom.
    destruct (surgery_lookup _ _ Hj) as [[-> ->]|[_ Hj']].
    + rewrite Hend in Hw. by eapply (hi_mapped _ _ _ _ Hinv i r).
    + by eapply (hi_mapped _ _ _ _ Hinv j r1).
  - intros e He. destruct (surgery_entries e He) as [[Hin Hout]|[?| ->]]; [|by apply Hhdr|done].
    destruct (in_heap_range _ _ _ _ Hinv e Hin) as (_ & _ & _ & _ & _ & ? & _ & _).
    destruct (hdr_not_link _ _ _ _ Hinv e Hin) as [Hn1 Hn2].
    destruct (hi_hdr _ _ _ _ Hinv e Hin) as [E1 E2].
    split; [rewrite Hsame by (done || lia); done|].
    rewrite Hsame; [done|done|]. destruct Hout; [left|right]; lia.
  - done.
  - intros a s. rewrite Hflmem. split.
    + intros [[Hf Hout]|[p Hp]]; [|exists p; by apply surgery_new].
      apply (hi_fl_mem _ _ _ _ Hinv) in Hf as [p Hp].
      destruct (surgery_keeps _ Hp) as [[Hin _]|[p' Hp']]; [simpl in *; lia|eauto].
    + intros [p Hp]. destruct (surgery_entries _ Hp) as [[Hin Hout]|[?|E]].
      * left. cbn [ea es] in Hout. assert (FFree a s ∈ fl) by (apply (hi_fl_mem _ _ _ _ Hinv); eauto).
        destruct (in_heap_range _ _ _ _ Hinv _ Hin) as (_ & _ & _ & _ & _ & ? & _ & _).
        cbn [es] in *. split; [done|lia].
      * right. eauto.
      * left. injection E as -> -> _ Eal. split; [|lia].
        apply (hi_fl_mem _ _ _ _ Hinv). exists (lastsz (lastsz 0 l1) old).
        exists i, r. split; [done|]. rewrite Hchunks. apply entries_parts.
        right. right. left. by rewrite Eal.
Qed.
End Surgery.

(** ** Finding a chunk in its region *)

Lemma find_chunk nl m rs fl e :
  heap_inv nl m rs fl -> in_heap rs e -> 16 <= es e ->
  exists i r l1 c2 l2, rs !! i = Some r /\ r_chunks r = l1 ++ [(es e, eal e)] ++ c2 :: l2 /\
    ea e = r_base r + total l1 /\ ep e = lastsz 0 l1 /\
    es e mod 16 = 0 /\ ea e mod 16 = 8 /\ 0 <= ep e < 2 ^ 31 /\ es e < 2 ^ 31.
Proof.
  intros Hinv (i & r & Hr & He) Hs. pose proof (hi_ok _ _ _ _ Hinv i r Hr) as Hok.
  destruct (entries_split _ _ _ _ He) as (l1 & l2 & El & Ea & Ep).
  assert (Hf : Forall (fun c : chunk => 16 <= c.1) [(es e, eal e)]) by (by apply Forall_singleton).
  destruct (mid_align r l1 [(es e, eal e)] l2 Hok El ltac:(done) Hf) as (? & ? & Hl2 & ? & Hc & ?).
  destruct l2 as [|c2 l2]; [done|].
  apply Forall_singleton in Hc as [_ Hc]. simpl in *.
  exists i, r, l1, c2, l2. rewrite Ea, Ep. split_and!; try done; lia.
Qed.

(** The nodes of a list are clear of the words between [lo] and [hi], and of
    the header at [hi]. *)
Definition clear_of (nl : Z) (l : list fnode) (lo hi : Z) : Prop :=
  forall f, f ∈ l -> faddr nl f + 16 <= lo \/ faddr nl f = hi \/ hi + 8 <= faddr nl f.

Lemma clear_frame nl l lo hi m m' :
  clear_of nl l lo hi -> lo < hi ->
  (forall w, w < lo \/ hi <= w -> w <> hi + 4 -> m' !! w = m !! w) ->
  flist nl m l -> flist nl m' l.
Proof.
  intros Hc Hlt Hw. apply flist_frame. intros f Hf. specialize (Hc f Hf).
  split_and!; apply Hw; lia.
Qed.

Lemma fl_clear nl m rs fl i r l1 old c2 l2 f :
  heap_inv nl m rs fl -> rs !! i = Some r -> r_chunks r = l1 ++ old ++ c2 :: l2 ->
  old <> [] -> Forall (fun c : chunk => 16 <= c.1) old -> f ∈ fl ->
  faddr nl f + 16 <= r_base r + total l1 \/
  faddr nl f = r_base r + total l1 + total old \/
  r_base r + total l1 + total old + 8 <= faddr nl f \/
  (exists e, e ∈ entries (r_base r + total l1) (lastsz 0 l1) old /\
     f = FFree (ea e) (es e) /\ eal e = false).
Proof.
  intros Hinv Hr Hl Hne Hold Hf.
  destruct (surgery_bounds nl m rs fl i r l1 old old l2 c2 Hinv Hr Hl Hne Hold)
    as (Hok & _ & _ & ? & ? & ? & _ & Hc2).
  { by destruct (mid_align r l1 old (c2 :: l2) (hi_ok _ _ _ _ Hinv i r Hr) Hl Hne Hold)
      as (_ & _ & _ & _ & ? & _). }
  { done. }
  unfold s_hi, s_lo in *. destruct f as [k|a s].
  - pose proof (proj1 (fl_heads _ _ _ (hi_flist _ _ _ _ Hinv) k) Hf).
    pose proof (hi_nl _ _ _ _ Hinv i r Hr). simpl. unfold bucket, SIZEOF_MM_FREENODE. lia.
  - pose proof (fl_free _ _ _ (hi_flist _ _ _ _ Hinv) a s Hf) as Hs.
    apply (hi_fl_mem _ _ _ _ Hinv) in Hf as [p (j & r1 & Hj & He)]. simpl.
    destruct (decide (j = i)) as [->|Hji].
    + simplify_eq. rewrite Hl in He. apply entries_parts in He.
      pose proof (region_sizes r Hok) as Hsz. rewrite Hl in Hsz.
      apply Forall_app in Hsz as [HA Hsz]. apply Forall_app in Hsz as [HB [HC HD]%Forall_cons].
      destruct He as [He|[He|[He|He]]].
      * apply (entries_range _ _ _ _ HA) in He. cbn [ea es] in He. lia.
      * do 3 right. by exists (Entry a s p false).
      * injection He as -> _ _ _. lia.
      * apply (entries_range _ _ _ _ HD) in He. cbn [ea es] in He. lia.
    + pose proof (entries_range _ _ _ _ (region_sizes _ (hi_ok _ _ _ _ Hinv j r1 Hj)) He) as Hrange.
      cbn [ea es] in Hrange. destruct (hi_sep _ _ _ _ Hinv j i r1 r Hji Hj Hr); unfold r_end in *; lia.
Qed.
