(* ===== verification/MmRun.v ===== *)
(** * Working on a run of chunks

    Every operation of the allocator opens a run of neighbouring chunks of one
    region, takes its free chunks out of the free list, rewrites the headers
    inside the run and the [preceding] word of the chunk that follows it, and
    puts new chunks in its place.  [run_close] gives the heap that results;
    [open_run] describes a run that has been joined into one chunk, and
    [merge_next] and [merge_prev] extend it by a free neighbour. *)

From S2P Require Import Prelude Bits Links Queue MmHeap MmLayout MmFreeList MmInv.
Local Open Scope Z_scope.

(** Every function of the allocator writes to words that are mapped. *)
Lemma unlink_dom m a m' : unlink m a = Ok m' -> dom m' = dom m.
Proof. unfold unlink. intros. res_inv; congruence. Qed.

Lemma mm_addfreechunk_dom nl m a m' : mm_addfreechunk nl m a = Ok m' -> dom m' = dom m.
Proof. unfold mm_addfreechunk. intros. res_inv; congruence. Qed.

Ltac dom_inv :=
  repeat match goal with
  | H : unlink _ _ = Ok _ |- _ => apply unlink_dom in H
  | H : mm_addfreechunk _ _ _ = Ok _ |- _ => apply mm_addfreechunk_dom in H
  end.

Lemma malloc_take_dom nl m sz a m' r : malloc_take nl m sz a = Ok (m', r) -> dom m' = dom m.
Proof. unfold malloc_take. intros. res_inv; dom_inv; congruence. Qed.

(** The words of a chunk are mapped. *)
Lemma chunk_mapped nl m rs fl e w :
  heap_inv nl m rs fl -> in_heap rs e -> ea e <= w < ea e + es e -> w mod 4 = 0 ->
  is_Some (m !! w).
Proof.
  intros Hinv He Hw Hmod.
  destruct (in_heap_range _ _ _ _ Hinv e He) as (i & r & Hr & ? & ? & _).
  apply (hi_mapped _ _ _ _ Hinv i r w Hr); [lia|done].
Qed.

Lemma clear_not_link nl l lo hi w :
  clear_of nl l lo hi -> lo <= w < hi + 8 -> lo < hi -> ~ link_word nl l w.
Proof. intros Hc Hw Hlt (f & Hf & E). specialize (Hc f Hf). lia. Qed.

Lemma clear_app nl l1 l2 lo hi : clear_of nl (l1 ++ l2) lo hi <-> clear_of nl l1 lo hi /\ clear_of nl l2 lo hi.
Proof. unfold clear_of. set_solver. Qed.

Section Run.
Context (nl : Z) (m : mem) (rs : list region) (fl : list fnode) (i : nat) (r : region).
Hypothesis Hinv : heap_inv nl m rs fl.
Hypothesis Hr : rs !! i = Some r.

(** The nodes of the free list that are not chunks of the run. *)
Definition kept_by (l1 old : list chunk) (kept : list fnode) : Prop :=
  forall f, f ∈ kept <->
    f ∈ fl /\ forall b t, f = FFree b t -> b < s_lo r l1 \/ s_hi r l1 old <= b.

Lemma kept_clear l1 old c2 l2 kept :
  r_chunks r = l1 ++ old ++ c2 :: l2 -> old <> [] ->
  Forall (fun c : chunk => 16 <= c.1) old -> kept_by l1 old kept ->
  clear_of nl kept (s_lo r l1) (s_hi r l1 old).
Proof.
  intros El Hne Hold Hk f Hf. apply Hk in Hf as [Hf Hout].
  destruct (fl_clear _ _ _ _ _ _ _ _ _ _ f Hinv Hr El Hne Hold Hf) as [?|[?|[?|(e & He & -> & _)]]];
    unfold s_hi, s_lo in *; [lia..|]. exfalso.
  assert (H8 : Forall (fun c : chunk => 8 <= c.1) old).
  { eapply Forall_impl; [exact Hold|]. simpl. lia. }
  apply (entries_range _ _ _ _ H8) in He. destruct (Hout _ _ eq_refl); lia.
Qed.

Section Close.
Context (l1 old l2 new : list chunk) (c2 : chunk) (m' : mem) (kept fl' : list fnode).
Local Abbreviation lo := (s_lo r l1).
Local Abbreviation hi := (s_hi r l1 old).
Hypothesis El : r_chunks r = l1 ++ old ++ c2 :: l2.
Hypothesis Hne : old <> [].
Hypothesis Hold : Forall (fun c : chunk => 16 <= c.1) old.
Hypothesis Hkept : kept_by l1 old kept.
Hypothesis Hnne : new <> [].
Hypothesis Hnew : Forall chunk_ok new.
Hypothesis Htot : total new = total old.
Hypothesis Hcoal : coalesced (l1 ++ new ++ c2 :: l2).
Hypothesis Hdom : dom m' = dom m.
Hypothesis Hhdr : forall e, e ∈ entries lo (lastsz 0 l1) new -> hdr m' e.
Hypothesis Hnext : hdr m' (Entry hi c2.1 (lastsz 0 new) c2.2).
Hypothesis Hsame : forall w, ~ link_word nl fl w -> w < lo \/ hi + 8 <= w -> m' !! w = m !! w.
Hypothesis Hflist : flist nl m' fl'.
Hypothesis Hflmem : forall b t, FFree b t ∈ fl' <->
  FFree b t ∈ kept \/ exists p, Entry b t p false ∈ entries lo (lastsz 0 l1) new.

Lemma run_close : exists rs', heap_inv nl m' rs' fl' /\ bounds rs' = bounds rs /\
  (forall b t, allocated rs' b t <->
     (allocated rs b t /\ (b < lo \/ hi <= b)) \/
     exists p, Entry b t p true ∈ entries lo (lastsz 0 l1) new) /\
  (forall b t w, allocated rs b t -> b < lo \/ hi <= b -> b + 8 <= w < b + t -> m' !! w = m !! w).
Proof.
  exists (<[i := Region (r_base r) (l1 ++ new ++ c2 :: l2)]> rs). split_and!.
  - apply (inv_surgery nl m m' rs fl fl' i r l1 old new l2 c2); try done.
    intros b t. rewrite Hflmem, (Hkept (FFree b t)). naive_solver.
  - by apply (surgery_region_bounds nl m rs fl i r l1 old new l2 c2).
  - intros b t. by apply (surgery_alloc nl m rs fl i r l1 old new l2 c2).
  - intros b t w. by apply (surgery_payload nl m m' rs fl i r l1 old new l2 c2).
Qed.
End Close.

(** ** A run joined into one chunk *)

Record open_run (l1 old : list chunk) (c2 : chunk) (l2 : list chunk) (m' : mem)
    (kept : list fnode) : Prop := {
  or_chunks : r_chunks r = l1 ++ old ++ c2 :: l2;
  or_ne : old <> [];
  or_old : Forall (fun c : chunk => 16 <= c.1) old;
  or_kept : kept_by l1 old kept;
  or_flist : flist nl m' kept;
  or_dom : dom m' = dom m;
  or_same : forall w, ~ link_word nl fl w -> w < s_lo r l1 \/ s_hi r l1 old + 8 <= w ->
    m' !! w = m !! w;
  or_size : m' !! s_lo r l1 = Some (total old);
  or_prec : m' !! (s_lo r l1 + 4) = Some (lastsz 0 l1);
  or_next : hdr m' (Entry (s_hi r l1 old) c2.1 (total old) c2.2)
}.

Lemma open_bounds l1 old c2 l2 m' kept : open_run l1 old c2 l2 m' kept ->
  s_lo r l1 mod 16 = 8 /\ 0 < s_lo r l1 /\ s_hi r l1 old = s_lo r l1 + total old /\
  16 <= total old < 2 ^ 31 /\ total old mod 16 = 0 /\ 0 <= lastsz 0 l1 < 2 ^ 31 /\
  clear_of nl kept (s_lo r l1) (s_hi r l1 old).
Proof.
  intros H. pose proof (hi_ok _ _ _ _ Hinv i r Hr) as Hok.
  destruct (mid_align r l1 old (c2 :: l2) Hok (or_chunks _ _ _ _ _ _ H) (or_ne _ _ _ _ _ _ H)
    (or_old _ _ _ _ _ _ H)) as (? & ? & _ & ? & Hc & ?).
  pose proof (kept_clear _ _ _ _ _ (or_chunks _ _ _ _ _ _ H) (or_ne _ _ _ _ _ _ H)
    (or_old _ _ _ _ _ _ H) (or_kept _ _ _ _ _ _ H)).
  split_and!; try done; try lia; [|by apply chunks_mod].
  destruct old as [|c old]; [by destruct (or_ne _ _ _ _ _ _ H)|].
  apply Forall_cons in Hc as [[? _] Hc].
  assert (0 <= total old).
  { apply total_nonneg. eapply Forall_impl; [exact Hc|]. intros ? [? _]. lia. }
  unfold total in *. simpl. lia.
Qed.

(** Taking a free neighbour out of the list. *)
Lemma unlink_neighbour l1 old l1' old' kept m' a s :
  flist nl m' kept -> kept_by l1 old kept -> FFree a s ∈ fl ->
  a < s_lo r l1 \/ s_hi r l1 old <= a ->
  (forall b t, FFree b t ∈ fl -> b <> a ->
     (b < s_lo r l1 \/ s_hi r l1 old <= b) <-> (b < s_lo r l1' \/ s_hi r l1' old' <= b)) ->
  ~ (a < s_lo r l1' \/ s_hi r l1' old' <= a) ->
  exists m1 kept', unlink m' a = Ok m1 /\ flist nl m1 kept' /\ kept_by l1' old' kept' /\
    dom m1 = dom m' /\ (forall w, ~ link_word nl kept' w -> m1 !! w = m' !! w).
Proof.
  intros Hfl Hk Hf Hout Hiff Hin. assert (Hfk : FFree a s ∈ kept).
  { apply Hk. split; [done|]. by intros b t [= <- <-]. }
  apply list_elem_of_split in Hfk as (k1 & k2 & ->).
  destruct (unlink_spec _ _ _ _ _ _ Hfl) as (m1 & E1 & Hfl1 & Hw1).
  exists m1, (k1 ++ k2). split_and!; [done|done| |by eapply unlink_dom|done].
  pose proof (fl_nodup _ _ _ Hfl) as Hnd. apply NoDup_app in Hnd as (_ & Hd & [Hn2 _]%NoDup_cons).
  assert (Hn : FFree a s ∉ k1 ++ k2).
  { rewrite elem_of_app. intros [H1|H2]; [|done]. apply (Hd _ H1). by left. }
  assert (Hinj : forall f, f ∈ fl -> faddr nl f = a -> f = FFree a s).
  { intros f Hff E. by apply (fl_addr_inj nl m fl f (FFree a s) (hi_flist _ _ _ _ Hinv)). }
  intros f. transitivity (f ∈ k1 ++ FFree a s :: k2 /\ f <> FFree a s).
  { split; [intros; split; [set_solver|by intros ->]|intros [? ?]; set_solver]. }
  rewrite (Hk f). split.
  - intros [[Hff Hb] Hne]. split; [done|]. intros b t ->.
    apply (Hiff b t Hff); [intros ->; by apply Hne, Hinj|by eapply Hb].
  - intros [Hff Hb]. assert (Hne : f <> FFree a s) by (intros ->; by apply Hin, (Hb _ s)).
    split_and!; [done| |done]. intros b t ->.
    apply (Hiff b t Hff); [intros ->; by apply Hne, Hinj|by eapply Hb].
Qed.

(** The memory after the two stores of a merge. *)
Lemma open_stores l1 old c2 l2 kept m1 :
  r_chunks r = l1 ++ old ++ c2 :: l2 -> old <> [] -> Forall (fun c : chunk => 16 <= c.1) old ->
  kept_by l1 old kept -> flist nl m1 kept -> dom m1 = dom m ->
  (forall w, ~ link_word nl fl w -> w < s_lo r l1 \/ s_hi r l1 old + 8 <= w -> m1 !! w = m !! w) ->
  m1 !! (s_lo r l1 + 4) = Some (lastsz 0 l1) -> is_Some (m1 !! s_lo r l1) ->
  m1 !! s_hi r l1 old = Some c2.1 -> is_Some (m1 !! (s_hi r l1 old + 4)) ->
  open_run l1 old c2 l2
    (<[s_hi r l1 old + 4 := enc (total old) c2.2]> (<[s_lo r l1 := total old]> m1)) kept.
Proof.
  intros El Hne Hold Hk Hfl Hd Hsame Hp Hlo Hs Hhi.
  pose proof (kept_clear _ _ _ _ _ El Hne Hold Hk) as Hclear.
  destruct (surgery_bounds nl m rs fl i r l1 old old l2 c2 Hinv Hr El Hne Hold)
    as (_ & _ & _ & _ & Hlt & _); [|done|].
  { by destruct (mid_align r l1 old (c2 :: l2) (hi_ok _ _ _ _ Hinv i r Hr) El Hne Hold)
      as (_ & _ & _ & _ & ? & _). }
  split; try done.
  - eapply (clear_frame _ _ _ _ m1); [exact Hclear|lia| |done]. intros w Hw ?. by mlook.
  - rewrite !dom_insert_lookup_L; eauto with nx.
  - intros w Hw Hout. mlook. by apply Hsame.
  - by mlook.
  - by mlook.
  - split; cbn [ea es ep eal]; by mlook.
Qed.

Lemma merge_next l1 old sn c3 l2 m' kept :
  open_run l1 old (sn, false) (c3 :: l2) m' kept ->
  exists m2 kept', free_merge_next m' (s_lo r l1) (s_hi r l1 old) = Ok (m2, s_hi r l1 old + sn) /\
    open_run l1 (old ++ [(sn, false)]) c3 l2 m2 kept'.
Proof.
  intros H. destruct (open_bounds _ _ _ _ _ _ H) as (Hlom & Hlo & Hhi & Ht & Htm & Hp & Hclear).
  pose proof (or_chunks _ _ _ _ _ _ H) as El.
  assert (Hin : in_heap rs (Entry (s_hi r l1 old) sn (lastsz (lastsz 0 l1) old) false)).
  { exists i, r. split; [done|]. rewrite El. apply entries_parts. right. right. by left. }
  assert (Hf : FFree (s_hi r l1 old) sn ∈ fl) by (apply (hi_fl_mem _ _ _ _ Hinv); eauto).
  pose proof (fl_free _ _ _ (hi_flist _ _ _ _ Hinv) _ _ Hf) as Hsn.
  assert (El' : r_chunks r = l1 ++ (old ++ [(sn, false)]) ++ c3 :: l2) by (by rewrite El, <- app_assoc).
  assert (Hold' : Forall (fun c : chunk => 16 <= c.1) (old ++ [(sn, false)])).
  { apply Forall_app. split; [apply H|]. apply Forall_singleton. simpl. lia. }
  assert (Hne' : old ++ [(sn, false)] <> []) by (by destruct old).
  assert (Hhi' : s_hi r l1 (old ++ [(sn, false)]) = s_hi r l1 old + sn)
    by (unfold s_hi; rewrite total_app; unfold total; simpl; lia).
  assert (Htot' : total (old ++ [(sn, false)]) = total old + sn)
    by (rewrite total_app; unfold total; simpl; lia).
  assert (Hin3 : in_heap rs (Entry (s_hi r l1 old + sn) c3.1 sn c3.2)).
  { exists i, r. split; [done|]. rewrite El'. apply entries_parts. right. right. left.
    rewrite Htot', Hhi, lastsz_snoc. unfold s_lo. f_equal. lia. }
  destruct (mid_align r l1 _ (c3 :: l2) (hi_ok _ _ _ _ Hinv i r Hr) El' Hne' Hold')
    as (_ & _ & _ & _ & _ & Hb). rewrite Htot' in Hb.
  destruct (or_next _ _ _ _ _ _ H) as [Es Ep]. cbn [ea es ep eal fst snd] in Es, Ep.
  destruct (unlink_neighbour l1 old l1 (old ++ [(sn, false)]) kept m' (s_hi r l1 old) sn)
    as (m1 & kept' & E1 & Hfl1 & Hk1 & Hd1 & Hw1); try done; try apply H; try lia.
  { intros b t Hbt Hne. pose proof (fl_free _ _ _ (hi_flist _ _ _ _ Hinv) _ _ Hbt).
    apply (hi_fl_mem _ _ _ _ Hinv) in Hbt as [p Hbt].
    pose proof (in_heap_sep _ _ _ _ Hinv _ _ Hin Hbt) as [[= <- _ _]|Hsep]; [done|].
    cbn [ea es] in Hsep. lia. }
  pose proof (kept_clear _ _ _ _ _ El' Hne' Hold' Hk1) as Hclear'. rewrite Hhi' in Hclear'.
  pose proof (fun w Hw => Hw1 w (clear_not_link nl kept' _ _ w Hclear' Hw ltac:(lia))) as Hin1.
  assert (Hlk : forall w, ~ link_word nl fl w -> ~ link_word nl kept' w).
  { intros w Hn (f & Hff & E). apply Hn. exists f. split; [by apply Hk1|done]. }
  destruct (hi_hdr _ _ _ _ Hinv _ Hin3) as [Es3 Ep3].
  destruct (hdr_not_link _ _ _ _ Hinv _ Hin3) as [Hn3 Hn3']. cbn [ea es ep eal] in *.
  rewrite <- (or_same _ _ _ _ _ _ H), <- Hin1 in Es3, Ep3 by (done || lia).
  pose proof (Hin1 (s_lo r l1) ltac:(lia)) as Elo. rewrite (or_size _ _ _ _ _ _ H) in Elo.
  pose proof (Hin1 (s_hi r l1 old) ltac:(lia)) as Ehi. rewrite Es in Ehi.
  unfold free_merge_next. run. rewrite E1. run. rewrite u32_small by lia.
  rewrite lor_land_enc by lia. eexists _, kept'. split; [done|].
  rewrite <- Hhi', <- Htot'. apply open_stores; try done; rewrite ?Hhi'; eauto.
  - by rewrite Hd1, (or_dom _ _ _ _ _ _ H).
  - intros w Hw Hout. rewrite Hw1 by auto. apply (or_same _ _ _ _ _ _ H); [done|lia].
  - rewrite Hin1 by lia. apply H.
Qed.

Lemma merge_prev l1 sp old c2 l2 m' kept :
  open_run (l1 ++ [(sp, false)]) old c2 l2 m' kept ->
  exists m2 kept', s_lo r (l1 ++ [(sp, false)]) - sp = s_lo r l1 /\
    free_merge_prev m' (s_lo r l1) (s_lo r (l1 ++ [(sp, false)])) (s_hi r (l1 ++ [(sp, false)]) old)
      = Ok (m2, s_lo r l1) /\
    s_hi r (l1 ++ [(sp, false)]) old = s_hi r l1 ((sp, false) :: old) /\
    open_run l1 ((sp, false) :: old) c2 l2 m2 kept'.
Proof.
  intros H. destruct (open_bounds _ _ _ _ _ _ H) as (Hlom & Hlo & Hhi & Ht & Htm & Hp & Hclear).
  pose proof (or_chunks _ _ _ _ _ _ H) as El. set (l1' := l1 ++ [(sp, false)]) in *.
  assert (El' : r_chunks r = l1 ++ ((sp, false) :: old) ++ c2 :: l2)
    by (rewrite El; unfold l1'; by rewrite <- app_assoc).
  assert (Hlo' : s_lo r l1' = s_lo r l1 + sp)
    by (unfold s_lo, l1'; rewrite total_app; unfold total; simpl; lia).
  assert (Htot' : total ((sp, false) :: old) = sp + total old) by done.
  assert (Hhi' : s_hi r l1' old = s_hi r l1 ((sp, false) :: old)).
  { rewrite Hhi. unfold s_hi. rewrite Htot'. lia. }
  assert (Hin : in_heap rs (Entry (s_lo r l1) sp (lastsz 0 l1) false)).
  { exists i, r. split; [done|]. rewrite El'. apply entries_parts. right. left. by left. }
  assert (Hf : FFree (s_lo r l1) sp ∈ fl) by (apply (hi_fl_mem _ _ _ _ Hinv); eauto).
  pose proof (fl_free _ _ _ (hi_flist _ _ _ _ Hinv) _ _ Hf) as Hsp.
  assert (Hold' : Forall (fun c : chunk => 16 <= c.1) ((sp, false) :: old)).
  { apply Forall_cons. split; [simpl; lia|apply H]. }
  destruct (mid_align r l1 _ (c2 :: l2) (hi_ok _ _ _ _ Hinv i r Hr) El' ltac:(done) Hold')
    as (_ & Hpos & _ & _ & _ & Hb). rewrite Htot' in Hb. change (0 < s_lo r l1) in Hpos.
  destruct (or_next _ _ _ _ _ _ H) as [Es Ep]. cbn [ea es ep eal fst snd] in Es, Ep.
  destruct (unlink_neighbour l1' old l1 ((sp, false) :: old) kept m' (s_lo r l1) sp)
    as (m1 & kept' & E1 & Hfl1 & Hk1 & Hd1 & Hw1); try done; try apply H; try lia.
  { intros b t Hbt Hne. pose proof (fl_free _ _ _ (hi_flist _ _ _ _ Hinv) _ _ Hbt).
    apply (hi_fl_mem _ _ _ _ Hinv) in Hbt as [p Hbt].
    pose proof (in_heap_sep _ _ _ _ Hinv _ _ Hin Hbt) as [[= <- _ _]|Hsep]; [done|].
    cbn [ea es] in Hsep. lia. }
  pose proof (kept_clear _ _ _ _ _ El' ltac:(done) Hold' Hk1) as Hclear'. rewrite <- Hhi' in Hclear'.
  pose proof (fun w Hw => Hw1 w (clear_not_link nl kept' _ _ w Hclear' Hw ltac:(lia))) as Hin1.
  assert (Hlk : forall w, ~ link_word nl fl w -> ~ link_word nl kept' w).
  { intros w Hn (f & Hff & E). apply Hn. exists f. split; [by apply Hk1|done]. }
  destruct (hi_hdr _ _ _ _ Hinv _ Hin) as [Es3 Ep3].
  destruct (hdr_not_link _ _ _ _ Hinv _ Hin) as [Hn3 Hn3']. cbn [ea es ep eal] in *.
  rewrite <- (or_same _ _ _ _ _ _ H), <- Hin1 in Es3, Ep3 by (done || lia).
  pose proof (Hin1 (s_lo r l1') ltac:(lia)) as Elo. rewrite (or_size _ _ _ _ _ _ H) in Elo.
  rewrite <- Hin1 in Es, Ep by lia.
  exists (<[s_hi r l1' old + 4 := enc (sp + total old) c2.2]> (<[s_lo r l1 := sp + total old]> m1)), kept'.
  split_and!; [lia| |done|].
  - unfold free_merge_prev. rewrite E1. run. rewrite u32_small by lia. by rewrite lor_land_enc by lia.
  - rewrite Hhi', <- Htot'. apply open_stores; try done; rewrite <- ?Hhi'; eauto.
    + by rewrite Hd1, (or_dom _ _ _ _ _ _ H).
    + intros w Hw Hout. rewrite Hw1 by auto. apply (or_same _ _ _ _ _ _ H); [done|lia].
Qed.

(** A run joined into one chunk and put in the free list. *)
Lemma open_close l1 old c2 l2 m' kept :
  open_run l1 old c2 l2 m' kept -> c2.2 = true -> coalesced (l1 ++ [(total old, false)] ++ c2 :: l2) ->
  exists m2 rs' fl', mm_addfreechunk nl m' (s_lo r l1) = Ok m2 /\ heap_inv nl m2 rs' fl' /\
    bounds rs' = bounds rs /\
    (forall b t, allocated rs' b t <-> allocated rs b t /\ (b < s_lo r l1 \/ s_hi r l1 old <= b)) /\
    (forall b t w, allocated rs b t -> b < s_lo r l1 \/ s_hi r l1 old <= b ->
       b + 8 <= w < b + t -> m2 !! w = m !! w).
Proof.
  intros H Hc2 Hcoal. destruct (open_bounds _ _ _ _ _ _ H) as (Hlom & Hlo & Hhi & Ht & Htm & Hp & Hclear).
  assert (Hmap : forall d, 0 <= d < 16 -> d mod 4 = 0 -> is_Some (m' !! (s_lo r l1 + d))).
  { intros d Hd Hd4. apply elem_of_dom. rewrite (or_dom _ _ _ _ _ _ H). apply elem_of_dom.
    destruct (surgery_bounds nl m rs fl i r l1 old old l2 c2 Hinv Hr) as (_ & _ & _ & ? & _ & ? & _);
      try apply H; [|done|].
    { destruct (mid_align r l1 old (c2 :: l2) (hi_ok _ _ _ _ Hinv i r Hr)) as (_ & _ & _ & _ & ? & _);
        by try apply H. }
    apply (hi_mapped _ _ _ _ Hinv i r); [done|lia|modlia]. }
  destruct (addfreechunk_spec nl m' kept (s_lo r l1) (total old))
    as (m2 & g1 & g2 & E2 & Eg & Hfl2 & Hw2); try apply H; try lia; try (by apply Hmap).
  { intros f Hfk. specialize (Hclear f Hfk). lia. }
  assert (Hin2 : forall w, s_lo r l1 <= w < s_hi r l1 old + 8 -> w <> s_lo r l1 + 8 -> w <> s_lo r l1 + 12 ->
            m2 !! w = m' !! w).
  { intros w Hw ? ?. apply Hw2. rewrite link_word_cons. simpl.
    pose proof (clear_not_link _ _ _ _ w Hclear Hw ltac:(lia)). intuition lia. }
  destruct (run_close l1 old l2 [(total old, false)] c2 m2 kept (g1 ++ FFree (s_lo r l1) (total old) :: g2))
    as (rs' & Hinv' & Hbd & Hal & Hpay); try done; try apply H.
  - apply Forall_singleton. split; simpl; lia.
  - unfold total. simpl. lia.
  - rewrite <- (or_dom _ _ _ _ _ _ H). by eapply mm_addfreechunk_dom.
  - intros e He. apply list_elem_of_singleton in He as ->. split; cbn [ea es ep eal];
      rewrite Hin2 by lia; apply H.
  - destruct (or_next _ _ _ _ _ _ H) as [Es Ep]. split; cbn [ea es ep eal] in *; rewrite Hin2 by lia; done.
  - intros w Hw Hout. rewrite Hw2; [by apply H|]. rewrite link_word_cons. simpl.
    intros [?|[?|(f & Hfk & E)]]; [lia..|]. apply Hw. exists f. split; [|done].
    by apply (or_kept _ _ _ _ _ _ H) in Hfk as [? _].
  - intros b t. rewrite Eg, !elem_of_app, elem_of_cons. simpl. split.
    + intros [?|[[= -> ->]|?]]; [tauto| |tauto]. right. exists (lastsz 0 l1). by left.
    + intros [?|[p He]]; [tauto|]. apply list_elem_of_singleton in He as [= -> -> _]. tauto.
  - exists m2, rs', (g1 ++ FFree (s_lo r l1) (total old) :: g2). split_and!; [done|done|done| |done].
    intros b t. rewrite Hal. split; [|tauto]. intros [?|[p He]]; [done|].
    by apply list_elem_of_singleton in He.
Qed.

(** ** The steps of [mm_free] *)

Lemma free_open l1 s c2 l2 :
  r_chunks r = l1 ++ [(s, true)] ++ c2 :: l2 -> 16 <= s ->
  open_run l1 [(s, true)] c2 l2 (<[s_lo r l1 + 4 := lastsz 0 l1]> m) fl.
Proof.
  intros El Hs. assert (Hin : in_heap rs (Entry (s_lo r l1) s (lastsz 0 l1) true)).
  { exists i, r. split; [done|]. rewrite El. apply entries_parts. right. left. by left. }
  assert (Hin2 : in_heap rs (Entry (s_lo r l1 + s) c2.1 s c2.2)).
  { exists i, r. split; [done|]. rewrite El. apply entries_parts. right. right. left.
    unfold total, s_lo. simpl. f_equal. unfold total. lia. }
  destruct (hi_hdr _ _ _ _ Hinv _ Hin) as [Es Ep]. destruct (hi_hdr _ _ _ _ Hinv _ Hin2) as [Es2 Ep2].
  cbn [ea es ep eal] in *.
  assert (Ht1 : total [(s, true)] = s) by (unfold total; simpl; lia).
  assert (Hhi : s_hi r l1 [(s, true)] = s_lo r l1 + s) by (unfold s_hi; by rewrite Ht1).
  assert (Hold : Forall (fun c : chunk => 16 <= c.1) [(s, true)]) by (by apply Forall_singleton).
  assert (Hk : kept_by l1 [(s, true)] fl).
  { intros f. split; [|by intros [? _]]. intros Hf. split; [done|]. intros b t ->.
    pose proof (fl_free _ _ _ (hi_flist _ _ _ _ Hinv) _ _ Hf).
    apply (hi_fl_mem _ _ _ _ Hinv) in Hf as [p Hp].
    destruct (in_heap_sep _ _ _ _ Hinv _ _ Hin Hp) as [?|Hsep]; [done|]. cbn [ea es] in Hsep. lia. }
  pose proof (kept_clear _ _ _ _ _ El ltac:(done) Hold Hk) as Hclear.
  split; rewrite ?Hhi, ?Ht1; try done.
  - eapply (clear_frame _ _ _ _ m); [exact Hclear|lia| |apply Hinv]. intros w Hw ?. by mlook.
  - rewrite dom_insert_lookup_L; eauto.
  - intros w Hw Hout. by mlook.
  - by mlook.
  - by mlook.
  - split; cbn [ea es ep eal]; by mlook.
Qed.

Lemma free_next l1 old c2 l2 m' kept :
  open_run l1 old c2 l2 m' kept ->
  exists np m2 kept' x c2' l2', load m' (s_hi r l1 old + 4) = Ok np /\
    (if Z.land np MM_ALLOC_BIT =? 0 then free_merge_next m' (s_lo r l1) (s_hi r l1 old)
     else Ok (m', s_hi r l1 old)) = Ok (m2, s_hi r l1 (old ++ x)) /\
    open_run l1 (old ++ x) c2' l2' m2 kept' /\ c2'.2 = true /\ Forall (fun c : chunk => c.2 = false) x.
Proof.
  intros H. destruct (open_bounds _ _ _ _ _ _ H) as (_ & Hlo & Hhi & Ht & _ & _ & _).
  destruct (or_next _ _ _ _ _ _ H) as [Es Ep]. cbn [ea es ep eal] in *.
  exists (enc (total old) c2.2). destruct c2 as [sn al]. cbn [fst snd] in *.
  rewrite land_enc_eqb by lia. destruct al; cbn [negb].
  - exists m', kept, [], (sn, true), l2. rewrite app_nil_r.
    split_and!; [apply load_Ok; [lia|done]|done|done|done|by constructor].
  - destruct l2 as [|c3 l2].
    { exfalso. pose proof (hi_ok _ _ _ _ Hinv i r Hr) as [(l & El & _) _ _].
      rewrite (or_chunks _ _ _ _ _ _ H), app_assoc in El.
      rewrite app_comm_cons in El. by apply app_inj_tail in El as [_ ?]. }
    destruct (merge_next _ _ _ _ _ _ _ H) as (m2 & kept' & E & Ho).
    exists m2, kept', [(sn, false)], c3, l2. split_and!; [apply load_Ok; [lia|done]| |done| |].
    + rewrite E. unfold s_hi. rewrite total_app. unfold total at 3. simpl. do 2 f_equal. lia.
    + pose proof (hi_coal _ _ _ _ Hinv i r Hr) as Hc. rewrite (or_chunks _ _ _ _ _ _ Ho) in Hc.
      apply coalesced_app in Hc as [_ Hc]. apply coalesced_from_app in Hc as [_ Hc].
      destruct c3 as [s3 al3]. destruct Hc as [Hc _]. apply Hc. unfold last_free. by rewrite last_snoc.
    + by apply Forall_singleton.
Qed.

Lemma free_prev l1 old c2 l2 m' kept :
  open_run l1 old c2 l2 m' kept ->
  exists p pp m2 kept' l1' x, load m' (s_lo r l1 + 4) = Ok p /\
    load m' (s_lo r l1 - p + 4) = Ok pp /\
    (if Z.land pp MM_ALLOC_BIT =? 0 then
       free_merge_prev m' (s_lo r l1 - p) (s_lo r l1) (s_hi r l1 old)
     else Ok (m', s_lo r l1)) = Ok (m2, s_lo r l1') /\
    l1 = l1' ++ x /\ open_run l1' (x ++ old) c2 l2 m2 kept' /\ last_free false l1' = false /\
    Forall (fun c : chunk => c.2 = false) x.
Proof.
  intros H. destruct (open_bounds _ _ _ _ _ _ H) as (_ & Hlo & Hhi & Ht & _ & Hp & _).
  pose proof (or_chunks _ _ _ _ _ _ H) as El. pose proof (hi_ok _ _ _ _ Hinv i r Hr) as Hok.
  destruct (region_mid r l1 old (c2 :: l2) Hok El (or_ne _ _ _ _ _ _ H) (or_old _ _ _ _ _ _ H))
    as (l1t & _ & El1 & _ & Hl1t & _). exists (lastsz 0 l1).
  assert (Hsnoc : exists l1' sp al, l1 = l1' ++ [(sp, al)]).
  { rewrite El1. destruct l1t as [|[sp al] l1t _] using rev_ind; [by exists [], 8, true|].
    by exists ((8, true) :: l1t), sp, al. }
  clear El1. destruct Hsnoc as (l1' & sp & al & ->). rewrite lastsz_snoc in *.
  assert (Elo : s_lo r (l1' ++ [(sp, al)]) - sp = s_lo r l1')
    by (unfold s_lo; rewrite total_app; unfold total; simpl; lia).
  assert (Hin : in_heap rs (Entry (s_lo r l1') sp (lastsz 0 l1') al)).
  { exists i, r. split; [done|]. rewrite El, <- app_assoc, entries_app. apply elem_of_app. right. by left. }
  destruct (hi_hdr _ _ _ _ Hinv _ Hin) as [_ Ep].
  destruct (hdr_not_link _ _ _ _ Hinv _ Hin) as [_ Hn].
  destruct (in_heap_range _ _ _ _ Hinv _ Hin) as (_ & _ & _ & _ & _ & ? & ? & _).
  cbn [ea es ep eal] in *. rewrite <- (or_same _ _ _ _ _ _ H) in Ep by (done || lia).
  rewrite <- app_assoc in El. pose proof (region_lastsz _ _ _ Hok El) as Hp'.
  exists (enc (lastsz 0 l1') al). rewrite Elo, land_enc_eqb by lia.
  pose proof (or_prec _ _ _ _ _ _ H) as Eprec. rewrite lastsz_snoc in Eprec.
  destruct al; cbn [negb].
  - exists m', kept, (l1' ++ [(sp, true)]), []. rewrite app_nil_r.
    split_and!; try done; try (apply load_Ok; [lia|done]). unfold last_free. by rewrite last_snoc.
  - destruct (merge_prev _ _ _ _ _ _ _ H) as (m2 & kept' & _ & E & _ & Ho).
    exists m2, kept', l1', [(sp, false)]. split_and!; try done; try (apply load_Ok; [lia|done]).
    + pose proof (hi_coal _ _ _ _ Hinv i r Hr) as Hc. rewrite (or_chunks _ _ _ _ _ _ Ho) in Hc.
      apply coalesced_app in Hc as [_ [Hc _]]. destruct (last_free false l1'); [|done]. by discriminate Hc.
    + by apply Forall_singleton.
Qed.
End Run.
