(* ===== verification/MmInit.v ===== *)
(** * Setting a heap up: [mm_addregion] and [mm_initialize] establish the invariant *)

From S2P Require Import Prelude Bits Links Queue MmHeap MmLayout MmFreeList MmInv MmRun.
Local Open Scope Z_scope.

(** The region that [mm_addregion] makes of the addresses from [b] to [e]. *)
Definition new_region (b e : Z) : region := Region b [(8, true); (e - b - 16, false); (8, true)].

(** The addresses from [b] to [e] can become a region of the heap. *)
Record fresh_range (nl : Z) (m : mem) (rs : list region) (b e : Z) : Prop := {
  fr_base : 0 < b /\ b mod 16 = 0;
  fr_end : e mod 16 = 0 /\ b + 32 <= e < b + 2 ^ 31;
  fr_top : e < 2 ^ 32;
  fr_mapped : forall w, b <= w < e -> w mod 4 = 0 -> is_Some (m !! w);
  fr_nl : e <= nl \/ nl + 16 * 19 <= b;
  fr_sep : forall i r, rs !! i = Some r -> r_end r <= b \/ e <= r_base r
}.

Section AddRegion.
Context (nl : Z) (m : mem) (rs : list region) (fl : list fnode) (b e : Z).
Hypothesis Hinv : heap_inv nl m rs fl.
Hypothesis Hfr : fresh_range nl m rs b e.

(** The headers of the new region. *)
Definition region_hdrs : mem :=
  <[e - 8 + 4 := enc (e - b - 16) true]> (<[e - 8 := 8]>
    (<[b + 8 + 4 := 8]> (<[b + 8 := e - b - 16]> (<[b + 4 := MM_ALLOC_BIT]> (<[b := 8]> m))))).

Lemma region_hdrs_outside w : w < b \/ e <= w -> region_hdrs !! w = m !! w.
Proof. intros Hw. pose proof (fr_end _ _ _ _ _ Hfr). unfold region_hdrs. by mlook. Qed.

Lemma fl_outside f : f ∈ fl -> faddr nl f + 16 <= b \/ e <= faddr nl f.
Proof.
  intros Hf. destruct f as [k|a s].
  - apply (fl_heads _ _ _ (hi_flist _ _ _ _ Hinv)) in Hf. simpl. unfold bucket, SIZEOF_MM_FREENODE.
    destruct (fr_nl _ _ _ _ _ Hfr); lia.
  - pose proof (fl_free _ _ _ (hi_flist _ _ _ _ Hinv) _ _ Hf).
    apply (hi_fl_mem _ _ _ _ Hinv) in Hf as [p Hp].
    destruct (in_heap_range _ _ _ _ Hinv _ Hp) as (i & r & Hr & ? & ? & _). cbn [ea es faddr] in *.
    destruct (fr_sep _ _ _ _ _ Hfr i r Hr); lia.
Qed.

Lemma mapped_at d : 0 <= d < e - b -> d mod 4 = 0 -> is_Some (m !! (b + d)).
Proof.
  intros Hd Hd4. apply (fr_mapped _ _ _ _ _ Hfr); [lia|]. pose proof (fr_base _ _ _ _ _ Hfr). modlia.
Qed.

Lemma region_hdrs_dom : dom region_hdrs = dom m.
Proof.
  destruct (fr_base _ _ _ _ _ Hfr) as [Hb Hbm]. destruct (fr_end _ _ _ _ _ Hfr) as [Hem He].
  assert (H : forall w, b <= w < e -> w mod 4 = 0 -> is_Some (m !! w)) by apply Hfr.
  unfold region_hdrs.
  rewrite !dom_insert_lookup_L; [done|..]; repeat apply insert_is_Some; apply H; (lia || modlia).
Qed.

Lemma new_region_ok : region_ok (new_region b e) /\ coalesced (r_chunks (new_region b e)) /\
  r_end (new_region b e) = e.
Proof.
  destruct (fr_base _ _ _ _ _ Hfr) as [Hb Hbm]. destruct (fr_end _ _ _ _ _ Hfr) as [Hem He].
  assert (Ht : total (r_chunks (new_region b e)) = e - b) by (unfold total; simpl; lia).
  split_and!; [split|by unfold coalesced; simpl; split_and!|unfold r_end; rewrite Ht; simpl; lia].
  - exists [(e - b - 16, false)]. split; [done|]. apply Forall_singleton. split; simpl; [lia|modlia].
  - done.
  - rewrite Ht. lia.
Qed.

Lemma region_entries x : x ∈ entries b 0 (r_chunks (new_region b e)) ->
  x = Entry b 8 0 true \/ x = Entry (b + 8) (e - b - 16) 8 false \/
  x = Entry (e - 8) 8 (e - b - 16) true.
Proof.
  simpl. rewrite !elem_of_cons, elem_of_nil. replace (b + 8 + (e - b - 16)) with (e - 8) by lia. tauto.
Qed.

Lemma new_lookup i r : (rs ++ [new_region b e]) !! i = Some r ->
  rs !! i = Some r \/ (i = length rs /\ r = new_region b e).
Proof.
  intros Hi. apply lookup_app_Some in Hi as [?|[Hle Hi]]; [by left|right].
  apply list_lookup_singleton_Some in Hi as [? <-]. split; [lia|done].
Qed.

Lemma new_in_heap x : in_heap (rs ++ [new_region b e]) x <->
  in_heap rs x \/ x ∈ entries b 0 (r_chunks (new_region b e)).
Proof.
  split.
  - intros (i & r & Hi & Hx). destruct (new_lookup _ _ Hi) as [Hi'|[-> ->]]; [left; by exists i, r|by right].
  - intros [(i & r & Hi & Hx)|Hx]; [exists i, r; split; [by apply lookup_app_l_Some|done]|].
    exists (length rs), (new_region b e). split; [|done]. by apply list_lookup_middle.
Qed.

Lemma old_far x : in_heap rs x -> ea x + es x <= b \/ e <= ea x.
Proof.
  intros Hx. destruct (in_heap_range _ _ _ _ Hinv _ Hx) as (i & r & Hr & ? & ? & _).
  destruct (fr_sep _ _ _ _ _ Hfr i r Hr); lia.
Qed.

(** Linking the chunk of the new region into the free list. *)
Lemma addregion_link : exists m' l1 l2, mm_addfreechunk nl region_hdrs (b + 8) = Ok m' /\
  fl = l1 ++ l2 /\ dom m' = dom m /\ flist nl m' (l1 ++ FFree (b + 8) (e - b - 16) :: l2) /\
  (forall w, ~ link_word nl fl w -> w <> b + 16 -> w <> b + 20 -> m' !! w = region_hdrs !! w).
Proof.
  destruct (fr_base _ _ _ _ _ Hfr) as [Hb Hbm]. destruct (fr_end _ _ _ _ _ Hfr) as [Hem He].
  assert (Hfl : flist nl region_hdrs fl).
  { eapply flist_frame; [|apply Hinv]. intros f Hf. pose proof (fl_outside f Hf).
    split_and!; apply region_hdrs_outside; lia. }
  assert (Hmd : forall d, 0 <= d < e - b -> d mod 4 = 0 -> is_Some (region_hdrs !! (b + d))).
  { intros d Hd Hd4. apply elem_of_dom. rewrite region_hdrs_dom. apply elem_of_dom. by apply mapped_at. }
  destruct (addfreechunk_spec nl region_hdrs fl (b + 8) (e - b - 16) Hfl)
    as (m' & l1 & l2 & E & El & Hfl' & Hw); try lia.
  { unfold region_hdrs. by mlook. }
  { rewrite <- Z.add_assoc. apply Hmd; [lia|done]. }
  { rewrite <- Z.add_assoc. apply Hmd; [lia|done]. }
  { intros f Hf. pose proof (fl_outside f Hf). lia. }
  exists m', l1, l2. split_and!; try done.
  - rewrite (mm_addfreechunk_dom _ _ _ _ E). apply region_hdrs_dom.
  - intros w Hn ? ?. apply Hw. rewrite link_word_cons. simpl. intuition lia.
Qed.

Lemma addregion_inv : exists m' fl', mm_addfreechunk nl region_hdrs (b + 8) = Ok m' /\
  heap_inv nl m' (rs ++ [new_region b e]) fl' /\ dom m' = dom m /\
  (forall a s w, allocated rs a s -> a + 8 <= w < a + s -> m' !! w = m !! w).
Proof.
  destruct (fr_base _ _ _ _ _ Hfr) as [Hb Hbm]. destruct (fr_end _ _ _ _ _ Hfr) as [Hem He].
  destruct addregion_link as (m' & l1 & l2 & E & El & Hd & Hfl' & Hw).
  assert (Hold : forall w, ~ link_word nl fl w -> w < b \/ e <= w -> m' !! w = m !! w).
  { intros w Hn Ho. rewrite Hw by (done || lia). by apply region_hdrs_outside. }
  assert (Hnew : forall w, b <= w < e -> w <> b + 16 -> w <> b + 20 -> m' !! w = region_hdrs !! w).
  { intros w Ho ? ?. apply Hw; [|done..]. intros (f & Hf & Ef). pose proof (fl_outside f Hf). lia. }
  destruct new_region_ok as (Hok & Hco & Hend).
  exists m', (l1 ++ FFree (b + 8) (e - b - 16) :: l2). split_and!; [done| |done|].
  - split.
    + intros i r [Hi|[_ ->]]%new_lookup; [by eapply Hinv|done].
    + intros i r [Hi|[_ ->]]%new_lookup; [by eapply Hinv|done].
    + intros i j r1 r2 Hne [Hi|[-> ->]]%new_lookup [Hj|[-> ->]]%new_lookup; rewrite ?Hend; simpl.
      * by eapply (hi_sep _ _ _ _ Hinv i j).
      * by apply (fr_sep _ _ _ _ _ Hfr i).
      * pose proof (fr_sep _ _ _ _ _ Hfr j _ Hj). tauto.
      * done.
    + intros i r [Hi|[_ ->]]%new_lookup; [by eapply Hinv|]. rewrite Hend. apply Hfr.
    + intros i r w Hi Hwr Hw4. apply elem_of_dom. rewrite Hd. apply elem_of_dom.
      apply new_lookup in Hi as [Hi|[_ ->]]; [by eapply (hi_mapped _ _ _ _ Hinv)|].
      rewrite Hend in Hwr. by apply (fr_mapped _ _ _ _ _ Hfr).
    + intros x [Hx|Hx]%new_in_heap.
      * pose proof (old_far x Hx). destruct (hdr_not_link _ _ _ _ Hinv _ Hx) as [Hn1 Hn2].
        destruct (in_heap_range _ _ _ _ Hinv _ Hx) as (_ & _ & _ & _ & _ & ? & _).
        destruct (hi_hdr _ _ _ _ Hinv _ Hx). split; rewrite Hold by (done || lia); done.
      * apply region_entries in Hx as [->|[->| ->]]; split; cbn [ea es ep eal];
          rewrite Hnew by lia; unfold region_hdrs; by mlook.
    + done.
    + intros a s. rewrite elem_of_app, elem_of_cons.
      transitivity (FFree a s ∈ fl \/ FFree a s = FFree (b + 8) (e - b - 16)).
      { rewrite El, elem_of_app. tauto. }
      rewrite (hi_fl_mem _ _ _ _ Hinv). setoid_rewrite new_in_heap. split.
      * intros [[p Hp]|[= -> ->]]; [eauto|]. exists 8. right. simpl. set_solver.
      * intros [p [Hp|Hp]]; [eauto|]. right.
        apply region_entries in Hp as [[=]|[[= -> -> _]|[=]]]. done.
  - intros a s w [p Hp] Hww. pose proof (old_far _ Hp) as Hf. cbn [ea es] in Hf.
    apply Hold; [|lia]. eapply (payload_not_link _ _ _ _ Hinv _ _ Hp); [done|simpl; lia].
Qed.
End AddRegion.

(** The heap structure after a region has been added. *)
Definition with_region (h : mm_heap_s) (b e : Z) : mm_heap_s :=
  MkHeap (mm_semcount h) (mm_holder h) (mm_counts_held h) (u32 (mm_heapsize h + (e - b)))
    (<[mm_nregions h := b]> (mm_heapstart h)) (<[mm_nregions h := e - 8]> (mm_heapend h))
    (S (mm_nregions h)) (mm_nodelist h).

Lemma addregion_spec h m rs fl start size :
  let b := MM_ALIGN_UP start in let e := MM_ALIGN_DOWN (start + size) in
  heap_inv (mm_nodelist h) m rs fl -> fresh_range (mm_nodelist h) m rs b e ->
  0 <= start + size < 2 ^ 32 ->
  (mm_nregions h < length (mm_heapstart h))%nat -> (mm_nregions h < length (mm_heapend h))%nat ->
  exists m' fl', mm_addregion h m start size = Ok (with_region h b e, m') /\
    heap_inv (mm_nodelist h) m' (rs ++ [new_region b e]) fl' /\ dom m' = dom m /\
    (forall a s w, allocated rs a s -> a + 8 <= w < a + s -> m' !! w = m !! w).
Proof.
  intros b e Hinv Hfr Hrange Hs He.
  destruct (addregion_inv _ _ _ _ _ _ Hinv Hfr) as (m' & fl' & E & Hi & Hd & Hpay).
  exists m', fl'. split_and!; [|done..].
  destruct (fr_base _ _ _ _ _ Hfr) as [Hb Hbm]. destruct (fr_end _ _ _ _ _ Hfr) as [Hem Hbe].
  pose proof (fr_top _ _ _ _ _ Hfr).
  assert (Hmap : forall w, b <= w < e -> w mod 4 = 0 -> is_Some (m !! w)) by apply Hfr.
  pose proof (Hmap b ltac:(lia) ltac:(modlia)). pose proof (Hmap (b + 4) ltac:(lia) ltac:(modlia)).
  pose proof (Hmap (b + 8) ltac:(lia) ltac:(modlia)). pose proof (Hmap (b + 8 + 4) ltac:(lia) ltac:(modlia)).
  pose proof (Hmap (e - 8) ltac:(lia) ltac:(modlia)). pose proof (Hmap (e - 8 + 4) ltac:(lia) ltac:(modlia)).
  unfold mm_addregion. change SIZEOF_MM_ALLOCNODE with 8. rewrite (u32_small (start + size)) by done.
  fold b e. cbv zeta. unfold array_set. rewrite !(proj2 (Nat.ltb_lt _ _)) by done.
  rewrite (u32_small (e - b)), (u32_small (e - b - 2 * 8)) by lia.
  run. rewrite lor_alloc_enc by lia. replace (e - b - 2 * 8) with (e - b - 16) by lia.
  change (<[e - 8 + 4 := _]> _) with (region_hdrs m b e). cbn [mm_nodelist]. rewrite E. done.
Qed.

(** ** The bucket heads *)

Lemma clear_words_spec n m a :
  0 < a -> (forall j, 0 <= j < Z.of_nat n -> is_Some (m !! (a + 4 * j))) ->
  exists m', clear_words n m a = Ok m' /\ dom m' = dom m /\
    (forall j, 0 <= j < Z.of_nat n -> m' !! (a + 4 * j) = Some 0) /\
    (forall w, w < a \/ a + 4 * Z.of_nat n <= w -> m' !! w = m !! w).
Proof.
  revert m a. induction n as [|n IH]; intros m a Ha Hm; cbn [clear_words].
  - exists m. split_and!; [done|done|lia|done].
  - pose proof (Hm 0 ltac:(lia)) as H0. rewrite Z.add_0_r in H0. rewrite store_Ok by (done || lia).
    rewrite bind_Ok. destruct (IH (<[a := 0]> m) (a + 4)) as (m' & E & Hd & Hz & Ho).
    { lia. }
    { intros j Hj. apply insert_is_Some. replace (a + 4 + 4 * j) with (a + 4 * (j + 1)) by lia.
      apply Hm. lia. }
    exists m'. split_and!; [done|by rewrite Hd, dom_insert_lookup_L| |].
    + intros j Hj. destruct (decide (j = 0)) as [->|Hne].
      * rewrite Ho by lia. by mlook.
      * replace (a + 4 * j) with (a + 4 + 4 * (j - 1)) by lia. apply Hz. lia.
    + intros w Hw. rewrite Ho by lia. by mlook.
Qed.

Lemma link_buckets_spec n nl m i :
  0 < nl -> 1 <= i ->
  (forall j, i - 1 <= j < i + Z.of_nat n -> is_Some (m !! (bucket nl j + 8)) /\ is_Some (m !! (bucket nl j + 12))) ->
  exists m', link_buckets n nl m i = Ok m' /\ dom m' = dom m /\
    (forall j, i - 1 <= j < i - 1 + Z.of_nat n -> m' !! (bucket nl j + 8) = Some (bucket nl (j + 1))) /\
    (forall j, i <= j < i + Z.of_nat n -> m' !! (bucket nl j + 12) = Some (bucket nl (j - 1))) /\
    (forall w, (forall j, i - 1 <= j < i - 1 + Z.of_nat n -> w <> bucket nl j + 8 /\ w <> bucket nl (j + 1) + 12) ->
       m' !! w = m !! w).
Proof.
  intros Hnl. revert m i. induction n as [|n IH]; intros m i Hi Hm; cbn [link_buckets].
  - exists m. split_and!; try done; lia.
  - destruct (Hm (i - 1) ltac:(lia)) as [H8 _]. destruct (Hm i ltac:(lia)) as [_ H12].
    rewrite store_Ok by (done || unfold bucket, SIZEOF_MM_FREENODE; lia). rewrite bind_Ok.
    rewrite store_Ok by (eauto with nx || unfold bucket, SIZEOF_MM_FREENODE; lia). rewrite bind_Ok.
    set (m1 := <[bucket nl i + 12 := _]> _).
    destruct (IH m1 (i + 1)) as (m' & E & Hd & Hf & Hb & Ho); [lia| |].
    { intros j Hj. unfold m1. split; repeat apply insert_is_Some; apply Hm; lia. }
    exists m'. split_and!; [done|rewrite Hd; unfold m1; rewrite !dom_insert_lookup_L; eauto with nx|..].
    + intros j Hj. destruct (decide (j = i - 1)) as [->|Hne]; [|apply Hf; lia].
      rewrite Ho; unfold m1, bucket, SIZEOF_MM_FREENODE; [|intros; lia].
      mlook. do 2 f_equal. lia.
    + intros j Hj. destruct (decide (j = i)) as [->|Hne]; [|apply Hb; lia].
      rewrite Ho; unfold m1, bucket, SIZEOF_MM_FREENODE; [|intros; lia]. by mlook.
    + intros w Hw. rewrite Ho by (intros j Hj; apply Hw; lia). unfold m1.
      pose proof (Hw (i - 1) ltac:(lia)) as [? ?]. replace (i - 1 + 1) with i in * by lia. by mlook.
Qed.

Definition heads : list fnode := FHead <$> seq 0 19.

Lemma elem_heads f : f ∈ heads <-> exists k, f = FHead k /\ (k < 19)%nat.
Proof.
  unfold heads. rewrite list_elem_of_fmap. setoid_rewrite elem_of_seq.
  split; intros (k & ? & ?); exists k; (split; [done|lia]).
Qed.

Lemma heads_flist nl m :
  0 < nl ->
  (forall k, 0 <= k < 19 -> m !! bucket nl k = Some 0) ->
  (forall k, 0 <= k < 18 -> m !! (bucket nl k + 8) = Some (bucket nl (k + 1))) ->
  (forall k, 1 <= k < 19 -> m !! (bucket nl k + 12) = Some (bucket nl (k - 1))) ->
  m !! (bucket nl 18 + 8) = Some 0 -> m !! (bucket nl 0 + 12) = Some 0 ->
  flist nl m heads.
Proof.
  intros Hnl Hs Hf Hb Hl H0. split.
  - intros f (k & -> & Hk)%elem_heads. simpl. unfold bucket, SIZEOF_MM_FREENODE. lia.
  - intros k. rewrite elem_heads. naive_solver.
  - intros f (k & -> & Hk)%elem_heads. apply Hs. lia.
  - intros a s (k & [=] & _)%elem_heads.
  - apply NoDup_fmap_2; [congruence|apply NoDup_seq].
  - intros f g (k & -> & Hk)%elem_heads (j & -> & Hj)%elem_heads.
    destruct (decide (k = j)) as [->|]; [by left|right]. simpl. unfold bucket, SIZEOF_MM_FREENODE. lia.
  - unfold heads. simpl. repeat (constructor; [|repeat (constructor; [vm_compute; congruence|]); constructor]).
    constructor.
  - unfold heads. cbn [seq fmap list_fmap faddr dlinks hd]. split_and!; try done.
    all: match goal with
         | |- _ !! (_ + 8) = _ => rewrite Hf by lia; do 2 f_equal; lia
         | |- _ !! (_ + 12) = _ => rewrite Hb by lia; do 2 f_equal; lia
         end.
Qed.

Lemma empty_heap_inv nl m : flist nl m heads -> heap_inv nl m [] heads.
Proof.
  intros H. split; try done; try (intros; by rewrite lookup_nil in *).
  - by intros e (i & r & ? & _).
  - intros a s. split; [by intros (k & ? & _)%elem_heads|by intros [p (i & r & ? & _)]].
Qed.

(** The heap structure before the first region is added. *)
Definition empty_heap (h : mm_heap_s) : mm_heap_s :=
  MkHeap 1 NO_HOLDER 0 0 (mm_heapstart h) (mm_heapend h) 0 (mm_nodelist h).

(** The memory of the heap structure and of its first region. *)
Record init_pre (h : mm_heap_s) (m : mem) (start size : Z) : Prop := {
  ip_nl : 0 < mm_nodelist h;
  ip_nodes : forall j, 0 <= j < 76 -> is_Some (m !! (mm_nodelist h + 4 * j));
  ip_arrays : (0 < length (mm_heapstart h))%nat /\ (0 < length (mm_heapend h))%nat;
  ip_range : 0 <= start + size < 2 ^ 32;
  ip_fresh : fresh_range (mm_nodelist h) m [] (MM_ALIGN_UP start) (MM_ALIGN_DOWN (start + size))
}.

Lemma initialize_spec h m start size :
  let b := MM_ALIGN_UP start in let e := MM_ALIGN_DOWN (start + size) in
  init_pre h m start size ->
  exists m' fl', mm_initialize h m start size = Ok (with_region (empty_heap h) b e, m') /\
    heap_inv (mm_nodelist h) m' [new_region b e] fl' /\ dom m' = dom m.
Proof.
  intros b e Hp. pose proof (ip_nl _ _ _ _ Hp) as Hnl. destruct (ip_arrays _ _ _ _ Hp) as [Ha1 Ha2].
  destruct (clear_words_spec 76 m (mm_nodelist h) Hnl (ip_nodes _ _ _ _ Hp)) as (m1 & E1 & Hd1 & Hz & Ho1).
  assert (Hz' : forall k d, 0 <= k < 19 -> 0 <= d < 16 -> d mod 4 = 0 ->
            m1 !! (bucket (mm_nodelist h) k + d) = Some 0).
  { intros k d Hk Hd Hd4. rewrite <- (Hz (4 * k + d / 4)) by modlia. f_equal.
    unfold bucket, SIZEOF_MM_FREENODE. modlia. }
  destruct (link_buckets_spec 18 (mm_nodelist h) m1 1 Hnl ltac:(lia)) as (m2 & E2 & Hd2 & Hf & Hb & Ho2).
  { intros j Hj. rewrite (Hz' j 8), (Hz' j 12) by (done || lia). eauto. }
  assert (Hfl : flist (mm_nodelist h) m2 heads).
  { apply heads_flist; [done| |exact Hf|exact Hb|..].
    - intros k Hk. rewrite Ho2 by (unfold bucket, SIZEOF_MM_FREENODE; intros; lia).
      rewrite <- (Hz' k 0) by (done || lia). f_equal. lia.
    - rewrite Ho2; [by apply (Hz' 18 8)|]. unfold bucket, SIZEOF_MM_FREENODE. intros; lia.
    - rewrite Ho2; [by apply (Hz' 0 12)|]. unfold bucket, SIZEOF_MM_FREENODE. intros; lia. }
  destruct (addregion_spec (empty_heap h) m2 [] heads start size) as (m3 & fl' & E3 & Hi & Hd3 & _); try done.
  { by apply empty_heap_inv. }
  { destruct (ip_fresh _ _ _ _ Hp) as [? ? ? Hm ? ?]. split; try done.
    intros w Hw Hw4. apply elem_of_dom. rewrite Hd2, Hd1. apply elem_of_dom. by apply Hm. }
  { apply Hp. }
  exists m3, fl'. split_and!; [|done|congruence].
  unfold mm_initialize. cbn [mm_nodelist]. change (4 * Z.to_nat MM_NNODES)%nat with 76%nat.
  rewrite E1, bind_Ok. change (Z.to_nat MM_NNODES - 1)%nat with 18%nat. by rewrite E2, bind_Ok.
Qed.

(** ** A concrete heap, for the witnesses *)

Definition demo_heap : mm_heap_s := MkHeap 0 0 0 0 [0; 0] [0; 0] 0 4096.
Definition demo_mem : mem := zeros 4096 2048.

Lemma demo_mapped w : 4096 <= w < 4096 + 4 * 2048 -> w mod 4 = 0 -> is_Some (demo_mem !! w).
Proof. intros Hw Hw4. apply zeros_mapped; [lia|modlia]. Qed.

Lemma demo_pre : init_pre demo_heap demo_mem 8192 1030.
Proof.
  split; cbn [demo_heap mm_nodelist mm_heapstart mm_heapend].
  - lia.
  - intros j Hj. apply demo_mapped; [lia|modlia].
  - simpl. lia.
  - lia.
  - change (MM_ALIGN_UP 8192) with 8192. change (MM_ALIGN_DOWN (8192 + 1030)) with 9216.
    split; [by vm_compute|by vm_compute|lia| |right; lia|].
    + intros w Hw Hw4. apply demo_mapped; [lia|done].
    + intros i r Hr. by rewrite lookup_nil in Hr.
Qed.

(** [mm_initialize] of a heap over memory that is large enough returns, with
    the semaphore free, [mm_heapsize] and the bounds tables set, and a well-formed heap of one region whose bounds are
    the aligned bounds of the memory, with one free chunk between two guards. *)
Theorem mm_initialize_correct h m start size :
  let b := MM_ALIGN_UP start in let e := MM_ALIGN_DOWN (start + size) in
  init_pre h m start size ->
  exists m' fl', mm_initialize h m start size = Ok (with_region (empty_heap h) b e, m') /\
    heap_inv (mm_nodelist h) m' [new_region b e] fl' /\ dom m' = dom m.
Proof. apply initialize_spec. Qed.

Lemma mm_initialize_witness : exists m' fl',
  mm_initialize demo_heap demo_mem 8192 1030
    = Ok (MkHeap 1 NO_HOLDER 0 1024 [8192; 0] [9208; 0] 1 4096, m') /\
  heap_inv 4096 m' [new_region 8192 9216] fl'.
Proof.
  destruct (mm_initialize_correct demo_heap demo_mem 8192 1030 demo_pre) as (m' & fl' & E & Hi & _).
  exists m', fl'. split; [exact E|exact Hi].
Defined.

(** [mm_addregion] adds a region to a well-formed heap: the heap is well
    formed with the additional region, [mm_heapsize] and the bounds tables have
    been updated and the contents of the allocated blocks are unchanged. *)
Theorem mm_addregion_correct h m rs fl start size :
  let b := MM_ALIGN_UP start in let e := MM_ALIGN_DOWN (start + size) in
  heap_inv (mm_nodelist h) m rs fl -> fresh_range (mm_nodelist h) m rs b e ->
  0 <= start + size < 2 ^ 32 ->
  (mm_nregions h < length (mm_heapstart h))%nat -> (mm_nregions h < length (mm_heapend h))%nat ->
  exists m' fl', mm_addregion h m start size = Ok (with_region h b e, m') /\
    heap_inv (mm_nodelist h) m' (rs ++ [new_region b e]) fl' /\ dom m' = dom m /\
    (forall a s w, allocated rs a s -> a + 8 <= w < a + s -> m' !! w = m !! w).
Proof. apply addregion_spec. Qed.

Lemma demo_fresh m1 : dom m1 = dom demo_mem ->
  fresh_range 4096 m1 [new_region 8192 9216] (MM_ALIGN_UP 10001) (MM_ALIGN_DOWN (10001 + 1040)).
Proof.
  intros Hd. change (MM_ALIGN_UP 10001) with 10016. change (MM_ALIGN_DOWN (10001 + 1040)) with 11040.
  split; [by vm_compute|by vm_compute|lia| |right; lia|].
  - intros w Hw Hw4. apply elem_of_dom. rewrite Hd. apply elem_of_dom. apply demo_mapped; [lia|done].
  - intros i r Hr. apply list_lookup_singleton_Some in Hr as [_ <-]. left. vm_compute. congruence.
Qed.

Lemma mm_addregion_witness : exists h1 m1 m2 fl2,
  mm_initialize demo_heap demo_mem 8192 1030 = Ok (h1, m1) /\
  mm_addregion h1 m1 10001 1040 = Ok (MkHeap 1 NO_HOLDER 0 2048 [8192; 10016] [9208; 11032] 2 4096, m2) /\
  heap_inv 4096 m2 [new_region 8192 9216; new_region 10016 11040] fl2.
Proof.
  destruct (initialize_spec demo_heap demo_mem 8192 1030 demo_pre) as (m1 & fl1 & E & Hi & Hd).
  change (MM_ALIGN_UP 8192) with 8192 in *. change (MM_ALIGN_DOWN (8192 + 1030)) with 9216 in *.
  set (h1 := with_region (empty_heap demo_heap) 8192 9216) in *.
  destruct (mm_addregion_correct h1 m1 [new_region 8192 9216] fl1 10001 1040) as (m2 & fl2 & E2 & Hi2 & _).
  - exact Hi.
  - exact (demo_fresh m1 Hd).
  - lia.
  - simpl. lia.
  - simpl. lia.
  - exists h1, m1, m2, fl2. split_and!; [exact E|exact E2|exact Hi2].
Defined.
