(* ===== verification/MmMalloc.v ===== *)
(** * Allocation: [mm_malloc] keeps the invariant and allocates one new block *)

From S2P Require Import Prelude Bits Links Queue MmHeap MmLayout MmFreeList MmInv MmRun MmInit.
Local Open Scope Z_scope.

(** What is known about a free chunk found through the free list. *)
Lemma free_chunk nl m rs fl a s :
  heap_inv nl m rs fl -> FFree a s ∈ fl ->
  exists i r l1 c2 l2, rs !! i = Some r /\ r_chunks r = l1 ++ [(s, false)] ++ c2 :: l2 /\
    a = r_base r + total l1 /\ in_heap rs (Entry a s (lastsz 0 l1) false) /\
    in_heap rs (Entry (a + s) c2.1 s true) /\ c2.2 = true /\
    s mod 16 = 0 /\ a mod 16 = 8 /\ 0 <= lastsz 0 l1 < 2 ^ 31 /\ 16 <= s < 2 ^ 31 /\ 0 < a.
Proof.
  intros Hinv Hf. pose proof (fl_free _ _ _ (hi_flist _ _ _ _ Hinv) a s Hf) as Hs.
  apply (hi_fl_mem _ _ _ _ Hinv) in Hf as [p Hp].
  destruct (find_chunk _ _ _ _ _ Hinv Hp ltac:(simpl; lia))
    as (i & r & l1 & c2 & l2 & Hr & El & Ea & Ep & Hmod & Hamod & Hp0 & _).
  cbn [ea es ep eal] in *. subst p.
  pose proof (hi_coal _ _ _ _ Hinv i r Hr) as Hc. rewrite El in Hc. apply coalesced_app in Hc as [_ Hc].
  simpl in Hc. destruct c2 as [s2 al2]. destruct Hc as (_ & Hc2 & _). specialize (Hc2 eq_refl). subst al2.
  destruct (in_heap_range _ _ _ _ Hinv _ Hp) as (_ & _ & _ & _ & _ & _ & Ha & _). cbn [ea] in Ha.
  exists i, r, l1, (s2, true), l2. split_and!; try done; try lia.
  exists i, r. split; [done|]. rewrite El. apply entries_parts. right. right. left.
  rewrite Ea. unfold total, lastsz. simpl. f_equal. lia.
Qed.

(** The nodes left once the chunk has been unlinked are clear of it. *)
Lemma unlinked_clear nl m rs f1 a s f2 i r l1 c2 l2 :
  heap_inv nl m rs (f1 ++ FFree a s :: f2) -> rs !! i = Some r ->
  r_chunks r = l1 ++ [(s, false)] ++ c2 :: l2 -> a = r_base r + total l1 -> 16 <= s ->
  clear_of nl (f1 ++ f2) a (a + s).
Proof.
  intros Hinv Hr El Ea Hs f Hf.
  assert (Hf' : f ∈ f1 ++ FFree a s :: f2) by set_solver.
  destruct (fl_clear _ _ _ _ _ _ _ _ _ _ f Hinv Hr El ltac:(done)) as [?|[?|[?|(e & He & Ef & _)]]];
    [by apply Forall_singleton|done|..]; unfold total in *; simpl in *; rewrite ?Z.add_0_r in *; try lia.
  exfalso. apply list_elem_of_singleton in He as ->. cbn [ea es] in Ef.
  pose proof (fl_nodup _ _ _ (hi_flist _ _ _ _ Hinv)) as (_ & Hd & [Hn _]%NoDup_cons)%NoDup_app.
  rewrite <- Ea in Ef. subst f. set_solver.
Qed.

Section Take.
Context (nl : Z) (m : mem) (rs : list region) (f1 f2 : list fnode) (a s sz : Z).
Hypothesis Hinv : heap_inv nl m rs (f1 ++ FFree a s :: f2).
Hypothesis Hsz : 16 <= sz <= s.
Hypothesis Hmod : sz mod 16 = 0.

(** What taking [s'] bytes of the free chunk at [a] must achieve. *)
Definition take_post (m' : mem) (s' : Z) : Prop :=
  exists rs' fl', heap_inv nl m' rs' fl' /\ bounds rs' = bounds rs /\ sz <= s' <= s /\
    (forall b t, allocated rs' b t <-> allocated rs b t \/ (b = a /\ t = s')) /\
    (forall b t w, allocated rs b t -> b + 8 <= w < b + t -> m' !! w = m !! w).

Section Finish.
Context (i : nat) (r : region) (l1 l2 : list chunk) (c2 : chunk).
Hypothesis Hr : rs !! i = Some r.
Hypothesis El : r_chunks r = l1 ++ [(s, false)] ++ c2 :: l2.
Hypothesis Ea : a = r_base r + total l1.
Context (m' : mem) (fl' : list fnode) (new : list chunk) (s' : Z).
Hypothesis Hnew : Forall chunk_ok new.
Hypothesis Htot : total new = s.
Hypothesis Hs' : sz <= s' <= s.
Hypothesis Hcoal : coalesced (l1 ++ new ++ c2 :: l2).
Hypothesis Hdom : dom m' = dom m.
Hypothesis Hhdr : forall e, e ∈ entries a (lastsz 0 l1) new -> hdr m' e.
Hypothesis Hnext : hdr m' (Entry (a + s) c2.1 (lastsz 0 new) c2.2).
Hypothesis Hsame : forall w, ~ link_word nl (f1 ++ f2) w -> w < a \/ a + s + 8 <= w ->
  m' !! w = m !! w.
Hypothesis Hflist : flist nl m' fl'.
Hypothesis Hflmem : forall b t, FFree b t ∈ fl' <->
  FFree b t ∈ f1 ++ f2 \/ exists p, Entry b t p false ∈ entries a (lastsz 0 l1) new.
Hypothesis Halloc : forall b t, (exists p, Entry b t p true ∈ entries a (lastsz 0 l1) new) <->
  b = a /\ t = s'.

Lemma take_finish : take_post m' s'.
Proof.
  assert (Hold : Forall (fun c : chunk => 16 <= c.1) [(s, false)])
    by (apply Forall_singleton; simpl; lia).
  pose proof (unlinked_clear _ _ _ _ _ _ _ _ _ _ _ _ Hinv Hr El Ea ltac:(lia)) as Hclear.
  assert (Hlo : s_lo r l1 = a) by (unfold s_lo; lia).
  assert (Ht1 : total [(s, false)] = s) by (unfold total; simpl; lia).
  assert (Hhi : s_hi r l1 [(s, false)] = a + s) by (unfold s_hi; rewrite Hlo, Ht1; done).
  assert (Hnne : new <> []) by (intros ->; unfold total in Htot; simpl in Htot; lia).
  assert (Hsame' : forall w, ~ link_word nl (f1 ++ FFree a s :: f2) w ->
            w < a \/ a + s + 8 <= w -> m' !! w = m !! w).
  { intros w Hl Hw. apply Hsame; [|done].
    rewrite link_word_app, link_word_cons in Hl. rewrite link_word_app. tauto. }
  assert (Hout : forall b t, allocated rs b t -> b < a \/ a + s <= b).
  { intros b t [p Hp]. rewrite <- Hhi, <- Hlo.
    destruct (in_heap_range _ _ _ _ Hinv _ Hp) as (_ & _ & _ & _ & _ & ? & _). cbn [ea es] in *.
    destruct (surgery_outside nl m rs _ i r l1 [(s, false)] new l2 c2 Hinv Hr El
      ltac:(done) Hold Hnne Hnew ltac:(lia) _ Hp) as [Ho|Ho];
      [|cbn [ea es] in Ho; lia..]. simpl. by intros [=]%list_elem_of_singleton. }
  exists (<[i := Region (r_base r) (l1 ++ new ++ c2 :: l2)]> rs), fl'. split_and!; [| |lia|lia| |].
  - apply (inv_surgery nl m m' rs (f1 ++ FFree a s :: f2) fl' i r l1 [(s, false)] new l2 c2);
      rewrite ?Hlo, ?Hhi; try done; [lia|].
    intros b t. rewrite Hflmem. apply or_iff_compat_r. split.
    + intros Hb. split; [set_solver|]. pose proof (Hclear _ Hb) as Hb'. simpl in Hb'. lia.
    + intros [Hb Ho]. apply elem_of_app in Hb as [Hb|[[= -> ->]|Hb]%elem_of_cons]; [set_solver|lia|set_solver].
  - apply (surgery_region_bounds nl m rs (f1 ++ FFree a s :: f2) i r l1 [(s, false)] new l2 c2); done || lia.
  - intros b t. rewrite (surgery_alloc nl m rs _ i r l1 [(s, false)] new l2 c2) by (done || lia).
    rewrite Hlo, Hhi, Halloc. naive_solver.
  - intros b t w Hal Hw. eapply (surgery_payload nl m m' rs _ i r l1 [(s, false)] new l2 c2);
      rewrite ?Hlo, ?Hhi; eauto; lia.
Qed.
End Finish.

(** The whole free chunk is taken. *)
Lemma take_whole : sz = s -> exists m', malloc_take nl m sz a = Ok (m', a + 8) /\ take_post m' s.
Proof.
  intros Esz. assert (Hf : FFree a s ∈ f1 ++ FFree a s :: f2) by set_solver.
  destruct (free_chunk _ _ _ _ _ _ Hinv Hf)
    as (i & r & l1 & c2 & l2 & Hr & El & Ea & Hin & Hin2 & Hc2 & Hsm & Ham & Hp & Hs & Ha).
  pose proof (unlinked_clear _ _ _ _ _ _ _ _ _ _ _ _ Hinv Hr El Ea ltac:(lia)) as Hclear.
  destruct (unlink_spec _ _ _ _ _ _ (hi_flist _ _ _ _ Hinv)) as (m1 & E1 & Hfl1 & Hw1).
  destruct (hi_hdr _ _ _ _ Hinv _ Hin) as [Es Ep]. destruct (hi_hdr _ _ _ _ Hinv _ Hin2) as [Es2 Ep2].
  cbn [ea es ep eal] in *. change (enc (lastsz 0 l1) false) with (lastsz 0 l1) in Ep.
  pose proof (fun w H => Hw1 w (clear_not_link nl (f1 ++ f2) a (a + s) w Hclear H ltac:(lia))) as Hin1.
  pose proof (Hin1 a ltac:(lia)) as Es1. pose proof (Hin1 (a + 4) ltac:(lia)) as Ep1. rewrite Es in Es1. rewrite Ep in Ep1.
  unfold malloc_take. rewrite E1. run. rewrite Esz, Z.sub_diag. change (u32 0) with 0.
  change (SIZEOF_MM_FREENODE <=? 0) with false. cbv iota. run.
  rewrite lor_alloc_enc by lia. eexists. split; [done|].
  apply (take_finish i r l1 l2 c2) with (fl' := f1 ++ f2) (new := [(s, true)]); try done; try lia.
  - apply Forall_singleton; split; [simpl; lia|done].
  - unfold total. simpl. lia.
  - pose proof (hi_coal _ _ _ _ Hinv i r Hr) as Hc. rewrite El in Hc.
    apply coalesced_app in Hc as [Hc1 Hc]. apply coalesced_app. split; [done|].
    destruct c2 as [s2 al2]. simpl in *. tauto.
  - apply unlink_dom in E1. rewrite dom_insert_lookup_L; eauto.
  - intros e He. apply list_elem_of_singleton in He as ->. split; cbn [ea es ep eal].
    + by rewrite lookup_insert_ne by lia.
    + by rewrite lookup_insert_eq.
  - split; cbn [ea es ep eal]; rewrite lookup_insert_ne, Hin1 by lia; [done|]. by rewrite Hc2.
  - intros w Hl Hw. rewrite lookup_insert_ne by lia. by apply Hw1.
  - eapply (clear_frame _ _ a (a + s) m1); [done|lia| |done].
    intros w Hw _. rewrite lookup_insert_ne; [done|lia].
  - intros b t. split; [by left|]. intros [?|[p He]]; [done|]. by apply list_elem_of_singleton in He.
  - intros b t. split; [intros [p He]; by apply list_elem_of_singleton in He as [= -> -> _]|].
    intros [-> ->]. exists (lastsz 0 l1). by apply list_elem_of_singleton.
Qed.

(** The chunk is split; the rest goes back to the free list. *)
Lemma take_split : sz < s -> exists m', malloc_take nl m sz a = Ok (m', a + 8) /\ take_post m' sz.
Proof.
  intros Hlt. assert (Hf : FFree a s ∈ f1 ++ FFree a s :: f2) by set_solver.
  destruct (free_chunk _ _ _ _ _ _ Hinv Hf)
    as (i & r & l1 & c2 & l2 & Hr & El & Ea & Hin & Hin2 & Hc2 & Hsm & Ham & Hp & Hs & Ha).
  assert (Hrem : 16 <= s - sz /\ (s - sz) mod 16 = 0).
  { modlia. }
  pose proof (unlinked_clear _ _ _ _ _ _ _ _ _ _ _ _ Hinv Hr El Ea ltac:(lia)) as Hclear.
  destruct (unlink_spec _ _ _ _ _ _ (hi_flist _ _ _ _ Hinv)) as (m1 & E1 & Hfl1 & Hw1).
  destruct (hi_hdr _ _ _ _ Hinv _ Hin) as [Es Ep]. destruct (hi_hdr _ _ _ _ Hinv _ Hin2) as [Es2 Ep2].
  cbn [ea es ep eal] in *. change (enc (lastsz 0 l1) false) with (lastsz 0 l1) in Ep.
  pose proof (fun w H => Hw1 w (clear_not_link nl (f1 ++ f2) a (a + s) w Hclear H ltac:(lia))) as Hin1.
  pose proof (Hin1 a ltac:(lia)) as Es1. pose proof (Hin1 (a + 4) ltac:(lia)) as Ep1.
  pose proof (Hin1 (a + s) ltac:(lia)) as Es21. pose proof (Hin1 (a + s + 4) ltac:(lia)) as Ep21.
  rewrite Es in Es1. rewrite Ep in Ep1. rewrite Es2 in Es21. rewrite Ep2 in Ep21.
  pose proof (unlink_dom _ _ _ E1) as Hd1.
  assert (Hmap : forall d, 0 <= d < 16 -> d mod 4 = 0 -> is_Some (m1 !! (a + sz + d))).
  { intros d Hd Hd4. rewrite Hin1 by lia.
    apply (chunk_mapped _ _ _ _ _ _ Hinv Hin); cbn [ea es]; [lia|modlia]. }
  pose proof (Hmap 0 ltac:(lia) eq_refl) as Hm0. rewrite Z.add_0_r in Hm0.
  pose proof (Hmap 4 ltac:(lia) eq_refl) as Hm4.
  pose proof (Hmap 8 ltac:(lia) eq_refl) as Hm8. pose proof (Hmap 12 ltac:(lia) eq_refl) as Hm12.
  unfold malloc_take. rewrite E1. run. rewrite u32_small by lia.
  replace (SIZEOF_MM_FREENODE <=? s - sz) with true by (symmetry; apply Z.leb_le; unfold SIZEOF_MM_FREENODE; lia).
  run. rewrite lor_land_enc by lia.
  set (m2 := <[a + s + 4 := enc (s - sz) true]> _).
  assert (Hfl2 : flist nl m2 (f1 ++ f2)).
  { eapply (clear_frame _ _ a (a + s) m1); [done|lia| |done]. intros w Hw Hne. unfold m2. by mlook. }
  assert (Hd2 : dom m2 = dom m).
  { unfold m2. rewrite !dom_insert_lookup_L; eauto 6 with nx. }
  destruct (addfreechunk_spec nl m2 (f1 ++ f2) (a + sz) (s - sz) Hfl2)
    as (m3 & g1 & g2 & E3 & Eg & Hfl3 & Hw3); [unfold m2; by mlook|lia|lia|unfold m2; eauto 8 with nx..| |].
  { intros f Hfk. specialize (Hclear f Hfk). lia. }
  rewrite E3. pose proof (mm_addfreechunk_dom _ _ _ _ E3) as Hd3.
  assert (Hin3 : forall w, a <= w < a + s + 8 -> w <> a + sz + 8 -> w <> a + sz + 12 -> m3 !! w = m2 !! w).
  { intros w Hw ? ?. apply Hw3. rewrite link_word_cons. simpl.
    pose proof (clear_not_link _ _ _ _ w Hclear Hw ltac:(lia)). intuition lia. }
  assert (Ep3 : m3 !! (a + 4) = Some (lastsz 0 l1)) by (rewrite Hin3 by lia; unfold m2; by mlook).
  run. rewrite lor_alloc_enc by lia. eexists. split; [done|].
  apply (take_finish i r l1 l2 c2) with (fl' := g1 ++ FFree (a + sz) (s - sz) :: g2)
    (new := [(sz, true); (s - sz, false)]); try done; try lia.
  - apply Forall_cons; split; [|apply Forall_singleton]; split; simpl; lia.
  - unfold total. simpl. lia.
  - pose proof (hi_coal _ _ _ _ Hinv i r Hr) as Hc. rewrite El in Hc.
    apply coalesced_app in Hc as [Hc1 Hc]. apply coalesced_app. split; [done|].
    destruct c2 as [s2 al2]. simpl in *. tauto.
  - rewrite dom_insert_lookup_L by eauto. congruence.
  - simpl. intros e He. apply elem_of_cons in He as [->|He]; [|apply list_elem_of_singleton in He as ->];
      split; cbn [ea es ep eal]; mlook; try rewrite Hin3 by lia; unfold m2; by mlook.
  - split; cbn [ea es ep eal]; mlook; rewrite Hin3 by lia; unfold m2; mlook; [done|]. by rewrite Hc2.
  - intros w Hl Hw. mlook. rewrite Hw3.
    + unfold m2. mlook. by apply Hw1.
    + rewrite link_word_cons. simpl. intuition lia.
  - eapply flist_frame; [|done]. intros f Hfk.
    assert (Hfa : a + sz <= faddr nl f \/ faddr nl f + 16 <= a).
    { apply elem_of_app in Hfk as [Hfk|[->|Hfk]%elem_of_cons]; [|simpl; lia|];
        specialize (Hclear f ltac:(rewrite Eg; set_solver)); lia. }
    split_and!; by mlook.
  - intros b t. rewrite Eg, !elem_of_app, elem_of_cons. simpl. split.
    + intros [?|[[= -> ->]|?]]; [tauto| |tauto]. right. exists sz. right. by left.
    + intros [?|[p He]]; [tauto|]. apply elem_of_cons in He as [[=]|He].
      apply list_elem_of_singleton in He as [= -> -> _]. tauto.
  - intros b t. simpl. split.
    + intros [p He]. apply elem_of_cons in He as [[= -> -> _]|He]; [done|].
      by apply list_elem_of_singleton in He.
    + intros [-> ->]. exists (lastsz 0 l1). by left.
Qed.
End Take.

(** ** The semaphore of the heap *)

(** The task [pid] can enter the heap: it already holds the semaphore, or the
    semaphore is free. *)
Definition lock_ok (pid : Z) (h : mm_heap_s) : Prop :=
  0 <= pid /\
  ((mm_holder h = pid /\ 1 <= mm_counts_held h) \/
   (0 < mm_semcount h /\ mm_holder h = NO_HOLDER /\ mm_counts_held h = 0)).

Lemma lock_pair pid h : lock_ok pid h ->
  exists h1, mm_takesemaphore pid h = Ok h1 /\ mm_givesemaphore h1 = h /\
    mm_nodelist h1 = mm_nodelist h /\ mm_holder h1 = pid /\ 1 <= mm_counts_held h1.
Proof.
  intros [Hpid Hl]. unfold mm_takesemaphore. destruct h as [sem ho cnt sz st en nr nd]; simpl in *.
  destruct Hl as [[-> Hc]|(Hs & -> & ->)].
  - rewrite Z.eqb_refl. eexists. split; [done|]. unfold mm_givesemaphore, set_sem. simpl.
    rewrite (proj2 (Z.ltb_lt 1 (cnt + 1))) by lia.
    split_and!; [f_equal; lia|done|done|lia].
  - unfold NO_HOLDER. rewrite (proj2 (Z.eqb_neq (-1) pid)), (proj2 (Z.ltb_lt 0 sem)) by lia.
    eexists. split; [done|]. unfold mm_givesemaphore, set_sem. simpl.
    split_and!; [f_equal; lia|done|done|lia].
Qed.

(** ** Allocation *)

Lemma malloc_take_spec nl m rs fl a s sz :
  heap_inv nl m rs fl -> FFree a s ∈ fl -> 16 <= sz <= s -> sz mod 16 = 0 ->
  exists m' rs' fl', malloc_take nl m sz a = Ok (m', a + 8) /\ heap_inv nl m' rs' fl' /\
    bounds rs' = bounds rs /\
    (forall b t, allocated rs' b t <-> allocated rs b t \/ (b = a /\ t = sz)) /\
    (forall b t w, allocated rs b t -> b + 8 <= w < b + t -> m' !! w = m !! w).
Proof.
  intros Hinv Hf Hsz Hmod. apply list_elem_of_split in Hf as (f1 & f2 & ->).
  destruct (decide (sz = s)) as [->|Hne].
  - destruct (take_whole nl m rs f1 f2 a s s Hinv Hsz Hmod eq_refl) as (m' & E & rs' & fl' & ? & ? & _ & ? & ?).
    by exists m', rs', fl'.
  - destruct (take_split nl m rs f1 f2 a s sz Hinv Hsz Hmod) as (m' & E & rs' & fl' & ? & ? & _ & ? & ?); [lia|].
    by exists m', rs', fl'.
Qed.

Lemma malloc_spec pid h m rs fl size :
  heap_inv (mm_nodelist h) m rs fl -> lock_ok pid h -> 1 <= size < 2 ^ 32 - 24 ->
  exists m' ret, mm_malloc pid h m size = Ok (h, m', ret) /\
    ((ret = 0 /\ m' = m /\
      forall a s p, in_heap rs (Entry a s p false) -> s < size + 8) \/
     (exists rs' fl' a s sfree pfree, ret = a + 8 /\ ret mod 16 = 0 /\
        size + 8 <= s < size + 24 /\ s mod 16 = 0 /\
        in_heap rs (Entry a sfree pfree false) /\ s <= sfree /\
        (forall b t p, in_heap rs (Entry b t p false) -> size + 8 <= t -> sfree <= t) /\
        heap_inv (mm_nodelist h) m' rs' fl' /\ bounds rs' = bounds rs /\
        (forall b t, allocated rs' b t <-> allocated rs b t \/ (b = a /\ t = s)) /\
        (forall b t w, allocated rs b t -> b + 8 <= w < b + t -> m' !! w = m !! w))).
Proof.
  intros Hinv Hlock Hsize. destruct (lock_pair _ _ Hlock) as (h1 & Et & Eg & En & _).
  destruct (align_up_spec (size + 8)) as [Hm Hr]; [lia|].
  unfold mm_malloc. rewrite (proj2 (Z.ltb_ge size 1)) by lia.
  change SIZEOF_MM_ALLOCNODE with 8. rewrite u32_small by lia.
  set (asz := MM_ALIGN_UP (size + 8)) in *. rewrite Et, bind_Ok, En.
  assert (Hfree : forall b t, FFree b t ∈ fl <-> exists p, in_heap rs (Entry b t p false)) by apply Hinv.
  assert (Hfit : forall b t, FFree b t ∈ fl -> size + 8 <= t -> asz <= t).
  { intros b t Hb Ht. destruct (free_chunk _ _ _ _ _ _ Hinv Hb)
      as (_ & _ & _ & _ & _ & _ & _ & _ & _ & _ & _ & ? & _). modlia. }
  destruct (malloc_find (mm_nodelist h) m fl asz) as (first & node & El & Es & Hres); [apply Hinv|modlia|].
  cbv zeta in El. rewrite El, bind_Ok, Es, bind_Ok.
  destruct Hres as [[-> Hnone]|(s & Hn0 & Hf & Hs & Hbest)].
  - exists m, 0. cbn [Z.eqb]. cbv iota. rewrite bind_Ok. rewrite Eg. split; [done|]. left.
    split_and!; [done|done|]. intros a s p Hp.
    assert (Ha : FFree a s ∈ fl) by (apply Hfree; eauto).
    destruct (Z.lt_ge_cases s (size + 8)) as [|Hge]; [done|].
    specialize (Hfit _ _ Ha Hge). specialize (Hnone _ _ Ha). lia.
  - rewrite (proj2 (Z.eqb_neq node 0)) by done.
    destruct (malloc_take_spec _ _ _ _ node s asz Hinv Hf) as (m' & rs' & fl' & E & Hi & Hbd & Ha & Hpay); [modlia|done|].
    rewrite E, bind_Ok, Eg. exists m', (node + 8). split; [done|]. right.
    destruct (free_chunk _ _ _ _ _ _ Hinv Hf) as (_ & _ & l1 & _ & _ & _ & _ & _ & Hin & _ & _ & _ & Ham & _).
    exists rs', fl', node, asz, s, (lastsz 0 l1). split_and!; try done; try lia; [modlia|].
    intros b t p Hb Ht. assert (Hbf : FFree b t ∈ fl) by (apply Hfree; eauto). eauto.
Qed.

(** C23: [mm_malloc] of [size] bytes, from a well-formed heap whose semaphore can
    be taken, always returns with the semaphore as it was.  Either it returns NULL,
    nothing has changed and [size] is 0 or no free chunk is large enough; or it returns
    a 16-byte aligned block carved from the smallest free chunk that is large
    enough, the heap is well formed, the allocated blocks are the old ones and
    the new one, and no allocated block has had its contents changed.  This is for
    sizes below 2^32 - 24: larger ones wrap around when the header is added and the
    sum is rounded up, which only an assertion checks, so that the last seven sizes
    are served as one byte. *)
Theorem mm_malloc_correct pid h m rs fl size :
  heap_inv (mm_nodelist h) m rs fl -> lock_ok pid h -> 0 <= size < 2 ^ 32 - 24 ->
  exists m' ret, mm_malloc pid h m size = Ok (h, m', ret) /\
    ((ret = 0 /\ m' = m /\
      (size = 0 \/ forall a s p, in_heap rs (Entry a s p false) -> s < size + 8)) \/
     (exists rs' fl' a s sfree pfree, ret = a + 8 /\ ret mod 16 = 0 /\ 1 <= size /\
        size + 8 <= s < size + 24 /\ s mod 16 = 0 /\
        in_heap rs (Entry a sfree pfree false) /\ s <= sfree /\
        (forall b t p, in_heap rs (Entry b t p false) -> size + 8 <= t -> sfree <= t) /\
        heap_inv (mm_nodelist h) m' rs' fl' /\ bounds rs' = bounds rs /\
        (forall b t, allocated rs' b t <-> allocated rs b t \/ (b = a /\ t = s)) /\
        (forall b t w, allocated rs b t -> b + 8 <= w < b + t -> m' !! w = m !! w))).
Proof.
  intros Hi Hl Hs. destruct (decide (size = 0)) as [->|Hn]; [exists m, 0; split; [done|left; by split_and!; [..|left]]|].
  destruct (malloc_spec pid h m rs fl size Hi Hl ltac:(lia)) as (m' & ret & E & [(Er & Em & Hno)|(rs' & fl' & a & s & sf & pf & H1 & H2 & H3 & H4)]);
    exists m', ret; (split; [exact E|]); [left; by split_and!; [..|right]|right].
  exists rs', fl', a, s, sf, pf. split_and!; try done; try lia; apply H4.
Qed.

(** The demonstration heap after [mm_initialize]. *)
Definition demo_heap1 : mm_heap_s := MkHeap 1 NO_HOLDER 0 1024 [8192; 0] [9208; 0] 1 4096.

Lemma demo_inv : exists m fl, mm_initialize demo_heap demo_mem 8192 1030 = Ok (demo_heap1, m) /\
  heap_inv 4096 m [new_region 8192 9216] fl.
Proof.
  destruct (initialize_spec demo_heap demo_mem 8192 1030 demo_pre) as (m & fl & E & Hi & _).
  exists m, fl. split; [exact E|exact Hi].
Qed.

Lemma demo_free : in_heap [new_region 8192 9216] (Entry 8200 1008 8 false).
Proof. exists 0%nat, (new_region 8192 9216). split; [done|]. right. by left. Qed.

Lemma demo_lock : lock_ok 3 demo_heap1.
Proof. split; [lia|right]. simpl. split_and!; [lia|done|done]. Qed.

Lemma mm_malloc_witness : exists m m' ret,
  mm_initialize demo_heap demo_mem 8192 1030 = Ok (demo_heap1, m) /\
  mm_malloc 3 demo_heap1 m 100 = Ok (demo_heap1, m', ret) /\ ret <> 0 /\ ret mod 16 = 0.
Proof.
  destruct demo_inv as (m & fl & E & Hi).
  destruct (mm_malloc_correct 3 demo_heap1 m [new_region 8192 9216] fl 100 Hi demo_lock ltac:(lia))
    as (m' & ret & E' & [(_ & _ & [?|Hno])|(rs' & fl' & a & s & sf & pf & -> & Hm & _ & _ & _ & Hin & _)]); [lia| |].
  - specialize (Hno _ _ _ demo_free). lia.
  - exists m, m', (a + 8). split_and!; [exact E|exact E'| |exact Hm].
    destruct (in_heap_range _ _ _ _ Hi _ Hin) as (_ & _ & _ & _ & _ & _ & Ha & _). simpl in Ha. lia.
Defined.
