(* ===== verification/MmFree.v ===== *)
(** * Deallocation: [mm_free] merges the block with its free neighbours *)

From S2P Require Import Prelude Bits Links Queue MmHeap MmLayout MmFreeList MmInv MmRun MmInit MmMalloc.
Local Open Scope Z_scope.

Lemma entries_all_free a p l e :
  Forall (fun c : chunk => c.2 = false) l -> e ∈ entries a p l -> eal e = false.
Proof.
  intros Hl. revert a p. induction Hl as [|[s al] l Hc _ IH]; intros a p He; [set_solver|].
  apply elem_of_cons in He as [->|He]; [done|by eapply IH].
Qed.

(** The free chunks around an allocated one hold no other allocated block. *)
Lemma run_one_alloc a p x s y b t q :
  Forall (fun c : chunk => c.2 = false) x -> Forall (fun c : chunk => c.2 = false) y ->
  Entry b t q true ∈ entries a p (x ++ [(s, true)] ++ y) -> b = a + total x.
Proof.
  intros Hx Hy. rewrite !entries_app, !elem_of_app. simpl. intros [He|[He|He]].
  - by apply (entries_all_free _ _ _ _ Hx) in He.
  - by apply list_elem_of_singleton in He as [= -> _ _].
  - by apply (entries_all_free _ _ _ _ Hy) in He.
Qed.

Section Free.
Context (nl : Z) (m : mem) (rs : list region) (fl : list fnode).
Hypothesis Hinv : heap_inv nl m rs fl.

(** The state after the merges can be closed. *)
Lemma merged_close i r l1 x s y c2 l2 m' kept :
  rs !! i = Some r -> open_run nl m fl r l1 (x ++ [(s, true)] ++ y) c2 l2 m' kept ->
  c2.2 = true -> last_free false l1 = false ->
  Forall (fun c : chunk => c.2 = false) x -> Forall (fun c : chunk => c.2 = false) y ->
  let a := s_lo r (l1 ++ x) in
  exists m2 rs' fl', mm_addfreechunk nl m' (s_lo r l1) = Ok m2 /\ heap_inv nl m2 rs' fl' /\
    bounds rs' = bounds rs /\
    (forall b t, allocated rs' b t <-> allocated rs b t /\ b <> a) /\
    (forall b t w, allocated rs b t -> b <> a -> b + 8 <= w < b + t -> m2 !! w = m !! w).
Proof.
  intros Hr H Hc2 Hl1 Hx Hy a. set (old := x ++ [(s, true)] ++ y) in *.
  pose proof (or_chunks _ _ _ _ _ _ _ _ _ _ H) as El.
  destruct (open_close nl m rs fl i r Hinv Hr l1 old c2 l2 m' kept H Hc2) as (m2 & rs' & fl' & E & Hi & Hbd & Hal & Hpay).
  { pose proof (hi_coal _ _ _ _ Hinv i r Hr) as Hc. rewrite El in Hc.
    apply coalesced_app in Hc as [Hc1 Hc]. apply coalesced_from_app in Hc as [_ Hc].
    apply coalesced_app. split; [done|]. rewrite Hl1. destruct c2 as [s2 al2]. simpl in *. tauto. }
  destruct (surgery_bounds nl m rs fl i r l1 old old l2 c2 Hinv Hr) as (_ & _ & _ & _ & Hlh & _);
    try apply H; [|done|].
  { destruct (mid_align r l1 old (c2 :: l2) (hi_ok _ _ _ _ Hinv i r Hr)) as (_ & _ & _ & _ & ? & _);
      by try apply H. }
  assert (Hnonneg : forall l, Forall (fun c : chunk => 16 <= c.1) l -> 0 <= total l).
  { intros l Hl. apply total_nonneg. eapply Forall_impl; [exact Hl|]. simpl. lia. }
  pose proof (or_old _ _ _ _ _ _ _ _ _ _ H) as Ho. unfold old in Ho.
  rewrite !Forall_app, Forall_singleton in Ho. destruct Ho as (Hox & Hos & Hoy). simpl in Hos.
  assert (Ea : a = s_lo r l1 + total x) by (unfold a, s_lo; rewrite total_app; lia).
  assert (Hh : s_hi r l1 old = a + s + total y).
  { rewrite Ea. unfold s_hi, old. rewrite !total_app. change (total [(s, true)]) with (s + 0). lia. }
  assert (Hout : forall b t, allocated rs b t -> (b < s_lo r l1 \/ s_hi r l1 old <= b) <-> b <> a).
  { intros b t [p Hp]. pose proof (Hnonneg x Hox). pose proof (Hnonneg y Hoy). split; [lia|]. intros Hne.
    destruct (in_heap_range _ _ _ _ Hinv _ Hp) as (_ & _ & _ & _ & _ & ? & _). cbn [ea es] in *.
    destruct (surgery_outside nl m rs fl i r l1 old old l2 c2 Hinv Hr) with (e := Entry b t p true)
      as [Hs|Hs]; try apply H; try done; [| |cbn [ea es] in Hs; lia..].
    - destruct (mid_align r l1 old (c2 :: l2) (hi_ok _ _ _ _ Hinv i r Hr)) as (_ & _ & _ & _ & ? & _);
        by try apply H.
    - intros He. apply Hne. rewrite Ea. eapply run_one_alloc; [exact Hx|exact Hy|exact He]. }
  exists m2, rs', fl'. split_and!; [done|done|done| |].
  - intros b t. rewrite Hal. split; intros [? ?]; (split; [done|]); by eapply Hout.
  - intros b t w Hb Hne. apply (Hpay b t w Hb). by apply (Hout b t Hb).
Qed.
End Free.

Lemma free_spec pid h m rs fl a s :
  heap_inv (mm_nodelist h) m rs fl -> lock_ok pid h -> allocated rs a s -> 16 <= s ->
  exists m' rs' fl', mm_free pid h m (a + 8) = Ok (h, m') /\ heap_inv (mm_nodelist h) m' rs' fl' /\
    bounds rs' = bounds rs /\
    (forall b t, allocated rs' b t <-> allocated rs b t /\ b <> a) /\
    (forall b t w, allocated rs b t -> b <> a -> b + 8 <= w < b + t -> m' !! w = m !! w).
Proof.
  intros Hinv Hlock [p Hp] Hs. destruct (lock_pair _ _ Hlock) as (h1 & Et & Eg & En & _).
  destruct (find_chunk _ _ _ _ _ Hinv Hp ltac:(simpl; lia))
    as (i & r & l1 & c2 & l2 & Hr & El & Ea & Ep & Hmod & Hamod & Hp0 & _).
  destruct (in_heap_range _ _ _ _ Hinv _ Hp) as (_ & _ & _ & _ & _ & _ & Ha & _).
  destruct (hi_hdr _ _ _ _ Hinv _ Hp) as [Ms Mp]. cbn [ea es ep eal] in *.
  change (r_base r + total l1) with (s_lo r l1) in Ea. subst a p.
  pose proof (free_open _ _ _ _ _ _ Hinv Hr _ _ _ _ El Hs) as H0.
  destruct (free_next _ _ _ _ _ _ Hinv Hr _ _ _ _ _ _ H0) as (np & m1 & k1 & y & c2' & l2' & L1 & S1 & H1 & Hc2 & Hy).
  destruct (free_prev _ _ _ _ _ _ Hinv Hr _ _ _ _ _ _ H1)
    as (p & pp & m2 & k2 & l1' & x & L2 & L3 & S2 & El1 & H2 & Hl1 & Hx).
  destruct (merged_close _ _ _ _ Hinv _ _ _ x s y _ _ _ _ Hr H2 Hc2 Hl1 Hx Hy) as (m3 & rs' & fl' & E3 & Hi & Hbd & Hal & Hpay).
  rewrite <- El1 in Hal, Hpay. exists m3, rs', fl'. split_and!; [|done..].
  assert (Hhi : s_hi r l1 [(s, true)] = s_lo r l1 + s) by (unfold s_hi, total; simpl; lia).
  rewrite Hhi in *. unfold mm_free. rewrite (proj2 (Z.eqb_neq (s_lo r l1 + 8) 0)) by lia.
  rewrite Et, bind_Ok. change SIZEOF_MM_ALLOCNODE with 8. rewrite Z.add_simpl_r. run.
  rewrite land_not_alloc by lia. run. rewrite L1, bind_Ok, S1, bind_Ok. cbv beta iota.
  rewrite L2, bind_Ok. cbv zeta. rewrite L3, bind_Ok, S2, bind_Ok. cbv beta iota.
  by rewrite En, E3, bind_Ok, Eg.
Qed.

(** C24: [mm_free] of an allocated block, from a well-formed heap whose semaphore
    can be taken, always returns with the semaphore as it was; the heap is well
    formed again (in particular the block has been merged with its free
    neighbours, so that no two free chunks touch), exactly that block is no
    longer allocated and the contents of the others are unchanged. *)
Theorem mm_free_correct pid h m rs fl a s :
  heap_inv (mm_nodelist h) m rs fl -> lock_ok pid h -> allocated rs a s -> 16 <= s ->
  exists m' rs' fl', mm_free pid h m (a + 8) = Ok (h, m') /\ heap_inv (mm_nodelist h) m' rs' fl' /\
    bounds rs' = bounds rs /\
    (forall b t, allocated rs' b t <-> allocated rs b t /\ b <> a) /\
    (forall b t w, allocated rs b t -> b <> a -> b + 8 <= w < b + t -> m' !! w = m !! w).
Proof. apply free_spec. Qed.

Lemma mm_free_witness : exists m m1 m2 p rs fl,
  mm_initialize demo_heap demo_mem 8192 1030 = Ok (demo_heap1, m) /\
  mm_malloc 3 demo_heap1 m 100 = Ok (demo_heap1, m1, p) /\
  mm_free 3 demo_heap1 m1 p = Ok (demo_heap1, m2) /\ heap_inv 4096 m2 rs fl.
Proof.
  destruct demo_inv as (m & fl & E & Hi).
  destruct (malloc_spec 3 demo_heap1 m [new_region 8192 9216] fl 100 Hi demo_lock ltac:(lia))
    as (m1 & p & E1 & [(_ & _ & Hno)|(rs1 & fl1 & a & s & sf & pf & -> & _ & Hs & _ & _ & _ & _ & Hi1 & _ & Hal & _)]).
  - specialize (Hno _ _ _ demo_free). lia.
  - destruct (mm_free_correct 3 demo_heap1 m1 rs1 fl1 a s Hi1 demo_lock) as (m2 & rs2 & fl2 & E2 & Hi2 & _).
    + apply Hal. right. split; reflexivity.
    + lia.
    + exists m, m1, m2, (a + 8), rs2, fl2. split_and!; [exact E|exact E1|exact E2|exact Hi2].
Defined.
