(* ===== verification/MmClient.v ===== *)
(** * Clients of the heap

    Arbitrary sequences of allocations and releases on one heap.  Every such
    sequence runs to its end; the blocks a client holds never overlap, and once
    the client has released all of them the heap is the one it started from. *)

From S2P Require Import Prelude Bits Links Queue MmHeap MmLayout MmFreeList MmInv MmRun MmInit MmMalloc MmFree.
Local Open Scope Z_scope.

(** [RFree k] releases the [k]-th block that the client holds, if there is one. *)
Inductive request := RMalloc (size : Z) | RFree (k : nat).

Abbreviation live := (list (Z * Z)).

Definition serve (pid : Z) (st : mm_heap_s * mem * live) (rq : request) : res (mm_heap_s * mem * live) :=
  let '(h, m, lv) := st in
  match rq with
  | RMalloc size =>
      '(h, m, p) ← mm_malloc pid h m size;
      Ok (h, m, if p =? 0 then lv else (p, size) :: lv)
  | RFree k =>
      match lv !! k with
      | Some (p, _) => '(h, m) ← mm_free pid h m p; Ok (h, m, delete k lv)
      | None => Ok (h, m, lv)
      end
  end.

Fixpoint serve_all (pid : Z) (st : mm_heap_s * mem * live) (rqs : list request)
    : res (mm_heap_s * mem * live) :=
  match rqs with
  | [] => Ok st
  | rq :: rqs => st ← serve pid st rq; serve_all pid st rqs
  end.

Definition request_ok (rq : request) : Prop :=
  match rq with RMalloc size => 0 <= size < 2 ^ 32 - 24 | RFree _ => True end.

(** The client holds exactly the allocated blocks. *)
Record live_ok (rs : list region) (lv : live) : Prop := {
  lo_nodup : NoDup lv.*1;
  lo_block : forall p sz, (p, sz) ∈ lv ->
    exists s, allocated rs (p - 8) s /\ sz + 8 <= s /\ 16 <= s /\ p mod 16 = 0;
  lo_all : forall a s, allocated rs a s -> 16 <= s -> exists sz, (a + 8, sz) ∈ lv
}.

(** ** One request *)

Lemma live_malloc rs rs' lv a s size :
  live_ok rs lv -> (forall t, ~ allocated rs a t) -> (a + 8) mod 16 = 0 -> size + 8 <= s -> 16 <= s ->
  (forall b t, allocated rs' b t <-> allocated rs b t \/ (b = a /\ t = s)) ->
  live_ok rs' ((a + 8, size) :: lv).
Proof.
  intros [Hnd Hbl Hall] Hna Hm Hs H16 Hal. split.
  - rewrite fmap_cons. apply NoDup_cons. split; [|done]. simpl.
    intros ([p sz] & Ep & Hin)%list_elem_of_fmap. simpl in Ep. subst p.
    destruct (Hbl _ _ Hin) as (t & Ha & _). apply (Hna t). by replace a with (a + 8 - 8) by lia.
  - intros p sz [[= -> ->]|Hin]%elem_of_cons.
    + exists s. split_and!; try done. apply Hal. right. split; [lia|done].
    + destruct (Hbl _ _ Hin) as (t & Ha & ?). exists t. split; [apply Hal; by left|done].
  - intros b t [Hb|[-> ->]]%Hal H16t; [|exists size; by left].
    destruct (Hall _ _ Hb H16t) as [sz ?]. exists sz. by right.
Qed.

Lemma live_free rs rs' lv k p sz :
  live_ok rs lv -> lv !! k = Some (p, sz) ->
  (forall b t, allocated rs' b t <-> allocated rs b t /\ b <> p - 8) ->
  live_ok rs' (delete k lv).
Proof.
  intros [Hnd Hbl Hall] Hk Hal. pose proof (list_elem_of_lookup_2 _ _ _ Hk) as Hin.
  apply delete_Permutation in Hk as Hperm. rewrite Hperm in Hnd. rewrite fmap_cons in Hnd.
  apply NoDup_cons in Hnd as [Hni Hnd]. simpl in Hni. split; [done|..].
  - intros q tz Hq. assert (Hq' : (q, tz) ∈ lv) by (rewrite Hperm; by right).
    destruct (Hbl _ _ Hq') as (t & Ha & ?). exists t. split; [|done]. apply Hal. split; [done|].
    intros E. apply Hni. apply list_elem_of_fmap. exists (q, tz). split; [simpl; lia|done].
  - intros b t [Hb Hne]%Hal H16. destruct (Hall _ _ Hb H16) as [tz Htz]. rewrite Hperm in Htz.
    apply elem_of_cons in Htz as [[= E _]|?]; [lia|eauto].
Qed.

Section Client.
Context (pid : Z) (h : mm_heap_s).
Hypothesis Hlock : lock_ok pid h.

(** The state between two requests. *)
Definition client_inv (bs : list (Z * Z)) (m : mem) (lv : live) : Prop :=
  exists rs fl, heap_inv (mm_nodelist h) m rs fl /\ live_ok rs lv /\ bounds rs = bs.

Lemma serve_inv bs m lv rq : client_inv bs m lv -> request_ok rq ->
  exists m' lv', serve pid (h, m, lv) rq = Ok (h, m', lv') /\ client_inv bs m' lv'.
Proof.
  intros (rs & fl & Hinv & Hlv & Hb) Hrq. destruct rq as [size|k]; cbn [serve].
  - destruct (decide (size = 0)) as [->|Hne].
    { exists m, lv. split; [done|]. by exists rs, fl. }
    simpl in Hrq. destruct (malloc_spec pid h m rs fl size Hinv Hlock ltac:(lia))
      as (m' & ret & E & [(-> & -> & _)|(rs' & fl' & a & s & sf & pf & -> & Hm & Hs & Hs16 & Hin & _ & _ & Hi & Hbd & Hal & _)]).
    + exists m, lv. split; [by rewrite E|]. by exists rs, fl.
    + destruct (in_heap_range _ _ _ _ Hinv _ Hin) as (_ & _ & _ & _ & _ & _ & Ha & _). simpl in Ha.
      exists m', ((a + 8, size) :: lv). rewrite E, bind_Ok. rewrite (proj2 (Z.eqb_neq (a + 8) 0)) by lia.
      split; [done|]. exists rs', fl'. split_and!; [done| |congruence].
      apply (live_malloc rs rs' lv a s size Hlv); [|done|lia|modlia|done].
      intros t [q Hq]. destruct (in_heap_sep _ _ _ _ Hinv _ _ Hin Hq) as [?|Hsep]; [done|].
      destruct (in_heap_range _ _ _ _ Hinv _ Hin) as (_ & _ & _ & _ & _ & ? & _).
      destruct (in_heap_range _ _ _ _ Hinv _ Hq) as (_ & _ & _ & _ & _ & ? & _). simpl in *. lia.
  - destruct (lv !! k) as [[p sz]|] eqn:Ek; [|exists m, lv; split; [done|by exists rs, fl]].
    destruct (lo_block _ _ Hlv p sz) as (s & Ha & _ & H16 & _); [by eapply list_elem_of_lookup_2|].
    destruct (free_spec pid h m rs fl (p - 8) s Hinv Hlock Ha H16) as (m' & rs' & fl' & E & Hi & Hbd & Hal & _).
    replace (p - 8 + 8) with p in E by lia. exists m', (delete k lv). rewrite E. split; [done|].
    exists rs', fl'. split_and!; [done| |congruence]. by eapply live_free.
Qed.

Lemma serve_all_inv bs m lv rqs : client_inv bs m lv -> Forall request_ok rqs ->
  exists m' lv', serve_all pid (h, m, lv) rqs = Ok (h, m', lv') /\ client_inv bs m' lv'.
Proof.
  intros Hc Hok. revert m lv Hc. induction Hok as [|rq rqs Hrq _ IH]; intros m lv Hc; cbn [serve_all].
  - by exists m, lv.
  - destruct (serve_inv bs m lv rq Hc Hrq) as (m1 & lv1 & E & Hc1). rewrite E, bind_Ok. by apply IH.
Qed.
End Client.

Lemma start_inv h m b e fl : heap_inv (mm_nodelist h) m [new_region b e] fl ->
  client_inv h (bounds [new_region b e]) m [].
Proof.
  intros Hi. exists [new_region b e], fl. split_and!; [done| |done]. split.
  - by apply NoDup_nil.
  - intros p sz H. by apply not_elem_of_nil in H.
  - intros a s [p (i & r & Hr & He)] H16. apply list_lookup_singleton_Some in Hr as [_ <-].
    simpl in He. rewrite !elem_of_cons, elem_of_nil in He. exfalso.
    destruct He as [E|[E|[E|[]]]]; injection E; intros; (lia || done).
Qed.

(** Two blocks held by the client do not overlap, headers included, and lie
    between the guards of a region. *)
Lemma client_disjoint h bs m lv i j p sp q sq :
  client_inv h bs m lv -> i <> j -> lv !! i = Some (p, sp) -> lv !! j = Some (q, sq) ->
  p + sp <= q - 8 \/ q + sq <= p - 8.
Proof.
  intros (rs & fl & Hinv & Hlv & _) Hij Hi Hj.
  destruct (lo_block _ _ Hlv p sp) as (s & [p1 H1] & ? & ? & _); [by eapply list_elem_of_lookup_2|].
  destruct (lo_block _ _ Hlv q sq) as (t & [p2 H2] & ? & ? & _); [by eapply list_elem_of_lookup_2|].
  destruct (in_heap_sep _ _ _ _ Hinv _ _ H1 H2) as [[= E _ _]|Hsep]; [|simpl in *; lia].
  exfalso. apply Hij. assert (Epq : p = q) by lia. subst q.
  apply (NoDup_lookup lv.*1 i j p (lo_nodup _ _ Hlv));
    [by rewrite list_lookup_fmap, Hi|by rewrite list_lookup_fmap, Hj].
Qed.

Lemma client_within h b e m lv p sp :
  client_inv h [(b, e)] m lv -> (p, sp) ∈ lv -> b + 16 <= p /\ p + sp <= e - 8 /\ p mod 16 = 0.
Proof.
  intros (rs & fl & Hinv & Hlv & Hb) Hin.
  destruct (lo_block _ _ Hlv p sp Hin) as (s & [q Hq] & ? & Hs & Hp).
  destruct (find_chunk _ _ _ _ _ Hinv Hq Hs) as (i & r & l1 & c2 & l2 & Hr & El & Ea & _ & _ & Ham & _).
  cbn [ea es eal] in *. assert (Hold : Forall (fun c : chunk => 16 <= c.1) [(s, true)]) by (by apply Forall_singleton).
  destruct (surgery_bounds _ _ _ _ i r l1 [(s, true)] [(s, true)] l2 c2 Hinv Hr El ltac:(done) Hold)
    as (Hok & _ & _ & Hlo & _ & Hhi & _); [|done|].
  { by destruct (mid_align r l1 _ _ (hi_ok _ _ _ _ Hinv i r Hr) El ltac:(done) Hold) as (_ & _ & _ & _ & ? & _). }
  assert (Hbe : (r_base r, r_end r) ∈ [(b, e)]).
  { rewrite <- Hb. unfold bounds. apply list_elem_of_fmap. exists r. split; [done|by eapply list_elem_of_lookup_2]. }
  apply list_elem_of_singleton in Hbe as [= E1 E2].
  pose proof (ro_base _ Hok). unfold s_hi, s_lo in *. change (total [(s, true)]) with (s + 0) in *. modlia.
Qed.

(** With nothing held, the heap is back to its single free chunk. *)
Lemma client_empty h b e m :
  client_inv h [(b, e)] m [] -> b + 32 <= e -> exists fl, heap_inv (mm_nodelist h) m [new_region b e] fl.
Proof.
  intros (rs & fl & Hinv & Hlv & Hb) Hbe. exists fl.
  destruct rs as [|r [|? ?]]; try discriminate Hb. injection Hb as E1 E2.
  destruct (hi_ok _ _ _ _ Hinv 0%nat r eq_refl) as [(l & El & Hl) _ _].
  pose proof (hi_coal _ _ _ _ Hinv 0%nat r eq_refl) as Hc. rewrite El in Hc.
  assert (Hfree : forall c, c ∈ l -> c.2 = false).
  { intros [s al] (la & lb & ->)%list_elem_of_split. destruct al; [|done]. exfalso.
    assert (Ha : allocated [r] (r_base r + total ((8, true) :: la)) s).
    { exists (lastsz 0 ((8, true) :: la)), 0%nat, r. split; [done|].
      rewrite El, <- app_assoc, app_comm_cons, entries_app. apply elem_of_app. right. by left. }
    rewrite Forall_app, Forall_cons in Hl. destruct Hl as (_ & [Hs _] & _).
    destruct (lo_all _ _ Hlv _ _ Ha Hs) as [sz []%not_elem_of_nil]. }
  assert (Er : r = new_region b e); [|by rewrite <- Er].
  unfold r_end in E2. rewrite El in E2. destruct r as [rb rc]. cbn [r_base r_chunks] in *. subst rb rc.
  destruct l as [|[s1 al1] [|[s2 al2] l]].
  - unfold total in E2. simpl in E2. lia.
  - pose proof (Hfree (s1, al1) ltac:(by left)) as Ef. simpl in Ef. subst al1.
    unfold new_region. unfold total in E2. simpl in E2. do 3 f_equal. simpl. repeat f_equal. lia.
  - pose proof (Hfree (s1, al1) ltac:(by left)) as Ef1. pose proof (Hfree (s2, al2) ltac:(right; by left)) as Ef2.
    simpl in *. subst. destruct Hc as (_ & _ & Hc & _). by specialize (Hc eq_refl).
Qed.

Lemma client_from_init pid h m start size rqs :
  let b := MM_ALIGN_UP start in let e := MM_ALIGN_DOWN (start + size) in
  0 <= pid -> init_pre h m start size -> Forall request_ok rqs ->
  exists h1 m1 m2 lv, mm_initialize h m start size = Ok (h1, m1) /\
    serve_all pid (h1, m1, []) rqs = Ok (h1, m2, lv) /\ mm_nodelist h1 = mm_nodelist h /\
    client_inv h1 [(b, e)] m2 lv.
Proof.
  intros b e Hpid Hpre Hrqs. destruct (initialize_spec h m start size Hpre) as (m1 & fl1 & E & Hi & _).
  fold b e in E, Hi. set (h1 := with_region (empty_heap h) b e) in *.
  destruct (new_region_ok _ _ _ _ _ (ip_fresh _ _ _ _ Hpre)) as (_ & _ & Hend).
  assert (Hl : lock_ok pid h1) by (by split; [|right]).
  destruct (serve_all_inv pid h1 Hl [(b, e)] m1 [] rqs) as (m2 & lv & Es & Hc); [|done|].
  { replace [(b, e)] with (bounds [new_region b e]); [by eapply start_inv|].
    unfold bounds. simpl. fold b e in Hend. by rewrite Hend. }
  by exists h1, m1, m2, lv.
Qed.

(** C8: a client that starts on a freshly initialized heap may make any sequence
    of releases and of allocations of less than 2^32 - 24 bytes: every request returns (no fault, no endless walk
    along corrupted links, no deadlock), and the blocks it then holds are aligned,
    lie inside the region and do not overlap each other or each other's header. *)
Theorem heap_client_safe pid h m start size rqs :
  let b := MM_ALIGN_UP start in let e := MM_ALIGN_DOWN (start + size) in
  0 <= pid -> init_pre h m start size -> Forall request_ok rqs ->
  exists h1 m1 m2 lv, mm_initialize h m start size = Ok (h1, m1) /\
    serve_all pid (h1, m1, []) rqs = Ok (h1, m2, lv) /\
    (forall p sp, (p, sp) ∈ lv -> b + 16 <= p /\ p + sp <= e - 8 /\ p mod 16 = 0) /\
    (forall i j p sp q sq, i <> j -> lv !! i = Some (p, sp) -> lv !! j = Some (q, sq) ->
       p + sp <= q - 8 \/ q + sq <= p - 8).
Proof.
  intros b e Hpid Hpre Hrqs.
  destruct (client_from_init pid h m start size rqs Hpid Hpre Hrqs) as (h1 & m1 & m2 & lv & E & Es & _ & Hc).
  exists h1, m1, m2, lv. split_and!; [done|done| |].
  - intros p sp. by eapply client_within.
  - intros i j p sp q sq. by eapply client_disjoint.
Qed.

Lemma heap_client_safe_witness : exists h1 m1 m2 lv,
  mm_initialize demo_heap demo_mem 8192 1030 = Ok (h1, m1) /\
  serve_all 3 (h1, m1, []) [RMalloc 100; RMalloc 40; RFree 1; RMalloc 64] = Ok (h1, m2, lv).
Proof.
  destruct (heap_client_safe 3 demo_heap demo_mem 8192 1030 [RMalloc 100; RMalloc 40; RFree 1; RMalloc 64]
    ltac:(lia) demo_pre ltac:(repeat constructor; simpl; lia)) as (h1 & m1 & m2 & lv & E & Es & _).
  exists h1, m1, m2, lv. split; [exact E|exact Es].
Defined.

(** C25: no memory is lost.  A client that has made any sequence of allocations and
    releases and then holds nothing leaves the heap with the single free chunk it
    started from: every fragment has been merged back. *)
Theorem heap_client_no_leak pid h m start size rqs h1 m1 m2 :
  let b := MM_ALIGN_UP start in let e := MM_ALIGN_DOWN (start + size) in
  0 <= pid -> init_pre h m start size -> Forall request_ok rqs ->
  mm_initialize h m start size = Ok (h1, m1) ->
  serve_all pid (h1, m1, []) rqs = Ok (h1, m2, []) ->
  exists fl, heap_inv (mm_nodelist h) m2 [new_region b e] fl.
Proof.
  intros b e Hpid Hpre Hrqs E1 E2.
  destruct (client_from_init pid h m start size rqs Hpid Hpre Hrqs) as (h1' & m1' & m2' & lv & E & Es & En & Hc).
  rewrite E1 in E. injection E as <- <-. rewrite E2 in Es. injection Es as <- <-.
  rewrite <- En. apply client_empty; [done|]. apply (fr_end _ _ _ _ _ (ip_fresh _ _ _ _ Hpre)).
Qed.

Lemma demo_returns h1 m1 m2 lv :
  serve_all 3 (h1, m1, []) [RMalloc 100; RFree 0] = Ok (h1, m2, lv) -> lv = [].
Proof.
  cbn [serve_all serve]. intros (st & E & E2)%bind_Ok_inv. apply bind_Ok_inv in E as ([[h m] p] & _ & E).
  injection E as <-. apply bind_Ok_inv in E2 as (st & E & [= ->]). destruct (p =? 0); cbn [lookup list_lookup] in E.
  - by injection E.
  - apply bind_Ok_inv in E as ([h' m'] & _ & E). by injection E.
Qed.

Lemma heap_client_no_leak_witness : exists h1 m1 m2 fl,
  mm_initialize demo_heap demo_mem 8192 1030 = Ok (h1, m1) /\
  serve_all 3 (h1, m1, []) [RMalloc 100; RFree 0] = Ok (h1, m2, []) /\
  heap_inv 4096 m2 [new_region 8192 9216] fl.
Proof.
  assert (Hok : Forall request_ok [RMalloc 100; RFree 0]) by (repeat constructor; simpl; lia).
  destruct (client_from_init 3 demo_heap demo_mem 8192 1030 [RMalloc 100; RFree 0] ltac:(lia) demo_pre Hok)
    as (h1 & m1 & m2 & lv & E & Es & _ & _).
  pose proof (demo_returns _ _ _ _ Es) as El. rewrite El in Es.
  destruct (heap_client_no_leak 3 demo_heap demo_mem 8192 1030 [RMalloc 100; RFree 0] h1 m1 m2
    ltac:(lia) demo_pre Hok E Es) as [fl Hi].
  exists h1, m1, m2, fl. split_and!; [exact E|exact Es|exact Hi].
Defined.
