(* ===== verification/MmQuery.v ===== *)
(** * Queries on the heap: [mm_mallinfo], [mm_heapmember], [mm_brkaddr] *)

From S2P Require Import Prelude Bits Links Queue MmHeap MmMore MmLayout MmFreeList MmInv MmRun MmInit MmMalloc.
Local Open Scope Z_scope.

(** The bounds tables of the heap structure describe the regions. *)
Record tables (h : mm_heap_s) (rs : list region) : Prop := {
  tb_n : mm_nregions h = length rs;
  tb_start : forall i r, rs !! i = Some r -> mm_heapstart h !! i = Some (r_base r);
  tb_end : forall i r, rs !! i = Some r -> mm_heapend h !! i = Some (r_end r - 8);
  tb_size : mm_heapsize h = total (rs ≫= r_chunks);
  tb_fits : total (rs ≫= r_chunks) < 2 ^ 32
}.

(** ** What [mm_mallinfo] counts *)

Definition frees (l : list chunk) : list chunk := filter (fun c => c.2 = false) l.
Definition useds (l : list chunk) : list chunk := filter (fun c => c.2 = true) l.
Definition largest (l : list chunk) : Z := foldr (fun c n => Z.max c.1 n) 0 l.

Definition counted (i : mallinfo) (l : list chunk) : mallinfo :=
  MallInfo (arena i) (ordblks i + Z.of_nat (length (frees l))) (Z.max (mxordblk i) (largest (frees l)))
    (uordblks i + total (useds l)) (fordblks i + total (frees l)).

Lemma total_parts l : total l = total (useds l) + total (frees l).
Proof.
  induction l as [|[s al] l IH]; [done|]. unfold useds, frees in *. rewrite !filter_cons.
  destruct al; simpl; unfold total in *; simpl; lia.
Qed.

Lemma counted_app i l1 l2 : counted (counted i l1) l2 = counted i (l1 ++ l2).
Proof.
  assert (Hl : forall x y, largest (x ++ y) = Z.max (largest x) (largest y)).
  { intros x y. induction x as [|c x IH]; simpl; [|lia]. clear. induction y; simpl; lia. }
  unfold counted, frees, useds. rewrite !filter_app, !total_app, length_app, Hl. simpl.
  f_equal; lia.
Qed.

Record info_ok (i : mallinfo) (room : Z) : Prop := {
  io_u : 0 <= uordblks i;
  io_f : 0 <= fordblks i;
  io_m : 0 <= mxordblk i;
  io_room : uordblks i + fordblks i + room < 2 ^ 32
}.

Lemma counted_one i s al room : info_ok i (s + room) -> 0 <= s -> 0 <= room ->
  counted i [(s, al)] =
    (if al then MallInfo (arena i) (ordblks i) (mxordblk i) (u32 (uordblks i + s)) (fordblks i)
     else MallInfo (arena i) (ordblks i + 1) (if mxordblk i <? s then s else mxordblk i)
            (uordblks i) (u32 (fordblks i + s))) /\
  info_ok (counted i [(s, al)]) room.
Proof.
  intros [Hu Hf Hm Hr] Hs Hroom. rewrite !u32_small by lia.
  unfold counted, frees, useds. rewrite !filter_cons, filter_nil. destruct al; simpl; unfold total; simpl.
  - split; [f_equal; lia|]. split; simpl; lia.
  - split; [f_equal; try lia|split; simpl; lia]. destruct (mxordblk i <? s) eqn:E; b2p; lia.
Qed.

(** The walk along a region visits its chunks up to the guard at [e]. *)
Lemma mallinfo_walk_spec m l : forall fuel a p e i room,
  Forall (fun c : chunk => 8 <= c.1) l -> 0 <= room ->
  (forall x, x ∈ entries a p l -> hdr m x /\ 0 <= ep x < 2 ^ 31) ->
  0 < a -> e = a + total l -> info_ok i (total l + room) -> (length l < fuel)%nat ->
  mallinfo_walk fuel m a e i = Ok (counted i l) /\ info_ok (counted i l) room.
Proof.
  induction l as [|[s al] l IH]; intros fuel a p e i room Hs Hroom Hh Ha He Hi Hfuel;
    (destruct fuel as [|fuel]; [simpl in Hfuel; lia|]); cbn [mallinfo_walk].
  - unfold total in *. simpl in *. rewrite (proj2 (Z.ltb_ge a e)) by lia.
    assert (E : counted i [] = i).
    { unfold counted, frees, useds, total. destruct i, Hi. simpl in *. f_equal; lia. }
    by rewrite E.
  - apply Forall_cons in Hs as [Hs8 Hs]. simpl in Hs8. pose proof (total_nonneg _ Hs) as Ht.
    assert (Et : total ((s, al) :: l) = s + total l) by done. rewrite Et in *.
    destruct (Hh (Entry a s p al)) as [[E1 E2] Hp]; [by left|]. cbn [ea es ep eal] in *.
    rewrite (proj2 (Z.ltb_lt a e)) by lia. run. rewrite land_enc_eqb by lia.
    destruct (counted_one i s al (total l + room)) as [Ec Hi']; [by rewrite Z.add_assoc|lia|lia|].
    destruct (IH fuel (a + s) s e (counted i [(s, al)]) room) as [IH1 IH2]; try done; try lia.
    + intros x Hx. apply Hh. by right.
    + simpl in Hfuel. lia.
    + rewrite counted_app in IH1, IH2. split; [|exact IH2].
      etransitivity; [|exact IH1]. f_equal. rewrite Ec. by destruct al.
Qed.

Section Regions.
Context (h : mm_heap_s) (m : mem) (rs : list region) (fl : list fnode) (pid : Z).
Hypothesis Hinv : heap_inv (mm_nodelist h) m rs fl.
Hypothesis Htab : tables h rs.
Hypothesis Hlock : lock_ok pid h.

(** One region: all chunks but the last guard by the walk, the guard apart. *)
Lemma mallinfo_region i r info room :
  rs !! i = Some r -> info_ok info (total (r_chunks r) + room) -> 0 <= room ->
  exists l info', r_chunks r = l ++ [(8, true)] /\
    mallinfo_walk (walk_fuel m) m (r_base r) (r_end r - 8) info = Ok info' /\
    counted info (r_chunks r) = MallInfo (arena info') (ordblks info') (mxordblk info')
      (u32 (uordblks info' + SIZEOF_MM_ALLOCNODE)) (fordblks info') /\
    info_ok (counted info (r_chunks r)) room.
Proof.
  intros Hr Hi Hroom. pose proof (hi_ok _ _ _ _ Hinv i r Hr) as Hok.
  destruct (ro_shape _ Hok) as (l0 & El & _). set (l := (8, true) :: l0).
  assert (El' : r_chunks r = l ++ [(8, true)]) by done. exists l, (counted info l).
  pose proof (region_sizes r Hok) as Hs. rewrite El' in Hs. apply Forall_app in Hs as [Hs _].
  pose proof (total_nonneg _ Hs) as Ht. pose proof (ro_base _ Hok) as [Hb _].
  assert (Etot : total (r_chunks r) = total l + 8) by (rewrite El', total_app; done).
  destruct (mallinfo_walk_spec m l (walk_fuel m) (r_base r) 0 (r_end r - 8) info (8 + room)) as [Hw Hi']; try done; try lia.
  - intros x Hx. assert (Hin : in_heap rs x).
    { exists i, r. split; [done|]. rewrite El', entries_app. apply elem_of_app. by left. }
    split; [by apply (hi_hdr _ _ _ _ Hinv)|].
    destruct (entries_split _ _ _ _ Hx) as (x1 & x2 & Ex & _ & ->).
    apply (region_lastsz r x1 ((es x, eal x) :: x2 ++ [(8, true)]) Hok). by rewrite El', Ex, <- app_assoc.
  - unfold r_end. lia.
  - replace (total l + (8 + room)) with (total (r_chunks r) + room) by lia. done.
  - unfold walk_fuel. apply Nat.lt_succ_r.
    rewrite <- (length_entries (r_base r) 0 l), <- (length_fmap ea).
    apply nodup_length_size; [by apply entries_nodup|].
    intros x (y & -> & Hy)%list_elem_of_fmap.
    destruct (hi_hdr _ _ _ _ Hinv y) as [E _]; [|eauto].
    exists i, r. split; [done|]. rewrite El', entries_app. apply elem_of_app. by left.
  - split_and!; [done|done|..].
    + rewrite El', <- counted_app. by destruct (counted_one (counted info l) 8 true room) as [-> _].
    + rewrite El', <- counted_app. by apply counted_one.
Qed.

Lemma mallinfo_regions_spec rest : forall dn info room,
  rs = dn ++ rest -> info_ok info (total (rest ≫= r_chunks) + room) -> 0 <= room ->
  mallinfo_regions (length rest) pid h m (length dn) info = Ok (h, counted info (rest ≫= r_chunks)) /\
  info_ok (counted info (rest ≫= r_chunks)) room.
Proof.
  induction rest as [|r rest IH]; intros dn info room Ers Hi Hroom; cbn [length mallinfo_regions].
  - assert (E : counted info [] = info).
    { unfold counted, frees, useds, total. destruct info, Hi. simpl in *. f_equal; lia. }
    simpl. rewrite E. split; [done|]. destruct Hi. by split.
  - assert (Hr : rs !! length dn = Some r) by (rewrite Ers; by apply list_lookup_middle).
    rewrite bind_cons in *. rewrite total_app in Hi.
    assert (Hrest : 0 <= total (rest ≫= r_chunks)).
    { apply total_nonneg, Forall_bind. apply Forall_forall. intros r' Hr'.
      apply list_elem_of_lookup in Hr' as [j Hj]. apply region_sizes, (hi_ok _ _ _ _ Hinv (length dn + S j)%nat).
      rewrite Ers, lookup_app_r by lia. replace (length dn + S j - length dn)%nat with (S j) by lia. done. }
    destruct (mallinfo_region (length dn) r info (total (rest ≫= r_chunks) + room) Hr)
      as (l & info' & _ & Hw & Hc & Hi'); [by rewrite Z.add_assoc|lia|].
    destruct (lock_pair _ _ Hlock) as (h1 & Et & Eg & _).
    assert (Eh : mm_heapstart h1 = mm_heapstart h /\ mm_heapend h1 = mm_heapend h).
    { revert Et. unfold mm_takesemaphore. repeat case_match; intros [= <-]; done. }
    destruct Eh as [Es Ee]. rewrite Et, bind_Ok, Es, Ee. unfold array_get.
    rewrite (tb_start _ _ Htab _ _ Hr), (tb_end _ _ Htab _ _ Hr), !bind_Ok, Hw, bind_Ok, Eg. cbv zeta.
    rewrite <- Hc. destruct (IH (dn ++ [r]) (counted info (r_chunks r)) room) as [IH1 IH2]; try done.
    { by rewrite Ers, <- app_assoc. }
    rewrite length_app in IH1. simpl in IH1. rewrite Nat.add_1_r in IH1.
    rewrite counted_app in IH1, IH2. done.
Qed.

Lemma mallinfo_spec : mm_mallinfo pid h m = Ok (h, counted (MallInfo (mm_heapsize h) 0 0 0 0) (rs ≫= r_chunks)).
Proof.
  unfold mm_mallinfo. rewrite (tb_n _ _ Htab).
  destruct (mallinfo_regions_spec rs [] (MallInfo 0 0 0 0 0) 0) as [E _]; [done| |lia|].
  { pose proof (tb_fits _ _ Htab). split; simpl; lia. }
  simpl in E. rewrite E, bind_Ok. done.
Qed.

End Regions.

Lemma elem_chunks rs s al : (s, al) ∈ rs ≫= r_chunks <-> exists a p, in_heap rs (Entry a s p al).
Proof.
  rewrite list_elem_of_bind. split.
  - intros (r & Hc & Hr). apply list_elem_of_lookup in Hr as [i Hr].
    apply list_elem_of_split in Hc as (l1 & l2 & El).
    exists (r_base r + total l1), (lastsz 0 l1), i, r. split; [done|].
    rewrite El, entries_app. apply elem_of_app. right. by left.
  - intros (a & p & i & r & Hr & He). exists r. split; [|by eapply list_elem_of_lookup_2].
    destruct (entries_split _ _ _ _ He) as (l1 & l2 & El & _). simpl in El. rewrite El. set_solver.
Qed.

Lemma largest_bound l c : c ∈ l -> c.1 <= largest l.
Proof.
  induction l as [|d l IH]; [set_solver|]. intros [->|Hc]%elem_of_cons; simpl; [lia|]. specialize (IH Hc). lia.
Qed.

Lemma largest_elem l : l <> [] -> Forall (fun c : chunk => 0 <= c.1) l -> exists c, c ∈ l /\ c.1 = largest l.
Proof.
  induction l as [|d l IH]; [done|]. intros _ [Hd Hl]%Forall_cons.
  destruct l as [|e l]; [exists d; simpl; split; [by left|lia]|].
  destruct IH as (c & Hc & Ec); [done|done|]. change (largest (d :: e :: l)) with (Z.max d.1 (largest (e :: l))).
  destruct (Z.max_spec d.1 (largest (e :: l))) as [[_ ->]|[_ ->]]; [exists c|exists d]; set_solver.
Qed.

(** on a well-formed heap [mm_mallinfo] terminates and reports exactly what is in
    the heap: the number, the total and the largest size of the free chunks and the
    total of the allocated ones; these totals add up to [arena], the size of the
    heap (which the code only asserts). *)
Theorem mm_mallinfo_correct pid h m rs fl :
  heap_inv (mm_nodelist h) m rs fl -> tables h rs -> lock_ok pid h ->
  exists i, mm_mallinfo pid h m = Ok (h, i) /\
    arena i = mm_heapsize h /\ uordblks i + fordblks i = arena i /\
    ordblks i = Z.of_nat (length (frees (rs ≫= r_chunks))) /\
    fordblks i = total (frees (rs ≫= r_chunks)) /\
    (forall a s p, in_heap rs (Entry a s p false) -> s <= mxordblk i) /\
    (0 < ordblks i -> exists a p, in_heap rs (Entry a (mxordblk i) p false)).
Proof.
  intros Hinv Htab Hlock. eexists. split; [by eapply mallinfo_spec|].
  unfold counted. cbn [arena ordblks mxordblk uordblks fordblks].
  assert (Hfree : forall s, (s, false) ∈ frees (rs ≫= r_chunks) <-> exists a p, in_heap rs (Entry a s p false)).
  { intros s. unfold frees. rewrite list_elem_of_filter, elem_chunks. simpl. naive_solver. }
  split_and!; [done|rewrite (tb_size _ _ Htab), (total_parts (rs ≫= r_chunks)); lia|lia|lia|..].
  - intros a s p Hp. assert (Hin : (s, false) ∈ frees (rs ≫= r_chunks)) by (apply Hfree; eauto).
    apply largest_bound in Hin. simpl in Hin. lia.
  - intros Hn. destruct (largest_elem (frees (rs ≫= r_chunks))) as ([s al] & Hc & Es).
    + by destruct (frees (rs ≫= r_chunks)).
    + apply Forall_forall. intros [s al] Hs. apply list_elem_of_filter in Hs as [_ Hs].
      apply elem_chunks in Hs as (a & p & Hp).
      destruct (in_heap_range _ _ _ _ Hinv _ Hp) as (_ & _ & _ & _ & _ & ? & _). simpl in *. lia.
    + assert (al = false) as -> by (by apply list_elem_of_filter in Hc as [? _]).
      apply Hfree. simpl in Es. rewrite Es in Hc.
      destruct (Z.max_spec 0 (largest (frees (rs ≫= r_chunks)))) as [[_ ->]|[? ->]]; [done|].
      apply Hfree in Hc as (a & p & Hp). apply Hfree.
      destruct (in_heap_range _ _ _ _ Hinv _ Hp) as (_ & _ & _ & _ & _ & ? & _). simpl in *. lia.
Qed.

Lemma demo_tables : tables demo_heap1 [new_region 8192 9216].
Proof.
  split; [done|..|done|done]; intros i r Hr; apply list_lookup_singleton_Some in Hr as [-> <-]; done.
Qed.

Lemma mm_mallinfo_witness : exists m i,
  mm_initialize demo_heap demo_mem 8192 1030 = Ok (demo_heap1, m) /\
  mm_mallinfo 3 demo_heap1 m = Ok (demo_heap1, i) /\ ordblks i = 1 /\ fordblks i = 1008.
Proof.
  destruct demo_inv as (m & fl & E & Hi).
  destruct (mm_mallinfo_correct 3 demo_heap1 m [new_region 8192 9216] fl Hi demo_tables demo_lock)
    as (i & Ei & _ & _ & Ho & Hf & _).
  exists m, i. split_and!; [exact E|exact Ei|exact Ho|exact Hf].
Defined.

(** ** Membership *)

Lemma heapmember_loop_spec h memp : forall n i,
  (forall j, (i <= j < i + n)%nat -> is_Some (mm_heapstart h !! j) /\ is_Some (mm_heapend h !! j)) ->
  exists b, heapmember_loop n h memp i = Ok b /\
    (b = true <-> exists j s e, (i <= j < i + n)%nat /\ mm_heapstart h !! j = Some s /\
       mm_heapend h !! j = Some e /\ s < memp < e).
Proof.
  induction n as [|n IH]; intros i Hj; cbn [heapmember_loop].
  - exists false. split; [done|]. split; [done|]. intros (j & s & e & ? & _). lia.
  - destruct (Hj i ltac:(lia)) as [[s Es] [e Ee]]. unfold array_get at 1 2. rewrite Es, Ee, !bind_Ok.
    destruct ((s <? memp) && (memp <? e)) eqn:E.
    + exists true. split; [done|]. split; [|done]. intros _. exists i, s, e. b2p. split_and!; (done || lia).
    + destruct (IH (S i)) as (b & Eb & Hb); [intros j ?; apply Hj; lia|]. exists b. split; [done|].
      rewrite Hb. split; intros (j & s' & e' & Hr & Hs & He & Hm).
      * exists j, s', e'. split_and!; (done || lia).
      * exists j, s', e'. split_and!; try done; try lia. destruct (decide (j = i)) as [->|]; [|lia].
        simplify_eq. apply andb_false_iff in E as [E|E]; b2p; lia.
Qed.

(** [mm_heapmember] is true exactly for the addresses between the two guards of
    some region; in particular for every block that the heap has handed out. *)
Theorem mm_heapmember_correct h m rs fl memp :
  heap_inv (mm_nodelist h) m rs fl -> tables h rs ->
  exists b, mm_heapmember h memp = Ok b /\
    (b = true <-> exists i r, rs !! i = Some r /\ r_base r < memp < r_end r - 8) /\
    (forall a s, allocated rs a s -> 16 <= s -> memp = a + 8 -> b = true).
Proof.
  intros Hinv Htab. unfold mm_heapmember. rewrite (tb_n _ _ Htab).
  destruct (heapmember_loop_spec h memp (length rs) 0) as (b & E & Hb).
  { intros j Hj. destruct (lookup_lt_is_Some_2 rs j) as [r Hr]; [lia|].
    rewrite (tb_start _ _ Htab _ _ Hr), (tb_end _ _ Htab _ _ Hr). eauto. }
  assert (Hb' : b = true <-> exists i r, rs !! i = Some r /\ r_base r < memp < r_end r - 8).
  { rewrite Hb. split.
    - intros (j & s & e & Hj & Es & Ee & Hm). destruct (lookup_lt_is_Some_2 rs j) as [r Hr]; [lia|].
      rewrite (tb_start _ _ Htab _ _ Hr) in Es. rewrite (tb_end _ _ Htab _ _ Hr) in Ee. simplify_eq. eauto.
    - intros (i & r & Hr & Hm). exists i, (r_base r), (r_end r - 8).
      split_and!; [lia|apply lookup_lt_Some in Hr; lia|by apply Htab|by apply Htab|lia|lia]. }
  exists b. split_and!; [done|done|]. intros a s [p Hp] Hs ->. apply Hb'.
  destruct (find_chunk _ _ _ _ _ Hinv Hp Hs) as (i & r & l1 & c2 & l2 & Hr & El & Ea & _).
  exists i, r. split; [done|]. cbn [ea es eal] in *.
  assert (Hold : Forall (fun c : chunk => 16 <= c.1) [(s, true)]) by (by apply Forall_singleton).
  destruct (surgery_bounds _ _ _ _ i r l1 [(s, true)] [(s, true)] l2 c2 Hinv Hr El ltac:(done) Hold)
    as (_ & _ & _ & Hlo & Hlh & Hhi & _); [|done|].
  { by destruct (mid_align r l1 _ _ (hi_ok _ _ _ _ Hinv i r Hr) El ltac:(done) Hold) as (_ & _ & _ & _ & ? & _). }
  unfold s_hi, s_lo in *. change (total [(s, true)]) with (s + 0) in *. lia.
Qed.

Lemma mm_heapmember_witness : exists m b,
  mm_initialize demo_heap demo_mem 8192 1030 = Ok (demo_heap1, m) /\
  mm_heapmember demo_heap1 8300 = Ok b /\ b = true.
Proof.
  destruct demo_inv as (m & fl & E & Hi).
  destruct (mm_heapmember_correct demo_heap1 m [new_region 8192 9216] fl 8300 Hi demo_tables) as (b & Eb & Hb & _).
  exists m, b. split_and!; [exact E|exact Eb|]. apply Hb. exists 0%nat, (new_region 8192 9216).
  split; [reflexivity|]. change (8192 < 8300 < r_end (new_region 8192 9216) - 8).
  change (r_end (new_region 8192 9216)) with 9216. lia.
Defined.
