(* ===== verification/MmZero.v ===== *)
(** * Writing to blocks; zeroed allocation; sizes that wrap *)

From S2P Require Import Prelude Bits Links Queue MmHeap MmMore MmLayout MmFreeList MmInv MmRun MmInit MmMalloc.
Local Open Scope Z_scope.

(** Whatever a client writes to the payload of its block, the heap stays well formed. *)
Lemma payload_write_inv nl m m' rs fl a s :
  heap_inv nl m rs fl -> allocated rs a s -> dom m' = dom m ->
  (forall w, w < a + 8 \/ a + s <= w -> m' !! w = m !! w) -> heap_inv nl m' rs fl.
Proof.
  intros Hinv [p Hp] Hd Hw. split; try apply Hinv.
  - intros i r w Hr Hrange Hw4. apply elem_of_dom. rewrite Hd. apply elem_of_dom. by eapply Hinv.
  - intros e He. destruct (hi_hdr _ _ _ _ Hinv e He) as [E1 E2].
    destruct (in_heap_range _ _ _ _ Hinv _ He) as (_ & _ & _ & _ & _ & ? & _).
    destruct (in_heap_sep _ _ _ _ Hinv _ _ Hp He) as [<-|Hsep];
      split; cbn [ea es ep eal] in *; rewrite Hw by lia; done.
  - eapply flist_frame; [|apply Hinv]. intros f Hf.
    destruct (fl_away _ _ _ _ Hinv _ f Hp Hf) as [(q & _ & [=])|Haway]. cbn [ea es] in Haway.
    split_and!; apply Hw; lia.
Qed.

(** A block of the heap is made of mapped words. *)
Lemma block_mapped nl m rs fl a s w :
  heap_inv nl m rs fl -> allocated rs a s -> 16 <= s -> a <= w < a + s -> (w - a) mod 4 = 0 -> is_Some (m !! w).
Proof.
  intros Hinv [p Hp] Hs Hw Hm. destruct (find_chunk _ _ _ _ _ Hinv Hp Hs) as (_ & _ & _ & _ & _ & _ & _ & _ & _ & _ & Ham & _).
  apply (chunk_mapped _ _ _ _ _ _ Hinv Hp); cbn [ea es] in *; [lia|modlia].
Qed.

(** The low [r] bytes of the word at [last] are cleared, the rest is kept. *)
Lemma memset_zero_spec m a size :
  0 < a -> 0 <= size -> (forall j, 0 <= 4 * j < size -> is_Some (m !! (a + 4 * j))) ->
  exists m', memset_zero m a size = Ok m' /\ dom m' = dom m /\
    (forall j, 0 <= j < size / 4 -> m' !! (a + 4 * j) = Some 0) /\
    (forall w, w < a \/ a + size <= w -> m' !! w = m !! w).
Proof.
  intros Ha Hsz Hm. unfold memset_zero.
  assert (Hq : 0 <= size / 4) by (apply Z.div_pos; lia).
  destruct (clear_words_spec (Z.to_nat (size / 4)) m a Ha) as (m1 & E & Hd & Hz & Ho).
  { intros j Hj. apply Hm. modlia. }
  rewrite Z2Nat.id in * by done. rewrite E, bind_Ok. cbv zeta.
  destruct (size mod 4 =? 0) eqn:Er; b2p.
  - exists m1. split_and!; [done|done|done|]. intros w Hw. apply Ho. modlia.
  - assert (Hlast : is_Some (m1 !! (a + 4 * (size / 4)))).
    { rewrite Ho by lia. apply Hm. modlia. }
    destruct Hlast as [v Hv]. rewrite (load_Ok m1 _ v), bind_Ok, store_Ok by (done || eauto || lia).
    eexists. split_and!; [done|rewrite dom_insert_lookup_L; eauto|..].
    + intros j Hj. rewrite lookup_insert_ne by lia. by apply Hz.
    + intros w Hw. rewrite lookup_insert_ne by modlia. apply Ho. modlia.
Qed.

Lemma zalloc_spec pid h m rs fl size :
  heap_inv (mm_nodelist h) m rs fl -> lock_ok pid h -> 1 <= size < 2 ^ 32 - 24 ->
  exists m' ret, mm_zalloc pid h m size = Ok (h, m', ret) /\
    ((ret = 0 /\ m' = m /\ forall a s p, in_heap rs (Entry a s p false) -> s < size + 8) \/
     (exists rs' fl' a s, ret = a + 8 /\ size + 8 <= s /\ heap_inv (mm_nodelist h) m' rs' fl' /\
        (forall b t, allocated rs' b t <-> allocated rs b t \/ (b = a /\ t = s)) /\
        (forall j, 0 <= j < size / 4 -> m' !! (ret + 4 * j) = Some 0) /\
        (forall b t w, allocated rs b t -> b + 8 <= w < b + t -> m' !! w = m !! w))).
Proof.
  intros Hinv Hlock Hsize. unfold mm_zalloc.
  destruct (malloc_spec pid h m rs fl size Hinv Hlock Hsize)
    as (m1 & ret & E & [(-> & -> & Hno)|(rs' & fl' & a & s & sf & pf & -> & _ & Hs & Hs16 & Hin & _ & _ & Hi & _ & Hal & Hpay)]).
  { exists m, 0. rewrite E. split; [done|]. by left. }
  destruct (in_heap_range _ _ _ _ Hinv _ Hin) as (_ & _ & _ & _ & _ & Hsf & Ha & _). cbn [ea es] in Ha, Hsf.
  assert (Hnew : allocated rs' a s) by (apply Hal; by right).
  destruct (memset_zero_spec m1 (a + 8) size) as (m2 & E2 & Hd & Hz & Ho); [lia|lia| |].
  { intros j Hj. eapply (block_mapped _ _ _ _ a s _ Hi Hnew); modlia. }
  exists m2, (a + 8). rewrite E, bind_Ok, (proj2 (Z.eqb_neq (a + 8) 0)), E2, bind_Ok by lia. split; [done|].
  right. exists rs', fl', a, s. split_and!; try done; try lia.
  - eapply (payload_write_inv _ m1 _ _ _ a s Hi Hnew Hd). intros w Hw. apply Ho. lia.
  - intros b t w Hb Hw. rewrite <- (Hpay b t w Hb Hw). apply Ho. destruct Hb as [q Hq].
    assert (Hq' : allocated rs' b t) by (apply Hal; left; by exists q).
    destruct Hq' as [q' Hq'], Hnew as [pn Hn].
    destruct (in_heap_sep _ _ _ _ Hi _ _ Hn Hq') as [[= <- <- _]|Hsep]; [|simpl in Hsep; lia].
    exfalso. destruct (in_heap_sep _ _ _ _ Hinv _ _ Hin Hq) as [?|Hsep]; [done|]. simpl in Hsep. lia.
Qed.

(** [mm_calloc] never hands out a block for a product that does not fit in
    [size_t]: it then returns NULL and changes nothing.  Otherwise it returns NULL
    only when no free chunk is large enough, or a block of at least [n * elem_size]
    bytes whose words are all zero, keeping the heap well formed and the contents
    of the other blocks. *)
Theorem mm_calloc_correct pid h m rs fl n elem_size :
  heap_inv (mm_nodelist h) m rs fl -> lock_ok pid h -> 1 <= n < 2 ^ 32 -> 1 <= elem_size < 2 ^ 32 ->
  (2 ^ 32 <= n * elem_size -> mm_calloc pid h m n elem_size = Ok (h, m, 0)) /\
  (n * elem_size < 2 ^ 32 - 24 -> exists m' ret, mm_calloc pid h m n elem_size = Ok (h, m', ret) /\
    ((ret = 0 /\ m' = m /\ forall a s p, in_heap rs (Entry a s p false) -> s < n * elem_size + 8) \/
     (exists rs' fl' a s, ret = a + 8 /\ n * elem_size + 8 <= s /\ heap_inv (mm_nodelist h) m' rs' fl' /\
        (forall b t, allocated rs' b t <-> allocated rs b t \/ (b = a /\ t = s)) /\
        (forall j, 0 <= j < n * elem_size / 4 -> m' !! (ret + 4 * j) = Some 0) /\
        (forall b t w, allocated rs b t -> b + 8 <= w < b + t -> m' !! w = m !! w)))).
Proof.
  intros Hinv Hlock Hn He. unfold mm_calloc. rewrite (proj2 (Z.ltb_lt 0 n)), (proj2 (Z.ltb_lt 0 elem_size)) by lia.
  cbn [andb]. unfold SIZE_MAX. split.
  - intros Hbig. rewrite (proj2 (Z.leb_gt n _)); [done|]. apply Z.div_lt_upper_bound; lia.
  - intros Hsmall. rewrite (proj2 (Z.leb_le n _)) by (apply Z.div_le_lower_bound; lia).
    rewrite u32_small by nia. apply (zalloc_spec pid h m rs fl); [done|done|nia].
Qed.

Lemma mm_calloc_witness : exists m m' ret,
  mm_initialize demo_heap demo_mem 8192 1030 = Ok (demo_heap1, m) /\
  mm_calloc 3 demo_heap1 m 10 6 = Ok (demo_heap1, m', ret) /\ ret <> 0 /\ m' !! (ret + 4 * 14) = Some 0 /\
  mm_calloc 3 demo_heap1 m 65536 65536 = Ok (demo_heap1, m, 0).
Proof.
  destruct demo_inv as (m & fl & E & Hi).
  destruct (mm_calloc_correct 3 demo_heap1 m [new_region 8192 9216] fl 10 6 Hi demo_lock ltac:(lia) ltac:(lia)) as [_ H1].
  destruct (mm_calloc_correct 3 demo_heap1 m [new_region 8192 9216] fl 65536 65536 Hi demo_lock ltac:(lia) ltac:(lia)) as [H2 _].
  destruct (H1 ltac:(lia)) as (m' & ret & E1 & [(_ & _ & Hno)|(rs' & fl' & a & s & -> & _ & Hi' & Hal & Hz & _)]).
  { specialize (Hno _ _ _ demo_free). lia. }
  exists m, m', (a + 8). split_and!; [exact E|exact E1| |apply Hz; vm_compute; split; congruence|exact (H2 ltac:(lia))].
  destruct (proj2 (Hal a s) ltac:(right; split; reflexivity)) as [p Hp].
  destruct (in_heap_range _ _ _ _ Hi' _ Hp) as (_ & _ & _ & _ & _ & _ & Ha & _). simpl in Ha. lia.
Defined.

(** [mm_malloc] does not reject sizes whose rounding wraps (its check is an
    assertion that release builds do not contain): a request for any of the last
    seven sizes of [size_t] is served as a request for one byte. *)
Theorem mm_malloc_wraps pid h m size :
  2 ^ 32 - 8 < size < 2 ^ 32 -> mm_malloc pid h m size = mm_malloc pid h m 1.
Proof.
  intros Hs. unfold mm_malloc. rewrite (proj2 (Z.ltb_ge size 1)) by lia.
  replace (MM_ALIGN_UP (u32 (size + SIZEOF_MM_ALLOCNODE))) with 16; [done|].
  unfold SIZEOF_MM_ALLOCNODE. assert (E : u32 (size + 8) = size + 8 - 2 ^ 32) by (unfold u32; modlia).
  rewrite E. destruct (align_up_spec (size + 8 - 2 ^ 32)) as [Hm Hr]; [lia|]. modlia.
Qed.

Lemma mm_malloc_wraps_witness :
  mm_malloc 3 demo_heap1 demo_mem 4294967295 = mm_malloc 3 demo_heap1 demo_mem 1.
Proof. apply mm_malloc_wraps. lia. Defined.

(** ** A read past the heap in [mm_realloc]

    A heap whose only region, 8192 to 8320, is all the memory there is.  The client
    allocates the two halves, releases the first one and asks for eight more words
    for the second, which ends at the last guard. *)
Definition small_mem : mem := zeros 4096 76 ∪ zeros 8192 32.

Definition realloc_last_block : res Z :=
  '(h, m) ← mm_initialize demo_heap small_mem 8192 128;
  '(h, m, p) ← mm_malloc 3 h m 40;
  '(h, m, q) ← mm_malloc 3 h m 56;
  '(h, m) ← mm_free 3 h m p;
  '(h, m, q) ← mm_realloc 3 h m q 72;
  Ok q.

(** The copy of [mm_realloc] uses the size of the extended block.  When the last
    block of the heap grows into its free predecessor, the word at 8320 and those
    after it are read, past the end of the heap. *)
Lemma mm_realloc_reads_past_end : realloc_last_block = Err (BadAddr 8320).
Proof. vm_compute. reflexivity. Qed.
