(* ===== verification/Wdog.v ===== *)
(** * Watchdog timers (src/nuttx/sched/wdog)

    A watchdog is a node of a singly linked queue: its [next] field is the link
    of that queue and is kept in the map [wd_next]; its other fields are in
    [wd_tab].  The active watchdogs are queued by expiration time, each with its
    delay relative to the one before ([lag]).  The configuration is that of the
    chewie build: no tickless mode, no SMP, CONFIG_MAX_WDOGPARMS = 2,
    CONFIG_PREALLOC_WDOGS = 16, CONFIG_WDOG_INTRESERVE = 4. *)

From S2P Require Import Prelude Bits Links Queue.
Import Sq.
Local Open Scope Z_scope.

Record wdog_s := Wdog { lag : Z; flags : Z; func : Z; argc : Z; parm : list Z }.

Record wd_state := WdState {
  wd_next : mem;
  wd_tab : gmap Z wdog_s;
  g_wdactivelist : sq_queue_s;
  g_wdfreelist : sq_queue_s;
  g_wdnfree : Z
}.

Definition CONFIG_MAX_WDOGPARMS : Z := 2.
Definition CONFIG_PREALLOC_WDOGS : nat := 16.
Definition CONFIG_WDOG_INTRESERVE : Z := 4.

Definition WDOGF_ACTIVE : Z := Z.shiftl 1 0.
Definition WDOGF_ALLOCED : Z := Z.shiftl 1 1.
Definition WDOGF_STATIC : Z := Z.shiftl 1 2.

Definition set_lag (w : wdog_s) (l : Z) : wdog_s := Wdog l (flags w) (func w) (argc w) (parm w).
Definition set_flags (w : wdog_s) (f : Z) : wdog_s := Wdog (lag w) f (func w) (argc w) (parm w).

Definition WDOG_SETACTIVE (w : wdog_s) : wdog_s := set_flags w (Z.lor (flags w) WDOGF_ACTIVE).
Definition WDOG_CLRACTIVE (w : wdog_s) : wdog_s := set_flags w (Z.land (flags w) (255 - WDOGF_ACTIVE)).
Definition WDOG_ISACTIVE (w : wdog_s) : bool := negb (Z.land (flags w) WDOGF_ACTIVE =? 0).
Definition WDOG_ISALLOCED (w : wdog_s) : bool := negb (Z.land (flags w) WDOGF_ALLOCED =? 0).
Definition WDOG_ISSTATIC (w : wdog_s) : bool := negb (Z.land (flags w) WDOGF_STATIC =? 0).

(** ** Access to the fields of a watchdog *)

Definition wd_get (st : wd_state) (p : Z) : res wdog_s :=
  if p =? 0 then Err (BadAddr 0)
  else match wd_tab st !! p with Some w => Ok w | None => Err (BadAddr p) end.

Definition set_tab (st : wd_state) (p : Z) (w : wdog_s) : wd_state :=
  WdState (wd_next st) (<[p := w]> (wd_tab st)) (g_wdactivelist st) (g_wdfreelist st) (g_wdnfree st).

Definition wd_update (st : wd_state) (p : Z) (f : wdog_s -> wdog_s) : res wd_state :=
  w ← wd_get st p; Ok (set_tab st p (f w)).

Definition set_active (st : wd_state) (fl : mem) (q : sq_queue_s) : wd_state :=
  WdState fl (wd_tab st) q (g_wdfreelist st) (g_wdnfree st).

Definition set_free (st : wd_state) (fl : mem) (q : sq_queue_s) (n : Z) : wd_state :=
  WdState fl (wd_tab st) (g_wdactivelist st) q n.

Definition set_next (st : wd_state) (p v : Z) : res wd_state :=
  fl ← store (wd_next st) p v; Ok (set_active st fl (g_wdactivelist st)).

(** ** wd_initialize *)

(** The first [n] watchdogs of the pool that starts at [wdog], each [size] bytes. *)
Fixpoint wd_load_pool (n : nat) (size wdog : Z) (fl : mem) (q : sq_queue_s) : res (mem * sq_queue_s) :=
  match n with
  | O => Ok (fl, q)
  | S n => '(fl, q) ← sq_addlast fl q wdog; wd_load_pool n size (wdog + size) fl q
  end.

(** [g_wdpool] and [size] are the address of the pool and sizeof(struct wdog_s). *)
Definition wd_initialize (g_wdpool size : Z) (st : wd_state) : res wd_state :=
  '(fl, q) ← wd_load_pool CONFIG_PREALLOC_WDOGS size g_wdpool (wd_next st) sq_init;
  Ok (WdState fl (wd_tab st) sq_init q (Z.of_nat CONFIG_PREALLOC_WDOGS)).

(** ** wd_cancel and wd_gettime *)

(** [while ((curr) && (curr != wdog)) { prev = curr; curr = curr->next; }] *)
Fixpoint cancel_search (fuel : nat) (fl : mem) (prev curr wdog : Z) : res (Z * Z) :=
  match fuel with
  | O => Err Diverge
  | S fuel =>
      if (curr =? 0) || (curr =? wdog) then Ok (prev, curr)
      else n ← load fl curr; cancel_search fuel fl curr n wdog
  end.

Definition wd_isactive (st : wd_state) (wdog : Z) : res bool :=
  if wdog =? 0 then Ok false else w ← wd_get st wdog; Ok (WDOG_ISACTIVE w).

Definition wd_cancel (st : wd_state) (wdog : Z) : res (wd_state * Z) :=
  active ← wd_isactive st wdog;
  if (active : bool) then
    '(prev, curr) ← cancel_search (walk_fuel (wd_next st)) (wd_next st) 0 (sq_head (g_wdactivelist st)) wdog;
    next ← load (wd_next st) curr;
    st ←
      (if next =? 0 then Ok st
       else
         w ← wd_get st curr;
         wd_update st next (fun n => set_lag n (s32 (lag n + lag w))));
    '(fl, q, _) ←
      (if prev =? 0 then sq_remfirst (wd_next st) (g_wdactivelist st)
       else sq_remafter (wd_next st) (g_wdactivelist st) prev);
    let st := set_active st fl q in
    st ← set_next st wdog 0;
    st ← wd_update st wdog WDOG_CLRACTIVE;
    Ok (st, OK)
  else Ok (st, - EINVAL).

(** The loop of [wd_gettime]; [None] when the list ends first. *)
Fixpoint gettime_loop (fuel : nat) (st : wd_state) (curr wdog delay : Z) : res (option Z) :=
  match fuel with
  | O => Err Diverge
  | S fuel =>
      if curr =? 0 then Ok None
      else
        w ← wd_get st curr;
        let delay := s32 (delay + lag w) in
        if curr =? wdog then Ok (Some delay)
        else n ← load (wd_next st) curr; gettime_loop fuel st n wdog delay
  end.

Definition wd_gettime (st : wd_state) (wdog : Z) : res Z :=
  active ← wd_isactive st wdog;
  if (active : bool) then
    r ← gettime_loop (walk_fuel (wd_next st)) st (sq_head (g_wdactivelist st)) wdog 0;
    Ok (default 0 r)
  else Ok 0.

(** ** wd_create and wd_delete *)

(** [in_isr] is up_interrupt_context(); [newmem] is what kmm_malloc returns, with
    contents [raw]. *)
Definition wd_create (in_isr : bool) (newmem : Z) (raw : wdog_s) (st : wd_state) : res (wd_state * Z) :=
  if (CONFIG_WDOG_INTRESERVE <? g_wdnfree st) || in_isr then
    '(fl, q, wdog) ← sq_remfirst (wd_next st) (g_wdfreelist st);
    if wdog =? 0 then Ok (set_free st fl q (g_wdnfree st), 0)
    else
      let st := set_free st fl q (u16 (g_wdnfree st - 1)) in
      st ← set_next st wdog 0;
      st ← wd_update st wdog (fun w => set_flags w 0);
      Ok (st, wdog)
  else if newmem =? 0 then Ok (st, 0)
  else
    let w := set_flags raw WDOGF_ALLOCED in
    Ok (WdState (<[newmem := 0]> (wd_next st)) (<[newmem := w]> (wd_tab st))
          (g_wdactivelist st) (g_wdfreelist st) (g_wdnfree st), newmem).

(** Returned with the status: the address given back to sched_kfree, or 0. *)
Definition wd_delete (st : wd_state) (wdog : Z) : res (wd_state * Z * Z) :=
  w ← wd_get st wdog;
  st ← (if WDOG_ISACTIVE w then '(st, _) ← wd_cancel st wdog; Ok st else Ok st);
  w ← wd_get st wdog;
  if WDOG_ISALLOCED w then
    Ok (WdState (delete wdog (wd_next st)) (delete wdog (wd_tab st))
          (g_wdactivelist st) (g_wdfreelist st) (g_wdnfree st), OK, wdog)
  else if negb (WDOG_ISSTATIC w) then
    '(fl, q) ← sq_addlast (wd_next st) (g_wdfreelist st) wdog;
    Ok (set_free st fl q (u16 (g_wdnfree st + 1)), OK, 0)
  else Ok (st, OK, 0).

(** ** wd_start *)

(** [if (delay <= 0) delay = 1; else if (++delay <= 0) delay--;]  The increment of the
    largest delay is taken to wrap around, as the test after it expects. *)
Definition wd_ticks (delay : Z) : Z :=
  if delay <=? 0 then 1
  else let d := s32 (delay + 1) in if d <=? 0 then s32 (d - 1) else d.

(** [while ((now += curr->lag) < 0 && curr->next)] *)
Fixpoint start_positive (fuel : nat) (st : wd_state) (now prev curr : Z) : res (Z * Z * Z) :=
  match fuel with
  | O => Err Diverge
  | S fuel =>
      w ← wd_get st curr;
      let now := s32 (now + lag w) in
      n ← load (wd_next st) curr;
      if (now <? 0) && negb (n =? 0) then start_positive fuel st now curr n
      else Ok (now, prev, curr)
  end.

(** [while (now <= delay && curr->next)] *)
Fixpoint start_advance (fuel : nat) (st : wd_state) (delay now prev curr : Z) : res (Z * Z * Z) :=
  match fuel with
  | O => Err Diverge
  | S fuel =>
      n ← load (wd_next st) curr;
      if (now <=? delay) && negb (n =? 0) then
        w ← wd_get st n;
        start_advance fuel st delay (s32 (now + lag w)) curr n
      else Ok (now, prev, curr)
  end.

(** Queueing [wdog] behind the shorter delays: the new state and its lag. *)
Definition start_enqueue (st : wd_state) (wdog delay : Z) : res (wd_state * Z) :=
  let head := sq_head (g_wdactivelist st) in
  if head =? 0 then
    '(fl, q) ← sq_addlast (wd_next st) (g_wdactivelist st) wdog;
    Ok (set_active st fl q, delay)
  else
    '(now, prev, curr) ← start_positive (walk_fuel (wd_next st)) st 0 head head;
    '(now, prev, curr) ← start_advance (walk_fuel (wd_next st)) st delay now prev curr;
    if delay <? now then
      w ← wd_get st curr;
      let delay := s32 (delay - s32 (now - lag w)) in
      st ← wd_update st curr (fun w => set_lag w (s32 (lag w - delay)));
      '(fl, q) ←
        (if curr =? head then sq_addfirst (wd_next st) (g_wdactivelist st) wdog
         else sq_addafter (wd_next st) (g_wdactivelist st) prev wdog);
      Ok (set_active st fl q, delay)
    else
      let delay := s32 (delay - now) in
      n ← load (wd_next st) curr;
      if n =? 0 then
        '(fl, q) ← sq_addlast (wd_next st) (g_wdactivelist st) wdog;
        Ok (set_active st fl q, delay)
      else
        st ← wd_update st n (fun w => set_lag w (s32 (lag w - delay)));
        '(fl, q) ← sq_addafter (wd_next st) (g_wdactivelist st) curr wdog;
        Ok (set_active st fl q, delay).

(** [args] are the variable arguments, of which the first [ac] are used; the
    remaining parameters are zeroed (CONFIG_DEBUG_FEATURES). *)
Definition wd_start (st : wd_state) (wdog delay wdentry ac : Z) (args : list Z) : res (wd_state * Z) :=
  if (wdog =? 0) || (CONFIG_MAX_WDOGPARMS <? ac) || (delay <? 0) then Ok (st, - EINVAL)
  else
    w ← wd_get st wdog;
    st ← (if WDOG_ISACTIVE w then '(st, _) ← wd_cancel st wdog; Ok st else Ok st);
    let parms := take (Z.to_nat ac) args ++ replicate (Z.to_nat (CONFIG_MAX_WDOGPARMS - Z.max 0 ac)) 0 in
    st ← wd_update st wdog (fun w => Wdog (lag w) (flags w) wdentry (u8 ac) parms);
    '(st, lg) ← start_enqueue st wdog (wd_ticks delay);
    st ← wd_update st wdog (fun w => set_lag w lg);
    st ← wd_update st wdog WDOG_SETACTIVE;
    Ok (st, OK).

(** ** Expiration *)

Section Expiration.
(** The effect of running a watchdog function on the watchdogs. *)
Context (call : Z -> list Z -> wd_state -> res wd_state).

(** The arguments that the switch on [argc] passes. *)
Definition wd_args (w : wdog_s) : option (list Z) :=
  match argc w with
  | 0 => Some []
  | 1 => Some (take 1 (parm w))
  | 2 => Some (take 2 (parm w))
  | _ => None
  end.

(** The [while] loop of [wd_expiration], with the calls it made. *)
Fixpoint expiration_loop (fuel : nat) (st : wd_state) : res (wd_state * list (Z * list Z)) :=
  match fuel with
  | O => Err Diverge
  | S fuel =>
      let head := sq_head (g_wdactivelist st) in
      if head =? 0 then Ok (st, [])
      else
        w ← wd_get st head;
        if 0 <? lag w then Ok (st, [])
        else
          '(fl, q, wdog) ← sq_remfirst (wd_next st) (g_wdactivelist st);
          let st := set_active st fl q in
          st ←
            (if sq_head q =? 0 then Ok st
             else
               w ← wd_get st wdog;
               wd_update st (sq_head q) (fun h => set_lag h (s32 (lag h + lag w))));
          st ← wd_update st wdog WDOG_CLRACTIVE;
          w ← wd_get st wdog;
          match wd_args w with
          | Some args =>
              st ← call (func w) args st;
              '(st, log) ← expiration_loop fuel st;
              Ok (st, (func w, args) :: log)
          | None => expiration_loop fuel st
          end
  end.

Definition wd_expiration (st : wd_state) : res (wd_state * list (Z * list Z)) :=
  w ← wd_get st (sq_head (g_wdactivelist st));
  if lag w <=? 0 then expiration_loop (walk_fuel (wd_next st)) st else Ok (st, []).

Definition wd_timer (st : wd_state) : res (wd_state * list (Z * list Z)) :=
  let head := sq_head (g_wdactivelist st) in
  if head =? 0 then Ok (st, [])
  else
    st ← wd_update st head (fun w => set_lag w (s32 (lag w - 1)));
    wd_expiration st.
End Expiration.
