(* ===== verification/WdogRep.v ===== *)
(** * Watchdog timers: what the queue of lags means

    The abstract view of the active watchdogs is the list of their addresses with
    the number of ticks left to each, in order of expiration ([timers]).  [wd_rep]
    ties a state to it; [cancel_spec], [start_spec] and [expire_spec] give the
    effect of the operations on the abstract list. *)

From S2P Require Import Prelude Bits Links Queue Wdog.
Import Sq.
Local Open Scope Z_scope.

(** Address and remaining ticks. *)
Abbreviation timers := (list (Z * Z)).

(** Each lag is the difference to the timer before. *)
Fixpoint lags_ok (tab : gmap Z wdog_s) (base : Z) (tl : timers) : Prop :=
  match tl with
  | [] => True
  | (x, r) :: tl =>
      (exists w, tab !! x = Some w /\ lag w = r - base) /\ base <= r < 2 ^ 31 /\ lags_ok tab r tl
  end.

Definition active_in (tab : gmap Z wdog_s) (l : list Z) : Prop :=
  forall x w, tab !! x = Some w -> (WDOG_ISACTIVE w = true <-> x ∈ l).

Record wd_rep (st : wd_state) (tl : timers) (fr : list Z) : Prop := {
  wr_active : sq_rep (wd_next st) (g_wdactivelist st) tl.*1;
  wr_lags : lags_ok (wd_tab st) 0 tl;
  wr_flags : active_in (wd_tab st) tl.*1;
  wr_dom : dom (wd_next st) = dom (wd_tab st);
  wr_null : 0 ∉ dom (wd_tab st);
  wr_bytes : forall x w, wd_tab st !! x = Some w -> 0 <= flags w < 256;
  wr_free : sq_rep (wd_next st) (g_wdfreelist st) fr;
  wr_disj : forall x, x ∈ fr -> x ∉ tl.*1;
  wr_nfree : g_wdnfree st = Z.of_nat (length fr) /\ Z.of_nat (length fr) < 2 ^ 16
}.

(** ** Queues *)

Lemma sq_rep_frame fl fl' q l l' : sq_rep fl q l -> frame l' fl fl' -> (forall x, x ∈ l -> x ∉ l') -> sq_rep fl' q l.
Proof.
  intros H Hf Hd. split; try apply H. eapply slinks_ext; [|apply H]. intros x Hx. by apply Hf, Hd.
Qed.

Lemma sq_head_nil fl q l : sq_rep fl q l -> (sq_head q =? 0) = match l with [] => true | _ => false end.
Proof. intros H. rewrite (sq_rep_head _ _ _ H). by destruct l. Qed.

(** ** Lags *)

Lemma lags_app tab base t1 t2 :
  lags_ok tab base (t1 ++ t2) <-> lags_ok tab base t1 /\ lags_ok tab (lastd base t1.*2) t2.
Proof.
  revert base. induction t1 as [|[x r] t1 IH]; intros base; simpl; [tauto|].
  rewrite IH, lastd_cons. tauto.
Qed.

Lemma lags_ext tab tab' base tl :
  (forall x, x ∈ tl.*1 -> lag <$> tab' !! x = lag <$> tab !! x) -> lags_ok tab base tl -> lags_ok tab' base tl.
Proof.
  revert base. induction tl as [|[x r] tl IH]; intros base HE; simpl; [done|]. intros ((w & E & El) & Hr & H).
  split; [|split; [done|]].
  - specialize (HE x ltac:(by left)). rewrite E in HE. simpl in HE.
    destruct (tab' !! x) as [w'|]; [|done]. injection HE as HE. exists w'. by rewrite HE.
  - apply IH; [|done]. intros y Hy. apply HE. by right.
Qed.

Lemma lags_last tab base tl : base < 2 ^ 31 -> lags_ok tab base tl -> base <= lastd base tl.*2 < 2 ^ 31.
Proof.
  intros Hb. revert base Hb. induction tl as [|[x r] tl IH]; intros base Hb; [intros _; unfold lastd; simpl; lia|].
  intros (_ & Hr & H). rewrite fmap_cons, lastd_cons. simpl fst in *. simpl snd in *. specialize (IH r ltac:(lia) H). lia.
Qed.

Lemma lags_range tab base tl : lags_ok tab base tl -> Forall (fun e => base <= e.2 < 2 ^ 31) tl.
Proof.
  revert base. induction tl as [|[x r] tl IH]; intros base; simpl; [constructor|]. intros (_ & Hr & H).
  constructor; [done|]. eapply Forall_impl; [by apply IH|]. simpl. lia.
Qed.

(** ** Flags *)

Lemma isactive_bit w : WDOG_ISACTIVE w = Z.testbit (flags w) 0.
Proof.
  unfold WDOG_ISACTIVE. change WDOGF_ACTIVE with (Z.ones 1). rewrite (Z.land_ones (flags w) 1) by lia.
  change (2 ^ 1) with 2. rewrite <- Z.bit0_mod. by destruct (Z.testbit (flags w) 0).
Qed.

Lemma set_active_flag w : WDOG_ISACTIVE (WDOG_SETACTIVE w) = true.
Proof. rewrite isactive_bit. unfold WDOG_SETACTIVE. cbn [flags set_flags]. by rewrite Z.lor_spec, orb_true_r. Qed.

Lemma clr_active_flag w : WDOG_ISACTIVE (WDOG_CLRACTIVE w) = false.
Proof. rewrite isactive_bit. unfold WDOG_CLRACTIVE. cbn [flags set_flags]. by rewrite Z.land_spec, andb_false_r. Qed.

Lemma flag_bytes w : 0 <= flags w < 256 ->
  0 <= flags (WDOG_SETACTIVE w) < 256 /\ 0 <= flags (WDOG_CLRACTIVE w) < 256.
Proof.
  intros H. unfold WDOG_SETACTIVE, WDOG_CLRACTIVE. cbn [flags set_flags].
  assert (Hb : forall x, 0 <= x -> (forall i, 8 <= i -> Z.testbit x i = false) -> x < 256).
  { intros x Hx Hi. destruct (Z.lt_ge_cases x 256) as [|Hge]; [done|exfalso].
    assert (Hl : 8 <= Z.log2 x) by (apply Z.log2_le_pow2; lia).
    specialize (Hi _ Hl). rewrite Z.bit_log2 in Hi by lia. done. }
  assert (Hf : forall i, 8 <= i -> Z.testbit (flags w) i = false).
  { intros i Hi. apply (testbit_high (flags w) 8); [done|lia]. }
  assert (H1 : 0 <= Z.lor (flags w) WDOGF_ACTIVE) by (apply Z.lor_nonneg; split; [lia|done]).
  assert (H2 : 0 <= Z.land (flags w) (255 - WDOGF_ACTIVE)) by (apply Z.land_nonneg; left; lia).
  split; (split; [done|apply Hb; [done|]]); intros i Hi.
  - rewrite Z.lor_spec, Hf by done. unfold WDOGF_ACTIVE. simpl.
    apply (testbit_high 1 8); lia.
  - by rewrite Z.land_spec, Hf by done.
Qed.

(** What an operation on the queue leaves alone in a watchdog. *)
Definition body (w : wdog_s) : Z * Z * list Z * Z := (func w, argc w, parm w, Z.clearbit (flags w) 0).
Definition same_bodies (st st' : wd_state) : Prop :=
  forall y, body <$> wd_tab st' !! y = body <$> wd_tab st !! y.

(** A bit of the flags other than the first. *)
Lemma flag_bit v k : 0 <= k -> negb (Z.land v (2 ^ k) =? 0) = Z.testbit v k.
Proof.
  intros Hk. destruct (Z.testbit v k) eqn:Eb.
  - destruct (Z.land v (2 ^ k) =? 0) eqn:E; [|done]. b2p.
    apply (f_equal (fun z => Z.testbit z k)) in E. rewrite Z.land_spec, Z.pow2_bits_true, Eb, Z.bits_0 in E by lia. done.
  - assert (E : Z.land v (2 ^ k) = 0); [|by rewrite E]. apply Z.bits_inj'. intros j Hj.
    rewrite Z.land_spec, Z.bits_0. destruct (decide (j = k)) as [->|]; [by rewrite Eb|].
    rewrite Z.pow2_bits_false by lia. apply andb_false_r.
Qed.

(** The body of a watchdog tells where its memory is from. *)
Lemma body_kind w w' : body w' = body w -> WDOG_ISALLOCED w' = WDOG_ISALLOCED w /\ WDOG_ISSTATIC w' = WDOG_ISSTATIC w.
Proof.
  intros Hb. assert (Ebits : forall k, 1 <= k -> Z.testbit (flags w') k = Z.testbit (flags w) k).
  { intros k Hk. apply (f_equal snd) in Hb. simpl in Hb.
    apply (f_equal (fun z => Z.testbit z k)) in Hb. rewrite !Z.clearbit_eqb in Hb.
    rewrite (proj2 (Z.eqb_neq 0 k)), !andb_true_r in Hb by lia. done. }
  unfold WDOG_ISALLOCED, WDOG_ISSTATIC. change WDOGF_ALLOCED with (2 ^ 1). change WDOGF_STATIC with (2 ^ 2).
  rewrite !flag_bit by lia. split; apply Ebits; lia.
Qed.

Lemma setactive_kind w : WDOG_ISALLOCED (WDOG_SETACTIVE w) = WDOG_ISALLOCED w /\ WDOG_ISSTATIC (WDOG_SETACTIVE w) = WDOG_ISSTATIC w.
Proof.
  unfold WDOG_ISALLOCED, WDOG_ISSTATIC, WDOG_SETACTIVE, WDOGF_ACTIVE. change WDOGF_ALLOCED with (2 ^ 1). change WDOGF_STATIC with (2 ^ 2).
  cbn [flags set_flags]. rewrite !flag_bit, !Z.lor_spec by lia. change (Z.testbit (Z.shiftl 1 0) 1) with false. change (Z.testbit (Z.shiftl 1 0) 2) with false.
  by rewrite !orb_false_r.
Qed.

Lemma body_clr w : 0 <= flags w < 256 -> body (WDOG_CLRACTIVE w) = body w.
Proof.
  intros Hf. unfold body, WDOG_CLRACTIVE. simpl. f_equal. apply Z.bits_inj'. intros i Hi.
  rewrite !Z.clearbit_eqb, Z.land_spec by lia. destruct (0 =? i) eqn:E; b2p; [by rewrite !andb_false_r|].
  cbn [negb]. rewrite !andb_true_r. destruct (decide (8 <= i)).
  - by rewrite (testbit_high (flags w) 8) by lia.
  - assert (Hc : i = 1 \/ i = 2 \/ i = 3 \/ i = 4 \/ i = 5 \/ i = 6 \/ i = 7) by lia.
    destruct Hc as [->|[->|[->|[->|[->|[->| ->]]]]]]; apply andb_true_r.
Qed.

Lemma body_set w : body (WDOG_SETACTIVE w) = body w.
Proof.
  unfold body, WDOG_SETACTIVE. simpl. f_equal. apply Z.bits_inj'. intros i Hi.
  rewrite !Z.clearbit_eqb, Z.lor_spec by lia. destruct (0 =? i) eqn:E; b2p; [by rewrite !andb_false_r|].
  f_equal. change WDOGF_ACTIVE with (2 ^ 0). rewrite Z.pow2_bits_false by lia. apply orb_false_r.
Qed.

Lemma wd_get_Ok st p w : p <> 0 -> wd_tab st !! p = Some w -> wd_get st p = Ok w.
Proof. intros Hp E. unfold wd_get. by rewrite (proj2 (Z.eqb_neq p 0)), E. Qed.

Lemma wd_update_Ok st p w f : p <> 0 -> wd_tab st !! p = Some w -> wd_update st p f = Ok (set_tab st p (f w)).
Proof. intros Hp E. unfold wd_update. by rewrite (wd_get_Ok _ _ _ Hp E). Qed.

(** A watchdog of the queue, with its neighbours' ticks. *)
Lemma timer_at tab base t1 x r t2 : lags_ok tab base (t1 ++ (x, r) :: t2) ->
  exists w, tab !! x = Some w /\ lag w = r - lastd base t1.*2 /\ lastd base t1.*2 <= r < 2 ^ 31.
Proof. rewrite lags_app. simpl. intros (_ & (w & E & El) & Hr & _). by exists w. Qed.

Lemma rep_in st tl fr x : wd_rep st tl fr -> x ∈ tl.*1 ->
  x <> 0 /\ is_Some (wd_tab st !! x) /\ is_Some (wd_next st !! x).
Proof.
  intros H Hx. destruct (sq_rep_node _ _ _ _ (wr_active _ _ _ H) Hx) as [Hn Hs].
  split_and!; [done| |done]. apply elem_of_dom. rewrite <- (wr_dom _ _ _ H). by apply elem_of_dom.
Qed.

Lemma cancel_search_spec fl l1 x l2 fuel prev :
  slinks (fun x => fl !! x) (l1 ++ x :: l2) 0 -> NoDup (l1 ++ x :: l2) -> 0 ∉ l1 ++ x :: l2 ->
  (length l1 < fuel)%nat -> cancel_search fuel fl prev (hd 0 (l1 ++ [x])) x = Ok (lastd prev l1, x).
Proof.
  revert fuel prev. induction l1 as [|y l1 IH]; intros fuel prev Hl Hnd H0 Hfuel;
    (destruct fuel as [|fuel]; [simpl in Hfuel; lia|]); cbn [cancel_search app hd].
  - rewrite Z.eqb_refl, orb_true_r. done.
  - simpl in Hl, Hnd, H0. destruct Hl as [Ey Hl]. apply NoDup_cons in Hnd as [Hy Hnd].
    apply not_elem_of_cons in H0 as [H0y H0].
    rewrite (proj2 (Z.eqb_neq y 0)), (proj2 (Z.eqb_neq y x)) by set_solver. cbn [orb].
    rewrite (load_Ok _ _ _ (not_eq_sym H0y) Ey), bind_Ok, lastd_cons.
    replace (hd 0 (l1 ++ x :: l2)) with (hd 0 (l1 ++ [x])) by (by destruct l1).
    apply IH; [done|done|done|simpl in Hfuel; lia].
Qed.

Lemma sq_addlast_dom fl q x fl' q' : sq_addlast fl q x = Ok (fl', q') -> dom fl' = dom fl.
Proof. unfold sq_addlast. intros. res_inv; congruence. Qed.

Lemma sq_addfirst_dom fl q x fl' q' : sq_addfirst fl q x = Ok (fl', q') -> dom fl' = dom fl.
Proof. unfold sq_addfirst. intros. res_inv; congruence. Qed.

Lemma sq_addafter_dom fl q p x fl' q' : sq_addafter fl q p x = Ok (fl', q') -> dom fl' = dom fl.
Proof. unfold sq_addafter, sq_addlast. intros. res_inv; congruence. Qed.

Lemma sq_remfirst_dom fl q fl' q' x : sq_remfirst fl q = Ok (fl', q', x) -> dom fl' = dom fl.
Proof. unfold sq_remfirst. intros. res_inv; congruence. Qed.

Lemma sq_remafter_dom fl q p fl' q' x : sq_remafter fl q p = Ok (fl', q', x) -> dom fl' = dom fl.
Proof. unfold sq_remafter. intros. res_inv; congruence. Qed.

Lemma remove_spec fl q l1 x l2 :
  sq_rep fl q (l1 ++ x :: l2) ->
  exists fl' q', (if lastd 0 l1 =? 0 then sq_remfirst fl q else sq_remafter fl q (lastd 0 l1)) = Ok (fl', q', x) /\
    sq_rep fl' q' (l1 ++ l2) /\ frame (l1 ++ [x]) fl fl' /\ dom fl' = dom fl.
Proof.
  intros H. destruct (list_snoc_inv l1) as [->|(l0 & p & ->)].
  - destruct (sq_remfirst_spec _ _ _ H) as (fl' & q' & E & Hr & Hf). exists fl', q'.
    split_and!; [done|done|exact Hf|]. by eapply sq_remfirst_dom.
  - rewrite lastd_snoc. rewrite <- app_assoc in H. simpl in H.
    destruct (sq_rep_node _ _ _ p H) as [Hp _]; [set_solver|]. rewrite (proj2 (Z.eqb_neq p 0)) by done.
    destruct (sq_remafter_spec _ _ _ _ _ H) as (fl' & q' & E & Hr & Hf). exists fl', q'.
    split_and!; [done|by rewrite <- app_assoc| |by eapply sq_remafter_dom].
    intros y Hy. apply Hf. simpl. set_solver.
Qed.

(** Passing the ticks of a removed timer on to the next one. *)
Lemma pass_lag_spec st t1 x r t2 fr w :
  wd_rep st (t1 ++ (x, r) :: t2) fr -> wd_tab st !! x = Some w ->
  exists st1, (if hd 0 t2.*1 =? 0 then Ok st
     else wd_update st (hd 0 t2.*1) (fun n => set_lag n (s32 (lag n + lag w)))) = Ok st1 /\
    wd_next st1 = wd_next st /\ g_wdactivelist st1 = g_wdactivelist st /\
    g_wdfreelist st1 = g_wdfreelist st /\ g_wdnfree st1 = g_wdnfree st /\
    wd_tab st1 !! x = Some w /\ lags_ok (wd_tab st1) 0 (t1 ++ t2) /\
    (forall y, (fun v => (body v, flags v)) <$> wd_tab st1 !! y = (fun v => (body v, flags v)) <$> wd_tab st !! y).
Proof.
  intros H Ew. pose proof (wr_lags _ _ _ H) as Hl. pose proof (sqr_nodup _ _ _ (wr_active _ _ _ H)) as Hnd.
  rewrite fmap_app, fmap_cons in Hnd. apply NoDup_app in Hnd as (_ & Hd1 & [Hx Hnd2]%NoDup_cons).
  destruct (timer_at _ _ _ _ _ _ Hl) as (w' & Ew' & Elag & Hr). simplify_eq.
  apply lags_app in Hl as [Hl1 Hl2]. simpl in Hl2. destruct Hl2 as (_ & _ & Hl2).
  pose proof (lags_last (wd_tab st) 0 t1 ltac:(lia) Hl1) as Hb.
  destruct t2 as [|[y ry] t2].
  { exists st. simpl. split_and!; try done. by rewrite app_nil_r. }
  destruct (rep_in _ _ _ y H) as (Hy0 & _ & _); [rewrite fmap_app; set_solver|].
  simpl in Hl2. destruct Hl2 as ((v & Ev & Elv) & Hry & Hl2).
  rewrite fmap_cons in *. simpl fst in *. cbn [hd]. rewrite (proj2 (Z.eqb_neq y 0)) by done.
  rewrite (wd_update_Ok _ _ _ _ Hy0 Ev). eexists. split; [done|].
  assert (Hxy : y <> x) by set_solver.
  split_and!; try done.
  - simpl. by rewrite lookup_insert_ne.
  - apply lags_app. split.
    + eapply lags_ext; [|exact Hl1]. intros z Hz. simpl. rewrite lookup_insert_ne; [done|]. set_solver.
    + simpl. split; [|split; [lia|]].
      * exists (set_lag v (s32 (lag v + lag w))). rewrite lookup_insert_eq. split; [done|]. simpl.
        rewrite s32_small by lia. lia.
      * eapply lags_ext; [|exact Hl2]. intros z Hz. simpl. rewrite lookup_insert_ne; [done|].
        apply NoDup_cons in Hnd2 as [? _]. set_solver.
  - intros z. simpl. destruct (decide (z = y)) as [->|Hz]; [|by rewrite lookup_insert_ne].
    rewrite lookup_insert_eq, Ev. done.
Qed.

(** A watchdog has been taken out of the queue and marked inactive. *)
Lemma dequeue_rep st t1 x r t2 fr w st1 fl q :
  wd_rep st (t1 ++ (x, r) :: t2) fr -> wd_tab st !! x = Some w ->
  lags_ok (wd_tab st1) 0 (t1 ++ t2) ->
  (forall y, (fun v => (body v, flags v)) <$> wd_tab st1 !! y = (fun v => (body v, flags v)) <$> wd_tab st !! y) ->
  sq_rep fl q (t1.*1 ++ t2.*1) -> frame (t1.*1 ++ [x]) (wd_next st) fl -> dom fl = dom (wd_next st) ->
  let st' := WdState fl (<[x := WDOG_CLRACTIVE w]> (wd_tab st1)) q (g_wdfreelist st) (g_wdnfree st) in
  wd_rep st' (t1 ++ t2) fr /\ same_bodies st st'.
Proof.
  intros H Ew Hlag Hbody Hq' Hf Hd st'. destruct (rep_in _ _ _ x H) as (Hx0 & _ & _); [rewrite fmap_app; set_solver|].
  pose proof (sqr_nodup _ _ _ (wr_active _ _ _ H)) as Hnd. rewrite fmap_app, fmap_cons in Hnd. simpl fst in Hnd.
  assert (Hxd : x ∉ t1.*1 ++ t2.*1).
  { apply NoDup_app in Hnd as (_ & Hd1 & [Hx _]%NoDup_cons). clear - Hd1 Hx. set_solver. }
  assert (Hby : forall y v, wd_tab st1 !! y = Some v -> exists v', wd_tab st !! y = Some v' /\ body v' = body v /\ flags v' = flags v).
  { intros y v Ev. specialize (Hbody y). rewrite Ev in Hbody. simpl in Hbody.
    destruct (wd_tab st !! y) as [v'|]; [|done]. apply (inj Some) in Hbody. exists v'.
    split_and!; [done|by apply (f_equal fst) in Hbody|by apply (f_equal snd) in Hbody]. }
  assert (Hdt : dom (wd_tab st1) = dom (wd_tab st)).
  { apply set_eq. intros y. rewrite !elem_of_dom. specialize (Hbody y).
    destruct (wd_tab st1 !! y), (wd_tab st !! y); try discriminate Hbody; split; intros [? ?]; eauto; discriminate. }
  assert (Hxt : x ∈ dom (wd_tab st)) by (apply elem_of_dom; eauto).
  split.
  - split; unfold st'; cbn [wd_next wd_tab g_wdactivelist g_wdfreelist g_wdnfree].
    + by rewrite fmap_app.
    + eapply lags_ext; [|exact Hlag]. intros y Hy. rewrite lookup_insert_ne; [done|].
      intros <-. apply Hxd. by rewrite <- fmap_app.
    + intros y v Ev. destruct (decide (y = x)) as [->|Hyx].
      * rewrite lookup_insert_eq in Ev. injection Ev as <-. rewrite clr_active_flag, fmap_app. naive_solver.
      * rewrite lookup_insert_ne in Ev by done. destruct (Hby y v Ev) as (v' & Ev' & _ & Efl).
        rewrite isactive_bit, <- Efl, <- isactive_bit, (wr_flags _ _ _ H y v' Ev'), !fmap_app, fmap_cons.
        rewrite !elem_of_app, elem_of_cons. simpl. naive_solver.
    + rewrite dom_insert_L, Hd, Hdt, (wr_dom _ _ _ H). clear - Hxt. set_solver.
    + rewrite dom_insert_L, Hdt. pose proof (wr_null _ _ _ H) as Hn. clear - Hn Hx0. set_solver.
    + intros y v Ev. destruct (decide (y = x)) as [->|Hyx].
      * rewrite lookup_insert_eq in Ev. injection Ev as <-. apply flag_bytes. by apply (wr_bytes _ _ _ H x).
      * rewrite lookup_insert_ne in Ev by done. destruct (Hby y v Ev) as (v' & Ev' & _ & <-).
        by apply (wr_bytes _ _ _ H y).
    + eapply (sq_rep_frame (wd_next st)); [apply H|exact Hf|].
      intros y Hy. pose proof (wr_disj _ _ _ H y Hy) as Hn. rewrite fmap_app, fmap_cons in Hn. clear - Hn. set_solver.
    + intros y Hy. pose proof (wr_disj _ _ _ H y Hy) as Hn. rewrite fmap_app, fmap_cons in Hn.
      rewrite fmap_app. clear - Hn. set_solver.
    + apply H.
  - intros y. unfold st'. cbn [wd_tab]. destruct (decide (y = x)) as [->|Hyx].
    + rewrite lookup_insert_eq, Ew. simpl. f_equal. apply body_clr. by apply (wr_bytes _ _ _ H x).
    + rewrite lookup_insert_ne by done. specialize (Hbody y).
      destruct (wd_tab st1 !! y), (wd_tab st !! y); try discriminate Hbody; [|done].
      apply (inj Some), (f_equal fst) in Hbody. simpl in *. by rewrite Hbody.
Qed.

Lemma cancel_spec st t1 x r t2 fr :
  wd_rep st (t1 ++ (x, r) :: t2) fr ->
  exists st', wd_cancel st x = Ok (st', OK) /\ wd_rep st' (t1 ++ t2) fr /\ same_bodies st st'.
Proof.
  intros H. destruct (rep_in _ _ _ x H) as (Hx0 & [w Ew] & Hxs); [rewrite fmap_app; set_solver|].
  pose proof (wr_active _ _ _ H) as Hq. rewrite fmap_app, fmap_cons in Hq. simpl fst in Hq.
  pose proof (sqr_nodup _ _ _ Hq) as Hnd. pose proof (sqr_links _ _ _ Hq) as Hlk.
  destruct (pass_lag_spec _ _ _ _ _ _ _ H Ew) as (st1 & E1 & En & Ea & Ef & Enf & Ew1 & Hlag & Hbody).
  unfold wd_cancel, wd_isactive. rewrite (proj2 (Z.eqb_neq x 0)), (wd_get_Ok _ _ _ Hx0 Ew), bind_Ok by done.
  assert (Hact : WDOG_ISACTIVE w = true) by (apply (wr_flags _ _ _ H x w Ew); rewrite fmap_app; set_solver).
  rewrite bind_Ok, Hact. rewrite (sqr_head _ _ _ Hq).
  replace (hd 0 (t1.*1 ++ x :: t2.*1)) with (hd 0 (t1.*1 ++ [x])) by (by destruct t1).
  rewrite (cancel_search_spec (wd_next st) t1.*1 x t2.*1); [|done|done|apply Hq|].
  2: { pose proof (sq_rep_length _ _ _ Hq) as Hlen. rewrite length_app in Hlen. simpl in Hlen. lia. }
  rewrite bind_Ok. apply slinks_app in Hlk as (_ & Ex & _). rewrite (load_Ok _ _ _ Hx0 Ex), bind_Ok.
  rewrite (wd_get_Ok _ _ _ Hx0 Ew), bind_Ok, E1, bind_Ok, En, Ea.
  destruct (remove_spec _ _ _ _ _ Hq) as (fl' & q' & E2 & Hq' & Hf & Hd). rewrite E2, bind_Ok.
  assert (Hxf : is_Some (fl' !! x)) by (apply elem_of_dom; rewrite Hd; by apply elem_of_dom).
  unfold set_next. cbn [wd_next set_active]. rewrite store_Ok by done.
  rewrite !bind_Ok. erewrite wd_update_Ok; [|done|exact Ew1]. rewrite bind_Ok.
  eexists. split; [done|]. unfold set_tab, set_active. cbn [wd_next wd_tab g_wdactivelist g_wdfreelist g_wdnfree].
  rewrite Ef, Enf. apply (dequeue_rep st t1 x r t2 fr w st1); try done.
  - eapply (sq_rep_frame fl' _ _ _ [x]); [exact Hq'| |].
    + intros y Hy. rewrite lookup_insert_ne; [done|]. intros <-. apply Hy. by left.
    + apply NoDup_app in Hnd as (_ & Hd1 & [Hx _]%NoDup_cons).
      intros y Hy ->%list_elem_of_singleton. clear - Hd1 Hx Hy. set_solver.
  - intros y Hy. rewrite lookup_insert_ne by (intros <-; apply Hy; apply elem_of_app; right; by left). by apply Hf.
  - by rewrite dom_insert_lookup_L.
Qed.

(** ** wd_start *)

(** The new timer goes behind those that expire no later. *)
Fixpoint winsert (x d : Z) (tl : timers) : timers :=
  match tl with
  | [] => [(x, d)]
  | (y, r) :: tl => if d <? r then (x, d) :: (y, r) :: tl else (y, r) :: winsert x d tl
  end.

Lemma winsert_at x d a e b :
  Forall (fun f : Z * Z => f.2 <= d) a -> d < e.2 -> winsert x d (a ++ e :: b) = a ++ (x, d) :: e :: b.
Proof.
  intros Ha He. induction Ha as [|[y r] a Hy _ IH]; simpl in *.
  - destruct e as [z r]. simpl in He. by rewrite (proj2 (Z.ltb_lt d r)).
  - by rewrite (proj2 (Z.ltb_ge d r)), IH.
Qed.

Lemma winsert_end x d a : Forall (fun f : Z * Z => f.2 <= d) a -> winsert x d a = a ++ [(x, d)].
Proof.
  intros Ha. induction Ha as [|[y r] a Hy _ IH]; simpl in *; [done|].
  by rewrite (proj2 (Z.ltb_ge d r)), IH.
Qed.

Lemma winsert_keys x d tl : (winsert x d tl).*1 ≡ₚ x :: tl.*1.
Proof.
  induction tl as [|[y r] tl IH]; simpl; [done|]. destruct (d <? r); [done|]. rewrite fmap_cons, IH. simpl. constructor.
Qed.

Lemma ticks_spec delay : 0 <= delay < 2 ^ 31 -> wd_ticks delay = Z.min (delay + 1) (2 ^ 31 - 1).
Proof.
  intros H. unfold wd_ticks. destruct (delay <=? 0) eqn:E; b2p; [lia|]. cbv zeta.
  destruct (decide (delay = 2 ^ 31 - 1)) as [->|Hne]; [done|].
  rewrite s32_small by lia. rewrite (proj2 (Z.leb_gt _ 0)) by lia. lia.
Qed.

Lemma start_advance_spec st d t2 : forall fuel c rc prev base,
  lags_ok (wd_tab st) base ((c, rc) :: t2) -> 0 <= base ->
  slinks (fun x => wd_next st !! x) (c :: t2.*1) 0 -> 0 ∉ c :: t2.*1 -> (length t2 < fuel)%nat ->
  exists a e b, (c, rc) :: t2 = a ++ e :: b /\
    start_advance fuel st d rc prev c = Ok (e.2, lastd prev a.*1, e.1) /\
    Forall (fun f : Z * Z => f.2 <= d) a /\ (d < e.2 \/ b = []).
Proof.
  induction t2 as [|[y ry] t2 IH]; intros fuel c rc prev base Hl Hb Hs H0 Hfuel;
    (destruct fuel as [|fuel]; [simpl in Hfuel; lia|]); cbn [start_advance];
    assert (Hc0 : c <> 0) by set_solver.
  - destruct Hs as [Ec _]. simpl in Ec. rewrite (load_Ok _ _ _ Hc0 Ec), bind_Ok.
    rewrite andb_false_r. exists [], (c, rc), []. split_and!; [done|done|constructor|by right].
  - destruct Hs as [Ec Hs]. rewrite fmap_cons in *. cbn [fst hd] in Ec.
    rewrite (load_Ok _ _ _ Hc0 Ec), bind_Ok.
    assert (Hy0 : y <> 0) by set_solver. rewrite (proj2 (Z.eqb_neq y 0)) by done. cbn [negb]. rewrite andb_true_r.
    destruct (rc <=? d) eqn:E; b2p.
    + destruct Hl as (_ & Hrc & Hl). pose proof Hl as ((w & Ew & Elw) & Hry & _).
      rewrite (wd_get_Ok _ _ _ Hy0 Ew), bind_Ok, Elw.
      replace (rc + (ry - rc)) with ry by lia. rewrite s32_small by lia.
      destruct (IH fuel y ry c rc) as (a & e & b & Et & Er & Ha & He); try done; try lia; [set_solver|simpl in Hfuel; lia|].
      exists ((c, rc) :: a), e, b. split_and!; [by rewrite Et| |constructor; [done|done]|done].
      rewrite Er, fmap_cons, lastd_cons. done.
    + exists [], (c, rc), ((y, ry) :: t2). split_and!; [done|done|constructor|by left].
Qed.

(** Only lags may have changed. *)
Definition same_but_lag (st st' : wd_state) : Prop :=
  forall y, (fun v => (body v, flags v)) <$> wd_tab st' !! y = (fun v => (body v, flags v)) <$> wd_tab st !! y.

Record enqueued (st : wd_state) (tl : timers) (x d : Z) (st' : wd_state) (lg : Z) : Prop := {
  eq_active : sq_rep (wd_next st') (g_wdactivelist st') (winsert x d tl).*1;
  eq_frame : frame (x :: tl.*1) (wd_next st) (wd_next st');
  eq_dom : dom (wd_next st') = dom (wd_next st);
  eq_free : g_wdfreelist st' = g_wdfreelist st;
  eq_nfree : g_wdnfree st' = g_wdnfree st;
  eq_tab : same_but_lag st st';
  eq_same : wd_tab st' !! x = wd_tab st !! x;
  eq_lags : forall w, lag w = lg -> lags_ok (<[x := w]> (wd_tab st')) 0 (winsert x d tl)
}.

Section Enqueue.
Context (st : wd_state) (tl : timers) (fr : list Z) (x d : Z).
Hypothesis H : wd_rep st tl fr.
Hypothesis Hx : x ∈ dom (wd_tab st).
Hypothesis Hxt : x ∉ tl.*1.
Hypothesis Hd : 1 <= d < 2 ^ 31.

Lemma x_node : is_node (wd_next st) x.
Proof.
  split.
  - intros ->. by apply (wr_null _ _ _ H).
  - apply elem_of_dom. by rewrite (wr_dom _ _ _ H).
Qed.

(** At the end of the queue. *)
Lemma enqueue_last : Forall (fun f : Z * Z => f.2 <= d) tl ->
  exists fl q, sq_addlast (wd_next st) (g_wdactivelist st) x = Ok (fl, q) /\
    enqueued st tl x d (set_active st fl q) (d - lastd 0 tl.*2).
Proof.
  intros Hall. destruct (sq_addlast_spec _ _ _ x (wr_active _ _ _ H) x_node Hxt) as (fl & q & E & Hq & Hf).
  exists fl, q. split; [done|]. 
  split; cbn [set_active wd_next wd_tab g_wdactivelist g_wdfreelist g_wdnfree]; try done.
  - rewrite winsert_end, fmap_app by done. done.
  - by eapply sq_addlast_dom.
  - intros w Ew. rewrite winsert_end by done. apply lags_app. split.
    + eapply lags_ext; [|apply H]. intros y Hy. rewrite lookup_insert_ne; [done|]. intros <-. done.
    + simpl. split; [exists w; by rewrite lookup_insert_eq|]. split; [|done].
      split; [|lia]. destruct (list_snoc_inv tl.*2) as [->|(l & r & El)]; [unfold lastd; simpl; lia|].
      rewrite El, lastd_snoc. assert (Hin : r ∈ tl.*2) by (rewrite El; set_solver).
      apply list_elem_of_fmap in Hin as ([y r'] & -> & Hin). rewrite Forall_forall in Hall. by apply (Hall _ Hin).
Qed.

(** In front of the timer [e]. *)
Lemma enqueue_before a e b w : tl = a ++ e :: b -> Forall (fun f : Z * Z => f.2 <= d) a -> d < e.2 ->
  wd_tab st !! e.1 = Some w ->
  let st1 := set_tab st e.1 (set_lag w (e.2 - d)) in
  exists fl q, (if e.1 =? sq_head (g_wdactivelist st) then sq_addfirst (wd_next st) (g_wdactivelist st) x
     else sq_addafter (wd_next st) (g_wdactivelist st) (lastd (sq_head (g_wdactivelist st)) a.*1) x) = Ok (fl, q) /\
    enqueued st tl x d (set_active st1 fl q) (d - lastd 0 a.*2).
Proof.
  intros Et Ha He Ew st1. pose proof x_node as Hxn. pose proof Hxt as Hxt'. pose proof (wr_active _ _ _ H) as Hq. pose proof (wr_lags _ _ _ H) as Hl.
  pose proof (sqr_nodup _ _ _ Hq) as Hnd. rewrite (sqr_head _ _ _ Hq).
  assert (Hxe : x <> e.1) by (intros ->; apply Hxt; rewrite Et, fmap_app; set_solver).
  assert (Hins : winsert x d tl = a ++ (x, d) :: e :: b) by (rewrite Et; by apply winsert_at).
  assert (Hadd : exists fl q, (if e.1 =? hd 0 tl.*1 then sq_addfirst (wd_next st) (g_wdactivelist st) x
     else sq_addafter (wd_next st) (g_wdactivelist st) (lastd (hd 0 tl.*1) a.*1) x) = Ok (fl, q) /\
     sq_rep fl q (winsert x d tl).*1 /\ frame (x :: tl.*1) (wd_next st) fl /\ dom fl = dom (wd_next st)).
  { rewrite Hins. rewrite Et in Hq, Hnd, Hxt'. rewrite Et.
    rewrite fmap_app, fmap_cons in Hq, Hnd, Hxt'. rewrite !fmap_app, !fmap_cons. simpl fst. destruct (list_snoc_inv a.*1) as [Ea|(l & p & Ea)].
    - rewrite Ea in *. simpl app in *. cbn [hd]. rewrite Z.eqb_refl.
      destruct (sq_addfirst_spec _ _ _ x Hq Hxn Hxt') as (fl & q & E & Hq' & Hf). exists fl, q.
      split_and!; [done|done| |by eapply sq_addfirst_dom]. intros y Hy. apply Hf. clear - Hy. set_solver.
    - rewrite Ea in *. rewrite lastd_snoc. rewrite <- !app_assoc in *. simpl app in *.
      rewrite (proj2 (Z.eqb_neq e.1 _)).
      + destruct (sq_addafter_spec _ _ _ _ _ x Hq Hxn Hxt') as (fl & q & E & Hq' & Hf). exists fl, q.
        split_and!; [done|done|done|by eapply sq_addafter_dom].
      + clear - Hnd. destruct l as [|y l]; simpl in *; apply NoDup_cons in Hnd as [Hn _]; set_solver. }
  destruct Hadd as (fl & q & E & Hq' & Hf & Hdm). exists fl, q. split; [done|].
  rewrite Et in Hl, Hnd. apply lags_app in Hl as [Hl1 Hl2]. rewrite fmap_app, fmap_cons in Hnd.
  apply NoDup_app in Hnd as (_ & Hd1 & [Hn2 _]%NoDup_cons).
  destruct e as [y r]. cbn [fst snd] in *. destruct Hl2 as (_ & Hr & Hl2).
  split; unfold st1; cbn [set_active set_tab wd_next wd_tab g_wdactivelist g_wdfreelist g_wdnfree]; try done.
  - intros z. simpl. destruct (decide (z = y)) as [->|Hz]; [|by rewrite lookup_insert_ne].
    by rewrite lookup_insert_eq, Ew.
  - by rewrite lookup_insert_ne.
  - intros v Ev. rewrite Hins. apply lags_app. split; [|simpl; split_and!; try lia].
    + eapply lags_ext; [|exact Hl1]. intros z Hz. rewrite !lookup_insert_ne; [done|..].
      * intros ->. apply (Hd1 _ Hz). by left.
      * intros ->. apply Hxt. rewrite Et, fmap_app. apply elem_of_app. by left.
    + exists v. by rewrite lookup_insert_eq.
    + destruct (list_snoc_inv a.*2) as [->|(l & r' & El)]; [unfold lastd; simpl; lia|].
      rewrite El, lastd_snoc. assert (Hin : r' ∈ a.*2) by (rewrite El; set_solver).
      apply list_elem_of_fmap in Hin as ([y' r''] & -> & Hin). rewrite Forall_forall in Ha. by apply (Ha _ Hin).
    + exists (set_lag w (r - d)). rewrite lookup_insert_ne, lookup_insert_eq by done. done.
    + eapply lags_ext; [|exact Hl2]. intros z Hz. rewrite !lookup_insert_ne; [done|..].
      * intros ->. done.
      * intros ->. apply Hxt. rewrite Et, fmap_app, fmap_cons. apply elem_of_app. right. by right.
Qed.
End Enqueue.

Lemma enqueue_spec st tl fr x d :
  wd_rep st tl fr -> x ∈ dom (wd_tab st) -> x ∉ tl.*1 -> 1 <= d < 2 ^ 31 ->
  exists st' lg, start_enqueue st x d = Ok (st', lg) /\ enqueued st tl x d st' lg.
Proof.
  intros H Hx Hxt Hd. pose proof (wr_active _ _ _ H) as Hq. pose proof (wr_lags _ _ _ H) as Hl.
  unfold start_enqueue. cbv zeta. rewrite (sq_head_nil _ _ _ Hq).
  destruct tl as [|[c rc] t2] eqn:Etl.
  { destruct (enqueue_last st [] fr x d H Hx Hxt Hd) as (fl & q & E & He); [constructor|].
    cbn [fmap list_fmap]. rewrite E, bind_Ok. eexists _, d. split; [done|].
    replace d with (d - lastd 0 ([] : timers).*2) at 2 by (unfold lastd; simpl; lia). done. }
  cbn [fmap list_fmap fst]. rewrite (sqr_head _ _ _ Hq). cbn [hd fmap list_fmap fst].
  pose proof Hl as ((w & Ew & Elw) & Hrc & _).
  destruct (rep_in _ _ _ c H) as (Hc0 & _ & [n En]); [by left|].
  destruct (walk_fuel (wd_next st)) as [|fuel] eqn:Ef; [done|]. cbn [start_positive].
  rewrite (wd_get_Ok _ _ _ Hc0 Ew), bind_Ok, Elw, (load_Ok _ _ _ Hc0 En), bind_Ok.
  rewrite !Z.sub_0_r, Z.add_0_l, s32_small, (proj2 (Z.ltb_ge rc 0)) by lia. cbn [andb]. rewrite bind_Ok.
  destruct (start_advance_spec st d t2 (S fuel) c rc c 0 Hl ltac:(lia)) as (a & e & b & Et & Er & Ha & He).
  { apply Hq. }
  { apply Hq. }
  { pose proof (sq_rep_length _ _ _ Hq) as Hlen. rewrite Ef, fmap_cons in Hlen. simpl in Hlen.
    rewrite length_fmap in Hlen. lia. }
  rewrite Er, bind_Ok. clear Er. assert (Hin : e ∈ (c, rc) :: t2) by (rewrite Et; set_solver).
  rewrite Et in Hl. destruct e as [y r].
  destruct (timer_at _ _ _ _ _ _ Hl) as (v & Ev & Elv & Hr). cbn [fst snd] in *.
  pose proof Hl as [Hla _]%lags_app. pose proof (lags_last _ 0 a ltac:(lia) Hla) as Hlast.
  destruct (rep_in _ _ _ y H) as (Hy0 & _ & _); [by apply (list_elem_of_fmap_2 fst _ (y, r))|].
  destruct (d <? r) eqn:Edr; b2p.
  - rewrite (wd_get_Ok _ _ _ Hy0 Ev), bind_Ok, Elv.
    rewrite (s32_small (r - _)) by lia. rewrite s32_small by lia.
    rewrite (wd_update_Ok _ _ _ _ Hy0 Ev), bind_Ok, Elv. rewrite s32_small by lia.
    destruct (enqueue_before st _ fr x d H Hx Hxt Hd a (y, r) b v Et Ha Edr Ev) as (fl & q & E & Hen).
    cbn [fst snd] in E, Hen. rewrite (sqr_head _ _ _ Hq) in E. cbn [hd fmap list_fmap fst] in E.
    cbn [wd_next g_wdactivelist set_tab].
    replace (r - lastd 0 a.*2 - (d - (r - (r - lastd 0 a.*2)))) with (r - d) by lia.
    rewrite E, bind_Ok. eexists _, _. split; [done|].
    replace (d - (r - (r - lastd 0 a.*2))) with (d - lastd 0 a.*2) by lia. done.
  - destruct He as [He| ->]; [lia|].
    assert (Hall : Forall (fun f : Z * Z => f.2 <= d) ((c, rc) :: t2)).
    { rewrite Et. apply Forall_app. split; [done|]. apply Forall_singleton. simpl. lia. }
    destruct (enqueue_last st _ fr x d H Hx Hxt Hd Hall) as (fl & q & E & Hen).
    pose proof (sqr_links _ _ _ Hq) as Hlk. rewrite Et, fmap_app in Hlk.
    apply slinks_app in Hlk as (_ & Ey & _). simpl in Ey.
    rewrite (load_Ok _ _ _ Hy0 Ey), bind_Ok. cbn [Z.eqb]. cbv iota. rewrite E, bind_Ok.
    eexists _, _. split; [done|]. rewrite s32_small by lia.
    assert (Elast : lastd 0 ((c, rc) :: t2).*2 = r) by (rewrite Et, fmap_app; apply lastd_snoc).
    rewrite Elast in Hen. done.
Qed.

(** Setting a watchdog up and marking it as active. *)
Lemma active_in_insert tab l l' x w :
  active_in tab l -> WDOG_ISACTIVE w = true -> (forall y, y ∈ l' <-> y = x \/ y ∈ l) ->
  active_in (<[x := w]> tab) l'.
Proof.
  intros Ha Hw Hl y v Ev. rewrite Hl. destruct (decide (y = x)) as [->|Hy].
  - rewrite lookup_insert_eq in Ev. injection Ev as <-. naive_solver.
  - rewrite lookup_insert_ne in Ev by done. rewrite (Ha y v Ev). naive_solver.
Qed.

Definition wremove (x : Z) (tl : timers) : timers := filter (fun e => e.1 <> x) tl.

Lemma wremove_absent x tl : x ∉ tl.*1 -> wremove x tl = tl.
Proof.
  unfold wremove. induction tl as [|[y r] tl IH]; [done|]. rewrite fmap_cons. intros Hx.
  rewrite filter_cons_True by set_solver. f_equal. apply IH. set_solver.
Qed.

Lemma wremove_split x t1 r t2 : NoDup (t1 ++ (x, r) :: t2).*1 -> wremove x (t1 ++ (x, r) :: t2) = t1 ++ t2.
Proof.
  rewrite fmap_app, fmap_cons. intros (_ & Hd & [Hx _]%NoDup_cons)%NoDup_app. simpl in *.
  unfold wremove. rewrite filter_app, filter_cons_False by (simpl; naive_solver).
  f_equal; apply wremove_absent; [|done]. intros H1. apply (Hd _ H1). by left.
Qed.

(** The cancellation at the start of [wd_start] and [wd_delete]. *)
Lemma stop_spec st tl fr x w :
  wd_rep st tl fr -> wd_tab st !! x = Some w ->
  exists st', (if WDOG_ISACTIVE w then '(st, _) ← wd_cancel st x; Ok st else Ok st) = Ok st' /\
    wd_rep st' (wremove x tl) fr /\ same_bodies st st'.
Proof.
  intros H Ew. destruct (WDOG_ISACTIVE w) eqn:Ea.
  - apply (wr_flags _ _ _ H x w Ew) in Ea. apply list_elem_of_fmap in Ea as ([y r] & -> & Hin).
    apply list_elem_of_split in Hin as (t1 & t2 & ->). simpl in *.
    destruct (cancel_spec _ _ _ _ _ _ H) as (st' & E & H' & Hs). exists st'. rewrite E. split; [done|].
    rewrite wremove_split; [done|]. apply (wr_active _ _ _ H).
  - exists st. split; [done|]. rewrite wremove_absent; [by split|]. intros Hx.
    apply (wr_flags _ _ _ H x w Ew) in Hx. congruence.
Qed.

Lemma wremove_notin x tl : x ∉ (wremove x tl).*1.
Proof. unfold wremove. intros ([y r] & -> & [Hn _]%list_elem_of_filter)%list_elem_of_fmap. by apply Hn. Qed.

(** Rewriting everything but the lag and the flags of a watchdog that is not queued. *)
Lemma rep_set_body st tl fr x w f a p :
  wd_rep st tl fr -> wd_tab st !! x = Some w ->
  wd_rep (set_tab st x (Wdog (lag w) (flags w) f a p)) tl fr.
Proof.
  intros H Ew. assert (Hx : x ∈ dom (wd_tab st)) by (apply elem_of_dom; eauto).
  split; cbn [set_tab wd_next wd_tab g_wdactivelist g_wdfreelist g_wdnfree]; try apply H.
  - eapply lags_ext; [|apply H]. intros y Hy. destruct (decide (y = x)) as [->|Hn].
    + by rewrite lookup_insert_eq, Ew.
    + by rewrite lookup_insert_ne.
  - intros y v Ev. destruct (decide (y = x)) as [->|Hn].
    + rewrite lookup_insert_eq in Ev. injection Ev as <-. by apply (wr_flags _ _ _ H x w).
    + rewrite lookup_insert_ne in Ev by done. by apply (wr_flags _ _ _ H).
  - rewrite dom_insert_L, (wr_dom _ _ _ H). clear - Hx. set_solver.
  - rewrite dom_insert_L. pose proof (wr_null _ _ _ H). clear - H0 Hx. set_solver.
  - intros y v Ev. destruct (decide (y = x)) as [->|Hn].
    + rewrite lookup_insert_eq in Ev. injection Ev as <-. by apply (wr_bytes _ _ _ H x w).
    + rewrite lookup_insert_ne in Ev by done. by apply (wr_bytes _ _ _ H y).
Qed.

(** Closing [wd_start]: the queued watchdog gets its lag and becomes active. *)
Lemma enqueued_rep st tl fr x d st' lg w :
  wd_rep st tl fr -> x ∉ fr -> x ∉ tl.*1 -> wd_tab st !! x = Some w -> enqueued st tl x d st' lg ->
  wd_rep (set_tab st' x (WDOG_SETACTIVE (set_lag w lg))) (winsert x d tl) fr.
Proof.
  intros H Hxf Hxt Ew [Ha Hf Hd Efr Enf Htab Hsame Hlags].
  assert (Hx : x ∈ dom (wd_tab st)) by (apply elem_of_dom; eauto).
  assert (Hby : forall y v, wd_tab st' !! y = Some v -> exists v', wd_tab st !! y = Some v' /\ flags v' = flags v).
  { intros y v Ev. specialize (Htab y). rewrite Ev in Htab. destruct (wd_tab st !! y) as [v'|]; [|done].
    apply (inj Some), (f_equal snd) in Htab. by exists v'. }
  assert (Hdt : dom (wd_tab st') = dom (wd_tab st)).
  { apply set_eq. intros y. rewrite !elem_of_dom. specialize (Htab y).
    destruct (wd_tab st' !! y), (wd_tab st !! y); try discriminate Htab; split; intros [? ?]; eauto; discriminate. }
  split; cbn [set_tab wd_next wd_tab g_wdactivelist g_wdfreelist g_wdnfree]; try done.
  - by apply Hlags.
  - apply (active_in_insert _ tl.*1).
    + intros y v Ev. destruct (Hby y v Ev) as (v' & Ev' & Efl).
      rewrite isactive_bit, <- Efl, <- isactive_bit. by apply (wr_flags _ _ _ H).
    + apply set_active_flag.
    + intros y. rewrite winsert_keys, elem_of_cons. done.
  - rewrite dom_insert_L, Hd, Hdt, (wr_dom _ _ _ H). clear - Hx. set_solver.
  - rewrite dom_insert_L, Hdt. pose proof (wr_null _ _ _ H) as Hn. clear - Hn Hx. set_solver.
  - intros y v Ev. destruct (decide (y = x)) as [->|Hn].
    + rewrite lookup_insert_eq in Ev. injection Ev as <-. apply flag_bytes. simpl. by apply (wr_bytes _ _ _ H x w).
    + rewrite lookup_insert_ne in Ev by done. destruct (Hby y v Ev) as (v' & Ev' & <-). by apply (wr_bytes _ _ _ H y).
  - rewrite Efr. eapply sq_rep_frame; [apply H|exact Hf|]. intros y Hy [->|Hin]%elem_of_cons; [done|].
    by apply (wr_disj _ _ _ H y Hy).
  - intros y Hy. rewrite winsert_keys. intros [->|Hin]%elem_of_cons; [done|]. by apply (wr_disj _ _ _ H y Hy).
  - rewrite Enf. apply H.
Qed.

Lemma start_full st tl fr x delay fn args :
  wd_rep st tl fr -> x ∈ dom (wd_tab st) -> x ∉ fr -> 0 <= delay < 2 ^ 31 -> (length args <= 2)%nat ->
  exists st' w, wd_start st x delay fn (Z.of_nat (length args)) args = Ok (st', OK) /\
    wd_rep st' (winsert x (Z.min (delay + 1) (2 ^ 31 - 1)) (wremove x tl)) fr /\
    wd_tab st' !! x = Some w /\ func w = fn /\ wd_args w = Some args /\
    (forall y, y <> x -> body <$> wd_tab st' !! y = body <$> wd_tab st !! y) /\
    (forall w0, wd_tab st !! x = Some w0 -> WDOG_ISALLOCED w = WDOG_ISALLOCED w0 /\ WDOG_ISSTATIC w = WDOG_ISSTATIC w0).
Proof.
  intros H Hx Hxf Hdelay Hargs. assert (Hx0 : x <> 0) by (intros ->; by apply (wr_null _ _ _ H)).
  apply elem_of_dom in Hx as [w Ew]. destruct (stop_spec _ _ _ _ _ H Ew) as (st1 & E1 & H1 & Hb1).
  pose proof (Hb1 x) as Hbx. rewrite Ew in Hbx. destruct (wd_tab st1 !! x) as [w1|] eqn:Ew1; [|done]. apply (inj Some) in Hbx.
  set (w2 := Wdog (lag w1) (flags w1) fn (u8 (Z.of_nat (length args)))
    (take (Z.to_nat (Z.of_nat (length args))) args ++
     replicate (Z.to_nat (CONFIG_MAX_WDOGPARMS - Z.max 0 (Z.of_nat (length args)))) 0)).
  pose proof (rep_set_body _ _ _ _ _ fn (u8 (Z.of_nat (length args))) (parm w2) H1 Ew1) as H2.
  change (wd_rep (set_tab st1 x w2) (wremove x tl) fr) in H2. set (st2 := set_tab st1 x w2) in *.
  assert (Ew2 : wd_tab st2 !! x = Some w2) by (unfold st2; simpl; by rewrite lookup_insert_eq).
  assert (Hd : 1 <= Z.min (delay + 1) (2 ^ 31 - 1) < 2 ^ 31) by lia.
  assert (Hx2 : x ∈ dom (wd_tab st2)) by (apply elem_of_dom; eauto).
  destruct (enqueue_spec st2 _ fr x _ H2 Hx2 (wremove_notin x tl) Hd) as (st3 & lg & E3 & H3).
  pose proof (eq_same _ _ _ _ _ _ H3) as Ew3. rewrite Ew2 in Ew3.
  pose proof (enqueued_rep _ _ _ _ _ _ _ _ H2 Hxf (wremove_notin x tl) Ew2 H3) as H4.
  unfold wd_start. rewrite (proj2 (Z.eqb_neq x 0)) by done.
  rewrite (proj2 (Z.ltb_ge _ (Z.of_nat (length args)))) by (unfold CONFIG_MAX_WDOGPARMS; lia).
  rewrite (proj2 (Z.ltb_ge delay 0)) by lia. cbn [orb].
  rewrite (wd_get_Ok _ _ _ Hx0 Ew), bind_Ok, E1, bind_Ok. cbv zeta.
  rewrite (wd_update_Ok _ _ _ _ Hx0 Ew1), bind_Ok. fold w2. fold st2. rewrite ticks_spec, E3, bind_Ok by done.
  rewrite (wd_update_Ok _ _ _ _ Hx0 Ew3), bind_Ok.
  erewrite wd_update_Ok; [|done|simpl; by rewrite lookup_insert_eq]. rewrite bind_Ok.
  assert (Eq : set_tab (set_tab st3 x (set_lag w2 lg)) x (WDOG_SETACTIVE (set_lag w2 lg)) =
               set_tab st3 x (WDOG_SETACTIVE (set_lag w2 lg))).
  { unfold set_tab. simpl. by rewrite insert_insert_eq. }
  rewrite Eq. eexists _, _. split; [done|]. split; [exact H4|].
  cbn [set_tab wd_tab]. rewrite lookup_insert_eq. split_and!; [done|done| | |].
  - unfold wd_args, w2. destruct args as [|a1 [|a2 [|? ?]]]; try done. simpl in Hargs. lia.
  - intros y Hy. rewrite lookup_insert_ne by done. pose proof (eq_tab _ _ _ _ _ _ H3 y) as Ht.
    unfold st2 in Ht. simpl in Ht. rewrite lookup_insert_ne in Ht by done. rewrite <- (Hb1 y).
    destruct (wd_tab st3 !! y), (wd_tab st1 !! y); try discriminate Ht; [|done].
    apply (inj Some), (f_equal fst) in Ht. simpl in *. by rewrite Ht.
  - intros w0 Ew0. rewrite Ew in Ew0. injection Ew0 as <-. destruct (body_kind _ _ Hbx) as [<- <-]. apply (setactive_kind (set_lag w2 lg)).
Qed.

Lemma start_spec st tl fr x delay fn args :
  wd_rep st tl fr -> x ∈ dom (wd_tab st) -> x ∉ fr -> 0 <= delay < 2 ^ 31 -> (length args <= 2)%nat ->
  exists st' w, wd_start st x delay fn (Z.of_nat (length args)) args = Ok (st', OK) /\
    wd_rep st' (winsert x (Z.min (delay + 1) (2 ^ 31 - 1)) (wremove x tl)) fr /\
    wd_tab st' !! x = Some w /\ func w = fn /\ wd_args w = Some args /\
    (forall y, y <> x -> body <$> wd_tab st' !! y = body <$> wd_tab st !! y).
Proof.
  intros H Hx Hf Hd Ha. destruct (start_full st tl fr x delay fn args H Hx Hf Hd Ha) as (st' & w & H1 & H2 & H3 & H4 & H5 & H6 & _).
  by exists st', w.
Qed.
