(* ===== verification/WdogTime.v ===== *)
(** * Watchdog timers: time

    [wd_gettime] and [wd_timer] on the abstract list of timers; a run of clock
    ticks fires every watchdog at its tick. *)

From S2P Require Import Prelude Bits Links Queue Wdog WdogRep.
Import Sq.
Local Open Scope Z_scope.

(** ** wd_gettime *)

Lemma gettime_loop_spec st x t1 : forall fuel base r t2,
  lags_ok (wd_tab st) base (t1 ++ (x, r) :: t2) -> 0 <= base ->
  slinks (fun y => wd_next st !! y) (t1.*1 ++ x :: t2.*1) 0 ->
  NoDup (t1.*1 ++ x :: t2.*1) -> 0 ∉ t1.*1 ++ x :: t2.*1 -> (length t1 < fuel)%nat ->
  gettime_loop fuel st (hd 0 (t1.*1 ++ x :: t2.*1)) x base = Ok (Some r).
Proof.
  induction t1 as [|[y ry] t1 IH]; intros fuel base r t2 Hl Hb Hs Hnd H0 Hfuel;
    (destruct fuel as [|fuel]; [simpl in Hfuel; lia|]); cbn [gettime_loop fmap list_fmap app hd fst].
  - destruct Hl as ((w & Ew & Elw) & Hr & _). assert (Hx0 : x <> 0) by (simpl in H0; clear - H0; set_solver).
    rewrite (proj2 (Z.eqb_neq x 0)), (wd_get_Ok _ _ _ Hx0 Ew), bind_Ok, Z.eqb_refl, Elw by done. cbv zeta.
    rewrite s32_small by lia. do 2 f_equal. lia.
  - simpl in Hl, Hs, Hnd, H0. destruct Hl as ((w & Ew & Elw) & Hr & Hl). destruct Hs as [Ey Hs].
    apply NoDup_cons in Hnd as [Hny Hnd]. apply not_elem_of_cons in H0 as [Hy0 H0].
    rewrite (proj2 (Z.eqb_neq y 0)), (wd_get_Ok _ _ _ (not_eq_sym Hy0) Ew), bind_Ok, Elw by done. cbv zeta.
    rewrite (proj2 (Z.eqb_neq y x)) by (intros ->; apply Hny, elem_of_app; right; by left).
    rewrite (load_Ok _ _ _ (not_eq_sym Hy0) Ey), bind_Ok.
    replace (s32 (base + (ry - base))) with ry by (rewrite s32_small; lia).
    apply IH; try done; [lia|simpl in Hfuel; lia].
Qed.

Lemma gettime_spec st tl fr x :
  wd_rep st tl fr -> x ∈ dom (wd_tab st) -> wd_gettime st x = Ok (default 0 ((list_to_map tl : gmap Z Z) !! x)).
Proof.
  intros H Hx. apply elem_of_dom in Hx as [w Ew].
  assert (Hx0 : x <> 0) by (intros ->; apply (wr_null _ _ _ H), elem_of_dom; eauto).
  pose proof (wr_active _ _ _ H) as Hq.
  unfold wd_gettime, wd_isactive. rewrite (proj2 (Z.eqb_neq x 0)), (wd_get_Ok _ _ _ Hx0 Ew), !bind_Ok by done.
  destruct (WDOG_ISACTIVE w) eqn:Ea.
  - apply (wr_flags _ _ _ H x w Ew) in Ea. apply list_elem_of_fmap in Ea as ([y r] & -> & Hin). cbn [fst] in *.
    rewrite (elem_of_list_to_map_1 tl y r); [|apply Hq|done].
    apply list_elem_of_split in Hin as (t1 & t2 & ->). rewrite fmap_app, fmap_cons in Hq. cbn [fst] in Hq.
    rewrite (sqr_head _ _ _ Hq), (gettime_loop_spec st y t1 _ 0 r t2); try apply Hq; try done; [apply H|].
    pose proof (sq_rep_length _ _ _ Hq) as Hlen. rewrite length_app, length_fmap in Hlen. simpl in Hlen. lia.
  - rewrite not_elem_of_list_to_map_1; [done|]. intros Hin. apply (wr_flags _ _ _ H x w Ew) in Hin. congruence.
Qed.

(** ** Expiration *)

(** The calls made for a watchdog. *)
Definition fire (tab : gmap Z wdog_s) (x : Z) : list (Z * list Z) :=
  match tab !! x with
  | Some w => match wd_args w with Some args => [(func w, args)] | None => [] end
  | None => []
  end.

Lemma fire_body st st' x : same_bodies st st' -> fire (wd_tab st') x = fire (wd_tab st) x.
Proof.
  intros Hs. specialize (Hs x). unfold fire. destruct (wd_tab st' !! x) as [w'|], (wd_tab st !! x) as [w|]; try done.
  simpl in Hs. injection Hs as E1 E2 E3 _. unfold wd_args. by rewrite E1, E2, E3.
Qed.

(** Taking the first timer off the queue. *)
Lemma pop_spec st x r tl fr w :
  wd_rep st ((x, r) :: tl) fr -> wd_tab st !! x = Some w ->
  exists fl q st2, sq_remfirst (wd_next st) (g_wdactivelist st) = Ok (fl, q, x) /\
    (let st := set_active st fl q in
     if sq_head q =? 0 then Ok st
     else w ← wd_get st x; wd_update st (sq_head q) (fun h => set_lag h (s32 (lag h + lag w)))) = Ok st2 /\
    wd_tab st2 !! x = Some w /\
    wd_rep (set_tab st2 x (WDOG_CLRACTIVE w)) tl fr /\ same_bodies st (set_tab st2 x (WDOG_CLRACTIVE w)).
Proof.
  intros H Ew. destruct (rep_in _ _ _ x H) as (Hx0 & _ & Hxs); [by left|].
  pose proof (wr_active _ _ _ H) as Hq. rewrite fmap_cons in Hq. simpl fst in Hq.
  destruct (sq_remfirst_spec _ _ _ Hq) as (fl & q & E & Hq' & Hf). cbn [hd List.tl take] in E, Hq', Hf.
  destruct (pass_lag_spec st [] x r tl fr w H Ew) as (st1 & E1 & En & Ea & Ef & Enf & Ew1 & Hlag & Hbody).
  exists fl, q. assert (Hh : sq_head q = hd 0 tl.*1) by apply Hq'.
  assert (Hst : exists st2, (let st := set_active st fl q in
     if sq_head q =? 0 then Ok st
     else w ← wd_get st x; wd_update st (sq_head q) (fun h => set_lag h (s32 (lag h + lag w)))) = Ok st2 /\
     st2 = set_active st1 fl q).
  { cbv zeta. rewrite Hh. destruct (hd 0 tl.*1 =? 0) eqn:Eh.
    - injection E1 as <-. eauto.
    - b2p. rewrite (wd_get_Ok _ _ w Hx0), bind_Ok by done.
      unfold wd_update in *. apply bind_Ok_inv in E1 as (v & Ev & [= <-]).
      unfold wd_get in *. cbn [wd_tab set_active]. rewrite Ev, bind_Ok. eexists. split; [done|]. done. }
  destruct Hst as (st2 & E2 & ->). eexists. split; [done|]. split; [exact E2|]. split; [done|].
  unfold set_tab, set_active. cbn [wd_next wd_tab g_wdactivelist g_wdfreelist g_wdnfree]. rewrite Ef, Enf.
  apply (dequeue_rep st [] x r tl fr w st1); try done. by eapply sq_remfirst_dom.
Qed.

Lemma head_cons st x r tl fr : wd_rep st ((x, r) :: tl) fr -> sq_head (g_wdactivelist st) = x /\ x <> 0.
Proof.
  intros H. split; [apply (sqr_head _ _ _ (wr_active _ _ _ H))|].
  destruct (rep_in _ _ _ x H) as (? & _ & _); [by left|done].
Qed.

(** One round of the loop: the first timer is due. *)
Lemma expiration_step (call : Z -> list Z -> wd_state -> res wd_state) fuel st x r tl fr :
  wd_rep st ((x, r) :: tl) fr -> r <= 0 ->
  exists st3, wd_rep st3 tl fr /\ same_bodies st st3 /\
    expiration_loop call (S fuel) st =
      match fire (wd_tab st) x with
      | (f, args) :: _ =>
          st ← call f args st3; '(st, log) ← expiration_loop call fuel st; Ok (st, (f, args) :: log)
      | [] => expiration_loop call fuel st3
      end.
Proof.
  intros H Hr. destruct (head_cons _ _ _ _ _ H) as [Eh Hx0].
  pose proof (wr_lags _ _ _ H) as ((w & Ew & Elw) & _ & _).
  destruct (pop_spec _ _ _ _ _ _ H Ew) as (fl & q & st2 & E1 & E2 & Ew2 & H' & Hs).
  exists (set_tab st2 x (WDOG_CLRACTIVE w)). split_and!; [done..|]. cbn [expiration_loop].
  rewrite Eh, (proj2 (Z.eqb_neq x 0)) by done.
  rewrite (wd_get_Ok _ _ _ Hx0 Ew), bind_Ok, Elw, (proj2 (Z.ltb_ge 0 (r - 0))) by lia.
  rewrite E1, bind_Ok. cbv zeta in E2 |- *. rewrite E2, bind_Ok.
  rewrite (wd_update_Ok _ _ _ _ Hx0 Ew2), bind_Ok.
  rewrite (wd_get_Ok _ x (WDOG_CLRACTIVE w)), bind_Ok by (done || simpl; by rewrite lookup_insert_eq).
  change (wd_args (WDOG_CLRACTIVE w)) with (wd_args w). change (func (WDOG_CLRACTIVE w)) with (func w).
  unfold fire. rewrite Ew. by destruct (wd_args w).
Qed.

(** The loop ends when the first timer is not due. *)
Lemma expiration_stop (call : Z -> list Z -> wd_state -> res wd_state) fuel st tl fr :
  wd_rep st tl fr -> (forall e, head tl = Some e -> 0 < e.2) -> expiration_loop call (S fuel) st = Ok (st, []).
Proof.
  intros H Htl. cbn [expiration_loop]. destruct tl as [|[x r] tl].
  { by rewrite (sq_head_nil _ _ _ (wr_active _ _ _ H)). }
  destruct (head_cons _ _ _ _ _ H) as [Eh Hx0]. rewrite Eh, (proj2 (Z.eqb_neq x 0)) by done.
  pose proof (wr_lags _ _ _ H) as ((w & Ew & Elw) & _ & _).
  rewrite (wd_get_Ok _ _ _ Hx0 Ew), bind_Ok, Elw. specialize (Htl _ eq_refl). simpl in Htl.
  by rewrite (proj2 (Z.ltb_lt 0 (r - 0))) by lia.
Qed.

Section Pure.
Context (call : Z -> list Z -> wd_state -> res wd_state).
(** The watchdog functions do not use the watchdogs themselves. *)
Hypothesis call_pure : forall f args st, call f args st = Ok st.

Lemma expiration_loop_spec z : forall fuel st rest fr,
  wd_rep st (z ++ rest) fr -> Forall (fun e : Z * Z => e.2 <= 0) z ->
  (forall e, head rest = Some e -> 0 < e.2) -> (length z < fuel)%nat ->
  exists st', expiration_loop call fuel st = Ok (st', z.*1 ≫= fire (wd_tab st)) /\
    wd_rep st' rest fr /\ same_bodies st st'.
Proof.
  induction z as [|[x r] z IH]; intros fuel st rest fr H Hz Hrest Hfuel;
    (destruct fuel as [|fuel]; [simpl in Hfuel; lia|]).
  - exists st. by rewrite (expiration_stop call fuel st rest fr H Hrest).
  - apply Forall_cons in Hz as [Hr Hz]. cbn [app] in H.
    destruct (expiration_step call fuel st x r _ fr H Hr) as (st3 & H3 & Hs3 & ->).
    destruct (IH fuel st3 rest fr H3 Hz Hrest) as (st' & E & H' & Hs'); [simpl in Hfuel; lia|].
    assert (Hfires : z.*1 ≫= fire (wd_tab st3) = z.*1 ≫= fire (wd_tab st)).
    { apply list_bind_ext; [|done]. intros y. by apply fire_body. }
    exists st'. rewrite fmap_cons, bind_cons. cbn [fst]. rewrite <- Hfires. split_and!; [|done|].
    + unfold fire at 1 2. destruct (wd_tab st !! x) as [w|]; [|done].
      destruct (wd_args w) as [args|]; [|done]. by rewrite call_pure, bind_Ok, E, bind_Ok.
    + intros y. by rewrite (Hs' y), (Hs3 y).
Qed.

(** One tick less for every timer. *)
Definition dec (tl : timers) : timers := (fun e : Z * Z => (e.1, e.2 - 1)) <$> tl.

Lemma dec_keys tl : (dec tl).*1 = tl.*1.
Proof. unfold dec. rewrite <- list_fmap_compose. by apply list_fmap_ext. Qed.

Lemma lags_dec tab base tl : lags_ok tab base tl -> lags_ok tab (base - 1) (dec tl).
Proof.
  revert base. induction tl as [|[x r] tl IH]; intros base; [done|]. intros ((w & Ew & Elw) & Hr & H).
  simpl. split; [exists w; split; [done|lia]|]. split; [lia|]. by apply IH.
Qed.

Lemma dec_rep st x r tl fr w : wd_rep st ((x, r) :: tl) fr -> 1 <= r -> wd_tab st !! x = Some w ->
  wd_rep (set_tab st x (set_lag w (lag w - 1))) (dec ((x, r) :: tl)) fr /\
  same_bodies st (set_tab st x (set_lag w (lag w - 1))).
Proof.
  intros H Hr Ew. pose proof (wr_lags _ _ _ H) as ((w' & Ew' & Elw) & Hr' & Hl). simplify_eq.
  pose proof (sqr_nodup _ _ _ (wr_active _ _ _ H)) as Hnd. rewrite fmap_cons in Hnd.
  apply NoDup_cons in Hnd as [Hx _]. simpl in Hx.
  assert (Hxt : x ∈ dom (wd_tab st)) by (apply elem_of_dom; eauto).
  split; [split|]; cbn [set_tab wd_next wd_tab g_wdactivelist g_wdfreelist g_wdnfree]; rewrite ?dec_keys; try apply H.
  - simpl. split; [|split; [lia|]].
    + eexists. rewrite lookup_insert_eq. split; [done|]. simpl. lia.
    + apply lags_dec. eapply lags_ext; [|exact Hl]. intros y Hy. rewrite lookup_insert_ne; [done|]. by intros ->.
  - intros y v Ev. destruct (decide (y = x)) as [->|Hn].
    + rewrite lookup_insert_eq in Ev. injection Ev as <-. apply (wr_flags _ _ _ H x _ Ew).
    + rewrite lookup_insert_ne in Ev by done. by apply (wr_flags _ _ _ H).
  - rewrite dom_insert_L, (wr_dom _ _ _ H). clear - Hxt. set_solver.
  - rewrite dom_insert_L. pose proof (wr_null _ _ _ H) as Hn. clear - Hn Hxt. set_solver.
  - intros y v Ev. destruct (decide (y = x)) as [->|Hn].
    + rewrite lookup_insert_eq in Ev. injection Ev as <-. apply (wr_bytes _ _ _ H x _ Ew).
    + rewrite lookup_insert_ne in Ev by done. by apply (wr_bytes _ _ _ H y).
  - intros y. cbn [wd_tab set_tab].
    destruct (decide (y = x)) as [->|Hn]; [by rewrite lookup_insert_eq, Ew|by rewrite lookup_insert_ne].
Qed.

(** The timers that expire with the next tick, and the others after it. *)
Definition due (tl : timers) : timers := filter (fun e => e.2 <= 1) tl.
Definition later (tl : timers) : timers := dec (filter (fun e => 1 < e.2) tl).

Lemma due_later tab tl : forall base, lags_ok tab base tl ->
  dec tl = dec (due tl) ++ later tl /\ (forall e, head (later tl) = Some e -> 0 < e.2).
Proof.
  induction tl as [|[x r] tl IH]; intros base Hl; [done|]. destruct Hl as (_ & Hr & Hl).
  destruct (IH r Hl) as [IH1 IH2]. unfold due, later in *. rewrite !filter_cons. cbn [snd].
  destruct (decide (r <= 1)) as [Hle|Hgt].
  - rewrite decide_False by (simpl; lia). cbn [dec fmap list_fmap app]. split; [|done]. by rewrite IH1 at 1.
  - rewrite decide_True by (simpl; lia). pose proof (lags_range _ _ _ Hl) as Hall.
    assert (Hno : filter (fun e : Z * Z => e.2 <= 1) tl = []).
    { clear - Hall Hgt. induction Hall as [|e l He _ IHl]; [done|].
      rewrite filter_cons_False by lia. done. }
    rewrite Hno in *. split; [cbn [dec fmap list_fmap app]; f_equal; exact IH1|].
    intros e [= <-]. simpl. lia.
Qed.

Lemma timer_spec st tl fr :
  wd_rep st tl fr -> Forall (fun e : Z * Z => 1 <= e.2) tl ->
  exists st', wd_timer call st = Ok (st', (due tl).*1 ≫= fire (wd_tab st)) /\
    wd_rep st' (later tl) fr /\ same_bodies st st'.
Proof.
  intros H Hpos. unfold wd_timer. pose proof (wr_active _ _ _ H) as Hq.
  destruct tl as [|[x r] tl]; [by exists st; rewrite (sq_head_nil _ _ _ Hq)|].
  destruct (head_cons _ _ _ _ _ H) as [Eh0 Hx0]. rewrite Eh0, (proj2 (Z.eqb_neq x 0)) by done.
  pose proof (wr_lags _ _ _ H) as ((w & Ew & Elw) & Hr & _). apply Forall_cons in Hpos as [Hr1 _]. simpl in Hr1.
  rewrite (wd_update_Ok _ _ _ _ Hx0 Ew), bind_Ok. rewrite s32_small by lia.
  destruct (dec_rep _ _ _ _ _ _ H Hr1 Ew) as [H1 Hs1]. set (st1 := set_tab st x (set_lag w (lag w - 1))) in *.
  destruct (due_later (wd_tab st) ((x, r) :: tl) 0 (wr_lags _ _ _ H)) as [Hdl Hlater]. rewrite Hdl in H1.
  unfold wd_expiration. pose proof (wr_active _ _ _ H1) as Hq1.
  assert (Eh : sq_head (g_wdactivelist st1) = x).
  { unfold st1. cbn [g_wdactivelist set_tab]. by rewrite (sqr_head _ _ _ Hq). }
  rewrite Eh, (wd_get_Ok st1 x (set_lag w (lag w - 1))), bind_Ok by (done || unfold st1; simpl; by rewrite lookup_insert_eq).
  cbn [lag set_lag]. rewrite Elw.
  assert (Hz : Forall (fun e : Z * Z => e.2 <= 0) (dec (due ((x, r) :: tl)))).
  { apply Forall_fmap, Forall_forall. intros [y ry] [Hy _]%list_elem_of_filter. simpl in *. lia. }
  destruct (expiration_loop_spec _ (walk_fuel (wd_next st1)) st1 _ fr H1 Hz Hlater) as (st' & E & H' & Hs').
  { pose proof (sq_rep_length _ _ _ Hq1) as Hlen. rewrite fmap_app, length_app, !length_fmap in Hlen. lia. }
  assert (Hlog : (dec (due ((x, r) :: tl))).*1 ≫= fire (wd_tab st1) = (due ((x, r) :: tl)).*1 ≫= fire (wd_tab st)).
  { rewrite dec_keys. apply list_bind_ext; [|done]. intros y. by apply fire_body. }
  rewrite Hlog in E. destruct (r - 0 - 1 <=? 0) eqn:Er; b2p.
  - exists st'. split_and!; [done|done|]. intros y. by rewrite (Hs' y), (Hs1 y).
  - exists st1. assert (Hdue : due ((x, r) :: tl) = []).
    { unfold due. rewrite filter_cons_False by (simpl; lia).
      pose proof (wr_lags _ _ _ H) as (_ & _ & Hl). pose proof (lags_range _ _ _ Hl) as Hall.
      clear - Hall Er. induction Hall as [|e l He _ IHl]; [done|]. rewrite filter_cons_False by lia. done. }
    rewrite Hdue in *. done.
Qed.
End Pure.
