(* ===== verification/WdogProps.v ===== *)
(** * Watchdog timers: the properties of the component *)

From S2P Require Import Prelude Bits Links Queue Wdog WdogRep WdogTime.
Import Sq.
Local Open Scope Z_scope.

(** ** A run of clock ticks *)

Section Ticks.
Context (call : Z -> list Z -> wd_state -> res wd_state).

(** [n] timer interrupts, with the calls made in each. *)
Fixpoint wd_run (n : nat) (st : wd_state) : res (wd_state * list (list (Z * list Z))) :=
  match n with
  | O => Ok (st, [])
  | S n =>
      '(st, log) ← wd_timer call st;
      '(st, logs) ← wd_run n st;
      Ok (st, log :: logs)
  end.

(** The timers left after [n] ticks, and those that expire with tick [k]. *)
Definition pending (n : Z) (tl : timers) : timers :=
  (fun e : Z * Z => (e.1, e.2 - n)) <$> filter (fun e => n < e.2) tl.
Definition at_tick (k : Z) (tl : timers) : list Z := (filter (fun e => e.2 = k) tl).*1.

Lemma pending_later n tl : Forall (fun e : Z * Z => 1 <= e.2) tl -> 0 <= n ->
  pending n (later tl) = pending (n + 1) tl.
Proof.
  intros Hpos Hn. unfold pending, later, dec. induction Hpos as [|[x r] tl Hr _ IH]; [done|].
  rewrite !filter_cons. simpl in *. destruct (decide (1 < r)) as [H1|H1].
  - rewrite fmap_cons, filter_cons. simpl. destruct (decide (n < r - 1)) as [H2|H2].
    + rewrite decide_True by lia. rewrite !fmap_cons, IH. simpl. do 2 f_equal. lia.
    + rewrite decide_False by lia. exact IH.
  - rewrite decide_False by lia. exact IH.
Qed.

Lemma at_tick_later k tl : Forall (fun e : Z * Z => 1 <= e.2) tl -> 1 <= k ->
  at_tick k (later tl) = at_tick (k + 1) tl.
Proof.
  intros Hpos Hk. unfold at_tick, later, dec. induction Hpos as [|[x r] tl Hr _ IH]; [done|].
  rewrite !filter_cons. simpl in *. destruct (decide (1 < r)) as [H1|H1].
  - rewrite fmap_cons, filter_cons. simpl. destruct (decide (r - 1 = k)) as [H2|H2].
    + rewrite decide_True by lia. rewrite !fmap_cons, IH. done.
    + rewrite decide_False by lia. exact IH.
  - rewrite decide_False by lia. exact IH.
Qed.

Lemma due_at_tick tl : Forall (fun e : Z * Z => 1 <= e.2) tl -> (due tl).*1 = at_tick 1 tl.
Proof.
  intros Hpos. unfold due, at_tick. f_equal. induction Hpos as [|[x r] tl Hr _ IH]; [done|].
  rewrite !filter_cons. simpl in *. rewrite IH. destruct (decide (r <= 1)), (decide (r = 1)); done || lia.
Qed.

Lemma wd_run_spec (call_pure : forall f args st, call f args st = Ok st) n : forall st tl fr,
  wd_rep st tl fr -> Forall (fun e : Z * Z => 1 <= e.2) tl ->
  exists st' logs, wd_run n st = Ok (st', logs) /\
    wd_rep st' (pending (Z.of_nat n) tl) fr /\ same_bodies st st' /\
    length logs = n /\ (forall k, (k < n)%nat ->
      logs !! k = Some (at_tick (Z.of_nat k + 1) tl ≫= fire (wd_tab st))).
Proof.
  induction n as [|n IH]; intros st tl fr H Hpos; cbn [wd_run].
  - exists st, []. split_and!; try done; [|lia].
    assert (E : pending (Z.of_nat 0) tl = tl); [|by rewrite E].
    unfold pending. clear - Hpos. induction Hpos as [|[x r] tl Hr _ IH]; [done|]. simpl in Hr.
    rewrite filter_cons_True by (simpl; lia). rewrite fmap_cons, IH. simpl. do 2 f_equal. lia.
  - destruct (timer_spec call call_pure st tl fr H Hpos) as (st1 & E1 & H1 & Hs1).
    destruct (IH st1 _ fr H1) as (st2 & logs & E2 & H2 & Hs2 & Hlen & Hlogs).
    { apply Forall_fmap, Forall_forall. intros [x r] [Hr _]%list_elem_of_filter. simpl in *. lia. }
    exists st2, (((due tl).*1 ≫= fire (wd_tab st)) :: logs). rewrite E1, bind_Ok, E2, bind_Ok.
    split_and!; [done| | |simpl; lia|].
    + rewrite pending_later in H2 by (done || lia). replace (Z.of_nat (S n)) with (Z.of_nat n + 1) by lia. done.
    + intros y. by rewrite (Hs2 y), (Hs1 y).
    + intros k Hk. destruct k as [|k]; [by rewrite due_at_tick|]. cbn [lookup list_lookup].
      rewrite Hlogs by lia. rewrite at_tick_later by (done || lia). f_equal.
      replace (Z.of_nat (S k) + 1) with (Z.of_nat k + 1 + 1) by lia.
      apply list_bind_ext; [|done]. intros y. by apply fire_body.
Qed.
End Ticks.

Lemma cancel_any st tl fr x :
  wd_rep st tl fr -> x ∈ dom (wd_tab st) ->
  exists st' ret, wd_cancel st x = Ok (st', ret) /\ wd_rep st' (wremove x tl) fr /\ same_bodies st st' /\
    (x ∈ tl.*1 -> ret = OK) /\ (x ∉ tl.*1 -> ret = - EINVAL /\ st' = st).
Proof.
  intros H Hx. apply elem_of_dom in Hx as [w Ew].
  destruct (decide (x ∈ tl.*1)) as [Hin|Hn].
  - pose proof Hin as ([y r] & -> & Hin')%list_elem_of_fmap.
    apply list_elem_of_split in Hin' as (t1 & t2 & ->). simpl fst in *.
    destruct (cancel_spec _ _ _ _ _ _ H) as (st' & E & H' & Hs). exists st', OK.
    rewrite wremove_split by apply (wr_active _ _ _ H). split_and!; done.
  - exists st, (- EINVAL). rewrite wremove_absent by done. split_and!; try done.
    assert (Hx0 : x <> 0) by (intros ->; apply (wr_null _ _ _ H), elem_of_dom; eauto).
    unfold wd_cancel, wd_isactive. rewrite (proj2 (Z.eqb_neq x 0)), (wd_get_Ok _ _ _ Hx0 Ew), !bind_Ok by done.
    destruct (WDOG_ISACTIVE w) eqn:Ea; [|done]. by apply (wr_flags _ _ _ H x w Ew) in Ea.
Qed.

(** ** Creation and deletion *)

Lemma addlast_free st tl fr x w n :
  wd_rep st tl fr -> wd_tab st !! x = Some w -> x ∉ tl.*1 -> x ∉ fr ->
  n = Z.of_nat (S (length fr)) -> n < 2 ^ 16 ->
  exists fl q, sq_addlast (wd_next st) (g_wdfreelist st) x = Ok (fl, q) /\
    wd_rep (set_free st fl q n) tl (fr ++ [x]).
Proof.
  intros H Ew Hxt Hxf En Hn.
  assert (Hnode : is_node (wd_next st) x).
  { assert (Hx : x ∈ dom (wd_tab st)) by (apply elem_of_dom; eauto). split.
    - intros ->. by apply (wr_null _ _ _ H).
    - apply elem_of_dom. by rewrite (wr_dom _ _ _ H). }
  destruct (sq_addlast_spec _ _ _ x (wr_free _ _ _ H) Hnode Hxf) as (fl & q & E & Hq & Hf).
  exists fl, q. split; [done|].
  split; cbn [set_free wd_next wd_tab g_wdactivelist g_wdfreelist g_wdnfree]; try apply H; try done.
  - eapply sq_rep_frame; [apply H|exact Hf|]. intros y Hy [->|Hin]%elem_of_cons; [done|]. by apply (wr_disj _ _ _ H y).
  - rewrite (sq_addlast_dom _ _ _ _ _ E). apply H.
  - intros y [Hy|Hy]%elem_of_app; [by apply (wr_disj _ _ _ H)|]. by apply list_elem_of_singleton in Hy as ->.
  - rewrite length_app. simpl. lia.
Qed.

Lemma remfirst_free st tl x fr w :
  wd_rep st tl (x :: fr) -> wd_tab st !! x = Some w ->
  exists fl q, sq_remfirst (wd_next st) (g_wdfreelist st) = Ok (fl, q, x) /\ is_Some (fl !! x) /\
    let n := u16 (g_wdnfree st - 1) in
    wd_rep (set_tab (set_active (set_free st fl q n) (<[x := 0]> fl) (g_wdactivelist st)) x (set_flags w 0)) tl fr.
Proof.
  intros H Ew. pose proof (wr_free _ _ _ H) as Hq. pose proof (sqr_nodup _ _ _ Hq) as Hnd.
  apply NoDup_cons in Hnd as [Hxf Hnd]. pose proof (wr_disj _ _ _ H x ltac:(by left)) as Hxt.
  assert (Hx : x ∈ dom (wd_tab st)) by (apply elem_of_dom; eauto).
  destruct (sq_remfirst_spec _ _ _ Hq) as (fl & q & E & Hq' & Hf). cbn [hd List.tl take] in E, Hq', Hf.
  exists fl, q. split; [done|].
  assert (Hd : dom fl = dom (wd_next st)) by (by eapply sq_remfirst_dom).
  assert (Hxs : is_Some (fl !! x)) by (apply elem_of_dom; rewrite Hd, (wr_dom _ _ _ H); done).
  split; [done|]. intros n. destruct (wr_nfree _ _ _ H) as [En Hn]. simpl in En, Hn.
  assert (Hfx : frame [x] fl (<[x := 0]> fl)).
  { intros y Hy. rewrite lookup_insert_ne; [done|]. intros <-. apply Hy. by left. }
  split; cbn [set_tab set_active set_free wd_next wd_tab g_wdactivelist g_wdfreelist g_wdnfree].
  - eapply sq_rep_frame; [|exact Hfx|by intros y Hy ->%list_elem_of_singleton].
    eapply sq_rep_frame; [apply H|exact Hf|by intros y Hy ->%list_elem_of_singleton].
  - eapply lags_ext; [|apply H]. intros y Hy. rewrite lookup_insert_ne; [done|]. by intros ->.
  - intros y v Ev. destruct (decide (y = x)) as [->|Hy].
    + rewrite lookup_insert_eq in Ev. injection Ev as <-. done.
    + rewrite lookup_insert_ne in Ev by done. by apply (wr_flags _ _ _ H).
  - rewrite !dom_insert_L, Hd, (wr_dom _ _ _ H). done.
  - rewrite dom_insert_L. pose proof (wr_null _ _ _ H) as Hnl. clear - Hnl Hx. set_solver.
  - intros y v Ev. destruct (decide (y = x)) as [->|Hy].
    + rewrite lookup_insert_eq in Ev. injection Ev as <-. simpl. lia.
    + rewrite lookup_insert_ne in Ev by done. by apply (wr_bytes _ _ _ H y).
  - eapply sq_rep_frame; [exact Hq'|exact Hfx|by intros y Hy ->%list_elem_of_singleton].
  - intros y Hy. apply (wr_disj _ _ _ H). by right.
  - unfold n. rewrite En. unfold u16. rewrite Z.mod_small by lia. lia.
Qed.

Fixpoint pool (n : nat) (size wdog : Z) : list Z :=
  match n with O => [] | S n => wdog :: pool n size (wdog + size) end.

Lemma pool_ge n : forall size wdog x, 0 < size -> x ∈ pool n size wdog -> wdog <= x.
Proof.
  induction n as [|n IH]; intros size wdog x Hs; simpl; [set_solver|].
  intros [->|Hx]%elem_of_cons; [lia|]. apply IH in Hx; lia.
Qed.

Lemma load_pool_spec n : forall size wdog fl q l,
  sq_rep fl q l -> 0 < size -> (forall x, x ∈ pool n size wdog -> is_node fl x /\ x ∉ l) ->
  exists fl' q', wd_load_pool n size wdog fl q = Ok (fl', q') /\
    sq_rep fl' q' (l ++ pool n size wdog) /\ dom fl' = dom fl.
Proof.
  induction n as [|n IH]; intros size wdog fl q l H Hs Hp; cbn [wd_load_pool pool].
  - exists fl, q. by rewrite app_nil_r.
  - destruct (Hp wdog) as [Hn Hl]; [by left|].
    destruct (sq_addlast_spec _ _ _ wdog H Hn Hl) as (fl1 & q1 & E1 & H1 & _).
    pose proof (sq_addlast_dom _ _ _ _ _ E1) as Hd1. rewrite E1, bind_Ok.
    destruct (IH size (wdog + size) fl1 q1 (l ++ [wdog]) H1 Hs) as (fl2 & q2 & E2 & H2 & Hd2).
    { intros x Hx. destruct (Hp x) as [[Hx0 Hxs] Hxl]; [by right|]. split.
      - split; [done|]. apply elem_of_dom. rewrite Hd1. by apply elem_of_dom.
      - apply pool_ge in Hx; [|done]. intros [?| ->%list_elem_of_singleton]%elem_of_app; [done|lia]. }
    exists fl2, q2. rewrite E2. rewrite <- app_assoc in H2. split_and!; [done|done|congruence].
Qed.

Lemma init_spec g_wdpool size st :
  0 < g_wdpool -> 0 < size -> dom (wd_next st) = dom (wd_tab st) -> 0 ∉ dom (wd_tab st) ->
  (forall x, x ∈ pool CONFIG_PREALLOC_WDOGS size g_wdpool -> is_Some (wd_next st !! x)) ->
  (forall x w, wd_tab st !! x = Some w -> flags w = 0 \/ flags w = WDOGF_STATIC) ->
  exists st', wd_initialize g_wdpool size st = Ok st' /\ wd_tab st' = wd_tab st /\
    wd_rep st' [] (pool CONFIG_PREALLOC_WDOGS size g_wdpool).
Proof.
  intros Hp Hs Hd H0 Hn Hfl.
  destruct (load_pool_spec CONFIG_PREALLOC_WDOGS size g_wdpool (wd_next st) sq_init [] (sq_init_spec _) Hs)
    as (fl & q & E & H & Hdm).
  { intros x Hx. split; [|set_solver]. split; [|by apply Hn]. apply pool_ge in Hx; lia. }
  eexists. unfold wd_initialize. rewrite E, bind_Ok. split; [done|]. split; [done|].
  split; cbn [wd_next wd_tab g_wdactivelist g_wdfreelist g_wdnfree]; try done.
  - apply sq_init_spec.
  - intros x w Ew. destruct (Hfl x w Ew) as [E0|E0]; unfold WDOG_ISACTIVE; rewrite E0; simpl; split; (done || set_solver).
  - by rewrite Hdm.
  - intros x w Ew. destruct (Hfl x w Ew) as [->| ->]; vm_compute; split; congruence.
  - intros x _ Hx. by apply not_elem_of_nil in Hx.
Qed.

(** [wd_initialize] leaves no timer active and all pre-allocated watchdogs in the
    free pool, counted by [g_wdnfree]. *)
Theorem wd_initialize_correct g_wdpool size st :
  0 < g_wdpool -> 0 < size -> dom (wd_next st) = dom (wd_tab st) -> 0 ∉ dom (wd_tab st) ->
  (forall x, x ∈ pool CONFIG_PREALLOC_WDOGS size g_wdpool -> is_Some (wd_next st !! x)) ->
  (forall x w, wd_tab st !! x = Some w -> flags w = 0 \/ flags w = WDOGF_STATIC) ->
  exists st', wd_initialize g_wdpool size st = Ok st' /\ wd_tab st' = wd_tab st /\
    wd_rep st' [] (pool CONFIG_PREALLOC_WDOGS size g_wdpool).
Proof. apply init_spec. Qed.

(** Sixteen watchdogs of 28 bytes at address 1000. *)
Definition demo_pool : list Z := pool CONFIG_PREALLOC_WDOGS 28 1000.
Definition demo_wd : wd_state :=
  WdState (list_to_map ((fun x => (x, 0)) <$> demo_pool))
    (list_to_map ((fun x => (x, Wdog 0 0 0 0 [])) <$> demo_pool)) sq_init sq_init 0.

Lemma demo_wd_pre :
  dom (wd_next demo_wd) = dom (wd_tab demo_wd) /\ 0 ∉ dom (wd_tab demo_wd) /\
  (forall x, x ∈ pool CONFIG_PREALLOC_WDOGS 28 1000 -> is_Some (wd_next demo_wd !! x)) /\
  (forall x w, wd_tab demo_wd !! x = Some w -> flags w = 0 \/ flags w = WDOGF_STATIC).
Proof.
  split_and!.
  - vm_compute. reflexivity.
  - apply not_elem_of_dom. vm_compute. reflexivity.
  - apply Forall_forall. vm_compute. repeat constructor; eauto.
  - intros x w Ew. left. apply elem_of_list_to_map_2, list_elem_of_fmap in Ew as (y & [= _ ->] & _). done.
Qed.

Lemma wd_initialize_witness : exists st', wd_initialize 1000 28 demo_wd = Ok st' /\
  wd_rep st' [] demo_pool.
Proof.
  destruct demo_wd_pre as (H1 & H2 & H3 & H4).
  destruct (wd_initialize_correct 1000 28 demo_wd ltac:(lia) ltac:(lia) H1 H2 H3 H4) as (st' & E & _ & H).
  exists st'. split; [exact E|exact H].
Defined.

(** The demonstration state after [wd_initialize]: one watchdog taken from the pool. *)
Lemma demo_rep : exists st fr, (st ← wd_initialize 1000 28 demo_wd; wd_create false 0 (Wdog 0 0 0 0 []) st) = Ok (st, 1000) /\
  wd_rep st [] fr /\ 1000 ∈ dom (wd_tab st) /\ 1000 ∉ fr /\ length fr = 15%nat /\
  wd_tab st !! 1000 = Some (Wdog 0 0 0 0 []).
Proof.
  destruct demo_wd_pre as (H1 & H2 & H3 & H4).
  destruct (init_spec 1000 28 demo_wd ltac:(lia) ltac:(lia) H1 H2 H3 H4) as (st & E & Et & H).
  assert (Ew : wd_tab st !! 1000 = Some (Wdog 0 0 0 0 [])) by (rewrite Et; vm_compute; reflexivity).
  destruct (remfirst_free st [] 1000 _ _ H Ew) as (fl & q & Er & Hs & Hr).
  eexists _, _. split; [|split; [exact Hr|]].
  - rewrite E, bind_Ok. unfold wd_create. destruct (wr_nfree _ _ _ H) as [-> _].
    change (CONFIG_WDOG_INTRESERVE <? Z.of_nat (length (pool CONFIG_PREALLOC_WDOGS 28 1000))) with true.
    cbn [orb]. rewrite Er, bind_Ok. change (1000 =? 0) with false. cbv iota zeta. unfold set_next.
    cbn [set_free wd_next]. rewrite store_Ok, !bind_Ok by done.
    erewrite wd_update_Ok; [|done|exact Ew]. rewrite bind_Ok. done.
  - split_and!.
    + cbn [wd_tab set_tab]. apply elem_of_dom. rewrite lookup_insert_eq. eauto.
    + pose proof (sqr_nodup _ _ _ (wr_free _ _ _ H)) as [Hn _]%NoDup_cons. exact Hn.
    + done.
    + cbn [wd_tab set_tab]. by rewrite lookup_insert_eq.
Qed.

(** ** Starting, cancelling, asking *)

(** [wd_start] queues the watchdog behind those that expire no later, to expire
    after one tick more than [delay] (the largest delay is not extended), whether or
    not it was active before; function and parameters are saved, and no other
    watchdog changes its expiration, function or parameters.  All walks along the
    queue end and no 32-bit addition overflows. *)
Theorem wd_start_correct st tl fr x delay fn args :
  wd_rep st tl fr -> x ∈ dom (wd_tab st) -> x ∉ fr -> 0 <= delay < 2 ^ 31 -> (length args <= 2)%nat ->
  exists st' w, wd_start st x delay fn (Z.of_nat (length args)) args = Ok (st', OK) /\
    wd_rep st' (winsert x (Z.min (delay + 1) (2 ^ 31 - 1)) (wremove x tl)) fr /\
    wd_tab st' !! x = Some w /\ func w = fn /\ wd_args w = Some args /\
    (forall y, y <> x -> body <$> wd_tab st' !! y = body <$> wd_tab st !! y).
Proof. apply start_spec. Qed.

Lemma wd_start_witness : exists st fr st', wd_rep st [] fr /\
  wd_start st 1000 20 77 1 [5] = Ok (st', OK) /\ wd_rep st' [(1000, 21)] fr.
Proof.
  destruct demo_rep as (st & fr & _ & H & Hd & Hf & _).
  destruct (wd_start_correct st [] fr 1000 20 77 [5] H Hd Hf ltac:(lia) ltac:(simpl; lia)) as (st' & w & E & H' & _).
  exists st, fr, st'. split_and!; [exact H|exact E|exact H'].
Defined.

(** [wd_start] rejects a NULL watchdog, too many parameters and a negative delay
    with -EINVAL, and changes nothing. *)
Theorem wd_start_invalid st x delay fn ac args :
  x = 0 \/ CONFIG_MAX_WDOGPARMS < ac \/ delay < 0 -> wd_start st x delay fn ac args = Ok (st, - EINVAL).
Proof.
  intros Hbad. unfold wd_start.
  destruct ((x =? 0) || (CONFIG_MAX_WDOGPARMS <? ac) || (delay <? 0)) eqn:E; [done|]. b2p. lia.
Qed.

Lemma wd_start_invalid_witness : wd_start demo_wd 1000 (-1) 77 1 [5] = Ok (demo_wd, - EINVAL).
Proof. apply wd_start_invalid. right. right. lia. Defined.

(** [wd_cancel] of an active watchdog removes it and leaves the expiration times of
    all others as they were; of an inactive one it returns -EINVAL and changes
    nothing. *)
Theorem wd_cancel_correct st tl fr x :
  wd_rep st tl fr -> x ∈ dom (wd_tab st) ->
  exists st' ret, wd_cancel st x = Ok (st', ret) /\ wd_rep st' (wremove x tl) fr /\ same_bodies st st' /\
    (x ∈ tl.*1 -> ret = OK) /\ (x ∉ tl.*1 -> ret = - EINVAL /\ st' = st).
Proof. apply cancel_any. Qed.

Lemma wd_cancel_witness : exists st fr st' ret, wd_rep st [] fr /\
  wd_cancel st 1000 = Ok (st', ret) /\ ret = - EINVAL.
Proof.
  destruct demo_rep as (st & fr & _ & H & Hd & _).
  destruct (wd_cancel_correct st [] fr 1000 H Hd) as (st' & ret & E & _ & _ & _ & Hn).
  exists st, fr, st', ret. split_and!; [exact H|exact E|]. apply Hn. apply not_elem_of_nil.
Defined.

(** [wd_gettime] returns the ticks left to an active watchdog and 0 for an
    inactive one. *)
Theorem wd_gettime_correct st tl fr x :
  wd_rep st tl fr -> x ∈ dom (wd_tab st) ->
  (forall r, (x, r) ∈ tl -> wd_gettime st x = Ok r) /\ (x ∉ tl.*1 -> wd_gettime st x = Ok 0).
Proof.
  intros H Hx. rewrite (gettime_spec st tl fr x H Hx). split.
  - intros r Hr. rewrite (elem_of_list_to_map_1 tl x r); [done|apply (wr_active _ _ _ H)|done].
  - intros Hn. by rewrite not_elem_of_list_to_map_1.
Qed.

Lemma wd_gettime_witness : exists st fr, wd_rep st [] fr /\ wd_gettime st 1000 = Ok 0.
Proof.
  destruct demo_rep as (st & fr & _ & H & Hd & _). exists st, fr. split; [exact H|].
  apply (wd_gettime_correct st [] fr 1000 H Hd). apply not_elem_of_nil.
Defined.

(** ** Time *)

(** a watchdog started with delay [d] is called at tick [d + 1] exactly, once, with
    its parameters, however many other watchdogs are active: until then
    [wd_gettime] counts down, afterwards the watchdog is inactive.  The watchdog
    functions are assumed not to use the watchdogs themselves. *)
Theorem wd_fires_on_time call st tl fr x d fn args :
  (forall f a st, call f a st = Ok st) ->
  wd_rep st tl fr -> Forall (fun e : Z * Z => 1 <= e.2) tl -> x ∈ dom (wd_tab st) -> x ∉ fr ->
  (length args <= 2)%nat -> Z.of_nat d < 2 ^ 31 - 1 ->
  exists st1, wd_start st x (Z.of_nat d) fn (Z.of_nat (length args)) args = Ok (st1, OK) /\
    (forall k, (k <= d)%nat -> exists stk logs, wd_run call k st1 = Ok (stk, logs) /\
       wd_gettime stk x = Ok (Z.of_nat d + 1 - Z.of_nat k)) /\
    (exists st2 logs log, wd_run call (S d) st1 = Ok (st2, logs) /\ logs !! d = Some log /\
       (fn, args) ∈ log /\ wd_gettime st2 x = Ok 0).
Proof.
  intros Hcall H Hpos Hx Hxf Hargs Hd.
  destruct (start_spec st tl fr x (Z.of_nat d) fn args H Hx Hxf ltac:(lia) Hargs)
    as (st1 & w & E & H1 & Ew & Efn & Eargs & _). rewrite Z.min_l in H1 by lia.
  set (tl1 := winsert x (Z.of_nat d + 1) (wremove x tl)) in *. exists st1. split; [done|].
  assert (Hin : (x, Z.of_nat d + 1) ∈ tl1).
  { unfold tl1. clear. induction (wremove x tl) as [|[y r] l IH]; simpl; [by left|].
    destruct (_ <? r); [by left|by right]. }
  assert (Hpos1 : Forall (fun e : Z * Z => 1 <= e.2) tl1).
  { apply Forall_forall. intros e He. assert (Hor : e = (x, Z.of_nat d + 1) \/ e ∈ wremove x tl).
    { revert He. unfold tl1. clear. induction (wremove x tl) as [|[y r] l IH]; simpl; [set_solver|].
      destruct (_ <? r); set_solver. }
    destruct Hor as [->|[_ He']%list_elem_of_filter]; [simpl; lia|]. rewrite Forall_forall in Hpos. by apply Hpos. }
  assert (Hdom : forall stk, same_bodies st1 stk -> x ∈ dom (wd_tab stk)).
  { intros stk Hs. specialize (Hs x). rewrite Ew in Hs. apply elem_of_dom. destruct (wd_tab stk !! x); [eauto|done]. }
  split.
  - intros k Hk. destruct (wd_run_spec call Hcall k st1 tl1 fr H1 Hpos1) as (stk & logs & Ek & Hk' & Hs & _ & _).
    exists stk, logs. split; [done|]. rewrite (gettime_spec stk _ fr x Hk' (Hdom _ Hs)).
    rewrite (elem_of_list_to_map_1 _ x (Z.of_nat d + 1 - Z.of_nat k)); [done|apply (wr_active _ _ _ Hk')|].
    unfold pending. apply list_elem_of_fmap. exists (x, Z.of_nat d + 1). split; [done|].
    apply list_elem_of_filter. split; [simpl; lia|done].
  - destruct (wd_run_spec call Hcall (S d) st1 tl1 fr H1 Hpos1) as (st2 & logs & E2 & H2 & Hs & _ & Hlogs).
    exists st2, logs, (at_tick (Z.of_nat d + 1) tl1 ≫= fire (wd_tab st1)). split; [done|].
    split; [apply Hlogs; lia|]. split.
    + apply list_elem_of_bind. exists x. split.
      * unfold fire. rewrite Ew, Eargs, Efn. by left.
      * unfold at_tick. apply list_elem_of_fmap. exists (x, Z.of_nat d + 1). split; [done|]. by apply list_elem_of_filter.
    + rewrite (gettime_spec st2 _ fr x H2 (Hdom _ Hs)), not_elem_of_list_to_map_1; [done|].
      intros ([y r] & -> & Hp)%list_elem_of_fmap. unfold pending in Hp.
      apply list_elem_of_fmap in Hp as ([z rz] & [= -> ->] & [Hlt Hz]%list_elem_of_filter). simpl in *.
      pose proof (sqr_nodup _ _ _ (wr_active _ _ _ H1)) as Hnd.
      pose proof (elem_of_list_to_map_1 (M := gmap Z) tl1 z rz Hnd Hz) as L1.
      rewrite (elem_of_list_to_map_1 (M := gmap Z) tl1 z _ Hnd Hin) in L1. injection L1 as L1. lia.
Qed.

Lemma wd_fires_on_time_witness : exists st fr st1 st2 logs, wd_rep st [] fr /\
  wd_start st 1000 3 77 1 [5] = Ok (st1, OK) /\
  wd_run (fun _ _ st => Ok st) 4 st1 = Ok (st2, logs) /\ wd_gettime st2 1000 = Ok 0.
Proof.
  destruct demo_rep as (st & fr & _ & H & Hd & Hf & _).
  destruct (wd_fires_on_time (fun _ _ st => Ok st) st [] fr 1000 3 77 [5] (fun _ _ _ => eq_refl) H
    ltac:(constructor) Hd Hf ltac:(simpl; lia) ltac:(lia)) as (st1 & E & _ & (st2 & logs & log & E2 & _ & _ & Eg)).
  exists st, fr, st1, st2, logs. split_and!; [exact H|exact E|exact E2|exact Eg].
Defined.

(** With functions that do not use the watchdogs, the calls of the watchdogs that had
    [k] ticks left are made in tick [k], in the order of the queue; the other
    watchdogs have [n] ticks less. *)
Theorem wd_run_exact call n st tl fr :
  (forall f a st, call f a st = Ok st) -> wd_rep st tl fr -> Forall (fun e : Z * Z => 1 <= e.2) tl ->
  exists st' logs, wd_run call n st = Ok (st', logs) /\
    wd_rep st' (pending (Z.of_nat n) tl) fr /\ length logs = n /\
    (forall k, (k < n)%nat -> logs !! k = Some (at_tick (Z.of_nat k + 1) tl ≫= fire (wd_tab st))).
Proof.
  intros Hcall H Hpos. destruct (wd_run_spec call Hcall n st tl fr H Hpos) as (st' & logs & E & H' & _ & Hl & Hk).
  by exists st', logs.
Qed.

(** ** Watchdog functions that use the watchdogs *)

(** What a watchdog function may do: start or stop watchdogs, itself included. *)
Inductive wd_op :=
  | OpStart (x delay fn : Z) (args : list Z)
  | OpCancel (x : Z).

Definition do_op (st : wd_state) (o : wd_op) : res wd_state :=
  match o with
  | OpStart x delay fn args => '(st, _) ← wd_start st x delay fn (Z.of_nat (length args)) args; Ok st
  | OpCancel x => '(st, _) ← wd_cancel st x; Ok st
  end.

Fixpoint do_ops (l : list wd_op) (st : wd_state) : res wd_state :=
  match l with [] => Ok st | o :: l => st ← do_op st o; do_ops l st end.

(** The watchdogs that are in use are those of [d] outside the free pool [fr]. *)
Definition op_ok (d : gset Z) (fr : list Z) (o : wd_op) : Prop :=
  match o with
  | OpStart x delay _ args => x ∈ d /\ x ∉ fr /\ 0 <= delay < 2 ^ 31 /\ (length args <= 2)%nat
  | OpCancel x => x ∈ d
  end.

(** The abstract state: the timers with the ticks left to each, and the call each
    watchdog makes when it expires. *)
Record alarms := Alarms { al_timers : timers; al_calls : Z -> list (Z * list Z) }.

Definition op_spec (a : alarms) (o : wd_op) : alarms :=
  match o with
  | OpStart x delay fn args =>
      Alarms (winsert x (Z.min (delay + 1) (2 ^ 31 - 1)) (wremove x (al_timers a)))
        (fun y => if y =? x then [(fn, args)] else al_calls a y)
  | OpCancel x => Alarms (wremove x (al_timers a)) (al_calls a)
  end.

Record alarms_rep (d : gset Z) (fr : list Z) (st : wd_state) (a : alarms) : Prop := {
  ar_rep : wd_rep st (al_timers a) fr;
  ar_calls : forall x, fire (wd_tab st) x = al_calls a x;
  ar_dom : dom (wd_tab st) = d
}.

Section Reacting.
Context (react : Z -> list Z -> list wd_op).

Definition run_call (f : Z) (args : list Z) (st : wd_state) : res wd_state := do_ops (react f args) st.

(** The timers that are due are taken one after the other, and their functions act
    before the next one is taken. *)
Fixpoint expire_spec (n : nat) (a : alarms) : list (Z * list Z) * alarms :=
  match n, al_timers a with
  | S n, (x, r) :: tl =>
      if r <=? 0 then
        let c := al_calls a x in
        let '(log, a) := expire_spec n (foldl op_spec (Alarms tl (al_calls a)) (c ≫= fun '(f, args) => react f args)) in
        (c ++ log, a)
      else ([], a)
  | _, _ => ([], a)
  end.

(** A tick: one tick less for all, then the timers that are due. *)
Definition tick_spec (a : alarms) : list (Z * list Z) * alarms :=
  expire_spec (length (al_timers a)) (Alarms (dec (al_timers a)) (al_calls a)).

Fixpoint ticks_spec (n : nat) (a : alarms) : list (list (Z * list Z)) * alarms :=
  match n with
  | O => ([], a)
  | S n => let '(log, a) := tick_spec a in let '(logs, a) := ticks_spec n a in (log :: logs, a)
  end.
End Reacting.

Lemma body_dom x (tab tab' : gmap Z wdog_s) : body <$> tab' !! x = body <$> tab !! x -> x ∈ dom tab' <-> x ∈ dom tab.
Proof. rewrite !elem_of_dom. destruct (tab' !! x), (tab !! x); naive_solver. Qed.

Lemma fire_ext (tab tab' : gmap Z wdog_s) x : body <$> tab' !! x = body <$> tab !! x -> fire tab' x = fire tab x.
Proof.
  unfold fire. destruct (tab' !! x) as [w'|], (tab !! x) as [w|]; try done.
  intros [= E1 E2 E3 _]. unfold wd_args. by rewrite E1, E2, E3.
Qed.

Lemma same_bodies_rep d fr st st' tl tl' c :
  alarms_rep d fr st (Alarms tl c) -> wd_rep st' tl' fr -> same_bodies st st' -> alarms_rep d fr st' (Alarms tl' c).
Proof.
  intros H H' Hs. split; [done| |].
  - intros x. by rewrite (fire_body _ _ x Hs), (ar_calls _ _ _ _ H).
  - rewrite <- (ar_dom _ _ _ _ H). apply set_eq. intros x. apply body_dom, Hs.
Qed.

Lemma do_op_spec d fr st a o : alarms_rep d fr st a -> op_ok d fr o ->
  returns (do_op st o) (fun st' => alarms_rep d fr st' (op_spec a o)).
Proof.
  intros H Ho. pose proof (ar_rep _ _ _ _ H) as Hr. pose proof (ar_dom _ _ _ _ H) as Hd. destruct a as [tl c], o as [x delay fn args|x].
  - destruct Ho as (Hx & Hf & Hdel & Hl). rewrite <- Hd in Hx.
    destruct (start_spec st tl fr x delay fn args Hr Hx Hf Hdel Hl) as (st' & w & E & H' & Ew & Ef & Ea & Hb).
    exists st'. cbn [do_op]. rewrite E, bind_Ok. split; [done|]. split; [done| |]; cbn [op_spec al_calls].
    + intros y. destruct (Z.eqb_spec y x) as [->|Hn]; [unfold fire; by rewrite Ew, Ea, Ef|].
      by rewrite (fire_ext _ _ y (Hb y Hn)), (ar_calls _ _ _ _ H).
    + rewrite <- Hd. apply set_eq. intros y. destruct (decide (y = x)) as [->|Hn]; [|by apply body_dom, Hb].
      split; [done|]. intros _. apply elem_of_dom. eauto.
  - cbn [op_ok] in Ho. rewrite <- Hd in Ho. destruct (cancel_any st tl fr x Hr Ho) as (st' & ret & E & H' & Hs & _).
    exists st'. cbn [do_op]. rewrite E, bind_Ok. split; [done|]. by eapply same_bodies_rep.
Qed.

Lemma do_ops_spec d fr l : forall st a, alarms_rep d fr st a -> Forall (op_ok d fr) l ->
  returns (do_ops l st) (fun st' => alarms_rep d fr st' (foldl op_spec a l)).
Proof.
  induction l as [|o l IH]; intros st a H Hl; [by exists st|]. apply Forall_cons in Hl as [Ho Hl].
  destruct (do_op_spec d fr st a o H Ho) as (st1 & E1 & H1). cbn [do_ops]. rewrite E1, bind_Ok. by apply IH.
Qed.

(** The timers that are due: a watchdog that is started is never due at once. *)
Definition ndue (tl : timers) : nat := length (filter (fun e : Z * Z => e.2 <= 0) tl).

Lemma ndue_winsert x d tl : 0 < d -> ndue (winsert x d tl) = ndue tl.
Proof.
  intros Hd. unfold ndue. induction tl as [|[y r] tl IH]; cbn [winsert]; [by rewrite filter_cons_False by (simpl; lia)|].
  destruct (d <? r); [by rewrite filter_cons_False by (simpl; lia)|]. rewrite !filter_cons. destruct (decide _); simpl; congruence.
Qed.

Lemma ndue_wremove x tl : (ndue (wremove x tl) <= ndue tl)%nat.
Proof.
  unfold ndue, wremove. induction tl as [|[y r] tl IH]; [done|]. rewrite (filter_cons (fun e : Z * Z => e.1 <> x)).
  destruct (decide _); rewrite !filter_cons; destruct (decide _); simpl; lia.
Qed.

Lemma ndue_ops d fr l : forall a, Forall (op_ok d fr) l -> (ndue (al_timers (foldl op_spec a l)) <= ndue (al_timers a))%nat.
Proof.
  induction l as [|o l IH]; intros a Hl; [done|]. apply Forall_cons in Hl as [Ho Hl]. cbn [foldl].
  specialize (IH (op_spec a o) Hl). destruct o as [x delay fn args|x]; cbn [op_spec al_timers] in *.
  - destruct Ho as (_ & _ & ? & _). rewrite ndue_winsert in IH by lia. pose proof (ndue_wremove x (al_timers a)). lia.
  - pose proof (ndue_wremove x (al_timers a)). lia.
Qed.

Lemma ndue_zero tab tl : lags_ok tab 0 tl -> ndue tl = O \/ (forall e, head tl = Some e -> 0 < e.2) ->
  Forall (fun e : Z * Z => 1 <= e.2) tl.
Proof.
  intros Hl [Hn|Hh].
  - unfold ndue in Hn. apply nil_length_inv in Hn. apply Forall_forall. intros e He.
    destruct (decide (e.2 <= 0)); [|lia]. by destruct (filter_nil_not_elem_of _ _ e Hn).
  - destruct tl as [|[x r] tl]; [done|]. specialize (Hh _ eq_refl). destruct Hl as (_ & _ & Hl). simpl in Hh.
    constructor; [simpl; lia|]. eapply Forall_impl; [by eapply lags_range|]. simpl. lia.
Qed.

Section Reaction.
Context (react : Z -> list Z -> list wd_op) (d : gset Z) (fr : list Z).
Hypothesis react_ok : forall f args, Forall (op_ok d fr) (react f args).

Lemma expiration_refines n : forall fuel st a, alarms_rep d fr st a ->
  (ndue (al_timers a) <= n)%nat -> (ndue (al_timers a) < fuel)%nat ->
  returns (expiration_loop (run_call react) fuel st) (fun '(st', log) =>
    log = (expire_spec react n a).1 /\ alarms_rep d fr st' (expire_spec react n a).2 /\
    Forall (fun e : Z * Z => 1 <= e.2) (al_timers (expire_spec react n a).2)).
Proof.
  induction n as [|n IH]; intros fuel st [tl c] H Hn Hf; (destruct fuel as [|fuel]; [lia|]);
    pose proof (ar_rep _ _ _ _ H) as Hr; pose proof (ndue_zero _ _ (wr_lags _ _ _ Hr)) as Hz; cbn [al_timers] in *.
  { assert (Hp : Forall (fun e : Z * Z => 1 <= e.2) tl) by (apply Hz; left; lia).
    rewrite (expiration_stop _ fuel st tl fr Hr); [by exists (st, [])|].
    intros e He. destruct tl as [|e' tl]; [done|]. injection He as ->. apply Forall_cons in Hp as [? _]. lia. }
  destruct tl as [|[x r] tl]; [|destruct (Z.leb_spec r 0) as [Hle|Hgt]].
  - rewrite (expiration_stop _ fuel st [] fr Hr) by done. by exists (st, []).
  - destruct (expiration_step (run_call react) fuel st x r tl fr Hr Hle) as (st3 & H3 & Hs3 & ->).
    pose proof (same_bodies_rep _ _ _ _ _ _ _ H H3 Hs3) as Ha3. rewrite (ar_calls _ _ _ _ H). cbn [al_calls].
    assert (Hd : ndue ((x, r) :: tl) = S (ndue tl)) by (unfold ndue; by rewrite filter_cons_True by (simpl; lia)).
    cbn [expire_spec al_timers al_calls]. rewrite (proj2 (Z.leb_le r 0)) by done.
    assert (Hc : c x = [] \/ exists f args, c x = [(f, args)]).
    { pose proof (ar_calls _ _ _ _ H x) as Ec. cbn [al_calls] in Ec. rewrite <- Ec. unfold fire. destruct (_ !! x) as [w|]; [|by left]. destruct (wd_args w); eauto. }
    destruct Hc as [->|(f & args & ->)]; cbn [mbind list_bind app].
    + destruct (IH fuel st3 (Alarms tl c) Ha3) as ([st' log] & E & Hlog & H' & Hp); [simpl; lia..|].
      exists (st', log). cbn [foldl]. destruct (expire_spec _ _ _). naive_solver.
    + rewrite app_nil_r. change (run_call react f args st3) with (do_ops (react f args) st3). destruct (do_ops_spec d fr (react f args) st3 _ Ha3 (react_ok f args)) as (st4 & -> & H4).
      rewrite bind_Ok. pose proof (ndue_ops d fr (react f args) (Alarms tl c) (react_ok f args)) as Hle'. cbn [al_timers] in Hle'.
      destruct (IH fuel st4 _ H4) as ([st' log] & E & Hlog & H' & Hp); [lia..|]. rewrite E, bind_Ok.
      exists (st', (f, args) :: log). destruct (expire_spec _ _ _). naive_solver.
  - rewrite (expiration_stop _ fuel st _ fr Hr) by (intros e [= <-]; simpl; lia). exists (st, []). split; [done|].
    cbn [expire_spec al_timers al_calls]. rewrite (proj2 (Z.leb_gt r 0)) by done. split_and!; [done..|].
    apply Hz. right. intros e [= <-]. done.
Qed.

Lemma ndue_length tl : (ndue tl <= length tl)%nat.
Proof. apply length_filter. Qed.

Lemma timer_refines st a : alarms_rep d fr st a -> Forall (fun e : Z * Z => 1 <= e.2) (al_timers a) ->
  returns (wd_timer (run_call react) st) (fun '(st', log) =>
    log = (tick_spec react a).1 /\ alarms_rep d fr st' (tick_spec react a).2 /\
    Forall (fun e : Z * Z => 1 <= e.2) (al_timers (tick_spec react a).2)).
Proof.
  intros H Hpos. destruct a as [tl c]. pose proof (ar_rep _ _ _ _ H) as Hr. cbn [al_timers al_calls] in *. unfold wd_timer, tick_spec.
  pose proof (wr_active _ _ _ Hr) as Hq. destruct tl as [|[x r] tl]; [rewrite (sq_head_nil _ _ _ Hq); by exists (st, [])|].
  destruct (head_cons _ _ _ _ _ Hr) as [Eh0 Hx0]. rewrite Eh0, (proj2 (Z.eqb_neq x 0)) by done.
  pose proof (wr_lags _ _ _ Hr) as ((w & Ew & Elw) & Hrr & _). pose proof (Forall_inv Hpos) as Hr1. simpl in Hr1.
  rewrite (wd_update_Ok _ _ _ _ Hx0 Ew), bind_Ok, s32_small by lia.
  destruct (dec_rep _ _ _ _ _ _ Hr Hr1 Ew) as [H1 Hs1]. set (st1 := set_tab st x (set_lag w (lag w - 1))) in *.
  pose proof (same_bodies_rep _ _ _ _ _ _ _ H H1 Hs1) as Ha1. pose proof (ndue_length (dec ((x, r) :: tl))) as Hlen.
  assert (El : length (dec ((x, r) :: tl)) = length ((x, r) :: tl)) by apply length_fmap.
  unfold wd_expiration. destruct (head_cons _ _ _ _ _ H1) as [-> _]. cbn [fst].
  rewrite (wd_get_Ok st1 x (set_lag w (lag w - 1))), bind_Ok by (done || unfold st1; simpl; by rewrite lookup_insert_eq).
  cbn [lag set_lag al_timers al_calls]. rewrite Elw. rewrite El in Hlen.
  pose proof (sq_rep_length _ _ _ (wr_active _ _ _ H1)) as Hq1. rewrite length_fmap, El in Hq1.
  destruct (Z.leb_spec (r - 0 - 1) 0) as [Hle|Hgt]; [apply expiration_refines; [done|exact Hlen|cbn [al_timers]; lia]|].
  destruct (expiration_refines (length ((x, r) :: tl)) (walk_fuel (wd_next st1)) st1 _ Ha1 Hlen) as ([st' log] & E & Hres);
    [cbn [al_timers]; lia|].
  exists (st1, []). split; [done|]. destruct (walk_fuel (wd_next st1)) as [|fuel]; [simpl in Hq1; lia|].
  rewrite (expiration_stop _ _ _ _ _ H1) in E by (intros e [= <-]; simpl; lia). injection E as <- <-. exact Hres.
Qed.

Lemma ticks_refine n : forall st a, alarms_rep d fr st a -> Forall (fun e : Z * Z => 1 <= e.2) (al_timers a) ->
  exists st', wd_run (run_call react) n st = Ok (st', (ticks_spec react n a).1) /\
    alarms_rep d fr st' (ticks_spec react n a).2 /\ Forall (fun e : Z * Z => 1 <= e.2) (al_timers (ticks_spec react n a).2).
Proof.
  induction n as [|n IH]; intros st a H Hpos; [by exists st|]. cbn [wd_run ticks_spec].
  destruct (timer_refines st a H Hpos) as ([st1 log] & -> & Hlog & H1 & Hp1). rewrite bind_Ok.
  destruct (tick_spec react a) as [log' a1]. cbn [fst snd] in *. destruct (IH st1 a1 H1 Hp1) as (st' & -> & H' & Hp').
  rewrite bind_Ok. exists st'. destruct (ticks_spec react n a1) as [logs a2]. cbn [fst snd] in *. by rewrite Hlog.
Qed.
End Reaction.

(** C10: a run of [n] clock ticks makes exactly the calls of the abstract timers, tick
    by tick and in the same order, when the watchdog functions themselves start and
    cancel watchdogs (their own included) and when they do not: in a tick the timers
    that are due are taken one after the other, each function acts before the next
    timer is taken, so that one that is cancelled is not called any more, and a
    watchdog that is started expires at the earliest with the next tick.  Every walk
    ends, and the timers and calls left are those of the abstract run. *)
Theorem wd_run_refines react fr n st tl c d :
  wd_rep st tl fr -> (forall x, fire (wd_tab st) x = c x) -> dom (wd_tab st) = d ->
  Forall (fun e : Z * Z => 1 <= e.2) tl -> (forall f args, Forall (op_ok d fr) (react f args)) ->
  exists st', wd_run (run_call react) n st = Ok (st', (ticks_spec react n (Alarms tl c)).1) /\
    alarms_rep d fr st' (ticks_spec react n (Alarms tl c)).2 /\
    Forall (fun e : Z * Z => 1 <= e.2) (al_timers (ticks_spec react n (Alarms tl c)).2).
Proof. intros H Hc Hd Hpos Hre. by apply (ticks_refine react d fr Hre n st (Alarms tl c)). Qed.

(** Two watchdogs taken from the pool and started for the same tick: the function of
    the first starts it again and cancels the second one. *)
Definition demo_react (f : Z) (args : list Z) : list wd_op :=
  if f =? 77 then [OpStart 1000 1 77 [5]; OpCancel 1028] else [].
Definition demo_calls (x : Z) : list (Z * list Z) :=
  if x =? 1028 then [(88, [])] else if x =? 1000 then [(77, [5])] else fire (wd_tab demo_wd) x.

Lemma demo_alarms : exists st, wd_rep st [(1000, 2); (1028, 2)] (pool 14 28 1056) /\
  (forall x, fire (wd_tab st) x = demo_calls x) /\ dom (wd_tab st) = dom (wd_tab demo_wd).
Proof.
  destruct demo_wd_pre as (H1 & H2 & H3 & H4).
  destruct (init_spec 1000 28 demo_wd ltac:(lia) ltac:(lia) H1 H2 H3 H4) as (st & _ & Et & H).
  assert (Ed : forall x, x ∈ [1000; 1028] -> wd_tab st !! x = Some (Wdog 0 0 0 0 [])) by
    (rewrite Et; apply Forall_forall; repeat constructor).
  destruct (remfirst_free st [] 1000 _ _ H (Ed 1000 ltac:(by left))) as (fl & q & _ & _ & Hr). cbv zeta in Hr.
  set (st1 := set_tab _ 1000 _) in Hr. assert (Eb1 : same_bodies st st1).
  { intros y. unfold st1. cbn [wd_tab set_tab set_active set_free]. destruct (decide (y = 1000)) as [->|];
      [by rewrite lookup_insert_eq, Ed by by left|by rewrite lookup_insert_ne]. }
  assert (Ed1 : wd_tab st1 !! 1028 = Some (Wdog 0 0 0 0 [])).
  { unfold st1. cbn [wd_tab set_tab set_active set_free]. rewrite lookup_insert_ne by done. apply Ed. right. by left. }
  destruct (remfirst_free st1 [] 1028 _ _ Hr Ed1) as (fl' & q' & _ & _ & Hr2). cbv zeta in Hr2.
  set (st2 := set_tab _ 1028 _) in Hr2. assert (Eb2 : same_bodies st1 st2).
  { intros y. unfold st2. cbn [wd_tab set_tab set_active set_free]. destruct (decide (y = 1028)) as [->|];
      [by rewrite lookup_insert_eq, Ed1|by rewrite lookup_insert_ne]. }
  change (wd_rep st2 [] (pool 14 28 1056)) in Hr2.
  assert (R : alarms_rep (dom (wd_tab demo_wd)) (pool 14 28 1056) st2 (Alarms [] (fire (wd_tab demo_wd)))).
  { split; [done| |]; rewrite <- Et; [intros x; by rewrite (fire_body st1 st2), (fire_body st st1)|].
    apply set_eq. intros x. rewrite (body_dom x _ _ (Eb2 x)). by apply body_dom. }
  destruct (do_ops_spec _ _ [OpStart 1000 1 77 [5]; OpStart 1028 1 88 []] st2 _ R) as (st3 & _ & R3).
  { repeat constructor; (lia || by apply (bool_decide_unpack _) || (simpl; lia)). }
  exists st3. split_and!; [exact (ar_rep _ _ _ _ R3)|exact (ar_calls _ _ _ _ R3)|exact (ar_dom _ _ _ _ R3)].
Qed.

Lemma wd_run_refines_witness : exists st st', wd_rep st [(1000, 2); (1028, 2)] (pool 14 28 1056) /\
  wd_run (run_call demo_react) 5 st = Ok (st', [[]; [(77, [5])]; []; [(77, [5])]; []]) /\
  wd_rep st' [(1000, 1)] (pool 14 28 1056).
Proof.
  destruct demo_alarms as (st & H & Hc & Hd).
  assert (Hre : forall f args, Forall (op_ok (dom (wd_tab demo_wd)) (pool 14 28 1056)) (demo_react f args)).
  { intros f args. unfold demo_react. destruct (f =? 77); repeat constructor; (lia || by apply (bool_decide_unpack _) || (simpl; lia)). }
  destruct (wd_run_refines demo_react _ 5 st _ _ _ H Hc Hd ltac:(repeat constructor; simpl; lia) Hre) as (st' & E & R & _).
  exists st, st'. split_and!; [exact H|exact E|exact (ar_rep _ _ _ _ R)].
Defined.

(** ** Creation and deletion *)

(** [wd_create] takes the next watchdog of the pool when more than the reserve of
    four are free or in an interrupt handler, so that tasks never use the reserve;
    otherwise it uses the watchdog that kmm_malloc returns, if any, and leaves the
    pool alone.  What it returns is inactive, and no timer is affected. *)
Theorem wd_create_correct in_isr newmem raw st tl fr :
  wd_rep st tl fr -> newmem ∉ dom (wd_tab st) ->
  exists st' ret fr', wd_create in_isr newmem raw st = Ok (st', ret) /\ wd_rep st' tl fr' /\
    (ret <> 0 -> ret ∈ dom (wd_tab st') /\ ret ∉ fr' /\ wd_gettime st' ret = Ok 0) /\
    (CONFIG_WDOG_INTRESERVE < Z.of_nat (length fr) \/ in_isr = true -> ret = hd 0 fr /\ fr' = List.tl fr) /\
    (Z.of_nat (length fr) <= CONFIG_WDOG_INTRESERVE /\ in_isr = false -> ret = newmem /\ fr' = fr).
Proof.
  intros H Hnew. destruct (wr_nfree _ _ _ H) as [En Hn]. unfold wd_create. rewrite En.
  destruct ((CONFIG_WDOG_INTRESERVE <? Z.of_nat (length fr)) || in_isr) eqn:Ec.
  - destruct fr as [|x fr].
    { destruct (sq_remfirst_spec _ _ _ (wr_free _ _ _ H)) as (fl & q & E & Hq & Hf).
      assert (fl = wd_next st /\ q = g_wdfreelist st) as [-> ->].
      { unfold sq_remfirst in E. rewrite (sqr_head _ _ _ (wr_free _ _ _ H)) in E. cbn [hd] in E.
        change (0 =? 0) with true in E. cbv iota in E. by injection E. }
      exists st, 0, []. rewrite E, bind_Ok. cbn [hd]. change (0 =? 0) with true. cbv iota.
      replace (set_free st (wd_next st) (g_wdfreelist st) (Z.of_nat (length []))) with st
        by (rewrite <- En; by destruct st).
      split_and!; try done. simpl. intros [? ->]. done. }
    assert (Hx : x ∈ dom (wd_tab st)).
    { rewrite <- (wr_dom _ _ _ H). apply elem_of_dom. by apply (sq_rep_node _ _ _ _ (wr_free _ _ _ H)), list_elem_of_here. }
    pose proof Hx as [w Ew]%elem_of_dom. destruct (remfirst_free st tl x fr w H Ew) as (fl & q & E & Hs & H').
    rewrite En in H'. assert (Hx0 : x <> 0) by (intros ->; by apply (wr_null _ _ _ H)).
    rewrite E, bind_Ok, (proj2 (Z.eqb_neq x 0)) by done. unfold set_next. cbn [set_free wd_next].
    rewrite store_Ok, !bind_Ok by done. erewrite wd_update_Ok; [|done|exact Ew]. rewrite bind_Ok.
    eexists _, x, fr. split; [done|]. split; [exact H'|].
    assert (Hdx : x ∈ dom (wd_tab (set_tab st x (set_flags w 0)))) by (cbn [wd_tab set_tab]; rewrite dom_insert_L; set_solver).
    split; [intros _; split_and!; [exact Hdx| |]|split; [done|]].
    + by pose proof (sqr_nodup _ _ _ (wr_free _ _ _ H)) as [? _]%NoDup_cons.
    + erewrite gettime_spec; [|exact H'|exact Hdx]. rewrite not_elem_of_list_to_map_1; [done|].
      apply (wr_disj _ _ _ H). by left.
    + intros [Hle ->]. rewrite orb_false_r in Ec. b2p. lia.
  - apply orb_false_iff in Ec as [Ec ->]. b2p. destruct (newmem =? 0) eqn:E0; b2p.
    + subst newmem. exists st, 0, fr. split_and!; try done. intros [?|?]; [lia|done].
    + eexists _, newmem, fr. split; [done|].
      assert (Hnt : newmem ∉ tl.*1).
      { intros Hin. destruct (rep_in _ _ _ _ H Hin) as (_ & Hs & _). by apply Hnew, elem_of_dom. }
      assert (Hnf : newmem ∉ fr).
      { intros Hin. destruct (sq_rep_node _ _ _ _ (wr_free _ _ _ H) Hin) as [_ Hs].
        apply Hnew. rewrite <- (wr_dom _ _ _ H). by apply elem_of_dom. }
      assert (Hfr : frame [newmem] (wd_next st) (<[newmem := 0]> (wd_next st))).
      { intros y Hy. rewrite lookup_insert_ne; [done|]. intros <-. apply Hy. by left. }
      assert (H' : wd_rep (WdState (<[newmem := 0]> (wd_next st)) (<[newmem := set_flags raw WDOGF_ALLOCED]> (wd_tab st))
                 (g_wdactivelist st) (g_wdfreelist st) (Z.of_nat (length fr))) tl fr).
      { split; cbn [wd_next wd_tab g_wdactivelist g_wdfreelist g_wdnfree]; try apply H; try done.
        - eapply sq_rep_frame; [apply H|exact Hfr|]. by intros y Hy ->%list_elem_of_singleton.
        - eapply lags_ext; [|apply H]. intros y Hy. rewrite lookup_insert_ne; [done|]. by intros ->.
        - intros y v Ev. destruct (decide (y = newmem)) as [->|Hy].
          + rewrite lookup_insert_eq in Ev. injection Ev as <-. done.
          + rewrite lookup_insert_ne in Ev by done. by apply (wr_flags _ _ _ H).
        - by rewrite !dom_insert_L, (wr_dom _ _ _ H).
        - rewrite dom_insert_L. pose proof (wr_null _ _ _ H) as Hnl. clear - Hnl E0. set_solver.
        - intros y v Ev. destruct (decide (y = newmem)) as [->|Hy].
          + rewrite lookup_insert_eq in Ev. injection Ev as <-. by vm_compute.
          + rewrite lookup_insert_ne in Ev by done. by apply (wr_bytes _ _ _ H y).
        - eapply sq_rep_frame; [apply H|exact Hfr|]. by intros y Hy ->%list_elem_of_singleton. }
      split; [exact H'|].
      split; [intros _; split_and!; [|done|]|split; [intros [?|?]; [lia|done]|done]].
      * cbn [wd_tab]. rewrite dom_insert_L. set_solver.
      * erewrite gettime_spec; [by rewrite not_elem_of_list_to_map_1|exact H'|].
        cbn [wd_tab]. rewrite dom_insert_L. set_solver.
Qed.

Lemma wd_create_witness : exists st fr st' ret, wd_rep st [] fr /\
  wd_create false 0 (Wdog 0 0 0 0 []) st = Ok (st', ret) /\ ret = hd 0 fr.
Proof.
  destruct demo_rep as (st & fr & _ & H & _ & _ & Hl & _).
  destruct (wd_create_correct false 0 (Wdog 0 0 0 0 []) st [] fr H (wr_null _ _ _ H)) as (st' & ret & fr' & E & _ & _ & Hc & _).
  exists st, fr, st', ret. split_and!; [exact H|exact E|]. apply Hc. left. rewrite Hl. unfold CONFIG_WDOG_INTRESERVE. lia.
Defined.

(** [wd_delete] stops the watchdog; one from the heap is given back to the heap
    and gone, one from the pool is back in the pool and counted, and a static one
    is left alone.  No other timer is affected. *)
Theorem wd_delete_correct st tl fr x w :
  wd_rep st tl fr -> wd_tab st !! x = Some w -> x ∉ fr -> Z.of_nat (S (length fr)) < 2 ^ 16 ->
  exists st' freed, wd_delete st x = Ok (st', OK, freed) /\
    (WDOG_ISALLOCED w = true -> freed = x /\ wd_rep st' (wremove x tl) fr /\ x ∉ dom (wd_tab st')) /\
    (WDOG_ISALLOCED w = false -> WDOG_ISSTATIC w = false ->
       freed = 0 /\ wd_rep st' (wremove x tl) (fr ++ [x])) /\
    (WDOG_ISALLOCED w = false -> WDOG_ISSTATIC w = true -> freed = 0 /\ wd_rep st' (wremove x tl) fr).
Proof.
  intros H Ew Hxf Hlen.
  assert (Hx0 : x <> 0) by (intros ->; apply (wr_null _ _ _ H), elem_of_dom; eauto).
  destruct (stop_spec _ _ _ _ _ H Ew) as (st1 & E1 & H1 & Hs1).
  pose proof (Hs1 x) as Hbx. rewrite Ew in Hbx. destruct (wd_tab st1 !! x) as [w1|] eqn:Ew1; [|done].
  apply (inj Some) in Hbx. destruct (body_kind _ _ Hbx) as [Eal Est].
  unfold wd_delete. rewrite (wd_get_Ok _ _ _ Hx0 Ew), bind_Ok, E1, bind_Ok, (wd_get_Ok _ _ _ Hx0 Ew1), bind_Ok, Eal, Est.
  pose proof (wremove_notin x tl) as Hxt. destruct (WDOG_ISALLOCED w) eqn:EA; [|destruct (WDOG_ISSTATIC w) eqn:ES].
  - eexists _, x. split; [done|]. split; [|done]. intros _. split; [done|].
    assert (Hfr : frame [x] (wd_next st1) (delete x (wd_next st1))).
    { intros y Hy. rewrite lookup_delete_ne; [done|]. intros <-. apply Hy. by left. }
    split; [|cbn [wd_tab]; rewrite dom_delete_L; set_solver].
    split; cbn [wd_next wd_tab g_wdactivelist g_wdfreelist g_wdnfree]; try apply H1.
    + eapply sq_rep_frame; [apply H1|exact Hfr|]. by intros y Hy ->%list_elem_of_singleton.
    + eapply lags_ext; [|apply H1]. intros y Hy. rewrite lookup_delete_ne; [done|]. by intros ->.
    + intros y v [_ Ev]%lookup_delete_Some. by apply (wr_flags _ _ _ H1).
    + by rewrite !dom_delete_L, (wr_dom _ _ _ H1).
    + rewrite dom_delete_L. pose proof (wr_null _ _ _ H1) as Hnl. clear - Hnl. set_solver.
    + intros y v [_ Ev]%lookup_delete_Some. by apply (wr_bytes _ _ _ H1 y).
    + eapply sq_rep_frame; [apply H1|exact Hfr|]. by intros y Hy ->%list_elem_of_singleton.
  - eexists _, 0. split; [done|]. by split_and!.
  - destruct (wr_nfree _ _ _ H1) as [En _].
    destruct (addlast_free st1 _ fr x w1 (u16 (g_wdnfree st1 + 1)) H1 Ew1 Hxt Hxf) as (fl & q & E & H2).
    { rewrite En. unfold u16. rewrite Z.mod_small by lia. lia. }
    { unfold u16. pose proof (Z.mod_pos_bound (g_wdnfree st1 + 1) (2 ^ 16)). lia. }
    cbn [negb]. rewrite E, bind_Ok. eexists _, 0. split; [done|]. by split_and!.
Qed.

Lemma wd_delete_witness : exists st fr st' freed, wd_rep st [] fr /\ wd_delete st 1000 = Ok (st', OK, freed) /\
  wd_rep st' [] (fr ++ [1000]).
Proof.
  destruct demo_rep as (st & fr & _ & H & _ & Hf & Hl & Ew).
  destruct (wd_delete_correct st [] fr 1000 _ H Ew Hf ltac:(rewrite Hl; lia)) as (st' & freed & E & _ & Hp & _).
  exists st, fr, st', freed. split_and!; [exact H|exact E|]. apply (Hp eq_refl eq_refl).
Defined.
