(* ===== verification/Inode.v ===== *)
(** * The inode tree of the pseudo file system

    Model of [fs/inode] and of [fs/driver/fs_registerdriver.c] and
    [fs_unregisterdriver.c]: the tree of named nodes under which the drivers
    are registered, its search, insertion and removal, the reference counts of
    its nodes and the re-entrant lock around it.

    The configuration has neither soft links nor file modes, so the code under
    [CONFIG_PSEUDOFS_SOFTLINKS] and [CONFIG_FILE_MODE] is absent.  A C string
    is the list of its characters up to the terminating NUL, a pointer into it
    is a suffix of that list; [char] is unsigned on ARM. *)

From stdpp Require Import strings.
From S2P Require Import Prelude.
Local Open Scope Z_scope.

(** ** Names and paths *)

(** The characters of a string literal. *)
Definition cstr (s : string) : list Z :=
  (fun c => Z.of_N (Ascii.N_of_ascii c)) <$> String.list_ascii_of_string s.

(** [sprintf("%d")] of a number that is not negative. *)
Fixpoint digits (fuel : nat) (n : Z) (acc : list Z) : list Z :=
  match fuel with
  | O => acc
  | S fuel =>
      let acc := (48 + n mod 10) :: acc in
      if n <? 10 then acc else digits fuel (n / 10) acc
  end.
Definition decimal (n : Z) : list Z := digits 10 n [].

Definition SLASH : Z := 47.

(** [*s], the NUL included. *)
Definition deref (s : list Z) : Z := match s with [] => 0 | c :: _ => c end.

(** [i_name] is an array in the node and [fname] a pointer into the path
    searched for, so neither can be NULL. *)
Fixpoint _inode_compare (fname nname : list Z) : Z :=
  match nname with
  | [] => match fname with [] => 0 | f :: _ => if f =? SLASH then 0 else 1 end
  | n :: nname' =>
      match fname with
      | [] => -1
      | f :: fname' =>
          if f =? SLASH then -1
          else if n <? f then 1
          else if f <? n then -1
          else _inode_compare fname' nname'
      end
  end.

Fixpoint skip_segment (name : list Z) : list Z :=
  match name with
  | [] => []
  | c :: name' => if c =? SLASH then name else skip_segment name'
  end.

Fixpoint skip_slashes (name : list Z) : list Z :=
  match name with
  | [] => []
  | c :: name' => if c =? SLASH then skip_slashes name' else name
  end.

Definition inode_nextname (name : list Z) : list Z := skip_slashes (skip_segment name).

Fixpoint inode_namelen (name : list Z) : Z :=
  match name with
  | [] => 0
  | c :: name' => if c =? SLASH then 0 else 1 + inode_namelen name'
  end.

Fixpoint inode_namecpy (src : list Z) : list Z :=
  match src with
  | [] => []
  | c :: src' => if c =? SLASH then [] else c :: inode_namecpy src'
  end.

(** ** Nodes *)

Definition FSNODEFLAG_TYPE_MASK : Z := 15.
Definition FSNODEFLAG_TYPE_DRIVER : Z := 0.
Definition FSNODEFLAG_TYPE_BLOCK : Z := 1.
Definition FSNODEFLAG_TYPE_MOUNTPT : Z := 2.
Definition FSNODEFLAG_TYPE_MTD : Z := 11.
Definition FSNODEFLAG_DELETED : Z := 16.

(** [i_ops] and [i_private] are pointers, 0 for NULL. *)
Record inode := mk_inode {
  i_peer : Z;
  i_child : Z;
  i_crefs : Z;
  i_flags : Z;
  i_ops : Z;
  i_private : Z;
  i_name : list Z
}.

Definition set_i_peer (n : inode) (v : Z) : inode :=
  mk_inode v (i_child n) (i_crefs n) (i_flags n) (i_ops n) (i_private n) (i_name n).
Definition set_i_child (n : inode) (v : Z) : inode :=
  mk_inode (i_peer n) v (i_crefs n) (i_flags n) (i_ops n) (i_private n) (i_name n).
Definition set_i_crefs (n : inode) (v : Z) : inode :=
  mk_inode (i_peer n) (i_child n) v (i_flags n) (i_ops n) (i_private n) (i_name n).
Definition set_i_flags (n : inode) (v : Z) : inode :=
  mk_inode (i_peer n) (i_child n) (i_crefs n) v (i_ops n) (i_private n) (i_name n).
Definition set_i_ops (n : inode) (v : Z) : inode :=
  mk_inode (i_peer n) (i_child n) (i_crefs n) (i_flags n) v (i_private n) (i_name n).
Definition set_i_private (n : inode) (v : Z) : inode :=
  mk_inode (i_peer n) (i_child n) (i_crefs n) (i_flags n) (i_ops n) v (i_name n).

Definition INODE_IS_TYPE (n : inode) (t : Z) : bool :=
  Z.land (i_flags n) FSNODEFLAG_TYPE_MASK =? t.
Definition INODE_IS_DRIVER (n : inode) : bool := INODE_IS_TYPE n FSNODEFLAG_TYPE_DRIVER.
Definition INODE_IS_BLOCK (n : inode) : bool := INODE_IS_TYPE n FSNODEFLAG_TYPE_BLOCK.
Definition INODE_IS_MOUNTPT (n : inode) : bool := INODE_IS_TYPE n FSNODEFLAG_TYPE_MOUNTPT.
Definition INODE_IS_MTD (n : inode) : bool := INODE_IS_TYPE n FSNODEFLAG_TYPE_MTD.

(** [((i)->i_flags & ~FSNODEFLAG_TYPE_MASK) | (t)] *)
Definition INODE_SET_TYPE (n : inode) (t : Z) : inode :=
  set_i_flags n (Z.lor (Z.ldiff (i_flags n) FSNODEFLAG_TYPE_MASK) t).
Definition INODE_SET_DRIVER (n : inode) : inode := INODE_SET_TYPE n FSNODEFLAG_TYPE_DRIVER.

(** ** The state of the pseudo file system *)

Definition NO_HOLDER : Z := -1.

(** [semcount] is the count of the semaphore [sem]. *)
Record inode_sem_s := mk_inode_sem {
  semcount : Z;
  holder : Z;
  count : Z
}.

Record fs := mk_fs {
  g_root_inode : Z;
  nodes : gmap Z inode;
  g_inode_sem : inode_sem_s
}.

Definition set_root (st : fs) (v : Z) : fs := mk_fs v (nodes st) (g_inode_sem st).
Definition set_nodes (st : fs) (v : gmap Z inode) : fs := mk_fs (g_root_inode st) v (g_inode_sem st).
Definition set_inode_sem (st : fs) (v : inode_sem_s) : fs := mk_fs (g_root_inode st) (nodes st) v.

Definition get_node (st : fs) (a : Z) : res inode :=
  if a =? 0 then Err (BadAddr 0) else
  match nodes st !! a with Some n => Ok n | None => Err (BadAddr a) end.

Definition put_node (st : fs) (a : Z) (n : inode) : fs := set_nodes st (<[a := n]> (nodes st)).

(** [p->f = ...] through a pointer. *)
Definition upd_node (st : fs) (a : Z) (f : inode -> inode) : res fs :=
  n ← get_node st a; Ok (put_node st a (f n)).

Definition inode_initialize (st : fs) : fs := set_inode_sem st (mk_inode_sem 1 NO_HOLDER 0).

(** A task that finds the semaphore taken waits for it, again after a signal:
    for the model it does not return until the holder gives it. *)
Definition inode_semtake (me : Z) (st : fs) : res fs :=
  let s := g_inode_sem st in
  if me =? holder s then Ok (set_inode_sem st (mk_inode_sem (semcount s) (holder s) (s16 (count s + 1))))
  else if 0 <? semcount s then Ok (set_inode_sem st (mk_inode_sem (semcount s - 1) me 1))
  else Err WouldBlock.

Definition inode_semgive (st : fs) : fs :=
  let s := g_inode_sem st in
  if 1 <? count s then set_inode_sem st (mk_inode_sem (semcount s) (holder s) (count s - 1))
  else set_inode_sem st (mk_inode_sem (semcount s + 1) NO_HOLDER 0).

(** ** Search *)

Definition EBUSY : Z := 16.
Definition EEXIST : Z := 17.
Definition ENOSYS : Z := 88.

Record inode_search_s := mk_desc {
  path : list Z;
  node : Z;
  peer : Z;
  parent : Z;
  relpath : option (list Z)
}.

Definition SETUP_SEARCH (p : list Z) : inode_search_s := mk_desc p 0 0 0 None.

(** The loop [while (node != NULL)].  Every turn moves to a peer or to a child,
    so on a tree no node is visited twice. *)
Fixpoint search_loop (fuel : nat) (st : fs) (name : list Z) (node left above : Z)
    : res (Z * inode_search_s) :=
  match fuel with
  | O => Err Diverge
  | S fuel =>
      if node =? 0 then Ok (- ENOENT, mk_desc name 0 left above None)
      else
        n ← get_node st node;
        let result := _inode_compare name (i_name n) in
        if result <? 0 then Ok (- ENOENT, mk_desc name 0 left above None)
        else if 0 <? result then search_loop fuel st name (i_peer n) node above
        else
          let name := inode_nextname name in
          if (deref name =? 0) || INODE_IS_MOUNTPT n then
            Ok (OK, mk_desc name node left above (Some name))
          else search_loop fuel st name (i_child n) 0 node
  end.

Definition search_fuel (st : fs) : nat := S (size (nodes st)).

Definition _inode_search (st : fs) (desc : inode_search_s) : res (Z * inode_search_s) :=
  let name := path desc in
  if negb (deref name =? SLASH) then Ok (- EINVAL, desc)
  else
    let name := skip_slashes name in
    if deref name =? 0 then Ok (- ENOSYS, desc)
    else search_loop (search_fuel st) st name (g_root_inode st) 0 0.

Definition inode_search (st : fs) (desc : inode_search_s) : res (Z * inode_search_s) :=
  _inode_search st desc.

Definition inode_find (me : Z) (st : fs) (desc : inode_search_s) : res (Z * inode_search_s * fs) :=
  st ← inode_semtake me st;
  '(ret, desc) ← inode_search st desc;
  if 0 <=? ret then
    st ← upd_node st (node desc) (fun n => set_i_crefs n (s16 (i_crefs n + 1)));
    Ok (ret, desc, inode_semgive st)
  else Ok (ret, desc, inode_semgive st).

Definition inode_addref (me : Z) (st : fs) (inode : Z) : res fs :=
  if inode =? 0 then Ok st
  else
    st ← inode_semtake me st;
    st ← upd_node st inode (fun n => set_i_crefs n (s16 (i_crefs n + 1)));
    Ok (inode_semgive st).

(** ** Removal *)

(** The calls of [inode_free] nest as deep as the tree; a node is freed after
    its peers and its children. *)
Fixpoint inode_free (fuel : nat) (st : fs) (node : Z) : res fs :=
  match fuel with
  | O => Err Diverge
  | S fuel =>
      if node =? 0 then Ok st
      else
        n ← get_node st node;
        st ← inode_free fuel st (i_peer n);
        n ← get_node st node;
        st ← inode_free fuel st (i_child n);
        Ok (set_nodes st (delete node (nodes st)))
  end.

Definition inode_release (me : Z) (st : fs) (node : Z) : res fs :=
  if node =? 0 then Ok st
  else
    st ← inode_semtake me st;
    n ← get_node st node;
    let n := if negb (i_crefs n =? 0) then set_i_crefs n (s16 (i_crefs n - 1)) else n in
    let st := put_node st node n in
    if (i_crefs n <=? 0) && negb (Z.land (i_flags n) FSNODEFLAG_DELETED =? 0) then
      let st := inode_semgive st in
      inode_free (search_fuel st) st node
    else Ok (inode_semgive st).

(** Returns the node removed from the tree, 0 if there is none. *)
Definition inode_unlink (st : fs) (p : list Z) : res (Z * fs) :=
  if negb (deref p =? SLASH) then Ok (0, st)
  else
    '(ret, desc) ← inode_search st (SETUP_SEARCH p);
    if 0 <=? ret then
      n ← get_node st (node desc);
      st ← (if negb (peer desc =? 0) then upd_node st (peer desc) (fun l => set_i_peer l (i_peer n))
            else if negb (parent desc =? 0) then
              upd_node st (parent desc) (fun u => set_i_child u (i_peer n))
            else Ok (set_root st (i_peer n)));
      st ← upd_node st (node desc) (fun n => set_i_peer n 0);
      Ok (node desc, st)
    else Ok (0, st).

Definition inode_remove (st : fs) (p : list Z) : res (Z * fs) :=
  '(node, st) ← inode_unlink st p;
  if negb (node =? 0) then
    n ← get_node st node;
    if negb (i_crefs n =? 0) then
      Ok (- EBUSY, put_node st node (set_i_flags n (Z.lor (i_flags n) FSNODEFLAG_DELETED)))
    else
      st ← inode_free (search_fuel st) st node;
      Ok (OK, st)
  else Ok (- ENOENT, st).

Definition unregister_driver (me : Z) (st : fs) (p : list Z) : res (Z * fs) :=
  st ← inode_semtake me st;
  '(ret, st) ← inode_remove st p;
  Ok (ret, inode_semgive st).

(** ** Insertion

    Nodes come from the kernel heap: [kmm_zalloc] gives NULL or the address of
    a block that no live node occupies, which is what the memory manager
    guarantees of the blocks it hands out. *)
Class NodeAlloc := {
  kmm_zalloc : gmap Z inode -> Z -> Z;
  kmm_zalloc_fresh m n : kmm_zalloc m n = 0 \/ m !! kmm_zalloc m n = None
}.

Section Insertion.
Context `{NodeAlloc}.

(** [sizeof(struct inode)] is 24 bytes: two pointers, two 16-bit fields, two
    more pointers and [i_name[1]] with its padding. *)
Definition FSNODE_SIZE (n : Z) : Z := 24 + n.

Definition inode_alloc (st : fs) (name : list Z) : Z * fs :=
  let namelen := inode_namelen name in
  let node := kmm_zalloc (nodes st) (FSNODE_SIZE namelen) in
  if negb (node =? 0) then (node, put_node st node (mk_inode 0 0 0 0 0 0 (inode_namecpy name)))
  else (0, st).

Definition inode_insert (st : fs) (node peer parent : Z) : res fs :=
  if negb (peer =? 0) then
    l ← get_node st peer;
    st ← upd_node st node (fun n => set_i_peer n (i_peer l));
    upd_node st peer (fun l => set_i_peer l node)
  else if negb (parent =? 0) then
    u ← get_node st parent;
    st ← upd_node st node (fun n => set_i_peer n (i_child u));
    upd_node st parent (fun u => set_i_child u node)
  else
    st ← upd_node st node (fun n => set_i_peer n (g_root_inode st));
    Ok (set_root st node).

(** The loop [for (; ; )]: one node per segment of the path that is left. *)
Fixpoint reserve_loop (fuel : nat) (st : fs) (name : list Z) (left parent : Z) : res (Z * Z * fs) :=
  match fuel with
  | O => Err Diverge
  | S fuel =>
      let nextname := inode_nextname name in
      let '(node, st) := inode_alloc st name in
      if negb (deref nextname =? 0) then
        if negb (node =? 0) then
          st ← inode_insert st node left parent;
          reserve_loop fuel st nextname 0 node
        else Ok (- ENOMEM, 0, st)
      else if negb (node =? 0) then
        st ← inode_insert st node left parent;
        Ok (OK, node, st)
      else Ok (- ENOMEM, 0, st)
  end.

(** Returns the error code, the value of [*inode] and the new state. *)
Definition inode_reserve (st : fs) (p : list Z) : res (Z * Z * fs) :=
  if (deref p =? 0) || negb (deref p =? SLASH) then Ok (- EINVAL, 0, st)
  else
    '(ret, desc) ← inode_search st (SETUP_SEARCH p);
    if 0 <=? ret then Ok (- EEXIST, 0, st)
    else reserve_loop (S (length (path desc))) st (path desc) (peer desc) (parent desc).

Definition register_driver (me : Z) (st : fs) (p : list Z) (fops priv : Z) : res (Z * fs) :=
  st ← inode_semtake me st;
  '(ret, node, st) ← inode_reserve st p;
  if 0 <=? ret then
    st ← upd_node st node INODE_SET_DRIVER;
    st ← upd_node st node (fun n => set_i_ops n fops);
    st ← upd_node st node (fun n => set_i_private n priv);
    Ok (OK, inode_semgive st)
  else Ok (ret, inode_semgive st).
End Insertion.
