(* ===== verification/InodeTree.v ===== *)
(** * The tree that the inodes represent

    The nodes linked by [i_child] and [i_peer] form a tree in which the peers
    of a level are sorted by name.  This file relates the memory to that tree,
    and the search to a lookup of the segments of a path. *)

From S2P Require Import Prelude Inode.
Local Open Scope Z_scope.

(** ** Segments of a path *)

Abbreviation seg := inode_namecpy.

Definition noslash (s : list Z) : Prop := Forall (fun c => c <> SLASH) s.

(** A C string: characters are bytes other than NUL. *)
Definition cstring (s : list Z) : Prop := Forall (fun c => 0 < c < 256) s.

Lemma seg_noslash name : noslash (seg name).
Proof.
  induction name as [|c name IH]; [constructor|]. cbn [seg inode_namecpy].
  destruct (c =? SLASH) eqn:E; [constructor|]. b2p. by constructor.
Qed.

Lemma skip_segment_app name : name = seg name ++ skip_segment name.
Proof. induction name as [|c name IH]; [done|]. simpl. destruct (c =? SLASH); [done|]. simpl. by f_equal. Qed.

Lemma skip_slashes_suffix name : exists k, name = replicate k SLASH ++ skip_slashes name.
Proof.
  induction name as [|c name [k IH]]; [by exists O|]. simpl. destruct (c =? SLASH) eqn:E; [|by exists O].
  b2p. exists (S k). simpl. by rewrite <- IH, E.
Qed.

Lemma skip_slashes_head name : deref (skip_slashes name) <> SLASH.
Proof.
  induction name as [|c name IH]; [done|]. simpl. destruct (c =? SLASH) eqn:E; [done|]. b2p. done.
Qed.

Lemma nextname_suffix name : exists l, name = l ++ inode_nextname name.
Proof.
  unfold inode_nextname. destruct (skip_slashes_suffix (skip_segment name)) as [k Hk].
  exists (seg name ++ replicate k SLASH). by rewrite <- app_assoc, <- Hk, <- skip_segment_app.
Qed.

Lemma nextname_head name : deref (inode_nextname name) <> SLASH.
Proof. apply skip_slashes_head. Qed.

Lemma nextname_shorter name :
  name <> [] -> deref name <> SLASH -> (length (inode_nextname name) < length name)%nat.
Proof.
  intros Hn Hs. unfold inode_nextname.
  destruct (skip_slashes_suffix (skip_segment name)) as [k Hk].
  destruct name as [|c name]; [done|]. simpl in *.
  destruct (c =? SLASH) eqn:E; [b2p; done|].
  pose proof (f_equal length (skip_segment_app name)) as H1. apply (f_equal length) in Hk.
  rewrite !length_app in *. lia.
Qed.

Lemma cstring_suffix l name : cstring (l ++ name) -> cstring name.
Proof. intros [_ ?]%Forall_app. done. Qed.

Lemma nextname_cstring name : cstring name -> cstring (inode_nextname name).
Proof. intros H. destruct (nextname_suffix name) as [l E]. rewrite E in H. by eapply cstring_suffix. Qed.

Lemma skip_slashes_cstring name : cstring name -> cstring (skip_slashes name).
Proof. intros H. destruct (skip_slashes_suffix name) as [l E]. rewrite E in H. by eapply cstring_suffix. Qed.

Lemma deref_end name : cstring name -> (deref name =? 0) = true <-> name = [].
Proof. destruct 1 as [|c name Hc]; simpl; [done|]. rewrite Z.eqb_eq. split; [lia|done]. Qed.

(** The segments of a path that does not start with a slash. *)
Fixpoint segs_n (n : nat) (name : list Z) : list (list Z) :=
  match n, name with
  | S n, _ :: _ => seg name :: segs_n n (inode_nextname name)
  | _, _ => []
  end.
Definition segs (name : list Z) : list (list Z) := segs_n (length name) name.

Lemma segs_n_enough n name :
  deref name <> SLASH -> (length name <= n)%nat -> segs_n n name = segs name.
Proof.
  revert name. induction n as [n IH] using lt_wf_ind. intros name Hs Hn. unfold segs.
  destruct name as [|c name]; [by destruct n|]. destruct n as [|n]; [simpl in Hn; lia|].
  cbn [segs_n length]. f_equal.
  pose proof (nextname_shorter (c :: name) ltac:(done) Hs) as Hlt. cbn [length] in *.
  rewrite (IH n) by (lia || apply nextname_head).
  symmetry. apply IH; [lia | apply nextname_head | lia].
Qed.

Lemma segs_cons name :
  name <> [] -> deref name <> SLASH -> segs name = seg name :: segs (inode_nextname name).
Proof.
  intros Hn Hs. destruct name as [|c name]; [done|].
  pose proof (nextname_shorter (c :: name) Hn Hs). cbn [length] in *.
  unfold segs at 1. cbn [segs_n length]. f_equal. apply segs_n_enough; [apply nextname_head | lia].
Qed.

(** ** The order of names *)

Lemma compare_seg f n : _inode_compare f n = _inode_compare (seg f) n.
Proof.
  revert n. induction f as [|c f IH]; intros [|d n]; try done; simpl;
    (destruct (c =? SLASH) eqn:E; [done|]; simpl; rewrite E; try done).
  by rewrite IH.
Qed.

Lemma compare_range f n : _inode_compare f n = -1 \/ _inode_compare f n = 0 \/ _inode_compare f n = 1.
Proof.
  revert n. induction f as [|c f IH]; intros [|d n]; simpl; repeat case_match; auto.
Qed.

Lemma compare_eq a b : noslash a -> _inode_compare a b = 0 <-> a = b.
Proof.
  intros Ha. revert b. induction Ha as [|c a Hc Ha IH]; intros [|d b]; simpl; try done;
    apply Z.eqb_neq in Hc; rewrite Hc; [done|].
  destruct (d <? c) eqn:E1; [b2p; split; [done|intros [=]; lia]|].
  destruct (c <? d) eqn:E2; [b2p; split; [done|intros [=]; lia]|]. b2p.
  rewrite IH. split; [intros ->; f_equal; lia | by intros [=]].
Qed.

Lemma compare_flip a b : noslash a -> noslash b -> _inode_compare b a = - _inode_compare a b.
Proof.
  intros Ha. revert b. induction Ha as [|c a Hc Ha IH]; intros b Hb; destruct Hb as [|d b Hd Hb]; try done; simpl;
    apply Z.eqb_neq in Hc || idtac; try (apply Z.eqb_neq in Hd); rewrite ?Hc, ?Hd; try done.
  rewrite (IH b Hb). destruct (d <? c) eqn:E1, (c <? d) eqn:E2; b2p; try lia; done.
Qed.

Lemma compare_trans a b c :
  noslash a -> noslash b -> noslash c ->
  _inode_compare a b < 0 -> _inode_compare b c < 0 -> _inode_compare a c < 0.
Proof.
  intros Ha. revert b c. induction Ha as [|x a Hx Ha IH]; intros b c Hb Hc;
    destruct Hb as [|y b Hy Hb], Hc as [|z c Hz Hc]; simpl; try lia;
    repeat match goal with H : _ <> SLASH |- _ => apply Z.eqb_neq in H; try rewrite H end; try lia.
  intros H1 H2. specialize (IH b c Hb Hc).
  destruct (y <? x) eqn:E1, (x <? y) eqn:E2, (z <? y) eqn:E3, (y <? z) eqn:E4, (z <? x) eqn:E5, (x <? z) eqn:E6;
    b2p; lia.
Qed.

(** ** Trees

    [Node a nm mt c r]: the node at address [a], its name, whether it is a
    mount point, its children and the peers to its right. *)

Inductive tree :=
  | Leaf
  | Node (a : Z) (nm : list Z) (mt : bool) (c r : tree).

Definition addr (t : tree) : Z := match t with Leaf => 0 | Node a _ _ _ _ => a end.

Fixpoint addrs (t : tree) : list Z :=
  match t with Leaf => [] | Node a _ _ c r => a :: addrs c ++ addrs r end.

Definition stands_for (n : inode) (nm : list Z) (mt : bool) (c r : Z) : Prop :=
  i_name n = nm /\ INODE_IS_MOUNTPT n = mt /\ i_child n = c /\ i_peer n = r.

Fixpoint rep (m : gmap Z inode) (t : tree) : Prop :=
  match t with
  | Leaf => True
  | Node a nm mt c r =>
      a <> 0 /\ (exists n, m !! a = Some n /\ stands_for n nm mt (addr c) (addr r)) /\ rep m c /\ rep m r
  end.

(** Names are non-empty single segments, and increase along a level. *)
Definition head_gt (nm : list Z) (t : tree) : Prop :=
  match t with Leaf => True | Node _ nm' _ _ _ => _inode_compare nm nm' < 0 end.

Fixpoint sorted (t : tree) : Prop :=
  match t with
  | Leaf => True
  | Node _ nm _ c r => nm <> [] /\ noslash nm /\ head_gt nm r /\ sorted c /\ sorted r
  end.

Record fs_tree (st : fs) (t : tree) : Prop := {
  ft_root : g_root_inode st = addr t;
  ft_rep : rep (nodes st) t;
  ft_nodup : NoDup (addrs t);
  ft_sorted : sorted t
}.

(** Looking up the segments of a path: the node found, and the segments left
    over when a mount point ends the search early. *)
Fixpoint tlookup (t : tree) (p : list (list Z)) : option (Z * list (list Z)) :=
  match t, p with
  | Node a nm mt c r, s :: p' =>
      if decide (s = nm) then
        match p' with [] => Some (a, []) | _ => if mt then Some (a, p') else tlookup c p' end
      else tlookup r p
  | _, _ => None
  end.

Lemma rep_ext m m' t : (forall x, x ∈ addrs t -> m' !! x = m !! x) -> rep m t -> rep m' t.
Proof.
  induction t as [|a nm mt c IHc r IHr]; simpl; [done|]. intros Hx (Ha & (n & Hn & Hs) & Hc & Hr).
  split; [done|]. split; [exists n; rewrite Hx by set_solver; done|].
  split; [apply IHc | apply IHr]; try done; intros x Hin; apply Hx; set_solver.
Qed.

Lemma rep_mapped m t x : rep m t -> x ∈ addrs t -> x <> 0 /\ is_Some (m !! x).
Proof.
  induction t as [|a nm mt c IHc r IHr]; simpl; [set_solver|]. intros (Ha & (n & Hn & _) & Hc & Hr).
  rewrite elem_of_cons, elem_of_app. intros [-> |[Hx|Hx]]; eauto.
Qed.

Lemma addr_in t : addr t <> 0 -> addr t ∈ addrs t.
Proof. destruct t; simpl; [done|]. set_solver. Qed.

Lemma rep_addr m t : rep m t -> addr t = 0 <-> t = Leaf.
Proof. destruct t; simpl; [done|]. intros [? _]. done. Qed.

Lemma nodup_size (m : gmap Z inode) (l : list Z) :
  NoDup l -> (forall x, x ∈ l -> is_Some (m !! x)) -> (length l <= size m)%nat.
Proof.
  intros Hnd Hl. rewrite <- (size_dom (D := gset Z)).
  rewrite <- (size_list_to_set (C := gset Z)) by done.
  apply subseteq_size. intros x Hx%elem_of_list_to_set. by apply elem_of_dom, Hl.
Qed.

Lemma tlookup_in t q a rest : tlookup t q = Some (a, rest) -> a ∈ addrs t.
Proof.
  revert q. induction t as [|b nm mt c IHc r IHr]; intros [|s q]; cbn; try done.
  intros H. case_decide; [destruct q; [|destruct mt]; simplify_eq/=|]; set_solver.
Qed.

(** ** The search on the tree *)

Fixpoint tsearch (t : tree) (name : list Z) (left above : Z) : Z * inode_search_s :=
  match t with
  | Leaf => (- ENOENT, mk_desc name 0 left above None)
  | Node a nm mt c r =>
      let result := _inode_compare name nm in
      if result <? 0 then (- ENOENT, mk_desc name 0 left above None)
      else if 0 <? result then tsearch r name a above
      else
        let name := inode_nextname name in
        if (deref name =? 0) || mt then (OK, mk_desc name a left above (Some name))
        else tsearch c name 0 a
  end.

Lemma get_node_Ok st a n : a <> 0 -> nodes st !! a = Some n -> get_node st a = Ok n.
Proof. intros Ha E. unfold get_node. apply Z.eqb_neq in Ha. by rewrite Ha, E. Qed.

Lemma search_loop_tree fuel st t name left above :
  rep (nodes st) t -> (length (addrs t) < fuel)%nat ->
  search_loop fuel st name (addr t) left above = Ok (tsearch t name left above).
Proof.
  revert fuel name left above.
  induction t as [|a nm mt c IHc r IHr]; intros fuel name left above Hrep Hf;
    (destruct fuel as [|fuel]; [lia|]); [done|].
  simpl in Hrep, Hf. destruct Hrep as (Ha & (n & Hn & <- & <- & Hcc & Hrr) & Hc & Hr).
  rewrite length_app in Hf.
  cbn [search_loop addr tsearch]. rewrite (proj2 (Z.eqb_neq a 0) Ha).
  rewrite (get_node_Ok _ _ _ Ha Hn), bind_Ok. cbv zeta. rewrite Hcc, Hrr.
  destruct (_ <? 0); [done|]. destruct (0 <? _); [apply IHr; [done|lia]|].
  destruct (_ || _); [done|]. apply IHc; [done|lia].
Qed.

(** A name smaller than the first of a level is absent from the level. *)
Lemma tlookup_small t s p :
  noslash s -> sorted t -> head_gt s t -> tlookup t (s :: p) = None.
Proof.
  intros Hs. induction t as [|a nm mt c _ r IHr]; simpl; [done|]. intros (Hne & Hnm & Hh & Hc & Hr) Hlt.
  rewrite decide_False by (intros ->; apply (compare_eq nm nm) in Hnm; rewrite (proj2 Hnm) in Hlt by done; lia).
  apply IHr; [done|]. destruct r as [|b nb mb cb rb]; [done|]. simpl in *.
  eapply compare_trans; [done|apply Hnm|apply Hr|done|done].
Qed.

(** What the search reports is what the lookup finds. *)
Lemma tsearch_lookup t name left above :
  cstring name -> name <> [] -> deref name <> SLASH -> sorted t ->
  match tlookup t (segs name) with
  | Some (a, rest) => exists n' l' u', tsearch t name left above = (OK, mk_desc n' a l' u' (Some n')) /\ segs n' = rest
  | None => exists n' l' u', tsearch t name left above = (- ENOENT, mk_desc n' 0 l' u' None)
  end.
Proof.
  revert name left above. induction t as [|a nm mt c IHc r IHr]; intros name left above Hcs Hne Hsl Hso.
  { simpl. eauto. }
  rewrite segs_cons by done. cbn [tlookup tsearch]. cbv zeta. simpl in Hso.
  destruct Hso as (Hnn & Hnm & Hh & Hc & Hr). pose proof (seg_noslash name) as Hsg.
  rewrite (compare_seg name nm). destruct (compare_range (seg name) nm) as [E|[E|E]]; rewrite E; cbn.
  - rewrite decide_False by (intros Hx; apply compare_eq in Hx; [lia|done]).
    rewrite tlookup_small; [eauto|done|done|].
    destruct r; [done|]. simpl in *. eapply compare_trans; [done|apply Hnm|apply Hr|lia|done].
  - apply compare_eq in E; [|done]. rewrite decide_True by done.
    pose proof (nextname_cstring _ Hcs) as Hcs'. pose proof (deref_end _ Hcs') as Hde.
    destruct (deref (inode_nextname name) =? 0) eqn:Ed; cbn.
    + rewrite (proj1 Hde) by done. cbn. eauto 6.
    + assert (inode_nextname name <> []) as Hn' by (intros Hx; apply Hde in Hx; congruence).
      rewrite (segs_cons (inode_nextname name)) by (done || apply nextname_head).
      rewrite <- segs_cons by (done || apply nextname_head).
      destruct mt; [eauto 6|]. apply IHc; [done|done|apply nextname_head|done].
  - rewrite decide_False by (intros Hx; apply compare_eq in Hx; [lia|done]).
    rewrite <- segs_cons by done. by apply IHr.
Qed.

Lemma inode_search_tree st t p :
  fs_tree st t -> deref p = SLASH -> cstring p -> skip_slashes p <> [] ->
  inode_search st (SETUP_SEARCH p) = Ok (tsearch t (skip_slashes p) 0 0).
Proof.
  intros [Hroot Hrep Hnd Hso] Hd Hcs Hne. unfold inode_search, _inode_search.
  cbn [path SETUP_SEARCH]. rewrite Hd, Z.eqb_refl. cbn [negb]. cbv zeta.
  destruct (deref (skip_slashes p) =? 0) eqn:E.
  { apply deref_end in E; [done|by apply skip_slashes_cstring]. }
  rewrite Hroot. apply search_loop_tree; [done|]. unfold search_fuel.
  apply (proj2 (Nat.lt_succ_r _ _)), nodup_size; [done|]. intros x Hx. by eapply rep_mapped.
Qed.

(** * Replacing a subtree of the inode tree

    Insertion and removal both change the tree at the place where the search
    ended: the link on the left peer, on the parent or in the root is given a
    new target.  This file describes that place, and what the change of one
    link does to the tree, once for both operations. *)

(** The subtree at the place where the search of [name] ends, what is left of
    the name there, and the peer and parent the search reports. *)
Fixpoint tpos (t : tree) (name : list Z) (left above : Z) : tree * list Z * Z * Z :=
  match t with
  | Leaf => (t, name, left, above)
  | Node a nm mt c r =>
      let result := _inode_compare name nm in
      if result <? 0 then (t, name, left, above)
      else if 0 <? result then tpos r name a above
      else if (deref (inode_nextname name) =? 0) || mt then (t, name, left, above)
      else tpos c (inode_nextname name) 0 a
  end.

(** The tree with [f] applied to that subtree. *)
Fixpoint tgraft (f : tree -> list Z -> tree) (t : tree) (name : list Z) : tree :=
  match t with
  | Leaf => f t name
  | Node a nm mt c r =>
      let result := _inode_compare name nm in
      if result <? 0 then f t name
      else if 0 <? result then Node a nm mt c (tgraft f r name)
      else if (deref (inode_nextname name) =? 0) || mt then f t name
      else Node a nm mt (tgraft f c (inode_nextname name)) r
  end.

(** Setting the link that a left peer [l], or else a parent [u], holds. *)
Definition relink (m : gmap Z inode) (l u v : Z) : gmap Z inode :=
  if negb (l =? 0) then alter (fun n => set_i_peer n v) l m
  else if negb (u =? 0) then alter (fun n => set_i_child n v) u m
  else m.

Lemma relink_peer m l u v : l <> 0 -> relink m l u v = alter (fun n => set_i_peer n v) l m.
Proof. intros Hl. unfold relink. by rewrite (proj2 (Z.eqb_neq l 0) Hl). Qed.

Lemma relink_child m u v : u <> 0 -> relink m 0 u v = alter (fun n => set_i_child n v) u m.
Proof. intros Hu. unfold relink. by rewrite (proj2 (Z.eqb_neq u 0) Hu). Qed.

Lemma relink_frame m l u v x :
  (l <> 0 -> x <> l) -> (l = 0 -> u <> 0 -> x <> u) -> relink m l u v !! x = m !! x.
Proof.
  intros Hl Hu. unfold relink.
  destruct (l =? 0) eqn:El; b2p; cbn; [|apply lookup_alter_ne; naive_solver].
  destruct (u =? 0) eqn:Eu; b2p; cbn; [done|apply lookup_alter_ne; naive_solver].
Qed.

(** A way to split on the branch the search takes at a node. *)
Ltac turn nm name :=
  cbn [tpos tgraft tsearch addrs addr rep sorted] in *; cbv zeta in *;
  destruct (_inode_compare name nm <? 0) eqn:?;
  [|destruct (0 <? _inode_compare name nm) eqn:?;
    [|destruct ((deref (inode_nextname name) =? 0) || _) eqn:?]].

Lemma graft_addrs t name left above s n' l' u' :
  tpos t name left above = (s, n', l', u') ->
  exists ctx, addrs t ≡ₚ ctx ++ addrs s /\ forall f, addrs (tgraft f t name) ≡ₚ ctx ++ addrs (f s n').
Proof.
  revert name left above. induction t as [|a nm mt c IHc r IHr]; intros name left above E.
  { injection E as <- <- <- <-. by exists []. }
  turn nm name; try (injection E as <- <- <- <-; by exists []).
  - apply IHr in E as (ctx & H1 & H2). exists (a :: addrs c ++ ctx). split; [|intros f]; simpl;
      rewrite ?H1, ?H2; solve_Permutation.
  - apply IHc in E as (ctx & H1 & H2). exists (a :: addrs r ++ ctx). split; [|intros f]; simpl;
      rewrite ?H1, ?H2; solve_Permutation.
Qed.

Lemma tpos_sub t name left above s n' l' u' x :
  tpos t name left above = (s, n', l', u') -> x ∈ addrs s -> x ∈ addrs t.
Proof. intros (ctx & -> & _)%graft_addrs Hx. set_solver. Qed.

Lemma tpos_rep m t name left above s n' l' u' :
  tpos t name left above = (s, n', l', u') -> rep m t -> rep m s.
Proof.
  revert name left above. induction t as [|a nm mt c IHc r IHr]; intros name left above E Hr.
  { by injection E as <- <- <- <-. }
  turn nm name; try (by injection E as <- <- <- <-); destruct Hr as (Ha & Hn & Hc & Hr); eauto.
Qed.

Lemma tpos_sorted t name left above s n' l' u' :
  tpos t name left above = (s, n', l', u') -> sorted t -> sorted s.
Proof.
  revert name left above. induction t as [|a nm mt c IHc r IHr]; intros name left above E Hr.
  { by injection E as <- <- <- <-. }
  turn nm name; try (by injection E as <- <- <- <-); destruct Hr as (? & ? & ? & ? & ?); eauto.
Qed.

(** The link belongs to a node of [A]. *)
Definition link_in (l u : Z) (A : list Z) : Prop := (l <> 0 /\ l ∈ A) \/ (l = 0 /\ u ∈ A).

Lemma link_in_weaken l u (A B : list Z) : (forall x, x ∈ A -> x ∈ B) -> link_in l u A -> link_in l u B.
Proof. intros H [[? ?]|[? ?]]; [left|right]; auto. Qed.

Lemma relink_outside m l u v A x : link_in l u A -> x ∉ A -> relink m l u v !! x = m !! x.
Proof. intros [[Hl Hin]|[-> Hin]] Hx; apply relink_frame; intros; try done; by intros ->. Qed.

Lemma relink_rep m l u v A t :
  link_in l u A -> (forall x, x ∈ addrs t -> x ∉ A) -> rep m t -> rep (relink m l u v) t.
Proof. intros Hl Hd. apply rep_ext. intros x Hx. eapply relink_outside; eauto. Qed.

Lemma nodup_node a (lc lr : list Z) :
  NoDup (a :: lc ++ lr) -> a ∉ lc /\ a ∉ lr /\ NoDup lc /\ NoDup lr /\ (forall x, x ∈ lc -> x ∈ lr -> False).
Proof. rewrite NoDup_cons, NoDup_app, not_elem_of_app. naive_solver. Qed.

(** The change of one link is the change of the tree. *)
Lemma graft_rep f t name left above s n' l' u' m m' :
  tpos t name left above = (s, n', l', u') ->
  rep m t -> NoDup (addrs t) ->
  (forall x, x ∈ addrs t -> x ∉ addrs s -> m' !! x = m !! x) ->
  rep m' (f s n') -> (forall x, x ∈ addrs (f s n') -> x ∈ addrs s \/ x ∉ addrs t) ->
  (l' = left /\ u' = above /\ s = t /\ tgraft f t name = f s n') \/
  (link_in l' u' (addrs t) /\
   rep (relink m' l' u' (addr (f s n'))) (tgraft f t name) /\ addr (tgraft f t name) = addr t).
Proof.
  revert name left above. induction t as [|a nm mt c IHc r IHr];
    intros name left above E Hrep Hnd Hsame Hf Hfresh.
  { injection E as <- <- <- <-. by left. }
  turn nm name; try (injection E as <- <- <- <-; by left); right;
    destruct Hrep as (Ha & (n & Hn & <- & <- & Hnc & Hnr) & Hc & Hr);
    apply nodup_node in Hnd as (Hac & Har & Hndc & Hndr & Hcr);
    pose proof (fun x => tpos_sub _ _ _ _ _ _ _ _ x E) as Hsub.
  - assert (a ∉ addrs (f s n')) as Haf by (intros Hx; destruct (Hfresh _ Hx) as [Hy|Hy]; [by apply Har, Hsub | set_solver]).
    assert (m' !! a = Some n) as Hn' by (rewrite Hsame; [done|set_solver|by intros ?%Hsub]).
    assert (rep m' c) as Hc' by (apply (rep_ext m); [intros x Hx; apply Hsame; [set_solver|by intros ?%Hsub; eapply Hcr]|done]).
    destruct (IHr _ _ _ E Hr Hndr) as [(-> & -> & -> & ->)|(Hin & Hrp & Had)];
      [intros x Hx; apply Hsame; set_solver | done | intros x Hx; destruct (Hfresh _ Hx); set_solver | |].
    + assert (link_in a above [a]) as Hla by (left; set_solver).
      split; [eapply link_in_weaken, Hla; set_solver|]. split; [|done]. cbn [rep]. split; [done|]. split; [|split].
      * exists (set_i_peer n (addr (f r n'))). by rewrite relink_peer, lookup_alter_eq, Hn'.
      * eapply relink_rep; [exact Hla| |done]. set_solver.
      * eapply relink_rep; [exact Hla| |done]. set_solver.
    + split; [eapply link_in_weaken, Hin; set_solver|]. split; [|done]. cbn [rep]. split; [done|]. split; [|split; [|done]].
      * exists n. by rewrite Had, (relink_outside _ _ _ _ _ _ Hin).
      * eapply relink_rep; [exact Hin|eauto|done].
  - assert (a ∉ addrs (f s n')) as Haf by (intros Hx; destruct (Hfresh _ Hx) as [Hy|Hy]; [by apply Hac, Hsub | set_solver]).
    assert (m' !! a = Some n) as Hn' by (rewrite Hsame; [done|set_solver|by intros ?%Hsub]).
    assert (rep m' r) as Hr' by (apply (rep_ext m); [intros x Hx; apply Hsame; [set_solver|by intros ?%Hsub; eapply Hcr]|done]).
    destruct (IHc _ _ _ E Hc Hndc) as [(-> & -> & -> & ->)|(Hin & Hrp & Had)];
      [intros x Hx; apply Hsame; set_solver | done | intros x Hx; destruct (Hfresh _ Hx); set_solver | |].
    + assert (link_in 0 a [a]) as Hla by (right; set_solver).
      split; [eapply link_in_weaken, Hla; set_solver|]. split; [|done]. cbn [rep]. split; [done|]. split; [|split].
      * exists (set_i_child n (addr (f c n'))). by rewrite relink_child, lookup_alter_eq, Hn'.
      * eapply relink_rep; [exact Hla| |done]. set_solver.
      * eapply relink_rep; [exact Hla| |done]. set_solver.
    + split; [eapply link_in_weaken, Hin; set_solver|]. split; [|done]. cbn [rep]. split; [done|]. split; [|split; [done|]].
      * exists n. by rewrite Had, (relink_outside _ _ _ _ _ _ Hin).
      * eapply relink_rep; [exact Hin|eauto|done].
Qed.

(** The link the search reports leads to the subtree at its end, from outside. *)
Lemma tpos_link m t name left above s n' l' u' :
  tpos t name left above = (s, n', l', u') -> rep m t -> NoDup (addrs t) ->
  (l' = left /\ u' = above /\ s = t) \/
  (l' <> 0 /\ l' ∈ addrs t /\ l' ∉ addrs s /\ exists n, m !! l' = Some n /\ i_peer n = addr s) \/
  (l' = 0 /\ u' <> 0 /\ u' ∈ addrs t /\ u' ∉ addrs s /\ exists n, m !! u' = Some n /\ i_child n = addr s).
Proof.
  revert name left above. induction t as [|a nm mt c IHc r IHr]; intros name left above E Hrep Hnd.
  { injection E as <- <- <- <-. by left. }
  turn nm name; try (injection E as <- <- <- <-; by left); right;
    destruct Hrep as (Ha & (n & Hn & <- & <- & Hnc & Hnr) & Hc & Hr);
    apply nodup_node in Hnd as (Hac & Har & Hndc & Hndr & Hcr).
  - destruct (IHr _ _ _ E Hr Hndr) as [(-> & -> & ->)|[(?&?&?&?)|(?&?&?&?&?)]]; [left|left|right];
      split_and?; eauto; set_solver.
  - destruct (IHc _ _ _ E Hc Hndc) as [(-> & -> & ->)|[(?&?&?&?)|(?&?&?&?&?)]]; [right|left|right];
      split_and?; eauto; set_solver.
Qed.

Definition relink_fs (st : fs) (l u v : Z) : fs :=
  if (l =? 0) && (u =? 0) then set_root st v else set_nodes st (relink (nodes st) l u v).

Lemma graft_fs f st t m' name s n' l' u' :
  fs_tree st t -> tpos t name 0 0 = (s, n', l', u') ->
  (forall x, x ∈ addrs t -> x ∉ addrs s -> m' !! x = nodes st !! x) ->
  rep m' (f s n') -> NoDup (addrs (f s n')) ->
  (forall x, x ∈ addrs (f s n') -> x ∈ addrs s \/ x ∉ addrs t) ->
  sorted (tgraft f t name) ->
  fs_tree (relink_fs (set_nodes st m') l' u' (addr (f s n'))) (tgraft f t name).
Proof.
  intros [Hroot Hrep Hnd _] E Hsame Hf Hndf Hfresh Hso.
  assert (NoDup (addrs (tgraft f t name))) as Hnd'.
  { destruct (graft_addrs _ _ _ _ _ _ _ _ E) as (ctx & H1 & H2). rewrite H2. rewrite H1 in Hnd.
    apply NoDup_app in Hnd as (? & Hx & ?). apply NoDup_app. split_and!; [done| |done].
    intros x Hxc Hxf. destruct (Hfresh _ Hxf) as [?|Hxt]; [by eapply Hx|]. apply Hxt. rewrite H1. set_solver. }
  destruct (graft_rep f _ _ _ _ _ _ _ _ _ _ E Hrep Hnd Hsame Hf Hfresh)
    as [(-> & -> & -> & Heq)|(Hl & Hrp & Had)].
  - rewrite Heq in *. by split.
  - assert ((l' =? 0) && (u' =? 0) = false) as Hz.
    { apply andb_false_iff. destruct Hl as [[H0 _]|[_ H0]]; [left; by apply Z.eqb_neq|right].
      apply Z.eqb_neq. apply (rep_mapped _ _ _ Hrep H0). }
    unfold relink_fs. rewrite Hz. split; [|exact Hrp|done|done]. by rewrite Had.
Qed.

(** ** Insertion of one node *)

Definition tins (new : Z) (s : tree) (n' : list Z) : tree := Node new (seg n') false Leaf s.

Lemma tsearch_tpos t name left above s n' l' u' :
  tpos t name left above = (s, n', l', u') ->
  (tsearch t name left above = (- ENOENT, mk_desc n' 0 l' u' None) /\ head_gt (seg n') s) \/
  (exists a nm mt c r, s = Node a nm mt c r /\ seg n' = nm /\
     ((deref (inode_nextname n') =? 0) || mt = true) /\
     tsearch t name left above = (OK, mk_desc (inode_nextname n') a l' u' (Some (inode_nextname n')))).
Proof.
  revert name left above. induction t as [|a nm mt c IHc r IHr]; intros name left above E.
  { injection E as <- <- <- <-. by left. }
  turn nm name; try (by eauto); injection E as <- <- <- <-.
  - left. split; [done|]. cbn. rewrite <- compare_seg. by b2p.
  - right. exists a, nm, mt, c, r. split_and!; try done.
    apply compare_eq; [apply seg_noslash|]. rewrite <- compare_seg. b2p. lia.
Qed.

Lemma seg_nonempty name : name <> [] -> deref name <> SLASH -> seg name <> [].
Proof. destruct name as [|c name]; [done|]. simpl. intros _ Hc%Z.eqb_neq. by rewrite Hc. Qed.

(** The name that is left at the end of the search. *)
Lemma tpos_name t name left above s n' l' u' :
  tpos t name left above = (s, n', l', u') ->
  cstring name -> name <> [] -> deref name <> SLASH ->
  cstring n' /\ n' <> [] /\ deref n' <> SLASH /\ exists pre, segs name = pre ++ segs n'.
Proof.
  revert name left above. induction t as [|a nm mt c IHc r IHr]; intros name left above E Hcs Hne Hs.
  { injection E as <- <- <- <-. split_and!; try done. by exists []. }
  turn nm name; try (injection E as <- <- <- <-; split_and!; try done; by exists []); [by eauto|].
  assert (inode_nextname name <> []) as Hn.
  { intros Hx. rewrite Hx in *. cbn in *. done. }
  destruct (IHc _ _ _ E) as (? & ? & ? & pre & Hpre);
    [by apply nextname_cstring|done|apply nextname_head|].
  split_and!; try done. exists (seg name :: pre). rewrite segs_cons by done. by rewrite Hpre.
Qed.

Lemma tins_sorted t name left above new s n' l' u' :
  tpos t name left above = (s, n', l', u') ->
  cstring name -> name <> [] -> deref name <> SLASH ->
  sorted t -> fst (tsearch t name left above) = - ENOENT -> sorted (tgraft (tins new) t name).
Proof.
  revert name left above. induction t as [|a nm mt c IHc r IHr]; intros name left above E Hcs Hne Hsl Hso Hnf.
  { simpl. split_and!; try done; [by apply seg_nonempty|apply seg_noslash]. }
  assert (sorted (Node a nm mt c r)) as Hso' by done.
  turn nm name; try done; destruct Hso as (Hnn & Hnm & Hh & Hc & Hr).
  - cbn. split_and!; try done; [by apply seg_nonempty|apply seg_noslash|].
    rewrite <- compare_seg. by b2p.
  - split_and!; try done; [|by eapply IHr].
    assert (_inode_compare nm (seg name) < 0) as Hlt.
    { rewrite compare_flip by (done || apply seg_noslash). rewrite <- compare_seg. b2p. lia. }
    destruct r as [|b nb mb cb rb]; [done|]. turn nb name; try done.
  - split_and!; try done. eapply IHc; try done; [by apply nextname_cstring| |apply nextname_head].
    intros Hx. rewrite Hx in *. done.
Qed.
