(* ===== verification/InodeOps.v ===== *)
(** * Insertion and removal in the inode tree

    What [inode_reserve], [inode_unlink], [inode_free] and [inode_remove] do to
    the tree, and to the set of paths it knows. *)

From S2P Require Import Prelude Inode InodeTree.
Local Open Scope Z_scope.

(** ** Lookups after a change of the tree *)

Lemma tlookup_nil t : tlookup t [] = None.
Proof. by destruct t. Qed.

Lemma tlookup_new new s n' x q :
  tlookup (tins new s n') (x :: q) =
  if decide (x = seg n') then match q with [] => Some (new, []) | _ => None end else tlookup s (x :: q).
Proof. cbn. case_decide; [|done]. by destruct q. Qed.

Lemma tlookup_tins t name left above new s n' l' u' :
  tpos t name left above = (s, n', l', u') ->
  cstring name -> name <> [] -> deref name <> SLASH -> sorted t ->
  fst (tsearch t name left above) = - ENOENT ->
  exists pre, pre <> [] /\ segs name = pre ++ segs (inode_nextname n') /\ tlookup t pre = None /\
    forall q, tlookup (tgraft (tins new) t name) q = if decide (q = pre) then Some (new, []) else tlookup t q.
Proof.
  revert name left above. induction t as [|a nm mt c IHc r IHr]; intros name left above E Hcs Hne Hsl Hso Hnf.
  { injection E as <- <- <- <-. exists [seg name]. split_and!; [done|by apply segs_cons|done|].
    intros [|x q]; [done|]. simpl. destruct (decide (x = seg name)) as [->|], q;
      repeat case_decide; simplify_eq/=; done. }
  pose proof (seg_noslash name) as Hsg. pose proof (compare_seg name nm) as Hcmp.
  assert (head_gt (seg name) (Node a nm mt c r) -> tlookup (Node a nm mt c r) (seg name :: tail (segs name)) = None /\
    forall p, tlookup (Node a nm mt c r) (seg name :: p) = None) as Hsmall.
  { intros Hh. split; [|intros p]; by apply tlookup_small. }
  turn nm name; try done; destruct Hso as (Hnn & Hnm & Hh & Hc & Hr).
  - injection E as <- <- <- <-. exists [seg name]. 
    destruct Hsmall as [_ Hsmall]; [cbn; b2p; lia|].
    split_and!; [done|by apply segs_cons|apply Hsmall|]. intros [|x q]; [done|]. rewrite tlookup_new.
    destruct (decide (x = seg name)) as [->|].
    + destruct q; [by rewrite decide_True by done|]. rewrite decide_False by done. by rewrite Hsmall.
    + rewrite (decide_False (P := x :: q = [seg name])) by congruence. done.
  - destruct (IHr _ _ _ E) as (pre & Hp & Hse & Hno & Hq); try done. exists pre.
    assert (seg name <> nm) as Hd by (intros Hx%compare_eq; [b2p; lia|done]).
    rewrite segs_cons in Hse by done. destruct pre as [|y pre]; [done|]. simplify_eq/=.
    split_and!; [done|by rewrite segs_cons by done; f_equal|by rewrite decide_False by congruence|].
    intros [|x q]; [done|]. cbn [tlookup]. destruct (decide (x = nm)) as [->|]; [|apply Hq].
    by rewrite (decide_False (P := nm :: q = seg name :: pre)) by congruence.
  - apply orb_false_iff in Heqb1 as [Hd ->].
    assert (inode_nextname name <> []) as Hn by (intros Hx; rewrite Hx in Hd; done).
    destruct (IHc _ _ _ E) as (pre & Hp & Hse & Hno & Hq); try done; [by apply nextname_cstring|apply nextname_head|].
    assert (seg name = nm) as <- by (apply compare_eq; [done|]; b2p; lia).
    exists (seg name :: pre). split_and!; [done|by rewrite segs_cons, Hse by done| |].
    { cbn. rewrite decide_True by done. by destruct pre. }
    intros [|x q]; [done|]. cbn [tlookup]. destruct (decide (x = seg name)) as [->|].
    + destruct q as [|y q]; [by rewrite decide_False by congruence|]. rewrite Hq.
      repeat case_decide; congruence || done.
    + by rewrite (decide_False (P := x :: q = seg name :: pre)) by congruence.
Qed.

Definition tdel (s : tree) (_ : list Z) : tree := match s with Leaf => Leaf | Node _ _ _ _ r => r end.

Lemma head_gt_trans x nm t : noslash x -> noslash nm -> sorted t -> _inode_compare x nm < 0 -> head_gt nm t -> head_gt x t.
Proof. destruct t; [done|]. simpl. intros ? Hn (_ & ? & _) ? ?. by apply (compare_trans x nm). Qed.

Lemma tdel_sorted t name : sorted t -> sorted (tgraft tdel t name).
Proof.
  revert name. induction t as [|a nm mt c IHc r IHr]; intros name Hso; [done|].
  assert (sorted (Node a nm mt c r)) as Hso' by done.
  turn nm name; destruct Hso as (Hnn & Hnm & Hh & Hc & Hr); try done; split_and!; auto.
  destruct r as [|b nb mb cb rb]; [done|]. simpl in Hr. destruct Hr as (? & ? & ? & ? & ?).
  turn nb name; try done; by eapply head_gt_trans.
Qed.

Lemma tlookup_tdel t name left above s n' l' u' :
  tpos t name left above = (s, n', l', u') ->
  cstring name -> name <> [] -> deref name <> SLASH -> sorted t ->
  fst (tsearch t name left above) = OK ->
  exists pre, pre <> [] /\ segs name = pre ++ segs (inode_nextname n') /\
    forall q, tlookup (tgraft tdel t name) q = if decide (pre `prefix_of` q) then None else tlookup t q.
Proof.
  revert name left above. induction t as [|a nm mt c IHc r IHr]; intros name left above E Hcs Hne Hsl Hso Hf; [done|].
  pose proof (seg_noslash name) as Hsg. pose proof (compare_seg name nm) as Hcmp.
  turn nm name; try done; destruct Hso as (Hnn & Hnm & Hh & Hc & Hr).
  - destruct (IHr _ _ _ E) as (pre & Hp & Hse & Hq); try done. exists pre.
    assert (seg name <> nm) as Hd by (intros Hx%compare_eq; [b2p; lia|done]).
    split_and!; try done. rewrite segs_cons in Hse by done. destruct pre as [|y pre]; [done|]. simplify_eq/=.
    intros [|x q]; [by rewrite decide_False by (intros ?%prefix_nil_inv; done)|].
    cbn [tlookup]. destruct (decide (x = nm)) as [->|]; [|apply Hq].
    rewrite (decide_False (P := _ `prefix_of` _)); [done|]. intros ?%prefix_cons_inv_1; done.
  - injection E as <- <- <- <-. assert (seg name = nm) as <- by (apply compare_eq; [done|]; b2p; lia).
    exists [seg name]. split_and!; [done|by apply segs_cons|]. cbn [tdel].
    intros [|x q]; [rewrite tlookup_nil; by case_decide|]. cbn [tlookup].
    destruct (decide (x = seg name)) as [->|].
    + rewrite (decide_True (P := _ `prefix_of` _)) by (apply prefix_cons, prefix_nil). by apply tlookup_small.
    + rewrite (decide_False (P := _ `prefix_of` _)); [done|]. intros ?%prefix_cons_inv_1; done.
  - apply orb_false_iff in Heqb1 as [Hd ->].
    assert (inode_nextname name <> []) as Hn by (intros Hx; rewrite Hx in Hd; done).
    destruct (IHc _ _ _ E) as (pre & Hp & Hse & Hq); try done; [by apply nextname_cstring|apply nextname_head|].
    assert (seg name = nm) as <- by (apply compare_eq; [done|]; b2p; lia).
    exists (seg name :: pre). split_and!; [done|by rewrite segs_cons, Hse by done|].
    intros [|x q]; [by rewrite decide_False by (intros ?%prefix_nil_inv; done)|]. cbn [tlookup].
    destruct (decide (x = seg name)) as [->|].
    + destruct q as [|y q]; [rewrite decide_False; [done|]|].
      { intros ?%prefix_cons_inv_2%prefix_nil_inv. done. }
      rewrite Hq. repeat case_decide; try done; exfalso; eauto using prefix_cons, prefix_cons_inv_2.
    + rewrite (decide_False (P := _ `prefix_of` _)); [done|]. intros ?%prefix_cons_inv_1; done.
Qed.

(** ** What an operation leaves alone *)

(** Everything in a node but its links. *)
Definition payload (n : inode) : Z * Z * Z * Z * list Z :=
  (i_crefs n, i_flags n, i_ops n, i_private n, i_name n).

Lemma payload_mount n1 n2 : payload n1 = payload n2 -> INODE_IS_MOUNTPT n1 = INODE_IS_MOUNTPT n2.
Proof. intros [=]. unfold INODE_IS_MOUNTPT, INODE_IS_TYPE. congruence. Qed.

Lemma relink_payload m l u v x : payload <$> relink m l u v !! x = payload <$> m !! x.
Proof.
  unfold relink. destruct (l =? 0), (u =? 0); cbn; try done; rewrite lookup_alter;
    case_decide; subst; destruct (m !! _); done.
Qed.

(** The nodes there were are kept, and the new ones are blank. *)
Definition grows (m m' : gmap Z inode) : Prop :=
  forall x, match m !! x, m' !! x with
  | Some n, Some n' => payload n' = payload n
  | Some _, None => False
  | None, Some n' => i_crefs n' = 0 /\ i_flags n' = 0 /\ i_ops n' = 0
  | None, None => True
  end.

Lemma grows_refl m : grows m m.
Proof. intros x. destruct (m !! x); done. Qed.

Lemma grows_trans m1 m2 m3 : grows m1 m2 -> grows m2 m3 -> grows m1 m3.
Proof.
  intros H1 H2 x. specialize (H1 x). specialize (H2 x).
  destruct (m1 !! x), (m2 !! x), (m3 !! x); try done; try congruence.
  unfold payload in *. destruct H1 as (? & ? & ?). split_and!; congruence.
Qed.

Lemma grows_payload m m1 m2 :
  (forall x, payload <$> m2 !! x = payload <$> m1 !! x) -> grows m m1 -> grows m m2.
Proof.
  intros Hp Hg x. specialize (Hp x). specialize (Hg x). destruct (m !! x), (m1 !! x), (m2 !! x); try done.
  - injection Hp. unfold payload in *. congruence.
  - injection Hp as Hc Hf Ho _ _. rewrite Hc, Hf, Ho. done.
Qed.

Lemma upd_node_Ok st a n f : a <> 0 -> nodes st !! a = Some n -> upd_node st a f = Ok (put_node st a (f n)).
Proof. intros Ha E. unfold upd_node. by rewrite (get_node_Ok _ _ _ Ha E). Qed.

Lemma alter_insert (m : gmap Z inode) a n f : m !! a = Some n -> alter f a m = <[a := f n]> m.
Proof. intros E. apply map_eq. intros x. rewrite lookup_alter, lookup_insert. case_decide; [subst; by rewrite E|done]. Qed.

(** [inode_insert] puts the new node before what its link led to. *)
Lemma inode_insert_relink st t name new s n' l' u' n0 :
  fs_tree st t -> tpos t name 0 0 = (s, n', l', u') -> new <> 0 -> nodes st !! new = None ->
  inode_insert (put_node st new n0) new l' u' =
  Ok (relink_fs (set_nodes st (<[new := set_i_peer n0 (addr s)]> (nodes st))) l' u' new).
Proof.
  intros [Hroot Hrep Hnd Hso] E Hnew Hfresh. unfold inode_insert, relink_fs, relink.
  destruct (tpos_link _ _ _ _ _ _ _ _ _ E Hrep Hnd)
    as [(-> & -> & ->)|[(Hl & Hin & _ & n & Hn & Hp)|(-> & Hu & Hin & _ & n & Hn & Hp)]].
  - cbn. rewrite (upd_node_Ok _ _ n0) by (done || apply lookup_insert_eq). cbn.
    unfold put_node, set_nodes, set_root. cbn. by rewrite insert_insert_eq, Hroot.
  - assert (l' <> new) by congruence. rewrite (proj2 (Z.eqb_neq l' 0) Hl). cbn [negb andb].
    rewrite (get_node_Ok _ _ n) by (done || (cbn; by rewrite lookup_insert_ne)). cbn [mbind res_bind].
    rewrite (upd_node_Ok _ new n0) by (done || apply lookup_insert_eq). cbn [mbind res_bind].
    rewrite (upd_node_Ok _ l' n) by (done || (cbn; by rewrite !lookup_insert_ne)).
    unfold put_node, set_nodes. cbn. rewrite insert_insert_eq, Hp.
    by rewrite (alter_insert _ _ n) by (by rewrite lookup_insert_ne).
  - assert (u' <> new) by congruence. rewrite (proj2 (Z.eqb_neq u' 0) Hu). cbn [negb andb Z.eqb].
    rewrite (get_node_Ok _ _ n) by (done || (cbn; by rewrite lookup_insert_ne)). cbn [mbind res_bind].
    rewrite (upd_node_Ok _ new n0) by (done || apply lookup_insert_eq). cbn [mbind res_bind].
    rewrite (upd_node_Ok _ u' n) by (done || (cbn; by rewrite !lookup_insert_ne)).
    unfold put_node, set_nodes. cbn. rewrite insert_insert_eq, Hp.
    by rewrite (alter_insert _ _ n) by (by rewrite lookup_insert_ne).
Qed.

Lemma relink_fs_nodes st l u v x : payload <$> nodes (relink_fs st l u v) !! x = payload <$> nodes st !! x.
Proof. unfold relink_fs. destruct (_ && _); [done|]. apply relink_payload. Qed.

Lemma relink_fs_sem st l u v : g_inode_sem (relink_fs st l u v) = g_inode_sem st.
Proof. unfold relink_fs. by destruct (_ && _). Qed.

Lemma insert_spec st t name new s n' l' u' :
  fs_tree st t -> tpos t name 0 0 = (s, n', l', u') -> new <> 0 -> nodes st !! new = None ->
  cstring name -> name <> [] -> deref name <> SLASH -> fst (tsearch t name 0 0) = - ENOENT ->
  exists st', inode_insert (put_node st new (mk_inode 0 0 0 0 0 0 (seg n'))) new l' u' = Ok st' /\
    fs_tree st' (tgraft (tins new) t name) /\ g_inode_sem st' = g_inode_sem st /\
    grows (nodes st) (nodes st') /\ payload <$> nodes st' !! new = Some (0, 0, 0, 0, seg n').
Proof.
  intros Hft E Hnew Hfresh Hcs Hne Hsl Hnf.
  rewrite (inode_insert_relink _ _ _ _ _ _ _ _ _ Hft E Hnew Hfresh). eexists. split; [done|].
  pose proof (fun x => tpos_sub _ _ _ _ _ _ _ _ x E) as Hsub.
  assert (forall x, x ∈ addrs t -> x <> new) as Hnt.
  { intros x Hx ->. destruct (rep_mapped _ _ _ (ft_rep _ _ Hft) Hx) as [_ [? ?]]. congruence. }
  assert (forall x, x <> new ->
    (<[new := set_i_peer (mk_inode 0 0 0 0 0 0 (seg n')) (addr s)]> (nodes st)) !! x = nodes st !! x) as Hfr
    by (intros; by apply lookup_insert_ne).
  split_and!.
  - pose proof (graft_fs (tins new) st t (<[new := set_i_peer (mk_inode 0 0 0 0 0 0 (seg n')) (addr s)]> (nodes st))
      name s n' l' u') as G. apply G; clear G; try done.
    + intros x Hx _. by apply Hfr, Hnt.
    + cbn. split; [done|]. split; [eexists; split; [apply lookup_insert_eq|done]|]. split; [done|].
      apply (rep_ext (nodes st)); [intros x Hx; by apply Hfr, Hnt, Hsub|]. eapply tpos_rep; [done|apply Hft].
    + cbn. apply NoDup_cons. split; [intros Hx; by eapply Hnt; [apply Hsub|]|].
      destruct (graft_addrs _ _ _ _ _ _ _ _ E) as (ctx & Hp & _). pose proof (ft_nodup _ _ Hft) as Hnd.
      rewrite Hp in Hnd. by apply NoDup_app in Hnd as (_ & _ & ?).
    + cbn. intros x [->|Hx]%elem_of_cons; [right; intros Hx; by eapply Hnt|by left].
    + eapply tins_sorted; try done. apply Hft.
  - by rewrite relink_fs_sem.
  - eapply grows_payload; [intros x; apply relink_fs_nodes|]. intros x. cbn [nodes set_nodes].
    destruct (decide (x = new)) as [->|Hx]; [by rewrite lookup_insert_eq, Hfresh|].
    rewrite Hfr by done. apply grows_refl.
  - rewrite relink_fs_nodes. cbn [nodes set_nodes]. by rewrite lookup_insert_eq.
Qed.

(** ** Reserving a path *)

Lemma seg_compare name : _inode_compare name (seg name) = 0.
Proof. rewrite compare_seg. by apply compare_eq; [apply seg_noslash|]. Qed.

(** The search of the path continues below the node just inserted. *)
Lemma tpos_tins t name left above new s n' l' u' :
  tpos t name left above = (s, n', l', u') -> fst (tsearch t name left above) = - ENOENT ->
  deref (inode_nextname n') <> 0 ->
  tpos (tgraft (tins new) t name) name left above = (Leaf, inode_nextname n', 0, new) /\
  fst (tsearch (tgraft (tins new) t name) name left above) = - ENOENT.
Proof.
  revert name left above. induction t as [|a nm mt c IHc r IHr]; intros name left above E Hnf Hd.
  { injection E as <- <- <- <-. cbn. rewrite seg_compare. cbn. by rewrite (proj2 (Z.eqb_neq _ _) Hd). }
  turn nm name; try done.
  - injection E as <- <- <- <-. cbn. rewrite seg_compare. cbn. by rewrite (proj2 (Z.eqb_neq _ _) Hd).
  - cbn [tpos tsearch]. cbv zeta. rewrite Heqb, Heqb0. by apply IHr.
  - cbn [tpos tsearch]. cbv zeta. rewrite Heqb, Heqb0, Heqb1. by apply IHc.
Qed.

(** [t'] knows the paths of [t], and besides those only prefixes of [p]. *)
Definition extends (t t' : tree) (p : list (list Z)) : Prop :=
  (forall q, is_Some (tlookup t q) -> tlookup t' q = tlookup t q) /\
  (forall q, ~ q `prefix_of` p -> tlookup t' q = tlookup t q).

Lemma extends_refl t p : extends t t p.
Proof. by split. Qed.

Lemma extends_trans t1 t2 t3 p : extends t1 t2 p -> extends t2 t3 p -> extends t1 t3 p.
Proof.
  intros [H1 H2] [H3 H4]. split; intros q Hq; [|by rewrite H4, H2].
  rewrite H3; [by apply H1|]. by rewrite H1.
Qed.

Lemma inode_namelen_seg name : inode_namelen name = Z.of_nat (length (seg name)).
Proof. induction name as [|c name IH]; [done|]. simpl. destruct (c =? SLASH); [done|]. simpl. lia. Qed.

Section Reserve.
Context `{NodeAlloc}.

(** What is known once the nodes for a path have been asked for. *)
Definition reserved (st : fs) (t : tree) (p : list (list Z)) (ret node : Z) (st' : fs) : Prop :=
  exists t', fs_tree st' t' /\ g_inode_sem st' = g_inode_sem st /\
    grows (nodes st) (nodes st') /\ extends t t' p /\
    (ret = OK /\ node <> 0 /\ nodes st !! node = None /\ tlookup t' p = Some (node, []) \/
     ret = - ENOMEM /\ node = 0 /\ tlookup t' p = None).

Lemma not_found_lookup t name left above :
  cstring name -> name <> [] -> deref name <> SLASH -> sorted t ->
  fst (tsearch t name left above) = - ENOENT <-> tlookup t (segs name) = None.
Proof.
  intros Hcs Hne Hsl Hso. pose proof (tsearch_lookup t name left above Hcs Hne Hsl Hso) as HS.
  destruct (tlookup t (segs name)) as [[a rest]|]; destruct HS as (? & ? & ? & HS).
  - destruct HS as [-> _]. done.
  - by rewrite HS.
Qed.

Lemma extends_ins t t' pre rest new :
  tlookup t pre = None ->
  (forall q, tlookup t' q = if decide (q = pre) then Some (new, []) else tlookup t q) ->
  extends t t' (pre ++ rest).
Proof.
  intros Hno Hq. split; intros q Hx; rewrite Hq; case_decide; subst; try done.
  - by rewrite Hno in Hx; destruct Hx.
  - exfalso. apply Hx. by apply prefix_app_r.
Qed.

Lemma reserve_loop_spec fuel st t name s n' l' u' :
  fs_tree st t -> tpos t name 0 0 = (s, n', l', u') ->
  cstring name -> name <> [] -> deref name <> SLASH -> fst (tsearch t name 0 0) = - ENOENT ->
  (length n' < fuel)%nat ->
  exists ret node st', reserve_loop fuel st n' l' u' = Ok (ret, node, st') /\
    reserved st t (segs name) ret node st'.
Proof.
  revert st t s n' l' u'. induction fuel as [|fuel IH]; intros st t s n' l' u' Hft E Hcs Hne Hsl Hnf Hlen; [lia|].
  destruct (tpos_name _ _ _ _ _ _ _ _ E Hcs Hne Hsl) as (Hcs' & Hne' & Hsl' & _).
  pose proof (ft_sorted _ _ Hft) as Hso. pose proof (nextname_shorter n' Hne' Hsl') as Hsh.
  cbn [reserve_loop]. cbv zeta. unfold inode_alloc.
  set (new := kmm_zalloc (nodes st) (FSNODE_SIZE (inode_namelen n'))).
  destruct (new =? 0) eqn:Ez; cbn [negb].
  { exists (- ENOMEM), 0, st. split; [by destruct (negb _)|]. exists t.
    split_and!; try done; [apply grows_refl|]. right. split_and!; try done. by eapply not_found_lookup. }
  b2p. assert (nodes st !! new = None) as Hfresh by (destruct (kmm_zalloc_fresh (nodes st) (FSNODE_SIZE (inode_namelen n'))); done).
  destruct (insert_spec _ _ _ _ _ _ _ _ Hft E Ez Hfresh Hcs Hne Hsl Hnf) as (st1 & -> & Hft1 & Hsem1 & Hg1 & Hnew1).
  destruct (tlookup_tins _ _ _ _ new _ _ _ _ E Hcs Hne Hsl Hso Hnf) as (pre & Hpre & Hse & Hno & Hq).
  pose proof (extends_ins _ _ _ (segs (inode_nextname n')) _ Hno Hq) as Hext. rewrite <- Hse in Hext.
  rewrite (proj2 (Z.eqb_neq _ _) Ez). cbn [negb mbind res_bind].
  destruct (deref (inode_nextname n') =? 0) eqn:Ed; cbn [negb].
  - exists OK, new, st1. split; [done|]. eexists. split_and!; try done. left. split_and!; try done.
    apply deref_end in Ed; [|by apply nextname_cstring]. rewrite Ed, app_nil_r in Hse.
    by rewrite Hse, Hq, decide_True.
  - b2p. destruct (tpos_tins _ _ _ _ new _ _ _ _ E Hnf Ed) as [E1 Hnf1].
    destruct (IH _ _ _ _ _ _ Hft1 E1 Hcs Hne Hsl Hnf1) as (ret & node & st' & Hrun & t' & H1 & H2 & H3 & H4 & H5); [lia|].
    exists ret, node, st'. split; [done|]. exists t'. split_and!; [done|congruence| | |].
    + by eapply grows_trans.
    + by eapply extends_trans.
    + destruct H5 as [(? & ? & Hnn & ?)|?]; [left|by right]. split_and!; try done.
      specialize (Hg1 node). rewrite Hnn in Hg1. destruct (nodes st !! node); done.
Qed.

Lemma inode_reserve_spec st t p :
  fs_tree st t -> deref p = SLASH -> cstring p -> skip_slashes p <> [] ->
  exists ret node st', inode_reserve st p = Ok (ret, node, st') /\
    match tlookup t (segs (skip_slashes p)) with
    | Some _ => ret = - EEXIST /\ node = 0 /\ st' = st
    | None => reserved st t (segs (skip_slashes p)) ret node st'
    end.
Proof.
  intros Hft Hd Hcs Hne. unfold inode_reserve. rewrite Hd. cbn [orb negb Z.eqb SLASH].
  rewrite (inode_search_tree _ _ _ Hft Hd Hcs Hne). cbn [mbind res_bind].
  pose proof (skip_slashes_cstring _ Hcs) as Hcs'. pose proof (skip_slashes_head p) as Hsl'.
  destruct (tpos t (skip_slashes p) 0 0) as [[[s n'] l'] u'] eqn:E.
  pose proof (tsearch_lookup t _ 0 0 Hcs' Hne Hsl' (ft_sorted _ _ Hft)) as HS.
  destruct (tsearch_tpos _ _ _ _ _ _ _ _ E) as [[Ht _]|(a & nm & mt & c & r & _ & _ & _ & Ht)];
    rewrite Ht; rewrite Ht in HS; destruct (tlookup t _) as [[b rest]|] eqn:El.
  - by destruct HS as (? & ? & ? & [=] & ?).
  - replace (0 <=? - ENOENT) with false by done. cbn [path peer parent].
    eapply reserve_loop_spec; try done; [by rewrite Ht|lia].
  - by exists (- EEXIST), 0, st.
  - by destruct HS as (? & ? & ? & [=]).
Qed.
End Reserve.
