(* ===== verification/InodeRemove.v ===== *)
(** * Removal from the inode tree, and the lock around it *)

From S2P Require Import Prelude Inode InodeTree InodeOps.
Local Open Scope Z_scope.

(** ** Unlinking *)

(** The node [a] at the end of the search is taken out with its children. *)
Record unlinked (st : fs) (t : tree) (a : Z) (pre : list (list Z)) (st' : fs) : Prop := {
  ul_tree : exists t' nm mt c, fs_tree st' t' /\ rep (nodes st') (Node a nm mt c Leaf) /\
    addrs t ≡ₚ addrs t' ++ addrs (Node a nm mt c Leaf) /\
    forall q, tlookup t' q = if decide (pre `prefix_of` q) then None else tlookup t q;
  ul_payload : forall x, payload <$> nodes st' !! x = payload <$> nodes st !! x;
  ul_sem : g_inode_sem st' = g_inode_sem st
}.

(** A node on neither end of the link can be changed before or after it. *)
Lemma relink_fs_put st l u v a n :
  (l <> 0 -> a <> l) -> (l = 0 -> u <> 0 -> a <> u) ->
  put_node (relink_fs st l u v) a n = relink_fs (set_nodes st (<[a := n]> (nodes st))) l u v.
Proof.
  intros Hl Hu. unfold relink_fs, put_node. destruct (l =? 0) eqn:El, (u =? 0) eqn:Eu; b2p; cbn [andb]; try done;
    unfold set_nodes, relink; cbn [nodes g_root_inode g_inode_sem]; f_equal;
    rewrite ?(proj2 (Z.eqb_eq _ _) El), ?(proj2 (Z.eqb_neq _ _) El), ?(proj2 (Z.eqb_neq _ _) Eu); cbn [negb];
    apply map_eq; intros x; rewrite ?lookup_insert, ?lookup_alter, ?lookup_insert; repeat case_decide; naive_solver.
Qed.

(** The three cases of the link in [inode_unlink]. *)
Lemma unlink_relink st t name s n' l' u' v :
  fs_tree st t -> tpos t name 0 0 = (s, n', l', u') ->
  (if negb (l' =? 0) then upd_node st l' (fun l => set_i_peer l v)
   else if negb (u' =? 0) then upd_node st u' (fun u => set_i_child u v)
   else Ok (set_root st v)) = Ok (relink_fs st l' u' v).
Proof.
  intros [Hroot Hrep Hnd Hso] E. unfold relink_fs, relink.
  destruct (tpos_link _ _ _ _ _ _ _ _ _ E Hrep Hnd)
    as [(-> & -> & _)|[(Hl & Hin & _ & n & Hn & Hp)|(-> & Hu & Hin & _ & n & Hn & Hp)]]; [done|..].
  - rewrite (proj2 (Z.eqb_neq l' 0) Hl). cbn. by rewrite (upd_node_Ok _ _ n), (alter_insert _ _ n).
  - rewrite (proj2 (Z.eqb_neq u' 0) Hu). cbn. by rewrite (upd_node_Ok _ _ n), (alter_insert _ _ n).
Qed.

(** Neither end of the link is in the subtree it leads to. *)
Lemma link_outside st t name s n' l' u' x :
  fs_tree st t -> tpos t name 0 0 = (s, n', l', u') -> x ∈ addrs s ->
  (l' <> 0 -> x <> l') /\ (l' = 0 -> u' <> 0 -> x <> u').
Proof.
  intros [Hroot Hrep Hnd Hso] E Hx.
  destruct (tpos_link _ _ _ _ _ _ _ _ _ E Hrep Hnd) as [(-> & -> & _)|[(Hl & _ & Hn & _)|(-> & Hu & _ & Hn & _)]];
    split; intros; try done; by intros ->.
Qed.

Lemma relink_fs_frame st l u v x :
  (l <> 0 -> x <> l) -> (l = 0 -> u <> 0 -> x <> u) -> nodes (relink_fs st l u v) !! x = nodes st !! x.
Proof. intros Hl Hu. unfold relink_fs. destruct (_ && _); [done|]. by apply relink_frame. Qed.

(** The tree after the node [a] has lost its place. *)
Lemma unlink_graft st t name a nm mt c r n n' l' u' :
  fs_tree st t -> tpos t name 0 0 = (Node a nm mt c r, n', l', u') -> nodes st !! a = Some n ->
  stands_for n nm mt (addr c) (addr r) ->
  let st' := relink_fs (set_nodes st (<[a := set_i_peer n 0]> (nodes st))) l' u' (addr r) in
  fs_tree st' (tgraft tdel t name) /\ rep (nodes st') (Node a nm mt c Leaf) /\
  addrs t ≡ₚ addrs (tgraft tdel t name) ++ addrs (Node a nm mt c Leaf).
Proof.
  intros Hft E Hn (Hnm & Hmt & Hnc & Hnr) st'.
  pose proof (fun x => link_outside _ _ _ _ _ _ _ x Hft E) as Hout.
  pose proof (tpos_rep _ _ _ _ _ _ _ _ _ E (ft_rep _ _ Hft)) as (Ha & _ & Hrc & Hrr).
  destruct (graft_addrs _ _ _ _ _ _ _ _ E) as (ctx & Hp1 & Hp2). specialize (Hp2 tdel).
  pose proof (ft_nodup _ _ Hft) as Hnd. rewrite Hp1 in Hnd. apply NoDup_app in Hnd as (_ & Hdis & Hnds).
  cbn [addrs] in Hnds. pose proof Hnds as (Hac & Har & Hndc & Hndr & Hcr)%nodup_node.
  split_and!.
  - apply (graft_fs tdel st t (<[a := set_i_peer n 0]> (nodes st)) name (Node a nm mt c r) n' l' u');
      try done; cbn [tdel].
    + intros x Hx Hxs. apply lookup_insert_ne. cbn in Hxs. set_solver.
    + apply (rep_ext (nodes st)); [|done]. intros x Hx. apply lookup_insert_ne. by intros ->.
    + intros x Hx. left. cbn. set_solver.
    + apply tdel_sorted, Hft.
  - cbn. split; [done|]. split; [|split; [|done]].
    + exists (set_i_peer n 0). split; [|done]. subst st'.
      rewrite relink_fs_frame by (apply Hout; cbn; set_solver). apply lookup_insert_eq.
    + apply (rep_ext (nodes st)); [|done]. intros x Hx. subst st'.
      rewrite relink_fs_frame by (apply Hout; cbn; set_solver). apply lookup_insert_ne. by intros ->.
  - rewrite Hp1, Hp2. cbn. rewrite app_nil_r. solve_Permutation.
Qed.

Lemma inode_unlink_spec st t p :
  fs_tree st t -> deref p = SLASH -> cstring p -> skip_slashes p <> [] ->
  match tlookup t (segs (skip_slashes p)) with
  | None => inode_unlink st p = Ok (0, st)
  | Some (a, rest) => a <> 0 /\ exists st' pre, inode_unlink st p = Ok (a, st') /\
      segs (skip_slashes p) = pre ++ rest /\ unlinked st t a pre st'
  end.
Proof.
  intros Hft Hd Hcs Hne. unfold inode_unlink. rewrite Hd. cbn [negb Z.eqb SLASH].
  rewrite (inode_search_tree _ _ _ Hft Hd Hcs Hne). cbn [mbind res_bind].
  pose proof (skip_slashes_cstring _ Hcs) as Hcs'. pose proof (skip_slashes_head p) as Hsl'.
  destruct (tpos t (skip_slashes p) 0 0) as [[[s n'] l'] u'] eqn:E. pose proof (ft_sorted _ _ Hft) as Hso.
  pose proof (tsearch_lookup t _ 0 0 Hcs' Hne Hsl' Hso) as HS.
  pose proof (tlookup_tdel _ _ _ _ _ _ _ _ E Hcs' Hne Hsl' Hso) as Hdel.
  destruct (tsearch_tpos _ _ _ _ _ _ _ _ E) as [[Ht _]|(a & nm & mt & c & r & -> & _ & _ & Ht)];
    rewrite Ht; rewrite Ht in HS, Hdel; destruct (tlookup t (segs _)) as [[b rest]|] eqn:El.
  - by destruct HS as (? & ? & ? & [=] & ?).
  - done.
  - destruct HS as (? & ? & ? & [= <- <- <- <-] & Hrest). cbn [OK Z.leb Z.compare node peer parent].
    destruct Hdel as (pre & Hpre & Hse & Hq); [done|].
    pose proof (tpos_rep _ _ _ _ _ _ _ _ _ E (ft_rep _ _ Hft)) as Hrs. cbn in Hrs.
    destruct Hrs as (Ha & (n & Hn & Hnm & Hmt & Hnc & Hnr) & Hrc & Hrr). split; [done|].
    rewrite (get_node_Ok _ _ _ Ha Hn). cbn [mbind res_bind]. rewrite (unlink_relink _ _ _ _ _ _ _ _ Hft E). cbn [mbind res_bind].
    pose proof (link_outside _ _ _ _ _ _ _ a Hft E ltac:(cbn; set_solver)) as [Ho1 Ho2].
    rewrite (upd_node_Ok _ _ n) by (done || by rewrite relink_fs_frame). cbn [mbind res_bind].
    rewrite relink_fs_put by done. eexists _, pre. split; [done|]. split; [congruence|].
    assert (stands_for n nm mt (addr c) (addr r)) as Hsf by done.
    destruct (unlink_graft _ _ _ _ _ _ _ _ _ _ _ _ Hft E Hn Hsf) as (G1 & G2 & G3). rewrite Hnr. split.
    + eexists _, nm, mt, c. split; [apply G1|]. split; [apply G2|]. by split.
    + intros x. rewrite relink_fs_nodes. cbn [nodes set_nodes].
      destruct (decide (x = a)) as [->|]; [by rewrite lookup_insert_eq, Hn|by rewrite lookup_insert_ne].
    + by rewrite relink_fs_sem.
  - by destruct HS as (? & ? & ? & [=]).
Qed.

(** ** Freeing a subtree *)

Definition freed (m m' : gmap Z inode) (l : list Z) : Prop :=
  forall x, m' !! x = if decide (x ∈ l) then None else m !! x.

Lemma inode_free_spec fuel st t :
  rep (nodes st) t -> NoDup (addrs t) -> (length (addrs t) < fuel)%nat ->
  exists m', inode_free fuel st (addr t) = Ok (set_nodes st m') /\ freed (nodes st) m' (addrs t).
Proof.
  revert fuel st. induction t as [|a nm mt c IHc r IHr]; intros fuel st Hrep Hnd Hf;
    (destruct fuel as [|fuel]; [lia|]); cbn [inode_free addr].
  { exists (nodes st). split; [by destruct st|]. intros x. by rewrite decide_False by (apply not_elem_of_nil). }
  cbn in Hrep, Hnd, Hf. rewrite length_app in Hf.
  destruct Hrep as (Ha & (n & Hn & _ & _ & Hnc & Hnr) & Hc & Hr). rewrite (proj2 (Z.eqb_neq _ _) Ha).
  apply nodup_node in Hnd as (Hac & Har & Hndc & Hndr & Hcr).
  rewrite (get_node_Ok _ _ _ Ha Hn), bind_Ok, Hnr.
  destruct (IHr fuel st Hr Hndr) as (m1 & -> & H1); [lia|]. rewrite bind_Ok.
  assert (m1 !! a = Some n) as Hn1 by (by rewrite H1, decide_False).
  rewrite (get_node_Ok _ _ n Ha) by done. rewrite bind_Ok, Hnc.
  destruct (IHc fuel (set_nodes st m1)) as (m2 & -> & H2); [|done|lia|].
  { apply (rep_ext (nodes st)); [|done]. intros x Hx. cbn. rewrite H1, decide_False; [done|]. eauto. }
  rewrite bind_Ok. eexists. split; [done|]. intros x. cbn [nodes set_nodes] in *.
  rewrite lookup_delete, H2, H1. cbn [addrs]. repeat case_decide; set_solver.
Qed.

(** ** The lock

    A task may take the lock when nobody holds it, or again when it holds it
    already. *)

Definition sem_free (me : Z) (s : inode_sem_s) : Prop :=
  me <> NO_HOLDER /\
  (semcount s = 1 /\ holder s = NO_HOLDER /\ count s = 0 \/ holder s = me /\ 1 <= count s < 2 ^ 15 - 1).

Lemma semtake_spec me st :
  sem_free me (g_inode_sem st) ->
  exists s, inode_semtake me st = Ok (set_inode_sem st s) /\
    (forall st', g_inode_sem st' = s -> inode_semgive st' = set_inode_sem st' (g_inode_sem st)).
Proof.
  intros (Hme & Hs). unfold inode_semtake, inode_semgive. destruct (g_inode_sem st) as [sc h c]. cbn in *.
  destruct Hs as [(-> & -> & ->)|(-> & Hc)].
  - rewrite (proj2 (Z.eqb_neq _ _) Hme). cbn. eexists. split; [done|]. intros st' ->. done.
  - rewrite Z.eqb_refl. eexists. split; [done|]. intros st' ->. cbn.
    assert (s16 (c + 1) = c + 1) as -> by (unfold s16; modlia).
    replace (1 <? c + 1) with true by (symmetry; apply Z.ltb_lt; lia). unfold set_inode_sem. do 2 f_equal. lia.
Qed.

Lemma fs_tree_sem st t s : fs_tree st t -> fs_tree (set_inode_sem st s) t.
Proof. by intros [? ? ? ?]. Qed.

(** A change inside a node that keeps its name, its links and its being a mount
    point or not keeps the tree. *)
Definition same_shape (n n' : inode) : Prop :=
  i_name n' = i_name n /\ INODE_IS_MOUNTPT n' = INODE_IS_MOUNTPT n /\
  i_child n' = i_child n /\ i_peer n' = i_peer n.

Lemma rep_put m t a n n' : m !! a = Some n -> same_shape n n' -> rep m t -> rep (<[a := n']> m) t.
Proof.
  intros Hn (H1 & H2 & H3 & H4). induction t as [|b nm mt c IHc r IHr]; [done|].
  cbn. intros (Hb & (k & Hk & E1 & E2 & E3 & E4) & Hc & Hr). split; [done|]. split; [|by auto].
  destruct (decide (b = a)) as [->|]; [|exists k; by rewrite lookup_insert_ne].
  exists n'. rewrite lookup_insert_eq. split; [done|]. simplify_eq. unfold stands_for.
  split_and!; congruence.
Qed.

Lemma fs_tree_put st t a n n' :
  nodes st !! a = Some n -> same_shape n n' -> fs_tree st t -> fs_tree (put_node st a n') t.
Proof. intros Hn Hs [? ? ? ?]. split; try done. by eapply rep_put. Qed.

(** ** Removing a path *)

(** A removed node that is in use is only marked, and kept with its children;
    otherwise it is freed, and all of its children with it. *)
Lemma inode_remove_spec st t p :
  fs_tree st t -> deref p = SLASH -> cstring p -> skip_slashes p <> [] ->
  match tlookup t (segs (skip_slashes p)) with
  | None => inode_remove st p = Ok (- ENOENT, st)
  | Some (a, rest) => exists ret st' st1 pre t' l,
      inode_remove st p = Ok (ret, st') /\ segs (skip_slashes p) = pre ++ rest /\
      fs_tree st' t' /\ g_inode_sem st' = g_inode_sem st /\ addrs t ≡ₚ addrs t' ++ a :: l /\
      (forall q, tlookup t' q = if decide (pre `prefix_of` q) then None else tlookup t q) /\
      (forall x, payload <$> st1 !! x = payload <$> nodes st !! x) /\
      exists n, nodes st !! a = Some n /\
      if i_crefs n =? 0 then ret = OK /\ freed st1 (nodes st') (a :: l)
      else ret = - EBUSY /\ exists n1, st1 !! a = Some n1 /\
        nodes st' = <[a := set_i_flags n1 (Z.lor (i_flags n1) FSNODEFLAG_DELETED)]> st1
  end.
Proof.
  intros Hft Hd Hcs Hne. pose proof (inode_unlink_spec st t p Hft Hd Hcs Hne) as HU. unfold inode_remove.
  destruct (tlookup t _) as [[a rest]|]; [|by rewrite HU].
  destruct HU as (Ha & st1 & pre & -> & Hse & [(t' & nm & mt & c & Ht' & Hrep & Hperm & Hq) Hpay Hsem]).
  rewrite bind_Ok. cbv iota beta. rewrite (proj2 (Z.eqb_neq _ _) Ha). cbn [negb].
  pose proof Hrep as (_ & (n1 & Hn1 & _) & _). rewrite (get_node_Ok _ _ _ Ha Hn1), bind_Ok.
  pose proof (Hpay a) as Hpa. rewrite Hn1 in Hpa. destruct (nodes st !! a) as [n|] eqn:Hn; [|done].
  injection Hpa as Hc Hfl Ho Hpv Hnm'. cbn [addrs] in Hperm. rewrite app_nil_r in Hperm.
  pose proof (ft_nodup _ _ Hft) as Hnd. rewrite Hperm in Hnd. apply NoDup_app in Hnd as (_ & Hdis & Hnds).
  rewrite Hc. destruct (i_crefs n =? 0) eqn:E; cbn [negb].
  - destruct (inode_free_spec (search_fuel st1) st1 (Node a nm mt c Leaf) Hrep) as (m' & Hfree & Hfr).
    { cbn. by rewrite app_nil_r. }
    { unfold search_fuel. apply (proj2 (Nat.lt_succ_r _ _)), nodup_size; [cbn; by rewrite app_nil_r|].
      intros x Hx. by eapply rep_mapped. }
    cbn [addr] in Hfree. rewrite Hfree, bind_Ok. cbn [addrs] in Hfr. rewrite app_nil_r in Hfr.
    exists OK, (set_nodes st1 m'), (nodes st1), pre, t', (addrs c). split_and!; try done.
    + destruct Ht' as [? ? ? ?]. split; try done. apply (rep_ext (nodes st1)); [|done]. cbn. intros x Hx.
      rewrite Hfr, decide_False; [done|]. by apply Hdis.
    + exists n. by rewrite E.
  - exists (- EBUSY), (put_node st1 a (set_i_flags n1 (Z.lor (i_flags n1) FSNODEFLAG_DELETED))), (nodes st1), pre, t', (addrs c).
    split_and!; try done.
    + destruct Ht' as [? ? ? ?]. split; try done. apply (rep_ext (nodes st1)); [|done]. cbn. intros x Hx.
      apply lookup_insert_ne. intros <-. by apply (Hdis a Hx), elem_of_cons; left.
    + exists n. rewrite E. split; [done|]. split; [done|]. by exists n1.
Qed.
