(* ===== verification/InodeProps.v ===== *)
(** * Properties of the pseudo file system's tree *)

From stdpp Require Import strings.
From S2P Require Import Prelude Inode InodeTree InodeOps InodeRemove.
Local Open Scope Z_scope.

(** ** An allocator, for the examples

    Sixty-four slots of 64 bytes, given out lowest first. *)

Definition slots : list Z := (fun i => 4096 + 64 * i) <$> seqZ 0 64.
Definition slot_alloc (m : gmap Z inode) (_ : Z) : Z :=
  hd 0 (filter (fun a => m !! a = None) slots).

Lemma slot_alloc_fresh m n : slot_alloc m n = 0 \/ m !! slot_alloc m n = None.
Proof.
  unfold slot_alloc. destruct (filter _ slots) as [|a l] eqn:E; [by left|right].
  assert (a ∈ filter (fun a => m !! a = None) slots) as H by (rewrite E; left).
  by apply list_elem_of_filter in H as [H _].
Qed.

Definition slot_allocator : NodeAlloc := {| kmm_zalloc := slot_alloc; kmm_zalloc_fresh := slot_alloc_fresh |}.

Definition fs_empty : fs := inode_initialize (mk_fs 0 ∅ (mk_inode_sem 0 0 0)).

Lemma fs_empty_tree : fs_tree fs_empty Leaf.
Proof. split; try done. constructor. Qed.

Lemma fs_empty_free : sem_free 7 (g_inode_sem fs_empty).
Proof. split; [done|]. by left. Qed.

Lemma dev_pwm_cstring : cstring (cstr "/dev/pwm0").
Proof. vm_compute. repeat constructor. Qed.

(** ** Search *)

(** C28: [inode_search] on a well-formed tree always returns.  It reports the
    node that the segments of the path lead to, with the segments that a mount
    point on the way leaves over, and [-ENOENT] exactly when there is no such
    node. *)
Theorem inode_search_correct st t p :
  fs_tree st t -> deref p = SLASH -> cstring p -> skip_slashes p <> [] ->
  exists ret desc, inode_search st (SETUP_SEARCH p) = Ok (ret, desc) /\
    match tlookup t (segs (skip_slashes p)) with
    | Some (a, rest) => ret = OK /\ node desc = a /\ segs <$> relpath desc = Some rest
    | None => ret = - ENOENT /\ node desc = 0
    end.
Proof.
  intros Hft Hd Hcs Hne. rewrite (inode_search_tree _ _ _ Hft Hd Hcs Hne).
  pose proof (tsearch_lookup t _ 0 0 (skip_slashes_cstring _ Hcs) Hne (skip_slashes_head p) (ft_sorted _ _ Hft)) as HS.
  destruct (tlookup t _) as [[a rest]|].
  - destruct HS as (n' & l' & u' & -> & <-). by eexists _, _.
  - destruct HS as (n' & l' & u' & ->). by eexists _, _.
Qed.

(** ** Registering and unregistering a driver *)

(** The node as [register_driver] leaves it. *)
Definition populated (n : inode) (fops priv : Z) : inode :=
  set_i_private (set_i_ops (INODE_SET_DRIVER n) fops) priv.

Lemma driver_populate {B} st a n fops priv (k : fs -> res B) :
  a <> 0 -> nodes st !! a = Some n ->
  (st ← upd_node st a INODE_SET_DRIVER;
   st ← upd_node st a (fun n => set_i_ops n fops);
   st ← upd_node st a (fun n => set_i_private n priv); k st) = k (put_node st a (populated n fops priv)).
Proof.
  intros Ha Hn. rewrite (upd_node_Ok _ _ n), bind_Ok by done.
  rewrite (upd_node_Ok _ _ (INODE_SET_DRIVER n)), bind_Ok by (done || apply lookup_insert_eq).
  rewrite (upd_node_Ok _ _ (set_i_ops (INODE_SET_DRIVER n) fops)), bind_Ok by (done || apply lookup_insert_eq).
  unfold put_node, set_nodes. cbn [nodes g_root_inode g_inode_sem]. by rewrite !insert_insert_eq.
Qed.

Lemma populated_shape n fops priv : i_flags n = 0 -> same_shape n (populated n fops priv).
Proof. intros Hf. split_and!; try done. unfold INODE_IS_MOUNTPT, INODE_IS_TYPE. cbn. by rewrite Hf. Qed.

Lemma grows_keeps m m' x n : grows m m' -> m !! x = Some n -> exists n', m' !! x = Some n' /\ payload n' = payload n.
Proof. intros Hg Hx. specialize (Hg x). rewrite Hx in Hg. destruct (m' !! x); [eauto|done]. Qed.

(** C26: [register_driver] on a well-formed tree always returns and gives the
    lock back.  A path that exists is refused and nothing changes.  A new path
    leads to a driver node with the given operations and private data, or, when
    memory runs out, is not there.  The paths and nodes there were stay as they
    were, and no path appears but the prefixes of the new one. *)
Theorem register_driver_correct `{NodeAlloc} me st t p fops priv :
  fs_tree st t -> sem_free me (g_inode_sem st) ->
  deref p = SLASH -> cstring p -> skip_slashes p <> [] ->
  exists ret st' t', register_driver me st p fops priv = Ok (ret, st') /\
    g_inode_sem st' = g_inode_sem st /\ fs_tree st' t' /\
    extends t t' (segs (skip_slashes p)) /\
    (forall x n, nodes st !! x = Some n -> exists n', nodes st' !! x = Some n' /\ payload n' = payload n) /\
    match tlookup t (segs (skip_slashes p)) with
    | Some _ => ret = - EEXIST /\ st' = st
    | None =>
        ret = OK /\ (exists a n, tlookup t' (segs (skip_slashes p)) = Some (a, []) /\ nodes st !! a = None /\
          nodes st' !! a = Some n /\ INODE_IS_DRIVER n = true /\ i_ops n = fops /\ i_private n = priv /\ i_crefs n = 0) \/
        ret = - ENOMEM /\ tlookup t' (segs (skip_slashes p)) = None
    end.
Proof.
  intros Hft Hsem Hd Hcs Hne. unfold register_driver.
  destruct (semtake_spec _ _ Hsem) as (s & -> & Hgive). rewrite bind_Ok.
  destruct (inode_reserve_spec (set_inode_sem st s) t p (fs_tree_sem _ _ _ Hft) Hd Hcs Hne)
    as (ret & node & st1 & -> & HR). rewrite bind_Ok. cbv iota beta.
  destruct (tlookup t _) as [x|] eqn:El.
  { destruct HR as (-> & -> & ->). replace (0 <=? - EEXIST) with false by done.
    exists (- EEXIST), st, t. rewrite Hgive by done. split; [by destruct st|].
    split_and!; try done. intros x' n Hx. by exists n. }
  destruct HR as (t' & Hft' & Hs1 & Hg & Hext & [(-> & Hnz & Hfresh & Hlk)|(-> & -> & Hlk)]).
  - pose proof (Hg node) as Hb. cbn in Hfresh, Hb. rewrite Hfresh in Hb.
    destruct (rep_mapped _ _ _ (ft_rep _ _ Hft') (tlookup_in _ _ _ _ Hlk)) as [_ [n Hn]].
    rewrite Hn in Hb. destruct Hb as (Hb1 & Hb2 & Hb3).
    cbn [Z.leb OK Z.compare]. rewrite (driver_populate _ _ n) by done.
    eexists _, _, t'. split; [rewrite Hgive by done; reflexivity|]. split; [done|].
    split; [eapply fs_tree_sem, fs_tree_put; [exact Hn|by apply populated_shape|done]|].
    split; [done|]. split.
    + intros x k Hx. destruct (grows_keeps _ _ _ _ Hg Hx) as (k' & Hk' & Hp).
      exists k'. split; [|done]. cbn. rewrite lookup_insert_ne; [done|]. intros <-. cbn in Hx. congruence.
    + left. split; [done|]. eexists node, _. cbn. rewrite lookup_insert_eq. split_and!; try done.
      unfold INODE_IS_DRIVER, INODE_IS_TYPE. cbn. by rewrite Hb2.
  - replace (0 <=? - ENOMEM) with false by done. eexists _, _, t'.
    split; [rewrite Hgive by done; reflexivity|]. split; [done|]. split; [by apply fs_tree_sem|].
    split; [done|]. split; [|by right]. intros x k Hx. exact (grows_keeps _ _ _ _ Hg Hx).
Qed.

Lemma register_driver_witness : exists ret st' t',
  @register_driver slot_allocator 7 fs_empty (cstr "/dev/pwm0") 512 768 = Ok (ret, st') /\
  fs_tree st' t' /\ extends Leaf t' [cstr "dev"; cstr "pwm0"].
Proof.
  destruct (@register_driver_correct slot_allocator 7 fs_empty Leaf (cstr "/dev/pwm0") 512 768 fs_empty_tree
    fs_empty_free eq_refl dev_pwm_cstring ltac:(discriminate)) as (ret & st' & t' & H1 & _ & H3 & H4 & _).
  exists ret, st', t'. split; [exact H1|]. split; [exact H3|exact H4].
Defined.


(** A tree with one driver, [/dev/pwm0], opened once. *)
Definition demo_fs : fs :=
  mk_fs 4096 {[ 4096 := mk_inode 0 4160 0 0 0 0 (cstr "dev"); 4160 := mk_inode 0 0 1 0 512 768 (cstr "pwm0") ]}
    (mk_inode_sem 1 NO_HOLDER 0).
Definition demo_tree : tree := Node 4096 (cstr "dev") false (Node 4160 (cstr "pwm0") false Leaf Leaf) Leaf.

Lemma demo_fs_tree : fs_tree demo_fs demo_tree.
Proof.
  split; [done| | |].
  - cbn. split; [done|]. split; [by eexists|]. split; [|done]. split; [done|]. split; [by eexists|done].
  - apply (bool_decide_unpack _). by vm_compute.
  - cbn. split_and!; try done; apply (bool_decide_unpack _); by vm_compute.
Qed.

Lemma demo_fs_free : sem_free 7 (g_inode_sem demo_fs).
Proof. split; [done|]. by left. Qed.

Lemma inode_search_witness : exists ret desc,
  inode_search demo_fs (SETUP_SEARCH (cstr "/dev/pwm0")) = Ok (ret, desc) /\ ret = OK /\ node desc = 4160.
Proof.
  destruct (inode_search_correct demo_fs demo_tree (cstr "/dev/pwm0") demo_fs_tree eq_refl dev_pwm_cstring
    ltac:(discriminate)) as (ret & desc & H1 & H2). exists ret, desc. split; [exact H1|].
  destruct H2 as (H2 & H3 & _). split; [exact H2|exact H3].
Defined.


(** ** What the tree does not guard against *)

Lemma skip_only_slashes k : skip_slashes (replicate k SLASH) = [].
Proof. by induction k. Qed.

(** A path of slashes only, which names the root, is not refused by
    [inode_reserve]: a node without a name is created and made the first node
    of the file system. *)
Theorem inode_reserve_root `{NodeAlloc} st k :
  kmm_zalloc (nodes st) (FSNODE_SIZE 0) <> 0 ->
  exists st', inode_reserve st (replicate (S k) SLASH) = Ok (OK, kmm_zalloc (nodes st) (FSNODE_SIZE 0), st') /\
    g_root_inode st' = kmm_zalloc (nodes st) (FSNODE_SIZE 0) /\
    i_name <$> nodes st' !! g_root_inode st' = Some [].
Proof.
  intros Ha. unfold inode_reserve. cbn [replicate deref]. change (SLASH =? 0) with false.
  unfold inode_search, _inode_search. cbn [path SETUP_SEARCH deref skip_slashes]. change (SLASH =? SLASH) with true.
  cbn [orb negb]. rewrite skip_only_slashes. cbn [deref Z.eqb]. rewrite bind_Ok. cbn [path peer parent].
  replace (0 <=? - ENOSYS) with false by done.
  cbn [SETUP_SEARCH path peer parent reserve_loop]. unfold inode_nextname, inode_alloc.
  cbn [skip_segment skip_slashes inode_namelen inode_namecpy]. change (SLASH =? SLASH) with true.
  cbn [skip_slashes]. change (SLASH =? SLASH) with true. cbv iota.
  rewrite skip_only_slashes, (proj2 (Z.eqb_neq _ _) Ha). cbn [deref Z.eqb negb].
  rewrite (proj2 (Z.eqb_neq _ _) Ha). cbn [negb].
  unfold inode_insert. cbn [Z.eqb negb].
  erewrite upd_node_Ok; [|done|apply lookup_insert_eq]. rewrite !bind_Ok.
  eexists. split; [done|]. cbn. split; [done|]. by rewrite lookup_insert_eq.
Qed.

Lemma inode_reserve_root_witness : exists st',
  @inode_reserve slot_allocator fs_empty (replicate 1 SLASH) = Ok (OK, 4096, st') /\
  g_root_inode st' = 4096 /\ i_name <$> nodes st' !! g_root_inode st' = Some [].
Proof.
  destruct (@inode_reserve_root slot_allocator fs_empty 0) as (st' & H1 & H2 & H3); [vm_compute; discriminate|].
  exists st'. split; [exact H1|]. split; [exact H2|exact H3].
Defined.

(** Unregistering a directory frees the nodes below it, also one that an open
    file refers to: [/dev] is removed while [/dev/pwm0] has one reference, and
    the node of the open driver is gone. *)
Theorem unregister_frees_open_child :
  i_crefs <$> nodes demo_fs !! 4160 = Some 1 /\
  exists st', unregister_driver 7 demo_fs (cstr "/dev") = Ok (OK, st') /\ nodes st' !! 4160 = None.
Proof. split; [done|]. eexists. split; [vm_compute; reflexivity|]. by vm_compute. Qed.
