(* ===== verification/Vfs.v ===== *)
(** * The virtual file system

    Model of the file descriptors of a task and of the calls on them:
    [fs/inode/fs_files.c], [fs_filedetach.c] and [fs_fileclose.c], and
    [fs/vfs/fs_open.c], [fs_close.c], [fs_ioctl.c], [fs_read.c], [fs_write.c],
    [fs_getfilep.c], [fs_dupfd.c] and [fs_dupfd2.c].

    The driver behind a node is a table of methods over a state [W] of all
    devices.  A method gets the open file and the private data of the node; the
    argument of [ioctl], a pointer in the code, is a value of type [A] that the
    driver may change.  Methods do not change the [struct file] they are given.
    There is no network, so descriptors from [CONFIG_NFILE_DESCRIPTORS] on are
    bad, and no cancellation points. *)

From S2P Require Import Prelude Inode.
Local Open Scope Z_scope.

Definition CONFIG_NFILE_DESCRIPTORS : Z := 8.

Definition ENXIO : Z := 6.
Definition EBADF : Z := 9.
Definition EACCES : Z := 13.

Definition O_RDOK : Z := 1.
Definition O_WROK : Z := 2.
Definition O_RDONLY : Z := O_RDOK.

Record file := mk_file {
  f_oflags : Z;
  f_pos : Z;
  f_inode : Z;
  f_priv : Z
}.

(** A descriptor that is not in use. *)
Definition file_zero : file := mk_file 0 0 0 0.

(** ** Drivers *)

Section Types.
Context {W A : Type}.

(** The methods of a driver; [None] is a NULL pointer.  [fo_read] also returns
    the bytes it has put into the buffer. *)
Record file_operations := mk_fops {
  fo_open : option (file -> Z -> W -> res (Z * W));
  fo_close : option (file -> Z -> W -> res (Z * W));
  fo_read : option (file -> Z -> Z -> W -> res (Z * list Z * W));
  fo_write : option (file -> Z -> list Z -> W -> res (Z * W));
  fo_ioctl : option (file -> Z -> Z -> A -> W -> res (Z * A * W))
}.

(** The state of a task's file calls: the tree, the file list and its lock, the
    devices and [errno]. *)
Record vfs := mk_vfs {
  v_fs : fs;
  fl_sem : Z;
  fl_files : list file;
  v_dev : W;
  v_errno : Z
}.
End Types.
Arguments file_operations : clear implicits.
Arguments vfs : clear implicits.

(** [x ← c; k] with the state of a component updated. *)
Definition set_v_fs {W} (v : vfs W) (x : fs) : vfs W := mk_vfs x (fl_sem v) (fl_files v) (v_dev v) (v_errno v).
Definition set_fl_sem {W} (v : vfs W) (x : Z) : vfs W := mk_vfs (v_fs v) x (fl_files v) (v_dev v) (v_errno v).
Definition set_fl_files {W} (v : vfs W) (x : list file) : vfs W := mk_vfs (v_fs v) (fl_sem v) x (v_dev v) (v_errno v).
Definition set_v_dev {W} (v : vfs W) (x : W) : vfs W := mk_vfs (v_fs v) (fl_sem v) (fl_files v) x (v_errno v).
Definition set_errno {W} (v : vfs W) (x : Z) : vfs W := mk_vfs (v_fs v) (fl_sem v) (fl_files v) (v_dev v) x.

Section Vfs.
Context {W A : Type}.

(** The table behind a pointer to [struct file_operations]. *)
Context (fops : Z -> file_operations W A).

(** The character driver put in front of a block driver, and the [open] and
    [dup] methods of a mounted file system. *)
Context (block_proxy : vfs W -> list Z -> Z -> res (Z * vfs W)).
Context (mops_open : Z -> file -> list Z -> Z -> W -> res (Z * W)).
Context (mops_dup : Z -> file -> file -> W -> res (Z * W)).

(** The calling task. *)
Context (me : Z).

(** ** The file list *)

Definition _files_semtake (v : vfs W) : res (vfs W) :=
  if 0 <? fl_sem v then Ok (set_fl_sem v (fl_sem v - 1)) else Err WouldBlock.

Definition _files_semgive (v : vfs W) : vfs W := set_fl_sem v (fl_sem v + 1).

(** [fl_files[fd]]; an index outside the array is a bad access. *)
Definition get_file (v : vfs W) (fd : Z) : res file :=
  if fd <? 0 then Err (BadAddr fd) else array_get (fl_files v) (Z.to_nat fd).

Definition put_file (v : vfs W) (fd : Z) (f : file) : vfs W :=
  set_fl_files v (<[Z.to_nat fd := f]> (fl_files v)).

(** [f_priv] keeps its value. *)
Definition file_clear (f : file) : file := mk_file 0 0 0 (f_priv f).

(** [if (inode->u.i_ops && inode->u.i_ops->close) ret = inode->u.i_ops->close(filep);] *)
Definition call_close (n : inode) (f : file) (w : W) : res (Z * W) :=
  if i_ops n =? 0 then Ok (OK, w)
  else match fo_close (fops (i_ops n)) with
       | None => Ok (OK, w)
       | Some close => close f (i_private n) w
       end.

(** Closes the file in slot [fd]. *)
Definition _files_close (v : vfs W) (fd : Z) : res (Z * vfs W) :=
  f ← get_file v fd;
  if f_inode f =? 0 then Ok (OK, v)
  else
    n ← get_node (v_fs v) (f_inode f);
    '(ret, w) ← call_close n f (v_dev v);
    st ← inode_release me (v_fs v) (f_inode f);
    Ok (ret, put_file (set_v_fs (set_v_dev v w) st) fd (file_clear f)).

Definition files_initlist (v : vfs W) : vfs W := set_fl_sem v 1.

Fixpoint releaselist_loop (n : nat) (v : vfs W) (i : Z) : res (vfs W) :=
  match n with
  | O => Ok v
  | S n => '(_, v) ← _files_close v i; releaselist_loop n v (i + 1)
  end.

(** [nxsem_destroy] resets the count unless tasks are waiting. *)
Definition files_releaselist (v : vfs W) : res (vfs W) :=
  v ← releaselist_loop (Z.to_nat CONFIG_NFILE_DESCRIPTORS) v 0;
  Ok (if 0 <=? fl_sem v then set_fl_sem v 1 else v).

(** [for (i = minfd; i < CONFIG_NFILE_DESCRIPTORS; i++)] *)
Fixpoint allocate_loop (n : nat) (v : vfs W) (inode oflags pos i : Z) : res (Z * vfs W) :=
  match n with
  | O => Ok (ERROR, v)
  | S n =>
      f ← get_file v i;
      if f_inode f =? 0 then Ok (i, put_file v i (mk_file oflags pos inode 0))
      else allocate_loop n v inode oflags pos (i + 1)
  end.

Definition files_allocate (v : vfs W) (inode oflags pos minfd : Z) : res (Z * vfs W) :=
  v ← _files_semtake v;
  '(fd, v) ← allocate_loop (Z.to_nat (CONFIG_NFILE_DESCRIPTORS - minfd)) v inode oflags pos minfd;
  Ok (fd, _files_semgive v).

Definition fd_valid (fd : Z) : bool := (0 <=? fd) && (fd <? CONFIG_NFILE_DESCRIPTORS).

Definition files_close (v : vfs W) (fd : Z) : res (Z * vfs W) :=
  if negb (fd_valid fd) then Ok (- EBADF, v)
  else
    f ← get_file v fd;
    if f_inode f =? 0 then Ok (- EBADF, v)
    else
      v ← _files_semtake v;
      '(ret, v) ← _files_close v fd;
      Ok (ret, _files_semgive v).

Definition files_release (v : vfs W) (fd : Z) : res (vfs W) :=
  if fd_valid fd then
    v ← _files_semtake v;
    f ← get_file v fd;
    Ok (_files_semgive (put_file v fd (file_clear f)))
  else Ok v.

(** The [open] method of the driver, or the [dup] method of the mounted file
    system, for the copy [f2] of [f1]. *)
Definition call_reopen (n : inode) (f1 f2 : file) (w : W) : res (Z * W) :=
  if i_ops n =? 0 then Ok (OK, w)
  else match fo_open (fops (i_ops n)) with
       | None => Ok (OK, w)
       | Some open =>
           if INODE_IS_MOUNTPT n then mops_dup (f_inode f1) f1 f2 w
           else open f2 (i_private n) w
       end.

(** The slots are named by their descriptors. *)
Definition file_dup2 (v : vfs W) (fd1 fd2 : Z) : res (Z * vfs W) :=
  f1 ← get_file v fd1;
  if f_inode f1 =? 0 then Ok (- EBADF, v)
  else
    v ← _files_semtake v;
    '(ret, v) ← _files_close v fd2;
    if ret <? 0 then Ok (ret, _files_semgive v)
    else
      f1 ← get_file v fd1;
      st ← inode_addref me (v_fs v) (f_inode f1);
      let v := set_v_fs v st in
      f2 ← get_file v fd2;
      let f2 := mk_file (f_oflags f1) (f_pos f1) (f_inode f1) (f_priv f2) in
      let v := put_file v fd2 f2 in
      n ← get_node (v_fs v) (f_inode f1);
      '(ret, w) ← call_reopen n f1 f2 (v_dev v);
      let v := set_v_dev v w in
      if ret <? 0 then
        st ← inode_release me (v_fs v) (f_inode f2);
        Ok (ret, _files_semgive (put_file (set_v_fs v st) fd2 (file_clear f2)))
      else Ok (OK, _files_semgive v).

(** ** Opening and closing *)

Definition inode_checkflags (n : inode) (oflags : Z) : Z :=
  let ops := fops (i_ops n) in
  if (negb (Z.land oflags O_RDOK =? 0) && negb (bool_decide (is_Some (fo_read ops)))) ||
     (negb (Z.land oflags O_WROK =? 0) && negb (bool_decide (is_Some (fo_write ops))))
  then - EACCES else OK.

(** The descriptor must be in the range of the list. *)
Definition fs_getfilep (v : vfs W) (fd : Z) : res (Z + file) :=
  if negb (fd_valid fd) then Ok (inl (- EBADF))
  else f ← get_file v fd; Ok (inr f).

(** The [open] method of the driver or of the mounted file system. *)
Definition call_open (n : inode) (f : file) (rel : list Z) (w : W) : res (Z * W) :=
  match fo_open (fops (i_ops n)) with
  | None => Ok (OK, w)
  | Some open =>
      if INODE_IS_MOUNTPT n then mops_open (f_inode f) f rel (f_oflags f) w
      else open f (i_private n) w
  end.

(** The part of [nx_vopen] behind the check of the pointer. *)
Definition vopen_path (v : vfs W) (p : list Z) (oflags : Z) : res (Z * vfs W) :=
  '(ret, desc, st) ← inode_find me (v_fs v) (SETUP_SEARCH p);
  let v := set_v_fs v st in
  if ret <? 0 then Ok (ret, v)
  else
    let inode := node desc in
    n ← get_node (v_fs v) inode;
    let errout_with_inode ret v :=
      st ← inode_release me (v_fs v) inode; Ok (ret, set_v_fs v st) in
    if INODE_IS_BLOCK n || INODE_IS_MTD n then
      st ← inode_release me (v_fs v) inode;
      block_proxy (set_v_fs v st) p oflags
    else if (negb (INODE_IS_DRIVER n) && negb (INODE_IS_MOUNTPT n)) || (i_ops n =? 0) then
      errout_with_inode (- ENXIO) v
    else
      let ret := inode_checkflags n oflags in
      if ret <? 0 then errout_with_inode ret v
      else
        '(fd, v) ← files_allocate v inode oflags 0 0;
        if fd <? 0 then errout_with_inode (- EMFILE) v
        else
          filep ← fs_getfilep v fd;
          match filep with
          | inl ret => errout_with_inode ret v
          | inr f =>
              '(ret, w) ← call_open n f (default [] (relpath desc)) (v_dev v);
              let v := set_v_dev v w in
              if ret <? 0 then
                v ← files_release v fd;
                errout_with_inode ret v
              else Ok (fd, v)
          end.

(** [None] is a NULL path. *)
Definition nx_vopen (v : vfs W) (p : option (list Z)) (oflags : Z) : res (Z * vfs W) :=
  match p with
  | None => Ok (- EINVAL, v)
  | Some p => vopen_path v p oflags
  end.

Definition open (v : vfs W) (p : option (list Z)) (oflags : Z) : res (Z * vfs W) :=
  '(fd, v) ← nx_vopen v p oflags;
  if fd <? 0 then Ok (ERROR, set_errno v (- fd)) else Ok (fd, v).

Definition close (v : vfs W) (fd : Z) : res (Z * vfs W) :=
  if negb (fd_valid fd) then Ok (ERROR, set_errno v EBADF)
  else
    '(ret, v) ← files_close v fd;
    if ret <? 0 then Ok (ERROR, set_errno v (- ret)) else Ok (OK, v).

(** ** Input and output *)

Definition file_ioctl (v : vfs W) (f : file) (req : Z) (arg : A) : res (Z * A * vfs W) :=
  if f_inode f =? 0 then Ok (- EBADF, arg, v)
  else
    n ← get_node (v_fs v) (f_inode f);
    if i_ops n =? 0 then Ok (- ENOTTY, arg, v)
    else match fo_ioctl (fops (i_ops n)) with
         | None => Ok (- ENOTTY, arg, v)
         | Some ioctl =>
             '(ret, arg, w) ← ioctl f (i_private n) req arg (v_dev v);
             Ok (ret, arg, set_v_dev v w)
         end.

Definition ioctl (v : vfs W) (fd req : Z) (arg : A) : res (Z * A * vfs W) :=
  if negb (fd_valid fd) then Ok (ERROR, arg, set_errno v EBADF)
  else
    filep ← fs_getfilep v fd;
    match filep with
    | inl ret => Ok (ERROR, arg, set_errno v (- ret))
    | inr f =>
        '(ret, arg, v) ← file_ioctl v f req arg;
        if ret <? 0 then Ok (ERROR, arg, set_errno v (- ret)) else Ok (ret, arg, v)
    end.

Definition file_read (v : vfs W) (f : file) (nbytes : Z) : res (Z * list Z * vfs W) :=
  if Z.land (f_oflags f) O_RDOK =? 0 then Ok (- EACCES, [], v)
  else if f_inode f =? 0 then Ok (- EBADF, [], v)
  else
    n ← get_node (v_fs v) (f_inode f);
    if i_ops n =? 0 then Ok (- EBADF, [], v)
    else match fo_read (fops (i_ops n)) with
         | None => Ok (- EBADF, [], v)
         | Some read =>
             '(ret, buf, w) ← read f (i_private n) nbytes (v_dev v);
             Ok (ret, buf, set_v_dev v w)
         end.

Definition nx_read (v : vfs W) (fd nbytes : Z) : res (Z * list Z * vfs W) :=
  if negb (fd_valid fd) then Ok (- EBADF, [], v)
  else
    filep ← fs_getfilep v fd;
    match filep with
    | inl ret => Ok (ret, [], v)
    | inr f => file_read v f nbytes
    end.

Definition read (v : vfs W) (fd nbytes : Z) : res (Z * list Z * vfs W) :=
  '(ret, buf, v) ← nx_read v fd nbytes;
  if ret <? 0 then Ok (ERROR, buf, set_errno v (- ret)) else Ok (ret, buf, v).

Definition file_write (v : vfs W) (f : file) (buf : list Z) : res (Z * vfs W) :=
  if Z.land (f_oflags f) O_WROK =? 0 then Ok (- EBADF, v)
  else if f_inode f =? 0 then Ok (- EBADF, v)
  else
    n ← get_node (v_fs v) (f_inode f);
    if i_ops n =? 0 then Ok (- EBADF, v)
    else match fo_write (fops (i_ops n)) with
         | None => Ok (- EBADF, v)
         | Some write =>
             '(ret, w) ← write f (i_private n) buf (v_dev v);
             Ok (ret, set_v_dev v w)
         end.

(** [None] is a NULL buffer. *)
Definition nx_write (v : vfs W) (fd : Z) (buf : option (list Z)) : res (Z * vfs W) :=
  match buf with
  | None => Ok (- EINVAL, v)
  | Some buf =>
      if negb (fd_valid fd) then Ok (- EBADF, v)
      else
        filep ← fs_getfilep v fd;
        match filep with
        | inl ret => Ok (ret, v)
        | inr f => file_write v f buf
        end
  end.

Definition write (v : vfs W) (fd : Z) (buf : option (list Z)) : res (Z * vfs W) :=
  '(ret, v) ← nx_write v fd buf;
  if ret <? 0 then Ok (ERROR, set_errno v (- ret)) else Ok (ret, v).

(** ** Duplicating descriptors *)

Definition file_dup (v : vfs W) (f : file) (minfd : Z) : res (Z * vfs W) :=
  if f_inode f =? 0 then Ok (- EBADF, v)
  else
    st ← inode_addref me (v_fs v) (f_inode f);
    '(fd2, v) ← files_allocate (set_v_fs v st) (f_inode f) (f_oflags f) (f_pos f) minfd;
    if fd2 <? 0 then
      st ← inode_release me (v_fs v) (f_inode f);
      Ok (- EMFILE, set_v_fs v st)
    else Ok (fd2, v).

Definition fs_dupfd (v : vfs W) (fd minfd : Z) : res (Z * vfs W) :=
  filep ← fs_getfilep v fd;
  match filep with
  | inl ret => Ok (ERROR, set_errno v (- ret))
  | inr f =>
      '(ret, v) ← file_dup v f minfd;
      if ret <? 0 then Ok (ERROR, set_errno v (- ret)) else Ok (ret, v)
  end.

Definition dup2 (v : vfs W) (fd1 fd2 : Z) : res (Z * vfs W) :=
  filep1 ← fs_getfilep v fd1;
  match filep1 with
  | inl ret => Ok (ERROR, set_errno v (- ret))
  | inr f1 =>
      filep2 ← fs_getfilep v fd2;
      match filep2 with
      | inl ret => Ok (ERROR, set_errno v (- ret))
      | inr _ =>
          if f_inode f1 =? 0 then Ok (ERROR, set_errno v EBADF)
          else if fd1 =? fd2 then Ok (fd1, v)
          else
            '(ret, v) ← file_dup2 v fd1 fd2;
            if ret <? 0 then Ok (ERROR, set_errno v (- ret)) else Ok (OK, v)
      end
  end.

(** ** Detached files *)

Definition file_detach (v : vfs W) (fd : Z) : res (Z * option file * vfs W) :=
  if negb (fd_valid fd) then Ok (- EBADF, None, v)
  else
    v ← _files_semtake v;
    f ← get_file v fd;
    if f_inode f =? 0 then Ok (- EBADF, None, _files_semgive v)
    else Ok (OK, Some f, _files_semgive (put_file v fd file_zero)).

Definition file_close (v : vfs W) (f : file) : res (Z * file * vfs W) :=
  if f_inode f =? 0 then Ok (OK, f, v)
  else
    n ← get_node (v_fs v) (f_inode f);
    '(ret, w) ← call_close n f (v_dev v);
    st ← inode_release me (v_fs v) (f_inode f);
    Ok (ret, file_zero, set_v_fs (set_v_dev v w) st).
End Vfs.
