(* ===== verification/VfsInv.v ===== *)
(** * The file descriptors of a task

    The invariant of the file list and of the reference counts behind it, and
    what each call does to a state in which it holds. *)

From S2P Require Import Prelude Inode InodeTree InodeOps InodeRemove Vfs.
Local Open Scope Z_scope.

(** ** Reference counts of nodes *)

(** The node [a] of the tree with [k] more references. *)
Definition add_refs (st : fs) (a k : Z) : fs :=
  set_nodes st (alter (fun n => set_i_crefs n (i_crefs n + k)) a (nodes st)).

Lemma set_crefs_id n : set_i_crefs n (i_crefs n) = n.
Proof. by destruct n. Qed.

Lemma add_refs_put st a n k :
  nodes st !! a = Some n -> put_node st a (set_i_crefs n (i_crefs n + k)) = add_refs st a k.
Proof. intros Hn. unfold put_node, add_refs. f_equal. by rewrite (alter_insert _ _ n). Qed.

Lemma add_refs_lookup st a k b :
  nodes (add_refs st a k) !! b =
  if decide (a = b) then (fun n => set_i_crefs n (i_crefs n + k)) <$> nodes st !! a else nodes st !! b.
Proof. cbn. apply lookup_alter. Qed.

Lemma add_refs_add st a j k : add_refs (add_refs st a j) a k = add_refs st a (j + k).
Proof.
  unfold add_refs, set_nodes. cbn. f_equal. apply map_eq. intros x.
  destruct (decide (a = x)) as [->|]; [rewrite !lookup_alter_eq|by rewrite !lookup_alter_ne].
  destruct (nodes st !! x) as [n|]; [|done]. cbn. f_equal. unfold set_i_crefs. cbn. f_equal. lia.
Qed.

Lemma add_refs_0 st a : add_refs st a 0 = st.
Proof.
  destruct st as [r m s]. unfold add_refs, set_nodes. cbn. f_equal. apply map_eq. intros x.
  rewrite lookup_alter. case_decide; [subst|done]. destruct (m !! x) as [n|]; [|done]. cbn. by rewrite Z.add_0_r, set_crefs_id.
Qed.

Lemma add_refs_tree st t a k : fs_tree st t -> fs_tree (add_refs st a k) t.
Proof.
  intros Hft. destruct (nodes st !! a) as [n|] eqn:Hn.
  - rewrite <- (add_refs_put _ _ n) by done. eapply fs_tree_put; done.
  - destruct Hft as [? ? ? ?]. split; try done. apply (rep_ext (nodes st)); [|done].
    intros x _. rewrite add_refs_lookup. case_decide; subst; by rewrite ?Hn.
Qed.

Section Refs.
Context (me : Z) (st : fs) (Hsem : sem_free me (g_inode_sem st)).

Lemma set_sem_put s a n : set_inode_sem (put_node (set_inode_sem st s) a n) (g_inode_sem st) = put_node st a n.
Proof. by destruct st. Qed.

Lemma set_sem_back s : set_inode_sem (set_inode_sem st s) (g_inode_sem st) = st.
Proof. by destruct st. Qed.

Lemma inode_addref_spec a n :
  a <> 0 -> nodes st !! a = Some n -> - 2 ^ 15 <= i_crefs n < 2 ^ 15 - 1 ->
  inode_addref me st a = Ok (add_refs st a 1).
Proof.
  intros Ha Hn Hc. unfold inode_addref. rewrite (proj2 (Z.eqb_neq a 0) Ha).
  destruct (semtake_spec _ _ Hsem) as (s & -> & Hg). rewrite bind_Ok.
  rewrite (upd_node_Ok _ _ n), bind_Ok by done. rewrite Hg by done. f_equal.
  rewrite <- (add_refs_put _ _ n) by done. replace (s16 (i_crefs n + 1)) with (i_crefs n + 1) by (unfold s16; modlia).
  apply set_sem_put.
Qed.

Lemma inode_release_spec a n :
  a <> 0 -> nodes st !! a = Some n -> 1 <= i_crefs n < 2 ^ 15 ->
  Z.land (i_flags n) FSNODEFLAG_DELETED = 0 ->
  inode_release me st a = Ok (add_refs st a (-1)).
Proof.
  intros Ha Hn Hc Hd. unfold inode_release. rewrite (proj2 (Z.eqb_neq a 0) Ha).
  destruct (semtake_spec _ _ Hsem) as (s & -> & Hg). rewrite bind_Ok.
  rewrite (get_node_Ok _ _ n), bind_Ok by done. cbv zeta. rewrite (proj2 (Z.eqb_neq (i_crefs n) 0)) by lia.
  cbn [negb i_flags set_i_crefs]. rewrite Hd, andb_false_r. rewrite Hg by done. f_equal.
  rewrite <- (add_refs_put _ _ n) by done. replace (s16 (i_crefs n - 1)) with (i_crefs n + -1) by (unfold s16; modlia).
  apply set_sem_put.
Qed.

Lemma inode_find_spec t p :
  fs_tree st t -> deref p = SLASH -> cstring p -> skip_slashes p <> [] ->
  (forall a n, nodes st !! a = Some n -> - 2 ^ 15 <= i_crefs n < 2 ^ 15 - 1) ->
  exists ret desc st', inode_find me st (SETUP_SEARCH p) = Ok (ret, desc, st') /\
    match tlookup t (segs (skip_slashes p)) with
    | Some (a, rest) => ret = OK /\ node desc = a /\ a <> 0 /\ is_Some (nodes st !! a) /\
        segs (default [] (relpath desc)) = rest /\ st' = add_refs st a 1
    | None => ret = - ENOENT /\ st' = st
    end.
Proof.
  intros Hft Hd Hcs Hne Hc. unfold inode_find.
  destruct (semtake_spec _ _ Hsem) as (s & -> & Hg). rewrite bind_Ok.
  pose proof (fs_tree_sem _ _ s Hft) as Hft1. rewrite (inode_search_tree _ _ _ Hft1 Hd Hcs Hne), bind_Ok.
  pose proof (tsearch_lookup t _ 0 0 (skip_slashes_cstring _ Hcs) Hne (skip_slashes_head p) (ft_sorted _ _ Hft)) as HS.
  destruct (tlookup t _) as [[a rest]|] eqn:El.
  - destruct HS as (n' & l' & u' & -> & Hrest).
    destruct (rep_mapped _ _ _ (ft_rep _ _ Hft) (tlookup_in _ _ _ _ El)) as [Ha [n Hn]].
    cbn [Z.leb OK Z.compare node]. rewrite (upd_node_Ok _ _ n), bind_Ok by done.
    eexists _, _, _. split; [done|]. rewrite Hg by done. split_and!; eauto.
    rewrite <- (add_refs_put _ _ n) by done. replace (s16 (i_crefs n + 1)) with (i_crefs n + 1) by (specialize (Hc _ _ Hn); unfold s16; modlia).
    apply set_sem_put.
  - destruct HS as (n' & l' & u' & ->). replace (0 <=? - ENOENT) with false by done.
    eexists _, _, _. split; [done|]. rewrite Hg by done. split; [done|]. apply set_sem_back.
Qed.

(** Relative paths and the root are refused, and nothing changes. *)
Lemma inode_find_bad p :
  cstring p -> deref p <> SLASH \/ skip_slashes p = [] ->
  exists ret, inode_find me st (SETUP_SEARCH p) = Ok (ret, SETUP_SEARCH p, st) /\ ret < 0.
Proof.
  intros Hcs Hb. unfold inode_find. destruct (semtake_spec _ _ Hsem) as (s & -> & Hg). rewrite bind_Ok.
  unfold inode_search, _inode_search. cbn [path SETUP_SEARCH].
  destruct (deref p =? SLASH) eqn:E; b2p; cbn [negb].
  - destruct Hb as [Hb|Hb]; [done|]. rewrite Hb. cbn [deref Z.eqb]. rewrite bind_Ok.
    replace (0 <=? - ENOSYS) with false by done. rewrite Hg, set_sem_back by done. by eexists.
  - rewrite bind_Ok. replace (0 <=? - EINVAL) with false by done. rewrite Hg, set_sem_back by done. by eexists.
Qed.
End Refs.

(** ** The invariant *)

(** How often a list of files refers to a node. *)
Definition opens (a : Z) (l : list file) : Z := Z.of_nat (length (filter (fun f => f_inode f = a) l)).

Lemma opens_insert a l i f0 f :
  l !! i = Some f0 ->
  opens a (<[i := f]> l) + Z.b2z (f_inode f0 =? a) = opens a l + Z.b2z (f_inode f =? a).
Proof.
  unfold opens. revert i. induction l as [|g l IH]; intros [|i] Hi; simplify_eq/=.
  - rewrite !filter_cons. repeat case_decide; destruct (f_inode f0 =? a) eqn:?, (f_inode f =? a) eqn:?; b2p; cbn; lia.
  - specialize (IH i Hi). rewrite !filter_cons. case_decide; cbn [length]; lia.
Qed.

Lemma opens_nonneg a l : 0 <= opens a l.
Proof. unfold opens. lia. Qed.

Lemma opens_length a l : opens a l <= Z.of_nat (length l).
Proof. unfold opens. pose proof (length_filter (fun f => f_inode f = a) l). lia. Qed.

Lemma opens_pos a l i f : l !! i = Some f -> f_inode f = a -> 1 <= opens a l.
Proof.
  intros Hi <-. unfold opens. assert (f ∈ filter (fun g => f_inode g = f_inode f) l) as Hin.
  { apply list_elem_of_filter. split; [done|]. by eapply list_elem_of_lookup_2. }
  destruct (filter _ l); [by apply not_elem_of_nil in Hin|]. cbn. lia.
Qed.

(** A slot is free and blank, or open; drivers have not used [f_priv]. *)
Definition file_ok (f : file) : Prop := f_priv f = 0 /\ (f_inode f = 0 -> f = file_zero).

(** [ext a] is the number of references to node [a] from outside this task. *)
Record vfs_inv {W} (me : Z) (ext : Z -> Z) (t : tree) (v : vfs W) : Prop := {
  vi_tree : fs_tree (v_fs v) t;
  vi_sem : sem_free me (g_inode_sem (v_fs v));
  vi_lock : fl_sem v = 1;
  vi_len : length (fl_files v) = Z.to_nat CONFIG_NFILE_DESCRIPTORS;
  vi_files : Forall file_ok (fl_files v);
  vi_null : nodes (v_fs v) !! 0 = None;
  vi_open : forall i f, fl_files v !! i = Some f -> f_inode f <> 0 -> is_Some (nodes (v_fs v) !! f_inode f);
  vi_refs : forall a n, nodes (v_fs v) !! a = Some n ->
    Z.land (i_flags n) FSNODEFLAG_DELETED = 0 /\ i_crefs n = opens a (fl_files v) + ext a /\ 0 <= ext a <= 2 ^ 14
}.

(** A file on node [a] put into slot [i], and one taken out of it. *)
Definition opened {W} (v : vfs W) (i : nat) (f : file) (w : W) : vfs W :=
  mk_vfs (add_refs (v_fs v) (f_inode f) 1) (fl_sem v) (<[i := f]> (fl_files v)) w (v_errno v).
Definition closed {W} (v : vfs W) (i : nat) (a : Z) (w : W) : vfs W :=
  mk_vfs (add_refs (v_fs v) a (-1)) (fl_sem v) (<[i := file_zero]> (fl_files v)) w (v_errno v).

Section Inv.
Context {W : Type} (me : Z) (ext : Z -> Z) (t : tree).
Implicit Types v : vfs W.

Lemma add_refs_sem st a k : g_inode_sem (add_refs st a k) = g_inode_sem st.
Proof. done. Qed.

Lemma add_refs_mapped st a k b : is_Some (nodes (add_refs st a k) !! b) <-> is_Some (nodes st !! b).
Proof. rewrite add_refs_lookup. case_decide; subst; [|done]. apply fmap_is_Some. Qed.

(** Reference counts and file list changed together. *)
Lemma refs_update v a k l :
  vfs_inv me ext t v ->
  (forall b, b <> 0 -> opens b l = opens b (fl_files v) + (if decide (b = a) then k else 0)) ->
  forall b n, nodes (add_refs (v_fs v) a k) !! b = Some n ->
    Z.land (i_flags n) FSNODEFLAG_DELETED = 0 /\ i_crefs n = opens b l + ext b /\ 0 <= ext b <= 2 ^ 14.
Proof.
  intros Hv Ho b n. pose proof (vi_null _ _ _ _ Hv) as H0. rewrite add_refs_lookup. intros Hn.
  assert (b <> 0) as Hb. { intros ->. case_decide; subst; rewrite H0 in Hn; done. }
  specialize (Ho b Hb). destruct (decide (a = b)) as [<-|Hab].
  - destruct (nodes (v_fs v) !! a) as [n0|] eqn:Hn0; [|done]. simplify_eq/=.
    destruct (vi_refs _ _ _ _ Hv a n0 Hn0) as (? & ? & ?). rewrite decide_True in Ho by done. split_and!; try done; lia.
  - destruct (vi_refs _ _ _ _ Hv b n Hn) as (? & ? & ?). rewrite decide_False in Ho by done. split_and!; try done; lia.
Qed.

Lemma inv_change v i f0 f a k (w : W) :
  vfs_inv me ext t v -> fl_files v !! i = Some f0 -> file_ok f ->
  (f_inode f <> 0 -> is_Some (nodes (v_fs v) !! f_inode f)) ->
  (forall b, b <> 0 -> Z.b2z (f_inode f =? b) - Z.b2z (f_inode f0 =? b) = if decide (b = a) then k else 0) ->
  vfs_inv me ext t (mk_vfs (add_refs (v_fs v) a k) (fl_sem v) (<[i := f]> (fl_files v)) w (v_errno v)).
Proof.
  intros Hv Hi Hf Hm Hk. pose proof Hv as [H1 H2 H3 H4 H5 H6 H7 H8]. split; cbn [v_fs fl_sem fl_files].
  - by apply add_refs_tree.
  - done.
  - done.
  - by rewrite length_insert.
  - by apply Forall_insert.
  - rewrite add_refs_lookup, H6. by case_decide; subst; rewrite ?H6.
  - intros j g Hg Hz. rewrite add_refs_mapped. apply list_lookup_insert_Some in Hg.
    destruct Hg as [(-> & <- & _)|(_ & Hg)]; [by apply Hm|by eapply H7].
  - apply refs_update; [done|]. intros b Hb. specialize (Hk b Hb). pose proof (opens_insert b _ _ _ f Hi). lia.
Qed.

Lemma inv_opened v i f w :
  vfs_inv me ext t v -> fl_files v !! i = Some file_zero -> f_priv f = 0 -> f_inode f <> 0 ->
  is_Some (nodes (v_fs v) !! f_inode f) -> vfs_inv me ext t (opened v i f w).
Proof.
  intros Hv Hi Hp Hz Hm. eapply inv_change; try done.
  intros b Hb. cbn [f_inode file_zero]. rewrite (proj2 (Z.eqb_neq 0 b)) by done.
  case_decide; [subst; by rewrite Z.eqb_refl|]. by rewrite (proj2 (Z.eqb_neq _ b)).
Qed.

Lemma inv_closed v i f w :
  vfs_inv me ext t v -> fl_files v !! i = Some f -> f_inode f <> 0 ->
  vfs_inv me ext t (closed v i (f_inode f) w).
Proof.
  intros Hv Hi Hz. eapply inv_change; try done.
  intros b Hb. cbn [f_inode file_zero]. rewrite (proj2 (Z.eqb_neq 0 b)) by done.
  case_decide; [subst; by rewrite Z.eqb_refl|]. by rewrite (proj2 (Z.eqb_neq _ b)).
Qed.

Lemma inv_dev v w : vfs_inv me ext t v -> vfs_inv me ext t (set_v_dev v w).
Proof. by intros [? ? ? ? ? ? ? ?]. Qed.

Lemma inv_errno v e : vfs_inv me ext t v -> vfs_inv me ext t (set_errno v e).
Proof. by intros [? ? ? ? ? ? ? ?]. Qed.

(** A free slot is blank. *)
Lemma free_slot v i f : vfs_inv me ext t v -> fl_files v !! i = Some f -> f_inode f = 0 -> f = file_zero.
Proof. intros Hv Hi Hz. by apply (proj1 (Forall_lookup _ _) (vi_files _ _ _ _ Hv) _ _ Hi). Qed.

(** An open slot refers to a node that is counted and not deleted. *)
Lemma open_slot v i f :
  vfs_inv me ext t v -> fl_files v !! i = Some f -> f_inode f <> 0 ->
  exists n, nodes (v_fs v) !! f_inode f = Some n /\ Z.land (i_flags n) FSNODEFLAG_DELETED = 0 /\
    1 <= i_crefs n <= 2 ^ 14 + 8.
Proof.
  intros Hv Hi Hz. destruct (vi_open _ _ _ _ Hv _ _ Hi Hz) as [n Hn]. exists n. split; [done|].
  destruct (vi_refs _ _ _ _ Hv _ _ Hn) as (? & -> & ?). split; [done|].
  pose proof (opens_pos _ _ _ _ Hi eq_refl). pose proof (opens_length (f_inode f) (fl_files v)) as Hl.
  rewrite (vi_len _ _ _ _ Hv) in Hl. change (Z.of_nat (Z.to_nat CONFIG_NFILE_DESCRIPTORS)) with 8 in Hl. lia.
Qed.

Lemma crefs_bound v a n : vfs_inv me ext t v -> nodes (v_fs v) !! a = Some n -> 0 <= i_crefs n <= 2 ^ 14 + 8.
Proof.
  intros Hv Hn. destruct (vi_refs _ _ _ _ Hv _ _ Hn) as (_ & -> & ?).
  pose proof (opens_length a (fl_files v)) as Hl. pose proof (opens_nonneg a (fl_files v)).
  rewrite (vi_len _ _ _ _ Hv) in Hl. change (Z.of_nat (Z.to_nat CONFIG_NFILE_DESCRIPTORS)) with 8 in Hl. lia.
Qed.
End Inv.
