(* ===== verification/VfsOps.v ===== *)
(** * The calls on file descriptors

    What [open], [close], [dup] and [dup2] do in a state that satisfies the
    invariant, for every outcome of the driver's methods. *)

From S2P Require Import Prelude Inode InodeTree InodeOps InodeRemove Vfs VfsInv.
Local Open Scope Z_scope.

(** The lowest free slot from [i] on. *)
Definition first_free (l : list file) (i : nat) : option nat :=
  (fun p => (i + fst p)%nat) <$> list_find (fun f => f_inode f = 0) (drop i l).

Lemma first_free_Some l i k :
  first_free l i = Some k ->
  (i <= k)%nat /\ (exists f, l !! k = Some f /\ f_inode f = 0) /\
  forall j f, (i <= j < k)%nat -> l !! j = Some f -> f_inode f <> 0.
Proof.
  unfold first_free. intros ([x f] & (Hx & Hf & Hmin)%list_find_Some & ->)%fmap_Some. cbn.
  rewrite lookup_drop in Hx. split; [lia|]. split; [eauto|]. intros j g Hj Hg.
  apply (Hmin (j - i)%nat); [|lia]. rewrite lookup_drop. by replace (i + (j - i))%nat with j by lia.
Qed.

Lemma first_free_None l i : first_free l i = None -> forall j f, (i <= j)%nat -> l !! j = Some f -> f_inode f <> 0.
Proof.
  unfold first_free. intros H%fmap_None. apply list_find_None in H. intros j f Hj Hf.
  apply (proj1 (Forall_lookup _ _) H (j - i)%nat). rewrite lookup_drop. by replace (i + (j - i))%nat with j by lia.
Qed.

Lemma first_free_step l i f :
  l !! i = Some f -> first_free l i = if f_inode f =? 0 then Some i else first_free l (S i).
Proof.
  intros Hi. unfold first_free. rewrite (drop_S l f i Hi). cbn. destruct (f_inode f =? 0) eqn:E; b2p.
  - rewrite decide_True by done. cbn. f_equal. lia.
  - rewrite decide_False by done.
    destruct (list_find _ _) as [[x g]|]; cbn; [f_equal; lia|done].
Qed.

Section Alloc.
Context {W : Type}.
Implicit Types v : vfs W.

Lemma get_file_Ok v i f : fl_files v !! i = Some f -> get_file v (Z.of_nat i) = Ok f.
Proof. intros H. unfold get_file, array_get. rewrite (proj2 (Z.ltb_ge _ _)) by lia. by rewrite Nat2Z.id, H. Qed.

Lemma allocate_loop_spec n v a o pos i :
  (n + i = length (fl_files v))%nat ->
  allocate_loop n v a o pos (Z.of_nat i) =
  match first_free (fl_files v) i with
  | Some k => Ok (Z.of_nat k, set_fl_files v (<[k := mk_file o pos a 0]> (fl_files v)))
  | None => Ok (ERROR, v)
  end.
Proof.
  revert i. induction n as [|n IH]; intros i Hn.
  { unfold first_free. rewrite drop_ge by lia. done. }
  destruct (lookup_lt_is_Some_2 (fl_files v) i) as [f Hf]; [lia|]. cbn [allocate_loop].
  rewrite (get_file_Ok _ _ _ Hf), bind_Ok, (first_free_step _ _ _ Hf). destruct (f_inode f =? 0).
  - unfold put_file. by rewrite Nat2Z.id.
  - replace (Z.of_nat i + 1) with (Z.of_nat (S i)) by lia. apply IH. lia.
Qed.

Lemma files_allocate_spec me ext t v st a o pos i :
  vfs_inv me ext t v -> (i <= 8)%nat ->
  files_allocate (set_v_fs v st) a o pos (Z.of_nat i) =
  match first_free (fl_files v) i with
  | Some k => Ok (Z.of_nat k, set_fl_files (set_v_fs v st) (<[k := mk_file o pos a 0]> (fl_files v)))
  | None => Ok (ERROR, set_v_fs v st)
  end.
Proof.
  intros Hv Hi. unfold files_allocate, _files_semtake. cbn [fl_sem set_v_fs]. rewrite (vi_lock _ _ _ _ Hv).
  cbn [Z.ltb Z.compare]. rewrite bind_Ok, allocate_loop_spec.
  - cbn [fl_files set_fl_sem set_v_fs]. pose proof (vi_lock _ _ _ _ Hv). destruct v. cbn in *. subst. by destruct (first_free _ _).
  - cbn [fl_files set_fl_sem set_v_fs]. rewrite (vi_len _ _ _ _ Hv). unfold CONFIG_NFILE_DESCRIPTORS. lia.
Qed.
End Alloc.

Section Calls.
Context {W A : Type} (fops : Z -> file_operations W A).
Context (block_proxy : vfs W -> list Z -> Z -> res (Z * vfs W)).
Context (mops_open : Z -> file -> list Z -> Z -> W -> res (Z * W)).
Context (mops_dup : Z -> file -> file -> W -> res (Z * W)).
Context (me : Z) (ext : Z -> Z) (t : tree).
Implicit Types v : vfs W.

Lemma fd_valid_nat v i f : vfs_inv me ext t v -> fl_files v !! i = Some f -> fd_valid (Z.of_nat i) = true.
Proof.
  intros Hv Hi. apply lookup_lt_Some in Hi. rewrite (vi_len _ _ _ _ Hv) in Hi. unfold fd_valid, CONFIG_NFILE_DESCRIPTORS in *.
  apply andb_true_iff. split; [apply Z.leb_le|apply Z.ltb_lt]; lia.
Qed.

Lemma fd_valid_slot v fd :
  vfs_inv me ext t v -> fd_valid fd = true -> exists i f, fd = Z.of_nat i /\ fl_files v !! i = Some f.
Proof.
  unfold fd_valid, CONFIG_NFILE_DESCRIPTORS. intros Hv [H1 H2]%andb_true_iff. b2p. exists (Z.to_nat fd).
  destruct (lookup_lt_is_Some_2 (fl_files v) (Z.to_nat fd)) as [f Hf].
  { rewrite (vi_len _ _ _ _ Hv). unfold CONFIG_NFILE_DESCRIPTORS. lia. }
  exists f. split; [lia|done].
Qed.

(** *** Closing *)

Lemma _files_close_spec v s i f n r w :
  vfs_inv me ext t v -> fl_files v !! i = Some f -> f_inode f <> 0 ->
  nodes (v_fs v) !! f_inode f = Some n -> call_close fops n f (v_dev v) = Ok (r, w) ->
  _files_close fops me (set_fl_sem v s) (Z.of_nat i) = Ok (r, set_fl_sem (closed v i (f_inode f) w) s).
Proof.
  intros Hv Hi Hz Hn Hc. unfold _files_close. rewrite (get_file_Ok _ _ f) by done. rewrite bind_Ok.
  rewrite (proj2 (Z.eqb_neq _ 0) Hz), (get_node_Ok _ _ n) by done. rewrite bind_Ok. cbn [v_dev set_fl_sem v_fs].
  rewrite Hc, bind_Ok. destruct (open_slot _ _ _ _ _ _ Hv Hi Hz) as (n' & Hn' & Hd & Hcr). rewrite Hn in Hn'. injection Hn' as <-.
  rewrite (inode_release_spec _ _ (vi_sem _ _ _ _ Hv) _ n) by (done || lia). rewrite bind_Ok. do 2 f_equal.
  unfold put_file. rewrite Nat2Z.id. cbn. unfold closed, set_fl_files, set_fl_sem, file_clear. cbn.
  destruct (proj1 (Forall_lookup _ _) (vi_files _ _ _ _ Hv) _ _ Hi) as [-> _]. done.
Qed.

Lemma semtake_ok v : vfs_inv me ext t v -> _files_semtake v = Ok (set_fl_sem v 0).
Proof. intros Hv. unfold _files_semtake. by rewrite (vi_lock _ _ _ _ Hv). Qed.

Lemma semgive_ok v : vfs_inv me ext t v -> _files_semgive (set_fl_sem v 0) = v.
Proof. intros Hv. pose proof (vi_lock _ _ _ _ Hv). destruct v. cbn in *. by subst. Qed.

Lemma close_spec v i f n r w :
  vfs_inv me ext t v -> fl_files v !! i = Some f -> f_inode f <> 0 ->
  nodes (v_fs v) !! f_inode f = Some n -> call_close fops n f (v_dev v) = Ok (r, w) ->
  close fops me v (Z.of_nat i) =
  Ok (if r <? 0 then (ERROR, set_errno (closed v i (f_inode f) w) (- r)) else (OK, closed v i (f_inode f) w)).
Proof.
  intros Hv Hi Hz Hn Hc. unfold close, files_close. rewrite (fd_valid_nat _ _ _ Hv Hi). cbn [negb].
  rewrite (get_file_Ok _ _ _ Hi), bind_Ok, (proj2 (Z.eqb_neq _ 0) Hz), semtake_ok, bind_Ok by done.
  rewrite (_files_close_spec _ _ _ _ _ _ _ Hv Hi Hz Hn Hc), bind_Ok.
  rewrite semgive_ok by (by apply inv_closed). cbn. by destruct (r <? 0).
Qed.

Lemma close_bad v fd :
  vfs_inv me ext t v ->
  (forall i f, fd = Z.of_nat i -> fl_files v !! i = Some f -> f_inode f = 0) ->
  close fops me v fd = Ok (ERROR, set_errno v EBADF).
Proof.
  intros Hv Hb. unfold close, files_close. destruct (fd_valid fd) eqn:E; [|done]. cbn [negb].
  destruct (fd_valid_slot _ _ Hv E) as (i & f & -> & Hi).
  rewrite (get_file_Ok _ _ _ Hi), bind_Ok, (Hb _ _ eq_refl Hi). done.
Qed.

(** *** Opening *)

(** The outcome of opening node [a] in state [v]: the code returned and the
    state, given what the driver's [open] says. *)
Definition open_outcome (v : vfs W) (a : Z) (n : inode) (rel : list Z) (oflags : Z) (out : res (Z * vfs W)) : Prop :=
  if (negb (INODE_IS_DRIVER n) && negb (INODE_IS_MOUNTPT n)) || (i_ops n =? 0) then out = Ok (- ENXIO, v)
  else if inode_checkflags fops n oflags <? 0 then out = Ok (- EACCES, v)
  else match first_free (fl_files v) 0 with
       | None => out = Ok (- EMFILE, v)
       | Some k =>
           let f := mk_file oflags 0 a 0 in
           forall r w, call_open fops mops_open n f rel (v_dev v) = Ok (r, w) ->
             out = Ok (if r <? 0 then (r, set_v_dev v w) else (Z.of_nat k, opened v k f w))
       end.

Lemma set_fs_back v st : set_v_fs (set_v_fs v st) (v_fs v) = v.
Proof. by destruct v. Qed.

Lemma release_after_find v a n :
  vfs_inv me ext t v -> a <> 0 -> nodes (v_fs v) !! a = Some n ->
  inode_release me (add_refs (v_fs v) a 1) a = Ok (v_fs v).
Proof.
  intros Hv Ha Hn. pose proof (crefs_bound _ _ _ _ _ _ Hv Hn). destruct (vi_refs _ _ _ _ Hv _ _ Hn) as (Hd & _ & _).
  rewrite (inode_release_spec me (add_refs (v_fs v) a 1) (vi_sem _ _ _ _ Hv) a (set_i_crefs n (i_crefs n + 1))); cbn; try done.
  - by rewrite add_refs_add, add_refs_0.
  - by rewrite lookup_alter_eq, Hn.
  - lia.
Qed.

(** The last part of opening, once a slot has been taken. *)
Lemma vopen_tail v a n rel oflags k r w :
  vfs_inv me ext t v -> a <> 0 -> nodes (v_fs v) !! a = Some n ->
  first_free (fl_files v) 0 = Some k ->
  call_open fops mops_open n (mk_file oflags 0 a 0) rel (v_dev v) = Ok (r, w) ->
  let v1 := set_fl_files (set_v_fs v (add_refs (v_fs v) a 1)) (<[k := mk_file oflags 0 a 0]> (fl_files v)) in
  (if Z.of_nat k <? 0 then st ← inode_release me (v_fs v1) a; Ok (- EMFILE, set_v_fs v1 st)
   else
     filep ← fs_getfilep v1 (Z.of_nat k);
     match filep with
     | inl ret => st ← inode_release me (v_fs v1) a; Ok (ret, set_v_fs v1 st)
     | inr f =>
         '(ret, w) ← call_open fops mops_open n f rel (v_dev v1);
         let v := set_v_dev v1 w in
         if ret <? 0 then
           v ← files_release v (Z.of_nat k);
           st ← inode_release me (v_fs v) a; Ok (ret, set_v_fs v st)
         else Ok (Z.of_nat k, v)
     end) =
  Ok (if r <? 0 then (r, set_v_dev v w) else (Z.of_nat k, opened v k (mk_file oflags 0 a 0) w)).
Proof.
  intros Hv Ha Hn Hk Hopen v1. destruct (first_free_Some _ _ _ Hk) as (_ & (f0 & Hf0 & Hz) & _).
  pose proof (free_slot _ _ _ _ _ _ Hv Hf0 Hz) as ->.
  rewrite (proj2 (Z.ltb_ge _ _)) by lia. unfold fs_getfilep. rewrite (fd_valid_nat _ _ _ Hv Hf0). cbn [negb].
  assert (fl_files v1 !! k = Some (mk_file oflags 0 a 0)) as Hk1.
  { cbn. apply list_lookup_insert_eq. by eapply lookup_lt_Some. }
  rewrite (get_file_Ok _ _ _ Hk1), !bind_Ok. change (v_dev v1) with (v_dev v). rewrite Hopen, bind_Ok. cbv zeta.
  destruct (r <? 0) eqn:Er; [|done]. unfold files_release. rewrite (fd_valid_nat _ _ _ Hv Hf0).
  unfold _files_semtake. change (fl_sem (set_v_dev v1 w)) with (fl_sem v). rewrite (vi_lock _ _ _ _ Hv).
  cbn [Z.ltb Z.compare]. rewrite bind_Ok, (get_file_Ok (set_fl_sem (set_v_dev v1 w) (1 - 1)) _ _ Hk1), !bind_Ok.
  change (v_fs (_files_semgive _)) with (add_refs (v_fs v) a 1).
  rewrite (release_after_find _ _ _ Hv Ha Hn), bind_Ok. do 2 f_equal.
  unfold put_file. rewrite Nat2Z.id. pose proof (vi_lock _ _ _ _ Hv) as Hl.
  destruct v as [st s l dev e]. cbn in *. subst s. unfold set_v_fs, _files_semgive, set_fl_sem, set_fl_files. cbn.
  rewrite list_insert_insert_eq. unfold file_clear, set_v_dev. cbn. f_equal. by apply list_insert_id.
Qed.

Lemma vopen_path_spec v p oflags :
  vfs_inv me ext t v -> deref p = SLASH -> cstring p -> skip_slashes p <> [] ->
  match tlookup t (segs (skip_slashes p)) with
  | None => vopen_path fops block_proxy mops_open me v p oflags = Ok (- ENOENT, v)
  | Some (a, rest) => exists n rel, nodes (v_fs v) !! a = Some n /\ segs rel = rest /\
      if INODE_IS_BLOCK n || INODE_IS_MTD n
      then vopen_path fops block_proxy mops_open me v p oflags = block_proxy v p oflags
      else open_outcome v a n rel oflags (vopen_path fops block_proxy mops_open me v p oflags)
  end.
Proof.
  intros Hv Hd Hcs Hne. unfold vopen_path.
  destruct (inode_find_spec me _ (vi_sem _ _ _ _ Hv) t p (vi_tree _ _ _ _ Hv) Hd Hcs Hne) as (ret & desc & st & -> & HF).
  { intros a n Hn. pose proof (crefs_bound _ _ _ _ _ _ Hv Hn). lia. }
  rewrite bind_Ok. destruct (tlookup t _) as [[a rest]|] eqn:El; [|destruct HF as [-> ->]; by destruct v].
  destruct HF as (-> & <- & Ha & [n Hn] & Hrest & ->). cbn [OK Z.ltb Z.compare]. cbv zeta.
  exists n, (default [] (relpath desc)). split; [done|]. split; [done|].
  pose proof (release_after_find _ _ _ Hv Ha Hn) as Hrel. set (a := node desc) in *.
  rewrite (get_node_Ok _ _ (set_i_crefs n (i_crefs n + 1))), bind_Ok by (done || (cbn; by rewrite lookup_alter_eq, Hn)).
  change (INODE_IS_BLOCK (set_i_crefs n (i_crefs n + 1))) with (INODE_IS_BLOCK n).
  change (INODE_IS_MTD (set_i_crefs n (i_crefs n + 1))) with (INODE_IS_MTD n).
  destruct (INODE_IS_BLOCK n || INODE_IS_MTD n).
  { cbn [v_fs set_v_fs]. by rewrite Hrel, bind_Ok, set_fs_back. }
  unfold open_outcome. change (INODE_IS_DRIVER (set_i_crefs n (i_crefs n + 1))) with (INODE_IS_DRIVER n).
  change (INODE_IS_MOUNTPT (set_i_crefs n (i_crefs n + 1))) with (INODE_IS_MOUNTPT n).
  change (i_ops (set_i_crefs n (i_crefs n + 1))) with (i_ops n).
  change (inode_checkflags fops (set_i_crefs n (i_crefs n + 1)) oflags) with (inode_checkflags fops n oflags).
  destruct (_ || (i_ops n =? 0)); [cbn [v_fs set_v_fs]; by rewrite Hrel, bind_Ok, set_fs_back|].
  destruct (inode_checkflags fops n oflags <? 0) eqn:Ec.
  { cbn [v_fs set_v_fs]. rewrite Hrel, bind_Ok, set_fs_back. do 2 f_equal.
    unfold inode_checkflags in *. by destruct (_ || _). }
  rewrite (files_allocate_spec _ _ _ _ _ _ _ _ 0 Hv) by lia.
  destruct (first_free (fl_files v) 0) as [k|] eqn:Ek; rewrite bind_Ok;
    [|cbn [ERROR Z.ltb Z.compare v_fs set_v_fs]; by rewrite Hrel, bind_Ok, set_fs_back].
  intros r w Hopen. exact (vopen_tail v a n _ oflags k r w Hv Ha Hn Ek Hopen).
Qed.

Lemma vopen_path_bad v p oflags :
  vfs_inv me ext t v -> cstring p -> deref p <> SLASH \/ skip_slashes p = [] ->
  exists ret, vopen_path fops block_proxy mops_open me v p oflags = Ok (ret, v) /\ ret < 0.
Proof.
  intros Hv Hcs Hb. unfold vopen_path.
  destruct (inode_find_bad me _ (vi_sem _ _ _ _ Hv) p Hcs Hb) as (ret & -> & Hr). rewrite bind_Ok. cbv zeta.
  rewrite (proj2 (Z.ltb_lt ret 0) Hr). exists ret. split; [|done]. by destruct v.
Qed.

(** *** Duplicating *)

Lemma file_dup_spec v i f minfd :
  vfs_inv me ext t v -> fl_files v !! i = Some f -> f_inode f <> 0 -> (minfd <= 8)%nat ->
  file_dup me v f (Z.of_nat minfd) =
  match first_free (fl_files v) minfd with
  | Some k => Ok (Z.of_nat k, opened v k (mk_file (f_oflags f) (f_pos f) (f_inode f) 0) (v_dev v))
  | None => Ok (- EMFILE, v)
  end.
Proof.
  intros Hv Hi Hz Hm. unfold file_dup. rewrite (proj2 (Z.eqb_neq _ 0) Hz).
  destruct (open_slot _ _ _ _ _ _ Hv Hi Hz) as (n & Hn & _ & Hc).
  rewrite (inode_addref_spec _ _ (vi_sem _ _ _ _ Hv) _ n), bind_Ok by (done || lia).
  rewrite (files_allocate_spec _ _ _ _ _ _ _ _ _ Hv Hm). destruct (first_free _ _) as [k|]; rewrite bind_Ok.
  - rewrite (proj2 (Z.ltb_ge _ _)) by lia. done.
  - cbn [ERROR Z.ltb Z.compare v_fs set_v_fs]. by rewrite (release_after_find _ _ _ Hv Hz Hn), bind_Ok, set_fs_back.
Qed.

(** The copy of an open file into a free slot, as [file_dup2] makes it after it
    has closed what was there. *)
Lemma reopen_spec v i j f n r w :
  vfs_inv me ext t v -> fl_files v !! i = Some f -> f_inode f <> 0 -> fl_files v !! j = Some file_zero -> i <> j ->
  nodes (v_fs v) !! f_inode f = Some n -> call_reopen fops mops_dup n f f (v_dev v) = Ok (r, w) ->
  (f1 ← get_file (set_fl_sem v 0) (Z.of_nat i);
   st ← inode_addref me (v_fs (set_fl_sem v 0)) (f_inode f1);
   let v := set_v_fs (set_fl_sem v 0) st in
   f2 ← get_file v (Z.of_nat j);
   let f2 := mk_file (f_oflags f1) (f_pos f1) (f_inode f1) (f_priv f2) in
   let v := put_file v (Z.of_nat j) f2 in
   n ← get_node (v_fs v) (f_inode f1);
   '(ret, w) ← call_reopen fops mops_dup n f1 f2 (v_dev v);
   let v := set_v_dev v w in
   if ret <? 0 then
     st ← inode_release me (v_fs v) (f_inode f2);
     Ok (ret, _files_semgive (put_file (set_v_fs v st) (Z.of_nat j) (file_clear f2)))
   else Ok (OK, _files_semgive v)) =
  Ok (if r <? 0 then (r, set_v_dev v w) else (OK, opened v j f w)).
Proof.
  intros Hv Hi Hz Hj Hij Hn Hop. destruct (open_slot _ _ _ _ _ _ Hv Hi Hz) as (n' & Hn' & Hd & Hc).
  rewrite Hn in Hn'. injection Hn' as <-. rewrite (get_file_Ok _ _ f), bind_Ok by done. cbn [v_fs set_fl_sem].
  rewrite (inode_addref_spec _ _ (vi_sem _ _ _ _ Hv) _ n), bind_Ok by (done || lia). cbv zeta.
  rewrite (get_file_Ok _ _ file_zero), bind_Ok by done. cbn [f_priv file_zero].
  destruct (proj1 (Forall_lookup _ _) (vi_files _ _ _ _ Hv) _ _ Hi) as [Hp _].
  replace (mk_file (f_oflags f) (f_pos f) (f_inode f) 0) with f by (destruct f; cbn in *; by subst).
  cbn [v_fs put_file set_fl_files set_v_fs v_dev set_fl_sem].
  rewrite (get_node_Ok _ _ (set_i_crefs n (i_crefs n + 1))), bind_Ok by (done || (cbn; by rewrite lookup_alter_eq, Hn)).
  change (call_reopen fops mops_dup (set_i_crefs n (i_crefs n + 1)) f f (v_dev v))
    with (call_reopen fops mops_dup n f f (v_dev v)).
  rewrite Hop, bind_Ok. pose proof (vi_lock _ _ _ _ Hv) as Hl. unfold put_file. rewrite Nat2Z.id.
  destruct (r <? 0); [|by destruct v as [? ? ? ? ?]; cbn in *; subst].
  cbn [v_fs set_fl_files set_v_fs set_v_dev set_fl_sem].
  rewrite (release_after_find _ _ _ Hv Hz Hn), bind_Ok. do 2 f_equal.
  destruct v as [st s l dev e]. cbn in *. subst s. unfold _files_semgive, set_fl_sem, set_fl_files, set_v_dev, file_clear. cbn.
  rewrite list_insert_insert_eq, Hp. f_equal. by apply list_insert_id.
Qed.
End Calls.
