(* ===== verification/VfsRun.v ===== *)
(** * Safety of any sequence of file calls

    What the file system asks of the drivers is a class: methods called on the
    private data of a node return, and keep the invariant of the devices.  With
    such drivers, no sequence of calls on file descriptors faults, blocks or
    miscounts a reference. *)

From S2P Require Import Prelude Inode InodeTree InodeOps InodeRemove Vfs VfsInv VfsOps.
Local Open Scope Z_scope.

(** ** What the file system asks of the drivers

    [valid p priv]: [priv] is private data of the driver with operations [p];
    [arg_ok req arg]: [arg] is an argument that request [req] may be given. *)
Class Drivers {W A} (fops : Z -> file_operations W A) (dev_ok : W -> Prop) (valid : Z -> Z -> Prop)
    (arg_ok : Z -> A -> Prop) : Prop := {
  drv_open p m f priv w : fo_open (fops p) = Some m -> valid p priv -> dev_ok w ->
    exists r w', m f priv w = Ok (r, w') /\ dev_ok w';
  drv_close p m f priv w : fo_close (fops p) = Some m -> valid p priv -> dev_ok w ->
    exists r w', m f priv w = Ok (r, w') /\ dev_ok w';
  drv_read p m f priv n w : fo_read (fops p) = Some m -> valid p priv -> dev_ok w ->
    exists r b w', m f priv n w = Ok (r, b, w') /\ dev_ok w';
  drv_write p m f priv b w : fo_write (fops p) = Some m -> valid p priv -> dev_ok w ->
    exists r w', m f priv b w = Ok (r, w') /\ dev_ok w';
  drv_ioctl p m f priv req arg w : fo_ioctl (fops p) = Some m -> valid p priv -> arg_ok req arg -> dev_ok w ->
    exists r arg' w', m f priv req arg w = Ok (r, arg', w') /\ dev_ok w'
}.

(** ** Sequences of calls *)

Inductive call (A : Type) :=
  | COpen (p : list Z) (oflags : Z)
  | CClose (fd : Z)
  | CDup (fd : Z)
  | CDup2 (fd1 fd2 : Z)
  | CIoctl (fd req : Z) (arg : A)
  | CRead (fd nbytes : Z)
  | CWrite (fd : Z) (buf : list Z).
Arguments COpen {A}. Arguments CClose {A}. Arguments CDup {A}. Arguments CDup2 {A}.
Arguments CIoctl {A}. Arguments CRead {A}. Arguments CWrite {A}.

Section Run.
Context {W A : Type} (fops : Z -> file_operations W A) (me : Z).

(** There are only character drivers, so neither the proxy of a block driver
    nor a mounted file system is ever called. *)
Definition no_proxy (v : vfs W) (p : list Z) (oflags : Z) : res (Z * vfs W) := Ok (- ENXIO, v).
Definition no_mops_open (a : Z) (f : file) (rel : list Z) (oflags : Z) (w : W) : res (Z * W) := Ok (- ENXIO, w).
Definition no_mops_dup (a : Z) (f1 f2 : file) (w : W) : res (Z * W) := Ok (- ENXIO, w).

Definition vfs_step (c : call A) (v : vfs W) : res (Z * vfs W) :=
  match c with
  | COpen p oflags => open fops no_proxy no_mops_open me v (Some p) oflags
  | CClose fd => close fops me v fd
  | CDup fd => fs_dupfd me v fd 0
  | CDup2 fd1 fd2 => dup2 fops no_mops_dup me v fd1 fd2
  | CIoctl fd req arg => '(r, _, v) ← ioctl fops v fd req arg; Ok (r, v)
  | CRead fd n => '(r, _, v) ← read fops v fd n; Ok (r, v)
  | CWrite fd b => write fops v fd (Some b)
  end.

Fixpoint vfs_run (l : list (call A)) (v : vfs W) : res (list Z * vfs W) :=
  match l with
  | [] => Ok ([], v)
  | c :: l => '(r, v) ← vfs_step c v; '(rs, v) ← vfs_run l v; Ok (r :: rs, v)
  end.

Context (dev_ok : W -> Prop) (valid : Z -> Z -> Prop) (arg_ok : Z -> A -> Prop) `{!Drivers fops dev_ok valid arg_ok}.

Definition call_ok (c : call A) : Prop :=
  match c with COpen p _ => cstring p | CIoctl _ req arg => arg_ok req arg | _ => True end.

Context (ext : Z -> Z) (t : tree).

(** All nodes are directories or character drivers with their own data. *)
Definition drv_nodes (m : gmap Z inode) : Prop :=
  forall a n, m !! a = Some n -> INODE_IS_DRIVER n = true /\ (i_ops n <> 0 -> valid (i_ops n) (i_private n)).

Record vfs_ok (v : vfs W) : Prop := {
  vo_inv : vfs_inv me ext t v;
  vo_nodes : drv_nodes (nodes (v_fs v));
  vo_dev : dev_ok (v_dev v)
}.

Definition safe (out : res (Z * vfs W)) : Prop := exists r v, out = Ok (r, v) /\ vfs_ok v.

Lemma drv_nodes_refs st a k : drv_nodes (nodes st) -> drv_nodes (nodes (add_refs st a k)).
Proof.
  intros Hd b n. rewrite add_refs_lookup. case_decide; [subst|apply Hd].
  intros (n0 & Hn0 & ->)%fmap_Some. apply (Hd _ _ Hn0).
Qed.

Lemma safe_errno r v e : vfs_ok v -> safe (Ok (r, set_errno v e)).
Proof. intros [H1 H2 H3]. exists r, (set_errno v e). split; [done|]. split; [by apply inv_errno|done|done]. Qed.

Lemma safe_ret r v : vfs_ok v -> safe (Ok (r, v)).
Proof. intros Hv. by exists r, v. Qed.

(** The last step of a call: a negative code becomes [errno]. *)
Lemma safe_result (b : bool) r0 e r v : vfs_ok v -> safe (Ok (if b then (r0, set_errno v e) else (r, v))).
Proof. destruct b; [apply safe_errno|apply safe_ret]. Qed.

Lemma ok_closed v i f w :
  vfs_ok v -> fl_files v !! i = Some f -> f_inode f <> 0 -> dev_ok w -> vfs_ok (closed v i (f_inode f) w).
Proof. intros [H1 H2 H3] Hi Hz Hw. split; [by apply inv_closed|by apply drv_nodes_refs|done]. Qed.

Lemma ok_opened v i f w :
  vfs_ok v -> fl_files v !! i = Some file_zero -> f_priv f = 0 -> f_inode f <> 0 ->
  is_Some (nodes (v_fs v) !! f_inode f) -> dev_ok w -> vfs_ok (opened v i f w).
Proof. intros [H1 H2 H3] Hi Hp Hz Hm Hw. split; [by apply inv_opened|by apply drv_nodes_refs|done]. Qed.

Lemma ok_dev v w : vfs_ok v -> dev_ok w -> vfs_ok (set_v_dev v w).
Proof. intros [H1 H2 H3] Hw. split; [by apply inv_dev|done|done]. Qed.

Lemma call_close_ok v a n f :
  vfs_ok v -> nodes (v_fs v) !! a = Some n ->
  exists r w, call_close fops n f (v_dev v) = Ok (r, w) /\ dev_ok w.
Proof.
  intros [H1 H2 H3] Hn. unfold call_close. destruct (i_ops n =? 0) eqn:E; [by eauto|]. b2p.
  destruct (fo_close _) eqn:Em; [|by eauto]. eapply drv_close; [done|by apply (H2 _ _ Hn)|done].
Qed.

Lemma driver_not_mount n : INODE_IS_DRIVER n = true -> INODE_IS_MOUNTPT n = false.
Proof.
  unfold INODE_IS_DRIVER, INODE_IS_MOUNTPT, INODE_IS_TYPE. intros H%Z.eqb_eq. by rewrite H.
Qed.

Lemma driver_not_block n : INODE_IS_DRIVER n = true -> INODE_IS_BLOCK n || INODE_IS_MTD n = false.
Proof.
  unfold INODE_IS_DRIVER, INODE_IS_BLOCK, INODE_IS_MTD, INODE_IS_TYPE. intros H%Z.eqb_eq. by rewrite H.
Qed.

Lemma close_safe v fd : vfs_ok v -> safe (close fops me v fd).
Proof.
  intros Hv. pose proof (vo_inv _ Hv) as Hi.
  destruct (fd_valid fd) eqn:E; [|unfold close; rewrite E; by apply safe_errno].
  destruct (fd_valid_slot _ _ _ _ _ Hi E) as (i & f & -> & Hf).
  destruct (decide (f_inode f = 0)) as [Hz|Hz].
  { rewrite (close_bad fops me ext t); [by apply safe_errno|done|]. intros j g Hj Hg. apply Nat2Z.inj in Hj as <-. congruence. }
  destruct (open_slot _ _ _ _ _ _ Hi Hf Hz) as (n & Hn & _).
  destruct (call_close_ok _ _ _ f Hv Hn) as (r & w & Hc & Hw).
  rewrite (close_spec fops me ext t _ _ _ _ _ _ Hi Hf Hz Hn Hc). apply safe_result. by apply ok_closed.
Qed.

(** Slots from [i] on are closed one by one; those before are closed already. *)
Lemma releaselist_ok n i v :
  (n + i = 8)%nat -> vfs_ok v -> (forall j f, (j < i)%nat -> fl_files v !! j = Some f -> f = file_zero) ->
  exists v', releaselist_loop fops me n v (Z.of_nat i) = Ok v' /\ vfs_ok v' /\
    forall j f, fl_files v' !! j = Some f -> f = file_zero.
Proof.
  revert i v. induction n as [|n IH]; intros i v Hn Hv Hz.
  { exists v. split_and!; try done. intros j f Hf. apply (Hz j f); [|done]. apply lookup_lt_Some in Hf.
    rewrite (vi_len _ _ _ _ (vo_inv _ Hv)) in Hf. change (Z.to_nat CONFIG_NFILE_DESCRIPTORS) with 8%nat in Hf. lia. }
  destruct (lookup_lt_is_Some_2 (fl_files v) i) as [f Hf].
  { rewrite (vi_len _ _ _ _ (vo_inv _ Hv)). change (Z.to_nat CONFIG_NFILE_DESCRIPTORS) with 8%nat. lia. }
  cbn [releaselist_loop]. replace (Z.of_nat i + 1) with (Z.of_nat (S i)) by lia.
  destruct (decide (f_inode f = 0)) as [E|E].
  - pose proof (free_slot _ _ _ _ _ _ (vo_inv _ Hv) Hf E) as ->. unfold _files_close.
    rewrite (get_file_Ok _ _ _ Hf), bind_Ok. cbn [f_inode file_zero Z.eqb]. rewrite bind_Ok.
    apply IH; [lia|done|]. intros j g Hj Hg. destruct (decide (j = i)) as [->|]; [congruence|]. apply (Hz j g); [lia|done].
  - destruct (open_slot _ _ _ _ _ _ (vo_inv _ Hv) Hf E) as (nd & Hnd & _).
    destruct (call_close_ok v _ nd f Hv Hnd) as (r & w & Hc & Hw).
    pose proof (_files_close_spec fops me ext t v (fl_sem v) i f nd r w (vo_inv _ Hv) Hf E Hnd Hc) as HC.
    replace (set_fl_sem v (fl_sem v)) with v in HC by (by destruct v). rewrite HC, bind_Ok.
    replace (set_fl_sem (closed v i (f_inode f) w) (fl_sem v)) with (closed v i (f_inode f) w) by done.
    apply IH; [lia|by apply ok_closed|]. cbn [fl_files closed]. intros j g Hj.
    intros [(<- & <- & _)|(Hne & Hg)]%list_lookup_insert_Some; [done|]. apply (Hz j g); [lia|done].
Qed.

Lemma safe_map out :
  safe out -> safe ('(fd, v) ← out; if fd <? 0 then Ok (ERROR, set_errno v (- fd)) else Ok (fd, v)).
Proof.
  intros (r & v & -> & Hv). rewrite bind_Ok. destruct (r <? 0); [by apply safe_errno|by apply safe_ret].
Qed.

Lemma safe_map_ok out :
  safe out -> safe ('(ret, v) ← out; if ret <? 0 then Ok (ERROR, set_errno v (- ret)) else Ok (OK, v)).
Proof.
  intros (r & v & -> & Hv). rewrite bind_Ok. destruct (r <? 0); [by apply safe_errno|by apply safe_ret].
Qed.

Lemma call_open_ok v a n f rel :
  vfs_ok v -> nodes (v_fs v) !! a = Some n -> i_ops n <> 0 ->
  exists r w, call_open fops no_mops_open n f rel (v_dev v) = Ok (r, w) /\ dev_ok w.
Proof.
  intros [H1 H2 H3] Hn Ho. unfold call_open. destruct (fo_open _) eqn:Em; [|by eauto].
  destruct (H2 _ _ Hn) as [Hd Hv]. rewrite driver_not_mount by done. eapply drv_open; [done|by apply Hv|done].
Qed.

Lemma open_path_safe v p oflags :
  vfs_ok v -> cstring p -> safe (vopen_path fops no_proxy no_mops_open me v p oflags).
Proof.
  intros Hv Hcs. pose proof (vo_inv _ Hv) as Hi.
  destruct (decide (deref p <> SLASH \/ skip_slashes p = [])) as [Hb|Hb].
  { destruct (vopen_path_bad fops no_proxy no_mops_open me ext t v p oflags Hi Hcs Hb) as (r & -> & _). by apply safe_ret. }
  pose proof (vopen_path_spec fops no_proxy no_mops_open me ext t v p oflags Hi) as HS.
  destruct (tlookup t _) as [[a rest]|] eqn:El.
  2: { rewrite HS; [by apply safe_ret| |done|]; destruct (decide (deref p = SLASH)); tauto. }
  destruct HS as (n & rel & Hn & _ & HS); [destruct (decide (deref p = SLASH)); tauto|done|tauto|].
  destruct (vo_nodes _ Hv _ _ Hn) as [Hd _]. rewrite driver_not_block in HS by done. unfold open_outcome in HS.
  destruct (_ || (i_ops n =? 0)) eqn:Eo; [rewrite HS; by apply safe_ret|].
  destruct (_ <? 0); [rewrite HS; by apply safe_ret|].
  destruct (first_free _ _) as [k|] eqn:Ek; [|rewrite HS; by apply safe_ret].
  apply orb_false_iff in Eo as [_ Eo]. b2p.
  destruct (call_open_ok v a n (mk_file oflags 0 a 0) rel Hv Hn Eo) as (r & w & Ho & Hw).
  rewrite (HS _ _ Ho). destruct (r <? 0); apply safe_ret; [by apply ok_dev|].
  destruct (first_free_Some _ _ _ Ek) as (_ & (f & Hf & Hz) & _).
  pose proof (free_slot _ _ _ _ _ _ Hi Hf Hz) as ->. apply ok_opened; try done. cbn [f_inode].
  intros ->. by rewrite (vi_null _ _ _ _ Hi) in Hn.
Qed.

Lemma getfilep_ok v fd :
  vfs_ok v ->
  (fd_valid fd = false /\ fs_getfilep v fd = Ok (inl (- EBADF))) \/
  exists i f, fd = Z.of_nat i /\ fl_files v !! i = Some f /\ fs_getfilep v fd = Ok (inr f) /\ fd_valid fd = true.
Proof.
  intros Hv. unfold fs_getfilep. destruct (fd_valid fd) eqn:E; [right|by left].
  destruct (fd_valid_slot _ _ _ _ _ (vo_inv _ Hv) E) as (i & f & -> & Hf). exists i, f.
  by rewrite (get_file_Ok _ _ _ Hf).
Qed.

Lemma dup_safe v fd : vfs_ok v -> safe (fs_dupfd me v fd 0).
Proof.
  intros Hv. pose proof (vo_inv _ Hv) as Hi. unfold fs_dupfd.
  destruct (getfilep_ok v fd Hv) as [[_ ->]|(i & f & -> & Hf & -> & _)]; rewrite bind_Ok; [by apply safe_errno|].
  apply safe_map. destruct (decide (f_inode f = 0)) as [Hz|Hz].
  { unfold file_dup. rewrite Hz. by apply safe_ret. }
  change 0 with (Z.of_nat 0) at 1. rewrite (file_dup_spec me ext t v i f 0 Hi Hf Hz) by lia.
  destruct (first_free _ _) as [k|] eqn:Ek; [|by apply safe_ret]. apply safe_ret.
  destruct (first_free_Some _ _ _ Ek) as (_ & (g & Hg & Hgz) & _).
  pose proof (free_slot _ _ _ _ _ _ Hi Hg Hgz) as ->. apply ok_opened; try done; cbn [f_inode]; [|apply Hv].
  by apply (vi_open _ _ _ _ Hi _ _ Hf).
Qed.

Lemma call_reopen_ok v a n f :
  vfs_ok v -> nodes (v_fs v) !! a = Some n ->
  exists r w, call_reopen fops no_mops_dup n f f (v_dev v) = Ok (r, w) /\ dev_ok w.
Proof.
  intros [H1 H2 H3] Hn. unfold call_reopen. destruct (i_ops n =? 0) eqn:E; [by eauto|]. b2p.
  destruct (fo_open _) eqn:Em; [|by eauto]. destruct (H2 _ _ Hn) as [Hd Hv].
  rewrite driver_not_mount by done. eapply drv_open; [done|by apply Hv|done].
Qed.

(** Copying into a free slot. *)
Lemma reopen_safe v i j f n :
  vfs_ok v -> fl_files v !! i = Some f -> f_inode f <> 0 -> fl_files v !! j = Some file_zero -> i <> j ->
  nodes (v_fs v) !! f_inode f = Some n ->
  exists r w, call_reopen fops no_mops_dup n f f (v_dev v) = Ok (r, w) /\
    vfs_ok (if r <? 0 then set_v_dev v w else opened v j f w).
Proof.
  intros Hv Hi Hz Hj Hij Hn. destruct (call_reopen_ok _ _ _ f Hv Hn) as (r & w & Hc & Hw).
  exists r, w. split; [done|]. destruct (r <? 0); [by apply ok_dev|]. apply ok_opened; try done.
  apply (proj1 (Forall_lookup _ _) (vi_files _ _ _ _ (vo_inv _ Hv)) _ _ Hi).
Qed.

Lemma file_dup2_safe v i j f g :
  vfs_ok v -> fl_files v !! i = Some f -> f_inode f <> 0 -> fl_files v !! j = Some g -> i <> j ->
  safe (file_dup2 fops no_mops_dup me v (Z.of_nat i) (Z.of_nat j)).
Proof.
  intros Hv Hi Hz Hj Hij. pose proof (vo_inv _ Hv) as Hinv. unfold file_dup2.
  rewrite (get_file_Ok _ _ _ Hi), bind_Ok, (proj2 (Z.eqb_neq _ 0) Hz).
  rewrite (semtake_ok me ext t) by done. rewrite bind_Ok.
  assert (exists r1 v1, _files_close fops me (set_fl_sem v 0) (Z.of_nat j) = Ok (r1, set_fl_sem v1 0) /\
    vfs_ok v1 /\ fl_files v1 !! i = Some f /\ fl_files v1 !! j = Some file_zero) as (r1 & v1 & -> & Hv1 & Hi1 & Hj1).
  { destruct (decide (f_inode g = 0)) as [Hg|Hg].
    - pose proof (free_slot _ _ _ _ _ _ Hinv Hj Hg) as ->. exists OK, v. split; [|done].
      unfold _files_close. by rewrite (get_file_Ok _ _ _ Hj : get_file (set_fl_sem v 0) _ = _), bind_Ok.
    - destruct (open_slot _ _ _ _ _ _ Hinv Hj Hg) as (n & Hn & _).
      destruct (call_close_ok _ _ _ g Hv Hn) as (r & w & Hc & Hw).
      rewrite (_files_close_spec fops me ext t _ _ _ _ _ _ _ Hinv Hj Hg Hn Hc).
      exists r, (closed v j (f_inode g) w). split; [done|]. split; [by apply ok_closed|]. cbn.
      split; [by rewrite list_lookup_insert_ne|]. apply list_lookup_insert_eq. by eapply lookup_lt_Some. }
  rewrite bind_Ok. pose proof (vo_inv _ Hv1) as Hinv1.
  destruct (r1 <? 0); [rewrite (semgive_ok me ext t) by done; by apply safe_ret|].
  destruct (open_slot _ _ _ _ _ _ Hinv1 Hi1 Hz) as (n & Hn & _).
  destruct (reopen_safe _ _ _ _ _ Hv1 Hi1 Hz Hj1 Hij Hn) as (r & w & Hc & Hok).
  pose proof (reopen_spec fops no_mops_dup me ext t _ _ _ _ _ _ _ Hinv1 Hi1 Hz Hj1 Hij Hn Hc) as HR. cbv zeta in HR |- *.
  rewrite HR. destruct (r <? 0); by apply safe_ret.
Qed.

Lemma dup2_safe v fd1 fd2 : vfs_ok v -> safe (dup2 fops no_mops_dup me v fd1 fd2).
Proof.
  intros Hv. unfold dup2.
  destruct (getfilep_ok v fd1 Hv) as [[_ ->]|(i & f & -> & Hf & -> & _)]; rewrite bind_Ok; [by apply safe_errno|].
  destruct (getfilep_ok v fd2 Hv) as [[_ ->]|(j & g & -> & Hg & -> & _)]; rewrite bind_Ok; [by apply safe_errno|].
  destruct (f_inode f =? 0) eqn:Ez; [by apply safe_errno|]. b2p.
  destruct (Z.of_nat i =? Z.of_nat j) eqn:Eij; [by apply safe_ret|]. b2p.
  apply safe_map_ok. eapply file_dup2_safe; try done. congruence.
Qed.

(** *** Input and output *)

Lemma node_of_slot v i f :
  vfs_ok v -> fl_files v !! i = Some f -> f_inode f <> 0 ->
  exists n, get_node (v_fs v) (f_inode f) = Ok n /\ (i_ops n <> 0 -> valid (i_ops n) (i_private n)).
Proof.
  intros Hv Hi Hz. destruct (open_slot _ _ _ _ _ _ (vo_inv _ Hv) Hi Hz) as (n & Hn & _). exists n.
  split; [by apply get_node_Ok|]. apply (vo_nodes _ Hv _ _ Hn).
Qed.

Lemma ioctl_safe v fd req arg : arg_ok req arg -> vfs_ok v -> safe ('(r, _, v) ← ioctl fops v fd req arg; Ok (r, v)).
Proof.
  intros Harg Hv. unfold ioctl.
  destruct (getfilep_ok v fd Hv) as [[-> ->]|(i & f & -> & Hf & -> & ->)]; [by apply safe_errno|].
  cbn [negb]. rewrite bind_Ok. unfold file_ioctl. destruct (f_inode f =? 0) eqn:Ez; [by apply safe_errno|]. b2p.
  destruct (node_of_slot _ _ _ Hv Hf Ez) as (n & -> & Hval). rewrite bind_Ok.
  destruct (i_ops n =? 0) eqn:Eo; [by apply safe_errno|]. b2p.
  destruct (fo_ioctl _) as [m|] eqn:Em; [|by apply safe_errno].
  destruct (drv_ioctl _ _ f (i_private n) req arg (v_dev v) Em (Hval Eo) Harg (vo_dev _ Hv)) as (r & arg' & w & -> & Hw).
  rewrite !bind_Ok. pose proof (ok_dev _ _ Hv Hw). destruct (r <? 0); rewrite bind_Ok; [by apply safe_errno|by apply safe_ret].
Qed.

Lemma read_safe v fd nb : vfs_ok v -> safe ('(r, _, v) ← read fops v fd nb; Ok (r, v)).
Proof.
  intros Hv. unfold read, nx_read.
  destruct (getfilep_ok v fd Hv) as [[-> ->]|(i & f & -> & Hf & -> & ->)]; [by apply safe_errno|].
  cbn [negb]. rewrite bind_Ok. unfold file_read. destruct (_ =? 0); [by apply safe_errno|].
  destruct (f_inode f =? 0) eqn:Ez; [by apply safe_errno|]. b2p.
  destruct (node_of_slot _ _ _ Hv Hf Ez) as (n & -> & Hval). rewrite bind_Ok.
  destruct (i_ops n =? 0) eqn:Eo; [by apply safe_errno|]. b2p.
  destruct (fo_read _) as [m|] eqn:Em; [|by apply safe_errno].
  destruct (drv_read _ _ f (i_private n) nb (v_dev v) Em (Hval Eo) (vo_dev _ Hv)) as (r & b & w & -> & Hw).
  rewrite !bind_Ok. pose proof (ok_dev _ _ Hv Hw). destruct (r <? 0); rewrite bind_Ok; [by apply safe_errno|by apply safe_ret].
Qed.

Lemma write_safe v fd b : vfs_ok v -> safe (write fops v fd (Some b)).
Proof.
  intros Hv. unfold write, nx_write.
  destruct (getfilep_ok v fd Hv) as [[-> ->]|(i & f & -> & Hf & -> & ->)]; [by apply safe_errno|].
  cbn [negb]. rewrite bind_Ok. unfold file_write. destruct (_ =? 0); [by apply safe_errno|].
  destruct (f_inode f =? 0) eqn:Ez; [by apply safe_errno|]. b2p.
  destruct (node_of_slot _ _ _ Hv Hf Ez) as (n & -> & Hval). rewrite bind_Ok.
  destruct (i_ops n =? 0) eqn:Eo; [by apply safe_errno|]. b2p.
  destruct (fo_write _) as [m|] eqn:Em; [|by apply safe_errno].
  destruct (drv_write _ _ f (i_private n) b (v_dev v) Em (Hval Eo) (vo_dev _ Hv)) as (r & w & -> & Hw).
  rewrite !bind_Ok. pose proof (ok_dev _ _ Hv Hw). destruct (r <? 0); [by apply safe_errno|by apply safe_ret].
Qed.

Lemma step_safe c v : call_ok c -> vfs_ok v -> safe (vfs_step c v).
Proof.
  destruct c; intros Hc Hv; cbn [vfs_step call_ok] in *.
  - unfold open, nx_vopen. by apply safe_map, open_path_safe.
  - by apply close_safe.
  - by apply dup_safe.
  - by apply dup2_safe.
  - by apply ioctl_safe.
  - by apply read_safe.
  - by apply write_safe.
Qed.

Lemma run_safe l v :
  Forall call_ok l -> vfs_ok v -> exists rs v', vfs_run l v = Ok (rs, v') /\ length rs = length l /\ vfs_ok v'.
Proof.
  intros Hl. revert v. induction Hl as [|c l Hc Hl IH]; intros v Hv; [by exists [], v|].
  cbn [vfs_run]. destruct (step_safe c v Hc Hv) as (r & v1 & -> & Hv1). rewrite bind_Ok.
  destruct (IH v1 Hv1) as (rs & v2 & -> & Hlen & Hv2). rewrite bind_Ok.
  exists (r :: rs), v2. split; [done|]. cbn. split; [lia|done].
Qed.
End Run.

(** ** A driver method that succeeds *)

Section Success.
Context {W A : Type} (fops : Z -> file_operations W A).
Context (block_proxy : vfs W -> list Z -> Z -> res (Z * vfs W)).
Context (mops_open : Z -> file -> list Z -> Z -> W -> res (Z * W)).
Context (me : Z) (ext : Z -> Z) (t : tree).

Lemma open_driver_ok (v : vfs W) p oflags a rest n k m r w :
  let f := mk_file oflags 0 a 0 in
  vfs_inv me ext t v -> deref p = SLASH -> cstring p -> skip_slashes p <> [] ->
  tlookup t (segs (skip_slashes p)) = Some (a, rest) -> nodes (v_fs v) !! a = Some n ->
  INODE_IS_DRIVER n = true -> i_ops n <> 0 -> inode_checkflags fops n oflags = OK ->
  first_free (fl_files v) 0 = Some k ->
  fo_open (fops (i_ops n)) = Some m -> m f (i_private n) (v_dev v) = Ok (r, w) -> 0 <= r ->
  open fops block_proxy mops_open me v (Some p) oflags = Ok (Z.of_nat k, opened v k f w) /\
  vfs_inv me ext t (opened v k f w) /\ a <> 0 /\ fl_files v !! k = Some file_zero.
Proof.
  intros f Hv Hd Hcs Hne El Hn Hdr Ho Hfl Hk Hm Hr H0.
  pose proof (vopen_path_spec fops block_proxy mops_open me ext t v p oflags Hv Hd Hcs Hne) as HS. rewrite El in HS.
  destruct HS as (n' & rel & Hn' & _ & HS). rewrite Hn in Hn'. injection Hn' as <-.
  rewrite driver_not_block in HS by done. unfold open_outcome in HS.
  rewrite Hdr, Hfl, Hk, (proj2 (Z.eqb_neq _ 0) Ho) in HS. cbn [negb andb orb OK Z.ltb Z.compare] in HS.
  assert (a <> 0) as Ha by (intros ->; by rewrite (vi_null _ _ _ _ Hv) in Hn).
  destruct (first_free_Some _ _ _ Hk) as (_ & (g & Hg & Hz) & _). pose proof (free_slot _ _ _ _ _ _ Hv Hg Hz) as ->.
  split_and!; [|apply inv_opened; [done..|by eexists]|done|done].
  unfold open, nx_vopen. rewrite (HS r w), bind_Ok by (unfold call_open; by rewrite Hm, driver_not_mount).
  by rewrite (proj2 (Z.ltb_ge r 0)), (proj2 (Z.ltb_ge (Z.of_nat k) 0)) by lia.
Qed.

Lemma ioctl_driver_ok (v : vfs W) i f n m req arg r arg' w :
  vfs_inv me ext t v -> fl_files v !! i = Some f -> f_inode f <> 0 -> nodes (v_fs v) !! f_inode f = Some n ->
  i_ops n <> 0 -> fo_ioctl (fops (i_ops n)) = Some m -> m f (i_private n) req arg (v_dev v) = Ok (r, arg', w) -> 0 <= r ->
  ioctl fops v (Z.of_nat i) req arg = Ok (r, arg', set_v_dev v w).
Proof.
  intros Hv Hi Hz Hn Ho Hm Hr H0. unfold ioctl, fs_getfilep. rewrite (fd_valid_nat _ _ _ _ _ _ Hv Hi). cbn [negb].
  rewrite (get_file_Ok _ _ _ Hi), !bind_Ok. unfold file_ioctl.
  rewrite (proj2 (Z.eqb_neq _ 0) Hz), (get_node_Ok _ _ n), bind_Ok, (proj2 (Z.eqb_neq _ 0) Ho), Hm, Hr, !bind_Ok by done.
  by rewrite (proj2 (Z.ltb_ge r 0)).
Qed.
End Success.

(** * The system calls of an application

    The interface through which the flight application uses the operating
    system, and its implementation by the calls of the virtual file system. *)

(** [S] is the state of the system; the argument of [ioctl], of type [A], may be
    changed by the call.  Other tasks may run during [sleep]. *)
Class Posix (S A : Type) := {
  sys_open : S -> list Z -> Z -> res (Z * S);
  sys_ioctl : S -> Z -> Z -> A -> res (Z * A * S);
  sys_close : S -> Z -> res (Z * S);
  sys_sleep : S -> Z -> res S
}.

(** The calls of task [me] on its files. *)
Definition vfs_posix {W A} (fops : Z -> file_operations W A) (me : Z) (sleep : vfs W -> Z -> res (vfs W))
    : Posix (vfs W) A := {|
  sys_open s p oflags := open fops no_proxy no_mops_open me s (Some p) oflags;
  sys_ioctl s fd req arg := ioctl fops s fd req arg;
  sys_close s fd := close fops me s fd;
  sys_sleep := sleep
|}.
