(* ===== verification/VfsProps.v ===== *)
(** * Properties of the file calls *)

From stdpp Require Import strings.
From S2P Require Import Prelude Inode InodeTree InodeOps InodeRemove InodeProps Vfs VfsInv VfsOps VfsRun.
Local Open Scope Z_scope.

(** ** A driver for the examples

    Its methods succeed and count the calls of [open] and [close]. *)

Definition count_fops (_ : Z) : file_operations Z unit :=
  mk_fops (Some (fun _ _ w => Ok (OK, w + 1))) (Some (fun _ _ w => Ok (OK, w - 1)))
    (Some (fun _ _ _ w => Ok (0, [], w))) None (Some (fun _ _ _ a w => Ok (OK, a, w))).

#[export] Instance count_drivers : Drivers count_fops (fun _ => True) (fun _ _ => True) (fun _ _ => True).
Proof. split; intros *; cbn; intros [= <-] *; by eauto 6. Qed.

Definition demo_vfs : vfs Z := mk_vfs demo_fs 1 (replicate 8 file_zero) 0 0.
Definition demo_ext (a : Z) : Z := if a =? 4160 then 1 else 0.

Lemma demo_node a n : nodes demo_fs !! a = Some n ->
  a = 4096 /\ n = mk_inode 0 4160 0 0 0 0 (cstr "dev") \/ a = 4160 /\ n = mk_inode 0 0 1 0 512 768 (cstr "pwm0").
Proof.
  cbn [nodes demo_fs]. intros [[<- <-]|[_ H]]%lookup_insert_Some; [by left|].
  apply lookup_singleton_Some in H as [<- <-]. by right.
Qed.

Lemma demo_inv_dev {W} (w : W) : vfs_inv 7 demo_ext demo_tree (mk_vfs demo_fs 1 (replicate 8 file_zero) w 0).
Proof.
  split; try done.
  - apply demo_fs_tree.
  - apply demo_fs_free.
  - apply Forall_replicate. done.
  - intros i f Hf. apply lookup_replicate in Hf as [-> _]. done.
  - intros a n [[-> ->]|[-> ->]]%demo_node; vm_compute; done.
Qed.

Lemma demo_vfs_inv : vfs_inv 7 demo_ext demo_tree demo_vfs.
Proof. apply demo_inv_dev. Qed.

Lemma demo_vfs_ok : vfs_ok 7 (fun _ => True) (fun _ _ => True) demo_ext demo_tree demo_vfs.
Proof. split; [apply demo_vfs_inv| |done]. intros a n [[-> ->]|[-> ->]]%demo_node; done. Qed.

(** ** Any sequence of calls *)

(** C9: With drivers whose methods return, any sequence of [open], [close], [dup],
    [dup2], [ioctl], [read] and [write] returns: no call follows a dangling
    pointer or blocks on a lock left taken.  Afterwards every open descriptor
    refers to a live node, and the reference count of every node is the number of
    descriptors on it plus the references from elsewhere. *)
Theorem vfs_run_safe {W A} (fops : Z -> file_operations W A) me dev_ok valid arg_ok `{!Drivers fops dev_ok valid arg_ok}
    ext t (l : list (call A)) (v : vfs W) :
  Forall (call_ok arg_ok) l -> vfs_ok me dev_ok valid ext t v ->
  exists rs v', vfs_run fops me l v = Ok (rs, v') /\ length rs = length l /\ vfs_ok me dev_ok valid ext t v'.
Proof. apply run_safe. apply _. Qed.

Lemma vfs_run_safe_witness : exists rs v',
  vfs_run count_fops 7 [COpen (cstr "/dev/pwm0") O_RDONLY; CDup 0; CDup2 0 5; CClose 0; CClose 0] demo_vfs = Ok (rs, v') /\
  rs = [0; 1; 0; 0; -1].
Proof.
  destruct (vfs_run_safe count_fops 7 (fun _ => True) (fun _ _ => True) (fun _ _ => True) demo_ext demo_tree
    [COpen (cstr "/dev/pwm0") O_RDONLY; CDup 0; CDup2 0 5; CClose 0; CClose 0] demo_vfs) as (rs & v' & H & _).
  - repeat constructor.
  - exact demo_vfs_ok.
  - exists rs, v'. split; [exact H|]. apply (f_equal (fun x => match x with Ok (r, _) => r | Err _ => [] end)) in H.
    vm_compute in H. symmetry. exact H.
Defined.

(** ** Opening *)

(** C31: [open] of a path that leads to a character driver.  An unknown path, a node
    without operations, an access the driver does not support and a full file
    list are refused with their error and nothing changes.  Otherwise the driver's
    [open], if it has one, is called with the new file; if it fails, its error is reported and
    the file list and the reference counts are as before, and if it succeeds the
    lowest free descriptor refers to the node, which has one more reference. *)
Theorem open_correct {W A} (fops : Z -> file_operations W A) block_proxy mops_open me ext t (v : vfs W) p oflags :
  vfs_inv me ext t v -> deref p = SLASH -> cstring p -> skip_slashes p <> [] ->
  match tlookup t (segs (skip_slashes p)) with
  | None => open fops block_proxy mops_open me v (Some p) oflags = Ok (ERROR, set_errno v ENOENT)
  | Some (a, rest) => exists n, nodes (v_fs v) !! a = Some n /\ (INODE_IS_DRIVER n = true ->
      let out := open fops block_proxy mops_open me v (Some p) oflags in
      if i_ops n =? 0 then out = Ok (ERROR, set_errno v ENXIO)
      else if inode_checkflags fops n oflags <? 0 then out = Ok (ERROR, set_errno v EACCES)
      else match first_free (fl_files v) 0 with
           | None => out = Ok (ERROR, set_errno v EMFILE)
           | Some k => forall r w, let f := mk_file oflags 0 a 0 in
               match fo_open (fops (i_ops n)) with Some m => m f (i_private n) (v_dev v) | None => Ok (OK, v_dev v) end = Ok (r, w) ->
               out = Ok (if r <? 0 then (ERROR, set_errno (set_v_dev v w) (- r)) else (Z.of_nat k, opened v k f w))
           end)
  end.
Proof.
  intros Hv Hd Hcs Hne. pose proof (vopen_path_spec fops block_proxy mops_open me ext t v p oflags Hv Hd Hcs Hne) as HS.
  unfold open, nx_vopen. destruct (tlookup t _) as [[a rest]|]; [|by rewrite HS].
  destruct HS as (n & rel & Hn & _ & HS). exists n. split; [done|]. intros Hdr. cbv zeta.
  rewrite driver_not_block in HS by done. unfold open_outcome in HS. rewrite Hdr in HS. cbn [negb andb orb] in HS.
  destruct (i_ops n =? 0); [by rewrite HS|]. destruct (_ <? 0); [by rewrite HS|].
  destruct (first_free _ _) as [k|]; [|by rewrite HS]. intros r w Hr.
  rewrite (HS r w), bind_Ok by (unfold call_open; destruct (fo_open _); by rewrite ?driver_not_mount).
  destruct (r <? 0) eqn:E; [by rewrite E|]. by rewrite (proj2 (Z.ltb_ge _ _)) by lia.
Qed.

Lemma open_witness : open count_fops no_proxy no_mops_open 7 demo_vfs (Some (cstr "/dev/pwm0")) O_RDONLY =
  Ok (0, opened demo_vfs 0 (mk_file O_RDONLY 0 4160 0) 1).
Proof.
  destruct (open_correct count_fops no_proxy no_mops_open 7 demo_ext demo_tree demo_vfs (cstr "/dev/pwm0") O_RDONLY
    demo_vfs_inv eq_refl dev_pwm_cstring ltac:(discriminate)) as (n & Hn & H).
  injection Hn as <-. specialize (H eq_refl). cbv zeta in H.
  apply (H OK 1). reflexivity.
Defined.

(** ** Closing *)

(** [close] of a descriptor that is not open is refused with [EBADF] and nothing
    else changes.  Otherwise the driver's [close] is called and, whatever it
    returns, the descriptor is free again and its node has one reference less;
    an error of the driver is reported. *)
Theorem close_correct {W A} (fops : Z -> file_operations W A) me ext t (v : vfs W) fd :
  vfs_inv me ext t v ->
  match (if fd_valid fd then fl_files v !! Z.to_nat fd else None) with
  | None => close fops me v fd = Ok (ERROR, set_errno v EBADF)
  | Some f =>
      if f_inode f =? 0 then close fops me v fd = Ok (ERROR, set_errno v EBADF)
      else exists n, nodes (v_fs v) !! f_inode f = Some n /\
        forall r w, call_close fops n f (v_dev v) = Ok (r, w) ->
          let v' := closed v (Z.to_nat fd) (f_inode f) w in
          close fops me v fd = Ok (if r <? 0 then (ERROR, set_errno v' (- r)) else (OK, v'))
  end.
Proof.
  intros Hv. destruct (fd_valid fd) eqn:E; [|unfold close; by rewrite E].
  destruct (fd_valid_slot _ _ _ _ _ Hv E) as (i & f & -> & Hf). rewrite Nat2Z.id, Hf.
  destruct (f_inode f =? 0) eqn:Ez; b2p.
  - apply (close_bad fops me ext t); [done|]. intros j g Hj Hg. apply Nat2Z.inj in Hj as <-. congruence.
  - destruct (open_slot _ _ _ _ _ _ Hv Hf Ez) as (n & Hn & _). exists n. split; [done|]. intros r w Hc.
    by apply (close_spec fops me ext t v i f n).
Qed.

Lemma close_witness : close count_fops 7 demo_vfs 3 = Ok (ERROR, set_errno demo_vfs EBADF).
Proof. exact (close_correct count_fops 7 demo_ext demo_tree demo_vfs 3 demo_vfs_inv). Defined.

Lemma opened_closed {W} (v : vfs W) k f w w' :
  fl_files v !! k = Some file_zero -> closed (opened v k f w) k (f_inode f) w' = set_v_dev v w'.
Proof.
  intros Hk. destruct v as [st s l dev e]. unfold closed, opened, set_v_dev. cbn in *.
  rewrite add_refs_add, add_refs_0, list_insert_insert_eq. f_equal. by apply list_insert_id.
Qed.

(** C32: Opening a driver and closing the descriptor again leaves the file list and
    every reference count as they were; only the devices may have changed. *)
Theorem open_close_roundtrip {W A} (fops : Z -> file_operations W A) block_proxy mops_open me ext t (v : vfs W)
    p oflags a rest n k mo mc r1 w1 r2 w2 :
  let f := mk_file oflags 0 a 0 in
  vfs_inv me ext t v -> deref p = SLASH -> cstring p -> skip_slashes p <> [] ->
  tlookup t (segs (skip_slashes p)) = Some (a, rest) -> nodes (v_fs v) !! a = Some n ->
  INODE_IS_DRIVER n = true -> i_ops n <> 0 -> inode_checkflags fops n oflags = OK ->
  first_free (fl_files v) 0 = Some k ->
  fo_open (fops (i_ops n)) = Some mo -> mo f (i_private n) (v_dev v) = Ok (r1, w1) -> 0 <= r1 ->
  fo_close (fops (i_ops n)) = Some mc -> mc f (i_private n) w1 = Ok (r2, w2) -> 0 <= r2 ->
  exists v1, open fops block_proxy mops_open me v (Some p) oflags = Ok (Z.of_nat k, v1) /\
    close fops me v1 (Z.of_nat k) = Ok (OK, set_v_dev v w2).
Proof.
  intros f Hv Hd Hcs Hne El Hn Hdr Ho Hfl Hk Hmo Hr1 H1 Hmc Hr2 H2.
  destruct (open_driver_ok fops block_proxy mops_open me ext t v p oflags a rest n k mo r1 w1) as (-> & Hv1 & Ha & Hg);
    [done..|]. eexists. split; [done|].
  rewrite (close_spec fops me ext t _ k f (set_i_crefs n (i_crefs n + 1)) r2 w2).
  - rewrite (proj2 (Z.ltb_ge r2 0)) by lia. by rewrite opened_closed.
  - done.
  - cbn. apply list_lookup_insert_eq. by eapply lookup_lt_Some.
  - done.
  - cbn. by rewrite lookup_alter_eq, Hn.
  - unfold call_close. cbn [i_ops set_i_crefs i_private]. by rewrite (proj2 (Z.eqb_neq _ 0) Ho), Hmc.
Qed.

Lemma open_close_roundtrip_witness : exists v1,
  open count_fops no_proxy no_mops_open 7 demo_vfs (Some (cstr "/dev/pwm0")) O_RDONLY = Ok (0, v1) /\
  close count_fops 7 v1 0 = Ok (OK, demo_vfs).
Proof.
  apply (open_close_roundtrip count_fops no_proxy no_mops_open 7 demo_ext demo_tree demo_vfs (cstr "/dev/pwm0") O_RDONLY
    4160 [] (mk_inode 0 0 1 0 512 768 (cstr "pwm0")) 0 (fun _ _ w => Ok (OK, w + 1)) (fun _ _ w => Ok (OK, w - 1))
    OK 1 OK 0 demo_vfs_inv eq_refl dev_pwm_cstring); try reflexivity; discriminate.
Defined.

(** ** The end of a task *)

(** [files_releaselist], called when a task exits, always returns.  It closes every
    descriptor that is still open: all slots are free afterwards, the lock is free,
    and the reference count of every node is the number of references from
    outside the task. *)
Theorem files_releaselist_correct {W A} (fops : Z -> file_operations W A) me dev_ok valid arg_ok
    `{!Drivers fops dev_ok valid arg_ok} ext t (v : vfs W) :
  vfs_ok me dev_ok valid ext t v ->
  exists v', files_releaselist fops me v = Ok v' /\ vfs_ok me dev_ok valid ext t v' /\
    fl_files v' = replicate 8 file_zero /\ forall a n, nodes (v_fs v') !! a = Some n -> a <> 0 -> i_crefs n = ext a.
Proof.
  intros Hv. unfold files_releaselist.
  change (releaselist_loop _ _ _ v 0) with (releaselist_loop fops me 8 v (Z.of_nat 0)).
  destruct (releaselist_ok fops me dev_ok valid arg_ok ext t 8 0 v) as (v' & -> & Hv' & Hz); [done|done|intros; lia|].
  rewrite bind_Ok. pose proof (vo_inv _ _ _ _ _ _ Hv') as Hi. rewrite (vi_lock _ _ _ _ Hi).
  replace (set_fl_sem v' 1) with v' by (rewrite <- (vi_lock _ _ _ _ Hi); by destruct v'). exists v'. split; [done|].
  assert (fl_files v' = replicate 8 file_zero) as E.
  { symmetry. apply replicate_as_Forall. split; [by rewrite (vi_len _ _ _ _ Hi)|]. apply Forall_lookup. intros j f Hf.
    symmetry. by apply (Hz j). }
  split_and!; [done|done|]. intros a n Hn Ha. destruct (vi_refs _ _ _ _ Hi _ _ Hn) as (_ & -> & _). rewrite E.
  unfold opens, replicate. by rewrite !filter_cons_False by (cbn; lia).
Qed.

Lemma files_releaselist_witness : exists v1 v', vfs_run count_fops 7 [COpen (cstr "/dev/pwm0") O_RDONLY; CDup 0] demo_vfs = Ok ([0; 1], v1) /\
  files_releaselist count_fops 7 v1 = Ok v' /\ fl_files v' = replicate 8 file_zero.
Proof.
  destruct (run_safe count_fops 7 (fun _ => True) (fun _ _ => True) (fun _ _ => True) demo_ext demo_tree
    [COpen (cstr "/dev/pwm0") O_RDONLY; CDup 0] demo_vfs) as (rs & v1 & E & _ & Hv1);
    [repeat constructor|exact demo_vfs_ok|].
  destruct (files_releaselist_correct count_fops 7 (fun _ => True) (fun _ _ => True) (fun _ _ => True) demo_ext demo_tree v1 Hv1)
    as (v' & E' & _ & Hf & _).
  exists v1, v'. split; [|split; [exact E'|exact Hf]]. rewrite E. f_equal. f_equal.
  apply (f_equal (fun x => match x with Ok (r, _) => r | Err _ => [] end)) in E. vm_compute in E. symmetry. exact E.
Defined.

(** ** What the calls do not guard against *)

(** [dup] does not tell the driver about the new descriptor, while [close] tells
    it about every one: after [open], [dup] and one [close] the driver has been
    closed as often as opened, although descriptor 1 is still open on it. *)
Theorem dup_skips_driver_open :
  exists rs v', vfs_run count_fops 7 [COpen (cstr "/dev/pwm0") O_RDONLY; CDup 0; CClose 0] demo_vfs = Ok (rs, v') /\
    rs = [0; 1; 0] /\ v_dev v' = v_dev demo_vfs /\ f_inode <$> fl_files v' !! 1%nat = Some 4160.
Proof. eexists _, _. split; [vm_compute; reflexivity|]. by vm_compute. Qed.

(** [file_dup], which [fcntl(F_DUPFD)] calls with the caller's number, does not
    check the lowest descriptor it is given: for a negative one it reads memory
    before the file list. *)
Theorem file_dup_negative {W} me ext t (v : vfs W) i f minfd :
  vfs_inv me ext t v -> fl_files v !! i = Some f -> f_inode f <> 0 -> minfd < 0 ->
  file_dup me v f minfd = Err (BadAddr minfd).
Proof.
  intros Hv Hi Hz Hm. unfold file_dup. rewrite (proj2 (Z.eqb_neq _ 0) Hz).
  destruct (open_slot _ _ _ _ _ _ Hv Hi Hz) as (n & Hn & _ & Hc).
  rewrite (inode_addref_spec _ _ (vi_sem _ _ _ _ Hv) _ n), bind_Ok by (done || lia).
  unfold files_allocate, _files_semtake. cbn [fl_sem set_v_fs]. rewrite (vi_lock _ _ _ _ Hv). cbn [Z.ltb Z.compare].
  rewrite bind_Ok. destruct (Z.to_nat (CONFIG_NFILE_DESCRIPTORS - minfd)) eqn:E.
  { unfold CONFIG_NFILE_DESCRIPTORS in E. lia. }
  cbn [allocate_loop]. unfold get_file. by rewrite (proj2 (Z.ltb_lt minfd 0) Hm).
Qed.

Lemma file_dup_negative_witness :
  file_dup 7 (opened demo_vfs 0 (mk_file O_RDONLY 0 4160 0) 1) (mk_file O_RDONLY 0 4160 0) (-1) = Err (BadAddr (-1)).
Proof.
  apply (file_dup_negative 7 demo_ext demo_tree _ 0); [|reflexivity|discriminate|lia].
  apply inv_opened; [exact demo_vfs_inv|reflexivity|reflexivity|discriminate|]. eexists. reflexivity.
Defined.
