(* ===== verification/Hw.v ===== *)
(** * Memory-mapped registers of the STM32F405

    The accesses that the chip's drivers are written with: [getreg16],
    [putreg16], [getreg32], [putreg32] of [arch/arm/src/common/up_arch.h], and
    the read-modify-write functions [up_modifyreg16.c], [up_modifyreg32.c].

    The hardware behind the registers is not part of the sources.  It is a
    parameter, the class [Hw], and the class [HwLaws] states what the reference
    manual (RM0090) says of the registers the modelled drivers use: the general
    purpose timer TIM2, the GPIO ports with the bits of their outputs, the sources of
    external interrupts, and the clock and reset controller.
    [sim_hw] is an instance for the examples. *)

From S2P Require Import Prelude Bits.
Local Open Scope Z_scope.

(** ** The accesses *)

(** [hw_val h a] is what the register at address [a] holds. *)
Class Hw (H : Type) := {
  hw_val : H -> Z -> Z;
  getreg16 : H -> Z -> Z;
  getreg32 : H -> Z -> Z;
  putreg16 : H -> Z -> Z -> H;
  putreg32 : H -> Z -> Z -> H
}.

(** [x &= ~m] on an unsigned [x]. *)
Abbreviation clrbits := Z.ldiff.

Definition modifyreg16 `{Hw H} (h : H) (addr clearbits setbits : Z) : H :=
  let regval := getreg16 h addr in
  let regval := clrbits regval clearbits in
  let regval := Z.lor regval setbits in
  putreg16 h regval addr.

Definition modifyreg32 `{Hw H} (h : H) (addr clearbits setbits : Z) : H :=
  let regval := getreg32 h addr in
  let regval := clrbits regval clearbits in
  let regval := Z.lor regval setbits in
  putreg32 h regval addr.

(** ** Addresses *)

Definition STM32_TIM2_BASE : Z := 0x40000000.
Definition STM32_GPIOA_BASE : Z := 0x40020000.
Definition STM32_RCC_BASE : Z := 0x40023800.
Definition STM32_RCC_APB1RSTR : Z := STM32_RCC_BASE + 0x20.
Definition STM32_RCC_AHB1ENR : Z := STM32_RCC_BASE + 0x30.
Definition STM32_RCC_APB1ENR : Z := STM32_RCC_BASE + 0x40.
Definition STM32_RCC_APB2ENR : Z := STM32_RCC_BASE + 0x44.
Definition RCC_APB1ENR_TIM2EN : Z := Z.shiftl 1 0.
Definition RCC_APB1RSTR_TIM2RST : Z := Z.shiftl 1 0.

Definition STM32_GTIM_CR1_OFFSET : Z := 0x00.
Definition STM32_GTIM_CR2_OFFSET : Z := 0x04.
Definition STM32_GTIM_DIER_OFFSET : Z := 0x0c.
Definition STM32_GTIM_SR_OFFSET : Z := 0x10.
Definition STM32_GTIM_EGR_OFFSET : Z := 0x14.
Definition STM32_GTIM_CCMR1_OFFSET : Z := 0x18.
Definition STM32_GTIM_CCMR2_OFFSET : Z := 0x1c.
Definition STM32_GTIM_CCER_OFFSET : Z := 0x20.
Definition STM32_GTIM_CNT_OFFSET : Z := 0x24.
Definition STM32_GTIM_PSC_OFFSET : Z := 0x28.
Definition STM32_GTIM_ARR_OFFSET : Z := 0x2c.
Definition STM32_GTIM_CCR1_OFFSET : Z := 0x34.
Definition STM32_GTIM_CCR2_OFFSET : Z := 0x38.
Definition STM32_GTIM_CCR3_OFFSET : Z := 0x3c.
Definition STM32_GTIM_CCR4_OFFSET : Z := 0x40.
Definition STM32_ATIM_BDTR_OFFSET : Z := 0x44.

Definition STM32_GPIO_MODER_OFFSET : Z := 0x00.
Definition STM32_GPIO_OTYPER_OFFSET : Z := 0x04.
Definition STM32_GPIO_OSPEED_OFFSET : Z := 0x08.
Definition STM32_GPIO_PUPDR_OFFSET : Z := 0x0c.
Definition STM32_GPIO_IDR_OFFSET : Z := 0x10.
Definition STM32_GPIO_ODR_OFFSET : Z := 0x14.
Definition STM32_GPIO_BSRR_OFFSET : Z := 0x18.
Definition STM32_GPIO_AFRL_OFFSET : Z := 0x20.
Definition STM32_GPIO_AFRH_OFFSET : Z := 0x24.

(** ** What the reference manual says *)

(** The registers of TIM2 that hold what was written to them: those of 16 bits
    and those of 32.  [CNT], [SR], [EGR] and the interrupt enables are not among
    them. *)
Definition tim_reg16 (a : Z) : bool :=
  existsb (Z.eqb (a - STM32_TIM2_BASE))
    [STM32_GTIM_CR1_OFFSET; STM32_GTIM_CR2_OFFSET; STM32_GTIM_CCMR1_OFFSET; STM32_GTIM_CCMR2_OFFSET;
     STM32_GTIM_CCER_OFFSET; STM32_GTIM_PSC_OFFSET].
Definition tim_reg32 (a : Z) : bool :=
  existsb (Z.eqb (a - STM32_TIM2_BASE))
    [STM32_GTIM_ARR_OFFSET; STM32_GTIM_CCR1_OFFSET; STM32_GTIM_CCR2_OFFSET; STM32_GTIM_CCR3_OFFSET; STM32_GTIM_CCR4_OFFSET].

(** The configuration registers of the nine GPIO ports, at distances of 1 KiB. *)
Definition gpio_port (a : Z) : Z := Z.shiftr (a - STM32_GPIOA_BASE) 10.
Definition gpio_reg (a : Z) : bool :=
  (0 <=? gpio_port a) && (gpio_port a <? 9) &&
  existsb (Z.eqb (Z.land (a - STM32_GPIOA_BASE) 1023))
    [STM32_GPIO_MODER_OFFSET; STM32_GPIO_OTYPER_OFFSET; STM32_GPIO_OSPEED_OFFSET; STM32_GPIO_PUPDR_OFFSET;
     STM32_GPIO_ODR_OFFSET; STM32_GPIO_AFRL_OFFSET; STM32_GPIO_AFRH_OFFSET].

Definition rcc_reg (a : Z) : bool := (a =? STM32_RCC_AHB1ENR) || (a =? STM32_RCC_APB1ENR) || (a =? STM32_RCC_APB2ENR).

(** The sources of the external interrupts. *)
Definition STM32_SYSCFG_BASE : Z := 0x40013800.
Definition exti_reg (a : Z) : bool := existsb (Z.eqb (a - STM32_SYSCFG_BASE)) [0x08; 0x0c; 0x10; 0x14].

Definition reg32 (a : Z) : bool := tim_reg32 a || gpio_reg a || rcc_reg a || exti_reg a.
Definition storage (a : Z) : bool := tim_reg16 a || reg32 a.

(** Registers whose writing has effects elsewhere, but on no configuration. *)
Definition tim_event (a : Z) : bool :=
  existsb (Z.eqb (a - STM32_TIM2_BASE)) [STM32_GTIM_DIER_OFFSET; STM32_GTIM_SR_OFFSET; STM32_GTIM_EGR_OFFSET].

(** The register that sets and resets output bits of a port, which are in [ODR]. *)
Definition bsrr (a : Z) : bool :=
  (0 <=? gpio_port a) && (gpio_port a <? 9) && (Z.land (a - STM32_GPIOA_BASE) 1023 =? STM32_GPIO_BSRR_OFFSET).
Definition odr_of (a : Z) : Z := a - STM32_GPIO_BSRR_OFFSET + STM32_GPIO_ODR_OFFSET.

(** The low half of what is written there sets bits, the high half resets them; a
    bit in both is set. *)
Definition set_reset (odr v : Z) : Z := Z.lor (clrbits odr (Z.shiftr v 16)) (Z.land v 0xffff).

(** A register answers while the clock of its peripheral is enabled. *)
Definition clock_on (val : Z -> Z) (a : Z) : bool :=
  if gpio_reg a then Z.testbit (val STM32_RCC_AHB1ENR) (gpio_port a)
  else if rcc_reg a then true
  else if exti_reg a then Z.testbit (val STM32_RCC_APB2ENR) 14
  else Z.testbit (val STM32_RCC_APB1ENR) 0.

(** The bits that can be written; the others read as zero. *)
Definition wmask (a : Z) : Z :=
  let o := a - STM32_TIM2_BASE in
  if o =? STM32_GTIM_CR1_OFFSET then 0x3ff
  else if o =? STM32_GTIM_CR2_OFFSET then 0xf8
  else if o =? STM32_GTIM_CCER_OFFSET then 0xbbbb
  else if tim_reg16 a then 0xffff
  else if gpio_reg a && ((Z.land (a - STM32_GPIOA_BASE) 1023 =? STM32_GPIO_OTYPER_OFFSET) ||
                         (Z.land (a - STM32_GPIOA_BASE) 1023 =? STM32_GPIO_ODR_OFFSET)) then 0xffff
  else if exti_reg a then 0xffff
  else if a =? STM32_RCC_AHB1ENR then 0x7e7411ff
  else if a =? STM32_RCC_APB1ENR then 0x36fec9ff
  else if a =? STM32_RCC_APB2ENR then 0x75f33
  else 0xffffffff.

Definition legal (a v : Z) : Prop := clrbits v (wmask a) = 0.

(** What a reset of TIM2 leaves in its registers. *)
Definition reset_val (a : Z) : Z := if a =? STM32_TIM2_BASE + STM32_GTIM_ARR_OFFSET then 0xffffffff else 0.

Definition upd (f : Z -> Z) (a v b : Z) : Z := if b =? a then v else f b.

(** The ports are not locked: no code writes their lock registers. *)
Class HwLaws (H : Type) `{Hw H} : Prop := {
  hw_legal h a : storage a = true -> legal a (hw_val h a);
  hw_get16 h a : tim_reg16 a = true -> clock_on (hw_val h) a = true -> getreg16 h a = hw_val h a;
  hw_get32 h a : reg32 a = true -> clock_on (hw_val h) a = true -> getreg32 h a = hw_val h a;
  hw_put16 h v a b : tim_reg16 a = true -> clock_on (hw_val h) a = true -> legal a v -> storage b = true ->
    hw_val (putreg16 h v a) b = upd (hw_val h) a v b;
  hw_put32 h v a b : reg32 a = true -> clock_on (hw_val h) a = true -> legal a v -> storage b = true ->
    hw_val (putreg32 h v a) b = upd (hw_val h) a v b;
  hw_event h v a b : tim_event a = true -> storage b = true -> hw_val (putreg16 h v a) b = hw_val h b;
  hw_bsrr h v a b : bsrr a = true -> clock_on (hw_val h) (odr_of a) = true -> storage b = true ->
    hw_val (putreg32 h v a) b = upd (hw_val h) (odr_of a) (set_reset (hw_val h (odr_of a)) v) b;
  hw_reset h v b : storage b = true ->
    hw_val (putreg32 h v STM32_RCC_APB1RSTR) b =
    if Z.testbit v 0 && (tim_reg16 b || tim_reg32 b) then reset_val b else hw_val h b
}.

(** ** Bits *)

Lemma legal_bits a v : legal a v <-> forall i, 0 <= i -> Z.testbit v i = true -> Z.testbit (wmask a) i = true.
Proof.
  unfold legal. split.
  - intros E i Hi Hv. assert (Z.testbit (clrbits v (wmask a)) i = false) as F by (by rewrite E, Z.bits_0).
    rewrite Z.ldiff_spec, Hv in F. by destruct (Z.testbit (wmask a) i).
  - intros Hb. apply Z.bits_inj'. intros i Hi. rewrite Z.ldiff_spec, Z.bits_0.
    destruct (Z.testbit v i) eqn:E; [|done]. by rewrite (Hb i Hi E).
Qed.

Lemma legal_lor a v w : legal a v -> legal a w -> legal a (Z.lor v w).
Proof.
  rewrite !legal_bits. intros Hv Hw i Hi. rewrite Z.lor_spec, orb_true_iff. intros [?|?]; eauto.
Qed.

Lemma legal_clr a v m : legal a v -> legal a (clrbits v m).
Proof.
  rewrite !legal_bits. intros Hv i Hi. rewrite Z.ldiff_spec, andb_true_iff. intros [? _]. eauto.
Qed.

Lemma legal_land a v : legal a v -> Z.land v (wmask a) = v.
Proof.
  rewrite legal_bits. intros Hv. apply Z.bits_inj'. intros i Hi. rewrite Z.land_spec.
  destruct (Z.testbit v i) eqn:E; [|done]. by rewrite (Hv i Hi E).
Qed.

Lemma legal_small a v n : 0 <= n -> wmask a = Z.ones n -> 0 <= v < 2 ^ n -> legal a v.
Proof.
  intros Hn E Hv. rewrite legal_bits, E. intros i Hi Hb. destruct (decide (i < n)).
  - by apply Z.ones_spec_low.
  - by rewrite (testbit_high v n) in Hb by lia.
Qed.

(** ** The accesses as functions on register contents

    [hw_is h f]: the registers hold [f].  A driver that stays within the laws
    transforms [f] by updates. *)

Section Regs.
Context {H : Type} `{HwLaws H}.

Definition hw_is (h : H) (f : Z -> Z) : Prop := forall a, storage a = true -> hw_val h a = f a.

Lemma hw_is_val h : hw_is h (hw_val h).
Proof. by intros a. Qed.

Lemma storage16 a : tim_reg16 a = true -> storage a = true.
Proof. unfold storage. by intros ->. Qed.

Lemma storage32 a : reg32 a = true -> storage a = true.
Proof. unfold storage. intros ->. apply orb_true_r. Qed.

Lemma hw_is_clock h f a : hw_is h f -> clock_on (hw_val h) a = clock_on f a.
Proof. intros Hf. unfold clock_on. by rewrite !Hf. Qed.

Lemma hw_is_legal h f a : hw_is h f -> storage a = true -> legal a (f a).
Proof. intros Hf Ha. rewrite <- Hf by done. by apply hw_legal. Qed.

Lemma get16_is h f a : hw_is h f -> tim_reg16 a = true -> clock_on f a = true -> getreg16 h a = f a.
Proof. intros Hf Ha Hc. rewrite hw_get16 by (done || by rewrite (hw_is_clock h f)). by apply Hf, storage16. Qed.

Lemma get32_is h f a : hw_is h f -> reg32 a = true -> clock_on f a = true -> getreg32 h a = f a.
Proof. intros Hf Ha Hc. rewrite hw_get32 by (done || by rewrite (hw_is_clock h f)). by apply Hf, storage32. Qed.

Lemma hw_is_upd h h' f a v :
  hw_is h f -> (forall b, storage b = true -> hw_val h' b = upd (hw_val h) a v b) -> hw_is h' (upd f a v).
Proof. intros Hf Hu b Hb. rewrite Hu by done. unfold upd. destruct (b =? a); [done|]. by apply Hf. Qed.

Lemma put16_is h f a v :
  hw_is h f -> tim_reg16 a = true -> clock_on f a = true -> legal a v -> hw_is (putreg16 h v a) (upd f a v).
Proof.
  intros Hf Ha Hc Hl. apply (hw_is_upd h); [done|]. intros b Hb. apply hw_put16; try done. by rewrite (hw_is_clock h f).
Qed.

Lemma put32_is h f a v :
  hw_is h f -> reg32 a = true -> clock_on f a = true -> legal a v -> hw_is (putreg32 h v a) (upd f a v).
Proof.
  intros Hf Ha Hc Hl. apply (hw_is_upd h); [done|]. intros b Hb. apply hw_put32; try done. by rewrite (hw_is_clock h f).
Qed.

Lemma modify16_is h f a c s :
  hw_is h f -> tim_reg16 a = true -> clock_on f a = true -> legal a s ->
  hw_is (modifyreg16 h a c s) (upd f a (Z.lor (clrbits (f a) c) s)).
Proof.
  intros Hf Ha Hc Hs. unfold modifyreg16. rewrite (get16_is h f) by done. apply put16_is; try done.
  apply legal_lor, Hs. apply legal_clr. by apply (hw_is_legal h), storage16.
Qed.

Lemma modify32_is h f a c s :
  hw_is h f -> reg32 a = true -> clock_on f a = true -> legal a s ->
  hw_is (modifyreg32 h a c s) (upd f a (Z.lor (clrbits (f a) c) s)).
Proof.
  intros Hf Ha Hc Hs. unfold modifyreg32. rewrite (get32_is h f) by done. apply put32_is; try done.
  apply legal_lor, Hs. apply legal_clr. by apply (hw_is_legal h), storage32.
Qed.

Lemma event_is h f a v : hw_is h f -> tim_event a = true -> hw_is (putreg16 h v a) f.
Proof. intros Hf Ha b Hb. rewrite hw_event by done. by apply Hf. Qed.

Lemma bsrr_is h f a v :
  hw_is h f -> bsrr a = true -> storage (odr_of a) = true -> clock_on f (odr_of a) = true ->
  hw_is (putreg32 h v a) (upd f (odr_of a) (set_reset (f (odr_of a)) v)).
Proof.
  intros Hf Ha Hs Hc. apply (hw_is_upd h); [done|]. intros b Hb. rewrite <- (Hf _ Hs). apply hw_bsrr; try done.
  by rewrite (hw_is_clock h f).
Qed.

Definition reset_tim (f : Z -> Z) (a : Z) : Z := if tim_reg16 a || tim_reg32 a then reset_val a else f a.

Lemma reset_is h f v :
  hw_is h f -> hw_is (putreg32 h v STM32_RCC_APB1RSTR) (if Z.testbit v 0 then reset_tim f else f).
Proof.
  intros Hf b Hb. rewrite hw_reset by done. unfold reset_tim. destruct (Z.testbit v 0); cbn [andb]; [|by apply Hf].
  destruct (_ || _); [done|]. by apply Hf.
Qed.
End Regs.

(** ** A simulated chip *)

Abbreviation sim := (gmap Z Z).

Definition sim_val (h : sim) (a : Z) : Z := Z.land (default (reset_val a) (h !! a)) (wmask a).

#[export] Instance sim_hw : Hw sim := {|
  hw_val := sim_val;
  getreg16 h a := if clock_on (sim_val h) a then Z.land (sim_val h a) 0xffff else 0;
  getreg32 h a := if clock_on (sim_val h) a then sim_val h a else 0;
  putreg16 h v a := if tim_reg16 a && clock_on (sim_val h) a then <[a := v]> h else h;
  putreg32 h v a :=
    if a =? STM32_RCC_APB1RSTR then
      if Z.testbit v 0 then filter (fun e => tim_reg16 e.1 || tim_reg32 e.1 = false) h else h
    else if bsrr a then
      if clock_on (sim_val h) (odr_of a) then <[odr_of a := set_reset (sim_val h (odr_of a)) v]> h else h
    else if reg32 a && clock_on (sim_val h) a then <[a := v]> h else h
|}.

Lemma sim_insert (h : sim) a v b : legal a v -> sim_val (<[a := v]> h) b = upd (sim_val h) a v b.
Proof.
  intros Hl. unfold sim_val, upd. destruct (Z.eqb_spec b a) as [->|Hn].
  - rewrite lookup_insert_eq. by apply legal_land.
  - by rewrite lookup_insert_ne by done.
Qed.

Lemma reg16_small a : tim_reg16 a = true -> Z.land (wmask a) 0xffff = wmask a.
Proof.
  unfold tim_reg16, wmask. intros E. repeat (destruct (_ =? _) in |- *; [done|]).
  unfold tim_reg16. by rewrite E.
Qed.

Lemma reg32_not_rstr a : reg32 a = true -> (a =? STM32_RCC_APB1RSTR) = false.
Proof. intros Ha. apply Z.eqb_neq. by intros ->. Qed.

(** A register of a list, as one of its addresses. *)
Lemma existsb_addr a b l : existsb (Z.eqb (a - b)) l = true -> a ∈ (Z.add b) <$> l.
Proof. intros (x & Hx & <-%Z.eqb_eq)%existsb_exists. apply list_elem_of_fmap. exists (a - b). rewrite list_elem_of_In. split; [lia|done]. Qed.

Lemma tim_event_not16 a : tim_event a = true -> tim_reg16 a = false.
Proof. intros Ha%existsb_addr. cbn in Ha. by repeat (apply elem_of_cons in Ha as [->|Ha]); [..|by apply elem_of_nil in Ha]. Qed.

Lemma bsrr_not32 a : bsrr a = true -> reg32 a = false.
Proof.
  unfold bsrr. intros Hb. assert (Z.land (a - STM32_GPIOA_BASE) 1023 = STM32_GPIO_BSRR_OFFSET /\ 0 <= gpio_port a < 9) as [Ho Hp] by (b2p; lia).
  apply not_true_is_false. unfold reg32. intros [[[Hr|Hr]%orb_true_iff|Hr]%orb_true_iff|Hr]%orb_true_iff.
  - apply existsb_addr in Hr. cbn in Hr. by repeat (apply elem_of_cons in Hr as [->|Hr]); [..|by apply elem_of_nil in Hr].
  - unfold gpio_reg in Hr. rewrite Ho in Hr. cbn in Hr. by rewrite andb_false_r in Hr.
  - apply orb_true_iff in Hr as [[E|E]%orb_true_iff|E]; by apply Z.eqb_eq in E as ->.
  - apply existsb_addr in Hr. cbn in Hr. by repeat (apply elem_of_cons in Hr as [->|Hr]); [..|by apply elem_of_nil in Hr].
Qed.

Lemma bsrr_odr a : bsrr a = true -> wmask (odr_of a) = 0xffff.
Proof.
  unfold bsrr. intros Hb. assert (Z.land (a - STM32_GPIOA_BASE) 1023 = STM32_GPIO_BSRR_OFFSET /\ 0 <= gpio_port a < 9) as [Ho Hp] by (b2p; lia).
  assert (exists q, 0 <= q < 9 /\ a = STM32_GPIOA_BASE + 1024 * q + STM32_GPIO_BSRR_OFFSET) as (q & Hq & ->).
  { exists (gpio_port a). split; [done|]. unfold gpio_port in *. rewrite Z.shiftr_div_pow2 by done. change 1023 with (Z.ones 10) in Ho.
    rewrite Z.land_ones in Ho by done. pose proof (Z.div_mod (a - STM32_GPIOA_BASE) (2 ^ 10) ltac:(done)). lia. }
  assert (q ∈ [0; 1; 2; 3; 4; 5; 6; 7; 8]) as Hi by (rewrite !elem_of_cons; lia).
  by repeat (apply elem_of_cons in Hi as [->|Hi]); [..|by apply elem_of_nil in Hi].
Qed.

Lemma set_reset_legal a odr v : wmask a = 0xffff -> legal a odr -> legal a (set_reset odr v).
Proof.
  intros Hm Hl. apply legal_lor; [by apply legal_clr|]. rewrite legal_bits, Hm. intros i Hi. rewrite Z.land_spec, andb_true_iff. tauto.
Qed.

Lemma reset_legal a : tim_reg16 a || tim_reg32 a = true -> Z.land (reset_val a) (wmask a) = reset_val a.
Proof.
  intros [E%existsb_addr|E%existsb_addr]%orb_true_iff; cbn in E;
    (by repeat (apply elem_of_cons in E as [->|E]); [..|by apply elem_of_nil in E]).
Qed.

#[export] Instance sim_laws : HwLaws sim.
Proof.
  split; cbn [hw_val getreg16 getreg32 putreg16 putreg32 sim_hw].
  - intros h a _. rewrite legal_bits. intros i Hi. unfold sim_val. rewrite Z.land_spec, andb_true_iff. by intros [_ ?].
  - intros h a Ha ->. unfold sim_val. by rewrite <- Z.land_assoc, reg16_small.
  - by intros h a Ha ->.
  - intros h v a b Ha Hc Hl Hb. rewrite Ha, Hc. by apply sim_insert.
  - intros h v a b Ha Hc Hl Hb. rewrite reg32_not_rstr by done. destruct (bsrr a) eqn:E; [by rewrite (bsrr_not32 a E) in Ha|].
    rewrite Ha, Hc. by apply sim_insert.
  - intros h v a b Ha Hb. by rewrite tim_event_not16.
  - intros h v a b Ha Hc Hb. destruct (a =? STM32_RCC_APB1RSTR) eqn:E; [apply Z.eqb_eq in E as ->; by vm_compute in Ha|].
    rewrite Ha, Hc. apply sim_insert, set_reset_legal; [by apply bsrr_odr|]. rewrite legal_bits. intros i Hi.
    unfold sim_val. rewrite Z.land_spec, andb_true_iff. by intros [_ ?].
  - intros h v b Hb. rewrite Z.eqb_refl. destruct (Z.testbit v 0); [cbn [andb]|done].
    unfold sim_val. destruct (tim_reg16 b || tim_reg32 b) eqn:E.
    + rewrite map_lookup_filter_None_2; [by apply reset_legal|]. right. intros x _. cbn [fst]. by rewrite E.
    + do 2 f_equal. destruct (h !! b) as [x|] eqn:Ex.
      * by apply map_lookup_filter_Some_2.
      * apply map_lookup_filter_None_2. by left.
Qed.
