(* ===== verification/Gpio.v ===== *)
(** * The pins

    Model of [arch/arm/src/stm32/stm32_gpio.c] for the STM32F405: the
    configuration of a pin from its encoding in [stm32_gpio.h], writing and
    reading it.  The theorem says that configuring a pin configures exactly that
    pin, as its encoding says. *)

From S2P Require Import Prelude Bits Inode Hw.
Local Open Scope Z_scope.

(** ** Encoding of a pin *)

Definition GPIO_MODE_SHIFT : Z := 18.
Definition GPIO_MODE_MASK : Z := Z.shiftl 3 GPIO_MODE_SHIFT.
Definition GPIO_INPUT : Z := Z.shiftl 0 GPIO_MODE_SHIFT.
Definition GPIO_OUTPUT : Z := Z.shiftl 1 GPIO_MODE_SHIFT.
Definition GPIO_ALT : Z := Z.shiftl 2 GPIO_MODE_SHIFT.
Definition GPIO_ANALOG : Z := Z.shiftl 3 GPIO_MODE_SHIFT.

Definition GPIO_PUPD_SHIFT : Z := 16.
Definition GPIO_PUPD_MASK : Z := Z.shiftl 3 GPIO_PUPD_SHIFT.
Definition GPIO_FLOAT : Z := Z.shiftl 0 GPIO_PUPD_SHIFT.
Definition GPIO_PULLUP : Z := Z.shiftl 1 GPIO_PUPD_SHIFT.
Definition GPIO_PULLDOWN : Z := Z.shiftl 2 GPIO_PUPD_SHIFT.

Definition GPIO_AF_SHIFT : Z := 12.
Definition GPIO_AF_MASK : Z := Z.shiftl 15 GPIO_AF_SHIFT.
Definition GPIO_AF1 : Z := Z.shiftl 1 GPIO_AF_SHIFT.

Definition GPIO_SPEED_SHIFT : Z := 10.
Definition GPIO_SPEED_MASK : Z := Z.shiftl 3 GPIO_SPEED_SHIFT.
Definition GPIO_SPEED_2MHz : Z := Z.shiftl 0 GPIO_SPEED_SHIFT.
Definition GPIO_SPEED_25MHz : Z := Z.shiftl 1 GPIO_SPEED_SHIFT.
Definition GPIO_SPEED_50MHz : Z := Z.shiftl 2 GPIO_SPEED_SHIFT.
Definition GPIO_SPEED_100MHz : Z := Z.shiftl 3 GPIO_SPEED_SHIFT.

Definition GPIO_OPENDRAIN : Z := Z.shiftl 1 9.
Definition GPIO_PUSHPULL : Z := 0.
Definition GPIO_OUTPUT_SET : Z := Z.shiftl 1 8.
Definition GPIO_EXTI : Z := Z.shiftl 1 8.

Definition GPIO_PORT_SHIFT : Z := 4.
Definition GPIO_PORT_MASK : Z := Z.shiftl 15 GPIO_PORT_SHIFT.
Definition GPIO_PORTA : Z := Z.shiftl 0 GPIO_PORT_SHIFT.
Definition GPIO_PIN_SHIFT : Z := 0.
Definition GPIO_PIN_MASK : Z := Z.shiftl 15 GPIO_PIN_SHIFT.

(** ** Fields of the port registers *)

Definition GPIO_MODER_INPUT : Z := 0.
Definition GPIO_MODER_OUTPUT : Z := 1.
Definition GPIO_MODER_ALT : Z := 2.
Definition GPIO_MODER_ANALOG : Z := 3.
Definition GPIO_MODER_SHIFT (n : Z) : Z := Z.shiftl n 1.
Definition GPIO_MODER_MASK (n : Z) : Z := Z.shiftl 3 (GPIO_MODER_SHIFT n).
Definition GPIO_PUPDR_NONE : Z := 0.
Definition GPIO_PUPDR_PULLUP : Z := 1.
Definition GPIO_PUPDR_PULLDOWN : Z := 2.
Definition GPIO_PUPDR_SHIFT (n : Z) : Z := Z.shiftl n 1.
Definition GPIO_PUPDR_MASK (n : Z) : Z := Z.shiftl 3 (GPIO_PUPDR_SHIFT n).
Definition GPIO_AFR_SHIFT (n : Z) : Z := Z.shiftl n 2.
Definition GPIO_AFR_MASK (n : Z) : Z := Z.shiftl 15 (GPIO_AFR_SHIFT n).
Definition GPIO_OSPEED_2MHz : Z := 0.
Definition GPIO_OSPEED_25MHz : Z := 1.
Definition GPIO_OSPEED_50MHz : Z := 2.
Definition GPIO_OSPEED_100MHz : Z := 3.
Definition GPIO_OSPEED_SHIFT (n : Z) : Z := Z.shiftl n 1.
Definition GPIO_OSPEED_MASK (n : Z) : Z := Z.shiftl 3 (GPIO_OSPEED_SHIFT n).
Definition GPIO_OTYPER_OD (n : Z) : Z := Z.shiftl 1 n.
Definition GPIO_BSRR_SET (n : Z) : Z := Z.shiftl 1 n.
Definition GPIO_BSRR_RESET (n : Z) : Z := Z.shiftl 1 (n + 16).

Definition STM32_SYSCFG_EXTICR (p : Z) : Z := STM32_SYSCFG_BASE + (0x08 + Z.land p 0x0c).
Definition SYSCFG_EXTICR_PORT_MASK : Z := 15.
Definition SYSCFG_EXTICR_EXTI_SHIFT (g : Z) : Z := Z.shiftl (Z.land g 3) 2.

(** The nine ports of the chip, A to I. *)
Definition STM32_NGPIO_PORTS : Z := Z.shiftr (139 + 15) 4.
Definition g_gpiobase : list Z :=
  [STM32_GPIOA_BASE; 0x40020400; 0x40020800; 0x40020c00; 0x40021000; 0x40021400; 0x40021800; 0x40021c00; 0x40022000].

(** ** The operations *)

Section Gpio.
Context {H : Type} `{Hw H}.

Definition stm32_gpiowrite (h : H) (pinset : Z) (value : bool) : H :=
  let port := Z.shiftr (Z.land pinset GPIO_PORT_MASK) GPIO_PORT_SHIFT in
  if port <? STM32_NGPIO_PORTS then
    let base := nth (Z.to_nat port) g_gpiobase 0 in
    let pin := Z.shiftr (Z.land pinset GPIO_PIN_MASK) GPIO_PIN_SHIFT in
    let bit := if value then GPIO_BSRR_SET pin else GPIO_BSRR_RESET pin in
    putreg32 h bit (base + STM32_GPIO_BSRR_OFFSET)
  else h.

Definition stm32_gpioread (h : H) (pinset : Z) : bool :=
  let port := Z.shiftr (Z.land pinset GPIO_PORT_MASK) GPIO_PORT_SHIFT in
  if port <? STM32_NGPIO_PORTS then
    let base := nth (Z.to_nat port) g_gpiobase 0 in
    let pin := Z.shiftr (Z.land pinset GPIO_PIN_MASK) GPIO_PIN_SHIFT in
    negb (Z.land (getreg32 h (base + STM32_GPIO_IDR_OFFSET)) (Z.shiftl 1 pin) =? 0)
  else false.

(** The mode of a pin; an output gets its initial value first. *)
Definition config_mode (h : H) (cfgset : Z) : Z * H :=
  let m := Z.land cfgset GPIO_MODE_MASK in
  if m =? GPIO_OUTPUT then
    (GPIO_MODER_OUTPUT, stm32_gpiowrite h cfgset (negb (Z.land cfgset GPIO_OUTPUT_SET =? 0)))
  else if m =? GPIO_ALT then (GPIO_MODER_ALT, h)
  else if m =? GPIO_ANALOG then (GPIO_MODER_ANALOG, h)
  else (GPIO_MODER_INPUT, h).

Definition config_pupd (cfgset pinmode : Z) : Z :=
  if negb (pinmode =? GPIO_MODER_ANALOG) then
    let p := Z.land cfgset GPIO_PUPD_MASK in
    if p =? GPIO_PULLUP then GPIO_PUPDR_PULLUP
    else if p =? GPIO_PULLDOWN then GPIO_PUPDR_PULLDOWN
    else GPIO_PUPDR_NONE
  else GPIO_PUPDR_NONE.

Definition config_speed (cfgset pinmode : Z) : Z :=
  if (pinmode =? GPIO_MODER_OUTPUT) || (pinmode =? GPIO_MODER_ALT) then
    let s := Z.land cfgset GPIO_SPEED_MASK in
    if s =? GPIO_SPEED_25MHz then GPIO_OSPEED_25MHz
    else if s =? GPIO_SPEED_50MHz then GPIO_OSPEED_50MHz
    else if s =? GPIO_SPEED_100MHz then GPIO_OSPEED_100MHz
    else GPIO_OSPEED_2MHz
  else 0.

(** One field of a register: [regval &= ~mask; regval |= setting]. *)
Definition put_field (h : H) (a mask setting : Z) : H :=
  let regval := getreg32 h a in
  let regval := clrbits regval mask in
  let regval := Z.lor regval setting in
  putreg32 h regval a.

(** The alternate function, in the low or the high register. *)
Definition config_af (h : H) (base pin cfgset pinmode : Z) : H :=
  let setting := if pinmode =? GPIO_MODER_ALT then Z.shiftr (Z.land cfgset GPIO_AF_MASK) GPIO_AF_SHIFT else 0 in
  let '(regoffset, pos) := if pin <? 8 then (STM32_GPIO_AFRL_OFFSET, pin) else (STM32_GPIO_AFRH_OFFSET, pin - 8) in
  put_field h (base + regoffset) (GPIO_AFR_MASK pos) (Z.shiftl setting (GPIO_AFR_SHIFT pos)).

(** Push-pull or open-drain. *)
Definition config_type (h : H) (base pin cfgset pinmode : Z) : H :=
  let regval := getreg32 h (base + STM32_GPIO_OTYPER_OFFSET) in
  let setting := GPIO_OTYPER_OD pin in
  let regval :=
    if ((pinmode =? GPIO_MODER_OUTPUT) || (pinmode =? GPIO_MODER_ALT)) && negb (Z.land cfgset GPIO_OPENDRAIN =? 0)
    then Z.lor regval setting else clrbits regval setting in
  putreg32 h regval (base + STM32_GPIO_OTYPER_OFFSET).

(** The source of an external interrupt. *)
Definition config_exti (h : H) (port pin cfgset pinmode : Z) : H :=
  if negb (pinmode =? GPIO_MODER_OUTPUT) && negb (Z.land cfgset GPIO_EXTI =? 0) then
    let shift := SYSCFG_EXTICR_EXTI_SHIFT pin in
    put_field h (STM32_SYSCFG_EXTICR pin) (Z.shiftl SYSCFG_EXTICR_PORT_MASK shift) (Z.shiftl port shift)
  else h.

Definition stm32_configgpio (h : H) (cfgset : Z) : Z * H :=
  let port := Z.shiftr (Z.land cfgset GPIO_PORT_MASK) GPIO_PORT_SHIFT in
  if STM32_NGPIO_PORTS <=? port then (- EINVAL, h)
  else
    let base := nth (Z.to_nat port) g_gpiobase 0 in
    let pin := Z.shiftr (Z.land cfgset GPIO_PIN_MASK) GPIO_PIN_SHIFT in
    let '(pinmode, h) := config_mode h cfgset in
    let h := put_field h (base + STM32_GPIO_MODER_OFFSET) (GPIO_MODER_MASK pin) (Z.shiftl pinmode (GPIO_MODER_SHIFT pin)) in
    let setting := config_pupd cfgset pinmode in
    let h := put_field h (base + STM32_GPIO_PUPDR_OFFSET) (GPIO_PUPDR_MASK pin) (Z.shiftl setting (GPIO_PUPDR_SHIFT pin)) in
    let h := config_af h base pin cfgset pinmode in
    let setting := config_speed cfgset pinmode in
    let h := put_field h (base + STM32_GPIO_OSPEED_OFFSET) (GPIO_OSPEED_MASK pin) (Z.shiftl setting (GPIO_OSPEED_SHIFT pin)) in
    let h := config_type h base pin cfgset pinmode in
    let h := config_exti h port pin cfgset pinmode in
    (OK, h).

Definition stm32_unconfiggpio (h : H) (cfgset : Z) : Z * H :=
  let cfgset := Z.land cfgset (Z.lor GPIO_PORT_MASK GPIO_PIN_MASK) in
  let cfgset := Z.lor cfgset (Z.lor GPIO_INPUT GPIO_FLOAT) in
  stm32_configgpio h cfgset.
End Gpio.
