(* ===== verification/GpioProps.v ===== *)
(** * Configuring a pin configures that pin only *)

From S2P Require Import Prelude Bits Inode Hw Gpio.
Local Open Scope Z_scope.

(** ** What a pin does, from the registers of its port *)

Record pin_state := mk_pin { p_mode : Z; p_pupd : Z; p_af : Z; p_speed : Z; p_od : Z }.

Definition gpio_addr (q off : Z) : Z := STM32_GPIOA_BASE + 1024 * q + off.

Definition pin_of (f : Z -> Z) (q p : Z) : pin_state := mk_pin
  (field 2 (2 * p) (f (gpio_addr q STM32_GPIO_MODER_OFFSET)))
  (field 2 (2 * p) (f (gpio_addr q STM32_GPIO_PUPDR_OFFSET)))
  (if p <? 8 then field 4 (4 * p) (f (gpio_addr q STM32_GPIO_AFRL_OFFSET))
   else field 4 (4 * (p - 8)) (f (gpio_addr q STM32_GPIO_AFRH_OFFSET)))
  (field 2 (2 * p) (f (gpio_addr q STM32_GPIO_OSPEED_OFFSET)))
  (field 1 p (f (gpio_addr q STM32_GPIO_OTYPER_OFFSET))).

(** What an encoding asks for: only driven pins have a speed and an output type,
    only pins with an alternate function have one, analog pins have no pull. *)
Definition cfg_port (cfg : Z) : Z := field 4 4 cfg.
Definition cfg_pin (cfg : Z) : Z := field 4 0 cfg.
Definition cfg_state (cfg : Z) : pin_state :=
  let mode := field 2 18 cfg in
  let driven := (mode =? 1) || (mode =? 2) in
  mk_pin mode
    (if mode =? 3 then 0 else if field 2 16 cfg =? 3 then 0 else field 2 16 cfg)
    (if mode =? 2 then field 4 12 cfg else 0)
    (if driven then field 2 10 cfg else 0)
    (if driven then field 1 9 cfg else 0).

(** The registers of port [q] with pin [p] in a given state. *)
Definition set_reg (f : Z -> Z) (q off w k v : Z) : Z -> Z :=
  let a := gpio_addr q off in upd f a (Z.lor (clrbits (f a) (Z.shiftl (Z.ones w) k)) (Z.shiftl v k)).

Definition set_pin (f : Z -> Z) (q p : Z) (s : pin_state) : Z -> Z :=
  let f := set_reg f q STM32_GPIO_MODER_OFFSET 2 (2 * p) (p_mode s) in
  let f := set_reg f q STM32_GPIO_PUPDR_OFFSET 2 (2 * p) (p_pupd s) in
  let f := if p <? 8 then set_reg f q STM32_GPIO_AFRL_OFFSET 4 (4 * p) (p_af s)
           else set_reg f q STM32_GPIO_AFRH_OFFSET 4 (4 * (p - 8)) (p_af s) in
  let f := set_reg f q STM32_GPIO_OSPEED_OFFSET 2 (2 * p) (p_speed s) in
  set_reg f q STM32_GPIO_OTYPER_OFFSET 1 p (p_od s).

(** The level that a port puts out on a pin while it is an output. *)
Definition out_of (f : Z -> Z) (q p : Z) : Z := field 1 p (f (gpio_addr q STM32_GPIO_ODR_OFFSET)).

(** The port whose pin number [p] causes the external interrupt [p]. *)
Definition exti_of (f : Z -> Z) (p : Z) : Z := field 4 (4 * (p mod 4)) (f (STM32_SYSCFG_EXTICR p)).

Definition set_exti (f : Z -> Z) (p q : Z) : Z -> Z :=
  let a := STM32_SYSCFG_EXTICR p in
  upd f a (Z.lor (clrbits (f a) (Z.shiftl (Z.ones 4) (4 * (p mod 4)))) (Z.shiftl q (4 * (p mod 4)))).

(** The same bit of the encoding is the initial level of an output, and asks for an
    external interrupt otherwise. *)
Definition cfg_out (cfg : Z) : bool := field 2 18 cfg =? 1.
Definition cfg_exti (cfg : Z) : bool := negb (cfg_out cfg) && (field 1 8 cfg =? 1).

(** All that an encoding asks for. *)
Definition set_cfg (f : Z -> Z) (cfg : Z) : Z -> Z :=
  let f := if cfg_out cfg then set_reg f (cfg_port cfg) STM32_GPIO_ODR_OFFSET 1 (cfg_pin cfg) (field 1 8 cfg) else f in
  let f := set_pin f (cfg_port cfg) (cfg_pin cfg) (cfg_state cfg) in
  if cfg_exti cfg then set_exti f (cfg_pin cfg) (cfg_port cfg) else f.

(** ** Addresses *)

Definition gpio_offs : list Z :=
  [STM32_GPIO_MODER_OFFSET; STM32_GPIO_OTYPER_OFFSET; STM32_GPIO_OSPEED_OFFSET; STM32_GPIO_PUPDR_OFFSET;
   STM32_GPIO_ODR_OFFSET; STM32_GPIO_AFRL_OFFSET; STM32_GPIO_AFRH_OFFSET].

(** The bits of a register of a port. *)
Definition gpio_width (off : Z) : Z := if (off =? STM32_GPIO_OTYPER_OFFSET) || (off =? STM32_GPIO_ODR_OFFSET) then 16 else 32.

Lemma port_cases q : 0 <= q < 9 -> q ∈ [0; 1; 2; 3; 4; 5; 6; 7; 8].
Proof. intros Hq. rewrite !elem_of_cons. lia. Qed.

(** Prove a goal for each element of a list. *)
Ltac each H := cbn in H; repeat (apply elem_of_cons in H as [->|H]); [..|by apply elem_of_nil in H].

Lemma gpio_addr_reg q off : 0 <= q < 9 -> off ∈ gpio_offs ->
  reg32 (gpio_addr q off) = true /\ gpio_reg (gpio_addr q off) = true /\ gpio_port (gpio_addr q off) = q /\
  wmask (gpio_addr q off) = Z.ones (gpio_width off).
Proof. intros Hq%port_cases Ho. each Ho; each Hq; by vm_compute. Qed.

Lemma gpiobase q : 0 <= q < 9 -> nth (Z.to_nat q) g_gpiobase 0 = gpio_addr q 0.
Proof. intros Hq%port_cases. each Hq; by vm_compute. Qed.

Lemma gpio_bsrr q : 0 <= q < 9 ->
  bsrr (gpio_addr q STM32_GPIO_BSRR_OFFSET) = true /\ odr_of (gpio_addr q STM32_GPIO_BSRR_OFFSET) = gpio_addr q STM32_GPIO_ODR_OFFSET.
Proof. intros Hq%port_cases. each Hq; by vm_compute. Qed.

Lemma pin_cases p : 0 <= p < 16 -> p ∈ [0; 1; 2; 3; 4; 5; 6; 7; 8; 9; 10; 11; 12; 13; 14; 15].
Proof. intros Hp. rewrite !elem_of_cons. lia. Qed.

Lemma exticr_reg p : 0 <= p < 16 ->
  exti_reg (STM32_SYSCFG_EXTICR p) = true /\ reg32 (STM32_SYSCFG_EXTICR p) = true /\ gpio_reg (STM32_SYSCFG_EXTICR p) = false /\
  rcc_reg (STM32_SYSCFG_EXTICR p) = false /\ wmask (STM32_SYSCFG_EXTICR p) = Z.ones 16 /\
  STM32_SYSCFG_EXTICR p = STM32_SYSCFG_BASE + 8 + 4 * (p / 4) /\ SYSCFG_EXTICR_EXTI_SHIFT p = 4 * (p mod 4).
Proof. intros Hp%pin_cases. each Hp; by vm_compute. Qed.

(** ** The parts of the encoding *)

Lemma field_cases k x : field 2 k x ∈ [0; 1; 2; 3].
Proof. pose proof (field_range 2 k x ltac:(lia)). rewrite !elem_of_cons. lia. Qed.

Lemma port_field cfg : Z.shiftr (Z.land cfg GPIO_PORT_MASK) GPIO_PORT_SHIFT = cfg_port cfg.
Proof. by apply (shiftr_field 4 4). Qed.

Lemma pin_field cfg : Z.shiftr (Z.land cfg GPIO_PIN_MASK) GPIO_PIN_SHIFT = cfg_pin cfg.
Proof. by apply (shiftr_field 4 0). Qed.

Lemma pupd_field cfg mode : mode = field 2 18 cfg -> config_pupd cfg mode = p_pupd (cfg_state cfg).
Proof.
  intros ->. unfold config_pupd, GPIO_MODER_ANALOG, cfg_state. cbn [p_pupd].
  change GPIO_PUPD_MASK with (Z.shiftl (Z.ones 2) 16). unfold GPIO_PULLUP, GPIO_PULLDOWN, GPIO_PUPD_SHIFT.
  rewrite !land_field by done. destruct (_ =? 3); cbn [negb]; [done|]. pose proof (field_cases 16 cfg) as Hf.
  revert Hf. generalize (field 2 16 cfg). intros x Hf. by each Hf.
Qed.

Lemma speed_field cfg mode : mode = field 2 18 cfg -> config_speed cfg mode = p_speed (cfg_state cfg).
Proof.
  intros ->. unfold config_speed, GPIO_MODER_OUTPUT, GPIO_MODER_ALT, cfg_state. cbn [p_speed].
  change GPIO_SPEED_MASK with (Z.shiftl (Z.ones 2) 10).
  unfold GPIO_SPEED_25MHz, GPIO_SPEED_50MHz, GPIO_SPEED_100MHz, GPIO_SPEED_SHIFT.
  rewrite !land_field by done. destruct (_ || _); [|done]. pose proof (field_cases 10 cfg) as Hf.
  revert Hf. generalize (field 2 10 cfg). intros x Hf. by each Hf.
Qed.

(** ** The registers with one pin set *)

Record pin_ok (s : pin_state) : Prop := {
  ok_mode : 0 <= p_mode s < 2 ^ 2; ok_pupd : 0 <= p_pupd s < 2 ^ 2; ok_af : 0 <= p_af s < 2 ^ 4;
  ok_speed : 0 <= p_speed s < 2 ^ 2; ok_od : 0 <= p_od s < 2 ^ 1
}.

Lemma cfg_state_ok cfg : pin_ok (cfg_state cfg).
Proof.
  pose proof (field_range 2 18 cfg ltac:(lia)). pose proof (field_range 2 16 cfg ltac:(lia)).
  pose proof (field_range 4 12 cfg ltac:(lia)). pose proof (field_range 2 10 cfg ltac:(lia)).
  pose proof (field_range 1 9 cfg ltac:(lia)). split; cbn; repeat split_if; lia.
Qed.

Lemma set_reg_get f q off w k v q' off' :
  off ∈ gpio_offs -> off' ∈ gpio_offs ->
  set_reg f q off w k v (gpio_addr q' off') =
  if (q' =? q) && (off' =? off)
  then Z.lor (clrbits (f (gpio_addr q off)) (Z.shiftl (Z.ones w) k)) (Z.shiftl v k)
  else f (gpio_addr q' off').
Proof.
  intros Ho Ho'. unfold set_reg, upd.
  assert (0 <= off < 1024) by (clear - Ho; by each Ho). assert (0 <= off' < 1024) by (clear - Ho'; by each Ho').
  destruct (Z.eqb_spec q' q) as [->|Hq]; cbn [andb].
  - destruct (Z.eqb_spec off' off) as [->|]; [by rewrite Z.eqb_refl|]. rewrite (proj2 (Z.eqb_neq _ _)); [done|].
    unfold gpio_addr. lia.
  - rewrite (proj2 (Z.eqb_neq _ _)); [done|]. unfold gpio_addr. lia.
Qed.

Ltac offs := apply (bool_decide_unpack _); vm_compute; exact I.

Lemma set_pin_get f q p s q' p' :
  pin_ok s -> 0 <= p < 16 -> 0 <= p' < 16 ->
  pin_of (set_pin f q p s) q' p' = if (q' =? q) && (p' =? p) then s else pin_of f q' p'.
Proof.
  intros [H1 H2 H3 H4 H5] Hp Hp'. unfold set_pin, pin_of.
  destruct (Z.ltb_spec p 8), (Z.ltb_spec p' 8);
    rewrite !set_reg_get by offs; cbn [STM32_GPIO_MODER_OFFSET STM32_GPIO_OTYPER_OFFSET STM32_GPIO_OSPEED_OFFSET
      STM32_GPIO_PUPDR_OFFSET STM32_GPIO_AFRL_OFFSET STM32_GPIO_AFRH_OFFSET Z.eqb Pos.eqb];
    rewrite ?Z.eqb_refl, ?andb_false_r, ?andb_true_r; (destruct (Z.eqb_spec q' q) as [->|]; [|done]); cbn [andb];
    (destruct (Z.eqb_spec p' p) as [->|]; [first [lia|rewrite !field_set by lia; by destruct s]|rewrite !field_other by lia; done]).
Qed.

Lemma set_reg_other f q off w k v a : 0 <= q < 9 -> off ∈ gpio_offs -> gpio_reg a = false -> set_reg f q off w k v a = f a.
Proof.
  intros Hq Ho Ha. unfold set_reg, upd. destruct (a =? gpio_addr q off) eqn:E; [|done]. apply Z.eqb_eq in E as ->.
  destruct (gpio_addr_reg q off Hq Ho) as (_ & Hg & _). congruence.
Qed.

Lemma set_pin_other f q p s a : 0 <= q < 9 -> gpio_reg a = false -> set_pin f q p s a = f a.
Proof. intros Hq Ha. unfold set_pin. destruct (p <? 8); by rewrite !set_reg_other by (done || offs). Qed.

(** ** The output level and the external interrupt *)

Lemma set_pin_out f q p s q' p' : out_of (set_pin f q p s) q' p' = out_of f q' p'.
Proof.
  unfold out_of, set_pin. destruct (p <? 8); rewrite !set_reg_get by offs;
    cbn [STM32_GPIO_MODER_OFFSET STM32_GPIO_OTYPER_OFFSET STM32_GPIO_OSPEED_OFFSET STM32_GPIO_PUPDR_OFFSET STM32_GPIO_ODR_OFFSET
      STM32_GPIO_AFRL_OFFSET STM32_GPIO_AFRH_OFFSET Z.eqb Pos.eqb]; by rewrite ?andb_false_r.
Qed.

Lemma set_out_pin f q k v q' p' : pin_of (set_reg f q STM32_GPIO_ODR_OFFSET 1 k v) q' p' = pin_of f q' p'.
Proof.
  unfold pin_of. rewrite !set_reg_get by offs.
  cbn [STM32_GPIO_MODER_OFFSET STM32_GPIO_OTYPER_OFFSET STM32_GPIO_OSPEED_OFFSET STM32_GPIO_PUPDR_OFFSET STM32_GPIO_ODR_OFFSET
      STM32_GPIO_AFRL_OFFSET STM32_GPIO_AFRH_OFFSET Z.eqb Pos.eqb]. by rewrite ?andb_false_r.
Qed.

Lemma set_out_get f q p v q' p' : 0 <= p < 16 -> 0 <= p' < 16 -> 0 <= v < 2 ->
  out_of (set_reg f q STM32_GPIO_ODR_OFFSET 1 p v) q' p' = if (q' =? q) && (p' =? p) then v else out_of f q' p'.
Proof.
  intros Hp Hp' Hv. unfold out_of. rewrite set_reg_get, Z.eqb_refl, andb_true_r by offs.
  destruct (Z.eqb_spec q' q) as [->|]; [|done]. cbn [andb].
  destruct (Z.eqb_spec p' p) as [->|]; [by rewrite field_set by lia|by rewrite field_other by lia].
Qed.

Lemma set_exti_other f p q a : 0 <= p < 16 -> exti_reg a = false -> set_exti f p q a = f a.
Proof.
  intros Hp Ha. unfold set_exti, upd. destruct (a =? STM32_SYSCFG_EXTICR p) eqn:E; [|done]. apply Z.eqb_eq in E as ->.
  destruct (exticr_reg p Hp) as [E _]. congruence.
Qed.

Lemma set_exti_get f p q p' : 0 <= p < 16 -> 0 <= p' < 16 -> 0 <= q < 16 ->
  exti_of (set_exti f p q) p' = if p' =? p then q else exti_of f p'.
Proof.
  intros Hp Hp' Hq. unfold exti_of, set_exti, upd. destruct (exticr_reg p Hp) as (_ & _ & _ & _ & _ & E & _).
  destruct (exticr_reg p' Hp') as (_ & _ & _ & _ & _ & E' & _). pose proof (Z.div_mod p 4 ltac:(done)). pose proof (Z.div_mod p' 4 ltac:(done)).
  pose proof (Z.mod_pos_bound p 4 ltac:(done)). pose proof (Z.mod_pos_bound p' 4 ltac:(done)).
  destruct (Z.eqb_spec p' p) as [->|Hne]; [rewrite Z.eqb_refl; by apply field_set; lia|].
  destruct (STM32_SYSCFG_EXTICR p' =? STM32_SYSCFG_EXTICR p) eqn:Ea; [|done]. b2p. rewrite <- Ea. apply field_other; lia.
Qed.

(** An address of a port is none of an interrupt source. *)
Lemma gpio_not_exti q off : 0 <= q < 9 -> off ∈ gpio_offs -> exti_reg (gpio_addr q off) = false.
Proof. intros Hq%port_cases Ho. each Ho; each Hq; by vm_compute. Qed.

Lemma set_exti_pin f p q q' p' : 0 <= p < 16 -> 0 <= q' < 9 -> pin_of (set_exti f p q) q' p' = pin_of f q' p' /\ out_of (set_exti f p q) q' p' = out_of f q' p'.
Proof.
  intros Hp Hq. assert (forall off, off ∈ gpio_offs -> set_exti f p q (gpio_addr q' off) = f (gpio_addr q' off)) as E
    by (intros off Ho; apply set_exti_other, gpio_not_exti; done).
  unfold pin_of, out_of. by rewrite !E by offs.
Qed.

(** What can be read off the registers with an encoding applied. *)
Lemma set_cfg_pin f cfg q p : cfg_port cfg < 9 -> 0 <= q < 9 -> 0 <= p < 16 ->
  let this := (q =? cfg_port cfg) && (p =? cfg_pin cfg) in
  pin_of (set_cfg f cfg) q p = (if this then cfg_state cfg else pin_of f q p) /\
  out_of (set_cfg f cfg) q p = (if this && cfg_out cfg then field 1 8 cfg else out_of f q p).
Proof.
  intros Hc Hq Hp. cbv zeta. pose proof (field_range 4 0 cfg ltac:(lia)) as Rp. fold (cfg_pin cfg) in Rp. pose proof (field_range 1 8 cfg ltac:(lia)).
  unfold set_cfg. cbv zeta. set (g := set_pin _ _ _ _).
  assert (pin_of (if cfg_exti cfg then set_exti g (cfg_pin cfg) (cfg_port cfg) else g) q p = pin_of g q p /\
          out_of (if cfg_exti cfg then set_exti g (cfg_pin cfg) (cfg_port cfg) else g) q p = out_of g q p) as [-> ->]
    by (destruct (cfg_exti cfg); [by apply set_exti_pin|done]).
  unfold g. rewrite set_pin_get, set_pin_out by (apply cfg_state_ok || done).
  destruct (cfg_out cfg); [rewrite set_out_pin, set_out_get by (done || lia)|]; by rewrite ?andb_true_r, ?andb_false_r.
Qed.

Lemma set_cfg_exti f cfg p : cfg_port cfg < 9 -> 0 <= p < 16 ->
  exti_of (set_cfg f cfg) p = if (p =? cfg_pin cfg) && cfg_exti cfg then cfg_port cfg else exti_of f p.
Proof.
  intros Hc Hp. pose proof (field_range 4 4 cfg ltac:(lia)) as Rq. pose proof (field_range 4 0 cfg ltac:(lia)) as Rp.
  fold (cfg_port cfg) in Rq. fold (cfg_pin cfg) in Rp. unfold set_cfg. cbv zeta. set (f0 := if cfg_out cfg then _ else f). set (g := set_pin _ _ _ _).
  assert (exti_of g p = exti_of f p) as Eg.
  { unfold exti_of. f_equal. destruct (exticr_reg p Hp) as (_ & _ & Hg & _). unfold g. rewrite set_pin_other by (done || lia).
    unfold f0. destruct (cfg_out cfg); [|done]. apply set_reg_other; [lia|offs|done]. }
  destruct (cfg_exti cfg); [rewrite set_exti_get, Eg by (done || lia); by rewrite andb_true_r|by rewrite andb_false_r].
Qed.

Lemma set_cfg_other f cfg a : cfg_port cfg < 9 -> gpio_reg a = false -> exti_reg a = false -> set_cfg f cfg a = f a.
Proof.
  intros Hc Hg He. pose proof (field_range 4 4 cfg ltac:(lia)) as Rq. pose proof (field_range 4 0 cfg ltac:(lia)) as Rp.
  fold (cfg_port cfg) in Rq. fold (cfg_pin cfg) in Rp. unfold set_cfg. cbv zeta.
  assert (set_pin (if cfg_out cfg then set_reg f (cfg_port cfg) STM32_GPIO_ODR_OFFSET 1 (cfg_pin cfg) (field 1 8 cfg) else f)
    (cfg_port cfg) (cfg_pin cfg) (cfg_state cfg) a = f a) as E.
  { rewrite set_pin_other by (done || lia). destruct (cfg_out cfg); [|done]. apply set_reg_other; [lia|offs|done]. }
  destruct (cfg_exti cfg); [|exact E]. by rewrite set_exti_other.
Qed.

Section Gpio.
Context {H : Type} `{HwLaws H}.

Lemma pin_of_ext h f q p : hw_is h f -> 0 <= q < 9 -> pin_of (hw_val h) q p = pin_of f q p /\ out_of (hw_val h) q p = out_of f q p.
Proof.
  intros Hf Hq. assert (forall off, off ∈ gpio_offs -> hw_val h (gpio_addr q off) = f (gpio_addr q off)) as Hr.
  { intros off Ho. apply Hf, storage32. by apply gpio_addr_reg. }
  unfold pin_of, out_of. by rewrite !Hr by offs.
Qed.

Lemma exti_of_ext h f p : hw_is h f -> 0 <= p < 16 -> exti_of (hw_val h) p = exti_of f p.
Proof. intros Hf Hp. unfold exti_of. rewrite Hf; [done|]. apply storage32. by apply exticr_reg. Qed.

(** The clock of port [q] is on. *)
Definition port_on (f : Z -> Z) (q : Z) : Prop := Z.testbit (f STM32_RCC_AHB1ENR) q = true.

(** The clock of the interrupt sources is on. *)
Definition syscfg_on (f : Z -> Z) : Prop := Z.testbit (f STM32_RCC_APB2ENR) 14 = true.

(** A register of a port is not one of the clocks. *)
Lemma set_reg_clock f q off w k v a : 0 <= q < 9 -> off ∈ gpio_offs -> a = STM32_RCC_AHB1ENR \/ a = STM32_RCC_APB2ENR -> set_reg f q off w k v a = f a.
Proof. intros Hq Ho [->| ->]; by apply set_reg_other. Qed.

Lemma set_reset_bit p x (v : bool) : 0 <= p < 16 ->
  set_reset x (if v then GPIO_BSRR_SET p else GPIO_BSRR_RESET p) = Z.lor (clrbits x (Z.shiftl (Z.ones 1) p)) (Z.shiftl (Z.b2z v) p).
Proof.
  intros Hp. unfold set_reset, GPIO_BSRR_SET, GPIO_BSRR_RESET. change (Z.ones 1) with 1. destruct v; cbn [Z.b2z].
  - assert (Z.shiftr (Z.shiftl 1 p) 16 = 0) as -> by (pose proof (pin_cases p Hp) as Hi; by each Hi).
    assert (Z.land (Z.shiftl 1 p) 65535 = Z.shiftl 1 p) as -> by (pose proof (pin_cases p Hp) as Hi; by each Hi).
    apply Z.bits_inj'. intros i Hi. rewrite !Z.lor_spec, !Z.ldiff_spec, Z.bits_0.
    by destruct (Z.testbit x i), (Z.testbit (Z.shiftl 1 p) i).
  - assert (Z.shiftr (Z.shiftl 1 (p + 16)) 16 = Z.shiftl 1 p) as -> by (pose proof (pin_cases p Hp) as Hi; by each Hi).
    assert (Z.land (Z.shiftl 1 (p + 16)) 65535 = 0) as -> by (pose proof (pin_cases p Hp) as Hi; by each Hi).
    by rewrite Z.shiftl_0_l.
Qed.

Lemma gpiowrite_is h f cfg (v : bool) :
  hw_is h f -> cfg_port cfg < 9 -> port_on f (cfg_port cfg) ->
  hw_is (stm32_gpiowrite h cfg v) (set_reg f (cfg_port cfg) STM32_GPIO_ODR_OFFSET 1 (cfg_pin cfg) (Z.b2z v)).
Proof.
  intros Hf Hq Hon. pose proof (field_range 4 4 cfg ltac:(lia)) as Rq. pose proof (field_range 4 0 cfg ltac:(lia)) as Rp.
  fold (cfg_port cfg) in Rq. fold (cfg_pin cfg) in Rp. unfold stm32_gpiowrite. rewrite port_field, pin_field.
  change STM32_NGPIO_PORTS with 9. rewrite (proj2 (Z.ltb_lt _ _) Hq), gpiobase by lia.
  set (q := cfg_port cfg) in *. set (p := cfg_pin cfg) in *. destruct (gpio_bsrr q ltac:(lia)) as [Hb Eo].
  destruct (gpio_addr_reg q STM32_GPIO_ODR_OFFSET ltac:(lia) ltac:(offs)) as (Hr & Hg & Hp & _).
  assert (gpio_addr q 0 + STM32_GPIO_BSRR_OFFSET = gpio_addr q STM32_GPIO_BSRR_OFFSET) as -> by (unfold gpio_addr; lia).
  unfold set_reg. cbv zeta. rewrite <- set_reset_bit by done. rewrite <- Eo in *. apply bsrr_is; try done; [by apply storage32|].
  unfold clock_on. by rewrite Hg, Hp.
Qed.

Lemma config_mode_is h f cfg :
  hw_is h f -> cfg_port cfg < 9 -> port_on f (cfg_port cfg) ->
  let f' := if cfg_out cfg then set_reg f (cfg_port cfg) STM32_GPIO_ODR_OFFSET 1 (cfg_pin cfg) (field 1 8 cfg) else f in
  exists h', config_mode h cfg = (field 2 18 cfg, h') /\ hw_is h' f' /\ port_on f' (cfg_port cfg).
Proof.
  intros Hf Hq Hon. cbv zeta. pose proof (field_range 4 4 cfg ltac:(lia)) as Rq. fold (cfg_port cfg) in Rq.
  assert (Z.b2z (negb (Z.land cfg GPIO_OUTPUT_SET =? 0)) = field 1 8 cfg) as Ev.
  { unfold GPIO_OUTPUT_SET. rewrite land_bit by done. pose proof (field_range 1 8 cfg ltac:(lia)). destruct (Z.eqb_spec (field 1 8 cfg) 1); simpl; lia. }
  pose proof (gpiowrite_is h f cfg (negb (Z.land cfg GPIO_OUTPUT_SET =? 0)) Hf Hq Hon) as Hw. rewrite Ev in Hw.
  unfold config_mode, cfg_out. change GPIO_MODE_MASK with (Z.shiftl (Z.ones 2) 18).
  unfold GPIO_OUTPUT, GPIO_ALT, GPIO_ANALOG, GPIO_MODE_SHIFT. rewrite !land_field by done. pose proof (field_cases 18 cfg) as Hc.
  revert Hc. generalize (field 2 18 cfg). intros x Hc. each Hc; (eexists; split; [reflexivity|]); cbn [Z.eqb Pos.eqb]; try done.
  split; [exact Hw|]. unfold port_on. rewrite set_reg_clock; [exact Hon|lia|offs|by left].
Qed.

(** One field of a register of port [q]. *)
Lemma put_field_is h f q off w k v :
  hw_is h f -> port_on f q -> 0 <= q < 9 -> off ∈ gpio_offs -> 0 <= k -> 0 <= v < 2 ^ w ->
  w + k <= gpio_width off ->
  hw_is (put_field h (gpio_addr q 0 + off) (Z.shiftl (Z.ones w) k) (Z.shiftl v k)) (set_reg f q off w k v) /\
  port_on (set_reg f q off w k v) q.
Proof.
  intros Hf Hon Hq Ho Hk Hv Hw. destruct (gpio_addr_reg q off Hq Ho) as (Hr & Hg & Hp & Hm).
  assert (gpio_addr q 0 + off = gpio_addr q off) as -> by (unfold gpio_addr; lia). split.
  - apply modify32_is; try done.
    + unfold clock_on. by rewrite Hg, Hp.
    + apply (legal_small _ _ (gpio_width off)); [by unfold gpio_width; case_match|done|].
      by apply (shiftl_range v w).
  - unfold port_on, set_reg, upd. destruct (STM32_RCC_AHB1ENR =? gpio_addr q off) eqn:E; [|exact Hon].
    apply Z.eqb_eq in E. by rewrite <- E in Hg.
Qed.

Ltac field_side :=
  done || lia || offs || (cbv [gpio_width orb STM32_GPIO_ODR_OFFSET STM32_GPIO_MODER_OFFSET STM32_GPIO_OTYPER_OFFSET STM32_GPIO_OSPEED_OFFSET
      STM32_GPIO_PUPDR_OFFSET STM32_GPIO_AFRL_OFFSET STM32_GPIO_AFRH_OFFSET Z.eqb Pos.eqb]; lia).

Section Pin.
Context (q p cfg : Z) (Hq : 0 <= q < 9) (Hp : 0 <= p < 16).
Let s := cfg_state cfg.
Let mode := field 2 18 cfg.

Lemma af_is h f : hw_is h f -> port_on f q ->
  let f' := if p <? 8 then set_reg f q STM32_GPIO_AFRL_OFFSET 4 (4 * p) (p_af s)
            else set_reg f q STM32_GPIO_AFRH_OFFSET 4 (4 * (p - 8)) (p_af s) in
  hw_is (config_af h (gpio_addr q 0) p cfg mode) f' /\ port_on f' q.
Proof.
  intros Hf Hon. pose proof (ok_af _ (cfg_state_ok cfg)) as R. unfold config_af.
  change (if mode =? GPIO_MODER_ALT then _ else 0) with
    (if mode =? 2 then Z.shiftr (Z.land cfg (Z.shiftl (Z.ones 4) 12)) 12 else 0).
  rewrite shiftr_field by done. change (if mode =? 2 then field 4 12 cfg else 0) with (p_af s).
  unfold GPIO_AFR_MASK, GPIO_AFR_SHIFT. change 15 with (Z.ones 4).
  destruct (p <? 8) eqn:E; b2p; rewrite !Z.shiftl_mul_pow2 with (n := 2), (Z.mul_comm _ (2 ^ 2)) by lia;
    apply put_field_is; field_side.
Qed.
Lemma type_is h f : hw_is h f -> port_on f q ->
  hw_is (config_type h (gpio_addr q 0) p cfg mode) (set_reg f q STM32_GPIO_OTYPER_OFFSET 1 p (p_od s)).
Proof.
  intros Hf Hon. pose proof (ok_od _ (cfg_state_ok cfg)) as R.
  assert (forall x, (if ((mode =? GPIO_MODER_OUTPUT) || (mode =? GPIO_MODER_ALT)) && negb (Z.land cfg GPIO_OPENDRAIN =? 0)
    then Z.lor x (GPIO_OTYPER_OD p) else clrbits x (GPIO_OTYPER_OD p)) =
    Z.lor (clrbits x (Z.shiftl (Z.ones 1) p)) (Z.shiftl (p_od s) p)) as Ev.
  { intros x. unfold GPIO_OPENDRAIN. rewrite land_bit by done. change (p_od s) with
      (if (mode =? GPIO_MODER_OUTPUT) || (mode =? GPIO_MODER_ALT) then field 1 9 cfg else 0).
    change (Z.ones 1) with 1. fold (GPIO_OTYPER_OD p). pose proof (field_range 1 9 cfg ltac:(lia)).
    destruct (_ || _); cbn [andb]; [|by rewrite Z.shiftl_0_l, Z.lor_0_r].
    destruct (Z.eqb_spec (field 1 9 cfg) 1) as [->|Hn].
    - apply Z.bits_inj'. intros i Hi. fold (GPIO_OTYPER_OD p). rewrite !Z.lor_spec, Z.ldiff_spec.
      by destruct (Z.testbit x i), (Z.testbit (GPIO_OTYPER_OD p) i).
    - assert (field 1 9 cfg = 0) as -> by lia. by rewrite Z.shiftl_0_l, Z.lor_0_r. }
  unfold config_type. cbv zeta. rewrite Ev. apply put_field_is; field_side.
Qed.

Lemma exti_is h f : hw_is h f -> (cfg_exti cfg = true -> syscfg_on f) ->
  hw_is (config_exti h q p cfg mode) (if cfg_exti cfg then set_exti f p q else f).
Proof.
  intros Hf Hon. unfold config_exti. fold (cfg_out cfg).
  replace (negb (mode =? GPIO_MODER_OUTPUT) && negb (Z.land cfg GPIO_EXTI =? 0)) with (cfg_exti cfg)
    by (unfold cfg_exti, cfg_out, GPIO_EXTI; by rewrite land_bit).
  destruct (cfg_exti cfg) eqn:E; [|done]. specialize (Hon eq_refl). destruct (exticr_reg p Hp) as (He & Hr & Hg & Hc & Hm & _ & Es).
  pose proof (Z.mod_pos_bound p 4 ltac:(done)). rewrite Es. apply modify32_is; try done.
  - unfold clock_on. by rewrite Hg, Hc, He.
  - apply (legal_small _ _ 16); [done|done|]. split; [apply Z.shiftl_nonneg; lia|].
    apply (shiftl_range q 4 (4 * (p mod 4)) 16); lia.
Qed.
End Pin.

Lemma set_pin_clock f q p s a : 0 <= q < 9 -> a = STM32_RCC_AHB1ENR \/ a = STM32_RCC_APB2ENR -> set_pin f q p s a = f a.
Proof. intros Hq [->| ->]; by apply set_pin_other. Qed.

Lemma configgpio_is h f cfg :
  hw_is h f -> cfg_port cfg < 9 -> port_on f (cfg_port cfg) -> (cfg_exti cfg = true -> syscfg_on f) ->
  exists h', stm32_configgpio h cfg = (OK, h') /\ hw_is h' (set_cfg f cfg).
Proof.
  intros Hf Hq Hon Hsy. pose proof (field_range 4 4 cfg ltac:(lia)) as Rq. pose proof (field_range 4 0 cfg ltac:(lia)) as Rp.
  destruct (cfg_state_ok cfg) as [R1 R2 _ R4 _].
  unfold stm32_configgpio. rewrite port_field, pin_field. change STM32_NGPIO_PORTS with 9.
  rewrite (proj2 (Z.leb_gt 9 _)) by done. fold (cfg_port cfg) in Rq. fold (cfg_pin cfg) in Rp.
  destruct (config_mode_is h f cfg Hf Hq Hon) as (h0 & -> & Hf0 & Hon0). unfold set_cfg. cbv zeta.
  set (f0 := if cfg_out cfg then _ else f) in *.
  assert (cfg_exti cfg = true -> syscfg_on f0) as Hsy0.
  { intros E. unfold f0, syscfg_on. destruct (cfg_out cfg); [rewrite set_reg_clock; [by apply Hsy|lia|offs|by right]|by apply Hsy]. }
  set (q := cfg_port cfg) in *. set (p := cfg_pin cfg) in *. rewrite gpiobase by lia. rewrite pupd_field, speed_field by done.
  unfold GPIO_MODER_MASK, GPIO_MODER_SHIFT, GPIO_PUPDR_MASK, GPIO_PUPDR_SHIFT, GPIO_OSPEED_MASK, GPIO_OSPEED_SHIFT.
  change 3 with (Z.ones 2). assert (Z.shiftl p 1 = 2 * p) as -> by (rewrite Z.shiftl_mul_pow2; lia).
  destruct (put_field_is h0 f0 q STM32_GPIO_MODER_OFFSET 2 (2 * p) (field 2 18 cfg)) as [Hf1 Hon1]; try field_side.
  destruct (put_field_is _ _ q STM32_GPIO_PUPDR_OFFSET 2 (2 * p) (p_pupd (cfg_state cfg)) Hf1 Hon1) as [Hf2 Hon2]; try field_side.
  destruct (af_is q p cfg ltac:(lia) Rp _ _ Hf2 Hon2) as [Hf3 Hon3].
  destruct (put_field_is _ _ q STM32_GPIO_OSPEED_OFFSET 2 (2 * p) (p_speed (cfg_state cfg)) Hf3 Hon3) as [Hf4 Hon4]; try field_side.
  eexists. split; [done|]. apply (exti_is q p cfg ltac:(lia) Rp).
  - apply type_is; [lia|done|exact Hf4|exact Hon4].
  - intros E. unfold syscfg_on. rewrite set_pin_clock; [by apply Hsy0|lia|by right].
Qed.
End Gpio.

(** ** The claims *)

(** C30: [stm32_configgpio] on a port of the chip whose clock is enabled (and, for an
    external interrupt, with the clock of the interrupt sources enabled) returns [OK]
    and does what the encoding says: the pin gets the mode, pull, alternate function,
    speed and output type; an output gets its initial level; a pin with an external
    interrupt becomes the source of it.  Every other pin of every port keeps its
    configuration and level, every other interrupt its source, and every other
    register of the model its value. *)
Theorem configgpio_correct {H} `{HwLaws H} (h : H) cfg :
  cfg_port cfg < 9 -> port_on (hw_val h) (cfg_port cfg) -> (cfg_exti cfg = true -> syscfg_on (hw_val h)) ->
  exists h', stm32_configgpio h cfg = (OK, h') /\
    (forall q p, 0 <= q < 9 -> 0 <= p < 16 ->
      let this := (q =? cfg_port cfg) && (p =? cfg_pin cfg) in
      pin_of (hw_val h') q p = (if this then cfg_state cfg else pin_of (hw_val h) q p) /\
      out_of (hw_val h') q p = (if this && cfg_out cfg then field 1 8 cfg else out_of (hw_val h) q p)) /\
    (forall p, 0 <= p < 16 -> exti_of (hw_val h') p = if (p =? cfg_pin cfg) && cfg_exti cfg then cfg_port cfg else exti_of (hw_val h) p) /\
    forall a, storage a = true -> gpio_reg a = false -> exti_reg a = false -> hw_val h' a = hw_val h a.
Proof.
  intros Hq Hon Hsy. destruct (configgpio_is h (hw_val h) cfg (hw_is_val h) Hq Hon Hsy) as (h' & E & Hf).
  pose proof (field_range 4 4 cfg ltac:(lia)) as Rq. pose proof (field_range 4 0 cfg ltac:(lia)) as Rp.
  fold (cfg_port cfg) in Rq. fold (cfg_pin cfg) in Rp. exists h'. split; [done|]. split_and!.
  - intros q p Hq' Hp'. cbv zeta. destruct (pin_of_ext _ _ q p Hf Hq') as [-> ->]. by apply set_cfg_pin.
  - intros p Hp'. rewrite (exti_of_ext _ _ p Hf Hp'). by apply set_cfg_exti.
  - intros a Ha Hg He. rewrite (Hf a Ha). by apply set_cfg_other.
Qed.

(** A chip with the clocks of all ports and of the interrupt sources enabled. *)
Definition demo_chip : sim := {[ STM32_RCC_AHB1ENR := 511; STM32_RCC_APB2ENR := 16384 ]}.

(** Pin 5 of port C as an output that starts high, and pin 5 of port B as an input
    with an external interrupt. *)
Definition demo_output : Z := Z.lor GPIO_OUTPUT (Z.lor GPIO_OUTPUT_SET (Z.lor GPIO_SPEED_50MHz (Z.lor (Z.shiftl 2 GPIO_PORT_SHIFT) 5))).
Definition demo_input : Z := Z.lor GPIO_INPUT (Z.lor GPIO_EXTI (Z.lor GPIO_PULLUP (Z.lor (Z.shiftl 1 GPIO_PORT_SHIFT) 5))).

Lemma configgpio_witness :
  (exists h', stm32_configgpio demo_chip demo_output = (OK, h') /\ pin_of (hw_val h') 2 5 = mk_pin 1 0 0 2 0 /\ out_of (hw_val h') 2 5 = 1 /\
    out_of (hw_val h') 2 4 = 0 /\ exti_of (hw_val h') 5 = 0) /\
  (exists h', stm32_configgpio demo_chip demo_input = (OK, h') /\ pin_of (hw_val h') 1 5 = mk_pin 0 1 0 0 0 /\ out_of (hw_val h') 1 5 = 0 /\
    exti_of (hw_val h') 5 = 1 /\ exti_of (hw_val h') 4 = 0).
Proof.
  split.
  - destruct (configgpio_correct demo_chip demo_output) as (h' & E & Hp & He & _); [reflexivity..|intros _; reflexivity|].
    exists h'. split; [exact E|]. rewrite He by lia. destruct (Hp 2 5 ltac:(lia) ltac:(lia)) as [-> ->].
    destruct (Hp 2 4 ltac:(lia) ltac:(lia)) as [_ ->]. repeat split; vm_compute; reflexivity.
  - destruct (configgpio_correct demo_chip demo_input) as (h' & E & Hp & He & _); [reflexivity..|intros _; reflexivity|].
    exists h'. split; [exact E|]. rewrite !He by lia. destruct (Hp 1 5 ltac:(lia) ltac:(lia)) as [-> ->].
    repeat split; vm_compute; reflexivity.
Defined.
