(* ===== verification/Pwm.v ===== *)
(** * The PWM driver (upper half)

    Model of [drivers/pwm/pwm.c] for the configuration of the board: several
    channels ([CONFIG_PWM_MULTICHAN], four of them) and no pulse counting.  The
    lower half, which drives the timer hardware, is a record of operations over
    its own state, as in [include/nuttx/drivers/pwm.h]. *)

From S2P Require Import Prelude Inode Vfs.
Local Open Scope Z_scope.

Definition CONFIG_PWM_NCHANNELS : Z := 4.

(** [_PWMIOC(nr)] with base [0x0c00]. *)
Definition PWMIOC_SETCHARACTERISTICS : Z := 3073.
Definition PWMIOC_GETCHARACTERISTICS : Z := 3074.
Definition PWMIOC_START : Z := 3075.
Definition PWMIOC_STOP : Z := 3076.

Record pwm_chan_s := mk_chan { duty : Z; channel : Z }.

(** [channels] has [CONFIG_PWM_NCHANNELS] entries. *)
Record pwm_info_s := mk_info { frequency : Z; channels : list pwm_chan_s }.

Definition info_zero : pwm_info_s := mk_info 0 (replicate (Z.to_nat CONFIG_PWM_NCHANNELS) (mk_chan 0 0)).

(** What an [ioctl] argument points to, for this driver: nothing it can use, or
    pulse train characteristics. *)
Inductive pwm_arg := NoArg | InfoArg (i : pwm_info_s).

Record pwm_ops_s (D : Type) := mk_ops {
  setup : D -> res (Z * D);
  shutdown : D -> res (Z * D);
  start : D -> pwm_info_s -> res (Z * D);
  stop : D -> res (Z * D);
  lower_ioctl : D -> Z -> pwm_arg -> res (Z * pwm_arg * D)
}.
Arguments mk_ops {D}. Arguments setup {D}. Arguments shutdown {D}. Arguments start {D}.
Arguments stop {D}. Arguments lower_ioctl {D}.

(** [dev] is the state of the lower half behind the pointer. *)
Record pwm_upperhalf_s (D : Type) := mk_upper {
  crefs : Z;
  started : bool;
  exclsem : Z;
  info : pwm_info_s;
  dev : D
}.
Arguments mk_upper {D}. Arguments crefs {D}. Arguments started {D}. Arguments exclsem {D}.
Arguments info {D}. Arguments dev {D}.

Section Pwm.
Context {D : Type} (ops : pwm_ops_s D).
Abbreviation upper_t := (pwm_upperhalf_s D).

Definition set_crefs (u : upper_t) (v : Z) : upper_t := mk_upper v (started u) (exclsem u) (info u) (dev u).
Definition set_started (u : upper_t) (v : bool) : upper_t := mk_upper (crefs u) v (exclsem u) (info u) (dev u).
Definition set_exclsem (u : upper_t) (v : Z) : upper_t := mk_upper (crefs u) (started u) v (info u) (dev u).
Definition set_info (u : upper_t) (v : pwm_info_s) : upper_t := mk_upper (crefs u) (started u) (exclsem u) v (dev u).
Definition set_dev (u : upper_t) (v : D) : upper_t := mk_upper (crefs u) (started u) (exclsem u) (info u) v.

(** Taking [exclsem]: a caller that finds it taken is suspended. *)
Definition excl_wait (u : upper_t) : res upper_t :=
  if 0 <? exclsem u then Ok (set_exclsem u (exclsem u - 1)) else Err WouldBlock.
Definition excl_post (u : upper_t) : upper_t := set_exclsem u (exclsem u + 1).

Definition pwm_open (u : upper_t) : res (Z * upper_t) :=
  u ← excl_wait u;
  let tmp := u8 (crefs u + 1) in
  if tmp =? 0 then Ok (- EMFILE, excl_post u)
  else
    '(ret, u) ← (if tmp =? 1 then '(ret, d) ← setup ops (dev u); Ok (ret, set_dev u d) else Ok (OK, u));
    if ret <? 0 then Ok (ret, excl_post u)
    else Ok (OK, excl_post (set_crefs u tmp)).

Definition pwm_close (u : upper_t) : res (Z * upper_t) :=
  u ← excl_wait u;
  u ← (if 1 <? crefs u then Ok (set_crefs u (crefs u - 1))
       else let u := set_crefs u 0 in
            '(_, d) ← shutdown ops (dev u); Ok (set_dev u d));
  Ok (OK, excl_post u).

Definition pwm_read (u : upper_t) (buflen : Z) : res (Z * list Z * upper_t) := Ok (0, [], u).

Definition pwm_write (u : upper_t) (buffer : list Z) : res (Z * upper_t) := Ok (0, u).

Definition pwm_start (u : upper_t) : res (Z * upper_t) :=
  if negb (started u) then
    '(ret, d) ← start ops (dev u) (info u);
    let u := set_dev u d in
    Ok (ret, if ret =? OK then set_started u true else u)
  else Ok (OK, u).

(** An argument that does not point to characteristics is a bad pointer. *)
Definition pwm_ioctl (u : upper_t) (cmd : Z) (arg : pwm_arg) : res (Z * pwm_arg * upper_t) :=
  u ← excl_wait u;
  '(ret, arg, u) ←
    (if cmd =? PWMIOC_SETCHARACTERISTICS then
       match arg with
       | NoArg => Err (BadAddr 0)
       | InfoArg i =>
           let u := set_info u i in
           if started u then
             '(ret, d) ← start ops (dev u) (info u); Ok (ret, arg, set_dev u d)
           else Ok (OK, arg, u)
       end
     else if cmd =? PWMIOC_GETCHARACTERISTICS then
       match arg with
       | NoArg => Err (BadAddr 0)
       | InfoArg _ => Ok (OK, InfoArg (info u), u)
       end
     else if cmd =? PWMIOC_START then
       '(ret, u) ← pwm_start u; Ok (ret, arg, u)
     else if cmd =? PWMIOC_STOP then
       if started u then
         '(ret, d) ← stop ops (dev u); Ok (ret, arg, set_started (set_dev u d) false)
       else Ok (OK, arg, u)
     else
       '(ret, arg, d) ← lower_ioctl ops (dev u) cmd arg; Ok (ret, arg, set_dev u d));
  Ok (ret, arg, excl_post u).

(** The upper half that [pwm_register] allocates for a lower half. *)
Definition new_upper (d : D) : upper_t := mk_upper 0 false 1 info_zero d.

(** ** The methods as the file system calls them

    The upper halves live in a map; [i_private] is the address of one. *)

Abbreviation uppers := (gmap Z upper_t).

Definition with_upper {B} (f : upper_t -> res (B * upper_t)) (priv : Z) (w : uppers) : res (B * uppers) :=
  match w !! priv with
  | None => Err (BadAddr priv)
  | Some u => '(r, u) ← f u; Ok (r, <[priv := u]> w)
  end.

Definition g_pwmops : file_operations uppers pwm_arg := mk_fops
  (Some (fun _ priv w => with_upper pwm_open priv w))
  (Some (fun _ priv w => with_upper pwm_close priv w))
  (Some (fun _ priv n w => with_upper (fun u => pwm_read u n) priv w))
  (Some (fun _ priv b w => with_upper (fun u => pwm_write u b) priv w))
  (Some (fun _ priv cmd arg w => with_upper (fun u => pwm_ioctl u cmd arg) priv w)).

(** [pwm_register]: [upper] is the address that [kmm_zalloc] returns for the new
    upper half, 0 for NULL, and [ops_ptr] the address of [g_pwmops]. *)
Definition pwm_register `{NodeAlloc} (me : Z) (st : fs) (w : uppers) (p : list Z) (d : D) (upper ops_ptr : Z)
    : res (Z * fs * uppers) :=
  if upper =? 0 then Ok (- ENOMEM, st, w)
  else
    let w := <[upper := new_upper d]> w in
    '(ret, st) ← register_driver me st p ops_ptr upper;
    Ok (ret, st, w).
End Pwm.
