(* ===== verification/PwmProps.v ===== *)
(** * Properties of the PWM driver *)

From S2P Require Import Prelude Inode Vfs VfsInv VfsOps VfsRun Pwm.
Local Open Scope Z_scope.

(** ** What the driver asks of the lower half

    The states a lower half goes through: before [setup], after it, with a pulse
    train being output, and after [stop]. *)
Inductive lphase := LOff | LReady | LOn (i : pwm_info_s) | LHalted.

(** [start] works after [setup] and while there is output, where it changes the
    characteristics; the comments of [struct pwm_ops_s] say that it also works
    after [stop], which [restarts] is about. *)
Definition can_start (restarts : bool) (p : lphase) : bool :=
  match p with LOff => false | LReady | LOn _ => true | LHalted => restarts end.

(** The comments of [struct pwm_ops_s] as laws, for the characteristics that the
    hardware supports. *)
Class PwmLower {D} (ops : pwm_ops_s D) (restarts : bool) (supported : pwm_info_s -> Prop) (phase : D -> lphase -> Prop)
    : Prop := {
  setup_ok d : phase d LOff -> exists d', setup ops d = Ok (OK, d') /\ phase d' LReady;
  start_ok d p i : phase d p -> can_start restarts p = true -> supported i ->
    exists d', start ops d i = Ok (OK, d') /\ phase d' (LOn i);
  stop_ok d p : phase d p -> p <> LOff -> exists d', stop ops d = Ok (OK, d') /\ phase d' LHalted;
  shutdown_ok d p : phase d p -> p <> LOff -> exists r d', shutdown ops d = Ok (r, d') /\ phase d' LOff
}.

(** ** A device in use *)

(** The commands of an application, and what they mean. *)
Inductive pwm_cmd := PSet (i : pwm_info_s) | PGet | PStart | PStop.

(** Output has not been started since the device was opened, is on, or has been
    stopped. *)
Inductive switch := Fresh | On | Halted.

Record pwm_spec := mk_spec { sp_info : pwm_info_s; sp_sw : switch }.

Definition stop_sw (sw : switch) : switch := match sw with On => Halted | _ => sw end.
Definition sw_on (sw : switch) : bool := match sw with On => true | _ => false end.

Definition spec_step (c : pwm_cmd) (s : pwm_spec) : pwm_spec :=
  match c with
  | PSet i => mk_spec i (sp_sw s)
  | PGet => s
  | PStart => mk_spec (sp_info s) On
  | PStop => mk_spec (sp_info s) (stop_sw (sp_sw s))
  end.

(** What a command returns: success, and the argument, which for [PGet] has been
    replaced by the characteristics. *)
Definition spec_answer (c : pwm_cmd) (s : pwm_spec) : Z * pwm_arg :=
  (OK, match c with PSet i => InfoArg i | PGet => InfoArg (sp_info s) | PStart | PStop => NoArg end).

Fixpoint spec_run (l : list pwm_cmd) (s : pwm_spec) : list (Z * pwm_arg) * pwm_spec :=
  match l with
  | [] => ([], s)
  | c :: l => let '(answers, s') := spec_run l (spec_step c s) in (spec_answer c s :: answers, s')
  end.

(** What is output in a state of the specification. *)
Definition spec_phase (s : pwm_spec) : lphase :=
  match sp_sw s with Fresh => LReady | On => LOn (sp_info s) | Halted => LHalted end.

Section Device.
Context {D : Type} (ops : pwm_ops_s D) (restarts : bool) (supported : pwm_info_s -> Prop) (phase : D -> lphase -> Prop).
Context `{!PwmLower ops restarts supported phase}.
Abbreviation upper_t := (pwm_upperhalf_s D).

Definition cmd_step (c : pwm_cmd) (u : upper_t) : res (Z * pwm_arg * upper_t) :=
  match c with
  | PSet i => pwm_ioctl ops u PWMIOC_SETCHARACTERISTICS (InfoArg i)
  | PGet => pwm_ioctl ops u PWMIOC_GETCHARACTERISTICS (InfoArg info_zero)
  | PStart => pwm_ioctl ops u PWMIOC_START NoArg
  | PStop => pwm_ioctl ops u PWMIOC_STOP NoArg
  end.

(** A sequence of commands, with what each of them returns. *)
Fixpoint cmd_run (l : list pwm_cmd) (u : upper_t) : res (list (Z * pwm_arg) * upper_t) :=
  match l with
  | [] => Ok ([], u)
  | c :: l => '(ret, arg, u) ← cmd_step c u; '(answers, u) ← cmd_run l u; Ok ((ret, arg) :: answers, u)
  end.

(** The hardware supports the command in this state. *)
Definition cmd_ok (s : pwm_spec) (c : pwm_cmd) : Prop :=
  match c with
  | PSet i => sp_sw s = On -> supported i
  | PStart => sp_sw s <> On -> supported (sp_info s) /\ (sp_sw s = Halted -> restarts = true)
  | _ => True
  end.

Fixpoint cmds_ok (s : pwm_spec) (l : list pwm_cmd) : Prop :=
  match l with [] => True | c :: l => cmd_ok s c /\ cmds_ok (spec_step c s) l end.

(** The device implements the specification state. *)
Record pwm_rep (u : upper_t) (s : pwm_spec) : Prop := {
  pr_sem : exclsem u = 1;
  pr_info : info u = sp_info s;
  pr_on : started u = sw_on (sp_sw s);
  pr_out : phase (dev u) (spec_phase s)
}.

Lemma excl_ok (u : upper_t) : exclsem u = 1 -> excl_wait u = Ok (set_exclsem u 0).
Proof. intros H. unfold excl_wait. by rewrite H. Qed.

(** A call of the lower half that returns. *)
Ltac lower E := rewrite E, bind_Ok; cbn beta iota.

Lemma cmd_spec u s c :
  pwm_rep u s -> cmd_ok s c ->
  exists u', cmd_step c u = Ok (spec_answer c s, u') /\ pwm_rep u' (spec_step c s) /\ crefs u' = crefs u.
Proof.
  destruct u as [cr st sem inf d], s as [si sw]. intros [Hs Hi Ho Hr] Hl. cbn in Hs, Hi, Ho, Hr. subst sem inf st.
  destruct c as [i| | |]; cbn [cmd_step cmd_ok sp_sw sp_info] in *; unfold pwm_ioctl, pwm_start;
    rewrite excl_ok, bind_Ok by done;
    cbn [Z.eqb PWMIOC_SETCHARACTERISTICS PWMIOC_GETCHARACTERISTICS PWMIOC_START PWMIOC_STOP Pos.eqb started set_info
      set_exclsem dev info crefs exclsem].
  - destruct sw; cbn [sw_on]; try (rewrite bind_Ok; by eexists).
    destruct (start_ok d _ i Hr) as (d' & E & Hd); [done|auto|]. lower E. rewrite bind_Ok. by eexists.
  - rewrite bind_Ok. by eexists.
  - destruct sw; cbn [sw_on negb].
    + destruct Hl as [Hsup _]; [done|]. destruct (start_ok d _ si Hr) as (d' & E & Hd); [done..|].
      lower E. rewrite !bind_Ok. by eexists.
    + rewrite !bind_Ok. by eexists.
    + destruct Hl as [Hsup Hre]; [done|]. destruct (start_ok d _ si Hr) as (d' & E & Hd); [cbn; auto|done|].
      lower E. rewrite !bind_Ok. by eexists.
  - destruct sw; cbn [sw_on]; try (rewrite bind_Ok; by eexists).
    destruct (stop_ok d _ Hr) as (d' & E & Hd); [done|]. lower E. rewrite bind_Ok. by eexists.
Qed.

Lemma run_spec l u s :
  cmds_ok s l -> pwm_rep u s ->
  exists u', cmd_run l u = Ok ((spec_run l s).1, u') /\ pwm_rep u' (spec_run l s).2 /\ crefs u' = crefs u.
Proof.
  revert u s. induction l as [|c l IH]; intros u s Hl Hr; [by exists u|]. destruct Hl as [Hc Hl].
  destruct (cmd_spec u s c Hr Hc) as (u1 & E & Hr1 & Hcr).
  cbn [cmd_run spec_run]. rewrite E, bind_Ok. destruct (IH _ _ Hl Hr1) as (u2 & E2 & Hr2 & Hcr2). unfold spec_answer at 1. rewrite E2, bind_Ok.
  destruct (spec_run l (spec_step c s)) as [answers s']. exists u2. split_and!; [done|done|congruence].
Qed.

(** ** Opening and closing *)

Lemma pwm_open_first st i d r d' :
  setup ops d = Ok (r, d') -> 0 <= r -> pwm_open ops (mk_upper 0 st 1 i d) = Ok (OK, mk_upper 1 st 1 i d').
Proof.
  intros E Hs. unfold pwm_open. rewrite excl_ok, bind_Ok by done. change (u8 (crefs _ + 1)) with 1. cbn [Z.eqb Pos.eqb].
  cbn [dev set_exclsem]. rewrite E, !bind_Ok. by rewrite (proj2 (Z.ltb_ge r 0) Hs).
Qed.

Lemma pwm_open_more (u : upper_t) :
  exclsem u = 1 -> 1 <= crefs u < 255 -> pwm_open ops u = Ok (OK, set_crefs u (crefs u + 1)).
Proof.
  intros He Hc. unfold pwm_open. rewrite excl_ok, bind_Ok by done.
  change (crefs (set_exclsem u 0)) with (crefs u).
  assert (u8 (crefs u + 1) = crefs u + 1) as -> by (unfold u8; modlia).
  rewrite (proj2 (Z.eqb_neq _ 0)), (proj2 (Z.eqb_neq _ 1)) by lia. destruct u. cbn in *. by subst.
Qed.

Lemma pwm_open_full (u : upper_t) :
  exclsem u = 1 -> crefs u = 255 -> pwm_open ops u = Ok (- EMFILE, u).
Proof.
  intros He Hc. unfold pwm_open. rewrite excl_ok, bind_Ok by done.
  change (crefs (set_exclsem u 0)) with (crefs u). rewrite Hc. destruct u. cbn in *. by subst.
Qed.

Lemma pwm_close_more (u : upper_t) :
  exclsem u = 1 -> 1 < crefs u -> pwm_close ops u = Ok (OK, set_crefs u (crefs u - 1)).
Proof.
  intros He Hc. unfold pwm_close. rewrite excl_ok, bind_Ok by done. cbn [crefs set_exclsem].
  rewrite (proj2 (Z.ltb_lt 1 _) Hc). destruct u. cbn in *. by subst.
Qed.

Lemma pwm_close_last (u : upper_t) r d' :
  exclsem u = 1 -> crefs u <= 1 -> shutdown ops (dev u) = Ok (r, d') ->
  pwm_close ops u = Ok (OK, mk_upper 0 (started u) 1 (info u) d').
Proof.
  intros He Hc E. unfold pwm_close. rewrite excl_ok, bind_Ok by done. cbn [crefs set_exclsem].
  rewrite (proj2 (Z.ltb_ge 1 _) Hc). cbn [dev set_crefs set_exclsem]. by rewrite E, !bind_Ok.
Qed.

(** [n] calls of [open], and of [close]. *)
Fixpoint open_n (n : nat) (u : upper_t) : res upper_t :=
  match n with O => Ok u | S n => '(_, u) ← pwm_open ops u; open_n n u end.
Fixpoint close_n (n : nat) (u : upper_t) : res upper_t :=
  match n with O => Ok u | S n => '(_, u) ← pwm_close ops u; close_n n u end.

Lemma open_n_more n (u : upper_t) :
  exclsem u = 1 -> 1 <= crefs u -> crefs u + Z.of_nat n <= 255 ->
  open_n n u = Ok (set_crefs u (crefs u + Z.of_nat n)).
Proof.
  revert u. induction n as [|n IH]; intros u He H1 H2.
  { cbn. rewrite Z.add_0_r. by destruct u. }
  cbn [open_n]. rewrite pwm_open_more, bind_Ok by (done || lia).
  rewrite IH by (done || (cbn; lia)). cbn. unfold set_crefs. cbn. do 2 f_equal. lia.
Qed.

Lemma open_n_first n d i r d' :
  setup ops d = Ok (r, d') -> 0 <= r -> 1 + Z.of_nat n <= 255 ->
  open_n (S n) (mk_upper 0 false 1 i d) = Ok (mk_upper (1 + Z.of_nat n) false 1 i d').
Proof. intros E Hs Hn. cbn [open_n]. rewrite (pwm_open_first _ _ _ r d'), bind_Ok by done. by rewrite open_n_more. Qed.

Lemma close_n_more n (u : upper_t) :
  exclsem u = 1 -> Z.of_nat n < crefs u -> close_n n u = Ok (set_crefs u (crefs u - Z.of_nat n)).
Proof.
  revert u. induction n as [|n IH]; intros u He H2.
  { cbn. rewrite Z.sub_0_r. by destruct u. }
  cbn [close_n]. rewrite pwm_close_more, bind_Ok by (done || lia).
  rewrite IH by (done || (cbn; lia)). cbn. unfold set_crefs. cbn. do 2 f_equal. lia.
Qed.
End Device.

(** ** The driver behind the file calls *)

(** The devices in [ps] are registered, and nobody holds their locks. *)
Definition pwm_devs_ok {D} (ps : gset Z) (w : gmap Z (pwm_upperhalf_s D)) : Prop :=
  forall a, a ∈ ps -> exists u, w !! a = Some u /\ exclsem u = 1.

Lemma with_upper_safe {D C} (f : pwm_upperhalf_s D -> res (C * pwm_upperhalf_s D)) ps w a :
  pwm_devs_ok ps w -> a ∈ ps -> (forall u, exclsem u = 1 -> exists r u', f u = Ok (r, u') /\ exclsem u' = 1) ->
  exists r w', with_upper f a w = Ok (r, w') /\ pwm_devs_ok ps w'.
Proof.
  intros Hw Ha Hf. destruct (Hw a Ha) as (u & E & Hu). destruct (Hf u Hu) as (r & u' & Ef & Hu').
  exists r, (<[a := u']> w). unfold with_upper. rewrite E, Ef. split; [done|]. intros b Hb.
  destruct (decide (a = b)) as [->|]; [exists u'; by rewrite lookup_insert_eq|]. rewrite lookup_insert_ne by done. by apply Hw.
Qed.

(** A lower half whose operations return, with whatever result. *)
Record lower_returns {D} (ops : pwm_ops_s D) : Prop := {
  setup_returns d : exists r d', setup ops d = Ok (r, d');
  shutdown_returns d : exists r d', shutdown ops d = Ok (r, d');
  start_returns d i : exists r d', start ops d i = Ok (r, d');
  stop_returns d : exists r d', stop ops d = Ok (r, d');
  ioctl_returns d c a : exists r a' d', lower_ioctl ops d c a = Ok (r, a', d')
}.

Lemma pwm_ioctl_safe {D} (ops : pwm_ops_s D) cmd arg u :
  lower_returns ops ->
  exclsem u = 1 -> (arg = NoArg -> cmd <> PWMIOC_SETCHARACTERISTICS /\ cmd <> PWMIOC_GETCHARACTERISTICS) ->
  exists r u', pwm_ioctl ops u cmd arg = Ok (r, u') /\ exclsem u' = 1.
Proof.
  intros Hr Hu Ha. unfold pwm_ioctl, pwm_start. rewrite excl_ok, bind_Ok by done.
  destruct (cmd =? PWMIOC_SETCHARACTERISTICS) eqn:E1; b2p.
  { destruct arg as [|i]; [by destruct (Ha eq_refl)|]. cbn [started set_info set_exclsem dev info].
    destruct (start_returns _ Hr (dev u) i) as (r & d & E).
    destruct (started u); rewrite ?E, !bind_Ok; by eexists _, _. }
  destruct (cmd =? PWMIOC_GETCHARACTERISTICS) eqn:E2; b2p.
  { destruct arg as [|i]; [by destruct (Ha eq_refl)|]. rewrite bind_Ok. by eexists _, _. }
  cbn [started set_exclsem dev info].
  destruct (cmd =? PWMIOC_START); [|destruct (cmd =? PWMIOC_STOP)].
  - destruct (start_returns _ Hr (dev u) (info u)) as (r & d & E).
    destruct (negb _); rewrite ?E, !bind_Ok; [destruct (r =? OK)|]; by eexists _, _.
  - destruct (stop_returns _ Hr (dev u)) as (r & d & E). destruct (started u); rewrite ?E, !bind_Ok; by eexists _, _.
  - destruct (ioctl_returns _ Hr (dev u) cmd arg) as (r & a & d & E). rewrite E, !bind_Ok. by eexists _, _.
Qed.

(** With such a lower half, the methods of the driver always return. *)
#[export] Instance pwm_drivers {D} (ops : pwm_ops_s D) (Hr : lower_returns ops) (ps : gset Z) :
  Drivers (fun _ => g_pwmops ops) (pwm_devs_ok ps) (fun _ priv => priv ∈ ps)
    (fun cmd arg => arg = NoArg -> cmd <> PWMIOC_SETCHARACTERISTICS /\ cmd <> PWMIOC_GETCHARACTERISTICS).
Proof.
  split.
  - intros p m f priv w [= <-] Hp Hw. apply (with_upper_safe _ ps); [done..|]. intros u Hu. unfold pwm_open.
    rewrite excl_ok, bind_Ok by done. destruct (_ =? 0); [by eexists _, _|]. cbn [dev set_exclsem].
    destruct (setup_returns _ Hr (dev u)) as (r & d & E).
    destruct (_ =? 1); rewrite ?E, !bind_Ok; [destruct (r <? 0)|change (OK <? 0) with false]; by eexists _, _.
  - intros p m f priv w [= <-] Hp Hw. apply (with_upper_safe _ ps); [done..|]. intros u Hu. unfold pwm_close.
    rewrite excl_ok, bind_Ok by done. destruct (shutdown_returns _ Hr (dev u)) as (r & d & E).
    destruct (1 <? _); cbn [dev set_crefs set_exclsem]; rewrite ?E, !bind_Ok; by eexists _, _.
  - intros p m f priv n w [= <-] Hp Hw. destruct (with_upper_safe (fun u => pwm_read u n) ps w priv) as ([r b] & w' & H); [done..| |].
    { intros u Hu. by eexists _, u. }
    by exists r, b, w'.
  - intros p m f priv b w [= <-] Hp Hw. apply (with_upper_safe _ ps); [done..|]. intros u Hu. by eexists _, u.
  - intros p m f priv cmd arg w [= <-] Hp Ha Hw.
    destruct (with_upper_safe (fun u => pwm_ioctl ops u cmd arg) ps w priv) as ([r b] & w' & H); [done..| |].
    { intros u Hu. by apply (pwm_ioctl_safe ops). }
    by exists r, b, w'.
Qed.

(** ** A lower half for the examples: it only remembers its phase *)

Definition ideal_ops : pwm_ops_s lphase :=
  mk_ops (fun _ => Ok (OK, LReady)) (fun _ => Ok (OK, LOff)) (fun _ i => Ok (OK, LOn i)) (fun _ => Ok (OK, LHalted))
    (fun d _ arg => Ok (- ENOTTY, arg, d)).

Definition any_info (_ : pwm_info_s) : Prop := True.

#[export] Instance ideal_lower : PwmLower ideal_ops true any_info eq.
Proof. split; intros; by repeat eexists. Qed.

Definition demo_info : pwm_info_s := mk_info 400 [mk_chan 23592 1; mk_chan 23592 2; mk_chan 23592 3; mk_chan 23592 4].

(** ** The claims *)

(** C29: On an open device, a sequence of the four [ioctl] commands returns and does
    what it says, provided the hardware supports the characteristics that are set
    while output is on and those with which it is started, and output that was
    stopped is started again only if the lower half can do that (the timer of the
    board cannot).  Every command reports success; the one that asks for the
    characteristics returns those last set; and the hardware outputs the
    characteristics last set while output is started, also those set after the
    start, and nothing before it is started and while it is stopped.  The
    specification is a pair of characteristics and a switch. *)
Theorem pwm_refines_spec {D} (ops : pwm_ops_s D) restarts supported phase `{!PwmLower ops restarts supported phase} l u s :
  cmds_ok restarts supported s l -> pwm_rep phase u s ->
  exists u', cmd_run ops l u = Ok ((spec_run l s).1, u') /\ pwm_rep phase u' (spec_run l s).2.
Proof.
  intros Hl Hr. destruct (run_spec ops restarts supported phase l u s Hl Hr) as (u' & H1 & H2 & _). eauto.
Qed.

Lemma pwm_refines_spec_witness : exists u',
  cmd_run ideal_ops [PSet demo_info; PStart; PStop; PGet; PStart] (mk_upper 1 false 1 info_zero LReady) =
    Ok ([(OK, InfoArg demo_info); (OK, NoArg); (OK, NoArg); (OK, InfoArg demo_info); (OK, NoArg)], u') /\
  LOn demo_info = dev u'.
Proof.
  destruct (pwm_refines_spec ideal_ops true any_info eq [PSet demo_info; PStart; PStop; PGet; PStart]
    (mk_upper 1 false 1 info_zero LReady) (mk_spec info_zero Fresh)) as (u' & H1 & H2).
  - repeat split.
  - split; reflexivity.
  - exists u'. split; [exact H1|]. symmetry. exact (pr_out _ _ _ H2).
Defined.

(** A registered device can be opened 255 times.  The hardware is set up by the
    first [open] only, the 256th is refused with [EMFILE] and changes nothing, and
    it is shut down by the last of the 255 calls of [close] and not before. *)
Theorem pwm_open_count {D} (ops : pwm_ops_s D) d r d1 r' d2 :
  setup ops d = Ok (r, d1) -> 0 <= r -> shutdown ops d1 = Ok (r', d2) ->
  let u255 := mk_upper 255 false 1 info_zero d1 in
  open_n ops 255 (new_upper d) = Ok u255 /\
  pwm_open ops u255 = Ok (- EMFILE, u255) /\
  close_n ops 254 u255 = Ok (set_crefs u255 1) /\
  pwm_close ops (set_crefs u255 1) = Ok (OK, mk_upper 0 false 1 info_zero d2).
Proof.
  intros Hs H0 Hd u255. split_and!.
  - by apply (open_n_first ops 254 _ _ r).
  - by apply pwm_open_full.
  - by apply close_n_more.
  - by apply (pwm_close_last ops (set_crefs u255 1) r' d2).
Qed.

Lemma pwm_open_count_witness :
  open_n ideal_ops 255 (new_upper LOff) = Ok (mk_upper 255 false 1 info_zero LReady).
Proof. apply (pwm_open_count ideal_ops LOff OK LReady OK LOff); reflexivity || discriminate. Defined.

(** [close] does not reset [started].  If a device is closed while its output is
    started, then after the next [open] the command to start the output reports
    success, and no pulses are output. *)
Theorem pwm_close_keeps_started {D} (ops : pwm_ops_s D) restarts supported phase `{!PwmLower ops restarts supported phase} u i :
  exclsem u = 1 -> crefs u = 1 -> started u = true -> phase (dev u) (LOn i) ->
  exists u1 u2 u3, pwm_close ops u = Ok (OK, u1) /\ pwm_open ops u1 = Ok (OK, u2) /\
    pwm_ioctl ops u2 PWMIOC_START NoArg = Ok (OK, NoArg, u3) /\ phase (dev u3) LReady.
Proof.
  intros He Hc Hst Hp. destruct (shutdown_ok _ _ Hp) as (r & d1 & E1 & H1); [done|].
  destruct (setup_ok _ H1) as (d2 & E2 & H2).
  eexists _, _, _. split; [by apply (pwm_close_last ops _ r); [|lia|]|].
  split; [by apply (pwm_open_first ops _ _ _ OK d2)|]. rewrite Hst. by split.
Qed.

Lemma pwm_close_keeps_started_witness : exists u1 u2 u3,
  pwm_close ideal_ops (mk_upper 1 true 1 demo_info (LOn demo_info)) = Ok (OK, u1) /\ pwm_open ideal_ops u1 = Ok (OK, u2) /\
  pwm_ioctl ideal_ops u2 PWMIOC_START NoArg = Ok (OK, NoArg, u3) /\ dev u3 = LReady.
Proof.
  apply (pwm_close_keeps_started ideal_ops true any_info eq (mk_upper 1 true 1 demo_info (LOn demo_info)) demo_info);
    reflexivity.
Defined.
