(* ===== verification/Stm32Pwm.v ===== *)
(** * The timer that drives the motors

    Model of [arch/arm/src/stm32/stm32_pwm.c] in the configuration of the board:
    TIM2, a general purpose timer with 32-bit counter, four channels, no pulse
    counting, no complementary outputs, timers of the first version.  It is the
    lower half of the PWM driver; its hardware is the class [Hw]. *)

From S2P Require Import Prelude Bits Inode Vfs Pwm Hw Gpio.
Local Open Scope Z_scope.

(** ** Constants *)

Definition TIMTYPE_BASIC : Z := 0.
Definition TIMTYPE_COUNTUP16 : Z := 2.
Definition TIMTYPE_COUNTUP16_N : Z := 3.
Definition TIMTYPE_GENERAL32 : Z := 4.
Definition TIMTYPE_ADVANCED : Z := 5.

Definition STM32_TIMMODE_COUNTUP : Z := 0.
Definition STM32_TIMMODE_COUNTDOWN : Z := 1.
Definition STM32_TIMMODE_CENTER1 : Z := 2.
Definition STM32_TIMMODE_CENTER2 : Z := 3.
Definition STM32_TIMMODE_CENTER3 : Z := 4.
Definition STM32_POL_NEG : Z := 1.

Definition GTIM_CR1_CEN : Z := Z.shiftl 1 0.
Definition GTIM_CR1_DIR : Z := Z.shiftl 1 4.
Definition GTIM_CR1_CMS_SHIFT : Z := 5.
Definition GTIM_CR1_CMS_MASK : Z := Z.shiftl 3 GTIM_CR1_CMS_SHIFT.
Definition GTIM_CR1_EDGE : Z := Z.shiftl 0 GTIM_CR1_CMS_SHIFT.
Definition GTIM_CR1_CENTER1 : Z := Z.shiftl 1 GTIM_CR1_CMS_SHIFT.
Definition GTIM_CR1_CENTER2 : Z := Z.shiftl 2 GTIM_CR1_CMS_SHIFT.
Definition GTIM_CR1_CENTER3 : Z := Z.shiftl 3 GTIM_CR1_CMS_SHIFT.
Definition GTIM_CR1_ARPE : Z := Z.shiftl 1 7.
Definition ATIM_EGR_UG : Z := Z.shiftl 1 0.
Definition ATIM_BDTR_MOE : Z := Z.shiftl 1 15.

Definition ATIM_CCMR1_CC1S_SHIFT : Z := 0.
Definition ATIM_CCMR1_CC1S_MASK : Z := Z.shiftl 3 ATIM_CCMR1_CC1S_SHIFT.
Definition ATIM_CCMR1_OC1PE : Z := Z.shiftl 1 3.
Definition ATIM_CCMR1_OC1M_SHIFT : Z := 4.
Definition ATIM_CCMR1_OC1M_MASK : Z := Z.shiftl 7 ATIM_CCMR1_OC1M_SHIFT.
Definition ATIM_CCMR1_CC2S_SHIFT : Z := 8.
Definition ATIM_CCMR1_CC2S_MASK : Z := Z.shiftl 3 ATIM_CCMR1_CC2S_SHIFT.
Definition ATIM_CCMR1_OC2PE : Z := Z.shiftl 1 11.
Definition ATIM_CCMR1_OC2M_SHIFT : Z := 12.
Definition ATIM_CCMR1_OC2M_MASK : Z := Z.shiftl 7 ATIM_CCMR1_OC2M_SHIFT.
Definition ATIM_CCMR_CCS_CCOUT : Z := 0.

Definition GTIM_CCER_CC1P : Z := Z.shiftl 1 1.
Definition GTIM_CCER_CC1NP : Z := Z.shiftl 1 3.
Definition ATIM_CCER_CC1E : Z := Z.shiftl 1 0.
Definition ATIM_CCER_CC1NE : Z := Z.shiftl 1 2.
Definition ATIM_CCER_CC2E : Z := Z.shiftl 1 4.
Definition ATIM_CCER_CC2NE : Z := Z.shiftl 1 6.
Definition ATIM_CCER_CC3E : Z := Z.shiftl 1 8.
Definition ATIM_CCER_CC3NE : Z := Z.shiftl 1 10.
Definition ATIM_CCER_CC4E : Z := Z.shiftl 1 12.

Definition STM32_PWM_OUT1 : Z := Z.shiftl 1 0.
Definition STM32_PWM_OUT1N : Z := Z.shiftl 1 1.
Definition STM32_PWM_OUT2 : Z := Z.shiftl 1 2.
Definition STM32_PWM_OUT2N : Z := Z.shiftl 1 3.
Definition STM32_PWM_OUT3 : Z := Z.shiftl 1 4.
Definition STM32_PWM_OUT3N : Z := Z.shiftl 1 5.
Definition STM32_PWM_OUT4 : Z := Z.shiftl 1 6.

Definition b16HALF : Z := 0x8000.
Definition b16toi (a : Z) : Z := Z.shiftr a 16.

(** ** The state of a timer *)

Record stm32_pwm_out_s := mk_out { in_use : Z; pol : Z; idle : Z; pincfg : Z }.
Record stm32_pwmchan_s := mk_pwmchan { ch_channel : Z; ch_mode : Z; out1 : stm32_pwm_out_s }.

(** [t_frequency] is the only field that changes. *)
Record stm32_pwmtimer_s := mk_timer {
  t_channels : list stm32_pwmchan_s;
  timid : Z;
  chan_num : Z;
  timtype : Z;
  t_mode : Z;
  t_frequency : Z;
  t_base : Z;
  pclk : Z
}.

Definition set_t_frequency (t : stm32_pwmtimer_s) (v : Z) : stm32_pwmtimer_s :=
  mk_timer (t_channels t) (timid t) (chan_num t) (timtype t) (t_mode t) v (t_base t) (pclk t).

(** [priv] with the hardware it drives. *)
Record stm32_dev (H : Type) := mk_tdev { priv : stm32_pwmtimer_s; hw : H }.
Arguments mk_tdev {H}. Arguments priv {H}. Arguments hw {H}.

(** *** The configuration of the board *)

Definition STM32_SYSCLK_FREQUENCY : Z := 168000000.
Definition STM32_HCLK_FREQUENCY : Z := STM32_SYSCLK_FREQUENCY.
Definition STM32_PCLK1_FREQUENCY : Z := STM32_HCLK_FREQUENCY / 4.
Definition STM32_APB1_TIM2_CLKIN : Z := 2 * STM32_PCLK1_FREQUENCY.

Definition CONFIG_STM32_TIM2_MODE : Z := 0.
Definition CONFIG_STM32_TIM2_CHnMODE : Z := 6.
Definition CONFIG_STM32_TIM2_CHnPOL : Z := 0.
Definition CONFIG_STM32_TIM2_CHnIDLE : Z := 0.

Definition GPIO_TIM2_CHnOUT_1 (pin : Z) : Z :=
  Z.lor (Z.lor (Z.lor (Z.lor (Z.lor GPIO_ALT GPIO_AF1) GPIO_SPEED_50MHz) GPIO_PUSHPULL) GPIO_PORTA) pin.
Definition GPIO_TIM2_CH1OUT : Z := GPIO_TIM2_CHnOUT_1 0.
Definition GPIO_TIM2_CH2OUT : Z := GPIO_TIM2_CHnOUT_1 1.
Definition GPIO_TIM2_CH3OUT : Z := GPIO_TIM2_CHnOUT_1 2.
Definition GPIO_TIM2_CH4OUT : Z := GPIO_TIM2_CHnOUT_1 3.

Definition g_pwm2channels : list stm32_pwmchan_s :=
  [mk_pwmchan 1 CONFIG_STM32_TIM2_CHnMODE (mk_out 1 CONFIG_STM32_TIM2_CHnPOL CONFIG_STM32_TIM2_CHnIDLE GPIO_TIM2_CH1OUT);
   mk_pwmchan 2 CONFIG_STM32_TIM2_CHnMODE (mk_out 1 CONFIG_STM32_TIM2_CHnPOL CONFIG_STM32_TIM2_CHnIDLE GPIO_TIM2_CH2OUT);
   mk_pwmchan 3 CONFIG_STM32_TIM2_CHnMODE (mk_out 1 CONFIG_STM32_TIM2_CHnPOL CONFIG_STM32_TIM2_CHnIDLE GPIO_TIM2_CH3OUT);
   mk_pwmchan 4 CONFIG_STM32_TIM2_CHnMODE (mk_out 1 CONFIG_STM32_TIM2_CHnPOL CONFIG_STM32_TIM2_CHnIDLE GPIO_TIM2_CH4OUT)].

Definition g_pwm2dev : stm32_pwmtimer_s :=
  mk_timer g_pwm2channels 2 4 TIMTYPE_GENERAL32 CONFIG_STM32_TIM2_MODE 0 STM32_TIM2_BASE STM32_APB1_TIM2_CLKIN.

(** ** Register access *)

Section Timer.
Context {H : Type} `{Hw H}.
Abbreviation timer := stm32_pwmtimer_s.
Abbreviation dev_t := (stm32_dev H).

Definition pwm_reg_is_32bit (timtype offset : Z) : bool :=
  (timtype =? TIMTYPE_GENERAL32) &&
  ((offset =? STM32_GTIM_CNT_OFFSET) || (offset =? STM32_GTIM_ARR_OFFSET) || (offset =? STM32_GTIM_CCR1_OFFSET) ||
   (offset =? STM32_GTIM_CCR2_OFFSET) || (offset =? STM32_GTIM_CCR3_OFFSET) || (offset =? STM32_GTIM_CCR4_OFFSET)).

Definition pwm_getreg (t : timer) (h : H) (offset : Z) : Z :=
  if pwm_reg_is_32bit (timtype t) offset then getreg32 h (t_base t + offset) else getreg16 h (t_base t + offset).

Definition pwm_putreg (t : timer) (h : H) (offset value : Z) : H :=
  if pwm_reg_is_32bit (timtype t) offset then putreg32 h value (t_base t + offset)
  else putreg16 h (u16 value) (t_base t + offset).

Definition pwm_modifyreg (t : timer) (h : H) (offset clearbits setbits : Z) : H :=
  if pwm_reg_is_32bit (timtype t) offset then modifyreg32 h (t_base t + offset) clearbits setbits
  else modifyreg16 h (t_base t + offset) (u16 clearbits) (u16 setbits).

(** ** Duty and frequency *)

Definition pwm_ccr_update (t : timer) (h : H) (index ccr : Z) : Z * H :=
  if index =? 1 then (OK, pwm_putreg t h STM32_GTIM_CCR1_OFFSET ccr)
  else if index =? 2 then (OK, pwm_putreg t h STM32_GTIM_CCR2_OFFSET ccr)
  else if index =? 3 then (OK, pwm_putreg t h STM32_GTIM_CCR3_OFFSET ccr)
  else if index =? 4 then (OK, pwm_putreg t h STM32_GTIM_CCR4_OFFSET ccr)
  else (- EINVAL, h).

Definition pwm_arr_update (t : timer) (h : H) (arr : Z) : H := pwm_putreg t h STM32_GTIM_ARR_OFFSET arr.
Definition pwm_arr_get (t : timer) (h : H) : Z := pwm_getreg t h STM32_GTIM_ARR_OFFSET.

(** The result of [pwm_ccr_update] is ignored. *)
Definition pwm_duty_update (t : timer) (h : H) (channel duty : Z) : Z * H :=
  let reload := pwm_arr_get t h in
  let ccr := b16toi (u32 (duty * reload + b16HALF)) in
  let '(_, h) := pwm_ccr_update t h channel ccr in
  (OK, h).

Definition pwm_timer_enable (t : timer) (h : H) (state : bool) : H :=
  if state then pwm_modifyreg t h STM32_GTIM_CR1_OFFSET 0 GTIM_CR1_CEN
  else pwm_modifyreg t h STM32_GTIM_CR1_OFFSET GTIM_CR1_CEN 0.

Definition clamp_prescaler (prescaler : Z) : Z :=
  if prescaler <? 1 then 1 else if 65536 <? prescaler then 65536 else prescaler.

Definition clamp_reload (reload : Z) : Z :=
  if reload <? 2 then 1 else if 65535 <? reload then 65535 else reload - 1.

Definition pwm_frequency_update (t : timer) (h : H) (frequency : Z) : res (Z * H) :=
  if frequency =? 0 then Err DivByZero
  else
    let prescaler := clamp_prescaler (u32 (pclk t / frequency + 65534) / 65535) in
    let timclk := pclk t / prescaler in
    let reload := clamp_reload (timclk / frequency) in
    let h := pwm_arr_update t h reload in
    let h := pwm_putreg t h STM32_GTIM_PSC_OFFSET (u16 (prescaler - 1)) in
    Ok (OK, h).

(** ** Configuration *)

Definition pwm_timer_configure (t : timer) (h : H) : Z * H :=
  let cr1 := u16 (pwm_getreg t h STM32_GTIM_CR1_OFFSET) in
  let '(ret, cr1) :=
    if negb (timtype t =? TIMTYPE_BASIC) && negb (timtype t =? TIMTYPE_COUNTUP16) then
      let cr1 := clrbits cr1 (Z.lor GTIM_CR1_DIR GTIM_CR1_CMS_MASK) in
      if t_mode t =? STM32_TIMMODE_COUNTUP then (OK, Z.lor cr1 GTIM_CR1_EDGE)
      else if t_mode t =? STM32_TIMMODE_COUNTDOWN then (OK, Z.lor cr1 (Z.lor GTIM_CR1_EDGE GTIM_CR1_DIR))
      else if t_mode t =? STM32_TIMMODE_CENTER1 then (OK, Z.lor cr1 GTIM_CR1_CENTER1)
      else if t_mode t =? STM32_TIMMODE_CENTER2 then (OK, Z.lor cr1 GTIM_CR1_CENTER2)
      else if t_mode t =? STM32_TIMMODE_CENTER3 then (OK, Z.lor cr1 GTIM_CR1_CENTER3)
      else (- EINVAL, cr1)
    else (OK, cr1) in
  if ret <? 0 then (ret, h)
  else
    let cr1 := Z.lor cr1 GTIM_CR1_ARPE in
    (ret, pwm_putreg t h STM32_GTIM_CR1_OFFSET cr1).

(** The values of the modes, [STM32_CHANMODE_FRZN] to [STM32_CHANMODE_PWM2], are
    those of the field [OCxM], [GTIM_CCMR_MODE_FRZN] to [ATIM_CCMR_MODE_PWM2]. *)
Definition chanmode_of (mode : Z) : option Z :=
  if (0 <=? mode) && (mode <=? 7) then Some mode else None.

Definition ccmr_offset (channel : Z) : option Z :=
  if (channel =? 1) || (channel =? 2) then Some STM32_GTIM_CCMR1_OFFSET
  else if (channel =? 3) || (channel =? 4) then Some STM32_GTIM_CCMR2_OFFSET
  else None.

Definition pwm_mode_configure (t : timer) (h : H) (channel mode : Z) : Z * H :=
  match chanmode_of mode with
  | None => (- EINVAL, h)
  | Some chanmode =>
      match ccmr_offset channel with
      | None => (- EINVAL, h)
      | Some offset =>
          let ccmr := pwm_getreg t h offset in
          let '(ccmr, ocmode) :=
            if (channel =? 1) || (channel =? 3) then
              (clrbits ccmr (Z.lor (Z.lor ATIM_CCMR1_CC1S_MASK ATIM_CCMR1_OC1M_MASK) ATIM_CCMR1_OC1PE),
               Z.lor (Z.lor (Z.shiftl ATIM_CCMR_CCS_CCOUT ATIM_CCMR1_CC1S_SHIFT) (Z.shiftl chanmode ATIM_CCMR1_OC1M_SHIFT))
                 ATIM_CCMR1_OC1PE)
            else
              (clrbits ccmr (Z.lor (Z.lor ATIM_CCMR1_CC2S_MASK ATIM_CCMR1_OC2M_MASK) ATIM_CCMR1_OC2PE),
               Z.lor (Z.lor (Z.shiftl ATIM_CCMR_CCS_CCOUT ATIM_CCMR1_CC2S_SHIFT) (Z.shiftl chanmode ATIM_CCMR1_OC2M_SHIFT))
                 ATIM_CCMR1_OC2PE) in
          (OK, pwm_putreg t h offset (Z.lor ccmr ocmode))
      end
  end.

(** [priv->channels[i]]. *)
Definition chan_at (t : timer) (i : Z) : res stm32_pwmchan_s :=
  if i <? 0 then Err (BadAddr i) else array_get (t_channels t) (Z.to_nat i).

(** The register is written by setting bits only, also where [ccer] has bits
    cleared. *)
Definition pwm_output_configure (t : timer) (h : H) (channel : Z) : res (Z * H) :=
  let cr2 := pwm_getreg t h STM32_GTIM_CR2_OFFSET in
  let ccer := pwm_getreg t h STM32_GTIM_CCER_OFFSET in
  c ← chan_at t (channel - 1);
  let ccer :=
    if pol (out1 c) =? STM32_POL_NEG then Z.lor ccer (Z.shiftl GTIM_CCER_CC1P ((channel - 1) * 4))
    else clrbits ccer (Z.shiftl GTIM_CCER_CC1P ((channel - 1) * 4)) in
  let ccer := clrbits ccer (Z.shiftl GTIM_CCER_CC1NP ((channel - 1) * 4)) in
  let h := pwm_modifyreg t h STM32_GTIM_CR2_OFFSET 0 cr2 in
  let h := pwm_modifyreg t h STM32_GTIM_CCER_OFFSET 0 ccer in
  Ok (OK, h).

Definition out_bit (outputs out bit : Z) : Z := if negb (Z.land outputs out =? 0) then bit else 0.

Definition pwm_outputs_enable (t : timer) (h : H) (outputs : Z) (state : bool) : Z * H :=
  let ccer := pwm_getreg t h STM32_GTIM_CCER_OFFSET in
  let regval := out_bit outputs STM32_PWM_OUT1 ATIM_CCER_CC1E in
  let regval := Z.lor regval (out_bit outputs STM32_PWM_OUT1N ATIM_CCER_CC1NE) in
  let regval := Z.lor regval (out_bit outputs STM32_PWM_OUT2 ATIM_CCER_CC2E) in
  let regval := Z.lor regval (out_bit outputs STM32_PWM_OUT2N ATIM_CCER_CC2NE) in
  let regval := Z.lor regval (out_bit outputs STM32_PWM_OUT3 ATIM_CCER_CC3E) in
  let regval := Z.lor regval (out_bit outputs STM32_PWM_OUT3N ATIM_CCER_CC3NE) in
  let regval := Z.lor regval (out_bit outputs STM32_PWM_OUT4 ATIM_CCER_CC4E) in
  let ccer := if state then Z.lor ccer regval else clrbits ccer regval in
  (OK, pwm_putreg t h STM32_GTIM_CCER_OFFSET ccer).

Definition pwm_soft_update (t : timer) (h : H) : H := pwm_putreg t h STM32_GTIM_EGR_OFFSET ATIM_EGR_UG.

Definition pwm_soft_break (t : timer) (h : H) (state : bool) : Z * H :=
  (OK, if state then pwm_modifyreg t h STM32_ATIM_BDTR_OFFSET ATIM_BDTR_MOE 0
       else pwm_modifyreg t h STM32_ATIM_BDTR_OFFSET 0 ATIM_BDTR_MOE).

(** The loops run over [chan_num] channels from [i] on. *)
Fixpoint outputs_loop (t : timer) (n : nat) (i outputs : Z) : res Z :=
  match n with
  | O => Ok outputs
  | S n =>
      c ← chan_at t i;
      let outputs :=
        if negb (ch_channel c =? 0) && (in_use (out1 c) =? 1)
        then u16 (Z.lor outputs (Z.shiftl STM32_PWM_OUT1 ((ch_channel c - 1) * 2))) else outputs in
      outputs_loop t n (i + 1) outputs
  end.

Definition pwm_outputs_from_channels (t : timer) : res Z := outputs_loop t (Z.to_nat (chan_num t)) 0 0.

Fixpoint configure_loop (t : timer) (n : nat) (h : H) (j : Z) (ret : Z) : res (Z * H) :=
  match n with
  | O => Ok (ret, h)
  | S n =>
      c ← chan_at t j;
      if negb (ch_channel c =? 0) then
        let '(ret, h) := pwm_mode_configure t h (ch_channel c) (ch_mode c) in
        if ret <? 0 then Ok (ret, h)
        else
          '(ret, h) ← pwm_output_configure t h (ch_channel c);
          if ret <? 0 then Ok (ret, h) else configure_loop t n h (j + 1) ret
      else configure_loop t n h (j + 1) ret
  end.

Definition pwm_configure (t : timer) (h : H) : res (Z * H) :=
  outputs ← pwm_outputs_from_channels t;
  let '(ret, h) := pwm_outputs_enable t h outputs false in
  if ret <? 0 then Ok (ret, h)
  else
    let h := pwm_timer_enable t h false in
    let '(ret, h) := pwm_timer_configure t h in
    if ret <? 0 then Ok (ret, h)
    else
      '(ret, h) ← configure_loop t (Z.to_nat (chan_num t)) h 0 ret;
      if ret <? 0 then Ok (ret, h)
      else if (timtype t =? TIMTYPE_ADVANCED) || (timtype t =? TIMTYPE_COUNTUP16_N) then
        Ok (pwm_soft_break t h false)
      else Ok (ret, h).

(** ** Output *)

(** Is there a channel with this number? *)
Definition has_channel (t : timer) (channel : Z) : bool :=
  existsb (fun c => ch_channel c =? channel) (take (Z.to_nat (chan_num t)) (t_channels t)).

(** A channel that does not exist ends the loop; the error is lost. *)
Fixpoint duty_loop (t : timer) (l : list pwm_chan_s) (h : H) : Z * H :=
  match l with
  | [] => (OK, h)
  | c :: l =>
      if negb (channel c =? 0) then
        if negb (has_channel t (channel c)) then (OK, h)
        else
          let '(ret, h) := pwm_duty_update t h (channel c) (duty c) in
          if ret <? 0 then (OK, h) else duty_loop t l h
      else duty_loop t l h
  end.

Definition pwm_duty_channels_update (t : timer) (h : H) (i : pwm_info_s) : Z * H := duty_loop t (channels i) h.

Definition pwm_timer (t : timer) (h : H) (i : pwm_info_s) : res (Z * H) :=
  '(ret, h) ← pwm_frequency_update t h (frequency i);
  if ret <? 0 then Ok (ret, h)
  else
    let '(ret, h) := pwm_duty_channels_update t h i in
    if ret <? 0 then Ok (ret, h)
    else
      let h := pwm_soft_update t h in
      outputs ← pwm_outputs_from_channels t;
      let '(ret, h) := pwm_outputs_enable t h outputs true in
      if ret <? 0 then Ok (ret, h)
      else Ok (ret, pwm_timer_enable t h true).

(** ** The methods of the lower half *)

Definition pwm_set_apb_clock (t : timer) (h : H) (on : bool) : Z * H :=
  if timid t =? 2 then
    (OK, if on then modifyreg32 h STM32_RCC_APB1ENR 0 RCC_APB1ENR_TIM2EN
         else modifyreg32 h STM32_RCC_APB1ENR RCC_APB1ENR_TIM2EN 0)
  else (- EINVAL, h).

Fixpoint setup_pins (t : timer) (n : nat) (h : H) (i : Z) : res H :=
  match n with
  | O => Ok h
  | S n =>
      c ← chan_at t i;
      let h := if in_use (out1 c) =? 1 then snd (stm32_configgpio h (pincfg (out1 c))) else h in
      setup_pins t n h (i + 1)
  end.

Definition pwm_setup (d : dev_t) : res (Z * dev_t) :=
  let t := priv d in
  let '(ret, h) := pwm_set_apb_clock t (hw d) true in
  if ret <? 0 then Ok (ret, mk_tdev t h)
  else
    h ← setup_pins t (Z.to_nat (chan_num t)) h 0;
    '(ret, h) ← pwm_configure t h;
    if ret <? 0 then Ok (ERROR, mk_tdev t h) else Ok (ret, mk_tdev t h).

Definition pwm_stop (d : dev_t) : Z * dev_t :=
  let t := priv d in
  if timid t =? 2 then
    let t := set_t_frequency t 0 in
    let h := pwm_putreg t (hw d) STM32_GTIM_DIER_OFFSET 0 in
    let h := pwm_putreg t h STM32_GTIM_SR_OFFSET 0 in
    let regval := getreg32 h STM32_RCC_APB1RSTR in
    let regval := Z.lor regval RCC_APB1RSTR_TIM2RST in
    let h := putreg32 h regval STM32_RCC_APB1RSTR in
    let regval := clrbits regval RCC_APB1RSTR_TIM2RST in
    let h := putreg32 h regval STM32_RCC_APB1RSTR in
    (OK, mk_tdev t h)
  else (- EINVAL, d).

Definition PINCFG_DEFAULT : Z := Z.lor GPIO_INPUT GPIO_FLOAT.

Fixpoint shutdown_pins (t : timer) (n : nat) (h : H) (i : Z) : res H :=
  match n with
  | O => Ok h
  | S n =>
      c ← chan_at t i;
      let cfg := pincfg (out1 c) in
      let h :=
        if negb (cfg =? 0) then
          let cfg := Z.land cfg (Z.lor GPIO_PORT_MASK GPIO_PIN_MASK) in
          let cfg := Z.lor cfg PINCFG_DEFAULT in
          snd (stm32_configgpio h cfg)
        else h in
      shutdown_pins t n h (i + 1)
  end.

Definition pwm_shutdown (d : dev_t) : res (Z * dev_t) :=
  let '(_, d) := pwm_stop d in
  let t := priv d in
  let '(ret, h) := pwm_set_apb_clock t (hw d) false in
  if ret <? 0 then Ok (ret, mk_tdev t h)
  else
    h ← shutdown_pins t (Z.to_nat (chan_num t)) h 0;
    Ok (ret, mk_tdev t h).

(** At an unchanged frequency only the duties are written. *)
Fixpoint start_duties (t : timer) (l : list pwm_chan_s) (h : H) (ret : Z) : Z * H :=
  match l with
  | [] => (ret, h)
  | c :: l =>
      if ret =? OK then
        let '(ret, h) := pwm_duty_update t h (channel c) (duty c) in start_duties t l h ret
      else (ret, h)
  end.

Definition pwm_start (d : dev_t) (i : pwm_info_s) : res (Z * dev_t) :=
  let t := priv d in
  if frequency i =? t_frequency t then
    let '(ret, h) := start_duties t (channels i) (hw d) OK in
    Ok (ret, mk_tdev t h)
  else
    '(ret, h) ← pwm_timer t (hw d) i;
    Ok (ret, mk_tdev (if ret =? OK then set_t_frequency t (frequency i) else t) h).

Definition pwm_ioctl (d : dev_t) (cmd : Z) (arg : pwm_arg) : Z * pwm_arg * dev_t := (- ENOTTY, arg, d).

Definition g_pwmops : pwm_ops_s dev_t :=
  mk_ops pwm_setup pwm_shutdown pwm_start (fun d => Ok (pwm_stop d)) (fun d cmd arg => Ok (pwm_ioctl d cmd arg)).
End Timer.

Definition stm32_pwminitialize (timer : Z) : option stm32_pwmtimer_s := if timer =? 2 then Some g_pwm2dev else None.
