(* ===== verification/Stm32PwmProps.v ===== *)
(** * The phases of the timer

    The functions of the lower half as updates of the registers, and the phases
    they take the timer through.  They are those the PWM driver expects, with one
    exception: after [stop] the timer has to be set up again. *)

From S2P Require Import Prelude Bits Inode Vfs Pwm PwmProps Hw Gpio GpioProps Stm32Pwm.
Local Open Scope Z_scope.

(** ** Registers *)

Definition tim (o : Z) : Z := STM32_TIM2_BASE + o.

Definition tim16 : list Z :=
  [STM32_GTIM_CR1_OFFSET; STM32_GTIM_CR2_OFFSET; STM32_GTIM_CCMR1_OFFSET; STM32_GTIM_CCMR2_OFFSET;
   STM32_GTIM_CCER_OFFSET; STM32_GTIM_PSC_OFFSET].
Definition tim32 : list Z :=
  [STM32_GTIM_ARR_OFFSET; STM32_GTIM_CCR1_OFFSET; STM32_GTIM_CCR2_OFFSET; STM32_GTIM_CCR3_OFFSET; STM32_GTIM_CCR4_OFFSET].

(** The clock of the timer is on. *)
Definition tim_on (f : Z -> Z) : Prop := Z.testbit (f STM32_RCC_APB1ENR) 0 = true.

Lemma tim_on_upd f o v : o ∈ tim16 ++ tim32 -> tim_on f -> tim_on (upd f (tim o) v).
Proof. intros Ho. by each Ho. Qed.

Lemma port_on_upd f o v q : o ∈ tim16 ++ tim32 -> port_on f q -> port_on (upd f (tim o) v) q.
Proof. intros Ho. by each Ho. Qed.

Lemma pin_of_upd f o v p : o ∈ tim16 ++ tim32 -> pin_of (upd f (tim o) v) 0 p = pin_of f 0 p.
Proof. intros Ho. by each Ho. Qed.

Lemma legal16 a v : tim_reg16 a = true -> legal a v -> u16 v = v.
Proof.
  intros Ha Hl. assert (Z.land v (Z.ones 16) = v) as E.
  { rewrite <- (legal_land a v Hl) at 1. rewrite <- Z.land_assoc. change (Z.ones 16) with 0xffff.
    by rewrite (reg16_small a Ha), legal_land. }
  by rewrite Z.land_ones in E by done.
Qed.

(** ** The values written for a frequency and a duty *)

Definition prescaler_of (fr : Z) : Z := clamp_prescaler (u32 (STM32_APB1_TIM2_CLKIN / fr + 65534) / 65535).
Definition arr_of (fr : Z) : Z := clamp_reload (STM32_APB1_TIM2_CLKIN / prescaler_of fr / fr).
Definition ccr_of (arr d : Z) : Z := b16toi (u32 (d * arr + b16HALF)).

Lemma prescaler_range fr : 1 <= prescaler_of fr <= 65536.
Proof. unfold prescaler_of, clamp_prescaler. repeat split_if; b2p; lia. Qed.

Lemma arr_range fr : 1 <= arr_of fr <= 65535.
Proof. unfold arr_of, clamp_reload. repeat split_if; b2p; lia. Qed.

Lemma ccr_range arr d : 0 <= ccr_of arr d < 2 ^ 32.
Proof.
  unfold ccr_of, b16toi. rewrite Z.shiftr_div_pow2 by done. pose proof (u32_range (d * arr + b16HALF)).
  split; [apply Z.div_pos; lia|]. apply Z.le_lt_trans with (u32 (d * arr + b16HALF)); [|lia]. apply Z.div_le_upper_bound; lia.
Qed.

(** The quotient that the timer counts is the whole part of clock over
    frequency, divided by the prescaler. *)
Lemma arr_value fr :
  1 <= fr -> 2 * fr <= STM32_APB1_TIM2_CLKIN ->
  let p := prescaler_of fr in
  2 <= arr_of fr + 1 <= 65535 /\ 65535 * (p - 1) * fr < STM32_APB1_TIM2_CLKIN /\
  p * (arr_of fr + 1) * fr <= STM32_APB1_TIM2_CLKIN < p * (arr_of fr + 1) * fr + p * fr.
Proof.
  intros Hfr Hmax. cbv zeta. remember (prescaler_of fr) as p eqn:Hp. change STM32_APB1_TIM2_CLKIN with 84000000 in *.
  set (q := 84000000 / fr).
  assert (2 <= q <= 84000000) as Hq.
  { unfold q. split; [apply Z.div_le_lower_bound; lia|]. apply Z.div_le_upper_bound; nia. }
  assert (65535 * (p - 1) < q <= 65535 * p) as Ep.
  { rewrite Hp. unfold prescaler_of. change STM32_APB1_TIM2_CLKIN with 84000000. fold q. rewrite u32_small by lia.
    unfold clamp_prescaler. repeat split_if; b2p; modlia. }
  assert (84000000 / p / fr = q / p) as En.
  { unfold q. rewrite !Z.div_div by lia. by rewrite Z.mul_comm. }
  assert (2 <= q / p <= 65535) as Hn.
  { split; [apply Z.div_le_lower_bound; lia|]. enough (q / p < 65536) by lia. apply Z.div_lt_upper_bound; lia. }
  assert (arr_of fr + 1 = q / p) as ->.
  { unfold arr_of, clamp_reload. change STM32_APB1_TIM2_CLKIN with 84000000. rewrite <- Hp, En. repeat split_if; b2p; lia. }
  split; [done|]. split.
  { pose proof (Z.mul_div_le 84000000 fr ltac:(lia)) as Hm. fold q in Hm. nia. }
  rewrite <- En, Z.div_div by lia.
  pose proof (Z.div_mod 84000000 (p * fr) ltac:(nia)). pose proof (Z.mod_pos_bound 84000000 (p * fr) ltac:(nia)). nia.
Qed.

(** The compare value is the duty of the reload value, to the nearest count. *)
Lemma ccr_value arr d :
  0 <= arr <= 65535 -> 0 <= d <= 65536 -> 0 <= ccr_of arr d <= arr /\ Z.abs (ccr_of arr d * 65536 - d * arr) <= 32768.
Proof.
  intros Ha Hd. unfold ccr_of, b16toi, b16HALF. rewrite u32_small by nia. rewrite Z.shiftr_div_pow2 by done.
  change (2 ^ 16) with 65536. assert (0 <= d * arr <= 65536 * arr) by nia.
  pose proof (Z.div_mod (d * arr + 32768) 65536 ltac:(done)). pose proof (Z.mod_pos_bound (d * arr + 32768) 65536 ltac:(done)).
  set (c := (d * arr + 32768) / 65536) in *. lia.
Qed.

(** Where the mode of a channel is. *)
Definition ccmr_of (ch : Z) : Z := if ch <=? 2 then STM32_GTIM_CCMR1_OFFSET else STM32_GTIM_CCMR2_OFFSET.
Definition odd_ch (ch : Z) : bool := (ch =? 1) || (ch =? 3).

Section Timer.
Context {H : Type} `{HwLaws H}.
Abbreviation g fr := (set_t_frequency g_pwm2dev fr).

Lemma getreg_is h f fr o : hw_is h f -> tim_on f -> o ∈ tim16 ++ tim32 -> pwm_getreg (g fr) h o = f (tim o).
Proof. intros Hf Hon Ho. each Ho; (by apply get16_is) || (by apply get32_is). Qed.

Lemma putreg_is h f fr o v :
  hw_is h f -> tim_on f -> o ∈ tim16 ++ tim32 -> legal (tim o) v -> hw_is (pwm_putreg (g fr) h o v) (upd f (tim o) v).
Proof.
  intros Hf Hon Ho Hl. each Ho; try (by apply put32_is);
    match type of Hl with legal ?a _ =>
      pose proof (put16_is h f a v Hf eq_refl Hon Hl) as E; rewrite <- (legal16 a v eq_refl Hl) in E at 1; exact E
    end.
Qed.
Lemma modifyreg_is h f fr o c s :
  hw_is h f -> tim_on f -> o ∈ tim16 -> u16 c = c -> legal (tim o) s ->
  hw_is (pwm_modifyreg (g fr) h o c s) (upd f (tim o) (Z.lor (clrbits (f (tim o)) c) s)).
Proof.
  intros Hf Hon Ho Hc Hl.
  assert (tim_reg16 (tim o) = true /\ pwm_reg_is_32bit TIMTYPE_GENERAL32 o = false /\ clock_on f (tim o) = true) as (Hr & Hn & Hk)
    by (by each Ho).
  unfold pwm_modifyreg. cbn [timtype set_t_frequency g_pwm2dev t_base]. rewrite Hn, Hc, (legal16 (tim o) s) by done.
  by apply modify16_is.
Qed.

Lemma legal_reg h f o : hw_is h f -> o ∈ tim16 ++ tim32 -> legal (tim o) (f (tim o)).
Proof. intros Hf Ho. apply (hw_is_legal h); [done|]. by each Ho. Qed.

Ltac reg := apply (bool_decide_unpack _); vm_compute; exact I.
Ltac hook := first [reg|done|(by vm_compute)].

(** ** The functions on the registers *)

(** All four outputs. *)
Lemma outputs_of_channels fr : pwm_outputs_from_channels (g fr) = Ok 0x55.
Proof. done. Qed.

Lemma outputs_enable_is h f fr st :
  hw_is h f -> tim_on f ->
  exists h', pwm_outputs_enable (g fr) h 0x55 st = (OK, h') /\
    hw_is h' (upd f (tim STM32_GTIM_CCER_OFFSET)
      (if st then Z.lor (f (tim STM32_GTIM_CCER_OFFSET)) 0x1111 else clrbits (f (tim STM32_GTIM_CCER_OFFSET)) 0x1111)).
Proof.
  intros Hf Hon. eexists. split; [done|]. rewrite (getreg_is h f) by hook.
  pose proof (legal_reg h f STM32_GTIM_CCER_OFFSET Hf ltac:(reg)) as Hl.
  apply putreg_is; try hook. destruct st; [apply legal_lor|apply legal_clr]; done.
Qed.

Lemma timer_enable_is h f fr st :
  hw_is h f -> tim_on f ->
  hw_is (pwm_timer_enable (g fr) h st) (upd f (tim STM32_GTIM_CR1_OFFSET)
    (if st then Z.lor (clrbits (f (tim STM32_GTIM_CR1_OFFSET)) 0) 1 else Z.lor (clrbits (f (tim STM32_GTIM_CR1_OFFSET)) 1) 0)).
Proof. intros Hf Hon. destruct st; apply modifyreg_is; hook. Qed.

Lemma timer_configure_is h f fr :
  hw_is h f -> tim_on f ->
  exists h', pwm_timer_configure (g fr) h = (OK, h') /\
    hw_is h' (upd f (tim STM32_GTIM_CR1_OFFSET) (Z.lor (Z.lor (clrbits (f (tim STM32_GTIM_CR1_OFFSET)) 0x70) 0) 0x80)).
Proof.
  intros Hf Hon. pose proof (legal_reg h f STM32_GTIM_CR1_OFFSET Hf ltac:(reg)) as Hl.
  unfold pwm_timer_configure. rewrite (getreg_is h f), (legal16 (tim STM32_GTIM_CR1_OFFSET)) by hook.
  eexists. split; [done|]. apply putreg_is; try hook. by do 2 (apply legal_lor; [|done]); apply legal_clr.
Qed.

(** PWM mode 1 with preload. *)
Lemma mode_configure_is h f fr ch :
  hw_is h f -> tim_on f -> ch ∈ [1; 2; 3; 4] ->
  exists h', pwm_mode_configure (g fr) h ch 6 = (OK, h') /\
    hw_is h' (upd f (tim (ccmr_of ch))
      (if odd_ch ch then Z.lor (clrbits (f (tim (ccmr_of ch))) 0x7b) 0x68
       else Z.lor (clrbits (f (tim (ccmr_of ch))) 0x7b00) 0x6800)).
Proof.
  intros Hf Hon Hc.
  assert (forall o, o ∈ [STM32_GTIM_CCMR1_OFFSET; STM32_GTIM_CCMR2_OFFSET] -> forall m s, legal (tim o) s ->
    hw_is (pwm_putreg (g fr) h o (Z.lor (clrbits (pwm_getreg (g fr) h o) m) s)) (upd f (tim o) (Z.lor (clrbits (f (tim o)) m) s))) as Hp.
  { intros o Ho m s Hs. assert (o ∈ tim16 ++ tim32) as Ho' by (each Ho; reg). rewrite (getreg_is h f) by done.
    apply putreg_is; try done. apply legal_lor, Hs. by apply legal_clr, (legal_reg h). }
  each Hc; (eexists; split; [reflexivity|]); apply Hp; hook.
Qed.
Lemma output_configure_is h f fr ch :
  hw_is h f -> tim_on f -> ch ∈ [1; 2; 3; 4] ->
  let cr2 := f (tim STM32_GTIM_CR2_OFFSET) in
  let ccer := f (tim STM32_GTIM_CCER_OFFSET) in
  exists h', pwm_output_configure (g fr) h ch = Ok (OK, h') /\
    hw_is h' (upd (upd f (tim STM32_GTIM_CR2_OFFSET) (Z.lor (clrbits cr2 0) cr2)) (tim STM32_GTIM_CCER_OFFSET)
      (Z.lor (clrbits ccer 0) (clrbits (clrbits ccer (Z.shiftl 2 ((ch - 1) * 4))) (Z.shiftl 8 ((ch - 1) * 4))))).
Proof.
  intros Hf Hon Hc cr2 ccer. pose proof (legal_reg h f STM32_GTIM_CCER_OFFSET Hf ltac:(reg)) as Hl.
  pose proof (legal_reg h f STM32_GTIM_CR2_OFFSET Hf ltac:(reg)) as Hl2.
  assert (exists c, chan_at (g fr) (ch - 1) = Ok c /\ pol (out1 c) = 0) as (c & Ec & Ep).
  { each Hc; (eexists; split; [reflexivity|done]). }
  unfold pwm_output_configure. rewrite !(getreg_is h f), Ec, bind_Ok, Ep by hook.
  eexists. split; [reflexivity|].
  pose proof (modifyreg_is h f fr STM32_GTIM_CR2_OFFSET 0 _ Hf Hon ltac:(reg) eq_refl Hl2) as Hf1.
  apply (modifyreg_is _ _ fr STM32_GTIM_CCER_OFFSET 0 _ Hf1); try hook.
  by apply legal_clr, legal_clr.
Qed.

(** ** The registers as a list *)

Definition tims : list Z := tim16 ++ tim32.
Definition regs (f : Z -> Z) : list Z := (fun o => f (tim o)) <$> tims.

(** Everything that is not a register of the timer is as in [G]. *)
Definition same_out (G f : Z -> Z) : Prop := forall a, storage a = true -> tim_reg16 a || tim_reg32 a = false -> f a = G a.

(** The timer is clocked and its registers hold [r]. *)
Record tim_st (h : H) (G : Z -> Z) (r : list Z) : Prop := {
  ts_on : tim_on (hw_val h);
  ts_regs : regs (hw_val h) = r;
  ts_out : same_out G (hw_val h)
}.

Lemma ts_get h G r i o x : tim_st h G r -> tims !! i = Some o -> r !! i = Some x -> hw_val h (tim o) = x.
Proof. intros [_ <- _] Ho. unfold regs. rewrite list_lookup_fmap, Ho. by intros [= ->]. Qed.

Lemma tims_reg o : o ∈ tims -> storage (tim o) = true /\ tim_reg16 (tim o) || tim_reg32 (tim o) = true.
Proof. intros Ho. by each Ho. Qed.

Lemma tims_nodup : NoDup tims.
Proof. reg. Qed.

#[local] Opaque tims.

Lemma ts_upd h h' G r i o v :
  tim_st h G r -> hw_is h' (upd (hw_val h) (tim o) v) -> tims !! i = Some o -> tim_st h' G (<[i := v]> r).
Proof.
  intros [Hon Hr Ho] Hu Hi. pose proof (list_elem_of_lookup_2 _ _ _ Hi) as Hin.
  assert (forall o', o' ∈ tims -> hw_val h' (tim o') = upd (hw_val h) (tim o) v (tim o')) as Hv.
  { intros o' Ho'. by apply Hu, tims_reg. }
  split.
  - unfold tim_on. rewrite Hu by done. by apply tim_on_upd.
  - subst r. unfold regs. apply list_eq. intros j. rewrite list_lookup_fmap. destruct (tims !! j) as [o'|] eqn:Ej; cbn.
    + rewrite Hv by (by eapply list_elem_of_lookup_2). unfold upd, tim. destruct (decide (i = j)) as [->|Hn].
      * rewrite Hi in Ej. injection Ej as ->. rewrite Z.eqb_refl, list_lookup_insert_eq; [done|].
        rewrite length_fmap. by eapply lookup_lt_Some.
      * rewrite list_lookup_insert_ne, list_lookup_fmap, Ej by done. cbn. destruct (Z.eqb_spec (STM32_TIM2_BASE + o') (STM32_TIM2_BASE + o)); [|done].
        exfalso. apply Hn. apply (NoDup_lookup tims i j o); [apply tims_nodup|done|]. rewrite Ej. f_equal. lia.
    + symmetry. apply lookup_ge_None_2. rewrite length_insert, length_fmap. by apply lookup_ge_None_1.
  - intros a Ha Hn. rewrite Hu by done. unfold upd. destruct (a =? tim o) eqn:E; [|by apply Ho].
    apply Z.eqb_eq in E as ->. destruct (tims_reg o Hin) as [_ E]. congruence.
Qed.

#[local] Transparent tims.
(** ** Setting up *)

Definition ccmr_ix (ch : Z) : nat := if ch <=? 2 then 2 else 3.

(** One channel, with all outputs disabled. *)
Lemma configure_chan h G r fr ch m :
  tim_st h G r -> ch ∈ [1; 2; 3; 4] -> r !! 1%nat = Some 0 -> r !! 4%nat = Some 0 -> r !! ccmr_ix ch = Some m ->
  exists h1 h2, pwm_mode_configure (g fr) h ch 6 = (OK, h1) /\ pwm_output_configure (g fr) h1 ch = Ok (OK, h2) /\
    tim_st h2 G (<[ccmr_ix ch := if odd_ch ch then Z.lor (clrbits m 0x7b) 0x68 else Z.lor (clrbits m 0x7b00) 0x6800]> r).
Proof.
  intros St Hc E1 E4 Em. assert (tims !! ccmr_ix ch = Some (ccmr_of ch)) as Hi by (by each Hc).
  destruct (mode_configure_is h _ fr ch (hw_is_val h) (ts_on _ _ _ St) Hc) as (h1 & Eh1 & Hf1).
  rewrite (ts_get _ _ _ _ _ _ St Hi Em) in Hf1. pose proof (ts_upd _ _ _ _ _ _ _ St Hf1 Hi) as St1. clear Hf1.
  set (r1 := <[ccmr_ix ch := _]> r) in *.
  assert (r1 !! 1%nat = Some 0 /\ r1 !! 4%nat = Some 0) as [F1 F4].
  { unfold r1, ccmr_ix. destruct (ch <=? 2); by rewrite !list_lookup_insert_ne. }
  destruct (output_configure_is h1 _ fr ch (hw_is_val h1) (ts_on _ _ _ St1) Hc) as (h2 & Eh2 & Hf2).
  exists h1, h2. split; [done|]. split; [done|].
  rewrite (ts_get _ _ _ 1 STM32_GTIM_CR2_OFFSET 0 St1), (ts_get _ _ _ 4 STM32_GTIM_CCER_OFFSET 0 St1) in Hf2 by done.
  rewrite !Z.ldiff_0_l in Hf2. change (Z.lor 0 0) with 0 in Hf2. split.
  - unfold tim_on. rewrite Hf2 by done. by apply tim_on_upd, tim_on_upd; [reg..|apply (ts_on _ _ _ St1)].
  - rewrite <- (ts_regs _ _ _ St1). unfold regs. apply list_fmap_ext. intros k o Ho%list_elem_of_lookup_2.
    rewrite Hf2 by (by apply tims_reg). unfold upd.
    destruct (Z.eqb_spec (tim o) (tim STM32_GTIM_CCER_OFFSET)) as [->|_]; [by rewrite (ts_get _ _ _ 4 STM32_GTIM_CCER_OFFSET 0 St1)|].
    destruct (Z.eqb_spec (tim o) (tim STM32_GTIM_CR2_OFFSET)) as [->|_]; [by rewrite (ts_get _ _ _ 1 STM32_GTIM_CR2_OFFSET 0 St1)|done].
  - intros a Ha Hn. rewrite Hf2 by done. rewrite <- (ts_out _ _ _ St1 a Ha Hn). unfold upd.
    destruct (Z.eqb_spec a (tim STM32_GTIM_CCER_OFFSET)) as [->|_]; [done|].
    destruct (Z.eqb_spec a (tim STM32_GTIM_CR2_OFFSET)) as [->|_]; done.
Qed.

Lemma configure_step h G r fr n j m :
  tim_st h G r -> j ∈ [0; 1; 2; 3] -> r !! 1%nat = Some 0 -> r !! 4%nat = Some 0 -> r !! ccmr_ix (j + 1) = Some m ->
  exists h', configure_loop (g fr) (S n) h j OK = configure_loop (g fr) n h' (j + 1) OK /\
    tim_st h' G (<[ccmr_ix (j + 1) := if odd_ch (j + 1) then Z.lor (clrbits m 0x7b) 0x68 else Z.lor (clrbits m 0x7b00) 0x6800]> r).
Proof.
  intros St Hj E1 E4 Em.
  destruct (configure_chan h G r fr (j + 1) m St) as (h1 & h2 & Eh1 & Eh2 & St2); try done; [each Hj; reg|].
  exists h2. split; [|done]. cbn [configure_loop].
  assert (exists c, chan_at (g fr) j = Ok c /\ ch_channel c = j + 1 /\ ch_mode c = 6) as (c & Ec & Ech & Emo).
  { each Hj; (eexists; split; [reflexivity|done]). }
  rewrite Ec, bind_Ok. cbn beta iota. rewrite Ech, Emo, (proj2 (Z.eqb_neq _ 0)) by (each Hj; done). cbn [negb].
  rewrite Eh1. change (OK <? 0) with false. cbv iota. by rewrite Eh2.
Qed.

(** The registers after a reset, and after [pwm_configure]. *)
Definition reset_regs : list Z := [0; 0; 0; 0; 0; 0; 0xffffffff; 0; 0; 0; 0].
Definition ready_regs : list Z := [0x80; 0; 0x6868; 0x6868; 0; 0; 0xffffffff; 0; 0; 0; 0].

Lemma configure_st h G fr :
  tim_st h G reset_regs -> exists h', pwm_configure (g fr) h = Ok (OK, h') /\ tim_st h' G ready_regs.
Proof.
  intros St. unfold pwm_configure. rewrite outputs_of_channels, bind_Ok.
  destruct (outputs_enable_is h _ fr false (hw_is_val h) (ts_on _ _ _ St)) as (h1 & -> & Hf1).
  rewrite (ts_get _ _ _ 4 STM32_GTIM_CCER_OFFSET 0 St) in Hf1 by done. change (OK <? 0) with false. cbv iota.
  pose proof (ts_upd _ _ _ _ 4 _ _ St Hf1 eq_refl) as St1. clear Hf1 St.
  pose proof (timer_enable_is h1 _ fr false (hw_is_val h1) (ts_on _ _ _ St1)) as Hf2.
  rewrite (ts_get _ _ _ 0 STM32_GTIM_CR1_OFFSET 0 St1) in Hf2 by done.
  pose proof (ts_upd _ _ _ _ 0 _ _ St1 Hf2 eq_refl) as St2. clear Hf2 St1. set (h2 := pwm_timer_enable _ _ _) in *. clearbody h2.
  destruct (timer_configure_is h2 _ fr (hw_is_val h2) (ts_on _ _ _ St2)) as (h3 & -> & Hf3).
  rewrite (ts_get _ _ _ 0 STM32_GTIM_CR1_OFFSET 0 St2) in Hf3 by done. change (OK <? 0) with false. cbv iota.
  pose proof (ts_upd _ _ _ _ 0 _ _ St2 Hf3 eq_refl) as St3. clear Hf3 St2. vm_compute in St3.
  change (Z.to_nat (chan_num (g fr))) with 4%nat.
  destruct (configure_step h3 G _ fr 3 0 0 St3) as (h4 & -> & St4); [reg|done..|]. change (0 + 1) with 1.
  destruct (configure_step h4 G _ fr 2 1 0x68 St4) as (h5 & -> & St5); [reg|done..|]. change (1 + 1) with 2.
  destruct (configure_step h5 G _ fr 1 2 0 St5) as (h6 & -> & St6); [reg|done..|]. change (2 + 1) with 3.
  destruct (configure_step h6 G _ fr 0 3 0x68 St6) as (h7 & -> & St7); [reg|done..|]. change (3 + 1) with 4.
  exists h7. split; [done|exact St7].
Qed.
(** ** The pins of the motors *)

(** Output of a timer, and input. *)
Definition alt_pin : pin_state := mk_pin 2 0 1 2 0.
Definition input_pin : pin_state := mk_pin 0 0 0 0 0.

Definition pins4 (f : Z -> Z) (s : pin_state) : Z -> Z := set_pin (set_pin (set_pin (set_pin f 0 0 s) 0 1 s) 0 2 s) 0 3 s.
Definition pins_are (f : Z -> Z) (s : pin_state) : Prop := forall p, 0 <= p < 4 -> pin_of f 0 p = s.

Lemma pins4_are f s : pin_ok s -> pins_are (pins4 f s) s.
Proof.
  intros Hs p Hp. unfold pins4. rewrite !set_pin_get by (done || lia). cbn [Z.eqb andb].
  assert (p ∈ [0; 1; 2; 3]) as Hi by (rewrite !elem_of_cons; lia). by each Hi.
Qed.

Lemma pins4_other f s a : gpio_reg a = false -> pins4 f s a = f a.
Proof. intros Ha. unfold pins4. by rewrite !set_pin_other by done. Qed.

Lemma config_pin_is h f c p s :
  hw_is h f -> port_on f 0 -> cfg_port c = 0 -> cfg_pin c = p -> cfg_state c = s -> cfg_out c = false -> cfg_exti c = false ->
  hw_is (snd (stm32_configgpio h c)) (set_pin f 0 p s) /\ port_on (set_pin f 0 p s) 0.
Proof.
  intros Hf Hon E1 <- <- E4 E5. destruct (configgpio_is h f c Hf) as (h' & E & Hh); [by rewrite E1|by rewrite E1|by rewrite E5|].
  unfold set_cfg in Hh. rewrite E1, E4, E5 in Hh. rewrite E. split; [done|]. unfold port_on. by rewrite set_pin_other.
Qed.

Lemma setup_pins_is h f fr :
  hw_is h f -> port_on f 0 -> exists h', setup_pins (g fr) 4 h 0 = Ok h' /\ hw_is h' (pins4 f alt_pin).
Proof.
  intros Hf Hon. destruct (config_pin_is h f GPIO_TIM2_CH1OUT 0 alt_pin Hf Hon) as [Hf0 Hon0]; [done..|].
  destruct (config_pin_is _ _ GPIO_TIM2_CH2OUT 1 alt_pin Hf0 Hon0) as [Hf1 Hon1]; [done..|].
  destruct (config_pin_is _ _ GPIO_TIM2_CH3OUT 2 alt_pin Hf1 Hon1) as [Hf2 Hon2]; [done..|].
  destruct (config_pin_is _ _ GPIO_TIM2_CH4OUT 3 alt_pin Hf2 Hon2) as [Hf3 _]; [done..|].
  eexists. split; [reflexivity|exact Hf3].
Qed.

(** A pin as [pwm_shutdown] leaves it. *)
Definition default_cfg (c : Z) : Z := Z.lor (Z.land c (Z.lor GPIO_PORT_MASK GPIO_PIN_MASK)) PINCFG_DEFAULT.

Lemma shutdown_pins_is h f fr :
  hw_is h f -> port_on f 0 -> exists h', shutdown_pins (g fr) 4 h 0 = Ok h' /\ hw_is h' (pins4 f input_pin).
Proof.
  intros Hf Hon. destruct (config_pin_is h f (default_cfg GPIO_TIM2_CH1OUT) 0 input_pin Hf Hon) as [Hf0 Hon0]; [done..|].
  destruct (config_pin_is _ _ (default_cfg GPIO_TIM2_CH2OUT) 1 input_pin Hf0 Hon0) as [Hf1 Hon1]; [done..|].
  destruct (config_pin_is _ _ (default_cfg GPIO_TIM2_CH3OUT) 2 input_pin Hf1 Hon1) as [Hf2 Hon2]; [done..|].
  destruct (config_pin_is _ _ (default_cfg GPIO_TIM2_CH4OUT) 3 input_pin Hf2 Hon2) as [Hf3 _]; [done..|].
  eexists. split; [reflexivity|exact Hf3].
Qed.
(** ** Starting *)

Lemma put_st h G r fr i o v :
  tim_st h G r -> tims !! i = Some o -> legal (tim o) v -> tim_st (pwm_putreg (g fr) h o v) G (<[i := v]> r).
Proof.
  intros St Hi Hl. apply (ts_upd h _ _ _ _ o); [done| |done].
  by apply putreg_is; [apply hw_is_val|apply (ts_on _ _ _ St)|eapply list_elem_of_lookup_2|].
Qed.

Lemma event_st h G r fr o v :
  tim_st h G r -> o ∈ [STM32_GTIM_DIER_OFFSET; STM32_GTIM_SR_OFFSET; STM32_GTIM_EGR_OFFSET] ->
  tim_st (pwm_putreg (g fr) h o v) G r.
Proof.
  intros [Hon Hr Ho] Hi.
  assert (hw_is (pwm_putreg (g fr) h o v) (hw_val h)) as He by (each Hi; by apply event_is, eq_refl; apply hw_is_val).
  split.
  - unfold tim_on. by rewrite He.
  - rewrite <- Hr. unfold regs. apply list_fmap_ext. intros k a Ha%list_elem_of_lookup_2. by apply He, tims_reg.
  - intros a Ha Hn. rewrite He by done. by apply Ho.
Qed.

Lemma frequency_update_st h G r fr0 fr :
  tim_st h G r -> 1 <= fr ->
  exists h', pwm_frequency_update (g fr0) h fr = Ok (OK, h') /\
    tim_st h' G (<[5%nat := prescaler_of fr - 1]> (<[6%nat := arr_of fr]> r)).
Proof.
  intros St Hfr. unfold pwm_frequency_update. rewrite (proj2 (Z.eqb_neq fr 0)) by lia.
  change (pclk (g fr0)) with STM32_APB1_TIM2_CLKIN. fold (prescaler_of fr). fold (arr_of fr).
  pose proof (prescaler_range fr). pose proof (arr_range fr).
  assert (u16 (prescaler_of fr - 1) = prescaler_of fr - 1) as -> by (unfold u16; modlia).
  eexists. split; [done|]. apply put_st; [apply put_st; [done..|]|done|].
  - by apply (legal_small _ _ 32); [..|lia].
  - by apply (legal_small _ _ 16); [..|lia].
Qed.

Lemma duty_update_st h G r fr ch d arr :
  tim_st h G r -> ch ∈ [1; 2; 3; 4] -> r !! 6%nat = Some arr ->
  exists h', pwm_duty_update (g fr) h ch d = (OK, h') /\ tim_st h' G (<[(6 + Z.to_nat ch)%nat := ccr_of arr d]> r).
Proof.
  intros St Hc Ea. unfold pwm_duty_update, pwm_arr_get.
  rewrite (getreg_is h (hw_val h)) by (apply hw_is_val || apply (ts_on _ _ _ St) || reg).
  rewrite (ts_get _ _ _ 6 STM32_GTIM_ARR_OFFSET arr St) by done. fold (ccr_of arr d). pose proof (ccr_range arr d).
  each Hc; (eexists; split; [reflexivity|]); (apply put_st; [done..|]); by apply (legal_small _ _ 32).
Qed.

Definition chans (d1 d2 d3 d4 : Z) : list pwm_chan_s := [mk_chan d1 1; mk_chan d2 2; mk_chan d3 3; mk_chan d4 4].

Definition set_ccrs (arr d1 d2 d3 d4 : Z) (r : list Z) : list Z :=
  <[10%nat := ccr_of arr d4]> (<[9%nat := ccr_of arr d3]> (<[8%nat := ccr_of arr d2]> (<[7%nat := ccr_of arr d1]> r))).

(** Both ways of writing the four duties. *)
Lemma duties_st h G r fr d1 d2 d3 d4 arr :
  tim_st h G r -> r !! 6%nat = Some arr ->
  exists h', duty_loop (g fr) (chans d1 d2 d3 d4) h = (OK, h') /\ start_duties (g fr) (chans d1 d2 d3 d4) h OK = (OK, h') /\
    tim_st h' G (set_ccrs arr d1 d2 d3 d4 r).
Proof.
  intros St Ea.
  destruct (duty_update_st h G r fr 1 d1 arr St) as (h1 & E1 & St1); [reg|done|].
  destruct (duty_update_st h1 G _ fr 2 d2 arr St1) as (h2 & E2 & St2); [reg|by rewrite list_lookup_insert_ne|].
  destruct (duty_update_st h2 G _ fr 3 d3 arr St2) as (h3 & E3 & St3); [reg|by rewrite !list_lookup_insert_ne|].
  destruct (duty_update_st h3 G _ fr 4 d4 arr St3) as (h4 & E4 & St4); [reg|by rewrite !list_lookup_insert_ne|].
  exists h4. unfold chans. split_and!; [| |exact St4].
  - do 4 (cbn [duty_loop channel duty Z.eqb negb]; change (has_channel _ _) with true; cbn [negb];
      first [rewrite E1|rewrite E2|rewrite E3|rewrite E4]; change (OK <? 0) with false; cbv iota). done.
  - cbn [start_duties channel duty]. change (OK =? OK) with true. by rewrite E1, E2, E3, E4.
Qed.
(** The registers after [pwm_timer]. *)
Definition started_regs (fr d1 d2 d3 d4 : Z) (r : list Z) : list Z :=
  let r := set_ccrs (arr_of fr) d1 d2 d3 d4 (<[5%nat := prescaler_of fr - 1]> (<[6%nat := arr_of fr]> r)) in
  let r := <[4%nat := Z.lor (nth 4 r 0) 0x1111]> r in
  <[0%nat := Z.lor (clrbits (nth 0 r 0) 0) 1]> r.

Lemma timer_st h G r fr0 fr d1 d2 d3 d4 :
  tim_st h G r -> 1 <= fr ->
  exists h', pwm_timer (g fr0) h (mk_info fr (chans d1 d2 d3 d4)) = Ok (OK, h') /\ tim_st h' G (started_regs fr d1 d2 d3 d4 r).
Proof.
  intros St Hfr. assert (exists a b c d e f g h i j k, r = [a; b; c; d; e; f; g; h; i; j; k]) as (a & b & c & d & e & f & x & y & z & j & k & ->)
    by (destruct St as [_ <- _]; unfold regs; cbn; by repeat eexists).
  destruct (frequency_update_st h G _ fr0 fr St Hfr) as (h1 & E1 & St1).
  destruct (duties_st h1 G _ fr0 d1 d2 d3 d4 (arr_of fr) St1) as (h2 & E2 & _ & St2); [done|].
  pose proof (event_st h2 G _ fr0 STM32_GTIM_EGR_OFFSET ATIM_EGR_UG St2 ltac:(reg)) as St3.
  destruct (outputs_enable_is _ _ fr0 true (hw_is_val _) (ts_on _ _ _ St3)) as (h4 & E4 & Hf4).
  rewrite (ts_get _ _ _ 4 STM32_GTIM_CCER_OFFSET e St3) in Hf4 by done. pose proof (ts_upd _ _ _ _ 4 _ _ St3 Hf4 eq_refl) as St4.
  pose proof (timer_enable_is h4 _ fr0 true (hw_is_val h4) (ts_on _ _ _ St4)) as Hf5.
  rewrite (ts_get _ _ _ 0 STM32_GTIM_CR1_OFFSET a St4) in Hf5 by done. pose proof (ts_upd _ _ _ _ 0 _ _ St4 Hf5 eq_refl) as St5.
  eexists. split; [|exact St5]. unfold pwm_timer, pwm_duty_channels_update, pwm_soft_update. cbn [frequency channels].
  rewrite E1, bind_Ok. change (OK <? 0) with false. cbv iota. rewrite E2. change (OK <? 0) with false. cbv iota.
  by rewrite outputs_of_channels, bind_Ok, E4.
Qed.

(** The timer counts, in PWM mode 1 with all outputs enabled. *)
Definition on_regs (fr d1 d2 d3 d4 : Z) : list Z :=
  [0x81; 0; 0x6868; 0x6868; 0x1111; prescaler_of fr - 1; arr_of fr;
   ccr_of (arr_of fr) d1; ccr_of (arr_of fr) d2; ccr_of (arr_of fr) d3; ccr_of (arr_of fr) d4].

(** ** The phases of the timer *)

(** Four channels in order, with a duty of at most 100%. *)
Definition tim_supported (i : pwm_info_s) : Prop :=
  1 <= frequency i /\ exists d1 d2 d3 d4, channels i = chans d1 d2 d3 d4 /\ Forall (fun d => 0 <= d <= 65536) [d1; d2; d3; d4].

(** A clocked timer with its pins connected. *)
Record tim_up (d : stm32_dev H) (fr : Z) (r : list Z) : Prop := {
  tu_priv : priv d = g fr;
  tu_port : port_on (hw_val (hw d)) 0;
  tu_on : tim_on (hw_val (hw d));
  tu_pins : pins_are (hw_val (hw d)) alt_pin;
  tu_regs : regs (hw_val (hw d)) = r
}.

Definition tim_phase (d : stm32_dev H) (p : lphase) : Prop :=
  match p with
  | LOff => priv d = g 0 /\ port_on (hw_val (hw d)) 0 /\ regs (hw_val (hw d)) = reset_regs
  | LReady => tim_up d 0 ready_regs
  | LOn i => tim_supported i /\ exists d1 d2 d3 d4, channels i = chans d1 d2 d3 d4 /\
      tim_up d (frequency i) (on_regs (frequency i) d1 d2 d3 d4)
  | LHalted => tim_up d 0 reset_regs
  end.

Lemma pins_same G f s : same_out G f -> pins_are G s -> pins_are f s.
Proof.
  intros Hs Hp p Hi. rewrite <- (Hp p Hi). unfold pin_of.
  assert (forall off, off ∈ gpio_offs -> f (gpio_addr 0 off) = G (gpio_addr 0 off)) as E by (intros off Ho; apply Hs; by each Ho).
  by rewrite !E by offs.
Qed.

Lemma up_st d fr r : tim_up d fr r -> tim_st (hw d) (hw_val (hw d)) r.
Proof. intros [_ _ Hon _ Hr]. split; [done..|]. by intros a. Qed.

(** Work on the timer that leaves everything else alone. *)
Lemma st_up d fr r fr' h r' : tim_up d fr r -> tim_st h (hw_val (hw d)) r' -> tim_up (mk_tdev (g fr') h) fr' r'.
Proof.
  intros [_ Hp Hon Hpin _] [Hon' Hr' Ho]. split; cbn [priv hw]; try done.
  - unfold port_on. by rewrite (Ho STM32_RCC_AHB1ENR).
  - by apply (pins_same (hw_val (hw d))).
Qed.
(** *** The methods *)

Lemma clock_is h f fr on :
  hw_is h f ->
  exists h', pwm_set_apb_clock (g fr) h on = (OK, h') /\ hw_is h' (upd f STM32_RCC_APB1ENR
    (if on then Z.lor (clrbits (f STM32_RCC_APB1ENR) 0) 1 else Z.lor (clrbits (f STM32_RCC_APB1ENR) 1) 0)).
Proof. intros Hf. destruct on; (eexists; split; [reflexivity|]); by apply modify32_is. Qed.

(** The registers of the timer do not depend on the rest. *)
Lemma regs_ext h f f0 : hw_is h f -> (forall o, o ∈ tims -> f (tim o) = f0 (tim o)) -> regs (hw_val h) = regs f0.
Proof.
  intros Hf He. unfold regs. apply list_fmap_ext. intros k o Ho%list_elem_of_lookup_2. rewrite (Hf (tim o)) by (by apply tims_reg). by apply He.
Qed.

Lemma setup_phase d : tim_phase d LOff -> exists d', pwm_setup d = Ok (OK, d') /\ tim_phase d' LReady.
Proof.
  intros (Ep & Hport & Hr). unfold pwm_setup. rewrite Ep. set (f := hw_val (hw d)) in *.
  destruct (clock_is (hw d) f 0 true (hw_is_val _)) as (h1 & -> & Hf1). set (f1 := upd _ _ _) in *.
  change (OK <? 0) with false. cbv iota. change (Z.to_nat (chan_num (g 0))) with 4%nat.
  destruct (setup_pins_is h1 f1 0 Hf1) as (h2 & -> & Hf2); [done|]. rewrite bind_Ok.
  assert (tim_st h2 (hw_val h2) reset_regs) as St.
  { split.
    - unfold tim_on. rewrite Hf2, pins4_other by done. unfold f1, upd. rewrite Z.eqb_refl, Z.lor_spec. apply orb_true_r.
    - rewrite <- Hr. apply (regs_ext h2 _ _ Hf2). intros o Ho. by each Ho.
    - by intros a. }
  destruct (configure_st h2 _ 0 St) as (h3 & -> & St3). rewrite bind_Ok. change (OK <? 0) with false. cbv iota.
  eexists. split; [done|]. apply (st_up (mk_tdev (g 0) h2) 0 reset_regs); [|done]. split; cbn [priv hw]; try done.
  - unfold port_on. by rewrite Hf2, pins4_other.
  - apply (ts_on _ _ _ St).
  - intros p Hp. rewrite (proj1 (pin_of_ext h2 _ 0 p Hf2 ltac:(lia))). apply pins4_are, Hp. by split.
  - apply (ts_regs _ _ _ St).
Qed.

Lemma stop_up d fr r : tim_up d fr r -> exists d', pwm_stop d = (OK, d') /\ tim_phase d' LHalted.
Proof.
  intros Hu. pose proof (up_st _ _ _ Hu) as St. destruct Hu as [Ep Hport Hon Hpins _]. unfold pwm_stop. rewrite Ep.
  change (timid (g fr) =? 2) with true. cbv iota. change (set_t_frequency (g fr) 0) with (g 0).
  pose proof (event_st _ _ _ 0 STM32_GTIM_DIER_OFFSET 0 St ltac:(reg)) as St1.
  pose proof (event_st _ _ _ 0 STM32_GTIM_SR_OFFSET 0 St1 ltac:(reg)) as St2.
  set (h1 := pwm_putreg _ (hw d) _ _) in *. clearbody h1. set (h2 := pwm_putreg _ h1 _ _) in *. clearbody h2.
  set (v := getreg32 h2 _).
  assert (Z.testbit (Z.lor v RCC_APB1RSTR_TIM2RST) 0 = true) as Ev by (rewrite Z.lor_spec; apply orb_true_r).
  assert (Z.testbit (clrbits (Z.lor v RCC_APB1RSTR_TIM2RST) RCC_APB1RSTR_TIM2RST) 0 = false) as Ev' by (rewrite Z.ldiff_spec; apply andb_false_r).
  pose proof (reset_is h2 _ (Z.lor v RCC_APB1RSTR_TIM2RST) (hw_is_val h2)) as Hf3.
  rewrite Ev in Hf3.
  pose proof (reset_is _ _ (clrbits (Z.lor v RCC_APB1RSTR_TIM2RST) RCC_APB1RSTR_TIM2RST) Hf3) as Hf4.
  rewrite Ev' in Hf4. eexists. split; [done|]. set (h3 := putreg32 h2 _ _) in *. set (h4 := putreg32 h3 _ _) in *. clearbody h4.
  assert (tim_st h4 (hw_val (hw d)) reset_regs) as St4.
  { split.
    - unfold tim_on. rewrite Hf4 by done. apply (ts_on _ _ _ St2).
    - by rewrite (regs_ext h4 _ (reset_tim (hw_val h2)) Hf4).
    - intros a Ha Hn. rewrite Hf4 by done. unfold reset_tim. rewrite Hn. by apply (ts_out _ _ _ St2). }
  apply (st_up (mk_tdev (g fr) (hw d)) fr r); [|done]. split; try done. apply (ts_regs _ _ _ St).
Qed.
Lemma phase_up d p : tim_phase d p -> p <> LOff -> exists fr r, tim_up d fr r.
Proof. destruct p as [| |i|]; [done|by eauto| |by eauto]. intros (_ & d1 & d2 & d3 & d4 & _ & Hu) _. eauto. Qed.

Lemma shutdown_phase d p : tim_phase d p -> p <> LOff -> exists r d', pwm_shutdown d = Ok (r, d') /\ tim_phase d' LOff.
Proof.
  intros Hp Hn. destruct (phase_up d p Hp Hn) as (fr & r & Hu). destruct (stop_up d fr r Hu) as (d1 & E1 & [Ep Hport Hon Hpins Hr]).
  unfold pwm_shutdown. rewrite E1, Ep. destruct (clock_is (hw d1) _ 0 false (hw_is_val _)) as (h2 & -> & Hf2).
  change (OK <? 0) with false. cbv iota. change (Z.to_nat (chan_num (g 0))) with 4%nat.
  destruct (shutdown_pins_is h2 _ 0 Hf2) as (h3 & -> & Hf3); [done|]. rewrite bind_Ok.
  eexists _, _. split; [done|]. split; [done|]. split; cbn [hw].
  - unfold port_on. by rewrite Hf3, pins4_other.
  - rewrite <- Hr. apply (regs_ext h3 _ _ Hf3). intros o Ho. by each Ho.
Qed.

Lemma start_timer d fr0 r fr d1 d2 d3 d4 :
  tim_up d fr0 r -> 1 <= fr -> fr <> fr0 ->
  exists d', pwm_start d (mk_info fr (chans d1 d2 d3 d4)) = Ok (OK, d') /\ tim_up d' fr (started_regs fr d1 d2 d3 d4 r).
Proof.
  intros Hu Hfr Hne. destruct (timer_st (hw d) _ r fr0 fr d1 d2 d3 d4 (up_st _ _ _ Hu) Hfr) as (h' & E & St).
  unfold pwm_start. rewrite (tu_priv _ _ _ Hu). cbn [frequency t_frequency set_t_frequency].
  rewrite (proj2 (Z.eqb_neq fr fr0)) by done. change (mk_timer _ _ _ _ _ _ _ _) with (g fr0). rewrite E, bind_Ok.
  eexists. split; [done|]. by apply (st_up d fr0 r).
Qed.

Lemma start_phase d p i :
  tim_phase d p -> can_start false p = true -> tim_supported i ->
  exists d', pwm_start d i = Ok (OK, d') /\ tim_phase d' (LOn i).
Proof.
  intros Hp Hc Hi. pose proof Hi as (Hfr & d1 & d2 & d3 & d4 & Ec & Hd). destruct i as [fr cs]. cbn in Hfr, Ec. subst cs.
  assert (forall d', tim_up d' fr (on_regs fr d1 d2 d3 d4) -> tim_phase d' (LOn (mk_info fr (chans d1 d2 d3 d4)))) as Hon.
  { intros d' Hu. split; [done|]. by exists d1, d2, d3, d4. }
  destruct p as [| |[fr0 cs0]|]; try done.
  - destruct (start_timer d 0 ready_regs fr d1 d2 d3 d4 Hp) as (d' & E & Hu); [done|lia|]. exists d'. split; [done|]. by apply Hon.
  - destruct Hp as (_ & e1 & e2 & e3 & e4 & _ & Hu). cbn [frequency] in Hu. destruct (decide (fr = fr0)) as [->|Hne].
    + destruct (duties_st (hw d) _ _ fr0 d1 d2 d3 d4 (arr_of fr0) (up_st _ _ _ Hu)) as (h' & _ & E & St); [done|].
      unfold pwm_start. rewrite (tu_priv _ _ _ Hu). cbn [frequency t_frequency set_t_frequency channels].
      rewrite Z.eqb_refl. change (mk_timer _ _ _ _ _ _ _ _) with (g fr0). rewrite E.
      eexists. split; [done|]. apply Hon. by apply (st_up d fr0 _ fr0 h' _ Hu).
    + destruct (start_timer d fr0 _ fr d1 d2 d3 d4 Hu) as (d' & E & Hu'); [done..|]. exists d'. split; [done|]. by apply Hon.
Qed.

(** The timer is a lower half that does not restart. *)
#[export] Instance tim_lower : PwmLower g_pwmops false tim_supported tim_phase.
Proof.
  split.
  - apply setup_phase.
  - apply start_phase.
  - intros d p Hp Hn. destruct (phase_up d p Hp Hn) as (fr & r & Hu). destruct (stop_up d fr r Hu) as (d' & E & Hd').
    exists d'. split; [|done]. cbn. by rewrite E.
  - apply shutdown_phase.
Qed.
End Timer.
