(* ===== verification/Stm32Wave.v ===== *)
(** * What the timer outputs

    From the registers of TIM2 and of its pins to the waveform, with the theorems
    on frequency and pulse width. *)

From S2P Require Import Prelude Bits Inode Vfs Pwm PwmProps Hw Gpio GpioProps Stm32Pwm Stm32PwmProps.
Local Open Scope Z_scope.

(** What the pin of a channel, pin [ch - 1] of port A, outputs, according to the
    reference manual: the length of a period and of its high part, in cycles of the
    clock of the timer.  The pin must be connected to the timer (alternate function
    1), the timer must count upwards, the channel must be an output in PWM mode 1,
    enabled, with positive polarity. *)
Definition pin_wave (f : Z -> Z) (ch : Z) : option (Z * Z) :=
  let pin := pin_of f 0 (ch - 1) in
  let cr1 := f (tim STM32_GTIM_CR1_OFFSET) in
  let ccer := f (tim STM32_GTIM_CCER_OFFSET) in
  let ccmr := f (tim (ccmr_of ch)) in
  let sh := if odd_ch ch then 0 else 8 in
  let psc := f (tim STM32_GTIM_PSC_OFFSET) in
  let arr := f (tim STM32_GTIM_ARR_OFFSET) in
  let ccr := f (tim (STM32_GTIM_CCR1_OFFSET + 4 * (ch - 1))) in
  if (p_mode pin =? 2) && (p_af pin =? 1) && (field 1 0 cr1 =? 1) && (field 3 4 cr1 =? 0) &&
     (field 2 sh ccmr =? 0) && (field 3 (sh + 4) ccmr =? 6) &&
     (field 1 (4 * (ch - 1)) ccer =? 1) && (field 1 (4 * (ch - 1) + 1) ccer =? 0)
  then Some ((psc + 1) * (arr + 1), (psc + 1) * Z.min ccr (arr + 1))
  else None.

Lemma regs_get f r i o x : regs f = r -> tims !! i = Some o -> r !! i = Some x -> f (tim o) = x.
Proof. intros <- Ho. unfold regs. rewrite list_lookup_fmap, Ho. by intros [= ->]. Qed.

(** The output of a started timer, as its registers say. *)
Lemma on_wave f fr d1 d2 d3 d4 ch d :
  regs f = on_regs fr d1 d2 d3 d4 -> pins_are f alt_pin -> ch ∈ [1; 2; 3; 4] -> [d1; d2; d3; d4] !! Z.to_nat (ch - 1) = Some d ->
  pin_wave f ch = Some (prescaler_of fr * (arr_of fr + 1), prescaler_of fr * Z.min (ccr_of (arr_of fr) d) (arr_of fr + 1)).
Proof.
  intros Hr Hp Hc Hd. unfold pin_wave. rewrite (Hp (ch - 1)) by (each Hc; done).
  rewrite (regs_get f _ 0 STM32_GTIM_CR1_OFFSET 0x81 Hr), (regs_get f _ 4 STM32_GTIM_CCER_OFFSET 0x1111 Hr),
    (regs_get f _ 5 STM32_GTIM_PSC_OFFSET (prescaler_of fr - 1) Hr), (regs_get f _ 6 STM32_GTIM_ARR_OFFSET (arr_of fr) Hr) by done.
  assert (f (tim (ccmr_of ch)) = 0x6868) as ->.
  { unfold ccmr_of. destruct (ch <=? 2);
      [by apply (regs_get f _ 2 STM32_GTIM_CCMR1_OFFSET _ Hr)|by apply (regs_get f _ 3 STM32_GTIM_CCMR2_OFFSET _ Hr)]. }
  assert (f (tim (STM32_GTIM_CCR1_OFFSET + 4 * (ch - 1))) = ccr_of (arr_of fr) d) as ->.
  { each Hc; injection Hd as ->; [by apply (regs_get f _ 7 STM32_GTIM_CCR1_OFFSET _ Hr)|by apply (regs_get f _ 8 STM32_GTIM_CCR2_OFFSET _ Hr)|
      by apply (regs_get f _ 9 STM32_GTIM_CCR3_OFFSET _ Hr)|by apply (regs_get f _ 10 STM32_GTIM_CCR4_OFFSET _ Hr)]. }
  rewrite Z.sub_add. clear Hd. by each Hc.
Qed.

(** A waveform of the given frequency and duty.  A count of the timer is [tick]
    cycles of its clock.  The period is the longest one of whole counts that is not
    longer than asked for; the high part is right to one and a half counts. *)
Definition wave_ok (fr d period high : Z) : Prop :=
  let tick := prescaler_of fr in
  65535 * (tick - 1) * fr < STM32_APB1_TIM2_CLKIN /\
  period * fr <= STM32_APB1_TIM2_CLKIN < period * fr + tick * fr /\
  0 <= high <= period /\ Z.abs (high * 65536 - d * period) <= 98304 * tick.

Lemma wave_values fr d :
  1 <= fr -> 2 * fr <= STM32_APB1_TIM2_CLKIN -> 0 <= d <= 65536 ->
  wave_ok fr d (prescaler_of fr * (arr_of fr + 1)) (prescaler_of fr * Z.min (ccr_of (arr_of fr) d) (arr_of fr + 1)).
Proof.
  intros Hfr Hmax Hd. pose proof (prescaler_range fr). destruct (arr_value fr Hfr Hmax) as (Ha & Hp & Hf).
  destruct (ccr_value (arr_of fr) d ltac:(lia) Hd) as [Hc Hv]. rewrite Z.min_l by lia. unfold wave_ok. split_and!; lia || nia.
Qed.

Section Wave.
Context {H : Type} `{HwLaws H}.

(** The waveforms of a started timer. *)
Lemma phase_wave (d : stm32_dev H) i ch c :
  tim_phase d (LOn i) -> 2 * frequency i <= STM32_APB1_TIM2_CLKIN -> ch ∈ [1; 2; 3; 4] ->
  channels i !! Z.to_nat (ch - 1) = Some c ->
  exists period high, pin_wave (hw_val (hw d)) ch = Some (period, high) /\ wave_ok (frequency i) (duty c) period high.
Proof.
  intros ([Hfr (d1 & d2 & d3 & d4 & Ec & Hd)] & e1 & e2 & e3 & e4 & Ee & Hu) Hmax Hch Hc.
  rewrite Ec in Ee. injection Ee as <- <- <- <-. rewrite Ec in Hc.
  assert ([d1; d2; d3; d4] !! Z.to_nat (ch - 1) = Some (duty c)) as Hl by (each Hch; by injection Hc as <-).
  rewrite (on_wave _ (frequency i) d1 d2 d3 d4 ch (duty c) (tu_regs _ _ _ Hu) (tu_pins _ _ _ Hu) Hch Hl).
  eexists _, _. split; [done|]. apply wave_values; [done..|]. apply (Forall_lookup_1 _ _ _ _ Hd Hl).
Qed.

(** A timer whose registers were reset and that was started without being set up. *)
Lemma halted_wave (f : Z -> Z) fr d1 d2 d3 d4 ch :
  regs f = started_regs fr d1 d2 d3 d4 reset_regs -> ch ∈ [1; 2; 3; 4] -> pin_wave f ch = None.
Proof.
  intros Hr Hch. unfold pin_wave. assert (f (tim (ccmr_of ch)) = 0) as ->.
  { unfold ccmr_of. destruct (ch <=? 2);
      [by apply (regs_get f _ 2 STM32_GTIM_CCMR1_OFFSET _ Hr)|by apply (regs_get f _ 3 STM32_GTIM_CCMR2_OFFSET _ Hr)]. }
  assert (field 3 ((if odd_ch ch then 0 else 8) + 4) 0 =? 6 = false) as -> by (by each Hch).
  by rewrite andb_false_r.
Qed.
(** Duties of any channels leave the control register alone. *)
Lemma duty_any (h : H) G r fr ch d :
  tim_st h G r -> exists h' r', pwm_duty_update (set_t_frequency g_pwm2dev fr) h ch d = (OK, h') /\ tim_st h' G r' /\ r' !! 0%nat = r !! 0%nat.
Proof.
  intros St. destruct (decide (ch ∈ [1; 2; 3; 4])) as [Hc|Hc].
  - assert (exists arr, r !! 6%nat = Some arr) as (arr & Ea) by (destruct St as [_ <- _]; by eexists).
    destruct (duty_update_st h G r fr ch d arr St Hc Ea) as (h' & E & St'). exists h'. eexists. split; [done|]. split; [done|].
    by rewrite list_lookup_insert_ne by lia.
  - exists h, r. split; [|done]. unfold pwm_duty_update, pwm_ccr_update.
    rewrite !elem_of_cons, elem_of_nil in Hc. by rewrite !(proj2 (Z.eqb_neq ch _)) by tauto.
Qed.

Lemma start_duties_any (h : H) G r fr cs :
  tim_st h G r ->
  exists h' r', start_duties (set_t_frequency g_pwm2dev fr) cs h OK = (OK, h') /\ tim_st h' G r' /\ r' !! 0%nat = r !! 0%nat.
Proof.
  revert h r. induction cs as [|c cs IH]; intros h r St; [by exists h, r|].
  destruct (duty_any h G r fr (channel c) (duty c) St) as (h1 & r1 & E & St1 & E1).
  destruct (IH h1 r1 St1) as (h2 & r2 & E2 & St2 & E3). exists h2, r2. cbn [start_duties]. change (OK =? OK) with true. cbv iota.
  rewrite E, E2. split; [done|]. split; [done|congruence].
Qed.

Lemma idle_wave f r ch : regs f = r -> r !! 0%nat = Some 0x80 -> pin_wave f ch = None.
Proof.
  intros Hr E. unfold pin_wave. rewrite (regs_get f r 0 STM32_GTIM_CR1_OFFSET 0x80 Hr eq_refl E).
  change (field 1 0 0x80 =? 1) with false. by rewrite andb_false_r.
Qed.
End Wave.

(** ** The claims *)

(** C21: A timer that is set up, or is already outputting, accepts any frequency from
    1 Hz to half its clock with four duties up to 100%.  Afterwards every pin of the
    motors outputs pulses: the period is the longest whole number of counts that is
    not longer than the frequency asks for, and the pulse is as long as the duty
    asks for to one and a half counts; the prescaler is the smallest that lets the
    period fit 16 bits, so that a count is less than one 65535th of the period plus one cycle. *)
Theorem stm32_pwm_start_correct {H} `{HwLaws H} (d : stm32_dev H) p i :
  tim_phase d p -> can_start false p = true -> tim_supported i -> 2 * frequency i <= STM32_APB1_TIM2_CLKIN ->
  exists d', Stm32Pwm.pwm_start d i = Ok (OK, d') /\
    forall ch c, ch ∈ [1; 2; 3; 4] -> channels i !! Z.to_nat (ch - 1) = Some c ->
      exists period high, pin_wave (hw_val (hw d')) ch = Some (period, high) /\ wave_ok (frequency i) (duty c) period high.
Proof.
  intros Hp Hs Hi Hmax. destruct (start_phase d p i Hp Hs Hi) as (d' & E & Hd'). exists d'. split; [done|].
  intros ch c Hch Hc. by apply (phase_wave d' i).
Qed.

(** [pwm_stop] resets the timer, and with it the modes of its channels, which
    only [pwm_setup] configures.  A start after a stop reports success, but no pin
    outputs pulses, although the comments say that the timer is back in a state where
    it can be started. *)
Theorem stm32_pwm_restart_silent {H} `{HwLaws H} (d : stm32_dev H) i :
  tim_phase d (LOn i) ->
  exists d1 d2, Stm32Pwm.pwm_stop d = (OK, d1) /\ Stm32Pwm.pwm_start d1 i = Ok (OK, d2) /\
    forall ch, ch ∈ [1; 2; 3; 4] -> pin_wave (hw_val (hw d2)) ch = None.
Proof.
  intros ([Hfr (d1 & d2 & d3 & d4 & Ec & Hd)] & e1 & e2 & e3 & e4 & _ & Hu).
  destruct (stop_up d _ _ Hu) as (d' & E & Hh). destruct i as [fr cs]. cbn in Hfr, Ec. subst cs.
  destruct (start_timer d' 0 reset_regs fr d1 d2 d3 d4 Hh) as (d'' & E' & Hu'); [done|lia|].
  exists d', d''. split; [done|]. split; [done|]. intros ch Hch. by apply (halted_wave _ fr d1 d2 d3 d4 ch (tu_regs _ _ _ Hu')).
Qed.

(** A frequency of zero is not refused.  While the timer outputs, it is divided by;
    while it does not, zero counts as the frequency it already has, and the start
    reports success without any output. *)
Theorem stm32_pwm_zero_frequency {H} `{HwLaws H} (d : stm32_dev H) p cs :
  tim_phase d p ->
  match p with
  | LOn _ => Stm32Pwm.pwm_start d (mk_info 0 cs) = Err DivByZero
  | LReady => exists d', Stm32Pwm.pwm_start d (mk_info 0 cs) = Ok (OK, d') /\
      forall ch, ch ∈ [1; 2; 3; 4] -> pin_wave (hw_val (hw d')) ch = None
  | _ => True
  end.
Proof.
  intros Hp. destruct p as [| |i|]; try done.
  - destruct (start_duties_any (hw d) _ _ 0 cs (up_st _ _ _ Hp)) as (h' & r' & E & St & Er).
    unfold Stm32Pwm.pwm_start. rewrite (tu_priv _ _ _ Hp). change (frequency (mk_info 0 cs) =? _) with true. cbv iota.
    cbn [channels]. rewrite E. eexists. split; [done|]. intros ch _. by apply (idle_wave _ r' ch (ts_regs _ _ _ St)).
  - destruct Hp as ([Hfr _] & e1 & e2 & e3 & e4 & _ & Hu). unfold Stm32Pwm.pwm_start. rewrite (tu_priv _ _ _ Hu).
    cbn [frequency t_frequency set_t_frequency]. by rewrite (proj2 (Z.eqb_neq 0 (frequency i))) by lia.
Qed.

(** ** Examples on the simulated chip *)

Definition demo_tim : stm32_dev sim := mk_tdev g_pwm2dev demo_chip.

Lemma demo_off : tim_phase demo_tim LOff.
Proof. split; [done|]. split; [done|]. by vm_compute. Qed.

Definition result {A} (d : A) (c : res (Z * A)) : A := match c with Ok (_, x) => x | Err _ => d end.

Definition demo_ready : stm32_dev sim := result demo_tim (pwm_setup demo_tim).
Definition demo_on : stm32_dev sim := result demo_ready (Stm32Pwm.pwm_start demo_ready demo_info).

Lemma demo_ready_phase : tim_phase demo_ready LReady.
Proof. unfold demo_ready. by destruct (setup_phase demo_tim demo_off) as (d' & -> & Hd). Qed.

Lemma demo_supported : tim_supported demo_info.
Proof. split; [done|]. exists 23592, 23592, 23592, 23592. split; [done|]. by repeat constructor. Qed.

Lemma demo_on_phase : tim_phase demo_on (LOn demo_info).
Proof.
  unfold demo_on. by destruct (start_phase demo_ready LReady demo_info demo_ready_phase eq_refl demo_supported) as (d' & -> & Hd).
Qed.

Lemma stm32_pwm_start_witness : exists d' period high,
  Stm32Pwm.pwm_start demo_ready demo_info = Ok (OK, d') /\ pin_wave (hw_val (hw d')) 3 = Some (period, high) /\
  wave_ok 400 23592 period high.
Proof.
  destruct (stm32_pwm_start_correct demo_ready LReady demo_info demo_ready_phase eq_refl demo_supported) as (d' & E & Hw).
  - discriminate.
  - destruct (Hw 3 (mk_chan 23592 3)) as (period & high & Ew & Ho); [offs|reflexivity|].
    exists d', period, high. split; [exact E|]. split; [exact Ew|exact Ho].
Defined.

Lemma stm32_pwm_restart_witness : exists d1 d2,
  Stm32Pwm.pwm_stop demo_on = (OK, d1) /\ Stm32Pwm.pwm_start d1 demo_info = Ok (OK, d2) /\ pin_wave (hw_val (hw d2)) 1 = None.
Proof.
  destruct (stm32_pwm_restart_silent demo_on demo_info demo_on_phase) as (d1 & d2 & E1 & E2 & Hw).
  exists d1, d2. split; [exact E1|]. split; [exact E2|]. apply Hw. offs.
Defined.

Lemma stm32_pwm_zero_witness : Stm32Pwm.pwm_start demo_on (mk_info 0 []) = Err DivByZero.
Proof. exact (stm32_pwm_zero_frequency demo_on (LOn demo_info) [] demo_on_phase). Defined.

(** A channel that does not exist: the start reports success, and the channels
    after it keep a pulse of no length. *)
Lemma stm32_pwm_unknown_channel :
  match Stm32Pwm.pwm_start demo_ready (mk_info 400 [mk_chan 30000 1; mk_chan 30000 5; mk_chan 30000 3; mk_chan 30000 4]) with
  | Ok (ret, d) => ret = OK /\ (fun ch => pin_wave (hw_val (hw d)) ch) <$> [1; 2; 3; 4] =
      [Some (210000, 96128); Some (210000, 0); Some (210000, 0); Some (210000, 0)]
  | Err _ => False
  end.
Proof. by vm_compute. Qed.
