(* ===== verification/Float.v ===== *)
(** * Floating point numbers

    The arithmetic of the compiler's [double] and [float], which are the IEEE 754
    formats of 53 and 24 bits, and the cases in which it is exact: conversion of
    integers, multiplication, division by a power of two and conversion to a
    shorter format do not round when the result has few enough digits. *)

From Stdlib Require Import Floats.SpecFloat QArith Qpower.
From S2P Require Import Prelude.
Local Open Scope Z_scope.

Definition dbl (z : Z) : spec_float := binary_normalize 53 1024 z 0 false.
Definition dbl_div : spec_float -> spec_float -> spec_float := SFdiv 53 1024.
Definition dbl_mul : spec_float -> spec_float -> spec_float := SFmul 53 1024.
Definition dbl_add : spec_float -> spec_float -> spec_float := SFadd 53 1024.

(** The conversion of a finite number to an integer, towards zero. *)
Definition dbl_trunc (x : spec_float) : Z :=
  match x with
  | S754_finite s m e =>
      let v := if e <? 0 then Z.pos m / 2 ^ (- e) else Z.pos m * 2 ^ e in
      if s then - v else v
  | _ => 0
  end.

(** The conversions to [float]. *)
Definition flt (z : Z) : spec_float := binary_normalize 24 128 z 0 false.
Definition flt_of_dbl (x : spec_float) : spec_float :=
  match x with
  | S754_finite s m e => binary_normalize 24 128 (if s then Z.neg m else Z.pos m) e s
  | _ => x
  end.

(** The number that a finite float stands for. *)
Definition fval (x : spec_float) : Q :=
  match x with
  | S754_finite s m e => inject_Z (if s then Z.neg m else Z.pos m) * Qpower 2 e
  | _ => 0
  end.

(** ** Digits *)

(** The number of binary digits of a positive number. *)
Abbreviation ndig n := (Z.log2 n + 1).

Lemma digits2_log2 p : Z.pos (digits2_pos p) = ndig (Z.pos p).
Proof.
  induction p as [p IH|p IH|]; [..|done]; cbn [digits2_pos]; rewrite Pos2Z.inj_succ, IH.
  - rewrite Pos2Z.inj_xI, Z.log2_succ_double by lia. lia.
  - rewrite Pos2Z.inj_xO, Z.log2_double by lia. lia.
Qed.

Lemma zdigits_log2 n : 0 < n -> Zdigits2 n = ndig n.
Proof. destruct n; try lia. intros _. apply digits2_log2. Qed.

Lemma log2_shift n j : 0 < n -> 0 <= j -> Z.log2 (n * 2 ^ j) = Z.log2 n + j.
Proof. intros. rewrite Z.log2_mul_pow2 by lia. lia. Qed.

(** ** Shifting out zeros *)

Lemma shr_1_even m : 0 < m -> shr_1 (Build_shr_record (m * 2) false false) = Build_shr_record m false false.
Proof. intros Hm. rewrite Z.mul_comm. by destruct m. Qed.

Lemma shr_zeros p m :
  0 < m -> SpecFloat.iter_pos shr_1 p (Build_shr_record (m * 2 ^ Z.pos p) false false) = Build_shr_record m false false.
Proof.
  revert m. induction p as [p IH|p IH|]; intros m Hm; cbn [SpecFloat.iter_pos].
  - rewrite Pos2Z.inj_xI, Z.pow_add_r by lia. replace (2 * Z.pos p) with (Z.pos p + Z.pos p) by lia.
    rewrite Z.pow_add_r, !Z.mul_assoc, shr_1_even by lia. by rewrite !IH by lia.
  - rewrite (Pos2Z.inj_xO p). replace (2 * Z.pos p) with (Z.pos p + Z.pos p) by lia.
    rewrite Z.pow_add_r, !Z.mul_assoc by lia. by rewrite !IH by lia.
  - by apply shr_1_even.
Qed.

Lemma shr_exact m e n : 0 < m -> 0 <= n ->
  shr (Build_shr_record (m * 2 ^ n) false false) e n = (Build_shr_record m false false, e + n).
Proof.
  intros Hm Hn. destruct n as [|p|p]; [|cbn [shr]; by rewrite shr_zeros|lia]. cbn. by rewrite Z.mul_1_r, Z.add_0_r.
Qed.

(** ** Exact results *)

Section Exact.
Context (prec emax : Z) (Hprec : 1 < prec) (Hemax : prec < emax).

(** The number [n * 2 ^ k] with its mantissa filled up to [prec] digits, where
    [n] has at most that many. *)
Definition fl (s : bool) (n k : Z) : spec_float :=
  let j := prec - ndig n in S754_finite s (Z.to_pos (n * 2 ^ j)) (k - j).

(** [n * 2 ^ k] is a normal number of the format. *)
Record fits (n k : Z) : Prop := {
  fit_pos : 0 < n;
  fit_dig : ndig n <= prec;
  fit_lo : emin prec emax <= k + ndig n - prec;
  fit_hi : k + ndig n <= emax
}.

Lemma round_aux_exact s n j e :
  fits n (e + j) -> 0 <= j -> prec <= ndig n + j ->
  binary_round_aux prec emax s (n * 2 ^ j) e loc_Exact = fl s n (e + j).
Proof.
  intros [Hn Hd Hlo Hhi] Hj Hp. pose proof (Z.log2_nonneg n).
  set (m := n * 2 ^ (prec - ndig n)). set (i := ndig n + j - prec).
  assert (0 < m) as Hm by (unfold m; apply Z.mul_pos_pos; [done|apply Z.pow_pos_nonneg; lia]).
  assert (ndig m = prec) as Hdm by (unfold m; rewrite log2_shift; lia).
  assert (n * 2 ^ j = m * 2 ^ i) as E.
  { unfold m, i. rewrite <- Z.mul_assoc, <- Z.pow_add_r by lia. do 2 f_equal. lia. }
  unfold binary_round_aux, shr_fexp. cbn [shr_record_of_loc]. rewrite zdigits_log2, log2_shift by (rewrite ?E; lia).
  replace (fexp prec emax (Z.log2 n + j + 1 + e) - e) with i by (unfold fexp, i; lia).
  rewrite E, shr_exact by lia. cbn [shr_m loc_of_shr_record round_nearest_even].
  rewrite zdigits_log2, Hdm by done. replace (fexp prec emax (prec + (e + i)) - (e + i)) with 0 by (unfold fexp; lia).
  cbn [shr shr_m]. destruct m as [|q|q] eqn:Eq; try lia. rewrite (proj2 (Z.leb_le _ _)) by lia.
  unfold fl. fold m. rewrite Eq. cbn. f_equal. unfold i. lia.
Qed.

Lemma shl_zeros m d : Z.pos (Pos.iter xO m d) = Z.pos m * 2 ^ Z.pos d.
Proof.
  induction d as [|d IH] using Pos.peano_ind; [cbn; lia|].
  rewrite Pos.iter_succ, Pos2Z.inj_succ, Z.pow_succ_r, Pos2Z.inj_xO, IH by lia. lia.
Qed.

(** Numbers with trailing zeros have the same filled mantissa. *)
Lemma fl_shift s n j k : 0 < n -> 0 <= j -> ndig n + j <= prec -> fl s (n * 2 ^ j) k = fl s n (k + j).
Proof.
  intros Hn Hj Hd. unfold fl. rewrite log2_shift by lia. f_equal; [|lia]. f_equal.
  rewrite <- Z.mul_assoc, <- Z.pow_add_r by lia. do 2 f_equal. lia.
Qed.

Lemma round_exact s n j k :
  fits n (k + j) -> 0 <= j -> binary_round prec emax s (Z.to_pos (n * 2 ^ j)) k = fl s n (k + j).
Proof.
  intros Hf Hj. pose proof Hf as [Hn Hd Hlo Hhi]. pose proof (Z.log2_nonneg n).
  assert (0 < n * 2 ^ j) as HM by (apply Z.mul_pos_pos; [done|apply Z.pow_pos_nonneg; lia]).
  unfold binary_round. rewrite digits2_log2, Z2Pos.id, log2_shift by lia. unfold shl_align.
  destruct (fexp prec emax (Z.log2 n + j + 1 + k) - k) as [|p|p] eqn:E; unfold fexp in E.
  - rewrite Z2Pos.id by done. apply round_aux_exact; [done|done|lia].
  - rewrite Z2Pos.id by done. apply round_aux_exact; [done|done|lia].
  - rewrite shl_zeros, Z2Pos.id, <- Z.mul_assoc, <- Z.pow_add_r by lia. unfold fexp.
    replace (k + j) with (Z.max (Z.log2 n + j + 1 + k - prec) (emin prec emax) + (j + Z.pos p)) by lia.
    apply round_aux_exact; [|lia|lia].
    replace (Z.max (Z.log2 n + j + 1 + k - prec) (emin prec emax) + (j + Z.pos p)) with (k + j) by lia. done.
Qed.

Definition signed (s : bool) (n : Z) : Z := if s then - n else n.

Lemma normalize_exact s n j k z :
  fits n (k + j) -> 0 <= j -> binary_normalize prec emax (signed s (n * 2 ^ j)) k z = fl s n (k + j).
Proof.
  intros Hf Hj. pose proof (fit_pos _ _ Hf). rewrite <- (round_exact s n j k Hf Hj).
  assert (0 < n * 2 ^ j) as HM by (apply Z.mul_pos_pos; [done|apply Z.pow_pos_nonneg; lia]).
  by destruct s, (n * 2 ^ j).
Qed.

Lemma mantissa_pos n : 0 < n -> ndig n <= prec -> Z.pos (Z.to_pos (n * 2 ^ (prec - ndig n))) = n * 2 ^ (prec - ndig n).
Proof. intros Hn Hd. apply Z2Pos.id, Z.mul_pos_pos; [done|]. apply Z.pow_pos_nonneg; lia. Qed.

Lemma mul_exact s1 n1 k1 s2 n2 k2 :
  0 < n1 -> 0 < n2 -> ndig n1 <= prec -> ndig n2 <= prec -> fits (n1 * n2) (k1 + k2) ->
  SFmul prec emax (fl s1 n1 k1) (fl s2 n2 k2) = fl (xorb s1 s2) (n1 * n2) (k1 + k2).
Proof.
  intros H1 H2 D1 D2 Hf. pose proof (Z.log2_mul_below n1 n2 H1 H2). unfold fl at 1 2. cbn [SFmul].
  rewrite Pos2Z.inj_mul, !mantissa_pos by done.
  replace (n1 * 2 ^ (prec - ndig n1) * (n2 * 2 ^ (prec - ndig n2)))
    with (n1 * n2 * 2 ^ ((prec - ndig n1) + (prec - ndig n2))) by (rewrite Z.pow_add_r by lia; ring).
  set (j := (prec - ndig n1) + (prec - ndig n2)).
  replace (k1 + k2) with (k1 - (prec - ndig n1) + (k2 - (prec - ndig n2)) + j) by (unfold j; lia).
  apply round_aux_exact; [|unfold j; lia|unfold j; pose proof (fit_dig _ _ Hf); lia].
  unfold j. by replace (k1 - (prec - ndig n1) + (k2 - (prec - ndig n2)) + (prec - ndig n1 + (prec - ndig n2))) with (k1 + k2) by lia.
Qed.

(** Division by a power of two. *)
Lemma div_pow2_exact s n k j :
  fits n k -> fits n (k - j) -> emin prec emax <= k - j - prec ->
  SFdiv prec emax (fl s n k) (fl false 1 j) = fl s n (k - j).
Proof.
  intros Hf Hf' Hlo. pose proof Hf as [Hn Hd _ _]. pose proof (Z.log2_nonneg n). unfold fl at 1 2. cbn [SFdiv].
  change (Z.log2 1 + 1) with 1. rewrite xorb_false_r, Z.mul_1_l.
  assert (0 < 2 ^ (prec - 1)) as H2 by (apply Z.pow_pos_nonneg; lia).
  assert (Zdigits2 (2 ^ (prec - 1)) = prec) as D2 by (rewrite zdigits_log2, Z.log2_pow2 by lia; lia).
  assert (Zdigits2 (n * 2 ^ (prec - ndig n)) = prec) as D1.
  { rewrite zdigits_log2, log2_shift; [lia|lia|lia|]. apply Z.mul_pos_pos; [done|apply Z.pow_pos_nonneg; lia]. }
  unfold SFdiv_core_binary. rewrite mantissa_pos, (Z2Pos.id (2 ^ (prec - 1))), D1, D2 by done.
  set (e := k - j - prec + Z.log2 n).
  replace (Z.min _ _) with e by (unfold fexp, e; lia).
  replace (k - (prec - ndig n) - (j - (prec - 1)) - e) with prec by (unfold e; lia).
  replace (match prec with 0 => _ | Z.pos _ => Z.shiftl (n * 2 ^ (prec - ndig n)) prec | Z.neg _ => 0 end)
    with (n * 2 ^ (prec - Z.log2 n) * 2 ^ (prec - 1)).
  2: { destruct prec as [|p|p] eqn:Ep; try lia. rewrite Z.shiftl_mul_pow2 by lia.
       rewrite <- !Z.mul_assoc, <- !Z.pow_add_r by lia. do 2 f_equal. lia. }
  pose proof (Z_div_mod (n * 2 ^ (prec - Z.log2 n) * 2 ^ (prec - 1)) (2 ^ (prec - 1)) ltac:(lia)) as Hdm.
  destruct (Z.div_eucl _ _) as [q r]. destruct Hdm as [Hq Hr].
  destruct (Z.div_mod_unique (2 ^ (prec - 1)) q (n * 2 ^ (prec - Z.log2 n)) r 0) as [-> ->]; [lia|lia|lia|].
  replace (new_location (2 ^ (prec - 1)) 0) with loc_Exact by (unfold new_location; by destruct (Z.even _)).
  replace (k - j) with (e + (prec - Z.log2 n)) by (unfold e; lia). apply round_aux_exact; [|lia|lia].
  unfold e. by replace (k - j - prec + Z.log2 n + (prec - Z.log2 n)) with (k - j) by lia.
Qed.

Lemma fval_fl s n k : 0 < n -> ndig n <= prec -> (fval (fl s n k) == inject_Z (signed s n) * Qpower 2 k)%Q.
Proof.
  intros Hn Hd. unfold fl, fval. set (j := prec - ndig n). assert (0 <= j) as Hj by (unfold j; lia).
  assert ((if s then Z.neg (Z.to_pos (n * 2 ^ j)) else Z.pos (Z.to_pos (n * 2 ^ j))) = signed s n * 2 ^ j) as ->.
  { rewrite <- Pos2Z.opp_pos, Z2Pos.id by (apply Z.mul_pos_pos; [done|apply Z.pow_pos_nonneg; lia]). destruct s; cbn; ring. }
  rewrite inject_Z_mult, <- Qmult_assoc. rewrite Zpower_Qpower by done. rewrite <- Qpower_plus by done.
  by replace (j + (k - j)) with k by lia.
Qed.
End Exact.

(** ** The two formats *)

Lemma signed_abs x : signed (x <? 0) (Z.abs x) = x.
Proof. unfold signed. destruct (Z.ltb_spec x 0); lia. Qed.

Lemma log2_bound n d : 0 < n < 2 ^ d -> Z.log2 n + 1 <= d.
Proof. intros [? ?]. pose proof (proj1 (Z.log2_lt_pow2 n d ltac:(done)) ltac:(done)). lia. Qed.

Lemma dbl_exact x : x <> 0 -> Z.abs x < 2 ^ 53 -> dbl x = fl 53 (x <? 0) (Z.abs x) 0.
Proof.
  intros Hx Hb. pose proof (log2_bound (Z.abs x) 53 ltac:(lia)). pose proof (Z.log2_nonneg (Z.abs x)). unfold dbl.
  rewrite <- (signed_abs x) at 1. rewrite <- (Z.mul_1_r (Z.abs x)) at 1. change 1 with (2 ^ 0) at 1.
  apply normalize_exact; [split; unfold emin; lia|lia].
Qed.

Lemma flt_of_dbl_exact s n k :
  0 < n < 2 ^ 24 -> -100 <= k <= 100 -> flt_of_dbl (fl 53 s n k) = fl 24 s n k.
Proof.
  intros Hn Hk. pose proof (log2_bound n 24 Hn). pose proof (Z.log2_nonneg n). unfold fl at 1. cbn [flt_of_dbl].
  set (j := 53 - ndig n). replace k with (k - j + j) at 2 by lia.
  assert (0 < n * 2 ^ j) by (apply Z.mul_pos_pos; [lia|apply Z.pow_pos_nonneg; lia]).
  rewrite <- (normalize_exact 24 128 s n j (k - j) s); [|split; unfold emin; lia|lia].
  f_equal. rewrite <- Pos2Z.opp_pos, Z2Pos.id by done. by destruct s.
Qed.

Lemma flt_exact x : x <> 0 -> Z.abs x < 2 ^ 24 -> flt x = fl 24 (x <? 0) (Z.abs x) 0.
Proof.
  intros Hx Hb. pose proof (log2_bound (Z.abs x) 24 ltac:(lia)). pose proof (Z.log2_nonneg (Z.abs x)). unfold flt.
  rewrite <- (signed_abs x) at 1. rewrite <- (Z.mul_1_r (Z.abs x)) at 1. change 1 with (2 ^ 0) at 1.
  apply normalize_exact; [split; unfold emin; lia|lia].
Qed.

Ltac fit := first [lia | split; unfold emin; lia | unfold emin; lia].

(** [x / 2 ^ i * (c * 2 ^ j)], computed in double precision and converted, is
    exact when [x * c] has at most 24 digits. *)
Lemma scale_exact x i c j :
  x <> 0 -> 0 < c -> 0 <= i <= 40 -> 0 <= j <= 8 -> Z.abs x * c < 2 ^ 24 -> c * 2 ^ j < 2 ^ 53 ->
  flt_of_dbl (dbl_mul (dbl_div (dbl x) (dbl (2 ^ i))) (dbl (c * 2 ^ j))) =
  fl 24 (x <? 0) (Z.abs x * c) (j - i).
Proof.
  intros Hx Hc Hi Hj Hxc Hcj. set (n := Z.abs x) in *. assert (0 < n) as Hn by lia.
  assert (0 < 2 ^ i <= 2 ^ 40) as H2i by (split; [apply Z.pow_pos_nonneg|apply Z.pow_le_mono_r]; lia).
  assert (0 < 2 ^ j <= 2 ^ 8) as H2j by (split; [apply Z.pow_pos_nonneg|apply Z.pow_le_mono_r]; lia).
  pose proof (log2_bound n 24 ltac:(nia)). pose proof (log2_bound c 24 ltac:(nia)). pose proof (log2_bound (n * c) 24 ltac:(nia)).
  pose proof (Z.log2_nonneg n). pose proof (Z.log2_nonneg c). pose proof (Z.log2_nonneg (n * c)).
  rewrite (dbl_exact x), (dbl_exact (2 ^ i)), (dbl_exact (c * 2 ^ j)) by lia. fold n.
  rewrite (proj2 (Z.ltb_ge (2 ^ i) 0)), (proj2 (Z.ltb_ge (c * 2 ^ j) 0)), !(Z.abs_eq (_ * _)), (Z.abs_eq (2 ^ i)) by lia.
  replace (2 ^ i) with (1 * 2 ^ i) by lia. unfold dbl_div, dbl_mul.
  rewrite (fl_shift 53 false 1 i), (fl_shift 53 false c j) by (try change (Z.log2 1) with 0; lia).
  rewrite div_pow2_exact by fit. rewrite mul_exact by fit.
  rewrite xorb_false_r. replace (0 - (0 + i) + (0 + j)) with (j - i) by lia. apply flt_of_dbl_exact; nia.
Qed.
