(* ===== verification/Motor.v ===== *)
(** * The motor and PWM output drivers of the flight application

    Model of [apps/chewie/drivers/pwm_out/drv_pwm_out.c],
    [drivers/motor/drv_motor.c], [drivers/drv_motor.h] and of [test_motor] in
    [chewie_main.c], with the default values of [apps/chewie/Kconfig].  The
    operating system is the interface [Posix].

    The number of channels is a parameter: the configuration has 4, which its
    help text calls the only available value, and the code is written for any.
    Logging and the flushing of output are left out.  *)

From stdpp Require Import strings.
From S2P Require Import Prelude Float Inode Vfs VfsRun Pwm.
Local Open Scope Z_scope.

(** ** Constants *)

Definition CONFIG_CHEWIE_MOTOR_PWM_FREQUENCY : Z := 400.
Definition CONFIG_CHEWIE_MOTOR_PWM_MIN_THROTTLE_PLUSE_US : Z := 1000.
Definition CONFIG_CHEWIE_MOTOR_PWM_MAX_THROTTLE_PLUSE_US : Z := 2000.
Definition CONFIG_CHEWIE_MOTOR_PWM_ARMED_THROTTLE_PLUSE_US : Z := 900.
Definition CONFIG_CHEWIE_MOTOR_PWM_OUT_DEVICE_PATH_PREFIX : list Z := cstr "/dev/pwm_out_motor_".

(** The compiler evaluates the constants in double precision:
    [((ub16_t)(us / (1.0 / FREQUENCY * 1000000.0) * 0x0000FFFF))] *)
Definition PLUSE_US_TO_DUTY (us : Z) : Z :=
  u32 (dbl_trunc (dbl_mul (dbl_div (dbl us)
    (dbl_mul (dbl_div (dbl 1) (dbl CONFIG_CHEWIE_MOTOR_PWM_FREQUENCY)) (dbl 1000000))) (dbl 65535))).

Definition CHEWIE_DRV_MOTOR_MAX_THROTTLE_DUTY : Z := PLUSE_US_TO_DUTY CONFIG_CHEWIE_MOTOR_PWM_MAX_THROTTLE_PLUSE_US.
Definition CHEWIE_DRV_MOTOR_MIN_THROTTLE_DUTY : Z := PLUSE_US_TO_DUTY CONFIG_CHEWIE_MOTOR_PWM_MIN_THROTTLE_PLUSE_US.
Definition CHEWIE_DRV_MOTOR_ARMED_THROTTLE_DUTY : Z := PLUSE_US_TO_DUTY CONFIG_CHEWIE_MOTOR_PWM_ARMED_THROTTLE_PLUSE_US.

(** ** The PWM output driver *)

Section Driver.
Context {S : Type} `{Posix S pwm_arg}.

(** [None] is a NULL path. *)
Definition drv_pwm_init (s : S) (devpath : option (list Z)) : res (Z * S) :=
  match devpath with
  | None => Ok (-1, s)
  | Some p =>
      '(fd, s) ← sys_open s p O_RDONLY;
      if fd <? 0 then Ok (-1, s) else Ok (fd, s)
  end.

Definition drv_pwm_start (s : S) (fd : Z) : res (Z * S) :=
  '(ret, _, s) ← sys_ioctl s fd PWMIOC_START NoArg;
  if ret <? 0 then Ok (-1, s) else Ok (0, s).

Definition drv_pwm_stop (s : S) (fd : Z) : res (Z * S) :=
  '(ret, _, s) ← sys_ioctl s fd PWMIOC_STOP NoArg;
  if ret <? 0 then Ok (-1, s) else Ok (0, s).

Definition drv_pwm_update_info (s : S) (fd : Z) (p_init_info_s : pwm_info_s) : res (Z * S) :=
  '(ret, _, s) ← sys_ioctl s fd PWMIOC_SETCHARACTERISTICS (InfoArg p_init_info_s);
  if ret <? 0 then Ok (-1, s) else Ok (0, s).

Definition drv_pwm_deinit (s : S) (fd : Z) : res S :=
  '(_, s) ← sys_close s fd; Ok s.
End Driver.

(** ** The motor driver *)

(** [_g_motors_state] and [g_motor_state]. *)
Record motors := mk_motors {
  pwms_info : list pwm_info_s;
  pwm_devs_fd : list Z;
  freq : Z;
  dutys : list Z
}.

Definition set_pwms_info (g : motors) (v : list pwm_info_s) : motors := mk_motors v (pwm_devs_fd g) (freq g) (dutys g).
Definition set_devs_fd (g : motors) (v : list Z) : motors := mk_motors (pwms_info g) v (freq g) (dutys g).
Definition set_freq (g : motors) (v : Z) : motors := mk_motors (pwms_info g) (pwm_devs_fd g) v (dutys g).
Definition set_dutys (g : motors) (v : list Z) : motors := mk_motors (pwms_info g) (pwm_devs_fd g) (freq g) v.

Definition set_frequency (i : pwm_info_s) (f : Z) : pwm_info_s := mk_info f (channels i).
Definition set_channels (i : pwm_info_s) (c : list pwm_chan_s) : pwm_info_s := mk_info (frequency i) c.

(** [for (i = from; i < from + n; ++i) body] *)
Fixpoint for_loop {B} (n : nat) (i : Z) (body : Z -> B -> res B) (b : B) : res B :=
  match n with
  | O => Ok b
  | Datatypes.S n => b ← body i b; for_loop n (i + 1) body b
  end.

(** [_g_motors_state.pwms_info[j].channels[k] = ...] *)
Definition upd_channel (g : motors) (j k : Z) (f : pwm_chan_s -> pwm_chan_s) : res motors :=
  i ← array_get (pwms_info g) (Z.to_nat j);
  c ← array_get (channels i) (Z.to_nat k);
  cs ← array_set (channels i) (Z.to_nat k) (f c);
  infos ← array_set (pwms_info g) (Z.to_nat j) (set_channels i cs);
  Ok (set_pwms_info g infos).

Section Motor.
Context {S : Type} `{Posix S pwm_arg}.
Context (CONFIG_CHEWIE_NUM_OF_CHANNELS : Z).
Abbreviation NCH := CONFIG_CHEWIE_NUM_OF_CHANNELS.

Definition CHEWIE_NUM_OF_MOTOR_PWM_DEV : Z := NCH / 4 + (if NCH mod 4 =? 0 then 0 else 1).

(** The globals before the first call: static storage is zero. *)
Definition motors_zero : motors :=
  mk_motors (replicate (Z.to_nat CHEWIE_NUM_OF_MOTOR_PWM_DEV) info_zero)
    (replicate (Z.to_nat CHEWIE_NUM_OF_MOTOR_PWM_DEV) 0) 0 (replicate (Z.to_nat NCH) 0).

(** [for (j = 0; j < CONFIG_PWM_NCHANNELS && i * CONFIG_PWM_NCHANNELS + j < NCH; ++j)] *)
Fixpoint init_channels (n : nat) (i j : Z) (g : motors) : res motors :=
  match n with
  | O => Ok g
  | Datatypes.S n =>
      if (j <? CONFIG_PWM_NCHANNELS) && (i * CONFIG_PWM_NCHANNELS + j <? NCH) then
        g ← upd_channel g i j (fun c => mk_chan (duty c) (u8 (j + 1)));
        g ← upd_channel g i j (fun c => mk_chan CHEWIE_DRV_MOTOR_ARMED_THROTTLE_DUTY (channel c));
        init_channels n i (j + 1) g
      else Ok g
  end.

(** The first loop of [drv_motor_init], for device [i]. *)
Definition init_dev (i : Z) (g : motors) : res motors :=
  fds ← array_set (pwm_devs_fd g) (Z.to_nat i) (-1);
  info ← array_get (pwms_info g) (Z.to_nat i);
  infos ← array_set (pwms_info g) (Z.to_nat i) (set_frequency info CONFIG_CHEWIE_MOTOR_PWM_FREQUENCY);
  init_channels (Z.to_nat CONFIG_PWM_NCHANNELS) i 0 (set_pwms_info (set_devs_fd g fds) infos).

(** [g_motor_state.dutys[i] = d] for all channels. *)
Definition set_all_dutys (d : Z) (g : motors) : res motors :=
  for_loop (Z.to_nat NCH) 0 (fun i g =>
    ds ← array_set (dutys g) (Z.to_nat i) d; Ok (set_dutys g ds)) g.

(** Opening and starting device [i]; [false] asks for the error exit. *)
Definition start_dev (i : Z) (s : S) (g : motors) : res (bool * S * motors) :=
  '(fd, s) ← drv_pwm_init s (Some (CONFIG_CHEWIE_MOTOR_PWM_OUT_DEVICE_PATH_PREFIX ++ decimal i));
  fds ← array_set (pwm_devs_fd g) (Z.to_nat i) fd;
  let g := set_devs_fd g fds in
  if fd <? 0 then Ok (false, s, g)
  else
    info ← array_get (pwms_info g) (Z.to_nat i);
    '(ret, s) ← drv_pwm_update_info s fd info;
    if ret <? 0 then Ok (false, s, g)
    else
      '(ret, s) ← drv_pwm_start s fd;
      if ret <? 0 then Ok (false, s, g) else Ok (true, s, g).

Fixpoint start_devs (n : nat) (i : Z) (s : S) (g : motors) : res (bool * S * motors) :=
  match n with
  | O => Ok (true, s, g)
  | Datatypes.S n =>
      '(ok, s, g) ← start_dev i s g;
      if (ok : bool) then start_devs n (i + 1) s g else Ok (false, s, g)
  end.

(** [errout_with_dev] *)
Definition close_devs (s : S) (g : motors) : res S :=
  for_loop (Z.to_nat CHEWIE_NUM_OF_MOTOR_PWM_DEV) 0 (fun i s =>
    fd ← array_get (pwm_devs_fd g) (Z.to_nat i);
    if 0 <=? fd then '(_, s) ← sys_close s fd; Ok s else Ok s) s.

Definition drv_motor_init (s : S) (g : motors) : res (Z * S * motors) :=
  let g := set_freq g CONFIG_CHEWIE_MOTOR_PWM_FREQUENCY in
  g ← for_loop (Z.to_nat CHEWIE_NUM_OF_MOTOR_PWM_DEV) 0 init_dev g;
  g ← set_all_dutys CHEWIE_DRV_MOTOR_ARMED_THROTTLE_DUTY g;
  '(ok, s, g) ← start_devs (Z.to_nat CHEWIE_NUM_OF_MOTOR_PWM_DEV) 0 s g;
  if (ok : bool) then Ok (0, s, g)
  else s ← close_devs s g; Ok (-1, s, g).

(** One turn of the loop of [drv_motor_update], on the globals and [j], [k]. *)
Definition update_channel (i : Z) (x : S * motors * Z * Z) : res (S * motors * Z * Z) :=
  let '(s, g, j, k) := x in
  d ← array_get (dutys g) (Z.to_nat i);
  g ← upd_channel g j k (fun c => mk_chan d (channel c));
  g ← (if CHEWIE_DRV_MOTOR_MAX_THROTTLE_DUTY <? d
       then upd_channel g j k (fun c => mk_chan CHEWIE_DRV_MOTOR_MAX_THROTTLE_DUTY (channel c)) else Ok g);
  g ← (if d <? CHEWIE_DRV_MOTOR_ARMED_THROTTLE_DUTY
       then upd_channel g j k (fun c => mk_chan CHEWIE_DRV_MOTOR_ARMED_THROTTLE_DUTY (channel c)) else Ok g);
  if CONFIG_PWM_NCHANNELS - 1 <=? k then
    fd ← array_get (pwm_devs_fd g) (Z.to_nat j);
    info ← array_get (pwms_info g) (Z.to_nat j);
    '(_, s) ← drv_pwm_update_info s fd info;
    Ok (s, g, u8 (j + 1), u8 (u8 (-1) + 1))
  else Ok (s, g, j, u8 (k + 1)).

Definition drv_motor_update (s : S) (g : motors) : res (Z * S * motors) :=
  '(s, g, _, _) ← for_loop (Z.to_nat NCH) 0 update_channel (s, g, 0, 0);
  Ok (0, s, g).

Definition drv_motor_esc_init (s : S) (g : motors) : res (Z * S * motors) :=
  g ← set_all_dutys CHEWIE_DRV_MOTOR_MAX_THROTTLE_DUTY g;
  '(ret, s, g) ← drv_motor_update s g;
  if ret <? 0 then Ok (-1, s, g)
  else
    s ← sys_sleep s 3;
    g ← set_all_dutys CHEWIE_DRV_MOTOR_MIN_THROTTLE_DUTY g;
    '(ret, s, g) ← drv_motor_update s g;
    if ret <? 0 then Ok (-1, s, g)
    else s ← sys_sleep s 3; Ok (0, s, g).

Definition drv_motor_deinit (s : S) (g : motors) : res (S * motors) :=
  for_loop (Z.to_nat CHEWIE_NUM_OF_MOTOR_PWM_DEV) 0 (fun i '(s, g) =>
    fd ← array_get (pwm_devs_fd g) (Z.to_nat i);
    '(_, s) ← drv_pwm_stop s fd;
    s ← drv_pwm_deinit s fd;
    fds ← array_set (pwm_devs_fd g) (Z.to_nat i) (-1);
    Ok (s, set_devs_fd g fds)) (s, g).

(** ** The motor test of [chewie_main.c] *)

(** [(int)(MIN + (MAX - MIN) * 0.5)]: the difference of unsigned integers is
    multiplied as a double. *)
Definition half_throttle : Z :=
  s32 (dbl_trunc (dbl_add (dbl CHEWIE_DRV_MOTOR_MIN_THROTTLE_DUTY)
    (dbl_mul (dbl (u32 (CHEWIE_DRV_MOTOR_MAX_THROTTLE_DUTY - CHEWIE_DRV_MOTOR_MIN_THROTTLE_DUTY)))
       (dbl_div (dbl 1) (dbl 2))))).

(** Setting all duties, sending them and sleeping. *)
Definition test_phase (d t : Z) (s : S) (g : motors) : res (Z * S * motors) :=
  g ← set_all_dutys d g;
  '(ret, s, g) ← drv_motor_update s g;
  s ← sys_sleep s t;
  Ok (ret, s, g).

(** The two last phases check the result before they sleep. *)
Definition test_phase_checked (d t : Z) (s : S) (g : motors) : res (Z * S * motors) :=
  g ← set_all_dutys d g;
  '(ret, s, g) ← drv_motor_update s g;
  if ret <? 0 then Ok (ret, s, g) else s ← sys_sleep s t; Ok (ret, s, g).

Definition test_motor (s : S) (g : motors) : res (Z * S * motors) :=
  let errout s g := '(s, g) ← drv_motor_deinit s g; Ok (-1, s, g) in
  '(ret, s, g) ← drv_motor_init s g;
  if ret <? 0 then errout s g
  else
    '(ret, s, g) ← drv_motor_esc_init s g;
    if ret <? 0 then errout s g
    else
      '(_, s, g) ← test_phase (CHEWIE_DRV_MOTOR_ARMED_THROTTLE_DUTY + 874) 1 s g;
      '(_, s, g) ← test_phase (CHEWIE_DRV_MOTOR_ARMED_THROTTLE_DUTY + 874 + 874) 1 s g;
      '(_, s, g) ← test_phase (CHEWIE_DRV_MOTOR_ARMED_THROTTLE_DUTY + 874 + 874 + 874) 1 s g;
      '(ret, s, g) ← test_phase_checked half_throttle 5 s g;
      if ret <? 0 then errout s g
      else
        '(ret, s, g) ← test_phase_checked CHEWIE_DRV_MOTOR_ARMED_THROTTLE_DUTY 5 s g;
        if ret <? 0 then errout s g
        else '(s, g) ← drv_motor_deinit s g; Ok (0, s, g).
End Motor.
