(* ===== verification/MotorProps.v ===== *)
(** * The motors do what the flight code asks for

    What the motor driver needs of the system is a class: a PWM device under its
    path that can be opened, set, started, stopped and closed.  The theorems of
    the driver are proved against it. *)

From stdpp Require Import strings.
From S2P Require Import Prelude Inode Vfs VfsRun Pwm PwmProps Motor.
Local Open Scope Z_scope.

(** ** The interface *)

(** How an application sees a PWM device. *)
Inductive dev_view :=
  | Closed
  | Opened (fd : Z) (i : pwm_info_s) (sw : switch).

(** [supported] are the characteristics that the hardware can output.  Output
    that was stopped need not start again before the device is opened anew. *)
Class PwmSystem (S : Type) `{Posix S pwm_arg} (path : list Z) (supported : pwm_info_s -> Prop)
    (view : S -> dev_view -> Prop) : Prop := {
  sys_open_ok s : view s Closed ->
    exists fd i s', sys_open s path O_RDONLY = Ok (fd, s') /\ 0 <= fd /\ view s' (Opened fd i Fresh);
  sys_set_ok s fd i0 on i : view s (Opened fd i0 on) -> supported i ->
    exists r arg s', sys_ioctl s fd PWMIOC_SETCHARACTERISTICS (InfoArg i) = Ok (r, arg, s') /\ 0 <= r /\
      view s' (Opened fd i on);
  sys_start_ok s fd i on : view s (Opened fd i on) -> on <> Halted -> supported i ->
    exists r arg s', sys_ioctl s fd PWMIOC_START NoArg = Ok (r, arg, s') /\ 0 <= r /\ view s' (Opened fd i On);
  sys_stop_ok s fd i on : view s (Opened fd i on) ->
    exists r arg s', sys_ioctl s fd PWMIOC_STOP NoArg = Ok (r, arg, s') /\ 0 <= r /\ view s' (Opened fd i (stop_sw on));
  sys_close_ok s fd i on : view s (Opened fd i on) -> on <> On ->
    exists r s', sys_close s fd = Ok (r, s') /\ view s' Closed;
  sys_sleep_ok s v n : view s v -> exists s', sys_sleep s n = Ok s' /\ view s' v
}.

Definition motor_path : list Z := cstr "/dev/pwm_out_motor_0".

(** ** Duties *)

Lemma throttle_values :
  CHEWIE_DRV_MOTOR_ARMED_THROTTLE_DUTY = 23592 /\ CHEWIE_DRV_MOTOR_MIN_THROTTLE_DUTY = 26214 /\
  CHEWIE_DRV_MOTOR_MAX_THROTTLE_DUTY = 52428 /\ half_throttle = 39321.
Proof. by vm_compute. Qed.

(** The duty the driver sends for a duty that was asked for. *)
Definition clamp (d : Z) : Z :=
  if d <? CHEWIE_DRV_MOTOR_ARMED_THROTTLE_DUTY then CHEWIE_DRV_MOTOR_ARMED_THROTTLE_DUTY
  else if CHEWIE_DRV_MOTOR_MAX_THROTTLE_DUTY <? d then CHEWIE_DRV_MOTOR_MAX_THROTTLE_DUTY else d.

(** The duties the driver sends as they are. *)
Definition throttle_ok (d : Z) : Prop :=
  CHEWIE_DRV_MOTOR_ARMED_THROTTLE_DUTY <= d <= CHEWIE_DRV_MOTOR_MAX_THROTTLE_DUTY.

Ltac throttle :=
  unfold throttle_ok; destruct throttle_values as (?E1 & ?E2 & ?E3 & ?E4); rewrite ?E1, ?E2, ?E3, ?E4; lia.

Lemma clamp_id d : throttle_ok d -> clamp d = d.
Proof. unfold clamp. intros [? ?]. rewrite (proj2 (Z.ltb_ge d _)), (proj2 (Z.ltb_ge _ d)) by lia. done. Qed.

Lemma clamp_range d : throttle_ok (clamp d).
Proof. unfold clamp, throttle_ok. destruct throttle_values as (-> & _ & -> & _). repeat split_if; b2p; lia. Qed.

#[local] Opaque CHEWIE_DRV_MOTOR_ARMED_THROTTLE_DUTY CHEWIE_DRV_MOTOR_MIN_THROTTLE_DUTY CHEWIE_DRV_MOTOR_MAX_THROTTLE_DUTY
  half_throttle.

(** The characteristics with the given duties on the four channels. *)
Definition motor_info (d1 d2 d3 d4 : Z) : pwm_info_s :=
  mk_info CONFIG_CHEWIE_MOTOR_PWM_FREQUENCY [mk_chan d1 1; mk_chan d2 2; mk_chan d3 3; mk_chan d4 4].

(** The hardware can output every combination of duties the driver sends. *)
Definition motors_supported (supported : pwm_info_s -> Prop) : Prop :=
  forall d1 d2 d3 d4, throttle_ok d1 -> throttle_ok d2 -> throttle_ok d3 -> throttle_ok d4 ->
    supported (motor_info d1 d2 d3 d4).

(** The globals once initialised: device [fd], duties asked for [d1] to [d4]. *)
Definition motor_rep (g : motors) (fd d1 d2 d3 d4 : Z) : Prop :=
  pwm_devs_fd g = [fd] /\ dutys g = [d1; d2; d3; d4] /\
  exists e1 e2 e3 e4, pwms_info g = [motor_info e1 e2 e3 e4].

(** ** The update of a channel *)

Lemma upd_channel_Ok g j k f i c :
  pwms_info g !! Z.to_nat j = Some i -> channels i !! Z.to_nat k = Some c ->
  upd_channel g j k f =
  Ok (set_pwms_info g (<[Z.to_nat j := set_channels i (<[Z.to_nat k := f c]> (channels i))]> (pwms_info g))).
Proof.
  intros Ei Ec. unfold upd_channel, array_get, array_set. rewrite Ei, bind_Ok, Ec, bind_Ok.
  apply lookup_lt_Some, Nat.ltb_lt in Ei, Ec. by rewrite Ec, bind_Ok, Ei.
Qed.

Lemma upd_channel_twice g j k f f' :
  (g' ← upd_channel g j k f; upd_channel g' j k f') = upd_channel g j k (fun c => f' (f c)).
Proof.
  destruct (pwms_info g !! Z.to_nat j) as [i|] eqn:Ei; [|unfold upd_channel, array_get; by rewrite Ei].
  destruct (channels i !! Z.to_nat k) as [c|] eqn:Ec;
    [|unfold upd_channel, array_get; by rewrite Ei, !bind_Ok, Ec].
  rewrite !(upd_channel_Ok g j k _ i c), bind_Ok by done.
  apply lookup_lt_Some in Ei as Li. apply lookup_lt_Some in Ec as Lc.
  erewrite upd_channel_Ok by (cbn; rewrite list_lookup_insert_eq by done; done). cbn.
  by rewrite !list_insert_insert_eq.
Qed.

Lemma array_get_1 {A} (x : A) : array_get [x] (Z.to_nat 0) = Ok x.
Proof. done. Qed.

Lemma array_set_1 {A} (x v : A) : array_set [x] (Z.to_nat 0) v = Ok [v].
Proof. done. Qed.

Lemma bind_ret {A} (c : res A) : (x ← c; Ok x) = c.
Proof. by destruct c. Qed.

Lemma bind_assoc {A B C} (c : res A) (f : A -> res B) (h : B -> res C) :
  (y ← (x ← c; f x); h y) = (x ← c; y ← f x; h y).
Proof. by destruct c. Qed.

Lemma upd_channel_limits g j k (d lo hi : Z) : lo <= hi ->
  (g ← upd_channel g j k (fun c => mk_chan d (channel c));
   g ← (if hi <? d then upd_channel g j k (fun c => mk_chan hi (channel c)) else Ok g);
   (if d <? lo then upd_channel g j k (fun c => mk_chan lo (channel c)) else Ok g)) =
  upd_channel g j k (fun c => mk_chan (if d <? lo then lo else if hi <? d then hi else d) (channel c)).
Proof.
  intros Hl. destruct (Z.ltb_spec d lo) as [L|L].
  - rewrite (proj2 (Z.ltb_ge hi d)) by lia. apply upd_channel_twice.
  - destruct (hi <? d); [|apply bind_ret]. rewrite <- bind_assoc, bind_ret.
    apply (upd_channel_twice g j k (fun c => mk_chan d (channel c)) (fun c => mk_chan hi (channel c))).
Qed.

Lemma limits_ordered : CHEWIE_DRV_MOTOR_ARMED_THROTTLE_DUTY <= CHEWIE_DRV_MOTOR_MAX_THROTTLE_DUTY.
Proof. destruct throttle_values as (-> & _ & -> & _). lia. Qed.

Section Motor4.
Context {S : Type} `{PwmSystem S motor_path supported view}.
Context (Hsup : motors_supported supported).

Lemma update_channel_eq i (s : S) g j k :
  update_channel i (s, g, j, k) =
  (d ← array_get (dutys g) (Z.to_nat i);
   g ← upd_channel g j k (fun c => mk_chan (clamp d) (channel c));
   if CONFIG_PWM_NCHANNELS - 1 <=? k then
     fd ← array_get (pwm_devs_fd g) (Z.to_nat j);
     info ← array_get (pwms_info g) (Z.to_nat j);
     '(_, s) ← drv_pwm_update_info s fd info;
     Ok (s, g, u8 (j + 1), u8 (u8 (-1) + 1))
   else Ok (s, g, j, u8 (k + 1))).
Proof.
  unfold update_channel. destruct (array_get (dutys g) (Z.to_nat i)) as [d|e]; [rewrite !bind_Ok|done].
  unfold clamp. rewrite <- (upd_channel_limits g j k d _ _ limits_ordered), !bind_assoc.
  destruct (upd_channel g j k _) as [x|]; [rewrite !bind_Ok|done]. by rewrite bind_assoc.
Qed.

Lemma drv_update_ok s fd i0 on i :
  view s (Opened fd i0 on) -> supported i -> exists s', drv_pwm_update_info s fd i = Ok (0, s') /\ view s' (Opened fd i on).
Proof.
  intros V Hi. destruct (sys_set_ok s fd i0 on i V Hi) as (r & a & s' & E & Hr & V'). exists s'. split; [|done].
  unfold drv_pwm_update_info. rewrite E, bind_Ok. by apply Z.ltb_ge in Hr as ->.
Qed.

Lemma drv_start_ok s fd i on :
  view s (Opened fd i on) -> on <> Halted -> supported i ->
  exists s', drv_pwm_start s fd = Ok (0, s') /\ view s' (Opened fd i On).
Proof.
  intros V Ho Hi. destruct (sys_start_ok s fd i on V Ho Hi) as (r & a & s' & E & Hr & V'). exists s'. split; [|done].
  unfold drv_pwm_start. rewrite E, bind_Ok. by apply Z.ltb_ge in Hr as ->.
Qed.

Lemma drv_stop_ok s fd i on :
  view s (Opened fd i on) -> exists s', drv_pwm_stop s fd = Ok (0, s') /\ view s' (Opened fd i (stop_sw on)).
Proof.
  intros V. destruct (sys_stop_ok s fd i on V) as (r & a & s' & E & Hr & V'). exists s'. split; [|done].
  unfold drv_pwm_stop. rewrite E, bind_Ok. by apply Z.ltb_ge in Hr as ->.
Qed.

Lemma drv_init_ok s :
  view s Closed ->
  exists fd i s', drv_pwm_init s (Some motor_path) = Ok (fd, s') /\ 0 <= fd /\ view s' (Opened fd i Fresh).
Proof.
  intros V. destruct (sys_open_ok s V) as (fd & i & s' & E & Hr & V'). exists fd, i, s'. split; [|done].
  unfold drv_pwm_init. rewrite E, bind_Ok. by apply Z.ltb_ge in Hr as ->.
Qed.

Lemma set_all_4 g d d1 d2 d3 d4 : dutys g = [d1; d2; d3; d4] -> set_all_dutys 4 d g = Ok (set_dutys g [d; d; d; d]).
Proof. destruct g. cbn. intros ->. done. Qed.

Lemma update_4 s g fd i on d1 d2 d3 d4 :
  motor_rep g fd d1 d2 d3 d4 -> view s (Opened fd i on) ->
  exists s' g', drv_motor_update 4 s g = Ok (0, s', g') /\ motor_rep g' fd d1 d2 d3 d4 /\
    view s' (Opened fd (motor_info (clamp d1) (clamp d2) (clamp d3) (clamp d4)) on).
Proof.
  intros (Ef & Ed & e1 & e2 & e3 & e4 & Ei) V. destruct g as [infos fds fr ds]. cbn in *. subst.
  destruct (drv_update_ok s fd i on (motor_info (clamp d1) (clamp d2) (clamp d3) (clamp d4)) V) as (s' & E & V').
  { by apply Hsup; apply clamp_range. }
  exists s', (mk_motors [motor_info (clamp d1) (clamp d2) (clamp d3) (clamp d4)] [fd] fr [d1; d2; d3; d4]).
  split; [|split; [repeat split; eauto|done]]. unfold drv_motor_update. change (Z.to_nat 4) with 4%nat. unfold for_loop.
  do 4 (rewrite update_channel_eq; cbv -[clamp drv_pwm_update_info update_channel]).
  cbv -[clamp drv_pwm_update_info] in E. by rewrite E.
Qed.

(** All motors at one duty that the driver does not clamp. *)
Lemma set_and_update_4 d s g fd i on d1 d2 d3 d4 :
  throttle_ok d -> motor_rep g fd d1 d2 d3 d4 -> view s (Opened fd i on) ->
  exists s' g', (g ← set_all_dutys 4 d g; drv_motor_update 4 s g) = Ok (0, s', g') /\ motor_rep g' fd d d d d /\
    view s' (Opened fd (motor_info d d d d) on).
Proof.
  intros Hd R V. assert (R' := R). destruct R' as (_ & Ed & _). rewrite (set_all_4 _ _ _ _ _ _ Ed), bind_Ok.
  destruct (update_4 s (set_dutys g [d; d; d; d]) fd i on d d d d) as (s' & g' & E & R' & V'); [|done|].
  { by destruct R as (? & _ & ?). }
  exists s', g'. by rewrite (clamp_id d Hd) in V'.
Qed.

Lemma init_dev_4 g :
  length (pwms_info g) = 1%nat -> length (pwm_devs_fd g) = 1%nat ->
  Forall (fun i => length (channels i) = 4%nat) (pwms_info g) ->
  let a := CHEWIE_DRV_MOTOR_ARMED_THROTTLE_DUTY in
  init_dev 4 0 g = Ok (mk_motors [motor_info a a a a] [-1] (freq g) (dutys g)).
Proof.
  destruct g as [infos fds fr ds]. cbn [pwms_info pwm_devs_fd freq dutys].
  destruct infos as [|[f cs] [|? ?]], fds as [|fd [|? ?]]; try done. intros _ _ [L _]%Forall_cons. cbn in L.
  destruct cs as [|[x1 y1] [|[x2 y2] [|[x3 y3] [|[x4 y4] [|? ?]]]]]; try done.
Qed.

Lemma drv_motor_init_4 s g :
  length (pwms_info g) = 1%nat -> length (pwm_devs_fd g) = 1%nat -> length (dutys g) = 4%nat ->
  Forall (fun i => length (channels i) = 4%nat) (pwms_info g) -> view s Closed ->
  let a := CHEWIE_DRV_MOTOR_ARMED_THROTTLE_DUTY in
  exists fd s' g', drv_motor_init 4 s g = Ok (0, s', g') /\ motor_rep g' fd a a a a /\
    view s' (Opened fd (motor_info a a a a) On).
Proof.
  intros L1 L2 L3 L4 V a. destruct (drv_init_ok s V) as (fd & i & s1 & E1 & Hfd & V1).
  assert (supported (motor_info a a a a)) as Ha by (apply Hsup; unfold a; throttle).
  destruct (drv_update_ok s1 fd i Fresh (motor_info a a a a) V1 Ha) as (s2 & E2 & V2).
  destruct (drv_start_ok s2 fd _ _ V2 ltac:(done) Ha) as (s3 & E3 & V3). unfold a in *.
  exists fd, s3, (mk_motors [motor_info a a a a] [fd] CONFIG_CHEWIE_MOTOR_PWM_FREQUENCY [a; a; a; a]).
  split; [|split; [repeat split; unfold a; eauto|done]]. unfold drv_motor_init.
  change (Z.to_nat (CHEWIE_NUM_OF_MOTOR_PWM_DEV 4)) with 1%nat. unfold for_loop.
  rewrite init_dev_4 by done. rewrite !bind_Ok.
  destruct (dutys g) as [|d1 [|d2 [|d3 [|d4 [|? ?]]]]] eqn:Ed; try done. erewrite set_all_4 by done.
  rewrite bind_Ok. unfold start_devs, start_dev.
  change (CONFIG_CHEWIE_MOTOR_PWM_OUT_DEVICE_PATH_PREFIX ++ decimal 0) with motor_path.
  rewrite E1, bind_Ok. cbn [pwm_devs_fd set_dutys]. rewrite array_set_1, bind_Ok. cbv zeta.
  apply Z.ltb_ge in Hfd. rewrite Hfd. cbn [pwms_info set_devs_fd set_dutys].
  rewrite array_get_1, bind_Ok, E2, bind_Ok. cbv beta iota. change (0 <? 0) with false. cbv iota.
  by rewrite E3.
Qed.

Lemma drv_motor_deinit_4 s g fd i on d1 d2 d3 d4 :
  motor_rep g fd d1 d2 d3 d4 -> view s (Opened fd i on) ->
  exists s', drv_motor_deinit 4 s g = Ok (s', set_devs_fd g [-1]) /\ view s' Closed.
Proof.
  intros (Ef & Ed & _) V. destruct (drv_stop_ok s fd i on V) as (s1 & E1 & V1).
  destruct (sys_close_ok s1 fd i _ V1 ltac:(by destruct on)) as (r & s2 & E2 & V2). exists s2. split; [|done].
  unfold drv_motor_deinit. change (Z.to_nat (CHEWIE_NUM_OF_MOTOR_PWM_DEV 4)) with 1%nat. unfold for_loop.
  rewrite Ef, array_get_1, bind_Ok, E1, bind_Ok. unfold drv_pwm_deinit. by rewrite E2.
Qed.

Lemma test_phase_4 d t s g fd i on d1 d2 d3 d4 :
  throttle_ok d -> motor_rep g fd d1 d2 d3 d4 -> view s (Opened fd i on) ->
  exists s' g', test_phase 4 d t s g = Ok (0, s', g') /\ test_phase_checked 4 d t s g = Ok (0, s', g') /\
    motor_rep g' fd d d d d /\ view s' (Opened fd (motor_info d d d d) on).
Proof.
  intros Hd R V. destruct (set_and_update_4 d s g fd i on d1 d2 d3 d4 Hd R V) as (s1 & g1 & E & R1 & V1).
  destruct (sys_sleep_ok s1 _ t V1) as (s2 & E2 & V2). exists s2, g1.
  apply bind_Ok_inv in E as (g0 & E0 & E1). unfold test_phase, test_phase_checked.
  by rewrite E0, !bind_Ok, E1, !bind_Ok, E2.
Qed.

Lemma drv_motor_esc_init_4 s g fd i on d1 d2 d3 d4 :
  motor_rep g fd d1 d2 d3 d4 -> view s (Opened fd i on) ->
  let m := CHEWIE_DRV_MOTOR_MIN_THROTTLE_DUTY in
  exists s' g', drv_motor_esc_init 4 s g = Ok (0, s', g') /\ motor_rep g' fd m m m m /\
    view s' (Opened fd (motor_info m m m m) on).
Proof.
  intros R V m.
  destruct (test_phase_4 CHEWIE_DRV_MOTOR_MAX_THROTTLE_DUTY 3 s g fd i on d1 d2 d3 d4) as (s1 & g1 & _ & E1 & R1 & V1);
    [throttle|done..|].
  destruct (test_phase_4 m 3 s1 g1 fd _ on _ _ _ _ ltac:(unfold m; throttle) R1 V1) as (s2 & g2 & _ & E2 & R2 & V2).
  exists s2, g2. split; [|done]. unfold m, drv_motor_esc_init, test_phase_checked in *.
  apply bind_Ok_inv in E1 as (ga & Ea & E1), E2 as (gb & Eb & E2).
  apply bind_Ok_inv in E1 as ([[ra sa] gc] & Ec & E1), E2 as ([[rb sb] gd] & Ed & E2).
  rewrite Ea, bind_Ok, Ec, bind_Ok. destruct (ra <? 0) eqn:Hr; [by simplify_eq|].
  apply bind_Ok_inv in E1 as (? & E1 & [= -> -> ->]). rewrite E1, bind_Ok, Eb, bind_Ok, Ed, bind_Ok.
  destruct (rb <? 0) eqn:Hr'; [by simplify_eq|]. apply bind_Ok_inv in E2 as (? & E2 & [= -> -> ->]). by rewrite E2.
Qed.

Lemma test_motor_4 s g :
  length (pwms_info g) = 1%nat -> length (pwm_devs_fd g) = 1%nat -> length (dutys g) = 4%nat ->
  Forall (fun i => length (channels i) = 4%nat) (pwms_info g) -> view s Closed ->
  exists s' g', test_motor 4 s g = Ok (0, s', g') /\ view s' Closed.
Proof.
  intros L1 L2 L3 L4 V. destruct (drv_motor_init_4 s g L1 L2 L3 L4 V) as (fd & s1 & g1 & E1 & R1 & V1).
  destruct (drv_motor_esc_init_4 s1 g1 fd _ _ _ _ _ _ R1 V1) as (s2 & g2 & E2 & R2 & V2).
  set (a := CHEWIE_DRV_MOTOR_ARMED_THROTTLE_DUTY) in *.
  destruct (test_phase_4 (a + 874) 1 s2 g2 fd _ _ _ _ _ _ ltac:(unfold a; throttle) R2 V2)
    as (s3 & g3 & E3 & _ & R3 & V3).
  destruct (test_phase_4 (a + 874 + 874) 1 s3 g3 fd _ _ _ _ _ _ ltac:(unfold a; throttle) R3 V3)
    as (s4 & g4 & E4 & _ & R4 & V4).
  destruct (test_phase_4 (a + 874 + 874 + 874) 1 s4 g4 fd _ _ _ _ _ _ ltac:(unfold a; throttle) R4 V4)
    as (s5 & g5 & E5 & _ & R5 & V5).
  destruct (test_phase_4 half_throttle 5 s5 g5 fd _ _ _ _ _ _ ltac:(throttle) R5 V5) as (s6 & g6 & _ & E6 & R6 & V6).
  destruct (test_phase_4 a 5 s6 g6 fd _ _ _ _ _ _ ltac:(unfold a; throttle) R6 V6) as (s7 & g7 & _ & E7 & R7 & V7).
  destruct (drv_motor_deinit_4 s7 g7 fd _ _ _ _ _ _ R7 V7) as (s8 & E8 & V8). exists s8, (set_devs_fd g7 [-1]).
  split; [|done]. unfold test_motor. fold a. change (0 <? 0) with false.
  rewrite E1, bind_Ok; cbv beta iota. change (0 <? 0) with false. cbv iota.
  rewrite E2, bind_Ok; cbv beta iota. change (0 <? 0) with false. cbv iota.
  rewrite E3, bind_Ok, E4, bind_Ok, E5, bind_Ok, E6, bind_Ok; cbv beta iota. change (0 <? 0) with false. cbv iota.
  rewrite E7, bind_Ok; cbv beta iota. change (0 <? 0) with false. cbv iota. by rewrite E8.
Qed.
End Motor4.
