(* ===== verification/MotorSafe.v ===== *)
(** * The motors are never sent a duty out of range

    The operating system is arbitrary here: its calls may fail at any point and
    return any number.  Every [ioctl] is recorded, and whatever calls the
    application makes of the motor driver in whatever order, the pulse trains in
    the record keep to the range between armed and full throttle. *)

From stdpp Require Import strings.
From S2P Require Import Prelude Inode Vfs VfsRun Pwm Motor MotorProps.
Local Open Scope Z_scope.

(** ** An operating system that is recorded *)

Record os_returns {S} (os : Posix S pwm_arg) : Prop := {
  or_open s p o : exists x, @sys_open _ _ os s p o = Ok x;
  or_ioctl s fd req arg : exists x, @sys_ioctl _ _ os s fd req arg = Ok x;
  or_close s fd : exists x, @sys_close _ _ os s fd = Ok x;
  or_sleep s n : exists x, @sys_sleep _ _ os s n = Ok x
}.

Inductive event := EvIoctl (fd req : Z) (arg : pwm_arg) | EvClose (fd : Z).

(** The newest event comes first. *)
Definition logged {S} (os : Posix S pwm_arg) : Posix (S * list event) pwm_arg := {|
  sys_open '(s, l) p o := '(fd, s) ← @sys_open _ _ os s p o; Ok (fd, (s, l));
  sys_ioctl '(s, l) fd req arg :=
    '(r, arg', s) ← @sys_ioctl _ _ os s fd req arg; Ok (r, arg', (s, EvIoctl fd req arg :: l));
  sys_close '(s, l) fd := '(r, s) ← @sys_close _ _ os s fd; Ok (r, (s, EvClose fd :: l));
  sys_sleep '(s, l) n := s ← @sys_sleep _ _ os s n; Ok (s, l)
|}.

Definition event_safe (e : event) : Prop :=
  match e with
  | EvIoctl _ _ (InfoArg i) => length (channels i) = 4%nat /\ Forall (fun c => throttle_ok (duty c)) (channels i)
  | _ => True
  end.

(** The globals have the sizes they are declared with. *)
Definition shape (g : motors) : Prop :=
  length (pwms_info g) = 1%nat /\ Forall (fun i => length (channels i) = 4%nat) (pwms_info g) /\
  length (pwm_devs_fd g) = 1%nat /\ length (dutys g) = 4%nat.

(** What the flight code can do with the driver. *)
Inductive motor_call := MInit | MEscInit | MUpdate | MDeinit | MTest | MSet (ds : list Z).

Section Safe.
Context {S : Type} (os : Posix S pwm_arg) (Hos : os_returns os).
#[local] Existing Instance logged.
Abbreviation state := (S * list event)%type.

Definition motor_step (c : motor_call) (s : state) (g : motors) : res (state * motors) :=
  match c with
  | MInit => '(_, s, g) ← drv_motor_init 4 s g; Ok (s, g)
  | MEscInit => '(_, s, g) ← drv_motor_esc_init 4 s g; Ok (s, g)
  | MUpdate => '(_, s, g) ← drv_motor_update 4 s g; Ok (s, g)
  | MDeinit => drv_motor_deinit 4 s g
  | MTest => '(_, s, g) ← test_motor 4 s g; Ok (s, g)
  | MSet ds => Ok (s, set_dutys g ds)
  end.

Fixpoint motor_run (l : list motor_call) (s : state) (g : motors) : res (state * motors) :=
  match l with
  | [] => Ok (s, g)
  | c :: l => '(s, g) ← motor_step c s g; motor_run l s g
  end.

Definition motor_call_ok (c : motor_call) : Prop :=
  match c with MSet ds => length ds = 4%nat | _ => True end.

Definition log_safe (s : state) : Prop := Forall event_safe (snd s).

(** ** The calls of the PWM output driver *)

Lemma safe_ioctl (s : state) fd req arg :
  log_safe s -> event_safe (EvIoctl fd req arg) -> exists r a s', sys_ioctl s fd req arg = Ok (r, a, s') /\ log_safe s'.
Proof.
  destruct s as [s l]. intros Hl He. destruct (or_ioctl os Hos s fd req arg) as [[[r a] s'] E].
  exists r, a, (s', EvIoctl fd req arg :: l). cbn. rewrite E. split; [done|]. by constructor.
Qed.

Lemma safe_close (s : state) fd : log_safe s -> exists r s', sys_close s fd = Ok (r, s') /\ log_safe s'.
Proof.
  destruct s as [s l]. intros Hl. destruct (or_close os Hos s fd) as [[r s'] E].
  exists r, (s', EvClose fd :: l). cbn. rewrite E. split; [done|]. by constructor.
Qed.

Lemma safe_sleep (s : state) n : log_safe s -> exists s', sys_sleep s n = Ok s' /\ log_safe s'.
Proof.
  destruct s as [s l]. intros Hl. destruct (or_sleep os Hos s n) as [s' E]. exists (s', l). cbn. by rewrite E.
Qed.

Lemma safe_init (s : state) p : log_safe s -> exists fd s', drv_pwm_init s (Some p) = Ok (fd, s') /\ log_safe s'.
Proof.
  destruct s as [s l]. intros Hl. destruct (or_open os Hos s p O_RDONLY) as [[fd s'] E].
  unfold drv_pwm_init. cbn. rewrite E. cbn. destruct (fd <? 0); by eexists _, (s', l).
Qed.

Lemma safe_simple (s : state) fd req arg :
  log_safe s -> event_safe (EvIoctl fd req arg) ->
  exists r s', ('(ret, _, s) ← sys_ioctl s fd req arg; if ret <? 0 then Ok (-1, s) else Ok (0, s)) = Ok (r, s') /\
    log_safe s'.
Proof.
  intros Hl He. destruct (safe_ioctl s fd req arg Hl He) as (r & a & s' & -> & Hl'). rewrite bind_Ok.
  destruct (r <? 0); by eexists _, s'.
Qed.

(** ** The motor driver *)

Definition safe_out (o : res (Z * state * motors)) : Prop :=
  exists r s g, o = Ok (r, s, g) /\ log_safe s /\ shape g.

(** The four duties, clamped, in the characteristics of the device. *)
Lemma update_safe (s : state) g : log_safe s -> shape g -> 
  exists s' g', drv_motor_update 4 s g = Ok (0, s', g') /\ log_safe s' /\ shape g'.
Proof.
  destruct g as [infos fds fr ds]. unfold shape. cbn [pwms_info pwm_devs_fd dutys]. intros Hl (L1 & L2 & L3 & L4).
  destruct infos as [|[f cs] [|? ?]], fds as [|fd [|? ?]]; try done. apply Forall_cons in L2 as [L2 _]. cbn in L2.
  destruct cs as [|[x1 y1] [|[x2 y2] [|[x3 y3] [|[x4 y4] [|? ?]]]]]; try done.
  destruct ds as [|d1 [|d2 [|d3 [|d4 [|? ?]]]]]; try done.
  set (i := mk_info f [mk_chan (clamp d1) y1; mk_chan (clamp d2) y2; mk_chan (clamp d3) y3; mk_chan (clamp d4) y4]).
  destruct (safe_simple s fd PWMIOC_SETCHARACTERISTICS (InfoArg i) Hl) as (r & s' & E & Hl').
  { split; [done|]. repeat (constructor; [apply clamp_range|]). constructor. }
  exists s', (mk_motors [i] [fd] fr [d1; d2; d3; d4]). split; [|split; [done|repeat split; by repeat constructor]].
  change (drv_pwm_update_info s fd i = Ok (r, s')) in E.
  unfold drv_motor_update. change (Z.to_nat 4) with 4%nat. unfold for_loop.
  do 4 (rewrite update_channel_eq; cbv -[clamp drv_pwm_update_info update_channel]).
  cbv -[clamp drv_pwm_update_info] in E. by rewrite E.
Qed.

Lemma set_all_shape d g : shape g -> exists g', set_all_dutys 4 d g = Ok g' /\ shape g'.
Proof.
  intros (L1 & L2 & L3 & L4). destruct (dutys g) as [|d1 [|d2 [|d3 [|d4 [|? ?]]]]] eqn:E; try done.
  exists (set_dutys g [d; d; d; d]). by rewrite (set_all_4 g d d1 d2 d3 d4 E).
Qed.

Lemma set_update_safe d (s : state) g : log_safe s -> shape g ->
  exists g1 s' g', set_all_dutys 4 d g = Ok g1 /\ drv_motor_update 4 s g1 = Ok (0, s', g') /\ log_safe s' /\ shape g'.
Proof.
  intros Hl Hg. destruct (set_all_shape d g Hg) as (g1 & E & Hg1).
  destruct (update_safe s g1 Hl Hg1) as (s' & g' & E' & H1 & H2). by exists g1, s', g'.
Qed.

Lemma esc_init_safe (s : state) g : log_safe s -> shape g ->
  exists s' g', drv_motor_esc_init 4 s g = Ok (0, s', g') /\ log_safe s' /\ shape g'.
Proof.
  intros Hl Hg. unfold drv_motor_esc_init.
  destruct (set_update_safe CHEWIE_DRV_MOTOR_MAX_THROTTLE_DUTY s g Hl Hg) as (g1 & s1 & g2 & -> & E1 & Hl1 & Hg1).
  rewrite bind_Ok, E1, bind_Ok. change (0 <? 0) with false. cbv iota.
  destruct (safe_sleep s1 3 Hl1) as (s2 & -> & Hl2). rewrite bind_Ok.
  destruct (set_update_safe CHEWIE_DRV_MOTOR_MIN_THROTTLE_DUTY s2 g2 Hl2 Hg1) as (g3 & s3 & g4 & -> & E2 & Hl3 & Hg3).
  rewrite bind_Ok, E2, bind_Ok. change (0 <? 0) with false. cbv iota.
  destruct (safe_sleep s3 3 Hl3) as (s4 & -> & Hl4). by exists s4, g4.
Qed.

Lemma test_phase_safe d n (s : state) g : log_safe s -> shape g ->
  exists s' g', test_phase 4 d n s g = Ok (0, s', g') /\ test_phase_checked 4 d n s g = Ok (0, s', g') /\
    log_safe s' /\ shape g'.
Proof.
  intros Hl Hg. unfold test_phase, test_phase_checked.
  destruct (set_update_safe d s g Hl Hg) as (g1 & s1 & g2 & -> & E1 & Hl1 & Hg1). rewrite !bind_Ok, E1, !bind_Ok.
  change (0 <? 0) with false. destruct (safe_sleep s1 n Hl1) as (s2 & -> & Hl2). rewrite !bind_Ok. by exists s2, g2.
Qed.

Lemma deinit_safe (s : state) g : log_safe s -> shape g ->
  exists s' g', drv_motor_deinit 4 s g = Ok (s', g') /\ log_safe s' /\ shape g'.
Proof.
  intros Hl (L1 & L2 & L3 & L4). destruct (pwm_devs_fd g) as [|fd [|? ?]] eqn:Ef; try done.
  destruct (safe_simple s fd PWMIOC_STOP NoArg Hl I) as (r & s1 & E1 & Hl1).
  change (drv_pwm_stop s fd = Ok (r, s1)) in E1. destruct (safe_close s1 fd Hl1) as (r' & s2 & E2 & Hl2).
  exists s2, (set_devs_fd g [-1]). split; [|done].
  unfold drv_motor_deinit. change (Z.to_nat (CHEWIE_NUM_OF_MOTOR_PWM_DEV 4)) with 1%nat. unfold for_loop.
  rewrite Ef, array_get_1, bind_Ok, E1, bind_Ok. unfold drv_pwm_deinit. by rewrite E2.
Qed.

Lemma close_devs_safe (s : state) g : log_safe s -> shape g -> exists s', close_devs 4 s g = Ok s' /\ log_safe s'.
Proof.
  intros Hl (L1 & L2 & L3 & L4). destruct (pwm_devs_fd g) as [|fd [|? ?]] eqn:Ef; try done.
  unfold close_devs. change (Z.to_nat (CHEWIE_NUM_OF_MOTOR_PWM_DEV 4)) with 1%nat. unfold for_loop.
  rewrite Ef, array_get_1, bind_Ok. destruct (0 <=? fd); [|by exists s].
  destruct (safe_close s fd Hl) as (r' & s2 & -> & Hl2). by exists s2.
Qed.

(** The device started with the characteristics of [g], which are in range. *)
Lemma start_dev_safe (s : state) g i :
  log_safe s -> shape g -> pwms_info g = [i] -> event_safe (EvIoctl 0 0 (InfoArg i)) ->
  exists ok s' g', start_dev 0 s g = Ok (ok, s', g') /\ log_safe s' /\ shape g'.
Proof.
  intros Hl (L1 & L2 & L3 & L4) Ei Hi. destruct (pwm_devs_fd g) as [|fd0 [|? ?]] eqn:Ef; try done. unfold start_dev.
  destruct (safe_init s (CONFIG_CHEWIE_MOTOR_PWM_OUT_DEVICE_PATH_PREFIX ++ decimal 0) Hl) as (fd & s1 & -> & Hl1).
  rewrite bind_Ok, Ef, array_set_1, bind_Ok. cbv zeta. assert (shape (set_devs_fd g [fd])) as Hg by done.
  destruct (fd <? 0); [by eexists _, s1, _|]. cbn [pwms_info set_devs_fd]. rewrite Ei, array_get_1, bind_Ok.
  destruct (safe_simple s1 fd PWMIOC_SETCHARACTERISTICS (InfoArg i) Hl1 Hi) as (r & s2 & E2 & Hl2).
  unfold drv_pwm_update_info. rewrite E2, bind_Ok. destruct (r <? 0); [by eexists _, s2, _|].
  destruct (safe_simple s2 fd PWMIOC_START NoArg Hl2 I) as (r' & s3 & E3 & Hl3).
  unfold drv_pwm_start. rewrite E3, bind_Ok. destruct (r' <? 0); by eexists _, s3, _.
Qed.

Lemma init_safe (s : state) g : log_safe s -> shape g -> safe_out (drv_motor_init 4 s g).
Proof.
  intros Hl (L1 & L2 & L3 & L4). set (a := CHEWIE_DRV_MOTOR_ARMED_THROTTLE_DUTY).
  unfold drv_motor_init. change (Z.to_nat (CHEWIE_NUM_OF_MOTOR_PWM_DEV 4)) with 1%nat. unfold for_loop.
  rewrite init_dev_4 by done. rewrite !bind_Ok. cbn [freq set_freq dutys]. fold a.
  destruct (set_all_shape a (mk_motors [motor_info a a a a] [-1] CONFIG_CHEWIE_MOTOR_PWM_FREQUENCY (dutys g))) as (g1 & E1 & Hg1).
  { repeat split; [by repeat constructor|done]. }
  rewrite E1, bind_Ok. unfold start_devs.
  assert (pwms_info g1 = [motor_info a a a a]) as Ei.
  { destruct (dutys g) as [|d1 [|d2 [|d3 [|d4 [|? ?]]]]]; try done. rewrite (set_all_4 _ a d1 d2 d3 d4) in E1 by done.
    by injection E1 as <-. }
  destruct (start_dev_safe s g1 _ Hl Hg1 Ei) as (ok & s2 & g2 & -> & Hl2 & Hg2).
  { split; [done|]. assert (throttle_ok a) as Ha by (unfold a; throttle). do 4 (constructor; [exact Ha|]). constructor. }
  rewrite bind_Ok. destruct ok; rewrite bind_Ok; [by eexists _, s2, g2|].
  destruct (close_devs_safe s2 g2 Hl2 Hg2) as (s3 & -> & Hl3). by eexists _, s3, g2.
Qed.

Lemma test_motor_safe (s : state) g : log_safe s -> shape g -> safe_out (test_motor 4 s g).
Proof.
  intros Hl Hg. unfold test_motor. destruct (init_safe s g Hl Hg) as (r & s1 & g1 & -> & Hl1 & Hg1). rewrite bind_Ok.
  destruct (r <? 0).
  { destruct (deinit_safe s1 g1 Hl1 Hg1) as (s2 & g2 & -> & Hl2 & Hg2). by eexists _, s2, g2. }
  destruct (esc_init_safe s1 g1 Hl1 Hg1) as (s2 & g2 & -> & Hl2 & Hg2). rewrite bind_Ok. change (0 <? 0) with false. cbv iota.
  destruct (test_phase_safe (CHEWIE_DRV_MOTOR_ARMED_THROTTLE_DUTY + 874) 1 s2 g2 Hl2 Hg2) as (s3 & g3 & -> & _ & Hl3 & Hg3).
  rewrite bind_Ok.
  destruct (test_phase_safe (CHEWIE_DRV_MOTOR_ARMED_THROTTLE_DUTY + 874 + 874) 1 s3 g3 Hl3 Hg3) as (s4 & g4 & -> & _ & Hl4 & Hg4).
  rewrite bind_Ok.
  destruct (test_phase_safe (CHEWIE_DRV_MOTOR_ARMED_THROTTLE_DUTY + 874 + 874 + 874) 1 s4 g4 Hl4 Hg4)
    as (s5 & g5 & -> & _ & Hl5 & Hg5). rewrite bind_Ok.
  destruct (test_phase_safe half_throttle 5 s5 g5 Hl5 Hg5) as (s6 & g6 & _ & -> & Hl6 & Hg6). rewrite bind_Ok.
  change (0 <? 0) with false. cbv iota.
  destruct (test_phase_safe CHEWIE_DRV_MOTOR_ARMED_THROTTLE_DUTY 5 s6 g6 Hl6 Hg6) as (s7 & g7 & _ & -> & Hl7 & Hg7).
  rewrite bind_Ok. change (0 <? 0) with false. cbv iota.
  destruct (deinit_safe s7 g7 Hl7 Hg7) as (s8 & g8 & -> & Hl8 & Hg8). by eexists _, s8, g8.
Qed.

Lemma motor_step_safe c (s : state) g :
  motor_call_ok c -> log_safe s -> shape g ->
  exists s' g', motor_step c s g = Ok (s', g') /\ log_safe s' /\ shape g'.
Proof.
  intros Hc Hl Hg. destruct c; cbn [motor_step].
  - destruct (init_safe s g Hl Hg) as (r & s1 & g1 & -> & H1 & H2). by exists s1, g1.
  - destruct (esc_init_safe s g Hl Hg) as (s1 & g1 & -> & H1 & H2). by exists s1, g1.
  - destruct (update_safe s g Hl Hg) as (s1 & g1 & -> & H1 & H2). by exists s1, g1.
  - by apply deinit_safe.
  - destruct (test_motor_safe s g Hl Hg) as (r & s1 & g1 & -> & H1 & H2). by exists s1, g1.
  - exists s, (set_dutys g ds). destruct Hg as (? & ? & ? & ?). done.
Qed.

Lemma motor_run_safe l (s : state) g :
  Forall motor_call_ok l -> log_safe s -> shape g ->
  exists s' g', motor_run l s g = Ok (s', g') /\ log_safe s' /\ shape g'.
Proof.
  intros Hc. revert s g. induction Hc as [|c l Hc _ IH]; intros s g Hl Hg; [by exists s, g|]. cbn [motor_run].
  destruct (motor_step_safe c s g Hc Hl Hg) as (s1 & g1 & -> & Hl1 & Hg1). rewrite bind_Ok. by apply IH.
Qed.
End Safe.

(** ** The claims *)

(** C7: Starting from zeroed globals, on any operating system whose calls return, whatever
    they return, any sequence of calls of the motor driver returns and accesses no
    array out of bounds; and in every pulse train handed to the hardware the duty
    of each of the four motors is between armed and full throttle, whatever
    duties the flight code asked for. *)
Theorem motor_duties_safe {S} (os : Posix S pwm_arg) l s :
  os_returns os -> Forall motor_call_ok l ->
  exists s' log g', motor_run os l (s, []) (motors_zero 4) = Ok ((s', log), g') /\ Forall event_safe log.
Proof.
  intros Hos Hl. destruct (motor_run_safe os Hos l (s, []) (motors_zero 4)) as ([s' log] & g' & E & H & _); [done|constructor| |].
  - repeat split; by repeat constructor.
  - by exists s', log, g'.
Qed.

(** An operating system that opens descriptor 3 and accepts everything but, as
    told, the command to start. *)
Definition tiny_os (start_fails : bool) : Posix unit pwm_arg := {|
  sys_open s _ _ := Ok (3, s);
  sys_ioctl s _ req arg := Ok (if start_fails && (req =? PWMIOC_START) then ERROR else OK, arg, s);
  sys_close s _ := Ok (OK, s);
  sys_sleep s _ := Ok s
|}.

Lemma tiny_returns b : os_returns (tiny_os b).
Proof. split; intros; by eexists. Qed.

Lemma motor_duties_safe_witness : exists s' log g',
  motor_run (tiny_os false) [MInit; MSet [0; 23592; 99999; 30000]; MUpdate; MDeinit] (tt, []) (motors_zero 4) =
    Ok ((s', log), g') /\ Forall event_safe log.
Proof.
  apply (motor_duties_safe (tiny_os false) [MInit; MSet [0; 23592; 99999; 30000]; MUpdate; MDeinit] tt).
  - apply tiny_returns.
  - repeat constructor.
Defined.

(** When the device cannot be started, [drv_motor_init] closes its descriptor but
    keeps the number, and the error exit of [test_motor] then stops and closes
    that descriptor again, which another task of the application may own by then. *)
Theorem test_motor_double_close :
  exists s' log g', test_motor (H := logged (tiny_os true)) 4 (tt, []) (motors_zero 4) = Ok (-1, (s', log), g') /\
    exists i, log = [EvClose 3; EvIoctl 3 PWMIOC_STOP NoArg; EvClose 3; EvIoctl 3 PWMIOC_START NoArg;
                     EvIoctl 3 PWMIOC_SETCHARACTERISTICS (InfoArg i)].
Proof. eexists _, _, _. split; [vm_compute; reflexivity|]. by eexists. Qed.

(** With a number of motors that is not a multiple of four, [drv_motor_update]
    never sends the duties of the last device: of six motors that are asked for
    full throttle, only the first four are sent it. *)
Theorem six_motors_last_lost :
  exists s' log g', drv_motor_update (H := logged (tiny_os false)) 6 (tt, [])
      (mk_motors (replicate 2 info_zero) [3; 4] 400 (replicate 6 CHEWIE_DRV_MOTOR_MAX_THROTTLE_DUTY)) =
      Ok (0, (s', log), g') /\
    exists i, log = [EvIoctl 3 PWMIOC_SETCHARACTERISTICS (InfoArg i)].
Proof. eexists _, _, _. split; [vm_compute; reflexivity|]. by eexists. Qed.
