(* ===== verification/Board.v ===== *)
(** * The flight application on the operating system

    The system calls of the motor driver are those of the virtual file system,
    the driver behind the path is the PWM driver: this file discharges the
    interface [PwmSystem] from the theorems on the file calls and on the upper
    half, over any lower half that keeps its documented contract.

    [stm32_pwm_setup] is the board's
    [configs/xingtong-pyboard/src/stm32_pwm.c]. *)

From stdpp Require Import strings.
From S2P Require Import Prelude Inode InodeTree InodeOps InodeRemove InodeProps.
From S2P Require Import Vfs VfsInv VfsOps VfsRun Pwm PwmProps Motor MotorProps.
Local Open Scope Z_scope.

Definition ENODEV : Z := 19.

(** ** Registering the device at start-up *)

(** [pwm] is what [stm32_pwminitialize] returns, [None] for NULL. *)
Definition stm32_pwm_setup `{NodeAlloc} {D} (me : Z) (st : fs) (w : gmap Z (pwm_upperhalf_s D)) (pwm : option D)
    (upper ops_ptr : Z) : res (Z * fs * gmap Z (pwm_upperhalf_s D)) :=
  match pwm with
  | None => Ok (ENODEV, st, w)
  | Some d =>
      '(ret, st, w) ← pwm_register me st w (cstr "/dev/pwm_out_motor_0") d upper ops_ptr;
      if ret <? 0 then Ok (ret, st, w) else Ok (0, st, w)
  end.

(** ** The system calls *)

Section Board.
Context {D : Type} (ops : pwm_ops_s D) (restarts : bool) (supported : pwm_info_s -> Prop) (phase : D -> lphase -> Prop).
Context `{!PwmLower ops restarts supported phase}.

Abbreviation sys := (vfs (gmap Z (pwm_upperhalf_s D))).

(** The tables of operations; the PWM driver's is at [ops_ptr]. *)
Context (fops : Z -> file_operations (gmap Z (pwm_upperhalf_s D)) pwm_arg) (ops_ptr : Z).
Context (Hptr : ops_ptr <> 0) (Hops : fops ops_ptr = g_pwmops ops).
Context (me : Z) (sleep : sys -> Z -> res sys).

Abbreviation board_posix := (vfs_posix fops me sleep).

(** The node of the device, and the upper half behind it. *)
Record pwm_node (s : sys) (ext : Z -> Z) (t : tree) (a : Z) (n : inode) (u : pwm_upperhalf_s D) : Prop := {
  pn_inv : vfs_inv me ext t s;
  pn_path : tlookup t (segs (skip_slashes motor_path)) = Some (a, []);
  pn_node : nodes (v_fs s) !! a = Some n;
  pn_drv : INODE_IS_DRIVER n = true;
  pn_ops : i_ops n = ops_ptr;
  pn_dev : v_dev s !! i_private n = Some u
}.

Definition board_view (s : sys) (v : dev_view) : Prop :=
  exists ext t a n u, pwm_node s ext t a n u /\
    match v with
    | Closed => (exists k, first_free (fl_files s) 0 = Some k) /\
        crefs u = 0 /\ exclsem u = 1 /\ started u = false /\ phase (dev u) LOff
    | Opened fd i sw => exists k, fd = Z.of_nat k /\ fl_files s !! k = Some (mk_file O_RDONLY 0 a 0) /\
        crefs u = 1 /\ pwm_rep phase u (mk_spec i sw)
    end.

(** A task that sleeps finds its files and the device as it left them. *)
Definition sleep_returns : Prop := forall s v n, board_view s v -> exists s', sleep s n = Ok s' /\ board_view s' v.

Lemma with_upper_ok {B} (f : pwm_upperhalf_s D -> res (B * pwm_upperhalf_s D)) priv w u r u' :
  w !! priv = Some u -> f u = Ok (r, u') -> with_upper f priv w = Ok (r, <[priv := u']> w).
Proof. intros Hw Hf. unfold with_upper. by rewrite Hw, Hf. Qed.

Lemma path_cstring : cstring motor_path.
Proof. vm_compute. repeat constructor. Qed.

Lemma node_null s ext t a n u : pwm_node s ext t a n u -> a <> 0.
Proof. intros [Hv _ Hn _ _ _] ->. by rewrite (vi_null _ _ _ _ Hv) in Hn. Qed.

Lemma board_open_ok s :
  board_view s Closed ->
  exists fd i s', @sys_open _ _ board_posix s motor_path O_RDONLY = Ok (fd, s') /\ 0 <= fd /\
    board_view s' (Opened fd i Fresh).
Proof.
  intros (ext & t & a & n & u & [Hv Hp Hn Hd Ho Hu] & (k & Hk) & Hc & Hs & Hon & Hr).
  destruct u as [c on e i d]. cbn in *. subst c on e. destruct (setup_ok d Hr) as (d' & Ed & Hd').
  destruct (open_driver_ok fops no_proxy no_mops_open me ext t s motor_path O_RDONLY a [] n k
    (fun _ priv w => with_upper (pwm_open ops) priv w) OK
    (<[i_private n := mk_upper 1 false 1 i d']> (v_dev s))) as (E & Hv' & Ha & Hz);
    try done.
  - apply path_cstring.
  - by rewrite Ho.
  - unfold inode_checkflags. by rewrite Ho, Hops.
  - by rewrite Ho, Hops.
  - by apply (with_upper_ok _ _ _ _ _ _ Hu), (pwm_open_first ops _ _ _ OK d').
  - exists (Z.of_nat k), i. eexists. split; [exact E|]. split; [lia|].
    exists ext, t, a, (set_i_crefs n (i_crefs n + 1)), (mk_upper 1 false 1 i d'). split.
    + split; try done; cbn; [by rewrite lookup_alter_eq, Hn|]. apply lookup_insert_eq.
    + exists k. split_and!; try done.
      cbn. apply list_lookup_insert_eq. by eapply lookup_lt_Some.
Qed.

(** A command on the open device, as the system call. *)
Definition cmd_req (c : pwm_cmd) : Z :=
  match c with
  | PSet _ => PWMIOC_SETCHARACTERISTICS | PGet => PWMIOC_GETCHARACTERISTICS
  | PStart => PWMIOC_START | PStop => PWMIOC_STOP
  end.
Definition cmd_arg (c : pwm_cmd) : pwm_arg :=
  match c with PSet i => InfoArg i | PGet => InfoArg info_zero | _ => NoArg end.

Lemma board_cmd_ok s fd i on c :
  board_view s (Opened fd i on) -> cmd_ok restarts supported (mk_spec i on) c ->
  exists arg s', @sys_ioctl _ _ board_posix s fd (cmd_req c) (cmd_arg c) = Ok (OK, arg, s') /\
    let sp := spec_step c (mk_spec i on) in board_view s' (Opened fd (sp_info sp) (sp_sw sp)).
Proof.
  intros (ext & t & a & n & u & Hnode & (k & -> & Hf & Hc & Hr)) Hl. pose proof (node_null _ _ _ _ _ _ Hnode) as Ha.
  destruct Hnode as [Hv Hp Hn Hd Ho Hu].
  destruct (cmd_spec ops restarts supported phase u _ c Hr Hl) as (u' & Hcmd & Hr' & Hc').
  exists (spec_answer c (mk_spec i on)).2, (set_v_dev s (<[i_private n := u']> (v_dev s))). split.
  - apply (ioctl_driver_ok fops me ext t s k _ n (fun _ priv cmd arg w => with_upper (fun u => pwm_ioctl ops u cmd arg) priv w)
      _ _ _ _ _ Hv Hf Ha Hn); [by rewrite Ho|by rewrite Ho, Hops| |done].
    apply (with_upper_ok (B := Z * pwm_arg) _ _ _ _ _ _ Hu). transitivity (cmd_step ops c u); [by destruct c|]. rewrite Hcmd. by destruct c.
  - cbv zeta. exists ext, t, a, n, u'. split; [split; try done; [by apply inv_dev|apply lookup_insert_eq]|].
    exists k. split_and!; try done; [congruence|]. by destruct c.
Qed.

Lemma board_close_ok s fd i sw :
  board_view s (Opened fd i sw) -> sw <> On ->
  exists r s', @sys_close _ _ board_posix s fd = Ok (r, s') /\ board_view s' Closed.
Proof.
  intros (ext & t & a & n & u & Hnode & (k & -> & Hf & Hc & [Hs Hi Hon Hr])) Hsw.
  destruct (shutdown_ok _ _ Hr) as (r & d' & Ed & Hd'); [by destruct sw|].
  pose proof (node_null _ _ _ _ _ _ Hnode) as Ha. destruct Hnode as [Hv Hp Hn Hd Ho Hu].
  set (u' := mk_upper 0 (started u) 1 (info u) d').
  pose proof (close_spec fops me ext t s k _ n OK (<[i_private n := u']> (v_dev s)) Hv Hf Ha Hn) as E.
  eexists OK, _. split.
  - apply E. unfold call_close. rewrite Ho, (proj2 (Z.eqb_neq _ 0) Hptr), Hops. cbn [g_pwmops fo_close].
    by apply (with_upper_ok _ _ _ _ _ _ Hu), (pwm_close_last ops u r d'); [|lia|].
  - exists ext, t, a, (set_i_crefs n (i_crefs n + -1)), u'. split; [split; try done; cbn|split_and!; try done].
    + exact (inv_closed me ext t s k _ _ Hv Hf Ha).
    + by rewrite lookup_alter_eq, Hn.
    + apply lookup_insert_eq.
    + destruct (first_free _ 0) as [j|] eqn:Ej; [by exists j|exfalso].
      apply (first_free_None _ _ Ej k file_zero); [lia| |done]. cbn. apply list_lookup_insert_eq. by eapply lookup_lt_Some.
    + cbn. rewrite Hon. by destruct sw.
Qed.

Lemma board_system : sleep_returns -> @PwmSystem sys board_posix motor_path supported board_view.
Proof.
  intros Hsl. split.
  - apply board_open_ok.
  - intros s fd i0 on i V Hi. destruct (board_cmd_ok s fd i0 on (PSet i) V) as (arg & s' & E & V'); [by intros _|].
    by exists OK, arg, s'.
  - intros s fd i on V Hn Hi. destruct (board_cmd_ok s fd i on PStart V) as (arg & s' & E & V'); [by split|].
    by exists OK, arg, s'.
  - intros s fd i on V. destruct (board_cmd_ok s fd i on PStop V) as (arg & s' & E & V'); [done|].
    by exists OK, arg, s'.
  - apply board_close_ok.
  - exact Hsl.
Qed.

(** What an application that has the device open sees is what the hardware
    outputs. *)
Lemma board_output s fd i sw :
  board_view s (Opened fd i sw) -> exists p u, v_dev s !! p = Some u /\ phase (dev u) (spec_phase (mk_spec i sw)).
Proof. intros (ext & t & a & n & u & [_ _ _ _ _ Hu] & k & _ & _ & _ & [_ _ _ Hr]). by exists (i_private n), u. Qed.
End Board.
