(* ===== verification/BoardProps.v ===== *)
(** * The motors of the board, end to end

    From the flight application's calls down to what the timer outputs, through
    the file descriptors, the tree of devices and the PWM driver. *)

From stdpp Require Import strings.
From S2P Require Import Prelude Inode InodeTree InodeOps InodeRemove InodeProps.
From S2P Require Import Vfs VfsInv VfsOps VfsRun Pwm PwmProps Motor MotorProps Board.
Local Open Scope Z_scope.

(** ** The board after start-up, for the examples *)

Definition boot_fs : fs :=
  mk_fs 4096 {[ 4096 := mk_inode 0 4160 0 0 0 0 (cstr "dev"); 4160 := mk_inode 0 0 0 0 512 768 (cstr "pwm_out_motor_0") ]}
    (mk_inode_sem 1 NO_HOLDER 0).
Definition boot_tree : tree := Node 4096 (cstr "dev") false (Node 4160 (cstr "pwm_out_motor_0") false Leaf Leaf) Leaf.
Section Boot.
Context {D : Type} (d0 : D) (ops : pwm_ops_s D) (phase : D -> lphase -> Prop).
Definition boot_dev : gmap Z (pwm_upperhalf_s D) := {[ 768 := new_upper d0 ]}.
Definition boot_sys := mk_vfs boot_fs 1 (replicate 8 file_zero) boot_dev 0.
Definition boot_fops (_ : Z) := g_pwmops ops.
Definition boot_sleep (s : vfs (gmap Z (pwm_upperhalf_s D))) (_ : Z) := Ok s.

Lemma boot_setup :
  @stm32_pwm_setup slot_allocator _ 7 fs_empty ∅ (Some d0) 768 512 = Ok (0, boot_fs, boot_dev).
Proof. by vm_compute. Qed.

Lemma boot_fs_tree : fs_tree boot_fs boot_tree.
Proof.
  split; [done| | |].
  - cbn. split; [done|]. split; [by eexists|]. split; [|done]. split; [done|]. split; [by eexists|done].
  - apply (bool_decide_unpack _). by vm_compute.
  - cbn. split_and!; try done; apply (bool_decide_unpack _); by vm_compute.
Qed.

Lemma boot_inv : vfs_inv 7 (fun _ => 0) boot_tree boot_sys.
Proof.
  split; try done.
  - apply boot_fs_tree.
  - split; [done|]. by left.
  - apply Forall_replicate. done.
  - intros i f Hf. apply lookup_replicate in Hf as [-> _]. done.
  - cbn [v_fs boot_sys nodes boot_fs]. intros a n [[<- <-]|[_ H]]%lookup_insert_Some; [by vm_compute|].
    apply lookup_singleton_Some in H as [<- <-]. by vm_compute.
Qed.

Lemma boot_view : phase d0 LOff -> board_view phase 512 7 boot_sys Closed.
Proof.
  intros Hd. eexists (fun _ => 0), boot_tree, 4160, _, (new_upper d0). split.
  - split; [apply boot_inv|vm_compute; reflexivity..].
  - split; [by exists 0%nat|]. done.
Qed.

Lemma boot_sleeps : sleep_returns phase 512 7 boot_sleep.
Proof. intros s v n V. by exists s. Qed.
End Boot.

(** ** The claims *)

Section EndToEnd.
Context {D : Type} (ops : pwm_ops_s D) (restarts : bool) (supported : pwm_info_s -> Prop) (phase : D -> lphase -> Prop).
Context (fops : Z -> file_operations (gmap Z (pwm_upperhalf_s D)) pwm_arg) (ops_ptr me : Z).
Context (sleep : vfs (gmap Z (pwm_upperhalf_s D)) -> Z -> res (vfs (gmap Z (pwm_upperhalf_s D)))).

(** A board that works: the lower half keeps its contract and can output what
    the motors need, the PWM driver's table is at [ops_ptr], sleeping returns. *)
Record board_works : Prop := {
  bw_lower : PwmLower ops restarts supported phase;
  bw_motors : motors_supported supported;
  bw_ptr : ops_ptr <> 0;
  bw_ops : fops ops_ptr = g_pwmops ops;
  bw_sleep : sleep_returns phase ops_ptr me sleep
}.

(** The pulse train that some PWM device outputs. *)
Definition outputs (s : vfs (gmap Z (pwm_upperhalf_s D))) (i : pwm_info_s) : Prop :=
  exists p u, v_dev s !! p = Some u /\ phase (dev u) (LOn i).

Abbreviation os := (vfs_posix fops me sleep).

Lemma board_works_system : board_works -> @PwmSystem _ os motor_path supported (board_view phase ops_ptr me).
Proof. intros [H1 _ H3 H4 H5]. by apply (board_system ops restarts supported). Qed.

(** On a working board where the motor device is registered and closed,
    [drv_motor_init] returns 0 and the timer outputs armed throttle on the four
    channels.  For any duties the flight code then puts into [g_motor_state],
    [drv_motor_update] returns 0 and the timer outputs exactly these duties,
    limited to the range from armed to full throttle, at 400 Hz on channels 1
    to 4. *)
Theorem board_motor_output s d1 d2 d3 d4 :
  board_works -> board_view phase ops_ptr me s Closed ->
  let a := CHEWIE_DRV_MOTOR_ARMED_THROTTLE_DUTY in
  exists s1 g1, drv_motor_init (H := os) 4 s (motors_zero 4) = Ok (0, s1, g1) /\ outputs s1 (motor_info a a a a) /\
    exists s2 g2, drv_motor_update (H := os) 4 s1 (set_dutys g1 [d1; d2; d3; d4]) = Ok (0, s2, g2) /\
      outputs s2 (motor_info (clamp d1) (clamp d2) (clamp d3) (clamp d4)).
Proof.
  intros Hb V a. pose proof (board_works_system Hb) as Hsys. pose proof (bw_motors Hb) as Hm.
  destruct (drv_motor_init_4 (H0 := Hsys) Hm s (motors_zero 4)) as (fd & s1 & g1 & E1 & R1 & V1); [done..|by repeat constructor|done|].
  exists s1, g1. split; [exact E1|]. split; [exact (board_output _ _ _ _ _ _ _ V1)|].
  destruct (update_4 (H0 := Hsys) Hm s1 (set_dutys g1 [d1; d2; d3; d4]) fd (motor_info a a a a) On d1 d2 d3 d4) as (s2 & g2 & E2 & _ & V2); [|exact V1|].
  { by destruct R1 as (? & _ & ?). }
  exists s2, g2. split; [exact E2|]. exact (board_output _ _ _ _ _ _ _ V2).
Qed.

(** C20: On a working board the motor test of the application, which initialises the
    device, calibrates the speed controllers and goes through five phases of
    throttle, returns 0, and the device is closed and without output at the end,
    as it was before. *)
Theorem board_test_motor s :
  board_works -> board_view phase ops_ptr me s Closed ->
  exists s' g', test_motor (H := os) 4 s (motors_zero 4) = Ok (0, s', g') /\ board_view phase ops_ptr me s' Closed.
Proof.
  intros Hb V. pose proof (board_works_system Hb) as Hsys.
  apply (test_motor_4 (H0 := Hsys) (bw_motors Hb) s (motors_zero 4)); [done..|by repeat constructor|done].
Qed.
End EndToEnd.

Lemma boot_works : board_works ideal_ops true any_info eq (boot_fops ideal_ops) 512 7 boot_sleep.
Proof. split; [apply ideal_lower|done|done|done|apply boot_sleeps]. Qed.

Abbreviation boot_os := (vfs_posix (boot_fops ideal_ops) 7 boot_sleep).

Lemma board_motor_output_witness : exists s1 g1,
  drv_motor_init (H := boot_os) 4 (boot_sys LOff) (motors_zero 4) = Ok (0, s1, g1) /\
  exists s2 g2,
    drv_motor_update (H := boot_os) 4 s1 (set_dutys g1 [0; 30000; 60000; 40000]) = Ok (0, s2, g2) /\
    outputs eq s2 (motor_info 23592 30000 52428 40000).
Proof.
  destruct (board_motor_output ideal_ops true any_info eq (boot_fops ideal_ops) 512 7 boot_sleep (boot_sys LOff) 0 30000 60000 40000
    boot_works (boot_view LOff eq eq_refl)) as (s1 & g1 & E1 & _ & s2 & g2 & E2 & O2).
  exists s1, g1. split; [exact E1|]. exists s2, g2. split; [exact E2|]. vm_compute in O2. exact O2.
Defined.

Lemma board_test_motor_witness : exists s' g',
  test_motor (H := boot_os) 4 (boot_sys LOff) (motors_zero 4) = Ok (0, s', g').
Proof.
  destruct (board_test_motor ideal_ops true any_info eq (boot_fops ideal_ops) 512 7 boot_sleep (boot_sys LOff)
    boot_works (boot_view LOff eq eq_refl)) as (s' & g' & E & _). exists s', g'. exact E.
Defined.
