(* ===== verification/BoardTim.v ===== *)
(** * The pulses on the pins of the motors

    The timer of the board as the lower half of the PWM driver: what the flight
    code asks for is what the four pins output. *)

From S2P Require Import Prelude Inode InodeProps Vfs VfsRun Pwm PwmProps Motor MotorProps Board BoardProps.
From S2P Require Import Hw Gpio GpioProps Stm32Pwm Stm32PwmProps Stm32Wave.
Local Open Scope Z_scope.

Lemma motors_tim : motors_supported tim_supported.
Proof.
  intros d1 d2 d3 d4 H1 H2 H3 H4. split; [done|]. exists d1, d2, d3, d4. split; [done|].
  repeat constructor; revert H1 H2 H3 H4; throttle.
Qed.

(** 400 Hz: periods of 210000 cycles of 84 MHz, counted in steps of 4. *)
Lemma motor_timer : prescaler_of CONFIG_CHEWIE_MOTOR_PWM_FREQUENCY = 4 /\ arr_of CONFIG_CHEWIE_MOTOR_PWM_FREQUENCY = 52499.
Proof. by vm_compute. Qed.

Lemma motor_wave {H} `{HwLaws H} (d : stm32_dev H) d1 d2 d3 d4 ch c :
  tim_phase d (LOn (motor_info d1 d2 d3 d4)) -> ch ∈ [1; 2; 3; 4] -> [d1; d2; d3; d4] !! Z.to_nat (ch - 1) = Some c ->
  throttle_ok c ->
  exists high, pin_wave (hw_val (hw d)) ch = Some (210000, high) /\
    Z.abs (high * 65536 - c * 210000) <= 6 * 65536 /\ 75596 <= high <= 167996.
Proof.
  intros (_ & e1 & e2 & e3 & e4 & Ec & Hu) Hch Hc Ht. injection Ec as <- <- <- <-. cbn [frequency motor_info] in Hu.
  rewrite (on_wave _ _ d1 d2 d3 d4 ch c (tu_regs _ _ _ Hu) (tu_pins _ _ _ Hu) Hch Hc).
  destruct motor_timer as [-> ->].
  assert (23592 <= c <= 52428) as Hr by (revert Ht; throttle).
  destruct (ccr_value 52499 c ltac:(lia) ltac:(lia)) as [Hb Hv]. rewrite Z.min_l by lia.
  exists (4 * ccr_of 52499 c). split; [done|]. lia.
Qed.

Section Motors.
Context {H : Type} `{HwLaws H}.
Abbreviation tim_dev := (stm32_dev H).
Context (fops : Z -> file_operations (gmap Z (pwm_upperhalf_s tim_dev)) pwm_arg) (ops_ptr me : Z).
Context (sleep : vfs (gmap Z (pwm_upperhalf_s tim_dev)) -> Z -> res (vfs (gmap Z (pwm_upperhalf_s tim_dev)))).
Abbreviation os := (vfs_posix fops me sleep).

(** The table of the PWM driver, over the timer, is at [ops_ptr]; sleeping returns. *)
Record tim_board : Prop := {
  tb_ptr : ops_ptr <> 0;
  tb_ops : fops ops_ptr = Pwm.g_pwmops Stm32Pwm.g_pwmops;
  tb_sleep : sleep_returns tim_phase ops_ptr me sleep
}.

Lemma tim_board_works : tim_board -> board_works Stm32Pwm.g_pwmops false tim_supported tim_phase fops ops_ptr me sleep.
Proof. intros [H2 H3 H4]. split; try done; [apply tim_lower|apply motors_tim]. Qed.

(** The four pins of some timer output pulses of the given duties at 400 Hz: every
    210000 cycles of 84 MHz, to 6 cycles exact, and between 0.9 and 2 ms long. *)
Definition pulses (s : vfs (gmap Z (pwm_upperhalf_s tim_dev))) (ds : list Z) : Prop :=
  exists p u, v_dev s !! p = Some u /\
    forall k d, ds !! k = Some d ->
      exists high, pin_wave (hw_val (hw (dev u))) (Z.of_nat k + 1) = Some (210000, high) /\
        Z.abs (high * 65536 - d * 210000) <= 6 * 65536 /\ 75596 <= high <= 167996.

Lemma board_pulses s fd d1 d2 d3 d4 :
  throttle_ok d1 -> throttle_ok d2 -> throttle_ok d3 -> throttle_ok d4 ->
  board_view tim_phase ops_ptr me s (Opened fd (motor_info d1 d2 d3 d4) On) -> pulses s [d1; d2; d3; d4].
Proof.
  intros H2 H3 H4 H5 V. destruct (board_output tim_phase ops_ptr me s fd _ On V) as (p & u & Hp & Hu). exists p, u. split; [done|].
  intros k d Hk. apply (motor_wave (dev u) d1 d2 d3 d4).
  - exact Hu.
  - apply lookup_lt_Some in Hk as Hl. cbn in Hl. rewrite !elem_of_cons. lia.
  - by rewrite Z.add_simpl_r, Nat2Z.id.
  - do 4 (destruct k as [|k]; [by injection Hk as <-|]). done.
Qed.

(** C5: On the board, from its registered and closed motor device on: [drv_motor_init]
    returns 0 with the pins outputting pulses of armed throttle, 0.9 ms.  For any
    duties the flight code then asks for, [drv_motor_update] returns 0, and the pin of
    each motor outputs 400 pulses per second, as long as its duty says, limited to the
    range from armed to full throttle, to 6 cycles of 84 MHz exact: down the whole
    stack from the array of the application through the file descriptor, the inode,
    the PWM driver and the registers of timer and pins. *)
Theorem motor_pulses s d1 d2 d3 d4 :
  tim_board -> board_view tim_phase ops_ptr me s Closed ->
  let a := CHEWIE_DRV_MOTOR_ARMED_THROTTLE_DUTY in
  exists s1 g1, drv_motor_init (H := os) 4 s (motors_zero 4) = Ok (0, s1, g1) /\ pulses s1 [a; a; a; a] /\
    exists s2 g2, drv_motor_update (H := os) 4 s1 (set_dutys g1 [d1; d2; d3; d4]) = Ok (0, s2, g2) /\
      pulses s2 (clamp <$> [d1; d2; d3; d4]).
Proof.
  intros Hb%tim_board_works V a. pose proof (board_works_system _ _ _ _ _ _ _ _ Hb) as Hsys.
  assert (throttle_ok a) as Ha by (unfold a; throttle).
  destruct (drv_motor_init_4 (H0 := Hsys) motors_tim s (motors_zero 4)) as (fd & s1 & g1 & E1 & R1 & V1); [done..|by repeat constructor|done|].
  exists s1, g1. split; [exact E1|]. split; [by apply (board_pulses s1 fd a a a a)|].
  destruct (update_4 (H0 := Hsys) motors_tim s1 (set_dutys g1 [d1; d2; d3; d4]) fd (motor_info a a a a) On d1 d2 d3 d4) as (s2 & g2 & E2 & _ & V2); [|exact V1|].
  { by destruct R1 as (? & _ & ?). }
  exists s2, g2. split; [exact E2|]. by apply (board_pulses s2 fd); [apply clamp_range..|].
Qed.
End Motors.

(** ** The simulated board *)

Definition PWM_TIMER : Z := 2.

(** The lower half the board registers at start-up, on a given chip. *)
Definition board_lower {H} (h : H) : option (stm32_dev H) := option_map (fun t => mk_tdev t h) (stm32_pwminitialize PWM_TIMER).

Definition tim_fops := boot_fops (D := stm32_dev sim) Stm32Pwm.g_pwmops.
Abbreviation tim_os := (vfs_posix tim_fops 7 boot_sleep).

Lemma motor_pulses_witness : exists s1 g1 s2 g2,
  @stm32_pwm_setup slot_allocator _ 7 fs_empty ∅ (board_lower demo_chip) 768 512 = Ok (0, boot_fs, boot_dev demo_tim) /\
  drv_motor_init (H := tim_os) 4 (boot_sys demo_tim) (motors_zero 4) = Ok (0, s1, g1) /\
  drv_motor_update (H := tim_os) 4 s1 (set_dutys g1 [0; 30000; 60000; 40000]) = Ok (0, s2, g2) /\
  pulses s2 (clamp <$> [0; 30000; 60000; 40000]).
Proof.
  destruct (motor_pulses tim_fops 512 7 boot_sleep (boot_sys demo_tim) 0 30000 60000 40000) as (s1 & g1 & E1 & _ & s2 & g2 & E2 & P).
  - split; [discriminate|reflexivity|apply boot_sleeps].
  - apply boot_view, demo_off.
  - exists s1, g1, s2, g2. split; [apply boot_setup|]. split; [exact E1|]. split; [exact E2|exact P].
Defined.
