(* ===== verification/I2c.v ===== *)
(** * The I2C character driver

    Model of [drivers/i2c/i2c_driver.c], with the types of
    [include/nuttx/i2c/i2c_master.h].  The lower half, which drives the bus, is a
    record of operations over its own state.  A buffer, a pointer in the code, is
    the bytes it points to: a transfer returns the messages with the buffers as
    it leaves them. *)

From stdpp Require Import strings.
From S2P Require Import Prelude Inode Vfs.
Local Open Scope Z_scope.

(** [_I2CIOC(nr)] with base [0x2100]. *)
Definition I2CIOC_TRANSFER : Z := 8449.
Definition I2CIOC_RESET : Z := 8450.

Definition I2C_M_READ : Z := 1.
Definition I2C_M_NOSTOP : Z := 64.

Record i2c_msg_s := mk_msg {
  msg_frequency : Z;
  msg_addr : Z;
  msg_flags : Z;
  msg_buffer : list Z;
  msg_length : Z
}.

(** What an [ioctl] argument points to, for this driver: nothing it can use, or
    the messages of a transfer. *)
Inductive i2c_arg := NoXfer | Xfer (msgv : list i2c_msg_s).

Record i2c_ops_s (B : Type) := mk_i2c_ops {
  transfer : B -> list i2c_msg_s -> Z * list i2c_msg_s * B;
  reset : B -> Z * B
}.
Arguments mk_i2c_ops {B}. Arguments transfer {B}. Arguments reset {B}.

Record i2c_driver_s (B : Type) := mk_i2c {
  i2c : B;
  i2c_exclsem : Z;
  i2c_crefs : Z;
  unlinked : bool
}.
Arguments mk_i2c {B}. Arguments i2c {B}. Arguments i2c_exclsem {B}. Arguments i2c_crefs {B}. Arguments unlinked {B}.

Section Driver.
Context {B : Type} (ops : i2c_ops_s B).
Abbreviation drv := (i2c_driver_s B).

Definition set_bus (p : drv) (v : B) : drv := mk_i2c v (i2c_exclsem p) (i2c_crefs p) (unlinked p).
Definition set_i2c_sem (p : drv) (v : Z) : drv := mk_i2c (i2c p) v (i2c_crefs p) (unlinked p).
Definition set_i2c_crefs (p : drv) (v : Z) : drv := mk_i2c (i2c p) (i2c_exclsem p) v (unlinked p).
Definition set_unlinked (p : drv) : drv := mk_i2c (i2c p) (i2c_exclsem p) (i2c_crefs p) true.

Definition i2c_wait (p : drv) : res drv :=
  if 0 <? i2c_exclsem p then Ok (set_i2c_sem p (i2c_exclsem p - 1)) else Err WouldBlock.
Definition i2c_post (p : drv) : drv := set_i2c_sem p (i2c_exclsem p + 1).

Definition i2cdrvr_open (p : drv) : res (Z * drv) :=
  p ← i2c_wait p;
  Ok (OK, i2c_post (set_i2c_crefs p (s16 (i2c_crefs p + 1)))).

(** [None]: the structure has been freed. *)
Definition i2cdrvr_close (p : drv) : res (Z * option drv) :=
  p ← i2c_wait p;
  let p := set_i2c_crefs p (s16 (i2c_crefs p - 1)) in
  if (i2c_crefs p <=? 0) && unlinked p then Ok (OK, None)
  else Ok (OK, Some (i2c_post p)).

Definition i2cdrvr_read (p : drv) (len : Z) : res (Z * list Z * drv) := Ok (0, [], p).

Definition i2cdrvr_write (p : drv) (buffer : list Z) : res (Z * drv) := Ok (Z.of_nat (length buffer), p).

(** An argument that does not point to a transfer is a bad pointer. *)
Definition i2cdrvr_ioctl (p : drv) (cmd : Z) (arg : i2c_arg) : res (Z * i2c_arg * drv) :=
  p ← i2c_wait p;
  '(ret, arg, p) ←
    (if cmd =? I2CIOC_TRANSFER then
       match arg with
       | NoXfer => Err (BadAddr 0)
       | Xfer msgv => let '(ret, msgv, b) := transfer ops (i2c p) msgv in Ok (ret, Xfer msgv, set_bus p b)
       end
     else if cmd =? I2CIOC_RESET then
       let '(ret, b) := reset ops (i2c p) in Ok (ret, arg, set_bus p b)
     else Ok (- ENOTTY, arg, p));
  Ok (ret, arg, i2c_post p).

Definition i2cdrvr_unlink (p : drv) : res (Z * option drv) :=
  p ← i2c_wait p;
  if i2c_crefs p <=? 0 then Ok (OK, None)
  else Ok (OK, Some (i2c_post (set_unlinked p))).

(** ** The methods as the file system calls them

    The structures live in a map; [i_private] is the address of one. *)

Abbreviation drvs := (gmap Z (i2c_driver_s B)).

Definition with_drv {C} (f : drv -> res (C * option drv)) (priv : Z) (w : drvs) : res (C * drvs) :=
  match w !! priv with
  | None => Err (BadAddr priv)
  | Some p => '(r, p) ← f p; Ok (r, match p with Some p => <[priv := p]> w | None => delete priv w end)
  end.

(** A method that does not free the structure. *)
Definition keep {C} (f : drv -> res (C * drv)) (p : drv) : res (C * option drv) :=
  '(r, p) ← f p; Ok (r, Some p).

(** [unlink] is not among the methods that the modelled file calls use. *)
Definition i2cdrvr_fops : file_operations drvs i2c_arg := mk_fops
  (Some (fun _ priv w => with_drv (keep i2cdrvr_open) priv w))
  (Some (fun _ priv w => with_drv i2cdrvr_close priv w))
  (Some (fun _ priv n w => with_drv (keep (fun p => i2cdrvr_read p n)) priv w))
  (Some (fun _ priv b w => with_drv (keep (fun p => i2cdrvr_write p b)) priv w))
  (Some (fun _ priv cmd arg w => with_drv (keep (fun p => i2cdrvr_ioctl p cmd arg)) priv w)).

(** The structure that [i2c_register] allocates for a bus. *)
Definition new_drv (b : B) : drv := mk_i2c b 1 0 false.

(** [snprintf(devname, DEVNAME_FMTLEN, "/dev/i2c%d", bus)] *)
Definition DEVNAME_FMTLEN : nat := 12.
Definition devname (bus : Z) : list Z := take (DEVNAME_FMTLEN - 1) (cstr "/dev/i2c" ++ decimal bus).

(** [priv] is the address that [kmm_zalloc] returns for the new structure, 0 for
    NULL, and [ops_ptr] the address of [i2cdrvr_fops]. *)
Definition i2c_register `{NodeAlloc} (me : Z) (st : fs) (w : drvs) (b : B) (bus priv ops_ptr : Z)
    : res (Z * fs * drvs) :=
  if priv =? 0 then Ok (- ENOMEM, st, w)
  else
    let w := <[priv := new_drv b]> w in
    '(ret, st) ← register_driver me st (devname bus) ops_ptr priv;
    Ok (OK, st, if ret <? 0 then delete priv w else w).
End Driver.
