(* ===== verification/I2cProps.v ===== *)
(** * Properties of the I2C driver

    The life of the driver's structure under any correct use, and the driver as
    one the file calls can rely on. *)

From S2P Require Import Prelude Inode Vfs VfsInv VfsOps VfsRun I2c.
Local Open Scope Z_scope.

(** ** The life of a device *)

Inductive i2c_use := UOpen | UClose | UIoctl (cmd : Z) (arg : i2c_arg) | UUnlink.

(** How many users have it open, and whether its path has been removed. *)
Record life := Life { users : nat; gone : bool }.

Definition xfer_ok (cmd : Z) (arg : i2c_arg) : bool :=
  negb (cmd =? I2CIOC_TRANSFER) || match arg with Xfer _ => true | NoXfer => false end.

(** Correct use: no [open] without a path, no [close] or [ioctl] without an
    [open]; [None] is a use that cannot happen. *)
Definition life_step (u : i2c_use) (l : life) : option life :=
  match u with
  | UOpen => if gone l || (32767 <=? Z.of_nat (users l)) then None else Some (Life (S (users l)) (gone l))
  | UClose => match users l with O => None | S n => Some (Life n (gone l)) end
  | UIoctl cmd arg => if (1 <=? users l)%nat && xfer_ok cmd arg then Some l else None
  | UUnlink => if gone l then None else Some (Life (users l) true)
  end.

Fixpoint life_run (us : list i2c_use) (l : life) : option life :=
  match us with
  | [] => Some l
  | u :: us => match life_step u l with Some l => life_run us l | None => None end
  end.

Definition freed (l : life) : bool := gone l && (users l =? 0)%nat.

Section Life.
Context {B : Type} (ops : i2c_ops_s B).
Abbreviation drv := (i2c_driver_s B).

Definition use_step (u : i2c_use) (p : drv) : res (option drv) :=
  match u with
  | UOpen => '(_, p) ← i2cdrvr_open p; Ok (Some p)
  | UClose => '(_, p) ← i2cdrvr_close p; Ok p
  | UIoctl cmd arg => '(_, _, p) ← i2cdrvr_ioctl ops p cmd arg; Ok (Some p)
  | UUnlink => '(_, p) ← i2cdrvr_unlink p; Ok p
  end.

(** Using a structure that has been freed is a bad access. *)
Fixpoint use_run (us : list i2c_use) (p : option drv) : res (option drv) :=
  match us with
  | [] => Ok p
  | u :: us => match p with Some p => p ← use_step u p; use_run us p | None => Err (BadAddr 0) end
  end.

(** The effect of a use on the bus. *)
Definition bus_step (b : B) (u : i2c_use) : B :=
  match u with
  | UIoctl cmd (Xfer ms) => if cmd =? I2CIOC_TRANSFER then snd (transfer ops b ms)
                            else if cmd =? I2CIOC_RESET then snd (reset ops b) else b
  | UIoctl cmd NoXfer => if cmd =? I2CIOC_RESET then snd (reset ops b) else b
  | _ => b
  end.

(** The structure of a device that is alive. *)
Definition live_drv (b : B) (l : life) : drv := mk_i2c b 1 (Z.of_nat (users l)) (gone l).

Lemma s16_small x : - 2 ^ 15 <= x < 2 ^ 15 -> s16 x = x.
Proof. intros H. unfold s16. rewrite Z.mod_small by lia. lia. Qed.

Lemma use_step_ok u b l l' :
  Z.of_nat (users l) <= 32767 -> freed l = false -> life_step u l = Some l' ->
  use_step u (live_drv b l) = Ok (if freed l' then None else Some (live_drv (bus_step b u) l')) /\ Z.of_nat (users l') <= 32767.
Proof.
  intros Hn Hf Hs. destruct l as [n g]. unfold freed in Hf. cbn in Hf, Hn. destruct u; cbn in Hs.
  - destruct g; [done|]. destruct (32767 <=? Z.of_nat n) eqn:E; [done|]. b2p. injection Hs as <-.
    split; [|cbn [users]; lia]. cbn. unfold i2c_post, set_i2c_sem, set_i2c_crefs. cbn. rewrite s16_small by lia.
    unfold live_drv. cbn [users gone]. by replace (Z.of_nat n + 1) with (Z.of_nat (S n)) by lia.
  - destruct n as [|n]; [done|]. injection Hs as <-. split; [|cbn [users]; lia].
    assert (s16 (Z.of_nat (S n) - 1) = Z.of_nat n) as E by (rewrite s16_small; lia).
    unfold use_step, i2cdrvr_close, i2c_wait, live_drv, freed. cbn [users gone i2c_exclsem]. cbn [Z.ltb Z.compare].
    rewrite bind_Ok. cbn [i2c_crefs set_i2c_sem set_i2c_crefs i2c unlinked i2c_exclsem]. rewrite E.
    destruct g, n; done.
  - destruct n as [|n]; [done|]. destruct (xfer_ok cmd arg) eqn:Ex; [|done]. injection Hs as <-. split; [|done].
    unfold freed, use_step, i2cdrvr_ioctl, i2c_wait, live_drv. cbn [users gone i2c_exclsem]. cbn [Z.ltb Z.compare].
    rewrite andb_false_r, bind_Ok. cbn [i2c set_i2c_sem]. unfold xfer_ok in Ex.
    destruct (cmd =? I2CIOC_TRANSFER) eqn:Ec.
    + destruct arg as [|ms]; [done|]. cbn [bus_step]. rewrite Ec. by destruct (transfer ops b ms) as [[r ms'] b'].
    + destruct arg as [|ms]; cbn [bus_step]; rewrite ?Ec; destruct (cmd =? I2CIOC_RESET); try done;
        by destruct (reset ops b) as [r b'].
  - destruct g; [done|]. injection Hs as <-. split; [|done]. by destruct n.
Qed.

Lemma freed_stuck u l : freed l = true -> life_step u l = None.
Proof. unfold freed. intros [Hg Hn]%andb_true_iff. apply Nat.eqb_eq in Hn. destruct l; cbn in *; subst. by destruct u. Qed.

Lemma use_run_ok us b l l' :
  Z.of_nat (users l) <= 32767 -> life_run us l = Some l' ->
  use_run us (if freed l then None else Some (live_drv b l)) =
  Ok (if freed l' then None else Some (live_drv (foldl bus_step b us) l')).
Proof.
  revert b l. induction us as [|u us IH]; intros b l Hn Hr; cbn in Hr; [by injection Hr as <-|].
  destruct (life_step u l) as [l1|] eqn:E; [|done].
  destruct (freed l) eqn:Hf; [by rewrite freed_stuck in E|]. cbn [use_run foldl].
  destruct (use_step_ok u b l l1 Hn Hf E) as [-> Hn1]. rewrite bind_Ok. by apply IH.
Qed.
End Life.

(** ** The driver behind the file calls *)

(** The devices in [ps] are registered and have not been unlinked. *)
Definition i2c_devs_ok {B} (ps : gset Z) (w : gmap Z (i2c_driver_s B)) : Prop :=
  forall a, a ∈ ps -> exists p, w !! a = Some p /\ i2c_exclsem p = 1 /\ unlinked p = false.

Lemma i2c_devs_put {B} ps (w : gmap Z (i2c_driver_s B)) a p :
  i2c_devs_ok ps w -> i2c_exclsem p = 1 -> unlinked p = false -> i2c_devs_ok ps (<[a := p]> w).
Proof.
  intros Hw H1 H2 b Hb. destruct (decide (a = b)) as [->|]; [exists p; by rewrite lookup_insert_eq|].
  rewrite lookup_insert_ne by done. by apply Hw.
Qed.

(** With any lower half, the methods of the driver always return. *)
#[export] Instance i2c_drivers {B} (ops : i2c_ops_s B) (ps : gset Z) :
  Drivers (fun _ => i2cdrvr_fops ops) (i2c_devs_ok ps) (fun _ priv => priv ∈ ps) (fun cmd arg => xfer_ok cmd arg = true).
Proof.
  assert (forall (w : gmap Z (i2c_driver_s B)) a, i2c_devs_ok ps w -> a ∈ ps ->
    exists b c, w !! a = Some (mk_i2c b 1 c false)) as Hget.
  { intros w a Hw Ha. destruct (Hw a Ha) as ([b e c u] & E & He & Hu). cbn in *. subst. by exists b, c. }
  split.
  - intros p m f priv w [= <-] Hp Hw. destruct (Hget w priv Hw Hp) as (b & c & E). unfold with_drv. rewrite E.
    eexists _, _. split; [reflexivity|]. by apply i2c_devs_put.
  - intros p m f priv w [= <-] Hp Hw. destruct (Hget w priv Hw Hp) as (b & c & E). unfold with_drv. rewrite E.
    unfold i2cdrvr_close. cbn. rewrite andb_false_r. eexists _, _. split; [reflexivity|]. by apply i2c_devs_put.
  - intros p m f priv n w [= <-] Hp Hw. destruct (Hget w priv Hw Hp) as (b & c & E). unfold with_drv. rewrite E.
    eexists _, _, _. split; [reflexivity|]. by apply i2c_devs_put.
  - intros p m f priv n w [= <-] Hp Hw. destruct (Hget w priv Hw Hp) as (b & c & E). unfold with_drv. rewrite E.
    eexists _, _. split; [reflexivity|]. by apply i2c_devs_put.
  - intros p m f priv cmd arg w [= <-] Hp Hx Hw. destruct (Hget w priv Hw Hp) as (b & c & E). unfold with_drv. rewrite E.
    unfold keep, i2cdrvr_ioctl, xfer_ok in *. cbn. destruct (cmd =? I2CIOC_TRANSFER).
    + destruct arg as [|ms]; [done|]. destruct (transfer ops b ms) as [[r ms'] b'].
      eexists _, _, _. split; [reflexivity|]. by apply i2c_devs_put.
    + destruct (cmd =? I2CIOC_RESET); [destruct (reset ops b) as [r b']|];
        (eexists _, _, _; split; [reflexivity|]; by apply i2c_devs_put).
Qed.

(** ** The claims *)

(** Under any correct use of a new device (opening it up to 32767 times at once,
    transfers and resets by its users, closing, removing its path at any point)
    every method returns.  The structure is freed exactly when the path has been
    removed and the last user has closed, and never used again; until then the
    bus has seen exactly the transfers and resets asked for, in order. *)
Theorem i2c_life_correct {B} (ops : i2c_ops_s B) us b l :
  life_run us (Life 0 false) = Some l ->
  use_run ops us (Some (new_drv b)) =
  Ok (if freed l then None else Some (live_drv (foldl (bus_step ops) b us) l)).
Proof. intros H. by apply (use_run_ok ops us b (Life 0 false)). Qed.

(** A bus that counts the messages it is given. *)
Definition count_bus : i2c_ops_s nat :=
  mk_i2c_ops (fun b ms => (OK, ms, (b + length ms)%nat)) (fun _ => (OK, 0%nat)).

Lemma i2c_life_witness :
  use_run count_bus [UOpen; UOpen; UIoctl I2CIOC_TRANSFER (Xfer [mk_msg 400000 80 0 [52] 1]); UUnlink; UClose; UClose]
    (Some (new_drv 0%nat)) = Ok None.
Proof.
  apply (i2c_life_correct count_bus
    [UOpen; UOpen; UIoctl I2CIOC_TRANSFER (Xfer [mk_msg 400000 80 0 [52] 1]); UUnlink; UClose; UClose] 0%nat (Life 0 true)).
  reflexivity.
Defined.

(** [i2c_register] reports success also when the device could not be
    registered, for instance because its path exists: its structure has been
    freed then. *)
Lemma i2c_register_hides_failure `{NodeAlloc} {B} me st w (b : B) bus priv ops_ptr ret st' :
  priv <> 0 -> register_driver me st (devname bus) ops_ptr priv = Ok (ret, st') -> ret < 0 ->
  i2c_register me st w b bus priv ops_ptr = Ok (OK, st', delete priv w).
Proof.
  intros Hp Hr Hn. unfold i2c_register. rewrite (proj2 (Z.eqb_neq _ 0) Hp), Hr, bind_Ok.
  rewrite (proj2 (Z.ltb_lt ret 0) Hn). by rewrite delete_insert_eq.
Qed.
