(* ===== verification/Imu.v ===== *)
(** * The I2C library and the inertial sensor of the flight application

    Model of [apps/chewie/lib/i2c/lib_i2c.c] and of
    [apps/chewie/drivers/imu/JY901B/drv_imu_jy901b.c], over the system calls of
    [Posix] and the heap of the application.

    The library keeps a [struct lib_i2c_s] on the heap: at address [p] its
    [frequency] is the word at [p], its 16-bit [addr] the low half of the word at
    [p + 4], its [fd] the word at [p + 8] and its [start] the word at [p + 12]. *)

From Stdlib Require Import Floats.SpecFloat.
From stdpp Require Import strings.
From S2P Require Import Prelude Float MmHeap Inode Vfs I2c VfsRun.
Local Open Scope Z_scope.

Definition SIZEOF_POINTER : Z := 4.
Definition SIZEOF_LIB_I2C_S : Z := 16.

(** The heap of the application. *)
Record uheap := mk_uheap { g_mmheap : mm_heap_s; ram : mem }.

(** A store to the low half of a word. *)
Definition store16 (m : mem) (a v : Z) : res mem :=
  w ← load m a; store m a (Z.lor (Z.land w (Z.shiftl 65535 16)) (u16 v)).
Definition load16 (m : mem) (a : Z) : res Z := w ← load m a; Ok (Z.land w 65535).

(** Integers of 32 bits are stored as the words of their two's complement. *)
Definition load_int (m : mem) (a : Z) : res Z := w ← load m a; Ok (s32 w).

Section Lib.
Context {S : Type} `{Posix S i2c_arg}.
Context (me : Z).

Definition malloc (u : uheap) (size : Z) : res (Z * uheap) :=
  '(h, m, p) ← mm_malloc me (g_mmheap u) (ram u) size; Ok (p, mk_uheap h m).
Definition free (u : uheap) (p : Z) : res uheap :=
  '(h, m) ← mm_free me (g_mmheap u) (ram u) p; Ok (mk_uheap h m).
Definition set_ram (u : uheap) (m : mem) : uheap := mk_uheap (g_mmheap u) m.

(** The address of the structure, 0 for NULL.  The size asked for is that of the
    pointer. *)
Definition lib_i2c_open (s : S) (u : uheap) (devpath : list Z) (frequency addr : Z) : res (Z * S * uheap) :=
  '(p, u) ← malloc u SIZEOF_POINTER;
  if p =? 0 then Ok (0, s, u)
  else
    m ← store (ram u) p frequency;
    m ← store16 m (p + 4) (u8 addr);
    '(fd, s) ← sys_open s devpath O_RDONLY;
    m ← store m (p + 8) (u32 fd);
    let u := set_ram u m in
    if fd <? 0 then u ← free u p; Ok (0, s, u)
    else Ok (p, s, u).

(** The messages of a read of [len] bytes from register [regaddr] on, into
    [buffer]. *)
Definition read_msgs (frequency addr regaddr : Z) (buffer : list Z) (len : Z) : list i2c_msg_s :=
  [mk_msg frequency addr I2C_M_NOSTOP [regaddr] 1; mk_msg frequency addr I2C_M_READ buffer len].

(** The buffer of the second message after the transfer. *)
Definition read_buffer (arg : i2c_arg) : list Z :=
  match arg with Xfer [_; m] => msg_buffer m | _ => [] end.

(** [result] are the two bytes that the pointer of that name refers to.  The
    message is given the address of the pointer itself, so the transfer writes
    into the pointer, whose two low bytes are [lo] and [hi], and not into the
    bytes. *)
Definition lib_i2c_read (s : S) (u : uheap) (p regaddr lo hi : Z) (result : list Z) : res (Z * list Z * S) :=
  f ← load (ram u) p;
  a ← load16 (ram u) (p + 4);
  fd ← load_int (ram u) (p + 8);
  '(ret, _, s) ← sys_ioctl s fd I2CIOC_TRANSFER (Xfer (read_msgs f a regaddr [lo; hi] 2));
  if ret <? 0 then Ok (-1, result, s) else Ok (0, result, s).

Definition lib_i2c_read_mult_block (s : S) (u : uheap) (p regaddr : Z) (buffer : list Z) (len : Z)
    : res (Z * list Z * S) :=
  f ← load (ram u) p;
  a ← load16 (ram u) (p + 4);
  fd ← load_int (ram u) (p + 8);
  '(ret, arg, s) ← sys_ioctl s fd I2CIOC_TRANSFER (Xfer (read_msgs f a regaddr buffer len));
  if ret <? 0 then Ok (-1, read_buffer arg, s) else Ok (0, read_buffer arg, s).

Definition lib_i2c_deinit (s : S) (u : uheap) (p : Z) : res (S * uheap) :=
  fd ← load_int (ram u) (p + 8);
  s ← (if 0 <=? fd then '(_, s) ← sys_close s fd; Ok s else Ok s);
  u ← (if p =? 0 then Ok u else free u p);
  Ok (s, u).
End Lib.

(** ** The sensor *)

Definition CONFIG_CHEWIE_IMU_JY901B_I2C_DEV_PATH : list Z := cstr "/dev/i2c2".
Definition CONFIG_CHEWIE_IMU_JY901B_I2C_FREQUENCY : Z := 400000.

(** The register of the first acceleration; the address of the sensor. *)
Definition AX : Z := 52.
Definition JY901B_ADDR : Z := 80.

Record mpu_params := mk_mpu {
  acc_pitch : spec_float; acc_roll : spec_float; acc_yaw : spec_float;
  gyro_pitch : spec_float; gyro_roll : spec_float; gyro_yaw : spec_float;
  mag_pitch : spec_float; mag_roll : spec_float; mag_yaw : spec_float;
  angle_pitch : spec_float; angle_roll : spec_float; angle_yaw : spec_float
}.

(** [_g_imu_jy901b_info], [drv_imu_date], and whether [drv_imu_interface.update]
    has been set. *)
Record imu := mk_imu { imu_i2c : Z; drv_imu_date : mpu_params; imu_update_set : bool }.

(** [REVERT_REG_DATA(&chrTemp[i])] *)
Definition REVERT_REG_DATA (c : list Z) (i : nat) : res Z :=
  b1 ← array_get c (i + 1)%nat;
  b0 ← array_get c i;
  Ok (s16 (Z.lor (Z.shiftl b1 8) b0)).

(** [(float)(x / 32768.0 * scale)] for an integer [x]. *)
Definition scaled (x scale : Z) : spec_float :=
  flt_of_dbl (dbl_mul (dbl_div (dbl x) (dbl 32768)) (dbl scale)).

Section Imu.
Context {S : Type} `{Posix S i2c_arg}.
Context (me : Z).

Definition set_imu_i2c (g : imu) (p : Z) : imu := mk_imu p (drv_imu_date g) (imu_update_set g).
Definition set_date (g : imu) (d : mpu_params) : imu := mk_imu (imu_i2c g) d (imu_update_set g).

Definition _init (s : S) (u : uheap) (g : imu) : res (Z * S * uheap * imu) :=
  '(p, s, u) ← lib_i2c_open me s u CONFIG_CHEWIE_IMU_JY901B_I2C_DEV_PATH
                 CONFIG_CHEWIE_IMU_JY901B_I2C_FREQUENCY JY901B_ADDR;
  let g := set_imu_i2c g p in
  if p =? 0 then
    '(s, u) ← lib_i2c_deinit me s u p;
    Ok (-1, s, u, set_imu_i2c g 0)
  else Ok (0, s, u, g).

(** The stores of [_update], from the bytes read. *)
Definition convert (c : list Z) : res mpu_params :=
  ax ← REVERT_REG_DATA c 0; ay ← REVERT_REG_DATA c 2; az ← REVERT_REG_DATA c 4;
  gx ← REVERT_REG_DATA c 6; gy ← REVERT_REG_DATA c 8; gz ← REVERT_REG_DATA c 10;
  hx ← REVERT_REG_DATA c 12; hy ← REVERT_REG_DATA c 14; hz ← REVERT_REG_DATA c 16;
  rx ← REVERT_REG_DATA c 18; ry ← REVERT_REG_DATA c 20; rz ← REVERT_REG_DATA c 22;
  Ok (mk_mpu (scaled ax 16) (scaled ay 16) (scaled (-1 * az) 16)
        (scaled gx 2000) (scaled gy 2000) (scaled (-1 * gz) 2000)
        (flt hx) (flt hy) (flt (-1 * hz))
        (scaled rx 180) (scaled ry 180) (scaled (-1 * rz) 180)).

(** [chrTemp] is the local array of 30 bytes, not initialised. *)
Definition _update (s : S) (u : uheap) (g : imu) (chrTemp : list Z) : res (Z * S * imu) :=
  '(ret, buf, s) ← lib_i2c_read_mult_block s u (imu_i2c g) AX (take 24 chrTemp) 24;
  let chrTemp := buf ++ drop 24 chrTemp in
  if ret <? 0 then Ok (-1, s, g)
  else d ← convert chrTemp; Ok (0, s, set_date g d).

Definition drv_imu_init (s : S) (u : uheap) (g : imu) : res (S * uheap * imu) :=
  let g := mk_imu (imu_i2c g) (drv_imu_date g) true in
  '(_, s, u, g) ← _init s u g; Ok (s, u, g).

Definition drv_imu_deinit (s : S) (u : uheap) (g : imu) : res (S * uheap) :=
  lib_i2c_deinit me s u (imu_i2c g).
End Imu.
