(* ===== verification/ImuProps.v ===== *)
(** * Properties of the I2C library and the inertial sensor

    The values the flight code reads are exactly those of the sensor, from the
    bytes on the bus to the floating point numbers; and the structure of the
    library does not fit into the memory allocated for it. *)

From Stdlib Require Import Floats.SpecFloat QArith Qpower.
From S2P Require Import Prelude Bits Float MmHeap MmLayout MmFreeList MmInv MmRun MmInit MmMalloc.
From S2P Require Import Inode InodeTree InodeProps Vfs VfsInv VfsOps VfsRun VfsProps I2c I2cProps Imu.
Local Open Scope Z_scope.

(** ** Conversion *)

Lemma scaled_exact x c j :
  - 32768 <= x <= 32768 -> 0 < c <= 200 -> 0 <= j <= 8 ->
  (fval (scaled x (c * 2 ^ j)) == inject_Z (x * (c * 2 ^ j)) / inject_Z 32768)%Q.
Proof.
  intros Hx Hc Hj. assert (0 < 2 ^ j <= 2 ^ 8) as H2 by (split; [apply Z.pow_pos_nonneg|apply Z.pow_le_mono_r]; lia).
  destruct (decide (x = 0)) as [->|Hne].
  - unfold scaled. change (dbl 0) with (S754_zero false). rewrite (dbl_exact (c * 2 ^ j)) by nia. reflexivity.
  - unfold scaled. change 32768 with (2 ^ 15). rewrite scale_exact by nia.
    pose proof (log2_bound (Z.abs x * c) 24 ltac:(nia)). rewrite fval_fl by nia.
    replace (signed (x <? 0) (Z.abs x * c)) with (x * c) by (rewrite <- (signed_abs x) at 1; unfold signed; destruct (x <? 0); lia).
    rewrite Z.mul_assoc, (inject_Z_mult (x * c) (2 ^ j)), !Zpower_Qpower by lia. unfold Qdiv.
    rewrite <- Qmult_assoc, <- Qpower_opp. change (inject_Z 2) with 2%Q. by rewrite <- Qpower_plus.
Qed.

Lemma flt_val x : - 32768 <= x <= 32768 -> (fval (flt x) == inject_Z x)%Q.
Proof.
  intros Hx. destruct (decide (x = 0)) as [->|Hne]; [reflexivity|]. rewrite flt_exact by lia.
  pose proof (log2_bound (Z.abs x) 24 ltac:(lia)). rewrite fval_fl by lia. rewrite signed_abs. unfold Qpower. ring.
Qed.

(** A 16-bit register in two bytes, least significant first. *)
Definition reg16 (bytes : list Z) (i : nat) : Z :=
  s16 (nth i bytes 0 + 256 * nth (i + 1) bytes 0).

Definition byte (b : Z) : Prop := 0 <= b < 256.

Lemma revert_spec c i : Forall byte c -> (i + 1 < length c)%nat -> REVERT_REG_DATA c i = Ok (reg16 c i).
Proof.
  intros Hc Hi. unfold REVERT_REG_DATA, array_get, reg16.
  destruct (lookup_lt_is_Some_2 c i ltac:(lia)) as [b0 E0]. destruct (lookup_lt_is_Some_2 c (i + 1) ltac:(lia)) as [b1 E1].
  rewrite E1, bind_Ok, E0, bind_Ok. rewrite !(nth_lookup_Some _ _ _ _ E0), !(nth_lookup_Some _ _ _ _ E1).
  pose proof (proj1 (Forall_lookup _ _) Hc _ _ E0) as H0. unfold byte in H0. do 2 f_equal.
  rewrite Z.lor_comm, (lor_shift _ _ 8) by lia. lia.
Qed.

(** The twelve values, and what they should be for the bytes read. *)
Definition date_values (d : mpu_params) : list Q :=
  fval <$> [acc_pitch d; acc_roll d; acc_yaw d; gyro_pitch d; gyro_roll d; gyro_yaw d;
            mag_pitch d; mag_roll d; mag_yaw d; angle_pitch d; angle_roll d; angle_yaw d].

Definition triple (bytes : list Z) (i : nat) (scale : Q) : list Q :=
  [inject_Z (reg16 bytes i) * scale; inject_Z (reg16 bytes (i + 2)) * scale; - (inject_Z (reg16 bytes (i + 4)) * scale)]%Q.

(** Full scale is 16 g, 2000 degrees per second and 180 degrees; the
    magnetic field is not scaled; the third axis is reversed. *)
Definition measured (bytes : list Z) : list Q :=
  triple bytes 0 (16 # 32768) ++ triple bytes 6 (2000 # 32768) ++ triple bytes 12 1 ++ triple bytes 18 (180 # 32768).

Lemma reg16_range bytes i : - 32768 <= reg16 bytes i <= 32767.
Proof. unfold reg16, s16. modlia. Qed.

(** [sc] is [q * 32768] and has a small odd part. *)
Lemma scaled_val x c j sc q :
  - 32768 <= x <= 32768 -> 0 < c <= 200 -> 0 <= j <= 8 -> sc = c * 2 ^ j -> (inject_Z sc / inject_Z 32768 == q)%Q ->
  (fval (scaled x sc) == inject_Z x * q)%Q.
Proof.
  intros Hx Hc Hj -> <-. rewrite scaled_exact, inject_Z_mult by done. unfold Qdiv. by rewrite Qmult_assoc.
Qed.

Lemma scaled_neg x c j sc q :
  - 32768 <= x <= 32768 -> 0 < c <= 200 -> 0 <= j <= 8 -> sc = c * 2 ^ j -> (inject_Z sc / inject_Z 32768 == q)%Q ->
  (fval (scaled (-1 * x) sc) == - (inject_Z x * q))%Q.
Proof.
  intros Hx Hc Hj Hs Hq. rewrite (scaled_val (-1 * x) c j sc q) by (done || lia).
  rewrite inject_Z_mult. change (inject_Z (-1)) with (-1 # 1)%Q. ring.
Qed.

Lemma convert_spec bytes rest :
  length bytes = 24%nat -> Forall byte bytes -> Forall byte rest ->
  exists d, convert (bytes ++ rest) = Ok d /\ Forall2 Qeq (date_values d) (measured bytes).
Proof.
  intros Hl Hb Hr. pose proof (Forall_app_2 _ _ _ Hb Hr) as Hall.
  assert (forall i, (i + 1 < 24)%nat -> REVERT_REG_DATA (bytes ++ rest) i = Ok (reg16 bytes i)) as HR.
  { intros i Hi. rewrite revert_spec; [|done|rewrite length_app; lia]. unfold reg16. by rewrite !app_nth1 by lia. }
  unfold convert. rewrite !HR by lia. rewrite !bind_Ok. eexists. split; [done|].
  pose proof (reg16_range bytes) as Hx.
  assert (forall i, - 32768 <= reg16 bytes i <= 32768) as Hx' by (intros i; specialize (Hx i); lia).
  unfold date_values, measured, triple. cbn [fmap list_fmap app acc_pitch acc_roll acc_yaw gyro_pitch gyro_roll gyro_yaw
    mag_pitch mag_roll mag_yaw angle_pitch angle_roll angle_yaw Nat.add].
  repeat constructor.
  1-2: by apply (scaled_val _ 1 4). 1: by apply (scaled_neg _ 1 4).
  1-2: by apply (scaled_val _ 125 4). 1: by apply (scaled_neg _ 125 4).
  1-2: rewrite flt_val by done; ring.
  1: rewrite flt_val by (specialize (Hx 16%nat); lia); rewrite inject_Z_mult; change (inject_Z (-1)) with (-1 # 1)%Q; ring.
  1-2: by apply (scaled_val _ 45 2). by apply (scaled_neg _ 45 2).
Qed.

(** ** Reading the sensor *)

(** The structure of the library, as [lib_i2c_open] fills it. *)
Record lib_rep (u : uheap) (p f a fd : Z) : Prop := {
  lr_null : 0 < p;
  lr_freq : ram u !! p = Some f;
  lr_addr : load16 (ram u) (p + 4) = Ok a;
  lr_fd : ram u !! (p + 8) = Some fd;
  lr_open : 0 <= fd < 2 ^ 31
}.

Section Read.
Context {S : Type} `{Posix S i2c_arg}.

Lemma read_block_spec (s : S) u p f a fd regaddr buffer len r arg s' :
  lib_rep u p f a fd ->
  sys_ioctl s fd I2CIOC_TRANSFER (Xfer (read_msgs f a regaddr buffer len)) = Ok (r, arg, s') ->
  lib_i2c_read_mult_block s u p regaddr buffer len = Ok (if r <? 0 then -1 else 0, read_buffer arg, s').
Proof.
  intros [Hp Hf Ha Hfd Hr] E. unfold lib_i2c_read_mult_block, load_int.
  rewrite (load_Ok _ p f), bind_Ok, Ha, bind_Ok by (done || lia).
  rewrite (load_Ok _ (p + 8) fd), !bind_Ok, s32_small by (done || lia). rewrite E, bind_Ok.
  by destruct (r <? 0).
Qed.

Lemma update_spec (s : S) u g p f a fd chr r bytes m0 fl ad lg s' :
  imu_i2c g = p -> lib_rep u p f a fd -> Forall byte chr ->
  sys_ioctl s fd I2CIOC_TRANSFER (Xfer (read_msgs f a AX (take 24 chr) 24)) =
    Ok (r, Xfer [m0; mk_msg fl ad lg bytes 24], s') ->
  length bytes = 24%nat -> Forall byte bytes ->
  if r <? 0 then _update s u g chr = Ok (-1, s', g)
  else exists d, _update s u g chr = Ok (0, s', set_date g d) /\ Forall2 Qeq (date_values d) (measured bytes).
Proof.
  intros <- Hrep Hchr E Hl Hb. unfold _update. rewrite (read_block_spec _ _ _ _ _ _ _ _ _ _ _ _ Hrep E), bind_Ok.
  destruct (r <? 0); [done|]. cbn [read_buffer msg_buffer]. change (0 <? 0) with false. cbv iota.
  destruct (convert_spec bytes (drop 24 chr) Hl Hb (Forall_drop _ 24 _ Hchr)) as (d & -> & Hd).
  exists d. split; [done|exact Hd].
Qed.
End Read.

(** ** Through the file calls and the driver *)

(** A sensor at address [a]: reading from register [r] on returns [regs b r],
    and the bus reports an error or success. *)
Class I2cSensor {B} (ops : i2c_ops_s B) (a : Z) (regs : B -> Z -> list Z) : Prop := {
  sensor_read b f r buf : length buf = 24%nat ->
    exists b', transfer ops b (read_msgs f a r buf 24) = (OK, read_msgs f a r (regs b r) 24, b');
  sensor_bytes b r : length (regs b r) = 24%nat /\ Forall byte (regs b r)
}.

Section Sensor.
Context {B : Type} (ops : i2c_ops_s B) (regs : B -> Z -> list Z) `{!I2cSensor ops JY901B_ADDR regs}.
Context (fops : Z -> file_operations (gmap Z (i2c_driver_s B)) i2c_arg) (ops_ptr me : Z).
Context (Hptr : ops_ptr <> 0) (Hops : fops ops_ptr = i2cdrvr_fops ops).
Context (sleep : vfs (gmap Z (i2c_driver_s B)) -> Z -> res (vfs (gmap Z (i2c_driver_s B)))).

(** Descriptor [k] is open on a device of the driver. *)
Definition i2c_open_on (v : vfs (gmap Z (i2c_driver_s B))) (k : nat) (p : i2c_driver_s B) : Prop :=
  exists ext t f n, vfs_inv me ext t v /\ fl_files v !! k = Some f /\ f_inode f <> 0 /\
    nodes (v_fs v) !! f_inode f = Some n /\ i_ops n = ops_ptr /\ v_dev v !! i_private n = Some p /\ i2c_exclsem p = 1.

Lemma sensor_ioctl v k p f r buf :
  i2c_open_on v k p -> length buf = 24%nat ->
  exists v', ioctl fops v (Z.of_nat k) I2CIOC_TRANSFER (Xfer (read_msgs f JY901B_ADDR r buf 24)) =
    Ok (OK, Xfer (read_msgs f JY901B_ADDR r (regs (i2c p) r) 24), v').
Proof.
  intros (ext & t & fi & n & Hv & Hf & Hz & Hn & Ho & Hd & Hs) Hb.
  destruct (sensor_read (i2c p) f r buf Hb) as (b' & Hx).
  set (w := <[i_private n := mk_i2c b' 1 (i2c_crefs p) (unlinked p)]> (v_dev v)). exists (set_v_dev v w).
  apply (ioctl_driver_ok fops me ext t v k fi n
    (fun _ priv cmd arg w => with_drv (keep (fun p => i2cdrvr_ioctl ops p cmd arg)) priv w) _ _ _ _ w Hv Hf Hz Hn);
    [by rewrite Ho|by rewrite Ho, Hops| |done].
  unfold with_drv. rewrite Hd. unfold keep, i2cdrvr_ioctl, i2c_wait. rewrite Hs. cbn [Z.ltb Z.compare].
  rewrite bind_Ok. change (I2CIOC_TRANSFER =? I2CIOC_TRANSFER) with true. cbv iota. cbn [i2c set_i2c_sem]. by rewrite Hx.
Qed.
End Sensor.

(** ** The structure does not fit its memory *)

(** Behind every chunk that is not a guard there is another one. *)
Lemma next_entry nl m rs fl e :
  heap_inv nl m rs fl -> in_heap rs e -> 16 <= es e ->
  exists t al, in_heap rs (Entry (ea e + es e) t (es e) al).
Proof.
  intros Hi He Hs. destruct (find_chunk _ _ _ _ _ Hi He Hs) as (i & r & l1 & [t al] & l2 & Hr & El & Ea & _).
  exists t, al, i, r. split; [done|]. rewrite El. apply entries_parts. right; right; left.
  rewrite Ea. cbn. by rewrite Z.add_0_r.
Qed.

Lemma store_at (m : mem) a v : 0 < a -> is_Some (m !! a) -> store m a v = Ok (<[a := v]> m).
Proof. intros Ha [w Hw]. apply store_Ok; [lia|by eexists]. Qed.

Lemma lib_open_stores {S} `{Posix S i2c_arg} me (s s' : S) h m m1 p f ad devpath fd :
  mm_malloc me h m SIZEOF_POINTER = Ok (h, m1, p) -> 0 < p ->
  is_Some (m1 !! p) -> is_Some (m1 !! (p + 4)) -> is_Some (m1 !! (p + 8)) ->
  sys_open s devpath O_RDONLY = Ok (fd, s') -> 0 <= fd ->
  exists w, lib_i2c_open me s (mk_uheap h m) devpath f ad =
    Ok (p, s', mk_uheap h (<[p + 8 := u32 fd]> (<[p + 4 := w]> (<[p := f]> m1)))).
Proof.
  intros Em Hp H0 H4 H8 Eo Hfd. destruct H4 as [w4 Hw4]. unfold lib_i2c_open, malloc. cbn [g_mmheap ram]. rewrite Em, !bind_Ok.
  rewrite (proj2 (Z.eqb_neq p 0)) by lia. cbn [ram]. rewrite store_at, bind_Ok by done. unfold store16.
  rewrite (load_Ok _ (p + 4) w4), bind_Ok by (lia || mlook; done).
  rewrite store_at, bind_Ok by (lia || (mlook; by eexists)). rewrite Eo, bind_Ok.
  rewrite store_at, bind_Ok by (lia || (mlook; done)).
  rewrite (proj2 (Z.ltb_ge fd 0)) by lia. by eexists.
Qed.

(** [lib_i2c_open] asks for the size of a pointer instead of that of its
    structure.  On any well-formed heap the block it gets ends 8 bytes behind its
    start, and the store of the file descriptor hits the next chunk of the
    heap: the size in that chunk's header is overwritten, whatever it was, and
    the heap is no longer the well-formed one that [malloc] left. *)
Theorem lib_i2c_open_overruns {S} `{Posix S i2c_arg} me (s s' : S) h m rs fl devpath f ad fd :
  heap_inv (mm_nodelist h) m rs fl -> lock_ok me h -> (exists a t p, in_heap rs (Entry a t p false) /\ 16 <= t) ->
  sys_open s devpath O_RDONLY = Ok (fd, s') -> 0 <= fd < 8 ->
  exists m1 rs1 fl1 p e m2, mm_malloc me h m SIZEOF_POINTER = Ok (h, m1, p) /\ p <> 0 /\
    heap_inv (mm_nodelist h) m1 rs1 fl1 /\ in_heap rs1 e /\ ea e = p + 8 /\ m1 !! (p + 8) = Some (es e) /\
    lib_i2c_open me s (mk_uheap h m) devpath f ad = Ok (p, s', mk_uheap h m2) /\
    m2 !! (p + 8) = Some fd /\ (forall fl2, ~ heap_inv (mm_nodelist h) m2 rs1 fl2).
Proof.
  intros Hi Hl (a0 & t0 & p0 & Hfree & Ht0) Eo Hfd.
  destruct (malloc_spec me h m rs fl SIZEOF_POINTER Hi Hl ltac:(unfold SIZEOF_POINTER; lia))
    as (m1 & ret & Em & [(_ & _ & Hno)|(rs1 & fl1 & a & sz & sf & pf & -> & _ & Hsz & H16 & Hin & _ & _ & Hi1 & _ & Hal & _)]).
  { specialize (Hno _ _ _ Hfree). unfold SIZEOF_POINTER in Hno. lia. }
  unfold SIZEOF_POINTER in Hsz. assert (sz = 16) as -> by modlia.
  destruct (proj2 (Hal a 16) (or_intror (conj eq_refl eq_refl))) as [q Hblk].
  destruct (in_heap_range _ _ _ _ Hi1 _ Hblk) as (_ & _ & _ & _ & _ & _ & Ha & _). cbn [ea] in Ha.
  destruct (find_chunk _ _ _ _ _ Hi1 Hblk ltac:(cbn; lia)) as (_ & _ & _ & _ & _ & _ & _ & _ & _ & _ & Ha8 & _). cbn [ea] in Ha8.
  destruct (next_entry _ _ _ _ _ Hi1 Hblk ltac:(cbn; lia)) as (t & al & Hnext). cbn [ea es] in Hnext.
  destruct (hi_hdr _ _ _ _ Hi1 _ Hnext) as [Hsize _]. cbn [ea es] in Hsize.
  destruct (in_heap_range _ _ _ _ Hi1 _ Hnext) as (_ & _ & _ & _ & _ & Ht & _). cbn [es] in Ht.
  assert (forall w, a <= w < a + 16 -> w mod 4 = 0 -> is_Some (m1 !! w)) as Hmap.
  { intros w Hw Hw4. by apply (chunk_mapped _ _ _ _ _ w Hi1 Hblk). }
  destruct (lib_open_stores me s s' h m m1 (a + 8) f ad devpath fd Em ltac:(lia) (Hmap (a + 8) ltac:(lia) ltac:(modlia))
    (Hmap (a + 8 + 4) ltac:(lia) ltac:(modlia)) ltac:(replace (a + 8 + 8) with (a + 16) by lia; by eexists) Eo ltac:(lia)) as (w & E).
  eexists m1, rs1, fl1, (a + 8), (Entry (a + 16) t 16 al), _. replace (a + 8 + 8) with (a + 16) in * by lia.
  split_and!; [exact Em|lia|done|done|done|done|exact E|rewrite lookup_insert_eq; f_equal; unfold u32; modlia|].
  intros fl2 Hi2. destruct (hi_hdr _ _ _ _ Hi2 _ Hnext) as [Hbad _]. cbn [ea es] in Hbad. rewrite lookup_insert_eq in Hbad.
  injection Hbad as Hbad. unfold u32 in Hbad. rewrite Z.mod_small in Hbad by lia. lia.
Qed.

(** ** A sensor for the examples: the bytes 0 to 23 *)

Definition demo_regs (_ : unit) (_ : Z) : list Z := seqZ 0 24.
Definition demo_bus : i2c_ops_s unit :=
  mk_i2c_ops (fun b ms => match ms with
    | [m0; m1] => (OK, [m0; mk_msg (msg_frequency m1) (msg_addr m1) (msg_flags m1) (demo_regs b 0) (msg_length m1)], b)
    | _ => (- EINVAL, ms, b)
    end) (fun b => (OK, b)).

#[export] Instance demo_sensor : I2cSensor demo_bus JY901B_ADDR demo_regs.
Proof.
  split; [intros b f r buf _; by exists b|]. intros b r. split; [done|]. apply Forall_forall.
  intros x [? ?]%elem_of_seqZ. unfold byte. lia.
Qed.

(** An operating system that opens descriptor 3. *)
Definition demo_os : Posix unit i2c_arg := {|
  sys_open s _ _ := Ok (3, s);
  sys_ioctl s _ _ arg := Ok (OK, arg, s);
  sys_close s _ := Ok (OK, s);
  sys_sleep s _ := Ok s
|}.

Lemma lib_i2c_open_overruns_witness : exists m m1 p m2 old,
  mm_initialize demo_heap demo_mem 8192 1030 = Ok (demo_heap1, m) /\
  mm_malloc 3 demo_heap1 m SIZEOF_POINTER = Ok (demo_heap1, m1, p) /\ m1 !! (p + 8) = Some old /\
  lib_i2c_open (H := demo_os) 3 tt (mk_uheap demo_heap1 m) [] 400000 80 = Ok (p, tt, mk_uheap demo_heap1 m2) /\
  m2 !! (p + 8) = Some 3.
Proof.
  destruct demo_inv as (m & fl & E & Hi).
  destruct (lib_i2c_open_overruns (H := demo_os) 3 tt tt demo_heap1 m [new_region 8192 9216] fl [] 400000 80 3 Hi demo_lock)
    as (m1 & rs1 & fl1 & p & e & m2 & H1 & _ & _ & _ & _ & H5 & H6 & H7 & _).
  - exists 8200, 1008, 8. split; [exact demo_free|lia].
  - reflexivity.
  - lia.
  - exists m, m1, p, m2, (es e). split; [exact E|]. split; [exact H1|]. split; [exact H5|]. split; [exact H6|exact H7].
Defined.

(** ** Reading the sensor, end to end *)

(** C22: With the library's structure in place, [_update] reads the sensor through
    [ioctl], the file descriptor and the I2C driver, returns 0, and leaves in
    [drv_imu_date] exactly the numbers measured: the twelve 16-bit registers,
    scaled to g, degrees per second and degrees, with nothing lost to rounding
    in the computation in [double] or in the conversion to [float]. *)
Theorem imu_update_correct {B} (ops : i2c_ops_s B) regs `{!I2cSensor ops JY901B_ADDR regs} fops ops_ptr me sleep
    (v : vfs (gmap Z (i2c_driver_s B))) u g f k drv chr :
  ops_ptr <> 0 -> fops ops_ptr = i2cdrvr_fops ops -> i2c_open_on ops_ptr me v k drv -> Z.of_nat k < 8 ->
  lib_rep u (imu_i2c g) f JY901B_ADDR (Z.of_nat k) -> length chr = 30%nat -> Forall byte chr ->
  exists v' d, _update (H := vfs_posix fops me sleep) v u g chr = Ok (0, v', set_date g d) /\
    Forall2 Qeq (date_values d) (measured (regs (i2c drv) AX)).
Proof.
  intros Hptr Hops Ho Hk Hrep Hl Hc.
  destruct (sensor_ioctl ops regs fops ops_ptr me Hptr Hops v k drv f AX (take 24 chr) Ho) as (v' & E);
    [rewrite length_take; lia|]. destruct (sensor_bytes (i2c drv) AX) as [Hb1 Hb2].
  pose proof (update_spec (H := vfs_posix fops me sleep) v u g _ f JY901B_ADDR _ chr OK _ _ _ _ _ v' eq_refl Hrep Hc E Hb1 Hb2)
    as (d & Hd1 & Hd2). by exists v', d.
Qed.

Definition demo_i2c_vfs : vfs (gmap Z (i2c_driver_s unit)) :=
  opened (mk_vfs demo_fs 1 (replicate 8 file_zero) {[ 768 := mk_i2c tt 1 0 false ]} 0) 0 (mk_file O_RDONLY 0 4160 0)
    {[ 768 := mk_i2c tt 1 1 false ]}.
Definition demo_lib : uheap := mk_uheap demo_heap1 {[ 9000 := 400000; 9004 := 80; 9008 := 0 ]}.
Definition demo_imu : imu :=
  let z := S754_zero false in mk_imu 9000 (mk_mpu z z z z z z z z z z z z) true.

Lemma demo_i2c_open : i2c_open_on 512 7 demo_i2c_vfs 0 (mk_i2c tt 1 1 false).
Proof.
  eexists demo_ext, demo_tree, (mk_file O_RDONLY 0 4160 0), _. split_and!; [|done|done|done|done|done|done].
  apply inv_opened; [apply demo_inv_dev|done|done|done|by eexists].
Qed.

Lemma demo_lib_rep : lib_rep demo_lib 9000 400000 JY901B_ADDR 0.
Proof. split; done. Qed.

Lemma imu_update_witness : exists v' d,
  _update (H := vfs_posix (fun _ => i2cdrvr_fops demo_bus) 7 (fun s _ => Ok s)) demo_i2c_vfs demo_lib demo_imu (replicate 30 0) =
    Ok (0, v', set_date demo_imu d) /\
  Forall2 Qeq (date_values d) (measured (seqZ 0 24)).
Proof.
  apply (imu_update_correct demo_bus demo_regs (fun _ => i2cdrvr_fops demo_bus) 512 7 (fun s _ => Ok s) demo_i2c_vfs demo_lib
    demo_imu 400000 0 (mk_i2c tt 1 1 false) (replicate 30 0)).
  - discriminate.
  - reflexivity.
  - exact demo_i2c_open.
  - reflexivity.
  - exact demo_lib_rep.
  - reflexivity.
  - apply Forall_replicate. unfold byte. lia.
Defined.

(** When the transfer fails, [_update] reports it and the last values measured
    stay in place, whatever the operating system has done. *)
Lemma imu_update_failure {S} `{Posix S i2c_arg} (s s' : S) u g f a fd chr r arg :
  lib_rep u (imu_i2c g) f a fd ->
  sys_ioctl s fd I2CIOC_TRANSFER (Xfer (read_msgs f a AX (take 24 chr) 24)) = Ok (r, arg, s') -> r < 0 ->
  _update s u g chr = Ok (-1, s', g).
Proof.
  intros Hrep E Hr. unfold _update. rewrite (read_block_spec _ _ _ _ _ _ _ _ _ _ _ _ Hrep E), bind_Ok.
  by rewrite (proj2 (Z.ltb_lt r 0) Hr).
Qed.

(** [_init] closes a structure that it does not have: without memory the NULL
    pointer is dereferenced. *)
Lemma imu_init_null {S} `{Posix S i2c_arg} me (s : S) h m g :
  mm_malloc me h m SIZEOF_POINTER = Ok (h, m, 0) -> m !! 8 = None ->
  _init me s (mk_uheap h m) g = Err (BadAddr 8).
Proof.
  intros E E8. unfold _init, lib_i2c_open, malloc. cbn [g_mmheap ram]. rewrite E, !bind_Ok.
  change (0 =? 0) with true. cbv iota. rewrite bind_Ok. change (0 =? 0) with true. cbv iota zeta.
  unfold lib_i2c_deinit, load_int, load. cbn [ram]. change (0 + 8) with 8. by rewrite E8.
Qed.
