(* ===== verification/Sched.v ===== *)
(** * The scheduler (src/nuttx/sched/sched)

    The task lists of one processor and the operations on them.  A task control
    block is a node of exactly one doubly linked list, the one that belongs to
    its [task_state]; its links are kept in [links] and its other fields in
    [tcbs].  The configuration is that of the board: no SMP, no priority
    inheritance, no sporadic scheduling, round robin with 200 ms slices.

    A context switch saves the registers of one task and restores those of
    another.  What the lists say of it is that another task is now at the head
    of [g_readytorun]; the functions return whether the head changed, and what a
    task still has to do when it runs again is part of the model of its calls. *)

From stdpp Require Import functions.
From S2P Require Import Prelude Bits Links Queue.
Import Dq.
Local Open Scope Z_scope.

(** ** Data *)

Inductive tstate_e :=
  | TSTATE_TASK_INVALID | TSTATE_TASK_PENDING | TSTATE_TASK_READYTORUN | TSTATE_TASK_RUNNING
  | TSTATE_TASK_INACTIVE | TSTATE_WAIT_SEM | TSTATE_WAIT_SIG | TSTATE_WAIT_MQNOTEMPTY | TSTATE_WAIT_MQNOTFULL.

#[export] Instance tstate_eq_dec : EqDecision tstate_e.
Proof. solve_decision. Defined.

(** The task lists, in the order of their declaration. *)
Inductive tasklist :=
  | g_readytorun | g_pendingtasks | g_waitingforsemaphore | g_waitingforsignal
  | g_waitingformqnotempty | g_waitingformqnotfull | g_inactivetasks.

#[export] Instance tasklist_eq_dec : EqDecision tasklist.
Proof. solve_decision. Defined.

Record tcb_s := mk_tcb {
  pid : Z;
  sched_priority : Z;
  task_state : tstate_e;
  flags : Z;
  lockcount : Z;
  timeslice : Z;
  waitdog : Z;
  waitsem : Z;
  pterrno : Z
}.

Definition set_priority (t : tcb_s) (v : Z) : tcb_s :=
  mk_tcb (pid t) v (task_state t) (flags t) (lockcount t) (timeslice t) (waitdog t) (waitsem t) (pterrno t).
Definition set_state (v : tstate_e) (t : tcb_s) : tcb_s :=
  mk_tcb (pid t) (sched_priority t) v (flags t) (lockcount t) (timeslice t) (waitdog t) (waitsem t) (pterrno t).
Definition set_flags (t : tcb_s) (v : Z) : tcb_s :=
  mk_tcb (pid t) (sched_priority t) (task_state t) v (lockcount t) (timeslice t) (waitdog t) (waitsem t) (pterrno t).
Definition set_lockcount (t : tcb_s) (v : Z) : tcb_s :=
  mk_tcb (pid t) (sched_priority t) (task_state t) (flags t) v (timeslice t) (waitdog t) (waitsem t) (pterrno t).
Definition set_timeslice (t : tcb_s) (v : Z) : tcb_s :=
  mk_tcb (pid t) (sched_priority t) (task_state t) (flags t) (lockcount t) v (waitdog t) (waitsem t) (pterrno t).
Definition set_waitdog (t : tcb_s) (v : Z) : tcb_s :=
  mk_tcb (pid t) (sched_priority t) (task_state t) (flags t) (lockcount t) (timeslice t) v (waitsem t) (pterrno t).
Definition set_waitsem (t : tcb_s) (v : Z) : tcb_s :=
  mk_tcb (pid t) (sched_priority t) (task_state t) (flags t) (lockcount t) (timeslice t) (waitdog t) v (pterrno t).
Definition set_pterrno (t : tcb_s) (v : Z) : tcb_s :=
  mk_tcb (pid t) (sched_priority t) (task_state t) (flags t) (lockcount t) (timeslice t) (waitdog t) (waitsem t) v.

(** [pidhash] has the task and the identifier of each slot. *)
Record sched := mk_sched {
  tcbs : gmap Z tcb_s;
  links : dq_links;
  lists : tasklist -> dq_queue_s;
  g_pidhash : list (Z * Z)
}.

Definition CONFIG_MAX_TASKS : Z := 16.
Definition SCHED_PRIORITY_MAX : Z := 255.
Definition SCHED_PRIORITY_MIN : Z := 1.
Definition TCB_FLAG_POLICY_SHIFT : Z := 5.
Definition TCB_FLAG_POLICY_MASK : Z := Z.shiftl 3 TCB_FLAG_POLICY_SHIFT.
Definition TCB_FLAG_SCHED_FIFO : Z := Z.shiftl 0 TCB_FLAG_POLICY_SHIFT.
Definition TCB_FLAG_SCHED_RR : Z := Z.shiftl 1 TCB_FLAG_POLICY_SHIFT.
Definition SCHED_FIFO : Z := 1.
Definition SCHED_RR : Z := 2.
Definition CONFIG_RR_INTERVAL : Z := 200.
Definition MSEC_PER_TICK : Z := 1.
Definition MSEC2TICK (msec : Z) : Z := (msec + MSEC_PER_TICK / 2) / MSEC_PER_TICK.
Definition ESRCH : Z := 3.

(** *** g_tasklisttable *)

Definition TLIST_HEAD (s : tstate_e) : option tasklist :=
  match s with
  | TSTATE_TASK_INVALID => None
  | TSTATE_TASK_PENDING => Some g_pendingtasks
  | TSTATE_TASK_READYTORUN => Some g_readytorun
  | TSTATE_TASK_RUNNING => Some g_readytorun
  | TSTATE_TASK_INACTIVE => Some g_inactivetasks
  | TSTATE_WAIT_SEM => Some g_waitingforsemaphore
  | TSTATE_WAIT_SIG => Some g_waitingforsignal
  | TSTATE_WAIT_MQNOTEMPTY => Some g_waitingformqnotempty
  | TSTATE_WAIT_MQNOTFULL => Some g_waitingformqnotfull
  end.

Definition TLIST_ISPRIORITIZED (s : tstate_e) : bool :=
  match s with TSTATE_TASK_INVALID | TSTATE_TASK_INACTIVE | TSTATE_WAIT_SIG => false | _ => true end.

(** ** Access *)

Definition tget (s : sched) (t : Z) : res tcb_s :=
  if t =? 0 then Err (BadAddr 0) else match tcbs s !! t with Some c => Ok c | None => Err (BadAddr t) end.

Definition set_tcbs (s : sched) (m : gmap Z tcb_s) : sched := mk_sched m (links s) (lists s) (g_pidhash s).

Definition tupd (s : sched) (t : Z) (f : tcb_s -> tcb_s) : res sched :=
  c ← tget s t; Ok (set_tcbs s (<[t := f c]> (tcbs s))).

Definition set_list (s : sched) (l : tasklist) (d : dq_links) (q : dq_queue_s) : sched :=
  mk_sched (tcbs s) d (<[l := q]> (lists s)) (g_pidhash s).

(** The list of a state; the table has NULL for [TSTATE_TASK_INVALID]. *)
Definition tlist (st : tstate_e) : res tasklist :=
  match TLIST_HEAD st with Some l => Ok l | None => Err (BadAddr 0) end.

Definition trem (s : sched) (t : Z) (l : tasklist) : res sched :=
  '(d, q) ← dq_rem (links s) (lists s l) t; Ok (set_list s l d q).

Definition this_task (s : sched) : Z := dq_head (lists s g_readytorun).

(** ** Adding to a list *)

(** [for (next = list->head; next && prio <= next->sched_priority; next = next->flink)] *)
Fixpoint find_lower (fuel : nat) (s : sched) (next prio : Z) : res Z :=
  match fuel with
  | O => Err Diverge
  | S fuel =>
      if next =? 0 then Ok 0
      else
        n ← tget s next;
        if prio <=? sched_priority n then f ← load (dq_flink (links s)) next; find_lower fuel s f prio
        else Ok next
  end.

Definition sched_addprioritized (s : sched) (tcb : Z) (list : tasklist) : res (bool * sched) :=
  t ← tget s tcb;
  let q := lists s list in
  let d := links s in
  next ← find_lower (walk_fuel (dq_flink d)) s (dq_head q) (sched_priority t);
  if next =? 0 then
    let prev := dq_tail q in
    if prev =? 0 then
      d ← set_flink d tcb 0;
      d ← set_blink d tcb 0;
      Ok (true, set_list s list d (DQ tcb tcb))
    else
      d ← set_flink d tcb 0;
      d ← set_blink d tcb prev;
      d ← set_flink d prev tcb;
      Ok (false, set_list s list d (DQ (dq_head q) tcb))
  else
    prev ← load (dq_blink d) next;
    if prev =? 0 then
      d ← set_flink d tcb next;
      d ← set_blink d tcb 0;
      d ← set_blink d next tcb;
      Ok (true, set_list s list d (DQ tcb (dq_tail q)))
    else
      d ← set_flink d tcb next;
      d ← set_blink d tcb prev;
      d ← set_flink d prev tcb;
      d ← set_blink d next tcb;
      Ok (false, set_list s list d q).

(** The result tells whether the head of the list changed. *)
Definition sched_addreadytorun (s : sched) (btcb : Z) : res (bool * sched) :=
  r ← tget s (this_task s);
  b ← tget s btcb;
  if (0 <? lockcount r) && (sched_priority r <? sched_priority b) then
    '(_, s) ← sched_addprioritized s btcb g_pendingtasks;
    s ← tupd s btcb (set_state TSTATE_TASK_PENDING);
    Ok (false, s)
  else
    '(head, s) ← sched_addprioritized s btcb g_readytorun;
    if (head : bool) then
      s ← tupd s btcb (set_state TSTATE_TASK_RUNNING);
      next ← load (dq_flink (links s)) btcb;
      s ← tupd s next (set_state TSTATE_TASK_READYTORUN);
      Ok (true, s)
    else
      s ← tupd s btcb (set_state TSTATE_TASK_READYTORUN);
      Ok (false, s).

Definition sched_removereadytorun (s : sched) (rtcb : Z) : res (bool * sched) :=
  b ← load (dq_blink (links s)) rtcb;
  '(doswitch, s) ←
    (if b =? 0 then
       nxttcb ← load (dq_flink (links s)) rtcb;
       s ← tupd s nxttcb (set_state TSTATE_TASK_RUNNING);
       Ok (true, s)
     else Ok (false, s));
  s ← trem s rtcb g_readytorun;
  s ← tupd s rtcb (set_state TSTATE_TASK_INVALID);
  Ok (doswitch, s).

Definition sched_addblocked (s : sched) (btcb : Z) (st : tstate_e) : res sched :=
  tasklist ← tlist st;
  s ←
    (if TLIST_ISPRIORITIZED st then '(_, s) ← sched_addprioritized s btcb tasklist; Ok s
     else '(d, q) ← dq_addlast (links s) (lists s tasklist) btcb; Ok (set_list s tasklist d q));
  tupd s btcb (set_state st).

Definition sched_removeblocked (s : sched) (btcb : Z) : res sched :=
  t ← tget s btcb;
  l ← tlist (task_state t);
  s ← trem s btcb l;
  tupd s btcb (set_state TSTATE_TASK_INVALID).

(** ** Merging the pending tasks *)

(** [for (; rtcb && ptcb->sched_priority <= rtcb->sched_priority; rtcb = rtcb->flink)];
    [rtcb] is the place in the list found for the task before. *)
Fixpoint merge_loop (fuel : nat) (s : sched) (ptcb rtcb : Z) (ret : bool) : res (bool * sched) :=
  match fuel with
  | O => Err Diverge
  | S fuel =>
      if ptcb =? 0 then Ok (ret, s)
      else
        pnext ← load (dq_flink (links s)) ptcb;
        p ← tget s ptcb;
        rtcb ← find_lower (walk_fuel (dq_flink (links s))) s rtcb (sched_priority p);
        rprev ← load (dq_blink (links s)) rtcb;
        let q := lists s g_readytorun in
        if rprev =? 0 then
          d ← set_flink (links s) ptcb rtcb;
          d ← set_blink d ptcb 0;
          d ← set_blink d rtcb ptcb;
          let s := set_list s g_readytorun d (DQ ptcb (dq_tail q)) in
          s ← tupd s rtcb (set_state TSTATE_TASK_READYTORUN);
          s ← tupd s ptcb (set_state TSTATE_TASK_RUNNING);
          merge_loop fuel s pnext ptcb true
        else
          d ← set_flink (links s) ptcb rtcb;
          d ← set_blink d ptcb rprev;
          d ← set_flink d rprev ptcb;
          d ← set_blink d rtcb ptcb;
          let s := set_list s g_readytorun d q in
          s ← tupd s ptcb (set_state TSTATE_TASK_READYTORUN);
          merge_loop fuel s pnext ptcb ret
  end.

Definition sched_mergepending (s : sched) : res (bool * sched) :=
  '(ret, s) ← merge_loop (walk_fuel (dq_flink (links s))) s (dq_head (lists s g_pendingtasks)) (this_task s) false;
  Ok (ret, set_list s g_pendingtasks (links s) dq_init).

(** ** Blocking and unblocking (arch/arm/src/armv7-m)

    The result tells whether the processor is switched to another task. *)

Definition up_block_task (s : sched) (tcb : Z) (st : tstate_e) : res (bool * sched) :=
  '(switch_needed, s) ← sched_removereadytorun s tcb;
  s ← sched_addblocked s tcb st;
  if negb (dq_head (lists s g_pendingtasks) =? 0) then
    '(b, s) ← sched_mergepending s; Ok (switch_needed || b, s)
  else Ok (switch_needed, s).

Definition up_unblock_task (s : sched) (tcb : Z) : res (bool * sched) :=
  s ← sched_removeblocked s tcb;
  sched_addreadytorun s tcb.

Definition up_release_pending (s : sched) : res (bool * sched) := sched_mergepending s.

(** A call for a task that is not ready does nothing ([DEBUGPANIC] is compiled out). *)
Definition up_reprioritize_rtr (s : sched) (tcb priority : Z) : res (bool * sched) :=
  t ← tget s tcb;
  if negb (bool_decide (task_state t = TSTATE_TASK_READYTORUN) || bool_decide (task_state t = TSTATE_TASK_RUNNING))
     || (priority <? SCHED_PRIORITY_MIN) then Ok (false, s)
  else
    '(b1, s) ← sched_removereadytorun s tcb;
    s ← tupd s tcb (fun t => set_priority t (u8 priority));
    '(b2, s) ← sched_addreadytorun s tcb;
    let switch_needed := xorb b1 b2 in
    if switch_needed then
      s ← (if negb (dq_head (lists s g_pendingtasks) =? 0) then '(_, s) ← sched_mergepending s; Ok s else Ok s);
      Ok (true, s)
    else Ok (false, s).

(** ** Priorities *)

Definition nxsched_running_setpriority (s : sched) (tcb prio : Z) : res (bool * sched) :=
  nxttcb ← load (dq_flink (links s)) tcb;
  n ← tget s nxttcb;
  if prio <=? sched_priority n then up_reprioritize_rtr s tcb (u8 prio)
  else s ← tupd s tcb (fun t => set_priority t (u8 prio)); Ok (false, s).

(** Moving the task is the argument of an assertion that is compiled out, so that
    the priority is changed where the task is. *)
Definition nxsched_readytorun_setpriority (s : sched) (tcb prio : Z) : res (bool * sched) :=
  r ← tget s (this_task s);
  if sched_priority r <? prio then up_reprioritize_rtr s tcb (u8 prio)
  else s ← tupd s tcb (fun t => set_priority t (u8 prio)); Ok (false, s).

Definition nxsched_blocked_setpriority (s : sched) (tcb prio : Z) : res sched :=
  t ← tget s tcb;
  let st := task_state t in
  if TLIST_ISPRIORITIZED st then
    tasklist ← tlist st;
    s ← trem s tcb tasklist;
    s ← tupd s tcb (fun t => set_priority t (u8 prio));
    '(_, s) ← sched_addprioritized s tcb tasklist;
    Ok s
  else tupd s tcb (fun t => set_priority t (u8 prio)).

(** The status, and whether the processor is switched. *)
Definition nxsched_setpriority (s : sched) (tcb prio : Z) : res (Z * bool * sched) :=
  if (prio <? SCHED_PRIORITY_MIN) || (SCHED_PRIORITY_MAX <? prio) then Ok (- EINVAL, false, s)
  else
    t ← tget s tcb;
    '(sw, s) ←
      match task_state t with
      | TSTATE_TASK_RUNNING => nxsched_running_setpriority s tcb prio
      | TSTATE_TASK_READYTORUN => nxsched_readytorun_setpriority s tcb prio
      | _ => s ← nxsched_blocked_setpriority s tcb prio; Ok (false, s)
      end;
    Ok (OK, sw, s).

(** ** Preemption lock

    [irq] is [up_interrupt_context()]. *)

Definition sched_lock (s : sched) (irq : bool) : res sched :=
  let rtcb := this_task s in
  if negb (rtcb =? 0) && negb irq then tupd s rtcb (fun t => set_lockcount t (s16 (lockcount t + 1))) else Ok s.

(** Up to the release of the pending tasks; what follows it is in
    [sched_unlock_end]. *)
Definition sched_unlock (s : sched) (irq : bool) : res (bool * sched) :=
  let rtcb := this_task s in
  if negb (rtcb =? 0) && negb irq then
    t ← tget s rtcb;
    let n := if 0 <? lockcount t then s16 (lockcount t - 1) else lockcount t in
    s ← tupd s rtcb (fun t => set_lockcount t n);
    if n <=? 0 then
      s ← tupd s rtcb (fun t => set_lockcount t 0);
      if negb (dq_head (lists s g_pendingtasks) =? 0) then up_release_pending s else Ok (false, s)
    else Ok (false, s)
  else Ok (false, s).

(** When the task runs again: its slice is renewed if it is not the running task. *)
Definition sched_unlock_end (s : sched) (rtcb : Z) : res sched :=
  t ← tget s rtcb;
  if (Z.land (flags t) TCB_FLAG_POLICY_MASK =? TCB_FLAG_SCHED_RR) && (timeslice t =? 0) && negb (rtcb =? this_task s)
  then tupd s rtcb (fun t => set_timeslice t (MSEC2TICK CONFIG_RR_INTERVAL))
  else Ok s.

(** ** Time slices *)

(** [ticks] is the time that has passed; the result is the time left and whether
    the processor is switched. *)
Definition sched_roundrobin_process (s : sched) (tcb ticks : Z) (noswitches : bool) : res (Z * bool * sched) :=
  t ← tget s tcb;
  let decr := s32 (if u32 (timeslice t) <? ticks then u32 (timeslice t) else ticks) in
  let left := s32 (timeslice t - decr) in
  s ← tupd s tcb (fun t => set_timeslice t left);
  if (left <=? 0) && negb (0 <? lockcount t) then
    if noswitches then Ok (1, false, s)
    else
      let slice := MSEC2TICK CONFIG_RR_INTERVAL in
      s ← tupd s tcb (fun t => set_timeslice t slice);
      flink ← load (dq_flink (links s)) tcb;
      if flink =? 0 then Ok (slice, false, s)
      else
        n ← tget s flink;
        if sched_priority t <=? sched_priority n then
          '(sw, s) ← up_reprioritize_rtr s tcb (sched_priority t); Ok (slice, sw, s)
        else Ok (slice, false, s)
  else Ok (u32 left, false, s).

(** [nxsched_process_scheduler] on one processor. *)
Definition nxsched_cpu_scheduler (s : sched) : res (bool * sched) :=
  let rtcb := this_task s in
  t ← tget s rtcb;
  if Z.land (flags t) TCB_FLAG_POLICY_MASK =? TCB_FLAG_SCHED_RR then
    '(_, sw, s) ← sched_roundrobin_process s rtcb 1 false; Ok (sw, s)
  else Ok (false, s).

(** ** Finding a task *)

Definition PIDHASH (p : Z) : Z := Z.land p (CONFIG_MAX_TASKS - 1).

Definition sched_gettcb (s : sched) (p : Z) : res Z :=
  if 0 <=? p then
    '(tcb, hp) ← array_get (g_pidhash s) (Z.to_nat (PIDHASH p));
    Ok (if p =? hp then tcb else 0)
  else Ok 0.
