(* ===== verification/SchedRep.v ===== *)
(** * The task lists as lists

    [srep H T L s]: the scheduler [s] has the control blocks [T], the lists [L]
    and the table of identifiers [H].  Each operation on the lists is shown to
    compute what a function on [T] and [L] says; sorted insertion is
    [pinsert]. *)

From stdpp Require Import functions.
From S2P Require Import Prelude Bits Links Queue Sched.
Import Dq.
Local Open Scope Z_scope.
#[local] Hint Resolve is_node_flink is_node_blink : nx.

(** ** Priorities *)

Definition prio (T : gmap Z tcb_s) (x : Z) : Z := match T !! x with Some t => sched_priority t | None => 0 end.
Definition locks (T : gmap Z tcb_s) (x : Z) : Z := match T !! x with Some t => lockcount t | None => 0 end.

(** Insertion behind all tasks of the same or a higher priority. *)
Fixpoint pinsert (T : gmap Z tcb_s) (x : Z) (l : list Z) : list Z :=
  match l with
  | [] => [x]
  | y :: l => if prio T x <=? prio T y then y :: pinsert T x l else x :: y :: l
  end.

(** Does the insertion change the head? *)
Definition phead (T : gmap Z tcb_s) (x : Z) (l : list Z) : bool :=
  match l with [] => true | y :: _ => prio T y <? prio T x end.

Definition psorted (T : gmap Z tcb_s) (l : list Z) : Prop := StronglySorted (fun x y => prio T y <= prio T x) l.

(** The place of the insertion. *)
Definition pplace (T : gmap Z tcb_s) (p : Z) (l1 l2 : list Z) : Prop :=
  Forall (fun y => p <= prio T y) l1 /\ match l2 with [] => True | y :: _ => prio T y < p end.

Lemma pinsert_split T x l : exists l1 l2, l = l1 ++ l2 /\ pinsert T x l = l1 ++ x :: l2 /\ pplace T (prio T x) l1 l2.
Proof.
  induction l as [|y l IH]; simpl.
  - exists [], []. by repeat split.
  - destruct (prio T x <=? prio T y) eqn:E; b2p.
    + destruct IH as (l1 & l2 & -> & -> & H1 & H2). exists (y :: l1), l2. repeat split; auto.
    + exists [], (y :: l). by repeat split.
Qed.

Lemma pinsert_place T x l1 l2 : pplace T (prio T x) l1 l2 -> pinsert T x (l1 ++ l2) = l1 ++ x :: l2.
Proof.
  intros [H1 H2]. induction H1 as [|y l1 Hy _ IH]; simpl.
  - destruct l2 as [|y l2]; [done|]. simpl. by rewrite (proj2 (Z.leb_gt _ _) H2).
  - rewrite (proj2 (Z.leb_le _ _) Hy). by rewrite IH.
Qed.

Lemma phead_place T x l1 l2 : pplace T (prio T x) l1 l2 -> phead T x (l1 ++ l2) = bool_decide (l1 = []).
Proof.
  intros [H1 H2]. destruct l1 as [|y l1]; simpl.
  - destruct l2; [done|]. simpl. by apply Z.ltb_lt.
  - apply Forall_cons in H1 as [H1 _]. by apply Z.ltb_ge.
Qed.

Lemma pinsert_perm T x l : pinsert T x l ≡ₚ x :: l.
Proof. destruct (pinsert_split T x l) as (l1 & l2 & -> & -> & _). by rewrite Permutation_middle. Qed.

Lemma elem_of_pinsert T x y l : y ∈ pinsert T x l <-> y = x \/ y ∈ l.
Proof. by rewrite pinsert_perm, elem_of_cons. Qed.

Lemma pinsert_sorted T x l : psorted T l -> psorted T (pinsert T x l).
Proof.
  unfold psorted. induction 1 as [|y l Hl IH Hy]; simpl; [by repeat constructor|].
  destruct (prio T x <=? prio T y) eqn:E; b2p.
  - constructor; [done|]. apply Forall_forall. intros z [->|Hz]%elem_of_pinsert; [done|].
    by apply (proj1 (Forall_forall _ _) Hy).
  - repeat constructor; [done..|lia|]. eapply Forall_impl; [exact Hy|]. simpl. lia.
Qed.

Lemma psorted_app T l1 l2 : psorted T (l1 ++ l2) <->
  psorted T l1 /\ psorted T l2 /\ forall x y, x ∈ l1 -> y ∈ l2 -> prio T y <= prio T x.
Proof.
  unfold psorted. induction l1 as [|a l1 IH]; simpl.
  - split; [|tauto]. intros H. split; [constructor|]. split; [done|]. intros x y []%not_elem_of_nil.
  - split.
    + intros [H Ha]%StronglySorted_inv. apply IH in H as (H1 & H2 & H12). rewrite Forall_app, !Forall_forall in Ha.
      destruct Ha as [Ha1 Ha2]. split; [constructor; [done|by apply Forall_forall]|]. split; [done|].
      intros x y [->|Hx]%elem_of_cons Hy; [by apply Ha2|by apply H12].
    + intros ([H1 Ha]%StronglySorted_inv & H2 & H12). constructor.
      * apply IH. split; [done|]. split; [done|]. intros x y Hx Hy. apply H12; [by right|done].
      * apply Forall_app. split; [done|]. apply Forall_forall. intros y Hy. apply H12; [by left|done].
Qed.

Lemma psorted_remove T l1 x l2 : psorted T (l1 ++ x :: l2) -> psorted T (l1 ++ l2).
Proof.
  rewrite !psorted_app. intros (H1 & H2 & H12). split; [done|]. split.
  - by apply StronglySorted_inv in H2 as [H2 _].
  - intros y z Hy Hz. apply H12; [done|by right].
Qed.

(** Only priorities matter. *)
Lemma prio_alter T f x y : (forall t, sched_priority (f t) = sched_priority t) -> prio (alter f x T) y = prio T y.
Proof.
  intros Hf. unfold prio. rewrite lookup_alter. case_decide as E; [subst y|done]. destruct (T !! x); simpl; [apply Hf|done].
Qed.

Lemma prio_state T st x y : prio (alter (set_state st) x T) y = prio T y.
Proof. by apply prio_alter. Qed.

Lemma pinsert_ext T T' x l : (forall y, y = x \/ y ∈ l -> prio T' y = prio T y) -> pinsert T' x l = pinsert T x l.
Proof.
  induction l as [|y l IH]; simpl; intros H; [done|].
  rewrite !H by set_solver. case_match; [|done]. f_equal. apply IH. intros z Hz. apply H. set_solver.
Qed.

Lemma psorted_ext T T' l : (forall y, y ∈ l -> prio T' y = prio T y) -> psorted T l -> psorted T' l.
Proof.
  unfold psorted. induction l as [|x l IH]; intros H; [constructor|].
  intros [Hl Hx]%StronglySorted_inv. constructor.
  - apply IH; [|done]. intros y Hy. apply H. by right.
  - apply Forall_forall. intros y Hy. rewrite !H by set_solver. by apply (proj1 (Forall_forall _ _) Hx).
Qed.

(** ** Representation *)

Section Rep.
Context (H : list (Z * Z)).

Record srep (T : gmap Z tcb_s) (L : tasklist -> list Z) (s : sched) : Prop := {
  sr_hash : g_pidhash s = H;
  sr_tcbs : tcbs s = T;
  sr_q l : dq_rep (links s) (lists s l) (L l);
  sr_disj l1 l2 x : x ∈ L l1 -> x ∈ L l2 -> l1 = l2;
  sr_in l x : x ∈ L l -> is_Some (T !! x);
  sr_node x : is_Some (T !! x) -> is_node (links s) x
}.

Lemma srep_ext T L L' s : (forall l, L' l = L l) -> srep T L s -> srep T L' s.
Proof. intros E [R1 R2 R3 R4 R5 R6]. split; intros *; rewrite ?E; eauto. Qed.

Lemma tget_Ok T L s x t : srep T L s -> T !! x = Some t -> tget s x = Ok t.
Proof.
  intros R Hx. unfold tget. rewrite (sr_tcbs _ _ _ R), Hx.
  by rewrite (proj2 (Z.eqb_neq x 0) (proj1 (sr_node _ _ _ R x ltac:(eauto)))).
Qed.

Lemma tget_prio T L s x t : srep T L s -> T !! x = Some t -> sched_priority t = prio T x.
Proof. intros _ E. unfold prio. by rewrite E. Qed.

Lemma this_task_hd T L s : srep T L s -> this_task s = hd 0 (L g_readytorun).
Proof. intros R. apply (dqr_head _ _ _ (sr_q _ _ _ R _)). Qed.

(** A field of a control block is set. *)
Lemma tupd_spec T L s x f :
  srep T L s -> is_Some (T !! x) -> returns (tupd s x f) (srep (alter f x T) L).
Proof.
  intros R [t Hx]. unfold tupd. rewrite (tget_Ok _ _ _ _ _ R Hx). simpl. apply returns_Ok.
  pose proof R as [R1 R2 R3 R4 R5 R6]. rewrite R2.
  assert (<[x := f t]> T = alter f x T) as ->.
  { apply map_eq. intros y. rewrite lookup_alter. destruct (decide (x = y)) as [->|]; [|by rewrite lookup_insert_ne].
    by rewrite lookup_insert_eq, Hx. }
  split; simpl; try done.
  - intros l y Hy. rewrite lookup_alter. case_decide as E; [subst y; rewrite Hx; eauto|by apply (R5 l)].
  - intros y Hy. apply R6. rewrite lookup_alter in Hy. case_decide; [subst y; eauto|done].
Qed.

(** The links of one list are changed; [x] is the task put in or taken out. *)
Lemma set_list_spec T L s l x d q l' :
  srep T L s -> is_Some (T !! x) -> (forall k, k <> l -> x ∉ L k) ->
  dq_rep d q l' -> dframe (x :: L l) (links s) d -> (forall y, y ∈ x :: L l -> is_node d y) ->
  (forall y, y ∈ l' -> y ∈ x :: L l) ->
  srep T (<[l := l']> L) (set_list s l d q).
Proof.
  intros R Hx Hno Hd [Hf Hb] Hn Hin. pose proof R as [R1 R2 R3 R4 R5 R6].
  assert (forall k y, k <> l -> y ∈ L k -> y ∉ x :: L l) as Hsep.
  { intros k y Hk Hy [->|Hy']%elem_of_cons; [by apply (Hno k)|]. by apply Hk, (R4 k l y). }
  split; simpl; try done.
  - intros k. destruct (decide (l = k)) as [<-|Hk]; [by rewrite !fn_lookup_insert|].
    rewrite !fn_lookup_insert_ne by done. destruct (R3 k) as [E1 E2 E3 E4 E5]. split; try done.
    eapply dlinks_ext; [|exact E3]. intros y Hy. split; [apply Hf|apply Hb]; by apply (Hsep k).
  - intros k1 k2 y. destruct (decide (l = k1)) as [<-|H1]; destruct (decide (l = k2)) as [<-|H2];
      rewrite ?fn_lookup_insert, ?fn_lookup_insert_ne by done; [done|..].
    + intros Hy1%Hin Hy2. by destruct (Hsep k2 y).
    + intros Hy1 Hy2%Hin. by destruct (Hsep k1 y).
    + apply R4.
  - intros k y. destruct (decide (l = k)) as [<-|Hk]; rewrite ?fn_lookup_insert, ?fn_lookup_insert_ne by done; [|apply R5].
    intros Hy%Hin. apply elem_of_cons in Hy as [->|Hy]; [done|by apply (R5 l)].
  - intros y Hy. destruct (decide (y ∈ x :: L l)) as [Hm|Hm]; [by apply Hn|].
    destruct (R6 y Hy) as (? & ? & ?). split; [done|]. by rewrite Hf, Hb.
Qed.

Lemma not_listed_insert (L : tasklist -> list Z) l l' (x : Z) : (forall k, x ∉ L k) -> x ∉ l' -> forall k, x ∉ (<[l := l']> L) k.
Proof.
  intros HL Hl k. destruct (decide (l = k)) as [<-|]; [by rewrite fn_lookup_insert|by rewrite fn_lookup_insert_ne].
Qed.

(** Taking a task out of its list. *)
Lemma trem_spec T L s l l1 x l2 :
  srep T L s -> L l = l1 ++ x :: l2 -> returns (trem s x l) (srep T (<[l := l1 ++ l2]> L)).
Proof.
  intros R E. unfold trem. pose proof (sr_q _ _ _ R l) as Hq. rewrite E in Hq.
  destruct (dq_rem_spec _ _ _ _ _ Hq) as (d & q & -> & Hd & Hf & F1 & F2). simpl. apply returns_Ok.
  assert (x ∈ L l) as Hx by (rewrite E; set_solver).
  apply (set_list_spec T L s l x); try done.
  - by apply (sr_in _ _ _ R l).
  - intros k Hk Hxk. by apply Hk, (sr_disj _ _ _ R k l x).
  - rewrite E. destruct Hf as [Hf Hb]. split; intros y Hy; [apply Hf|apply Hb]; set_solver.
  - intros y Hy. destruct (decide (y = x)) as [->|Hne].
    + split; [|eauto]. by apply (dq_rep_node _ _ _ _ Hq); set_solver.
    + apply (dq_rep_node _ _ _ _ Hd). rewrite E in Hy. set_solver.
  - intros y Hy. rewrite E. set_solver.
Qed.

(** The walk to the place of an insertion, from somewhere in front of it. *)
Lemma find_lower_spec T L s l l0 l1 l2 p fuel :
  srep T L s -> L l = l0 ++ l1 ++ l2 -> pplace T p l1 l2 -> (length l1 < fuel)%nat ->
  find_lower fuel s (hd 0 (l1 ++ l2)) p = Ok (hd 0 l2).
Proof.
  intros R. revert l0 fuel. induction l1 as [|y l1 IH]; intros l0 fuel E [P1 P2] Hf; destruct fuel as [|fuel]; try (simpl in Hf; lia); simpl.
  - destruct l2 as [|y l2]; [done|]. simpl in *.
    destruct (sr_in _ _ _ R l y ltac:(rewrite E; set_solver)) as [t Ht].
    rewrite (proj2 (Z.eqb_neq y 0) (proj1 (sr_node _ _ _ R y ltac:(eauto)))), (tget_Ok _ _ _ _ _ R Ht). simpl.
    rewrite (tget_prio _ _ _ _ _ R Ht). by rewrite (proj2 (Z.leb_gt _ _) P2).
  - apply Forall_cons in P1 as [P1 P1'].
    destruct (sr_in _ _ _ R l y ltac:(rewrite E; set_solver)) as [t Ht].
    pose proof (sr_node _ _ _ R y ltac:(eauto)) as Hn.
    rewrite (proj2 (Z.eqb_neq y 0) (proj1 Hn)), (tget_Ok _ _ _ _ _ R Ht). simpl.
    rewrite (tget_prio _ _ _ _ _ R Ht), (proj2 (Z.leb_le _ _) P1).
    pose proof (dqr_links _ _ _ (sr_q _ _ _ R l)) as Hl. rewrite E in Hl. simpl in Hl.
    destruct (dlinks_mid _ _ _ _ _ _ _ Hl) as [EF _]. rewrite (load_Ok _ _ _ (proj1 Hn) EF). simpl.
    apply (IH (l0 ++ [y])); [by rewrite <- app_assoc|done|simpl in Hf; lia].
Qed.

Lemma srep_fuel T L s l l0 l1 l2 :
  srep T L s -> L l = l0 ++ l1 ++ l2 -> (length l1 < walk_fuel (dq_flink (links s)))%nat.
Proof.
  intros R E. pose proof (dq_rep_length _ _ _ (sr_q _ _ _ R l)) as Hl. rewrite E, !length_app in Hl. lia.
Qed.

(** The links after [x] has been put in front of [y]. *)
Definition link_before (d : dq_links) (x y prev : Z) : dq_links :=
  DL (if prev =? 0 then <[x := y]> (dq_flink d) else <[prev := x]> (<[x := y]> (dq_flink d)))
     (<[y := x]> (<[x := prev]> (dq_blink d))).

Lemma link_before_rep d q l1 x y l2 :
  dq_rep d q (l1 ++ y :: l2) -> is_node d x -> x ∉ l1 ++ y :: l2 ->
  let q' := DQ (hd x l1) (dq_tail q) in
  dq_rep (link_before d x y (lastd 0 l1)) q' (l1 ++ x :: y :: l2) /\
  dframe (x :: l1 ++ y :: l2) d (link_before d x y (lastd 0 l1)).
Proof.
  intros Hd Hx Hnl q'. pose proof (dq_rep_node _ _ _ y Hd ltac:(set_solver)) as Hy. unfold link_before.
  destruct (list_snoc_inv l1) as [->|(l & p & ->)]; simpl.
  - split; [|dframes]. apply (dq_rep_insert d _ q _ []); [done|apply Hx|done|links|links|done|intros _; links| | |done|].
    + dframes.
    + dframes.
    + simpl. rewrite (dqr_tail _ _ _ Hd). simpl. by rewrite !lastd_cons.
  - rewrite lastd_snoc. pose proof (dq_rep_node _ _ _ p Hd ltac:(set_solver)) as Hp.
    rewrite (proj2 (Z.eqb_neq p 0) (proj1 Hp)).
    assert (x <> p) by set_solver. assert (x <> y) by set_solver.
    split; [|dframes]. apply (dq_rep_insert d _ q _ (l ++ [p])); [done|apply Hx|done|links|links|intros _|intros _; links| | | |].
    + by rewrite lastd_snoc.
    + rewrite lastd_snoc. links.
    + rewrite lastd_snoc, decide_False by (by destruct l). dframes.
    + dframes.
    + done.
    + simpl. by rewrite (dqr_tail _ _ _ Hd), lastd_app, !lastd_cons.
Qed.

Lemma link_before_node d x y prev z : is_node d z -> is_node (link_before d x y prev) z.
Proof. intros (? & ? & ?). split; [done|]. simpl. case_match; eauto 8 with nx. Qed.

Lemma sched_addprioritized_spec T L s x l :
  srep T L s -> is_Some (T !! x) -> (forall k, x ∉ L k) ->
  returns (sched_addprioritized s x l) (fun '(ret, s') =>
    ret = phead T x (L l) /\ srep T (<[l := pinsert T x (L l)]> L) s').
Proof.
  intros R [t Hx] Hno. pose proof (sr_q _ _ _ R l) as Hq. pose proof (sr_node _ _ _ R x ltac:(eauto)) as Hn.
  destruct (pinsert_split T x (L l)) as (l1 & l2 & E & -> & P).
  unfold sched_addprioritized. rewrite (tget_Ok _ _ _ _ _ R Hx), bind_Ok. cbv zeta.
  rewrite (dqr_head _ _ _ Hq), (tget_prio _ _ _ _ _ R Hx), E.
  rewrite (find_lower_spec T L s l [] l1 l2 _ _ R E P) by (by apply (srep_fuel T L s l [] l1 l2)). simpl.
  rewrite (phead_place _ _ _ _ P). specialize (Hno l) as Hl. rewrite E in Hq, Hl.
  destruct l2 as [|y l2]; simpl.
  - rewrite app_nil_r in *. rewrite (dq_rep_tail _ _ _ Hq). case_bool_decide as El.
    + rewrite El in *. clear El. drun. apply returns_Ok. split; [done|].
      apply (set_list_spec T L s l x); try done; [eauto|..]; rewrite ?E.
      * apply (dq_rep_insert (links s) _ (lists s l) _ [] x []); try done; [apply Hn|links|links|dframes|dframes].
      * dframes.
      * intros y [->|[]%not_elem_of_nil]%elem_of_cons. eauto with nx.
      * set_solver.
    + pose proof (dq_rep_node _ _ _ (lastd 0 l1) Hq (lastd_elem 0 l1 El)) as Hp.
      rewrite (dqr_tail _ _ _ Hq). drun. apply returns_Ok. split; [done|].
      assert (x <> lastd 0 l1) by (intros ->; by apply Hl, lastd_elem).
      apply (set_list_spec T L s l x); try done; [eauto|..]; rewrite ?E.
      * rewrite <- (app_nil_r l1) in Hq, Hl.
        apply (dq_rep_insert (links s) _ (lists s l) _ l1 x []); try done; [apply Hn|links|links|intros _; links| | |].
        -- rewrite decide_False by done. dframes.
        -- dframes.
        -- by destruct l1.
      * pose proof (lastd_elem 0 l1 El). dframes.
      * intros y Hy. apply is_node_flink, is_node_blink, is_node_flink. apply elem_of_cons in Hy as [->|Hy]; [done|]. by apply (dq_rep_node _ _ _ _ Hq).
      * set_solver.
  - pose proof (dq_rep_node _ _ _ y Hq ltac:(set_solver)) as Hy.
    destruct (dlinks_mid _ _ _ _ _ _ _ (dqr_links _ _ _ Hq)) as [_ EB].
    rewrite (proj2 (Z.eqb_neq y 0) (proj1 Hy)), (load_Ok _ _ _ (proj1 Hy) EB). simpl.
    destruct (link_before_rep _ _ _ _ _ _ Hq Hn Hl) as [Hr Hf].
    assert (forall (ret : bool) q, q = DQ (hd x l1) (dq_tail (lists s l)) ->
      returns (Ok (ret, set_list s l (link_before (links s) x y (lastd 0 l1)) q)) (fun '((r, s') : bool * sched) =>
        r = ret /\ srep T (<[l:=l1 ++ x :: y :: l2]> L) s')) as Hfin.
    { intros ret q ->. apply returns_Ok. split; [done|]. apply (set_list_spec T L s l x); [done|eauto|done|done|by rewrite E|..].
      - intros z Hz. apply link_before_node. apply elem_of_cons in Hz as [->|Hz]; [done|]. apply (dq_rep_node _ _ _ _ Hq). by rewrite <- E.
      - rewrite E. set_solver. }
    destruct (list_snoc_inv l1) as [->|(l' & p & ->)].
    + simpl. drun. by apply (Hfin true).
    + rewrite lastd_snoc in *. pose proof (dq_rep_node _ _ _ p Hq ltac:(set_solver)) as Hp.
      rewrite (proj2 (Z.eqb_neq p 0) (proj1 Hp)) in *. drun. rewrite bool_decide_eq_false_2 by (by destruct l').
      pose proof (Hfin false (lists s l)) as Hfin'. unfold link_before in Hfin'. rewrite (proj2 (Z.eqb_neq p 0) (proj1 Hp)) in Hfin'.
      apply Hfin'. destruct (lists s l) as [h tl] eqn:Eq. simpl. f_equal.
      pose proof (dqr_head _ _ _ Hq) as Hh. simpl in Hh. rewrite Hh. by destruct l'.
Qed.
End Rep.
