(* ===== verification/SchedInv.v ===== *)
(** * The invariant of the scheduler

    Every task is in exactly the list of its state, the prioritized lists are in
    descending order of priority, the head of the ready list is the running
    task, and its last element is the idle task.  The lemmas show that moving
    one task from list to list, with the state set accordingly, keeps it. *)

From stdpp Require Import functions.
From S2P Require Import Prelude Links Queue Sched SchedRep.
Local Open Scope Z_scope.

Definition cur (L : tasklist -> list Z) : Z := hd 0 (L g_readytorun).
Definition tstate (T : gmap Z tcb_s) (x : Z) : tstate_e := match T !! x with Some t => task_state t | None => TSTATE_TASK_INVALID end.

(** The state of a member of a list. *)
Definition state_of (L : tasklist -> list Z) (l : tasklist) (x : Z) : tstate_e :=
  match l with
  | g_readytorun => if decide (x = cur L) then TSTATE_TASK_RUNNING else TSTATE_TASK_READYTORUN
  | g_pendingtasks => TSTATE_TASK_PENDING
  | g_waitingforsemaphore => TSTATE_WAIT_SEM
  | g_waitingforsignal => TSTATE_WAIT_SIG
  | g_waitingformqnotempty => TSTATE_WAIT_MQNOTEMPTY
  | g_waitingformqnotfull => TSTATE_WAIT_MQNOTFULL
  | g_inactivetasks => TSTATE_TASK_INACTIVE
  end.

Definition prioritized (l : tasklist) : bool := match l with g_waitingforsignal | g_inactivetasks => false | _ => true end.

Lemma state_of_list L l x : TLIST_HEAD (state_of L l x) = Some l.
Proof. destruct l; simpl; try done. by case_decide. Qed.

Lemma state_of_prio L l x : TLIST_ISPRIORITIZED (state_of L l x) = prioritized l.
Proof. destruct l; simpl; try done. by case_decide. Qed.

(** All fields but the state. *)
Definition keeps (T T' : gmap Z tcb_s) : Prop := set_state TSTATE_TASK_INVALID <$> T' = set_state TSTATE_TASK_INVALID <$> T.

#[export] Instance keeps_equiv : Equivalence keeps.
Proof. unfold keeps. split; [done|by intros ? ?|]. intros ? ? ? -> ->. done. Qed.

Lemma keeps_alter T x st : keeps T (alter (set_state st) x T).
Proof.
  apply map_eq. intros y. rewrite !lookup_fmap, lookup_alter. case_decide; [subst y|done]. by destruct (T !! x).
Qed.

Lemma keeps_trans_alter T T' x st : keeps T T' -> keeps T (alter (set_state st) x T').
Proof. intros K. etrans; [exact K|]. apply keeps_alter. Qed.
#[export] Hint Resolve keeps_alter keeps_trans_alter : nx.

Lemma keeps_lookup T T' x t : keeps T T' -> T !! x = Some t -> exists t', T' !! x = Some t' /\ set_state TSTATE_TASK_INVALID t' = set_state TSTATE_TASK_INVALID t.
Proof.
  intros K E. apply (f_equal (lookup x)) in K. rewrite !lookup_fmap, E in K. destruct (T' !! x) as [t'|]; [|done].
  exists t'. split; [done|]. by apply (inj Some) in K.
Qed.

(** A field other than the state. *)
Lemma keeps_field {B} (f : tcb_s -> B) (b : B) T T' x :
  (forall st t, f (set_state st t) = f t) -> keeps T T' ->
  match T' !! x with Some t => f t | None => b end = match T !! x with Some t => f t | None => b end.
Proof.
  intros Hf K. apply (f_equal (lookup x)) in K. rewrite !lookup_fmap in K.
  destruct (T' !! x) as [t'|], (T !! x) as [t|]; try done. apply (inj Some) in K.
  by rewrite <- (Hf TSTATE_TASK_INVALID t'), K, Hf.
Qed.

Lemma keeps_prio T T' x : keeps T T' -> prio T' x = prio T x.
Proof. by apply keeps_field. Qed.

Lemma keeps_locks T T' x : keeps T T' -> locks T' x = locks T x.
Proof. by apply keeps_field. Qed.

Lemma keeps_is_Some T T' x : keeps T T' -> is_Some (T !! x) -> is_Some (T' !! x).
Proof. intros K [t E]. destruct (keeps_lookup _ _ _ _ K E) as (t' & ? & _). eauto. Qed.

Lemma keeps_dom T T' : keeps T T' -> dom T' = dom T.
Proof. intros K. apply (f_equal dom) in K. by rewrite !dom_fmap_L in K. Qed.

Lemma tstate_alter T st x y : is_Some (T !! x) -> tstate (alter (set_state st) x T) y = if decide (y = x) then st else tstate T y.
Proof.
  intros [t E]. unfold tstate. rewrite lookup_alter. destruct (decide (x = y)) as [->|]; [|by rewrite decide_False].
  rewrite decide_True, E by done. done.
Qed.

Lemma alter_is_Some (T : gmap Z tcb_s) f x y : is_Some (T !! y) -> is_Some (alter f x T !! y).
Proof. intros [t E]. rewrite lookup_alter. case_decide; [subst y; rewrite E|]; eauto. Qed.
#[export] Hint Resolve alter_is_Some : nx.

Section Inv.
Context (idle : Z).

Record wf (T : gmap Z tcb_s) (L : tasklist -> list Z) : Prop := {
  wf_nodup l : NoDup (L l);
  wf_disj l1 l2 x : x ∈ L l1 -> x ∈ L l2 -> l1 = l2;
  wf_in l x : x ∈ L l -> is_Some (T !! x);
  wf_state l x : x ∈ L l -> tstate T x = state_of L l x;
  wf_all x : tstate T x <> TSTATE_TASK_INVALID -> exists l, x ∈ L l;
  wf_sorted l : prioritized l = true -> psorted T (L l);
  wf_last : last (L g_readytorun) = Some idle;
  wf_idle : prio T idle = 0;
  wf_prio l x : x ∈ L l -> x <> idle -> 1 <= prio T x <= 255;
  wf_locks x : 0 <= locks T x <= 32767
}.

(** Tasks wait for the preemption lock only if the running task holds it. *)
Definition lock_ok (T : gmap Z tcb_s) (L : tasklist -> list Z) : Prop := L g_pendingtasks <> [] -> 0 < locks T (cur L).

Lemma wf_invalid T L x : wf T L -> tstate T x = TSTATE_TASK_INVALID -> forall l, x ∉ L l.
Proof.
  intros W E l Hx. pose proof (state_of_list L l x) as Hl. by rewrite <- (wf_state _ _ W l x Hx), E in Hl.
Qed.

Lemma wf_cur T L : wf T L -> exists rest, L g_readytorun = cur L :: rest.
Proof.
  intros W. pose proof (wf_last _ _ W) as Hl. unfold cur. destruct (L g_readytorun) as [|x r]; [done|]. by exists r.
Qed.

Lemma wf_cur_in T L : wf T L -> cur L ∈ L g_readytorun.
Proof. intros W. destruct (wf_cur _ _ W) as [r ->]. by left. Qed.

Lemma wf_idle_in T L : wf T L -> idle ∈ L g_readytorun.
Proof. intros W. apply last_Some_elem_of, W. Qed.

(** The running task has the highest priority of the ready tasks. *)
Lemma wf_highest T L x : wf T L -> x ∈ L g_readytorun -> prio T x <= prio T (cur L).
Proof.
  intros W Hx. destruct (wf_cur _ _ W) as [r E]. pose proof (wf_sorted _ _ W g_readytorun eq_refl) as Hs.
  rewrite E in Hx, Hs. apply elem_of_cons in Hx as [->|Hx]; [done|].
  apply StronglySorted_inv in Hs as [_ Hs]. by apply (proj1 (Forall_forall _ _) Hs).
Qed.

(** *** Taking a task out *)

Lemma cur_insert L l l' : l <> g_readytorun -> cur (<[l := l']> L) = cur L.
Proof. intros Hl. unfold cur. by rewrite fn_lookup_insert_ne. Qed.

Lemma state_of_ext L L' l x : cur L' = cur L -> state_of L' l x = state_of L l x.
Proof. intros E. destruct l; simpl; try done. by rewrite E. Qed.

(** Cases of a list after an update. *)
Ltac upd k l := destruct (decide (k = l)) as [<-|]; [rewrite !fn_lookup_insert in *|rewrite !fn_lookup_insert_ne in * by done].

(** What the removal of [x] from list [l] needs beyond the states. *)
Lemma wf_take T L l l1 x l2 T' :
  wf T L -> L l = l1 ++ x :: l2 -> x <> idle -> keeps T T' ->
  (forall k y, y ∈ (<[l := l1 ++ l2]> L) k -> tstate T' y = state_of (<[l := l1 ++ l2]> L) k y) ->
  (forall y, y <> x -> tstate T' y <> TSTATE_TASK_INVALID -> tstate T y <> TSTATE_TASK_INVALID) ->
  tstate T' x = TSTATE_TASK_INVALID ->
  wf T' (<[l := l1 ++ l2]> L).
Proof.
  intros W E Hi K Hst Hinv Hx. pose proof (wf_nodup _ _ W l) as Hnd. rewrite E in Hnd.
  assert (forall k y, y ∈ (<[l := l1 ++ l2]> L) k -> y ∈ L k) as Hsub.
  { intros k y. upd l k; [|done]. rewrite E. set_solver. }
  split.
  - intros k. upd l k; [|apply W]. apply NoDup_app in Hnd as (? & ? & [? ?]%NoDup_cons). apply NoDup_app. set_solver.
  - intros k1 k2 y H1%Hsub H2%Hsub. by apply (wf_disj _ _ W _ _ y).
  - intros k y Hy%Hsub. apply (keeps_is_Some _ _ _ K). by apply (wf_in _ _ W k).
  - done.
  - intros y Hy. destruct (decide (y = x)) as [->|Hne]; [done|].
    destruct (wf_all _ _ W y (Hinv y Hne Hy)) as [k Hk]. exists k. upd l k; [|done]. rewrite E in Hk. set_solver.
  - intros k Hp. apply (psorted_ext T); [intros; by apply keeps_prio|]. pose proof (wf_sorted _ _ W k Hp) as Hs.
    upd l k; [|done]. rewrite E in Hs. by apply psorted_remove in Hs.
  - destruct (decide (l = g_readytorun)) as [->|]; [rewrite fn_lookup_insert|rewrite fn_lookup_insert_ne by done; apply W]. pose proof (wf_last _ _ W) as Hl. rewrite E in Hl.
    destruct (list_snoc_inv l2) as [->|(l' & z & ->)].
    + rewrite last_snoc in Hl. by injection Hl as <-.
    + rewrite app_assoc, last_snoc. by rewrite app_comm_cons, app_assoc, last_snoc in Hl.
  - rewrite (keeps_prio _ _ _ K). apply W.
  - intros k y Hy%Hsub Hne. rewrite (keeps_prio _ _ _ K). by apply (wf_prio _ _ W k).
  - intros y. rewrite (keeps_locks _ _ _ K). apply W.
Qed.

Lemma wf_remove T L l l1 x l2 :
  wf T L -> L l = l1 ++ x :: l2 -> x <> idle -> (l = g_readytorun -> l1 <> []) ->
  wf (alter (set_state TSTATE_TASK_INVALID) x T) (<[l := l1 ++ l2]> L).
Proof.
  intros W E Hi Hh. assert (x ∈ L l) as Hx by (rewrite E; set_solver).
  pose proof (wf_in _ _ W l x Hx) as Hs. pose proof (wf_nodup _ _ W l) as Hnd. rewrite E in Hnd.
  assert (cur (<[l := l1 ++ l2]> L) = cur L) as Hc.
  { destruct (decide (l = g_readytorun)) as [->|]; [|by apply cur_insert].
    unfold cur. rewrite fn_lookup_insert, E. specialize (Hh eq_refl). by destruct l1. }
  apply (wf_take T L l l1 x l2); try done.
  - apply keeps_alter.
  - intros k y Hy. rewrite (state_of_ext L) by done. rewrite tstate_alter by done.
    assert (y ∈ L k /\ y <> x) as [Hyk Hne].
    { upd l k.
      - rewrite E. apply NoDup_app in Hnd as (? & ? & [? ?]%NoDup_cons). set_solver.
      - split; [done|]. intros ->. by destruct (wf_disj _ _ W l k x). }
    rewrite decide_False by done. by apply (wf_state _ _ W).
  - intros y Hne. by rewrite tstate_alter, decide_False.
  - by rewrite tstate_alter, decide_True.
Qed.

Lemma wf_remove_head T L x y l2 :
  wf T L -> L g_readytorun = x :: y :: l2 -> x <> idle ->
  wf (alter (set_state TSTATE_TASK_INVALID) x (alter (set_state TSTATE_TASK_RUNNING) y T)) (<[g_readytorun := y :: l2]> L).
Proof.
  intros W E Hi. pose proof (wf_nodup _ _ W g_readytorun) as Hnd. rewrite E in Hnd.
  apply NoDup_cons in Hnd as [Hxy [Hy Hnd]%NoDup_cons].
  assert (is_Some (T !! x)) as Hsx by (apply (wf_in _ _ W g_readytorun); rewrite E; set_solver).
  assert (is_Some (T !! y)) as Hsy by (apply (wf_in _ _ W g_readytorun); rewrite E; set_solver).
  apply (wf_take T L g_readytorun [] x (y :: l2)); try done.
  - eauto with nx.
  - intros k z Hz. rewrite !tstate_alter by eauto with nx.
    assert (z ∈ L k /\ z <> x) as [Hzk Hne].
    { upd g_readytorun k; simpl in *.
      - rewrite E. set_solver.
      - split; [done|]. intros ->. destruct (wf_disj _ _ W g_readytorun k x); [rewrite E; set_solver|done..]. }
    rewrite decide_False by done. destruct (decide (z = y)) as [->|Hzy].
    + destruct (wf_disj _ _ W g_readytorun k y); [rewrite E; set_solver|done|]. simpl.
      unfold cur. rewrite fn_lookup_insert. simpl. by rewrite decide_True.
    + rewrite (wf_state _ _ W k z Hzk). destruct k; simpl; try done.
      unfold cur. rewrite fn_lookup_insert, E. simpl. by rewrite !decide_False.
  - intros z Hne. rewrite !tstate_alter by eauto with nx. rewrite decide_False by done. case_decide as Hz; [subst z|done].
    intros _. rewrite (wf_state _ _ W g_readytorun y) by (rewrite E; set_solver). simpl. by case_decide.
  - by rewrite tstate_alter, decide_True by eauto with nx.
Qed.

(** *** Putting a task in *)

Lemma wf_give T L l x l' T' :
  wf T L -> is_Some (T !! x) -> tstate T x = TSTATE_TASK_INVALID -> 1 <= prio T x <= 255 -> l' ≡ₚ x :: L l ->
  (prioritized l = true -> psorted T l') -> (l = g_readytorun -> last l' = Some idle) -> keeps T T' ->
  (forall k y, y ∈ (<[l := l']> L) k -> tstate T' y = state_of (<[l := l']> L) k y) ->
  (forall y, y <> x -> tstate T' y <> TSTATE_TASK_INVALID -> tstate T y <> TSTATE_TASK_INVALID) ->
  wf T' (<[l := l']> L).
Proof.
  intros W Hs Hx Hpx Hp Hso Hl K Hst Hinv. pose proof (wf_invalid _ _ _ W Hx) as Hno.
  assert (forall k y, y ∈ (<[l := l']> L) k -> (k = l /\ y = x) \/ y ∈ L k) as Hsub.
  { intros k y. upd l k; [|by right]. rewrite Hp, elem_of_cons. naive_solver. }
  split.
  - intros k. upd l k; [|apply W]. rewrite Hp. apply NoDup_cons. split; [done|apply W].
  - intros k1 k2 y [[-> ->]|H1]%Hsub [[-> H2]|H2]%Hsub; subst; [done|by apply Hno in H2|by apply Hno in H1|by apply (wf_disj _ _ W _ _ y)].
  - intros k y [[-> ->]|Hy]%Hsub; apply (keeps_is_Some _ _ _ K); [done|]. by apply (wf_in _ _ W k).
  - done.
  - intros y Hy. destruct (decide (y = x)) as [->|Hne].
    + exists l. rewrite fn_lookup_insert, Hp. by left.
    + destruct (wf_all _ _ W y (Hinv y Hne Hy)) as [k Hk]. exists k. upd l k; [|done]. rewrite Hp. by right.
  - intros k Hk. apply (psorted_ext T); [intros; by apply keeps_prio|]. upd l k; [by apply Hso|by apply W].
  - destruct (decide (l = g_readytorun)) as [->|]; [rewrite fn_lookup_insert; by apply Hl|rewrite fn_lookup_insert_ne by done; apply W].
  - rewrite (keeps_prio _ _ _ K). apply W.
  - intros k y [[-> ->]|Hy]%Hsub Hne; rewrite (keeps_prio _ _ _ K); [done|]. by apply (wf_prio _ _ W k).
  - intros y. rewrite (keeps_locks _ _ _ K). apply W.
Qed.

(** Into a list other than that of the ready tasks, or behind the running task. *)
Lemma wf_insert T L l x l' :
  wf T L -> is_Some (T !! x) -> tstate T x = TSTATE_TASK_INVALID -> 1 <= prio T x <= 255 -> l' ≡ₚ x :: L l ->
  (prioritized l = true -> psorted T l') -> (l = g_readytorun -> last l' = Some idle /\ hd 0 l' = cur L) ->
  wf (alter (set_state (state_of L l x)) x T) (<[l := l']> L).
Proof.
  intros W Hs Hx Hpx Hp Hso Hl. pose proof (wf_invalid _ _ _ W Hx) as Hno.
  assert (cur (<[l := l']> L) = cur L) as Hc.
  { destruct (decide (l = g_readytorun)) as [->|]; [|by apply cur_insert].
    unfold cur at 1. rewrite fn_lookup_insert. by apply Hl. }
  apply (wf_give T L l x l'); try done.
  - intros ->. by apply Hl.
  - apply keeps_alter.
  - intros k y Hy. rewrite (state_of_ext L (<[l := l']> L)) by done. rewrite tstate_alter by done. case_decide as E; [subst y|].
    + upd l k; [done|]. by apply Hno in Hy.
    + apply (wf_state _ _ W). upd l k; [|done]. rewrite Hp in Hy. set_solver.
  - intros y Hne. by rewrite tstate_alter, decide_False.
Qed.

Lemma wf_insert_head T L x :
  wf T L -> is_Some (T !! x) -> tstate T x = TSTATE_TASK_INVALID -> 1 <= prio T x <= 255 -> prio T (cur L) < prio T x ->
  wf (alter (set_state TSTATE_TASK_READYTORUN) (cur L) (alter (set_state TSTATE_TASK_RUNNING) x T))
     (<[g_readytorun := x :: L g_readytorun]> L).
Proof.
  intros W Hs Hx Hpx Hp. pose proof (wf_invalid _ _ _ W Hx) as Hno. pose proof (wf_cur_in _ _ W) as Hcin.
  pose proof (wf_in _ _ W _ _ Hcin) as Hcs. assert (cur L <> x) as Hcx by (intros <-; by apply (Hno g_readytorun)).
  assert (forall y, tstate (alter (set_state TSTATE_TASK_READYTORUN) (cur L) (alter (set_state TSTATE_TASK_RUNNING) x T)) y =
    if decide (y = cur L) then TSTATE_TASK_READYTORUN else if decide (y = x) then TSTATE_TASK_RUNNING else tstate T y) as Est.
  { intros y. by rewrite !tstate_alter by eauto with nx. }
  assert (cur (<[g_readytorun := x :: L g_readytorun]> L) = x) as Hc by (unfold cur; by rewrite fn_lookup_insert).
  apply (wf_give T L g_readytorun x); try done.
  - intros _. constructor; [by apply W|]. apply Forall_forall. intros y Hy. pose proof (wf_highest _ _ _ W Hy). lia.
  - intros _. pose proof (wf_last _ _ W) as Hl. by destruct (L g_readytorun).
  - eauto with nx.
  - intros k y Hy. rewrite Est. upd g_readytorun k.
    + simpl. rewrite Hc. apply elem_of_cons in Hy as [->|Hy].
      * by rewrite decide_False, !decide_True by congruence.
      * rewrite (decide_False (P := y = x)) by (intros ->; by apply (Hno g_readytorun)). case_decide as E; [by rewrite decide_False by congruence|].
        rewrite (wf_state _ _ W g_readytorun y Hy). simpl. by rewrite !decide_False by (congruence || (intros ->; by apply (Hno g_readytorun))).
    + rewrite decide_False by (intros ->; by destruct (wf_disj _ _ W g_readytorun k (cur L))).
      rewrite decide_False by (intros ->; by apply (Hno k)). rewrite (wf_state _ _ W k y Hy). by destruct k.
  - intros y Hne. rewrite Est. case_decide as E; [subst y|by rewrite decide_False].
    intros _. rewrite (wf_state _ _ W g_readytorun _ Hcin). simpl. by rewrite decide_True.
Qed.

Lemma pinsert_last T x l : last l = Some idle -> prio T idle < prio T x -> last (pinsert T x l) = Some idle.
Proof.
  intros Hl Hp. destruct (pinsert_split T x l) as (l1 & l2 & -> & -> & H1 & _).
  destruct (list_snoc_inv l2) as [->|(l' & z & ->)].
  - rewrite app_nil_r in Hl. apply last_Some in Hl as [l' ->]. apply Forall_app in H1 as [_ [H1 _]%Forall_cons]. lia.
  - rewrite app_assoc, last_snoc in Hl. by rewrite app_comm_cons, app_assoc, last_snoc.
Qed.

Lemma pinsert_hd T x l : phead T x l = false -> hd 0 (pinsert T x l) = hd 0 l.
Proof. destruct l as [|y l]; [done|]. simpl. intros E. b2p. by rewrite (proj2 (Z.leb_le _ _) E). Qed.

Lemma pinsert_head T x l : phead T x l = true -> pinsert T x l = x :: l.
Proof. destruct l as [|y l]; [done|]. simpl. intros E. b2p. by rewrite (proj2 (Z.leb_gt _ _) E). Qed.

(** The ready list after a task has been put in at its place. *)
Definition ready_states (T : gmap Z tcb_s) (L : tasklist -> list Z) (x : Z) : gmap Z tcb_s :=
  if phead T x (L g_readytorun)
  then alter (set_state TSTATE_TASK_READYTORUN) (cur L) (alter (set_state TSTATE_TASK_RUNNING) x T)
  else alter (set_state TSTATE_TASK_READYTORUN) x T.

Lemma wf_ready T L x :
  wf T L -> is_Some (T !! x) -> tstate T x = TSTATE_TASK_INVALID -> 1 <= prio T x <= 255 ->
  wf (ready_states T L x) (<[g_readytorun := pinsert T x (L g_readytorun)]> L).
Proof.
  intros W Hs Hx Hpx. unfold ready_states. pose proof (wf_invalid _ _ _ W Hx) as Hno.
  assert (prio T idle < prio T x) as Hp.
  { rewrite (wf_idle _ _ W). lia. }
  destruct (phead T x (L g_readytorun)) eqn:E.
  - rewrite pinsert_head by done. apply wf_insert_head; try done.
    destruct (wf_cur _ _ W) as [r Er]. rewrite Er in E. simpl in E. by b2p.
  - replace TSTATE_TASK_READYTORUN with (state_of L g_readytorun x).
    + apply wf_insert; try done; [apply pinsert_perm|intros _; apply pinsert_sorted; by apply W|].
      intros _. split; [by apply pinsert_last; [apply W|]|]. by apply pinsert_hd.
    + simpl. rewrite decide_False; [done|]. intros ->. apply (Hno g_readytorun). by eapply wf_cur_in.
Qed.

Lemma ready_keeps T L x : keeps T (ready_states T L x).
Proof. unfold ready_states. case_match; eauto with nx. Qed.
End Inv.
