(* ===== verification/SchedOps.v ===== *)
(** * The operations of the scheduler on lists

    What each function of [Sched] does, in terms of the lists: [good T L s] is the
    representation together with the invariant, and each lemma gives the lists
    that result. *)

From stdpp Require Import functions.
From S2P Require Import Prelude Bits Links Queue Sched SchedRep SchedInv.
Import Dq.
Local Open Scope Z_scope.

Definition lrem (x : Z) (l : list Z) : list Z := filter (fun y => y <> x) l.

Lemma lrem_split x l1 l2 : NoDup (l1 ++ x :: l2) -> lrem x (l1 ++ x :: l2) = l1 ++ l2.
Proof. apply Sq.filter_ne_split. Qed.

Lemma elem_of_lrem x y l : y ∈ lrem x l <-> y ∈ l /\ y <> x.
Proof. unfold lrem. rewrite list_elem_of_filter. tauto. Qed.

(** Merging a list of tasks into another. *)
Definition pmerge (T : gmap Z tcb_s) (R P : list Z) : list Z := foldl (fun R p => pinsert T p R) R P.

(** Where a task that becomes ready goes. *)
Definition ready_add (T : gmap Z tcb_s) (L : tasklist -> list Z) (x : Z) : tasklist -> list Z :=
  if (0 <? locks T (cur L)) && (prio T (cur L) <? prio T x)
  then <[g_pendingtasks := pinsert T x (L g_pendingtasks)]> L
  else <[g_readytorun := pinsert T x (L g_readytorun)]> L.

Definition merged (T : gmap Z tcb_s) (L : tasklist -> list Z) : tasklist -> list Z :=
  <[g_pendingtasks := []]> (<[g_readytorun := pmerge T (L g_readytorun) (L g_pendingtasks)]> L).

Definition block_add (T : gmap Z tcb_s) (L : tasklist -> list Z) (l : tasklist) (x : Z) : tasklist -> list Z :=
  <[l := if prioritized l then pinsert T x (L l) else L l ++ [x]]> L.

Section Ops.
Context (H : list (Z * Z)) (idle : Z).
Abbreviation srep := (srep H).
Abbreviation wf := (wf idle).

Definition good (T : gmap Z tcb_s) (L : tasklist -> list Z) (s : sched) : Prop := srep T L s /\ wf T L.

Lemma good_lookup T L s x l : good T L s -> x ∈ L l -> is_Some (T !! x).
Proof. intros [_ W]. by apply (wf_in _ _ _ W). Qed.

Lemma good_this T L s : good T L s -> this_task s = cur L.
Proof. intros [R _]. by apply (this_task_hd _ _ _ _ R). Qed.

Lemma wf_ext T L L' : (forall l, L' l = L l) -> wf T L -> wf T L'.
Proof.
  intros E W. assert (cur L' = cur L) as Ec by (unfold cur; by rewrite E).
  destruct W as [W1 W2 W3 W4 W5 W6 W7 W8 W9 W10]. split; intros *; rewrite ?E; try by eauto.
  - intros Hx. rewrite (state_of_ext L L') by done. eauto.
  - intros Hx. destruct (W5 x Hx) as [l Hl]. exists l. by rewrite E.
Qed.

Lemma good_ext T L L' s : (forall l, L' l = L l) -> good T L s -> good T L' s.
Proof. intros E [R W]. split; [by apply (srep_ext _ _ L)|by apply (wf_ext _ L)]. Qed.

(** The head of the list of pending tasks tells whether there are any. *)
Lemma good_pending T L s : good T L s -> negb (dq_head (lists s g_pendingtasks) =? 0) = bool_decide (L g_pendingtasks <> []).
Proof.
  intros [R _]. rewrite (dq_rep_head _ _ _ (sr_q _ _ _ _ R g_pendingtasks)).
  destruct (decide (L g_pendingtasks = [])) as [E|E]; [by rewrite bool_decide_eq_true_2, bool_decide_eq_false_2 by (done || tauto)|].
  by rewrite bool_decide_eq_false_2, bool_decide_eq_true_2.
Qed.

Lemma sched_addreadytorun_spec T L s x :
  good T L s -> is_Some (T !! x) -> tstate T x = TSTATE_TASK_INVALID -> 1 <= prio T x <= 255 ->
  returns (sched_addreadytorun s x) (fun '(r, s') =>
    exists T', good T' (ready_add T L x) s' /\ keeps T T' /\ (r = false -> cur (ready_add T L x) = cur L) /\
      (r = true -> cur (ready_add T L x) = x /\ ready_add T L x g_pendingtasks = L g_pendingtasks)).
Proof.
  intros [R W] [t Ht] Hx Hi. pose proof (wf_cur_in _ _ _ W) as Hcin. destruct (wf_in _ _ _ W _ _ Hcin) as [c Hc].
  pose proof (wf_invalid _ _ _ _ W Hx) as Hno.
  unfold sched_addreadytorun, ready_add. rewrite (this_task_hd _ _ _ _ R). fold (cur L).
  rewrite (tget_Ok _ _ _ _ _ _ R Hc), bind_Ok, (tget_Ok _ _ _ _ _ _ R Ht), bind_Ok.
  rewrite (tget_prio _ _ _ _ _ _ R Ht), (tget_prio _ _ _ _ _ _ R Hc).
  replace (lockcount c) with (locks T (cur L)) by (unfold locks; by rewrite Hc).
  destruct ((0 <? locks T (cur L)) && (prio T (cur L) <? prio T x)) eqn:E.
  - eapply returns_bind; [apply (sched_addprioritized_spec H T L); eauto|]. intros [r s1] [_ R1].
    eapply returns_bind; [apply (tupd_spec _ _ _ _ _ (set_state TSTATE_TASK_PENDING) R1); eauto|]. intros s2 R2.
    apply returns_Ok. eexists. split; [split; [exact R2|]|].
    + apply (wf_insert _ _ _ g_pendingtasks); eauto using pinsert_perm; [|done]. intros _. apply pinsert_sorted. by apply W.
    + split; [apply keeps_alter|]. split; [|done]. intros _. by apply cur_insert.
  - eapply returns_bind; [apply (sched_addprioritized_spec H T L); eauto|]. intros [r s1] [-> R1].
    pose proof (wf_ready _ T L x W ltac:(by rewrite Ht) Hx Hi) as W2. unfold ready_states in W2.
    destruct (phead T x (L g_readytorun)) eqn:Eh.
    + eapply returns_bind; [apply (tupd_spec _ _ _ _ _ (set_state TSTATE_TASK_RUNNING) R1); eauto|]. intros s2 R2.
      pose proof (sr_q _ _ _ _ R2 g_readytorun) as Hq. rewrite fn_lookup_insert, (pinsert_head _ _ _ Eh) in Hq.
      destruct (wf_cur _ _ _ W) as [rest Er]. rewrite Er in Hq. destruct (dqr_links _ _ _ Hq) as [EF _].
      rewrite (load_Ok _ _ _ (proj1 (sr_node _ _ _ _ R x ltac:(eauto))) EF), bind_Ok. simpl hd.
      eapply returns_bind; [apply (tupd_spec _ _ _ _ _ (set_state TSTATE_TASK_READYTORUN) R2); eauto with nx|]. intros s3 R3.
      apply returns_Ok. eexists. split; [split; [exact R3|exact W2]|]. split; [eauto with nx|]. split; [done|].
      intros _. unfold cur. rewrite fn_lookup_insert, (pinsert_head _ _ _ Eh). by rewrite fn_lookup_insert_ne.
    + eapply returns_bind; [apply (tupd_spec _ _ _ _ _ (set_state TSTATE_TASK_READYTORUN) R1); eauto|]. intros s2 R2.
      apply returns_Ok. eexists. split; [split; [exact R2|exact W2]|]. split; [apply keeps_alter|]. split; [|done].
      intros _. unfold cur. rewrite fn_lookup_insert. by apply pinsert_hd.
Qed.

Lemma sched_removereadytorun_spec T L s x :
  good T L s -> x ∈ L g_readytorun -> x <> idle ->
  returns (sched_removereadytorun s x) (fun '(r, s') =>
    exists T', good T' (<[g_readytorun := lrem x (L g_readytorun)]> L) s' /\ keeps T T' /\
      tstate T' x = TSTATE_TASK_INVALID /\ r = bool_decide (x = cur L)).
Proof.
  intros [R W] Hx Hi. pose proof (wf_nodup _ _ _ W g_readytorun) as Hnd. pose proof (sr_q _ _ _ _ R g_readytorun) as Hq.
  destruct (list_elem_of_split _ _ Hx) as (l1 & l2 & E). pose proof (good_lookup _ _ _ _ _ (conj R W) Hx) as Hs.
  rewrite E in Hnd, Hq. rewrite E, lrem_split by done. destruct (dlinks_mid _ _ _ _ _ _ _ (dqr_links _ _ _ Hq)) as [EF EB].
  unfold sched_removereadytorun. rewrite (load_Ok _ _ _ (proj1 (sr_node _ _ _ _ R x Hs)) EB), bind_Ok.
  destruct l1 as [|z l1].
  - simpl. assert (exists y l, l2 = y :: l) as (y & l & ->).
    { destruct l2 as [|y l]; [|eauto]. pose proof (wf_last _ _ _ W) as Hl. rewrite E in Hl. by injection Hl. }
    rewrite (load_Ok _ _ _ (proj1 (sr_node _ _ _ _ R x Hs)) EF), bind_Ok. simpl hd.
    assert (is_Some (T !! y)) as Hy by (apply (wf_in _ _ _ W g_readytorun); rewrite E; set_solver).
    destruct (tupd_spec _ _ _ _ _ (set_state TSTATE_TASK_RUNNING) R Hy) as (s1 & -> & R1). rewrite !bind_Ok.
    eapply returns_bind; [apply (trem_spec _ _ _ _ g_readytorun [] x (y :: l) R1); by rewrite E|]. intros s2 R2.
    eapply returns_bind; [apply (tupd_spec _ _ _ _ _ (set_state TSTATE_TASK_INVALID) R2); eauto with nx|]. intros s3 R3.
    apply returns_Ok. eexists. split; [split; [exact R3|by apply wf_remove_head]|]. split; [eauto with nx|].
    split; [by rewrite tstate_alter, decide_True by eauto with nx|]. unfold cur. rewrite E. simpl. by rewrite bool_decide_eq_true_2.
  - assert (lastd 0 (z :: l1) =? 0 = false) as ->.
    { apply Z.eqb_neq. apply (dq_rep_node _ _ _ (lastd 0 (z :: l1)) Hq). apply elem_of_app. left. by apply lastd_elem. }
    rewrite bind_Ok. eapply returns_bind; [apply (trem_spec _ _ _ _ g_readytorun (z :: l1) x l2 R); by rewrite E|]. intros s2 R2.
    eapply returns_bind; [apply (tupd_spec _ _ _ _ _ (set_state TSTATE_TASK_INVALID) R2); eauto with nx|]. intros s3 R3.
    apply returns_Ok. eexists. split; [split; [exact R3|]|].
    { by apply (wf_remove _ _ _ g_readytorun (z :: l1) x l2). }
    split; [eauto with nx|]. split; [by rewrite tstate_alter, decide_True by eauto with nx|].
    unfold cur. rewrite E. simpl. rewrite bool_decide_eq_false_2; [done|]. intros ->. apply NoDup_app in Hnd as (_ & Hd & _). apply (Hd z); set_solver.
Qed.

(** The states of blocked tasks, with their lists. *)
Definition blocked (l : tasklist) : bool := match l with g_readytorun | g_pendingtasks => false | _ => true end.

Lemma sched_addblocked_spec T L s x l :
  good T L s -> is_Some (T !! x) -> tstate T x = TSTATE_TASK_INVALID -> 1 <= prio T x <= 255 -> blocked l = true ->
  returns (sched_addblocked s x (state_of L l x)) (fun s' =>
    exists T', good T' (block_add T L l x) s' /\ keeps T T').
Proof.
  intros [R W] Hs Hx Hpx Hb. pose proof (wf_invalid _ _ _ _ W Hx) as Hno. unfold sched_addblocked, block_add, tlist.
  rewrite state_of_list, state_of_prio, bind_Ok.
  assert (l <> g_readytorun) as Hl by (by intros ->).
  eapply returns_bind with (P := srep T (<[l := if prioritized l then pinsert T x (L l) else L l ++ [x]]> L)).
  - destruct (prioritized l).
    + eapply returns_bind; [by apply (sched_addprioritized_spec H T L)|]. intros [r s1] [_ R1]. by apply returns_Ok.
    + destruct (dq_addlast_spec _ _ _ _ (sr_q _ _ _ _ R l) (sr_node _ _ _ _ R x Hs) (Hno l)) as (d & q & -> & Hr & Hf).
      rewrite bind_Ok. apply returns_Ok. apply (set_list_spec H T L s l x); try done.
      * intros y Hy. apply (dq_rep_node _ _ _ _ Hr). set_solver.
      * set_solver.
  - intros s1 R1. eapply returns_impl; [by apply (tupd_spec _ _ _ _ _ (set_state (state_of L l x)) R1)|].
    intros s2 R2. eexists. split; [split; [exact R2|]|apply keeps_alter].
    apply wf_insert; try done.
    + destruct (prioritized l); [apply pinsert_perm|symmetry; apply Permutation_cons_append].
    + intros Hp. rewrite Hp. by apply pinsert_sorted, (wf_sorted _ _ _ W).
Qed.

Lemma wf_tlist T L l x : wf T L -> x ∈ L l -> tlist (tstate T x) = Ok l.
Proof. intros W Hx. unfold tlist. by rewrite (wf_state _ _ _ W l x Hx), state_of_list. Qed.

Lemma tstate_get T (x : Z) t : T !! x = Some t -> task_state t = tstate T x.
Proof. intros E. unfold tstate. by rewrite E. Qed.

Lemma sched_removeblocked_spec T L s x l :
  good T L s -> x ∈ L l -> l <> g_readytorun -> x <> idle ->
  returns (sched_removeblocked s x) (fun s' =>
    exists T', good T' (<[l := lrem x (L l)]> L) s' /\ keeps T T' /\ tstate T' x = TSTATE_TASK_INVALID).
Proof.
  intros [R W] Hx Hl Hi. destruct (good_lookup _ _ _ _ _ (conj R W) Hx) as [t Ht].
  unfold sched_removeblocked. rewrite (tget_Ok _ _ _ _ _ _ R Ht), bind_Ok, (tstate_get _ _ _ Ht), (wf_tlist _ _ _ _ W Hx), bind_Ok.
  pose proof (wf_nodup _ _ _ W l) as Hnd. destruct (list_elem_of_split _ _ Hx) as (l1 & l2 & E). rewrite E in Hnd. rewrite E, lrem_split by done.
  eapply returns_bind; [by apply (trem_spec _ _ _ _ l l1 x l2 R)|]. intros s1 R1.
  eapply returns_impl; [apply (tupd_spec _ _ _ _ _ (set_state TSTATE_TASK_INVALID) R1); eauto|].
  intros s2 R2. eexists. split; [split; [exact R2|by apply wf_remove]|]. split; [apply keeps_alter|].
  by rewrite tstate_alter, decide_True by eauto.
Qed.
End Ops.

(** * Merging the pending tasks

    [sched_mergepending] walks along both lists at once and moves the pending
    tasks one by one, leaving the list of pending tasks in pieces until it is
    emptied at the end.  The result is that of inserting each of them at its
    place. *)

#[local] Hint Resolve is_node_flink is_node_blink : nx.

(** The list of pending tasks is emptied. *)
Definition clr (s : sched) : sched := set_list s g_pendingtasks (links s) dq_init.

Lemma find_lower_clr fuel s next p : find_lower fuel (clr s) next p = find_lower fuel s next p.
Proof.
  revert next. induction fuel as [|fuel IH]; intros next; simpl; [done|]. case_match; [done|].
  unfold tget. simpl. case_match; [done|]. case_match; [|done]. simpl. case_match; [|done].
  destruct (load (dq_flink (links s)) next); simpl; [apply IH|done].
Qed.

Lemma alter_state_twice (T : gmap Z tcb_s) a b x : alter (set_state a) x (alter (set_state b) x T) = alter (set_state a) x T.
Proof.
  apply map_eq. intros y. rewrite !lookup_alter. case_decide; [subst y|done]. rewrite decide_True by done. by destruct (T !! x).
Qed.

Lemma alter_swap (T : gmap Z tcb_s) f g x y : x <> y -> alter f x (alter g y T) = alter g y (alter f x T).
Proof.
  intros Hne. apply map_eq. intros z. rewrite !lookup_alter. repeat case_decide; by subst.
Qed.

Lemma tupd_links s x f s' : tupd s x f = Ok s' -> links s' = links s.
Proof. unfold tupd. destruct (tget s x); [|done]. by intros [= <-]. Qed.

Section Merge.
Context (H : list (Z * Z)) (idle : Z).
Abbreviation srep := (srep H).
Abbreviation wf := (wf idle).
Abbreviation good := (good H idle).

Lemma srep_clr T L s : srep T L s -> srep T (<[g_pendingtasks := []]> L) (clr s).
Proof.
  intros [R1 R2 R3 R4 R5 R6]. split; simpl; try done.
  - intros l. destruct (decide (g_pendingtasks = l)) as [<-|Hl]; [rewrite !fn_lookup_insert; apply dq_init_spec|].
    by rewrite !fn_lookup_insert_ne.
  - intros l1 l2 x. destruct (decide (g_pendingtasks = l1)) as [<-|H1]; [by rewrite fn_lookup_insert; intros []%not_elem_of_nil|].
    destruct (decide (g_pendingtasks = l2)) as [<-|H2]; [rewrite fn_lookup_insert; by intros _ []%not_elem_of_nil|].
    rewrite !fn_lookup_insert_ne by done. apply R4.
  - intros l x. destruct (decide (g_pendingtasks = l)) as [<-|Hl]; [rewrite fn_lookup_insert; by intros []%not_elem_of_nil|].
    rewrite fn_lookup_insert_ne by done. apply R5.
Qed.

Lemma clr_ready T L s d q : srep T L (set_list (clr s) g_readytorun d q) -> srep T L (clr (set_list s g_readytorun d q)).
Proof.
  intros [R1 R2 R3 R4 R5 R6]. split; try done. intros l. specialize (R3 l). by destruct l.
Qed.

Lemma clr_tupd T L s x f :
  srep T L (clr s) -> is_Some (T !! x) -> returns (tupd s x f) (fun s' => srep (alter f x T) L (clr s')).
Proof.
  intros R Hx. destruct (tupd_spec H _ _ _ x f R Hx) as (s' & E & R'). unfold tupd in *.
  change (tget (clr s) x) with (tget s x) in E. destruct (tget s x) as [t|]; [|done]. injection E as <-. by apply returns_Ok.
Qed.

(** One task is linked in front of [y], which is not the end of the list. *)
Lemma merge_link T L s l1 x y l2 :
  srep T L (clr s) -> L g_readytorun = l1 ++ y :: l2 -> is_Some (T !! x) -> (forall k, x ∉ L k) ->
  srep T (<[g_readytorun := l1 ++ x :: y :: l2]> L)
    (clr (set_list s g_readytorun (link_before (links s) x y (lastd 0 l1)) (DQ (hd x l1) (dq_tail (lists s g_readytorun))))).
Proof.
  intros R E Hx Hno. apply clr_ready. pose proof (sr_q _ _ _ _ R g_readytorun) as Hq. rewrite E in Hq.
  specialize (Hno g_readytorun) as Hl. rewrite E in Hl. pose proof (sr_node _ _ _ _ R x Hx) as Hn.
  destruct (link_before_rep _ _ _ _ _ _ Hq Hn Hl) as [Hr Hf].
  apply (set_list_spec H T L (clr s) g_readytorun x); [done|done|done|exact Hr|by rewrite E|..].
  - intros z Hz. apply link_before_node. apply elem_of_cons in Hz as [->|Hz]; [done|].
    apply (dq_rep_node _ _ _ _ Hq). by rewrite <- E.
  - rewrite E. set_solver.
Qed.

(** One round of the loop, up to its recursive call. *)
Lemma merge_round T L s p P l1 l2 fuel ret :
  srep T L (clr s) -> L g_pendingtasks = [] -> wf T (<[g_pendingtasks := p :: P]> L) ->
  slinks (fun x => dq_flink (links s) !! x) (p :: P) 0 ->
  L g_readytorun = l1 ++ l2 -> Forall (fun y => prio T p <= prio T y) l1 ->
  exists s' T' m1 m2, merge_loop (S fuel) s p (hd 0 l2) ret = merge_loop fuel s' (hd 0 P) p (phead T p (L g_readytorun) || ret) /\
    let L' := <[g_readytorun := pinsert T p (L g_readytorun)]> L in
    srep T' L' (clr s') /\ wf T' (<[g_pendingtasks := P]> L') /\ keeps T T' /\
    slinks (fun x => dq_flink (links s') !! x) P 0 /\
    pinsert T p (L g_readytorun) = m1 ++ p :: m2 /\ Forall (fun y => prio T p <= prio T y) m1.
Proof.
  intros R Ep W [EF HP] El Hl1. set (Lp := <[g_pendingtasks := p :: P]> L) in *.
  assert (p ∈ Lp g_pendingtasks) as Hp by (unfold Lp; rewrite fn_lookup_insert; by left).
  assert (Lp g_readytorun = L g_readytorun) as Er by (unfold Lp; by rewrite fn_lookup_insert_ne).
  destruct (wf_in _ _ _ W _ _ Hp) as [t Ht]. pose proof (sr_node _ _ _ _ R p ltac:(eauto)) as Hn.
  assert (p <> idle) as Hi.
  { intros ->. pose proof (wf_idle_in _ _ _ W) as Hid. discriminate (wf_disj _ _ _ W _ _ _ Hp Hid). }
  assert (forall k, p ∉ L k) as Hno.
  { intros k Hk. destruct (decide (g_pendingtasks = k)) as [<-|Hne]; [rewrite Ep in Hk; by apply not_elem_of_nil in Hk|].
    destruct (wf_disj _ _ _ W g_pendingtasks k p); [done| |done]. unfold Lp. by rewrite fn_lookup_insert_ne. }
  pose proof (wf_prio _ _ _ W g_pendingtasks p Hp Hi) as Hpp.
  (* the place *)
  destruct (pinsert_split T p l2) as (m & l2' & E2 & Ei & Hpl).
  assert (exists y r, l2' = y :: r) as (y & r & ->).
  { destruct l2' as [|y r]; [|eauto]. exfalso. pose proof (wf_last _ _ _ W) as Hla. rewrite Er, El, E2, app_nil_r in Hla.
    assert (idle ∈ l1 ++ m) as Hid by (by apply last_Some_elem_of).
    pose proof (wf_idle _ _ _ W) as H0.
    apply elem_of_app in Hid as [Hid|Hid]; [pose proof (proj1 (Forall_forall _ _) Hl1 _ Hid)|pose proof (proj1 (Forall_forall _ _) (proj1 Hpl) _ Hid)]; simpl in *; lia. }
  assert (pplace T (prio T p) (l1 ++ m) (y :: r)) as Hpl2 by (split; [apply Forall_app; split; [done|apply Hpl]|apply Hpl]).
  assert (L g_readytorun = (l1 ++ m) ++ y :: r) as EL by (by rewrite El, E2, app_assoc).
  pose proof (sr_q _ _ _ _ R g_readytorun) as Hq. rewrite EL in Hq.
  pose proof (dq_rep_node _ _ _ y Hq ltac:(set_solver)) as Hy.
  destruct (dlinks_mid _ _ _ _ _ _ _ (dqr_links _ _ _ Hq)) as [_ EB]. simpl in EB.
  cbn [merge_loop]. rewrite (proj2 (Z.eqb_neq p 0) (proj1 Hn)), (load_Ok _ _ _ (proj1 Hn) EF), bind_Ok.
  change (tget s p) with (tget (clr s) p). rewrite (tget_Ok _ _ _ _ _ _ R Ht), bind_Ok, (tget_prio _ _ _ _ _ _ R Ht).
  rewrite <- find_lower_clr, E2, (find_lower_spec H T L (clr s) g_readytorun l1 m (y :: r) _ _ R) by
    (done || (by rewrite EL, app_assoc) || (by apply (srep_fuel H T L (clr s) g_readytorun l1 m (y :: r)); [|rewrite EL, app_assoc])).
  rewrite bind_Ok. simpl hd. rewrite (load_Ok _ _ _ (proj1 Hy) EB), bind_Ok. cbv zeta.
  (* the invariant *)
  set (L1 := <[g_pendingtasks := P]> Lp).
  assert (wf (alter (set_state TSTATE_TASK_INVALID) p T) L1) as W1.
  { apply (wf_remove _ _ _ g_pendingtasks [] p P); try done. }
  assert (L1 g_readytorun = L g_readytorun) as Er1 by (unfold L1; by rewrite fn_lookup_insert_ne).
  pose proof (wf_ready _ _ L1 p W1 ltac:(eauto with nx) ltac:(by rewrite tstate_alter, decide_True by eauto) ltac:(by rewrite prio_state)) as W2.
  rewrite (pinsert_ext T (alter (set_state TSTATE_TASK_INVALID) p T)), Er1 in W2 by (intros; apply prio_state).
  set (L2 := <[g_readytorun := pinsert T p (L g_readytorun)]> L).
  apply (wf_ext _ _ _ (<[g_pendingtasks := P]> L2)) in W2.
  2:{ by intros []. }
  assert (phead (alter (set_state TSTATE_TASK_INVALID) p T) p (L1 g_readytorun) = phead T p (L g_readytorun)) as Eph.
  { rewrite Er1. unfold phead. destruct (L g_readytorun); [done|]. by rewrite !prio_state. }
  unfold ready_states in W2. rewrite Eph in W2.
  assert (phead T p (L g_readytorun) = bool_decide (l1 ++ m = [])) as Ephd by (rewrite EL; by apply phead_place).
  rewrite Ephd in W2 |- *. clear Eph Ephd.
  pose proof (merge_link T L s (l1 ++ m) p y r R EL ltac:(eauto) Hno) as R1.
  assert (pinsert T p (L g_readytorun) = (l1 ++ m) ++ p :: y :: r) as Epi by (rewrite EL; by apply pinsert_place).
  assert (forall d, frame (p :: (l1 ++ m)) (dq_flink (links s)) (dq_flink d) -> slinks (fun x => dq_flink d !! x) P 0) as Hsl.
  { intros d Hf. eapply slinks_ext; [|exact HP]. intros z Hz. apply Hf. pose proof (wf_nodup _ _ _ W g_pendingtasks) as Hnd.
    unfold Lp in Hnd. rewrite fn_lookup_insert in Hnd. apply NoDup_cons in Hnd as [Hnd _].
    intros [->|Hz2]%elem_of_cons; [done|]. 
    assert (g_pendingtasks = g_readytorun) as Hd; [|done].
    apply (wf_disj _ _ _ W _ _ z); [unfold Lp; rewrite fn_lookup_insert; by right|rewrite Er, EL; set_solver]. }
  assert (cur L1 = hd 0 (l1 ++ m ++ y :: r)) as Ec1 by (unfold cur; by rewrite Er1, EL, app_assoc).
  unfold L2 in *. clear L2. rewrite Epi in W2 |- *.
  destruct (list_snoc_inv (l1 ++ m)) as [E0|(l0 & z & E0)]; rewrite E0 in *; simpl.
  - destruct (app_eq_nil _ _ E0) as [-> ->]. simpl in *. unfold link_before in R1. change (lastd 0 []) with 0 in R1. simpl in R1.
    assert (p <> y) as Hpy by (intros ->; apply (Hno g_readytorun); rewrite EL; by left).
    drun. cbn [dq_flink dq_blink]. destruct (clr_tupd _ _ _ y (set_state TSTATE_TASK_READYTORUN) R1) as (s2 & Es2 & R2);
      [apply (wf_in _ _ _ W g_readytorun); rewrite Er, EL; by left|].
    rewrite Es2, bind_Ok. destruct (clr_tupd _ _ _ p (set_state TSTATE_TASK_RUNNING) R2) as (s3 & Es3 & R3); [eauto with nx|].
    rewrite Es3, bind_Ok. exists s3. eexists _, [], (y :: r). split; [done|]. split; [exact R3|]. split.
    + rewrite Ec1, alter_state_twice in W2. by rewrite alter_swap by done.
    + split; [eauto with nx|]. split; [|by split]. apply Hsl. apply tupd_links in Es2, Es3.
      rewrite Es3, Es2. simpl. intros z Hz. rewrite lookup_insert_ne by set_solver. done.
  - rewrite lastd_snoc in *. pose proof (dq_rep_node _ _ _ z Hq ltac:(set_solver)) as Hz.
    rewrite (proj2 (Z.eqb_neq z 0) (proj1 Hz)) in *. unfold link_before in R1. rewrite (proj2 (Z.eqb_neq z 0) (proj1 Hz)) in R1.
    assert (hd p (l0 ++ [z]) = dq_head (lists s g_readytorun)) as Ehd.
    { change (lists s g_readytorun) with (lists (clr s) g_readytorun). rewrite (dqr_head _ _ _ Hq). by destruct l0. }
    rewrite Ehd in R1.
    replace (DQ (dq_head (lists s g_readytorun)) (dq_tail (lists s g_readytorun))) with (lists s g_readytorun) in R1 by (by destruct (lists s g_readytorun)).
    drun. cbn [dq_flink dq_blink]. destruct (clr_tupd _ _ _ p (set_state TSTATE_TASK_READYTORUN) R1) as (s2 & Es2 & R2); [eauto|].
    rewrite Es2, bind_Ok. exists s2. eexists _, (l0 ++ [z]), (y :: r). split; [by rewrite bool_decide_eq_false_2 by (by destruct l0)|].
    split; [exact R2|]. split.
    + rewrite bool_decide_eq_false_2, alter_state_twice in W2 by (by destruct l0). exact W2.
    + split; [eauto with nx|]. split; [|by split; [|apply Hpl2]]. apply Hsl. apply tupd_links in Es2. rewrite Es2. simpl.
      intros w Hw. rewrite !lookup_insert_ne by set_solver. done.
Qed.

Lemma pmerge_ext T T' R P : (forall x, prio T' x = prio T x) -> pmerge T' R P = pmerge T R P.
Proof. intros E. unfold pmerge. revert R. induction P as [|p P IH]; intros R; simpl; [done|]. by rewrite (pinsert_ext T T') by done. Qed.

Lemma merge_loop_spec P : forall fuel T L s l1 l2 ret,
  srep T L (clr s) -> L g_pendingtasks = [] -> wf T (<[g_pendingtasks := P]> L) ->
  slinks (fun x => dq_flink (links s) !! x) P 0 -> (length P < fuel)%nat ->
  L g_readytorun = l1 ++ l2 -> (forall p, p ∈ P -> Forall (fun y => prio T p <= prio T y) l1) ->
  returns (merge_loop fuel s (hd 0 P) (hd 0 l2) ret) (fun '(r, s') =>
    exists T', good T' (<[g_pendingtasks := []]> (<[g_readytorun := pmerge T (L g_readytorun) P]> L)) (clr s') /\ keeps T T' /\
      (r = false -> ret = false /\ hd 0 (pmerge T (L g_readytorun) P) = hd 0 (L g_readytorun))).
Proof.
  induction P as [|p P IH]; intros fuel T L s l1 l2 ret R Ep W HP Hf El Hl1.
  - destruct fuel as [|fuel]; [simpl in Hf; lia|]. simpl. apply returns_Ok. exists T. split; [|done].
    apply (good_ext _ _ _ L); [by intros []|split; [done|]]. by apply (wf_ext _ _ (<[g_pendingtasks := []]> L)); [intros []|].
  - destruct fuel as [|fuel]; [simpl in Hf; lia|].
    destruct (merge_round T L s p P l1 l2 fuel ret R Ep W HP El) as (s' & T' & m1 & m2 & E & R' & W' & K & HP' & Em & Hm).
    { apply Hl1. by left. }
    assert (hd 0 (p :: P) = p) as -> by done. rewrite E. change p with (hd 0 (p :: m2)).
    eapply returns_impl; [apply (IH fuel T' _ s' m1 (p :: m2) _ R')|].
    + by rewrite fn_lookup_insert_ne.
    + done.
    + done.
    + simpl in Hf. lia.
    + by rewrite fn_lookup_insert.
    + intros q Hq. pose proof (wf_sorted _ _ _ W g_pendingtasks eq_refl) as Hs. rewrite fn_lookup_insert in Hs.
      apply StronglySorted_inv in Hs as [_ Hs]. pose proof (proj1 (Forall_forall _ _) Hs q Hq) as Hqp. simpl in Hqp.
      eapply Forall_impl; [exact Hm|]. intros y Hy. rewrite !(keeps_prio _ _ _ K). simpl in Hy. lia.
    + intros [r s2] (T2 & G & K2 & Hr). rewrite fn_lookup_insert in G, Hr.
      rewrite (pmerge_ext T T') in G, Hr by (intros; by apply keeps_prio). exists T2. split; [|split].
      * apply (good_ext _ _ _ _ _ _) with (2 := G). by intros [].
      * by trans T'.
      * intros Er. destruct (Hr Er) as [[E1 E2]%orb_false_iff E3]. split; [done|]. simpl. rewrite E3. by apply pinsert_hd.
Qed.

(** The pending tasks are inserted at their places. *)
Lemma sched_mergepending_spec T L s :
  good T L s ->
  returns (sched_mergepending s) (fun '(r, s') =>
    exists T', good T' (merged T L) s' /\ keeps T T' /\ (r = false -> cur (merged T L) = cur L)).
Proof.
  intros [R W]. unfold sched_mergepending, merged. rewrite (this_task_hd _ _ _ _ R).
  pose proof (sr_q _ _ _ _ R g_pendingtasks) as Hq. rewrite (dqr_head _ _ _ Hq).
  pose proof (srep_clr _ _ _ R) as Rc.
  eapply returns_bind; [eapply (merge_loop_spec (L g_pendingtasks) _ T (<[g_pendingtasks := []]> L) s [] (L g_readytorun) _ Rc)|].
  - by rewrite fn_lookup_insert.
  - by apply (wf_ext _ _ L); [intros []|].
  - exact (dlinks_slinks _ _ _ _ _ (dqr_links _ _ _ Hq)).
  - by eapply dq_rep_length.
  - by rewrite fn_lookup_insert_ne.
  - intros. constructor.
  - intros [r s'] (T' & G & K & Hr). rewrite fn_lookup_insert_ne in G, Hr by done. apply returns_Ok. exists T'. split; [|split; [done|]].
    + apply (good_ext _ _ _ _ _ _) with (2 := G). by intros [].
    + intros Er. unfold cur. rewrite fn_lookup_insert_ne, fn_lookup_insert by done. by apply Hr.
Qed.
End Merge.
