(* ===== verification/SchedCalls.v ===== *)
(** * Blocking, unblocking and priorities

    The functions of [Sched] that the calls of tasks are made of, in terms of the
    lists, and the invariant [sinv] that they keep: besides the structure of the
    lists, tasks are pending only while the running task holds the preemption
    lock. *)

From stdpp Require Import functions.
From S2P Require Import Prelude Bits Links Queue Sched SchedRep SchedInv SchedOps.
Import Dq.
Local Open Scope Z_scope.

Section Calls.
Context (H : list (Z * Z)) (idle : Z).
Abbreviation srep := (srep H).
Abbreviation wf := (wf idle).
Abbreviation good := (good H idle).

Definition sinv (T : gmap Z tcb_s) (L : tasklist -> list Z) (s : sched) : Prop := good T L s /\ lock_ok T L.

Lemma lock_ok_keeps T T' L : keeps T T' -> lock_ok T L -> lock_ok T' L.
Proof. intros K Hl Hp. rewrite (keeps_locks _ _ _ K). by apply Hl. Qed.

Lemma lock_ok_none T L : L g_pendingtasks = [] -> lock_ok T L.
Proof. intros E Hp. by rewrite E in Hp. Qed.

Lemma lock_ok_other T L l l' : blocked l = true -> lock_ok T L -> lock_ok T (<[l := l']> L).
Proof.
  intros Hb Hl Hp. rewrite fn_lookup_insert_ne in Hp by (by intros ->). rewrite cur_insert by (by intros ->). by apply Hl.
Qed.

(** *** Blocking *)

(** The lists after [x] has been moved from the ready list to [l]. *)
Definition block_lists (T : gmap Z tcb_s) (L : tasklist -> list Z) (x : Z) (l : tasklist) : tasklist -> list Z :=
  merged T (block_add T (<[g_readytorun := lrem x (L g_readytorun)]> L) l x).

Lemma up_block_task_spec T L s x l :
  good T L s -> x ∈ L g_readytorun -> x <> idle -> blocked l = true ->
  returns (up_block_task s x (state_of L l x)) (fun '(r, s') =>
    exists T', sinv T' (block_lists T L x l) s' /\ keeps T T' /\ (x = cur L -> r = true)).
Proof.
  intros G Hx Hi Hb. pose proof (good_lookup _ _ _ _ _ _ _ G Hx) as Hs. unfold up_block_task, block_lists.
  set (L1 := <[g_readytorun := lrem x (L g_readytorun)]> L).
  eapply returns_bind; [by apply (sched_removereadytorun_spec H idle T L s x)|]. intros [r s1] (T1 & G1 & K1 & E1 & ->).
  assert (state_of L l x = state_of L1 l x) as -> by (by destruct l).
  eapply returns_bind.
  { apply (sched_addblocked_spec H idle T1 L1 s1 x l); try done; [by apply (keeps_is_Some _ _ _ K1)|].
    rewrite (keeps_prio _ _ _ K1). by apply (wf_prio _ _ _ (proj2 G) g_readytorun). }
  intros s2 (T2 & G2 & K2). rewrite (good_pending _ _ _ _ _ G2).
  assert (block_add T1 L1 l x = block_add T L1 l x) as E.
  { unfold block_add. by rewrite (pinsert_ext T T1) by (intros; by apply keeps_prio). }
  rewrite E in *. assert (keeps T T2) as K by (by trans T1). case_bool_decide as Hp.
  - eapply returns_bind; [by apply (sched_mergepending_spec H idle)|]. intros [b s3] (T3 & G3 & K3 & _).
    apply returns_Ok. exists T3. split; [split|].
    + replace (merged T (block_add T L1 l x)) with (merged T2 (block_add T L1 l x)); [done|]. unfold merged.
      by rewrite (pmerge_ext T T2) by (intros; by apply keeps_prio).
    + by apply lock_ok_none.
    + split; [by trans T2|]. intros ->. by rewrite bool_decide_eq_true_2.
  - apply returns_Ok. exists T2. split; [split|].
    + apply (good_ext _ _ _ (block_add T L1 l x)); [|done]. unfold merged. rewrite Hp. by intros [].
    + by apply lock_ok_none.
    + split; [done|]. intros ->. by rewrite bool_decide_eq_true_2.
Qed.

(** *** Unblocking *)

Lemma lock_ok_ready_add T L x : wf T L -> lock_ok T L -> lock_ok T (ready_add T L x).
Proof.
  intros W Hl. destruct (wf_cur _ _ _ W) as [r Er]. unfold ready_add.
  destruct ((0 <? locks T (cur L)) && (prio T (cur L) <? prio T x)) eqn:E.
  - intros _. rewrite cur_insert by done. b2p. done.
  - intros Hp. rewrite fn_lookup_insert_ne in Hp by done. specialize (Hl Hp). unfold cur. rewrite fn_lookup_insert, Er.
    apply andb_false_iff in E as [E|E]; b2p; [lia|]. simpl. by rewrite (proj2 (Z.leb_le _ _) E).
Qed.

Lemma ready_add_ext T T' L x : keeps T T' -> ready_add T' L x = ready_add T L x.
Proof.
  intros K. unfold ready_add. rewrite (keeps_locks _ _ _ K), !(keeps_prio _ _ _ K).
  by rewrite !(pinsert_ext T T') by (intros; by apply keeps_prio).
Qed.

(** The lists after [x] has been made ready. *)
Definition unblock_lists (T : gmap Z tcb_s) (L : tasklist -> list Z) (x : Z) (l : tasklist) : tasklist -> list Z :=
  ready_add T (<[l := lrem x (L l)]> L) x.

Lemma up_unblock_task_spec T L s x l :
  sinv T L s -> x ∈ L l -> x <> idle -> blocked l = true ->
  returns (up_unblock_task s x) (fun '(r, s') =>
    exists T', sinv T' (unblock_lists T L x l) s' /\ keeps T T' /\ (r = false -> cur (unblock_lists T L x l) = cur L)).
Proof.
  intros [G Hl] Hx Hi Hb. pose proof (good_lookup _ _ _ _ _ _ _ G Hx) as Hs. unfold up_unblock_task, unblock_lists.
  set (L1 := <[l := lrem x (L l)]> L).
  eapply returns_bind; [apply (sched_removeblocked_spec H idle T L s x l); try done; by intros ->|]. intros s1 (T1 & G1 & K1 & E1).
  eapply returns_impl.
  { apply (sched_addreadytorun_spec H idle T1 L1 s1 x); try done; [by apply (keeps_is_Some _ _ _ K1)|].
    rewrite (keeps_prio _ _ _ K1). by apply (wf_prio _ _ _ (proj2 G) l). }
  intros [r s2] (T2 & G2 & K2 & Hr & _). rewrite (ready_add_ext _ _ _ _ K1) in *. exists T2. split; [split; [done|]|].
  - apply (lock_ok_keeps T1); [done|]. rewrite <- (ready_add_ext _ _ _ _ K1). apply lock_ok_ready_add; [apply G1|].
    apply (lock_ok_keeps T); [done|]. by apply lock_ok_other.
  - split; [by trans T1|]. intros E. rewrite (Hr E). unfold L1. by apply cur_insert; intros ->.
Qed.

(** *** Releasing the pending tasks *)

Lemma up_release_pending_spec T L s :
  good T L s ->
  returns (up_release_pending s) (fun '(r, s') =>
    exists T', sinv T' (merged T L) s' /\ keeps T T' /\ (r = false -> cur (merged T L) = cur L)).
Proof.
  intros G. eapply returns_impl; [by apply (sched_mergepending_spec H idle)|]. intros [r s'] (T' & G' & K & Hr).
  exists T'. split; [split; [done|]|done]. by apply lock_ok_none.
Qed.

(** *** Fields of a task *)

Lemma wf_alter T L x f :
  wf T L -> (forall t, task_state (f t) = task_state t) -> (forall t, T !! x = Some t -> 0 <= lockcount (f t) <= 32767) ->
  (x = idle -> prio (alter f x T) x = prio T x) -> (x <> idle -> forall l, x ∈ L l -> 1 <= prio (alter f x T) x <= 255) ->
  (forall l, prioritized l = true -> psorted (alter f x T) (L l)) -> wf (alter f x T) L.
Proof.
  intros W Hst Hlk Hp0 Hp1 Hso.
  assert (forall y, tstate (alter f x T) y = tstate T y) as Et.
  { intros y. unfold tstate. rewrite lookup_alter. case_decide; [subst y|done]. destruct (T !! x); simpl; [apply Hst|done]. }
  assert (forall y, y <> x -> prio (alter f x T) y = prio T y) as Ep.
  { intros y Hy. unfold prio. by rewrite lookup_alter_ne by congruence. }
  split; try apply W; try done.
  - intros l y Hy. apply alter_is_Some. by apply (wf_in _ _ _ W l).
  - intros l y Hy. rewrite Et. by apply (wf_state _ _ _ W).
  - intros y. rewrite Et. apply W.
  - destruct (decide (x = idle)) as [->|Hne]; [rewrite Hp0 by done|rewrite Ep by congruence]; apply W.
  - intros l y Hy Hne. destruct (decide (y = x)) as [->|Hyx]; [by apply (Hp1 Hne l)|].
    rewrite Ep by done. by apply (wf_prio _ _ _ W l).
  - intros y. unfold locks. rewrite lookup_alter. case_decide as E; [subst y|apply (wf_locks _ _ _ W y)].
    destruct (T !! x) as [t|] eqn:Ex; simpl; [by apply Hlk|lia].
Qed.

(** A field that is neither the state nor the priority. *)
Lemma wf_field T L x f :
  wf T L -> (forall t, task_state (f t) = task_state t) -> (forall t, sched_priority (f t) = sched_priority t) ->
  (forall t, T !! x = Some t -> 0 <= lockcount (f t) <= 32767) -> wf (alter f x T) L.
Proof.
  intros W H1 H2 H3. apply wf_alter; try done.
  - intros _. by apply prio_alter.
  - intros Hx l Hl. rewrite prio_alter by done. by apply (wf_prio _ _ _ W l).
  - intros l Hl. apply (psorted_ext T); [|by apply W]. intros. by apply prio_alter.
Qed.

Lemma lockcount_range T L x t : wf T L -> T !! x = Some t -> 0 <= lockcount t <= 32767.
Proof. intros W E. pose proof (wf_locks _ _ _ W x) as Hl. unfold locks in Hl. by rewrite E in Hl. Qed.

(** The priority of a task that is in no list. *)
Lemma wf_set_priority T L x p :
  wf T L -> (forall l, x ∉ L l) -> x <> idle -> wf (alter (fun t => set_priority t p) x T) L.
Proof.
  intros W Hno Hi. apply wf_alter; try done.
  - intros t Ht. by apply (lockcount_range _ _ _ _ W Ht).
  - intros _ l Hl. by apply Hno in Hl.
  - intros l Hl. apply (psorted_ext T); [|by apply W]. intros y Hy. unfold prio. rewrite lookup_alter_ne; [done|].
    intros ->. by apply (Hno l).
Qed.

(** *** What the scheduler does not touch *)

Definition view (t : tcb_s) : Z * Z * Z * Z * Z * Z := (pid t, flags t, timeslice t, waitdog t, waitsem t, pterrno t).
Definition sees (T T' : gmap Z tcb_s) : Prop := view <$> T' = view <$> T.

#[export] Instance sees_equiv : Equivalence sees.
Proof. unfold sees. split; [done|by intros ? ?|]. intros ? ? ? -> ->. done. Qed.

Lemma sees_alter T x f : (forall t, view (f t) = view t) -> sees T (alter f x T).
Proof.
  intros Hf. apply map_eq. intros y. rewrite !lookup_fmap, lookup_alter. case_decide; [subst y|done].
  destruct (T !! x); simpl; [by rewrite Hf|done].
Qed.

Lemma keeps_sees T T' : keeps T T' -> sees T T'.
Proof.
  intros K. apply map_eq. intros y. unfold keeps in K. apply (f_equal (lookup y)) in K. rewrite !lookup_fmap in K. rewrite !lookup_fmap.
  destruct (T' !! y) as [t'|], (T !! y) as [t|]; try done. apply (inj Some) in K. simpl. f_equal.
  change (view t') with (view (set_state TSTATE_TASK_INVALID t')). by rewrite K.
Qed.

Lemma keeps_update T T' x f :
  (forall t, set_state TSTATE_TASK_INVALID (f t) = f (set_state TSTATE_TASK_INVALID t)) -> keeps T T' -> keeps (alter f x T) (alter f x T').
Proof.
  intros Hf K. apply map_eq. intros y. unfold keeps in K. apply (f_equal (lookup y)) in K. rewrite !lookup_fmap in K.
  rewrite !lookup_fmap, !lookup_alter. case_decide; [subst y|done]. destruct (T' !! x), (T !! x); try done.
  apply (inj Some) in K. simpl. by rewrite !Hf, K.
Qed.

(** Tasks only move between the ready and the pending list. *)
Definition stays (L L' : tasklist -> list Z) : Prop := forall l, blocked l = true -> L' l ≡ₚ L l.

#[export] Instance stays_equiv : Equivalence stays.
Proof.
  split; [by intros ? ? ?|by intros ? ? E l Hl; rewrite (E l Hl)|]. intros L1 L2 L3 E1 E2 l Hl. by rewrite (E2 l Hl), (E1 l Hl).
Qed.

Lemma stays_merged T L : stays L (merged T L).
Proof. by intros []. Qed.

Lemma stays_ready_add T L x : stays L (ready_add T L x).
Proof. intros l Hl. unfold ready_add. case_match; by destruct l. Qed.

Lemma stays_ready L l' : stays L (<[g_readytorun := l']> L).
Proof. by intros []. Qed.
#[local] Hint Resolve stays_merged stays_ready_add stays_ready : nx.

(** No task comes from nowhere. *)
Definition listed (L : tasklist -> list Z) (x : Z) : Prop := exists l, x ∈ L l.
Definition within (L L' : tasklist -> list Z) : Prop := forall x, listed L' x -> listed L x.

#[export] Instance within_preorder : PreOrder within.
Proof. split; [by intros ? ?|]. intros L1 L2 L3 H1 H2 x Hx. auto. Qed.

Lemma within_insert L l l' : (forall x, x ∈ l' -> listed L x) -> within L (<[l := l']> L).
Proof.
  intros Hl x [k Hk]. destruct (decide (k = l)) as [->|]; [rewrite fn_lookup_insert in Hk; by apply Hl|].
  rewrite fn_lookup_insert_ne in Hk by done. by exists k.
Qed.

Lemma elem_of_pmerge T x R P : x ∈ pmerge T R P <-> x ∈ R \/ x ∈ P.
Proof.
  unfold pmerge. revert R. induction P as [|p P IH]; intros R; simpl; [rewrite elem_of_nil; tauto|].
  rewrite IH, elem_of_pinsert, elem_of_cons. tauto.
Qed.

Lemma within_merged T L : within L (merged T L).
Proof.
  intros x [k Hk]. destruct (blocked k) eqn:Eb; [exists k; by destruct k|]. destruct k; try done; unfold merged in Hk.
  - rewrite fn_lookup_insert_ne, fn_lookup_insert in Hk by done. apply elem_of_pmerge in Hk as [Hk|Hk]; by eexists.
  - rewrite fn_lookup_insert in Hk. by apply not_elem_of_nil in Hk.
Qed.

Lemma within_ready_add T L x : forall y, listed (ready_add T L x) y -> listed L y \/ y = x.
Proof.
  intros y [k Hk]. unfold ready_add in Hk.
  destruct ((0 <? locks T (cur L)) && (prio T (cur L) <? prio T x)).
  - destruct (decide (k = g_pendingtasks)) as [->|]; [rewrite fn_lookup_insert in Hk|rewrite fn_lookup_insert_ne in Hk by done; left; by exists k].
    apply elem_of_pinsert in Hk as [->|Hk]; [by right|left; by eexists].
  - destruct (decide (k = g_readytorun)) as [->|]; [rewrite fn_lookup_insert in Hk|rewrite fn_lookup_insert_ne in Hk by done; left; by exists k].
    apply elem_of_pinsert in Hk as [->|Hk]; [by right|left; by eexists].
Qed.

Lemma within_lrem L l x : within L (<[l := lrem x (L l)]> L).
Proof. apply within_insert. intros y [Hy _]%elem_of_lrem. by exists l. Qed.

Lemma within_again T L l x : x ∈ L l -> within L (ready_add T (<[l := lrem x (L l)]> L) x).
Proof. intros Hx y [Hy| ->]%within_ready_add; [by apply within_lrem in Hy|by exists l]. Qed.

Lemma within_block T L x l : x ∈ L g_readytorun -> within L (block_lists T L x l).
Proof.
  intros Hx. unfold block_lists. etrans; [|apply within_merged]. unfold block_add.
  intros y [k Hk]. destruct (decide (k = l)) as [->|].
  - rewrite fn_lookup_insert in Hk. assert (y = x \/ y ∈ (<[g_readytorun := lrem x (L g_readytorun)]> L) l) as [->|Hy].
    { destruct (prioritized l); [by apply elem_of_pinsert in Hk|]. apply elem_of_app in Hk as [Hk|Hk]; [by right|left; set_solver]. }
    + by eexists.
    + apply (within_lrem L g_readytorun x). by exists l.
  - rewrite fn_lookup_insert_ne in Hk by done. apply (within_lrem L g_readytorun x). by exists k.
Qed.

Lemma within_unblock T L x l : x ∈ L l -> within L (unblock_lists T L x l).
Proof. apply within_again. Qed.

(** *** A new priority for a ready task *)

Lemma cur_lrem T L x : wf T L -> x <> cur L -> cur (<[g_readytorun := lrem x (L g_readytorun)]> L) = cur L.
Proof.
  intros W Hx. unfold cur. rewrite fn_lookup_insert. destruct (wf_cur _ _ _ W) as [r Er]. rewrite Er.
  unfold lrem. by rewrite filter_cons_True by congruence.
Qed.

Lemma up_reprioritize_rtr_spec T L s x p :
  sinv T L s -> x ∈ L g_readytorun -> x <> idle -> 1 <= p <= 255 ->
  let T1 := alter (fun t => set_priority t p) x T in
  let L2 := ready_add T1 (<[g_readytorun := lrem x (L g_readytorun)]> L) x in
  returns (up_reprioritize_rtr s x p) (fun '(r, s') =>
    exists T' L', sinv T' L' s' /\ keeps T1 T' /\ (r = false -> cur L' = cur L) /\
      forall l, L' l = if r then merged T1 L2 l else L2 l).
Proof.
  intros [G Hlk] Hx Hi Hp T1 L2. pose proof G as [R W]. destruct (good_lookup _ _ _ _ _ _ _ G Hx) as [t Ht].
  unfold up_reprioritize_rtr. rewrite (tget_Ok _ _ _ _ _ _ R Ht), bind_Ok, (tstate_get _ _ _ Ht), (wf_state _ _ _ W _ _ Hx).
  assert (bool_decide (state_of L g_readytorun x = TSTATE_TASK_READYTORUN) || bool_decide (state_of L g_readytorun x = TSTATE_TASK_RUNNING) = true) as ->.
  { simpl. by case_decide. }
  assert (p <? SCHED_PRIORITY_MIN = false) as -> by (apply Z.ltb_ge; unfold SCHED_PRIORITY_MIN; lia). cbn [negb orb].
  set (L1 := <[g_readytorun := lrem x (L g_readytorun)]> L) in *.
  eapply returns_bind; [by apply (sched_removereadytorun_spec H idle T L s x)|]. intros [b1 s1] (Ta & [Ra Wa] & Ka & Ea & ->).
  pose proof (keeps_is_Some _ _ x Ka ltac:(eauto)) as Hsa.
  eapply returns_bind; [by apply (tupd_spec H _ _ _ x (fun t => set_priority t (u8 p)) Ra)|]. intros s2 R2.
  assert (u8 p = p) as E8 by (unfold u8; rewrite Z.mod_small; lia). rewrite E8 in R2. set (Tb := alter (fun t => set_priority t p) x Ta) in *.
  assert (keeps T1 Tb) as Kb.
  { by apply keeps_update. }
  assert (wf Tb L1) as Wb by (apply wf_set_priority; try done; by apply (wf_invalid idle Ta L1 x)).
  eapply returns_bind.
  { destruct Hsa as [ta Hta]. apply (sched_addreadytorun_spec H idle Tb L1 s2 x); try done; [unfold Tb; eauto with nx| |unfold prio, Tb; by rewrite lookup_alter, decide_True, Hta by done].
    unfold tstate, Tb. rewrite lookup_alter, decide_True by done. unfold tstate in Ea. destruct (Ta !! x); done. }
  intros [b2 s3] (Tc & Gc & Kc & Hf & Ht2). rewrite (ready_add_ext _ _ _ _ Kb) in *. fold L2 in Gc, Hf, Ht2.
  assert (keeps T1 Tc) as Kc' by (by trans Tb).
  destruct (xorb (bool_decide (x = cur L)) b2) eqn:Esw.
  - clear Esw. eapply returns_bind with (P := fun s' => exists T', sinv T' (merged T1 L2) s' /\ keeps T1 T').
    + rewrite (good_pending _ _ _ _ _ Gc). case_bool_decide as Hpe.
      * eapply returns_bind; [by apply (sched_mergepending_spec H idle)|]. intros [b s4] (Td & Gd & Kd & _). apply returns_Ok.
        exists Td. split; [|by trans Tc]. split; [|by apply lock_ok_none].
        replace (merged T1 L2) with (merged Tc L2); [done|]. unfold merged. by rewrite (pmerge_ext T1 Tc) by (intros; by apply keeps_prio).
      * apply returns_Ok. exists Tc. split; [|done]. split; [|by apply lock_ok_none].
        apply (good_ext _ _ _ L2); [|done]. unfold merged. rewrite Hpe. by intros [].
    + intros s4 (T' & G' & K'). apply returns_Ok. exists T', (merged T1 L2). by split_and!.
  - apply returns_Ok. exists Tc, L2. split_and!; try done.
    + split; [done|]. apply (lock_ok_keeps T1); [done|].
      assert (forall y, locks T1 y = locks T y) as El.
      { intros y. unfold locks, T1. rewrite lookup_alter. destruct (decide (x = y)) as [<-|]; [|done]. by destruct (T !! x). }
      destruct b2.
      * destruct (Ht2 eq_refl) as [Ec Epn]. case_bool_decide as Ex; [|done]. intros Hpe. rewrite Ec, El. rewrite Ex. apply Hlk. by rewrite Epn in Hpe.
      * unfold L2. rewrite <- (ready_add_ext _ _ _ _ Kb). apply (lock_ok_keeps Tb); [by symmetry|]. apply lock_ok_ready_add; [done|].
        apply (lock_ok_keeps T1); [done|]. intros Hpe. rewrite El. case_bool_decide as Ex; [done|].
        unfold L1. rewrite (cur_lrem T) by done. by apply Hlk.
    + intros _. destruct b2.
      * destruct (Ht2 eq_refl) as [-> _]. by case_bool_decide.
      * rewrite (Hf eq_refl). case_bool_decide as Ex; [done|]. by apply (cur_lrem T).
Qed.
End Calls.
