(* ===== verification/SchedPrio.v ===== *)
(** * Priorities, the preemption lock and time slices

    The calls that change a task in place or move it within its list: changing a
    priority, taking and giving back the preemption lock, and the end of a time
    slice.  Each keeps the invariant [sinv] and the fields that other parts of the
    system rely on, and moves no task from or to a list of waiting tasks. *)

From stdpp Require Import functions.
From S2P Require Import Prelude Bits Links Queue Sched SchedRep SchedInv SchedOps SchedCalls.
Import Dq.
Local Open Scope Z_scope.
#[local] Hint Resolve stays_merged stays_ready_add stays_ready : nx.

Lemma s16_fits x : - 2 ^ 15 <= x < 2 ^ 15 -> s16 x = x.
Proof. intros. unfold s16. rewrite Z.mod_small; lia. Qed.

Section Prio.
Context (H : list (Z * Z)) (idle : Z).
Abbreviation srep := (srep H).
Abbreviation wf := (wf idle).
Abbreviation good := (good H idle).
Abbreviation sinv := (sinv H idle).

(** The effect of a call: the invariant holds with tasks that agree with [T1] up to
    their states, no task has moved from or to a list of waiting tasks, and
    without a switch the running task is the same. *)
Definition moved (T1 : gmap Z tcb_s) (L : tasklist -> list Z) (r : bool) (s' : sched) : Prop :=
  exists T' L', sinv T' L' s' /\ keeps T1 T' /\ stays L L' /\ within L L' /\ (r = false -> cur L' = cur L).

Lemma moved_here T L s : sinv T L s -> moved T L false s.
Proof. intros S. by exists T, L. Qed.

Lemma sinv_ext T L L' s : (forall l, L' l = L l) -> sinv T L s -> sinv T L' s.
Proof.
  intros E [G Hl]. split; [by apply (good_ext _ _ _ L)|]. intros Hp. unfold cur. rewrite E in *. by apply Hl.
Qed.

Lemma reprioritize_moved T L s x p :
  sinv T L s -> x ∈ L g_readytorun -> x <> idle -> 1 <= p <= 255 ->
  returns (up_reprioritize_rtr s x p) (fun '(r, s') => moved (alter (fun t => set_priority t p) x T) L r s').
Proof.
  intros S Hx Hi Hp. eapply returns_impl; [by apply (up_reprioritize_rtr_spec H idle T L s x p)|].
  intros [r s'] (T' & L' & S' & K & Hc & El). set (L2 := ready_add _ _ x) in El.
  assert (stays L L2) as Hst by (etrans; eauto with nx). assert (within L L2) as Hwi by (by apply within_again).
  exists T', L'. split_and!; try done.
  - intros l Hl. rewrite El. destruct r; [|by apply Hst]. etrans; [by apply stays_merged|by apply Hst].
  - intros y [l Hy]. rewrite El in Hy. apply Hwi. destruct r; [|by exists l]. apply (within_merged (alter (λ t, set_priority t p) x T) L2). by exists l.
Qed.

Lemma psorted_frame T x p l : x ∉ l -> psorted T l -> psorted (alter (fun t => set_priority t p) x T) l.
Proof.
  intros Hx. apply psorted_ext. intros y Hy. unfold prio. rewrite lookup_alter_ne; [done|]. by intros ->.
Qed.

Lemma locks_alter T x y f : (forall t, lockcount (f t) = lockcount t) -> locks (alter f x T) y = locks T y.
Proof.
  intros Hf. unfold locks. rewrite lookup_alter. destruct (decide (x = y)) as [<-|]; [|done]. destruct (T !! x); simpl; [apply Hf|done].
Qed.

Lemma lock_ok_alter T L x f : (forall t, lockcount (f t) = lockcount t) -> lock_ok T L -> lock_ok (alter f x T) L.
Proof. intros Hf Hl Hp. rewrite locks_alter by done. by apply Hl. Qed.

Lemma u8_prio p : 1 <= p <= 255 -> u8 p = p.
Proof. intros. unfold u8. apply Z.mod_small. lia. Qed.

(** A priority changed where the task is, in lists that stay sorted. *)
Lemma priority_in_place T L s x p :
  sinv T L s -> is_Some (T !! x) -> x <> idle -> 1 <= p <= 255 ->
  (forall l, prioritized l = true -> psorted (alter (fun t => set_priority t p) x T) (L l)) ->
  returns (tupd s x (fun t => set_priority t (u8 p))) (sinv (alter (fun t => set_priority t p) x T) L).
Proof.
  intros [[R W] Hl] Hs Hi Hp Hso. eapply returns_impl; [by apply (tupd_spec H _ _ _ x (fun t => set_priority t (u8 p)) R)|].
  intros s' R'. rewrite (u8_prio p Hp) in R'.
  split; [split; [done|]|by apply lock_ok_alter].
  apply wf_alter; try done.
  - intros t Ht. by apply (lockcount_range _ _ _ _ _ W Ht).
  - intros _ l _. destruct Hs as [t Ht]. unfold prio. by rewrite lookup_alter, decide_True, Ht by done.
Qed.

(** The head of a sorted list, with a priority above that of the next one. *)
Lemma psorted_raise T x t p y l :
  T !! x = Some t -> x ∉ y :: l -> prio T y < p -> psorted T (x :: y :: l) -> psorted (alter (fun t => set_priority t p) x T) (x :: y :: l).
Proof.
  intros Ht Hx Hp Hs. apply StronglySorted_inv in Hs as [Hs _]. constructor; [by apply psorted_frame|].
  assert (prio (alter (λ t, set_priority t p) x T) x = p) as ->.
  { unfold prio. by rewrite lookup_alter, decide_True, Ht by done. }
  apply Forall_forall. intros z Hz. unfold prio at 1. rewrite lookup_alter_ne by (intros ->; done). fold (prio T z).
  apply elem_of_cons in Hz as [->|Hz]; [lia|]. apply StronglySorted_inv in Hs as [_ Hy].
  rewrite Forall_forall in Hy. specialize (Hy z Hz). lia.
Qed.

Lemma running_setpriority_spec T L s x p :
  sinv T L s -> x = cur L -> x <> idle -> 1 <= p <= 255 ->
  returns (nxsched_running_setpriority s x p) (fun '(r, s') => moved (alter (fun t => set_priority t p) x T) L r s').
Proof.
  intros S -> Hi Hp. pose proof S as [[R W] _]. destruct (wf_cur _ _ _ W) as [r Er].
  assert (exists y l, r = y :: l) as (y & l & ->).
  { destruct r as [|y l]; [|eauto]. pose proof (wf_last _ _ _ W) as Hl. rewrite Er in Hl. by injection Hl. }
  assert (cur L ∈ L g_readytorun) as Hc by (rewrite Er; set_solver). pose proof (wf_in _ _ _ W _ _ Hc) as Hs. destruct Hs as [t Ht].
  pose proof (sr_q _ _ _ _ R g_readytorun) as Hq. rewrite Er in Hq. destruct (dqr_links _ _ _ Hq) as [EF _].
  destruct (wf_in _ _ _ W g_readytorun y ltac:(rewrite Er; set_solver)) as [n Hn].
  unfold nxsched_running_setpriority. rewrite (load_Ok _ _ _ (proj1 (sr_node _ _ _ _ R (cur L) ltac:(eauto))) EF), bind_Ok. simpl hd.
  rewrite (tget_Ok _ _ _ _ _ _ R Hn), bind_Ok, (tget_prio _ _ _ _ _ _ R Hn).
  destruct (p <=? prio T y) eqn:Ep; b2p.
  - rewrite (u8_prio p Hp). by apply reprioritize_moved.
  - eapply returns_bind; [apply (priority_in_place T L s); try done|intros s' M; by apply returns_Ok, moved_here].
    intros k Hk. destruct (decide (k = g_readytorun)) as [->|Hne].
    + pose proof (wf_sorted _ _ _ W g_readytorun eq_refl) as Hr. pose proof (wf_nodup _ _ _ W g_readytorun) as Hnd. rewrite Er in *.
      apply NoDup_cons in Hnd as [Hni _]. by apply (psorted_raise T _ t).
    + apply psorted_frame; [|by apply W]. intros Hin. apply Hne. by apply (wf_disj _ _ _ W _ _ (cur L)).
Qed.

Lemma readytorun_setpriority_spec T L s x p :
  sinv T L s -> x ∈ L g_readytorun -> x <> idle -> 1 <= p <= 255 -> prio T (cur L) < p ->
  returns (nxsched_readytorun_setpriority s x p) (fun '(r, s') => moved (alter (fun t => set_priority t p) x T) L r s').
Proof.
  intros S Hx Hi Hp Hlt. pose proof S as [[R W] _]. destruct (wf_in _ _ _ W _ _ (wf_cur_in _ _ _ W)) as [c Hc].
  unfold nxsched_readytorun_setpriority. rewrite (this_task_hd _ _ _ _ R). fold (cur L).
  rewrite (tget_Ok _ _ _ _ _ _ R Hc), bind_Ok, (tget_prio _ _ _ _ _ _ R Hc), (proj2 (Z.ltb_lt _ _) Hlt), (u8_prio p Hp).
  by apply reprioritize_moved.
Qed.

(** The lists after the priority of [x], in [l], has been changed. *)
Definition prio_lists (T : gmap Z tcb_s) (L : tasklist -> list Z) (l : tasklist) (x : Z) : tasklist -> list Z :=
  <[l := if prioritized l then pinsert T x (lrem x (L l)) else L l]> L.

Lemma restored T x st p :
  tstate T x = st -> alter (set_state st) x (alter (fun t => set_priority t p) x (alter (set_state TSTATE_TASK_INVALID) x T)) =
    alter (fun t => set_priority t p) x T.
Proof.
  intros E. apply map_eq. intros y. rewrite !lookup_alter. destruct (decide (x = y)) as [<-|]; [|done].
  rewrite !decide_True by done. unfold tstate in E. destruct (T !! x) as [t|]; [|done]. simpl. f_equal. subst st. by destruct t.
Qed.

Lemma tstate_priority T x p y : tstate (alter (fun t => set_priority t p) x T) y = tstate T y.
Proof. unfold tstate. rewrite lookup_alter. destruct (decide (x = y)) as [<-|]; [|done]. by destruct (T !! x). Qed.

Lemma wf_reinsert T L l x p :
  wf T L -> x ∈ L l -> l <> g_readytorun -> x <> idle -> 1 <= p <= 255 -> prioritized l = true ->
  let T1 := alter (fun t => set_priority t p) x T in
  wf T1 (<[l := pinsert T1 x (lrem x (L l))]> L).
Proof.
  intros W Hx Hl Hi Hp Hpr T1. pose proof (wf_in _ _ _ W _ _ Hx) as Hs. pose proof (wf_nodup _ _ _ W l) as Hnd.
  destruct (list_elem_of_split _ _ Hx) as (l1 & l2 & E). rewrite E in Hnd. rewrite E, lrem_split by done.
  set (T0 := alter (set_state TSTATE_TASK_INVALID) x T). assert (wf T0 (<[l := l1 ++ l2]> L)) as W0 by (by apply wf_remove).
  assert (tstate T0 x = TSTATE_TASK_INVALID) as E0 by (unfold T0; by rewrite tstate_alter, decide_True).
  set (T2 := alter (fun t => set_priority t p) x T0).
  assert (wf T2 (<[l := l1 ++ l2]> L)) as W2 by (apply wf_set_priority; try done; by apply (wf_invalid idle T0)).
  assert (T1 = alter (set_state (state_of L l x)) x T2) as E1.
  { unfold T1, T2, T0. symmetry. apply restored. by apply W. }
  assert (pinsert T1 x (l1 ++ l2) = pinsert T2 x (l1 ++ l2)) as ->.
  { apply pinsert_ext. intros. rewrite E1. apply prio_alter. done. }
  rewrite E1. apply (wf_ext _ _ (<[l := pinsert T2 x (l1 ++ l2)]> (<[l := l1 ++ l2]> L))).
  { intros k. destruct (decide (k = l)) as [->|]; [by rewrite !fn_lookup_insert|by rewrite !fn_lookup_insert_ne by done]. }
  assert (state_of L l x = state_of (<[l := l1 ++ l2]> L) l x) as -> by (by destruct l).
  apply wf_insert; try done.
  - unfold T2, T0. eauto with nx.
  - unfold T2. by rewrite tstate_priority.
  - destruct Hs as [t Ht]. unfold prio, T2, T0. by rewrite !lookup_alter, !decide_True, Ht by done.
  - rewrite fn_lookup_insert. apply pinsert_perm.
  - intros _. apply pinsert_sorted. pose proof (wf_sorted _ _ _ W2 l Hpr) as Hso. by rewrite fn_lookup_insert in Hso.
Qed.

Lemma srep_tlist T L s x l t : good T L s -> x ∈ L l -> T !! x = Some t -> task_state t = state_of L l x.
Proof. intros [_ W] Hx Ht. by rewrite (tstate_get _ _ _ Ht), (wf_state _ _ _ W l x Hx). Qed.

Lemma insert_twice (L : tasklist -> list Z) l a b k : (<[l := b]> (<[l := a]> L)) k = (<[l := b]> L) k.
Proof. destruct (decide (k = l)) as [->|]; [by rewrite !fn_lookup_insert|by rewrite !fn_lookup_insert_ne by done]. Qed.

Lemma lrem_nowhere T L l x k : wf T L -> x ∈ L l -> x ∉ (<[l := lrem x (L l)]> L) k.
Proof.
  intros W Hx. destruct (decide (k = l)) as [->|Hne].
  - rewrite fn_lookup_insert, elem_of_lrem. tauto.
  - rewrite fn_lookup_insert_ne by done. intros Hk. apply Hne. by apply (wf_disj _ _ _ W _ _ x).
Qed.

Lemma blocked_setpriority_spec T L s x p l :
  sinv T L s -> x ∈ L l -> l <> g_readytorun -> x <> idle -> 1 <= p <= 255 ->
  let T1 := alter (fun t => set_priority t p) x T in
  returns (nxsched_blocked_setpriority s x p) (fun s' => sinv T1 (prio_lists T1 L l x) s').
Proof.
  intros [[R W] Hlk] Hx Hl Hi Hp T1. destruct (wf_in _ _ _ W _ _ Hx) as [t Ht].
  unfold nxsched_blocked_setpriority, prio_lists. rewrite (tget_Ok _ _ _ _ _ _ R Ht), bind_Ok. cbv zeta.
  rewrite (srep_tlist T L s x l t (conj R W) Hx Ht), state_of_prio. destruct (prioritized l) eqn:Hpr.
  - unfold tlist. rewrite state_of_list, bind_Ok. pose proof (wf_nodup _ _ _ W l) as Hnd.
    destruct (list_elem_of_split _ _ Hx) as (l1 & l2 & E). rewrite E in Hnd.
    eapply returns_bind; [by apply (trem_spec _ _ _ _ l l1 x l2 R)|]. intros s1 R1.
    rewrite <- (lrem_split x l1 l2), <- E in R1 by done.
    eapply returns_bind; [apply (tupd_spec H _ _ _ x (fun t => set_priority t (u8 p)) R1); eauto|]. intros s2 R2.
    rewrite (u8_prio p Hp) in R2. fold T1 in R2.
    eapply returns_bind.
    { apply (sched_addprioritized_spec H T1 _ _ x l R2); [unfold T1; eauto with nx|]. intros k. by apply (lrem_nowhere T). }
    intros [r s3] [_ R3]. rewrite fn_lookup_insert in R3. apply returns_Ok. split; [split|].
    + apply (srep_ext _ _ _ _ _ (fun k => eq_sym (insert_twice _ _ _ _ k)) R3).
    + by apply (wf_reinsert T L l x p).
    + intros Hpe. rewrite cur_insert by done. unfold T1. rewrite locks_alter by done. apply Hlk.
      destruct (decide (l = g_pendingtasks)) as [->|Hne]; [|by rewrite fn_lookup_insert_ne in Hpe]. intros E0. by rewrite E0 in Hx; set_solver.
  - eapply returns_impl.
    + apply (priority_in_place T L s); eauto; [by split|]. intros k Hk. apply psorted_frame; [|by apply W].
      intros Hin. pose proof (wf_disj _ _ _ W _ _ _ Hx Hin). congruence.
    + intros s1. apply sinv_ext. intros k. destruct (decide (k = l)) as [->|]; [by rewrite fn_lookup_insert|by rewrite fn_lookup_insert_ne].
Qed.

(** A task that is ready but not running is only given a priority above that of
    the running task. *)
Lemma nxsched_setpriority_spec T L s x p l :
  sinv T L s -> x ∈ L l -> x <> idle -> (l = g_readytorun -> x <> cur L -> prio T (cur L) < p) ->
  returns (nxsched_setpriority s x p) (fun '(ret, r, s') =>
    if bool_decide (1 <= p <= 255) then ret = OK /\ moved (alter (fun t => set_priority t p) x T) L r s'
    else ret = - EINVAL /\ r = false /\ s' = s).
Proof.
  intros S Hx Hi Hlow. pose proof S as [[R W] Hlk]. destruct (wf_in _ _ _ W _ _ Hx) as [t Ht]. unfold nxsched_setpriority.
  case_bool_decide as Hp.
  - assert ((p <? SCHED_PRIORITY_MIN) || (SCHED_PRIORITY_MAX <? p) = false) as ->.
    { unfold SCHED_PRIORITY_MIN, SCHED_PRIORITY_MAX. apply orb_false_iff. lia. }
    rewrite (tget_Ok _ _ _ _ _ _ R Ht), bind_Ok, (srep_tlist T L s x l t (conj R W) Hx Ht).
    assert (l <> g_readytorun -> returns (s' ← nxsched_blocked_setpriority s x p; Ok (false, s'))
      (fun '(r, s') => moved (alter (fun t => set_priority t p) x T) L r s')) as Hb.
    { intros Hl. eapply returns_bind; [by apply (blocked_setpriority_spec T L s x p l)|]. intros s' S'. apply returns_Ok.
      eexists _, _. split; [exact S'|]. split; [done|]. split; [|split; [|by intros _; apply cur_insert]].
      2: { apply within_insert. intros y Hy. exists l. destruct (prioritized l); [|done]. apply elem_of_pinsert in Hy as [->|[Hy _]%elem_of_lrem]; done. }
      intros k Hk.
      unfold prio_lists. destruct (decide (k = l)) as [->|]; [|by rewrite fn_lookup_insert_ne]. rewrite fn_lookup_insert.
      destruct (prioritized l); [|done]. rewrite pinsert_perm. pose proof (wf_nodup _ _ _ W l) as Hnd.
      destruct (list_elem_of_split _ _ Hx) as (l1 & l2 & E). rewrite E in *. rewrite lrem_split by done. apply Permutation_middle. }
    eapply returns_bind with (P := fun '(r, s') => moved (alter (fun t => set_priority t p) x T) L r s').
    + destruct l; simpl state_of; try by apply Hb. destruct (decide (x = cur L)) as [Hc|Hc].
      * by apply running_setpriority_spec.
      * by apply readytorun_setpriority_spec; auto.
    + intros [r s'] M. by apply returns_Ok.
  - assert ((p <? SCHED_PRIORITY_MIN) || (SCHED_PRIORITY_MAX <? p) = true) as ->; [|by apply returns_Ok].
    unfold SCHED_PRIORITY_MIN, SCHED_PRIORITY_MAX. apply orb_true_iff. lia.
Qed.

(** The same for any task, also one that is being created and is in no list. *)
Lemma nxsched_setpriority_any T L s x p :
  sinv T L s -> is_Some (T !! x) -> x <> idle -> (x ∈ L g_readytorun -> x <> cur L -> prio T (cur L) < p) ->
  returns (nxsched_setpriority s x p) (fun '(ret, r, s') =>
    if bool_decide (1 <= p <= 255) then ret = OK /\ moved (alter (fun t => set_priority t p) x T) L r s'
    else ret = - EINVAL /\ r = false /\ s' = s).
Proof.
  intros S [t Ht] Hi Hlow. pose proof S as [[R W] Hlk]. destruct (decide (tstate T x = TSTATE_TASK_INVALID)) as [Ex|Ex].
  - pose proof (wf_invalid _ _ _ _ W Ex) as Hno. unfold nxsched_setpriority. case_bool_decide as Hp.
    + assert ((p <? SCHED_PRIORITY_MIN) || (SCHED_PRIORITY_MAX <? p) = false) as ->.
      { unfold SCHED_PRIORITY_MIN, SCHED_PRIORITY_MAX. apply orb_false_iff. lia. }
      unfold nxsched_blocked_setpriority. rewrite (tget_Ok _ _ _ _ _ _ R Ht), !bind_Ok, (tstate_get _ _ _ Ht), Ex. cbn [TLIST_ISPRIORITIZED].
      eapply returns_bind with (P := fun '(r, s') => moved (alter (fun t => set_priority t p) x T) L r s');
        [|intros [sw s'] M; by apply returns_Ok].
      eapply returns_bind; [apply (priority_in_place T L s x p); eauto|intros s' M; by apply returns_Ok, moved_here].
      intros l Hl. apply psorted_frame; [done|by apply W].
    + assert ((p <? SCHED_PRIORITY_MIN) || (SCHED_PRIORITY_MAX <? p) = true) as ->; [|by apply returns_Ok].
      unfold SCHED_PRIORITY_MIN, SCHED_PRIORITY_MAX. apply orb_true_iff. lia.
  - destruct (wf_all _ _ _ W x Ex) as [l Hl]. apply (nxsched_setpriority_spec T L s x p l); try done. intros ->. by apply Hlow.
Qed.

(** *** The preemption lock *)

Lemma field_in_place T L s x f :
  srep T L s -> wf T L -> is_Some (T !! x) -> (forall t, task_state (f t) = task_state t) -> (forall t, sched_priority (f t) = sched_priority t) ->
  (forall t, T !! x = Some t -> 0 <= lockcount (f t) <= 32767) ->
  returns (tupd s x f) (good (alter f x T) L).
Proof.
  intros R W Hs H1 H2 H3. eapply returns_impl; [by apply (tupd_spec H _ _ _ x f R)|]. intros s' R'. split; [done|by apply wf_field].
Qed.

Lemma sinv_cur T L s : sinv T L s -> this_task s = cur L /\ this_task s =? 0 = false /\ is_Some (T !! cur L).
Proof.
  intros [[R W] _]. pose proof (wf_in _ _ _ W _ _ (wf_cur_in _ _ _ W)) as Hs.
  assert (this_task s = cur L) as E by (by rewrite (this_task_hd _ _ _ _ R)). split_and!; try done.
  rewrite E. apply Z.eqb_neq. by apply (sr_node _ _ _ _ R).
Qed.

Lemma sched_lock_spec T L s :
  sinv T L s -> locks T (cur L) < 32767 ->
  returns (sched_lock s false) (sinv (alter (fun t => set_lockcount t (lockcount t + 1)) (cur L) T) L).
Proof.
  intros S Hlt. destruct (sinv_cur _ _ _ S) as (Ec & E0 & [c Hc]). pose proof S as [[R W] Hlk].
  pose proof (lockcount_range _ _ _ _ _ W Hc) as Hr. unfold sched_lock. cbv zeta. rewrite E0, Ec. cbn [negb andb].
  assert (lockcount c < 32767) as Hc1 by (unfold locks in Hlt; by rewrite Hc in Hlt).
  eapply returns_impl; [apply (field_in_place T L s _ _ R W); eauto|].
  - intros t Ht. assert (t = c) as -> by congruence. simpl. rewrite s16_fits; lia.
  - intros s' G. set (f := fun t => set_lockcount t (s16 (lockcount t + 1))) in *.
    assert (alter f (cur L) T = alter (fun t => set_lockcount t (lockcount t + 1)) (cur L) T) as <-.
    { apply map_eq. intros y. rewrite !lookup_alter. destruct (decide (cur L = y)) as [<-|]; [|done]. rewrite Hc. unfold f. simpl.
      by rewrite s16_fits by lia. }
    split; [done|]. intros _. unfold locks. rewrite lookup_alter, decide_True, Hc by done. simpl. rewrite s16_fits; lia.
Qed.

Lemma sched_unlock_spec T L s :
  sinv T L s ->
  returns (sched_unlock s false) (fun '(r, s') =>
    moved (alter (fun t => set_lockcount t (Z.max 0 (lockcount t - 1))) (cur L) T) L r s').
Proof.
  intros S. destruct (sinv_cur _ _ _ S) as (Ec & E0 & [c Hc]). pose proof S as [[R W] Hlk].
  pose proof (lockcount_range _ _ _ _ _ W Hc) as Hr. unfold sched_unlock. cbv zeta. rewrite E0, Ec. cbn [negb andb].
  rewrite (tget_Ok _ _ _ _ _ _ R Hc), bind_Ok. set (n := if 0 <? lockcount c then _ else _).
  assert (n = Z.max 0 (lockcount c - 1)) as En.
  { unfold n. destruct (0 <? lockcount c) eqn:E; b2p; [rewrite s16_fits|]; lia. }
  assert (alter (fun t => set_lockcount t (Z.max 0 (lockcount t - 1))) (cur L) T = alter (fun t => set_lockcount t n) (cur L) T) as ->.
  { apply map_eq. intros y. rewrite !lookup_alter. destruct (decide (cur L = y)) as [<-|]; [|done]. rewrite Hc. simpl. by rewrite En. }
  set (T1 := alter _ _ T).
  eapply returns_bind; [apply (field_in_place T L s _ _ R W); eauto; intros t _; simpl; lia|]. intros s1 [R1 W1].
  destruct (n <=? 0) eqn:E; b2p.
  - assert (n = 0) as En0 by lia. eapply returns_bind; [apply (field_in_place _ _ _ _ _ R1 W1); eauto with nx; intros; simpl; lia|]. intros s2 G2.
    fold T1 in G2. assert (alter (fun t => set_lockcount t 0) (cur L) T1 = T1) as E2.
    { unfold T1. apply map_eq. intros y. rewrite !lookup_alter. destruct (decide (cur L = y)) as [<-|]; [|done]. rewrite decide_True, Hc by done. simpl. by rewrite En0. }
    rewrite E2 in G2. rewrite (good_pending _ _ _ _ _ G2). case_bool_decide as Hp.
    + eapply returns_impl; [by apply (up_release_pending_spec H idle T1 L s2)|]. intros [r s3] (T' & S' & K & Hf).
      exists T', (merged T1 L). split_and!; eauto with nx. by apply within_merged.
    + apply returns_Ok, moved_here. split; [done|]. by apply lock_ok_none; destruct (L g_pendingtasks).
  - apply returns_Ok, moved_here. split; [done|]. intros _. unfold locks, T1. by rewrite lookup_alter, decide_True, Hc by done.
Qed.

(** *** Time slices *)

Lemma field_sinv T L s x f :
  sinv T L s -> is_Some (T !! x) ->
  (forall t, task_state (f t) = task_state t) -> (forall t, sched_priority (f t) = sched_priority t) -> (forall t, lockcount (f t) = lockcount t) ->
  returns (tupd s x f) (sinv (alter f x T) L).
Proof.
  intros [[R W] Hlk] Hs H1 H2 H3. eapply returns_impl; [apply (field_in_place T L s x _ R W); eauto|].
  - intros t Ht. rewrite H3. by apply (lockcount_range _ _ _ _ _ W Ht).
  - intros s' G. split; [done|by apply lock_ok_alter].
Qed.

Lemma slice_in_place T L s x v :
  sinv T L s -> is_Some (T !! x) -> returns (tupd s x (fun t => set_timeslice t v)) (sinv (alter (fun t => set_timeslice t v) x T) L).
Proof. intros. by apply field_sinv. Qed.

Lemma sched_unlock_end_spec T L s x :
  sinv T L s -> is_Some (T !! x) -> returns (sched_unlock_end s x) (fun s' =>
    sinv T L s' \/ sinv (alter (fun t => set_timeslice t (MSEC2TICK CONFIG_RR_INTERVAL)) x T) L s').
Proof.
  intros S [t Ht]. pose proof S as [[R W] _]. unfold sched_unlock_end. rewrite (tget_Ok _ _ _ _ _ _ R Ht), bind_Ok.
  split_if; [|apply returns_Ok; by left].
  eapply returns_impl; [apply (slice_in_place T L s); eauto|]. by right.
Qed.

Lemma alter_id (T : gmap Z tcb_s) (x : Z) t (f : tcb_s -> tcb_s) : T !! x = Some t -> f t = t -> alter f x T = T.
Proof.
  intros Hx Hf. apply map_eq. intros y. rewrite lookup_alter. destruct (decide (x = y)) as [<-|]; [|done]. rewrite Hx. simpl. by rewrite Hf.
Qed.

(** The lists after the slice of the running task has ended. *)
Definition rr_lists (T : gmap Z tcb_s) (L : tasklist -> list Z) : tasklist -> list Z :=
  <[g_readytorun := pinsert T (cur L) (lrem (cur L) (L g_readytorun))]> L.

Lemma rotate_spec T L s t :
  sinv T L s -> T !! cur L = Some t -> cur L <> idle -> lockcount t = 0 -> prio T (cur L) <= prio T (hd 0 (lrem (cur L) (L g_readytorun))) ->
  returns (up_reprioritize_rtr s (cur L) (sched_priority t)) (fun '(r, s') =>
    exists T', sinv T' (rr_lists T L) s' /\ keeps T T' /\ (r = false -> cur (rr_lists T L) = cur L)).
Proof.
  intros S Ht Hi Hl Hle. pose proof S as [[R W] Hlk].
  assert (prio T (cur L) = sched_priority t) as Ep by (unfold prio; by rewrite Ht).
  pose proof (wf_prio _ _ _ W g_readytorun (cur L) (wf_cur_in _ _ _ W) Hi) as Hp. rewrite Ep in Hp.
  eapply returns_impl; [apply (up_reprioritize_rtr_spec H idle T L s (cur L)); try done; by apply (wf_cur_in _ _ _ W)|].
  rewrite (alter_id T (cur L) t) by (done || by destruct t).
  intros [r s'] (T' & L' & S' & K & Hf & E).
  assert (L g_pendingtasks = []) as E0.
  { destruct (L g_pendingtasks) eqn:E0; [done|]. assert (L g_pendingtasks <> []) as Hne by (by rewrite E0). specialize (Hlk Hne). unfold locks in Hlk. rewrite Ht in Hlk. lia. }
  assert (forall k, rr_lists T L k = L' k) as El.
  { intros k. rewrite E. unfold rr_lists, ready_add. set (R1 := lrem (cur L) (L g_readytorun)) in *.
    change (cur (<[g_readytorun := R1]> L)) with (hd 0 R1).
    rewrite (proj2 (Z.ltb_ge _ _) Hle), andb_false_r. unfold merged. rewrite insert_twice, !(fn_lookup_insert_ne _ g_readytorun g_pendingtasks), E0 by done.
    destruct r, k; done. }
  exists T'. split; [by apply (sinv_ext _ L')|]. split; [done|]. intros Er. unfold cur at 1. rewrite El. by apply Hf.
Qed.

Lemma ready_next T L : wf T L -> cur L <> idle -> exists y l, L g_readytorun = cur L :: y :: l.
Proof.
  intros W Hi. destruct (wf_cur _ _ _ W) as [[|y l] Er]; [|eauto]. pose proof (wf_last _ _ _ W) as Hl. rewrite Er in Hl. by injection Hl.
Qed.

(** The end of the slice of the running task, which then has a whole slice again. *)
Definition slice_ends (t : tcb_s) : bool := (timeslice t <=? 1) && (lockcount t =? 0).
Definition new_slice (t : tcb_s) : Z := if slice_ends t then MSEC2TICK CONFIG_RR_INTERVAL else Z.max 0 (timeslice t - 1).

Lemma sched_roundrobin_process_spec T L s t :
  sinv T L s -> T !! cur L = Some t -> cur L <> idle -> 0 <= timeslice t < 2 ^ 31 ->
  returns (sched_roundrobin_process s (cur L) 1 false) (fun '(_, r, s') =>
    exists T' L', sinv T' L' s' /\ keeps (alter (fun t => set_timeslice t (new_slice t)) (cur L) T) T' /\
      (r = false -> cur L' = cur L) /\ forall l, L' l = if slice_ends t then rr_lists T L l else L l).
Proof.
  intros S Ht Hi Hts. pose proof S as [[R W] _]. pose proof (lockcount_range _ _ _ _ _ W Ht) as Hr.
  destruct (ready_next _ _ W Hi) as (y & rest & Er). unfold sched_roundrobin_process. rewrite (tget_Ok _ _ _ _ _ _ R Ht), bind_Ok. cbv zeta.
  rewrite (u32_small (timeslice t)) by lia. set (left := s32 _).
  assert (left = Z.max 0 (timeslice t - 1)) as El.
  { unfold left. destruct (timeslice t <? 1) eqn:E; b2p; rewrite (s32_small (timeslice t)) || rewrite (s32_small 1); try lia; rewrite s32_small; lia. }
  eapply returns_bind; [by apply (slice_in_place T L s (cur L) left S); eauto|]. intros s1 S1.
  assert (forall v, alter (fun t => set_timeslice t v) (cur L) (alter (fun t => set_timeslice t left) (cur L) T) = alter (fun t => set_timeslice t v) (cur L) T) as E2.
  { intros v. apply map_eq. intros z. rewrite !lookup_alter. destruct (decide (cur L = z)) as [<-|]; [|done]. by rewrite decide_True, Ht by done. }
  assert (alter (fun t => set_timeslice t (new_slice t)) (cur L) T = alter (fun u => set_timeslice u (new_slice t)) (cur L) T) as ->.
  { apply map_eq. intros z. rewrite !lookup_alter. destruct (decide (cur L = z)) as [<-|]; [|done]. by rewrite Ht. }
  assert ((left <=? 0) && negb (0 <? lockcount t) = slice_ends t) as Ee.
  { unfold slice_ends. apply eq_true_iff_eq. rewrite !andb_true_iff, negb_true_iff. lia. }
  unfold new_slice. rewrite Ee. destruct (slice_ends t) eqn:Es; [|apply returns_Ok; rewrite <- El; eexists _, L; split; [exact S1|done]].
  set (v := MSEC2TICK CONFIG_RR_INTERVAL). unfold slice_ends in Es. b2p.
  eapply returns_bind; [by apply (slice_in_place _ L s1 (cur L) v S1); eauto with nx|]. intros s2 S2. rewrite E2 in S2.
  set (T1 := alter (fun u => set_timeslice u v) (cur L) T) in *. pose proof S2 as [[R2 W2] _].
  assert (T1 !! cur L = Some (set_timeslice t v)) as Ht1 by (unfold T1; by rewrite lookup_alter, decide_True, Ht by done).
  assert (forall z, prio T1 z = prio T z) as Ep by (intros; by apply prio_alter).
  pose proof (sr_q _ _ _ _ R2 g_readytorun) as Hq. rewrite Er in Hq. destruct (dqr_links _ _ _ Hq) as [EF _].
  rewrite (load_Ok _ _ _ (proj1 (sr_node _ _ _ _ R2 (cur L) ltac:(eauto))) EF), bind_Ok. simpl hd.
  destruct (wf_in _ _ _ W2 g_readytorun y ltac:(rewrite Er; set_solver)) as [n Hn].
  assert (y =? 0 = false) as -> by (apply Z.eqb_neq; by apply (sr_node _ _ _ _ R2)).
  rewrite (tget_Ok _ _ _ _ _ _ R2 Hn), bind_Ok, (tget_prio _ _ _ _ _ _ R2 Hn), Ep.
  assert (sched_priority t = prio T (cur L)) as Etp by (unfold prio; by rewrite Ht).
  assert (lrem (cur L) (L g_readytorun) = y :: rest) as Elr.
  { pose proof (wf_nodup _ _ _ W g_readytorun) as Hnd. rewrite Er in *. by apply (lrem_split _ [] (y :: rest)). }
  assert (forall k, rr_lists T1 L k = rr_lists T L k) as Err.
  { intros k. unfold rr_lists. by rewrite (pinsert_ext T T1) by done. }
  destruct (sched_priority t <=? prio T y) eqn:Eq; b2p; rewrite Etp in Eq.
  - eapply returns_bind; [apply (rotate_spec T1 L s2 (set_timeslice t v)); try done; rewrite !Ep, Elr; done|].
    intros [r s3] (T' & S' & K & Hf). apply returns_Ok. by exists T', (rr_lists T1 L).
  - apply returns_Ok. exists T1, L. split_and!; try done. intros k. unfold rr_lists. rewrite Elr. simpl pinsert.
    rewrite (proj2 (Z.leb_gt _ _) Eq), <- Er. destruct k; done.
Qed.

Definition is_rr (t : tcb_s) : bool := Z.land (flags t) TCB_FLAG_POLICY_MASK =? TCB_FLAG_SCHED_RR.

Lemma nxsched_cpu_scheduler_spec T L s t :
  sinv T L s -> T !! cur L = Some t -> (is_rr t = true -> cur L <> idle /\ 0 <= timeslice t < 2 ^ 31) ->
  returns (nxsched_cpu_scheduler s) (fun '(r, s') =>
    exists T' L', sinv T' L' s' /\
      keeps (if is_rr t then alter (fun t => set_timeslice t (new_slice t)) (cur L) T else T) T' /\
      (r = false -> cur L' = cur L) /\ forall l, L' l = if is_rr t && slice_ends t then rr_lists T L l else L l).
Proof.
  intros S Ht Hrr. destruct (sinv_cur _ _ _ S) as (Ec & _ & _). pose proof S as [[R W] _]. unfold nxsched_cpu_scheduler. cbv zeta.
  rewrite Ec, (tget_Ok _ _ _ _ _ _ R Ht), bind_Ok. fold (is_rr t). destruct (is_rr t).
  - destruct (Hrr eq_refl) as [Hi Hts]. eapply returns_bind; [by apply (sched_roundrobin_process_spec T L s t)|].
    intros [[left r] s'] M. by apply returns_Ok.
  - apply returns_Ok. by exists T, L.
Qed.
End Prio.
