(* ===== verification/Sem.v ===== *)
(** * Counting semaphores (src/nuttx/sched/semaphore, src/nuttx/libs/libc/semaphore)

    A semaphore is its count.  A count that is negative is minus the number of
    tasks that wait; these are in [g_waitingforsemaphore] with the address of the
    semaphore in [waitsem].  Each function runs with interrupts disabled, up to a
    call that blocks the running task: [nxsem_wait] then gives what the task still
    needs when it runs again, and [nxsem_wait_end] is the rest of the function. *)

From stdpp Require Import functions.
From S2P Require Import Prelude Bits Links Queue Sched.
Import Dq.
Local Open Scope Z_scope.

Definition SEM_VALUE_MAX : Z := 32767.
Definition ETIMEDOUT : Z := 116.

(** [sems] has the [semcount] of each [sem_t]; [g_irqerrno] is the [errno] of
    interrupt handlers and [g_lastpid] the task identifier given out last. *)
Record ksys := mk_ksys {
  sch : sched;
  sems : gmap Z Z;
  g_irqerrno : Z;
  g_lastpid : Z
}.

Definition set_sch (k : ksys) (s : sched) : ksys := mk_ksys s (sems k) (g_irqerrno k) (g_lastpid k).

Definition ktupd (k : ksys) (t : Z) (f : tcb_s -> tcb_s) : res ksys := s ← tupd (sch k) t f; Ok (set_sch k s).

Definition set_semcount (k : ksys) (sem c : Z) : res ksys :=
  m ← store (sems k) sem (s16 c); Ok (mk_ksys (sch k) m (g_irqerrno k) (g_lastpid k)).

(** ** errno *)

(** [irq] is [up_interrupt_context()]. *)
Definition set_errno (k : ksys) (irq : bool) (e : Z) : res ksys :=
  let rtcb := this_task (sch k) in
  if negb irq && negb (rtcb =? 0) then
    t ← tget (sch k) rtcb;
    if bool_decide (task_state t = TSTATE_TASK_RUNNING) then ktupd k rtcb (fun t => set_pterrno t e)
    else Ok (mk_ksys (sch k) (sems k) e (g_lastpid k))
  else Ok (mk_ksys (sch k) (sems k) e (g_lastpid k)).

(** What the interface of applications makes of a negated [errno] value. *)
Definition api_return (k : ksys) (ret : Z) : res (Z * ksys) :=
  if ret <? 0 then k ← set_errno k false (- ret); Ok (ERROR, k) else Ok (ret, k).

(** ** Creating and reading *)

Definition nxsem_init (k : ksys) (sem value : Z) : res (Z * ksys) :=
  if negb (sem =? 0) && (value <=? SEM_VALUE_MAX) then k ← set_semcount k sem value; Ok (OK, k)
  else Ok (- EINVAL, k).

Definition nxsem_getvalue (k : ksys) (sem : Z) : res (Z * option Z) :=
  if negb (sem =? 0) then c ← load (sems k) sem; Ok (OK, Some c) else Ok (- EINVAL, None).

Definition nxsem_destroy (k : ksys) (sem : Z) : res (Z * ksys) :=
  if negb (sem =? 0) then
    c ← load (sems k) sem;
    k ← (if 0 <=? c then set_semcount k sem 1 else Ok k);
    Ok (OK, k)
  else Ok (- EINVAL, k).

(** ** Taking *)

(** The function returns, or the task is blocked with [errno] saved. *)
Inductive outcome := Done (ret : Z) | Block (saved_errno : Z).

Definition nxsem_wait (k : ksys) (sem : Z) : res (outcome * ksys) :=
  let rtcb := this_task (sch k) in
  if negb (sem =? 0) then
    c ← load (sems k) sem;
    if 0 <? c then
      k ← set_semcount k sem (c - 1);
      k ← ktupd k rtcb (fun t => set_waitsem t 0);
      Ok (Done OK, k)
    else
      k ← set_semcount k sem (c - 1);
      k ← ktupd k rtcb (fun t => set_waitsem t sem);
      t ← tget (sch k) rtcb;
      k ← ktupd k rtcb (fun t => set_pterrno t OK);
      '(_, s) ← up_block_task (sch k) rtcb TSTATE_WAIT_SEM;
      Ok (Block (pterrno t), set_sch k s)
  else Ok (Done (- EINVAL), k).

(** When the task [rtcb] runs again. *)
Definition nxsem_wait_end (k : ksys) (rtcb saved_errno : Z) : res (Z * ksys) :=
  t ← tget (sch k) rtcb;
  let ret := if negb (pterrno t =? OK) then - pterrno t else OK in
  k ← ktupd k rtcb (fun t => set_pterrno t saved_errno);
  Ok (ret, k).

Definition nxsem_trywait (k : ksys) (sem : Z) : res (Z * ksys) :=
  let rtcb := this_task (sch k) in
  if negb (sem =? 0) then
    c ← load (sems k) sem;
    if 0 <? c then
      k ← set_semcount k sem (c - 1);
      k ← ktupd k rtcb (fun t => set_waitsem t 0);
      Ok (OK, k)
    else Ok (- EAGAIN, k)
  else Ok (- EINVAL, k).

(** ** Giving *)

(** [for (stcb = g_waitingforsemaphore.head; stcb && stcb->waitsem != sem; stcb = stcb->flink)] *)
Fixpoint find_waiter (fuel : nat) (s : sched) (stcb sem : Z) : res Z :=
  match fuel with
  | O => Err Diverge
  | S fuel =>
      if stcb =? 0 then Ok 0
      else
        t ← tget s stcb;
        if negb (waitsem t =? sem) then f ← load (dq_flink (links s)) stcb; find_waiter fuel s f sem
        else Ok stcb
  end.

(** The status, and whether the processor is switched. *)
Definition nxsem_post (k : ksys) (sem : Z) : res (Z * bool * ksys) :=
  if negb (sem =? 0) then
    c0 ← load (sems k) sem;
    k ← set_semcount k sem (c0 + 1);
    c ← load (sems k) sem;
    if c <=? 0 then
      let s := sch k in
      stcb ← find_waiter (walk_fuel (dq_flink (links s))) s (dq_head (lists s g_waitingforsemaphore)) sem;
      if negb (stcb =? 0) then
        k ← ktupd k stcb (fun t => set_waitsem t 0);
        '(sw, s) ← up_unblock_task (sch k) stcb;
        Ok (OK, sw, set_sch k s)
      else Ok (OK, false, k)
    else Ok (OK, false, k)
  else Ok (- EINVAL, false, k).

(** [while (sem->semcount < 0 && count > 0)]; the [count] still to be given out. *)
Fixpoint reset_loop (fuel : nat) (k : ksys) (sem count : Z) : res (Z * bool * ksys) :=
  c ← load (sems k) sem;
  if (c <? 0) && (0 <? count) then
    match fuel with
    | O => Err Diverge
    | S fuel =>
        '(_, sw, k) ← nxsem_post k sem;
        '(n, sw', k) ← reset_loop fuel k sem (s16 (count - 1));
        Ok (n, sw || sw', k)
    end
  else Ok (count, false, k).

(** The part of [nxsem_reset] between [sched_lock] and [sched_unlock]; [count] is of
    [int16_t]. *)
Definition nxsem_reset_locked (k : ksys) (sem count : Z) : res (bool * ksys) :=
  '(count, sw, k) ← reset_loop (Z.to_nat count) k sem count;
  c ← load (sems k) sem;
  k ← (if 0 <=? c then set_semcount k sem count else Ok k);
  Ok (sw, k).

(** ** Ending a wait *)

Definition nxsem_wait_irq (k : ksys) (wtcb errcode : Z) : res (bool * ksys) :=
  t ← tget (sch k) wtcb;
  if bool_decide (task_state t = TSTATE_WAIT_SEM) then
    let sem := waitsem t in
    c ← load (sems k) sem;
    k ← set_semcount k sem (c + 1);
    k ← ktupd k wtcb (fun t => set_waitsem t 0);
    k ← ktupd k wtcb (fun t => set_pterrno t errcode);
    '(sw, s) ← up_unblock_task (sch k) wtcb;
    Ok (sw, set_sch k s)
  else Ok (false, k).

(** The handler of the watchdog of a wait with a timeout. *)
Definition nxsem_timeout (k : ksys) (pid : Z) : res (bool * ksys) :=
  wtcb ← sched_gettcb (sch k) pid;
  if negb (wtcb =? 0) then
    t ← tget (sch k) wtcb;
    if bool_decide (task_state t = TSTATE_WAIT_SEM) then nxsem_wait_irq k wtcb ETIMEDOUT else Ok (false, k)
  else Ok (false, k).

(** For a task that is deleted. *)
Definition nxsem_recover (k : ksys) (tcb : Z) : res ksys :=
  t ← tget (sch k) tcb;
  if bool_decide (task_state t = TSTATE_WAIT_SEM) then
    let sem := waitsem t in
    c ← load (sems k) sem;
    k ← set_semcount k sem (c + 1);
    ktupd k tcb (fun t => set_waitsem t 0)
  else Ok k.
