(* ===== verification/SemOps.v ===== *)
(** * The invariant of semaphores

    A semaphore as the specification sees it: [w] gives the semaphore that a task
    waits for, [W] the tasks that wait, the one to be served first in front, and
    [S] the counts.  A count below zero is minus the number of tasks that wait,
    and no task waits for a semaphore that has a count. *)

From stdpp Require Import functions.
From S2P Require Import Prelude Bits Links Queue Sched SchedRep SchedInv SchedOps SchedCalls SchedPrio Sem.
Local Open Scope Z_scope.

(** The tasks that wait for [sem]. *)
Definition waiters (w : Z -> Z) (W : list Z) (sem : Z) : list Z := filter (fun x => w x = sem) W.

Record sem_ok (w : Z -> Z) (W : list Z) (S : gmap Z Z) : Prop := {
  so_in x : x ∈ W -> w x <> 0 /\ is_Some (S !! w x);
  so_out x : x ∉ W -> w x = 0;
  so_count sem c : S !! sem = Some c -> Z.of_nat (length (waiters w W sem)) = Z.max 0 (- c);
  so_max sem c : S !! sem = Some c -> c <= 32767
}.

Lemma waiters_ext w w' W sem : (forall x, x ∈ W -> w' x = w x) -> waiters w' W sem = waiters w W sem.
Proof.
  unfold waiters. induction W as [|x W IH]; intros E; [done|]. rewrite !filter_cons, IH by (intros; apply E; set_solver).
  by rewrite E by set_solver.
Qed.

Lemma waiters_length w W sem : (length (waiters w W sem) <= length W)%nat.
Proof. apply length_filter. Qed.

Section Steps.
Context (w : Z -> Z) (W : list Z) (S : gmap Z Z).
Hypothesis (O : sem_ok w W S).

Lemma so_ext w' W' : (forall x, w' x = w x) -> W' ≡ₚ W -> sem_ok w' W' S.
Proof.
  intros Ew Ep. split.
  - intros x. rewrite Ep, Ew. apply O.
  - intros x. rewrite Ep, Ew. apply O.
  - intros sem c E. rewrite <- (so_count _ _ _ O _ _ E). f_equal. unfold waiters. rewrite Ep.
    fold (waiters w' W sem). by rewrite (waiters_ext w w').
  - apply O.
Qed.

(** A count that changes while no task waits. *)
Lemma so_set sem c v : S !! sem = Some c -> 0 <= c -> 0 <= v <= 32767 -> sem_ok w W (<[sem := v]> S).
Proof.
  intros E Hc Hv. split.
  - intros x [H1 H2]%(so_in _ _ _ O). split; [done|]. rewrite lookup_insert. case_decide; [eauto|done].
  - apply O.
  - intros sem' c'. rewrite lookup_insert. case_decide as Es; [|apply O]. intros [= <-]. subst sem'.
    rewrite (so_count _ _ _ O _ _ E). lia.
  - intros sem' c'. rewrite lookup_insert. case_decide; [intros [= <-]; lia|apply O].
Qed.

(** A task begins to wait. *)
Lemma so_block x sem c :
  S !! sem = Some c -> c <= 0 -> x ∉ W -> sem <> 0 -> sem_ok (<[x := sem]> w) (x :: W) (<[sem := c - 1]> S).
Proof.
  intros E Hc Hx H0.
  assert (forall y, y ∈ W -> (<[x := sem]> w) y = w y) as Ew by (intros y Hy; rewrite fn_lookup_insert_ne; [done|by intros ->]).
  split.
  - intros y [->|Hy]%elem_of_cons.
    + rewrite fn_lookup_insert, lookup_insert, decide_True by done. eauto.
    + rewrite Ew by done. destruct (so_in _ _ _ O y Hy) as [H1 H2]. split; [done|]. rewrite lookup_insert. case_decide; [eauto|done].
  - intros y Hy. apply not_elem_of_cons in Hy as [H1 H2]. rewrite fn_lookup_insert_ne by done. by apply O.
  - intros sem' c'. rewrite lookup_insert. unfold waiters. case_decide as Es.
    + intros [= <-]. subst sem'. rewrite filter_cons_True by (by rewrite fn_lookup_insert). simpl length.
      fold (waiters (<[x := sem]> w) W sem). rewrite (waiters_ext w), Nat2Z.inj_succ, (so_count _ _ _ O _ _ E) by done. lia.
    + intros Ec. rewrite filter_cons_False by (by rewrite fn_lookup_insert).
      fold (waiters (<[x := sem]> w) W sem'). rewrite (waiters_ext w) by done. by apply O.
  - intros sem' c'. rewrite lookup_insert. case_decide; [intros [= <-]|apply O]. pose proof (so_max _ _ _ O _ _ E). lia.
Qed.

Lemma waiters_lrem x sem : NoDup W -> x ∈ W ->
  length (waiters w W sem) = ((if decide (w x = sem) then 1 else 0) + length (waiters w (lrem x W) sem))%nat.
Proof.
  intros Hnd Hx. destruct (list_elem_of_split _ _ Hx) as (l1 & l2 & E). rewrite E in *. rewrite lrem_split by done.
  unfold waiters. rewrite !filter_app, filter_cons, !length_app. case_decide; simpl; lia.
Qed.

(** A wait ends, and the unit that the task was to take is given back. *)
Lemma so_wake x sem c :
  NoDup W -> x ∈ W -> w x = sem -> S !! sem = Some c -> sem_ok (<[x := 0]> w) (lrem x W) (<[sem := c + 1]> S) /\ c < 0.
Proof.
  intros Hnd Hx Hw E. pose proof (so_count _ _ _ O _ _ E) as Hc. pose proof (waiters_lrem x sem Hnd Hx) as Hl. rewrite decide_True in Hl by done.
  assert (c < 0) as Hneg by lia. split; [|done].
  assert (forall y, y ∈ lrem x W -> (<[x := 0]> w) y = w y) as Ew.
  { intros y [_ Hy]%elem_of_lrem. by rewrite fn_lookup_insert_ne. }
  split.
  - intros y Hy. rewrite Ew by done. apply elem_of_lrem in Hy as [Hy _]. destruct (so_in _ _ _ O y Hy) as [H1 H2]. split; [done|].
    rewrite lookup_insert. case_decide; [eauto|done].
  - intros y Hy. destruct (decide (y = x)) as [->|Hne]; [by rewrite fn_lookup_insert|]. rewrite fn_lookup_insert_ne by done.
    apply O. intros Hin. apply Hy, elem_of_lrem. done.
  - intros sem' c'. rewrite lookup_insert, (waiters_ext w) by done. case_decide as Es.
    + intros [= <-]. subst sem'. lia.
    + intros E'. rewrite <- (so_count _ _ _ O _ _ E'), (waiters_lrem x sem') by done. rewrite decide_False by congruence. lia.
  - intros sem' c'. rewrite lookup_insert. case_decide; [intros [= <-]; lia|apply O].
Qed.

Lemma so_first sem c : S !! sem = Some c -> c < 0 -> exists x l, waiters w W sem = x :: l /\ x ∈ W /\ w x = sem.
Proof.
  intros E Hc. pose proof (so_count _ _ _ O _ _ E) as Hl. destruct (waiters w W sem) as [|x l] eqn:Ex; [simpl in Hl; lia|].
  exists x, l. split; [done|]. assert (x ∈ waiters w W sem) as Hx by (rewrite Ex; set_solver).
  apply list_elem_of_filter in Hx. tauto.
Qed.
End Steps.

(** * The operations on semaphores

    What each function of [Sem] does, in terms of the task lists and the counts,
    and that it keeps the invariant. *)

Import Dq.

Definition wsem (T : gmap Z tcb_s) (x : Z) : Z := match T !! x with Some t => waitsem t | None => 0 end.
Definition terrno (T : gmap Z tcb_s) (x : Z) : Z := match T !! x with Some t => pterrno t | None => 0 end.

Abbreviation waiting := g_waitingforsemaphore.

Lemma wsem_alter T x f y : (forall t, waitsem (f t) = waitsem t) -> wsem (alter f x T) y = wsem T y.
Proof.
  intros Hf. unfold wsem. rewrite lookup_alter. destruct (decide (x = y)) as [<-|]; [|done]. destruct (T !! x); simpl; [apply Hf|done].
Qed.

Lemma wsem_set T x v y : is_Some (T !! x) -> wsem (alter (fun t => set_waitsem t v) x T) y = (<[x := v]> (wsem T)) y.
Proof.
  intros [t Ht]. unfold wsem at 1. rewrite lookup_alter. destruct (decide (x = y)) as [<-|Hne].
  - by rewrite Ht, fn_lookup_insert.
  - by rewrite fn_lookup_insert_ne.
Qed.

Lemma sees_wsem T T' y : sees T T' -> wsem T' y = wsem T y.
Proof.
  intros E. unfold sees in E. apply (f_equal (lookup y)) in E. rewrite !lookup_fmap in E. unfold wsem.
  destruct (T' !! y) as [t'|], (T !! y) as [t|]; try done. apply (inj Some) in E. by injection E.
Qed.

Lemma sees_terrno T T' y : sees T T' -> terrno T' y = terrno T y.
Proof.
  intros E. unfold sees in E. apply (f_equal (lookup y)) in E. rewrite !lookup_fmap in E. unfold terrno.
  destruct (T' !! y) as [t'|], (T !! y) as [t|]; try done. apply (inj Some) in E. by injection E.
Qed.

Lemma sees_dom T T' : sees T T' -> dom T' = dom T.
Proof. intros E. unfold sees in E. apply (f_equal dom) in E. by rewrite !dom_fmap_L in E. Qed.

Lemma tcbs_alter (T : gmap Z tcb_s) f (x : Z) : size (alter f x T) = size T.
Proof. by rewrite <- size_dom, dom_alter_L, size_dom. Qed.

Lemma tcbs_sees T T' : sees T T' -> size T' = size T.
Proof. intros E. by rewrite <- size_dom, (sees_dom T), size_dom. Qed.

Section SemOps.
Context (H : list (Z * Z)) (idle : Z).
Abbreviation wf := (wf idle).
Abbreviation sinv := (sinv H idle).

Record kinv (T : gmap Z tcb_s) (L : tasklist -> list Z) (S : gmap Z Z) (k : ksys) : Prop := {
  ki_sched : sinv T L (sch k);
  ki_sems : sems k = S;
  ki_ok : sem_ok (wsem T) (L waiting) S;
  ki_size : Z.of_nat (size T) <= 32767;
  ki_last : 0 <= g_lastpid k <= 32767
}.

Lemma ki_wf T L S k : kinv T L S k -> wf T L.
Proof. intros [[[_ W] _] _ _ _ _]. done. Qed.

(** The scheduler moves tasks between lists, but waits stay what they are. *)
Lemma kinv_moved T L S k T1 L1 s1 :
  kinv T L S k -> sinv T1 L1 s1 -> sees T T1 -> stays L L1 -> kinv T1 L1 S (set_sch k s1).
Proof.
  intros [I1 I2 I3 I4 I5] S1 E St. split; try done.
  - apply (so_ext _ _ _ I3); [intros; by apply sees_wsem|by apply St].
  - by rewrite (tcbs_sees T).
Qed.

(** The counts are in the range of [int16_t]. *)
Lemma wait_length T L S k : kinv T L S k -> (length (L waiting) <= size T)%nat.
Proof.
  intros I. pose proof (ki_wf _ _ _ _ I) as W. rewrite <- size_dom, <- (size_list_to_set (C := gset Z)) by (by apply W).
  apply subseteq_size. intros x Hx%elem_of_list_to_set. apply elem_of_dom. by apply (wf_in _ _ _ W waiting).
Qed.

Lemma count_range T L S k sem c : kinv T L S k -> S !! sem = Some c -> - 32767 <= c <= 32767.
Proof.
  intros I E. pose proof (so_count _ _ _ (ki_ok _ _ _ _ I) _ _ E). pose proof (so_max _ _ _ (ki_ok _ _ _ _ I) _ _ E).
  pose proof (waiters_length (wsem T) (L waiting) sem). pose proof (wait_length _ _ _ _ I). pose proof (ki_size _ _ _ _ I). lia.
Qed.

Lemma set_semcount_Ok k sem c v :
  sems k !! sem = Some c -> - 32768 <= v <= 32767 -> sem <> 0 ->
  set_semcount k sem v = Ok (mk_ksys (sch k) (<[sem := v]> (sems k)) (g_irqerrno k) (g_lastpid k)).
Proof. intros E Hv H0. unfold set_semcount. rewrite s16_fits by lia. rewrite store_Ok by (done || eauto). done. Qed.

Lemma kinv_cur T L S k : kinv T L S k -> this_task (sch k) = cur L /\ is_Some (T !! cur L) /\ cur L ∉ L waiting /\ wsem T (cur L) = 0.
Proof.
  intros I. pose proof (ki_wf _ _ _ _ I) as W. destruct (sinv_cur _ _ _ _ _ (ki_sched _ _ _ _ I)) as (E & _ & Hs).
  assert (cur L ∉ L waiting) as Hn by (intros Hx; by pose proof (wf_disj _ _ _ W _ _ _ Hx (wf_cur_in _ _ _ W))).
  split_and!; try done. by apply (so_out _ _ _ (ki_ok _ _ _ _ I)).
Qed.

Lemma waitsem_id T x : is_Some (T !! x) -> wsem T x = 0 -> alter (fun t => set_waitsem t 0) x T = T.
Proof. intros [t Ht] E. apply (alter_id _ _ t); [done|]. unfold wsem in E. rewrite Ht in E. rewrite <- E. by destruct t. Qed.

Lemma ktupd_returns k x f P : returns (tupd (sch k) x f) P -> returns (ktupd k x f) (fun k' => exists s', P s' /\ k' = set_sch k s').
Proof. intros Hr. unfold ktupd. eapply returns_bind; [exact Hr|]. intros s' Hs. apply returns_Ok. eauto. Qed.

Lemma block_lists_ext T T' L x l : (forall y, prio T' y = prio T y) -> block_lists T' L x l = block_lists T L x l.
Proof.
  intros E. unfold block_lists, merged, block_add. by rewrite (pinsert_ext T T'), (pmerge_ext T T') by done.
Qed.

(** What a task that waits leaves behind: the semaphore, and a clean [errno]. *)
Definition begin_wait (T : gmap Z tcb_s) (x sem : Z) : gmap Z tcb_s :=
  alter (fun t => set_pterrno t OK) x (alter (fun t => set_waitsem t sem) x T).

Lemma take_unit {A} (r : A) T L S k sem c :
  kinv T L S k -> sem <> 0 -> S !! sem = Some c -> 0 < c ->
  returns (k ← set_semcount k sem (c - 1); k ← ktupd k (cur L) (fun t => set_waitsem t 0); Ok (r, k))
    (fun '(r', k') => r' = r /\ kinv T L (<[sem := c - 1]> S) k').
Proof.
  intros I H0 E Hc. pose proof (count_range _ _ _ _ _ _ I E). destruct (kinv_cur _ _ _ _ I) as (_ & Hs & _ & Hw).
  pose proof (ki_sems _ _ _ _ I) as <-. rewrite (set_semcount_Ok _ _ c), bind_Ok by (done || lia).
  eapply returns_bind; [apply ktupd_returns, (field_sinv H idle T L); by try apply I|].
  intros k' (s' & S' & ->). rewrite waitsem_id in S' by done. apply returns_Ok. split; [done|]. split; try done; [|apply I..].
  apply (so_set _ _ _ (ki_ok _ _ _ _ I) _ c); [done|lia..].
Qed.

Lemma wf_not_idle T L x l : wf T L -> x ∈ L l -> l <> g_readytorun -> x <> idle.
Proof. intros W Hx Hl ->. apply Hl. by apply (wf_disj _ _ _ W _ _ idle); [|apply (wf_idle_in _ _ _ W)]. Qed.

Lemma nxsem_wait_spec T L S k sem c :
  kinv T L S k -> sem <> 0 -> S !! sem = Some c -> cur L <> idle ->
  returns (nxsem_wait k sem) (fun '(o, k') =>
    if 0 <? c then o = Done OK /\ kinv T L (<[sem := c - 1]> S) k'
    else o = Block (terrno T (cur L)) /\
      exists T', kinv T' (block_lists T L (cur L) waiting) (<[sem := c - 1]> S) k' /\ keeps (begin_wait T (cur L) sem) T').
Proof.
  intros I H0 E Hi. pose proof (count_range _ _ _ _ _ _ I E). pose proof (ki_wf _ _ _ _ I) as W. destruct (kinv_cur _ _ _ _ I) as (Et & [t Ht] & Hn & Hw).
  unfold nxsem_wait. cbv zeta. rewrite Et, (proj2 (Z.eqb_neq _ _) H0). cbn [negb].
  rewrite (load_Ok (sems k) sem c), bind_Ok by (done || by rewrite (ki_sems _ _ _ _ I)).
  destruct (0 <? c) eqn:Ec; b2p; [by apply take_unit|].
  rewrite (set_semcount_Ok _ _ c), bind_Ok by (rewrite ?(ki_sems _ _ _ _ I); done || lia).
  eapply returns_bind; [apply ktupd_returns, (field_sinv H idle T L); try apply I; eauto|]. intros k1 (s1 & S1 & ->).
  cbn [set_sch sch]. set (T1 := alter _ _ T) in *.
  assert (T1 !! cur L = Some (set_waitsem t sem)) as Ht1 by (unfold T1; by rewrite lookup_alter, decide_True, Ht by done).
  rewrite (tget_Ok _ _ _ _ _ _ (proj1 (proj1 S1)) Ht1), bind_Ok.
  eapply returns_bind; [apply ktupd_returns, (field_sinv H idle T1 L); try apply S1; eauto|]. intros k2 (s2 & S2 & ->).
  cbn [set_sch sch sems]. fold (begin_wait T (cur L) sem) in S2.
  assert (forall y, prio (begin_wait T (cur L) sem) y = prio T y) as Ep by (intros; unfold begin_wait; by rewrite !prio_alter).
  eapply returns_bind.
  { apply (up_block_task_spec H idle _ L s2 (cur L) waiting (proj1 S2)); try done. by apply (wf_cur_in _ _ _ W). }
  intros [r s3] (T' & S3 & K & _). apply returns_Ok. split; [unfold terrno; by rewrite Ht|].
  rewrite (block_lists_ext T) in S3 by done. exists T'. split; [|done]. split; try done.
  - cbn. by rewrite (ki_sems _ _ _ _ I).
  - apply (so_ext (<[cur L := sem]> (wsem T)) (cur L :: L waiting)).
    + by apply (so_block _ _ _ (ki_ok _ _ _ _ I)).
    + intros y. rewrite (sees_wsem (begin_wait T (cur L) sem)) by (by apply keeps_sees). unfold begin_wait.
      rewrite wsem_alter by done. apply wsem_set. eauto.
    + change (block_lists T L (cur L) waiting waiting) with (pinsert T (cur L) (L waiting)). apply pinsert_perm.
  - rewrite (tcbs_sees _ _ (keeps_sees _ _ K)). unfold T1. rewrite !tcbs_alter. apply I.
  - apply I.
Qed.

(** What the task does when it runs again. *)
Lemma nxsem_wait_end_spec T L S k x saved :
  kinv T L S k -> is_Some (T !! x) ->
  returns (nxsem_wait_end k x saved) (fun '(ret, k') =>
    ret = - terrno T x /\ kinv (alter (fun t => set_pterrno t saved) x T) L S k').
Proof.
  intros I [t Ht]. unfold nxsem_wait_end. rewrite (tget_Ok _ _ _ _ _ _ (proj1 (proj1 (ki_sched _ _ _ _ I))) Ht), bind_Ok. cbv zeta.
  eapply returns_bind; [apply ktupd_returns, (field_sinv H idle T L); try apply I; eauto|]. intros k1 (s1 & S1 & ->).
  apply returns_Ok. split.
  - unfold terrno. rewrite Ht. unfold OK. destruct (pterrno t =? 0) eqn:E; b2p; simpl; lia.
  - split; try done; try apply I.
    + apply (so_ext (wsem T) (L waiting)); [apply I| |done]. intros y. by apply wsem_alter.
    + rewrite tcbs_alter. apply I.
Qed.

Lemma nxsem_trywait_spec T L S k sem c :
  kinv T L S k -> sem <> 0 -> S !! sem = Some c ->
  returns (nxsem_trywait k sem) (fun '(ret, k') =>
    if 0 <? c then ret = OK /\ kinv T L (<[sem := c - 1]> S) k' else ret = - EAGAIN /\ k' = k).
Proof.
  intros I H0 E. destruct (kinv_cur _ _ _ _ I) as (Et & _). unfold nxsem_trywait. cbv zeta.
  rewrite Et, (proj2 (Z.eqb_neq _ _) H0). cbn [negb].
  rewrite (load_Ok (sems k) sem c), bind_Ok by (done || by rewrite (ki_sems _ _ _ _ I)).
  destruct (0 <? c) eqn:Ec; b2p; [by apply take_unit|by apply returns_Ok].
Qed.

(** *** Waking a task *)

Lemma unblock_lists_ext T T' L x l :
  (forall y, prio T' y = prio T y) -> (forall y, locks T' y = locks T y) -> unblock_lists T' L x l = unblock_lists T L x l.
Proof. intros Ep El. unfold unblock_lists, ready_add. rewrite El, !Ep. by rewrite !(pinsert_ext T T') by done. Qed.

Lemma unblock_waiting T L x : unblock_lists T L x waiting waiting = lrem x (L waiting).
Proof. unfold unblock_lists, ready_add. by case_match. Qed.

(** The result of ending the wait of [x], whose fields have been changed to [T1]. *)
Definition woken (T1 T : gmap Z tcb_s) (L : tasklist -> list Z) (S : gmap Z Z) (x : Z) (sw : bool) (k' : ksys) : Prop :=
  exists T', kinv T' (unblock_lists T L x waiting) S k' /\ keeps T1 T' /\ (sw = false -> cur (unblock_lists T L x waiting) = cur L).

Lemma wake T L S k x c T1 s1 e g :
  kinv T L S k -> x ∈ L waiting -> S !! wsem T x = Some c -> sinv T1 L s1 ->
  (forall y, prio T1 y = prio T y) -> (forall y, locks T1 y = locks T y) -> (forall y, wsem T1 y = (<[x := 0]> (wsem T)) y) -> size T1 = size T -> 0 <= g <= 32767 ->
  let S' := <[wsem T x := c + 1]> S in
  returns (up_unblock_task s1 x) (fun '(sw, s') => woken T1 T L S' x sw (mk_ksys s' S' e g)).
Proof.
  intros I Hx E S1 Ep El Ew Es Hg S'. pose proof (ki_wf _ _ _ _ I) as W.
  eapply returns_impl; [apply (up_unblock_task_spec H idle T1 L s1 x waiting); try done; by apply (wf_not_idle T L x waiting)|].
  intros [sw s'] (T' & S2 & K & Hc). rewrite (unblock_lists_ext T T1) in * by done. exists T'. split_and!; try done. split; try done.
  - rewrite unblock_waiting. apply (so_ext (<[x := 0]> (wsem T)) (lrem x (L waiting))); [|intros y|done].
    + apply (so_wake _ _ _ (ki_ok _ _ _ _ I)); try done. by apply (wf_nodup _ _ _ W).
    + by rewrite (sees_wsem T1) by (by apply keeps_sees).
  - rewrite (tcbs_sees _ _ (keeps_sees _ _ K)), Es. apply I.
Qed.

Lemma find_waiter_spec T L s sem l0 l1 fuel :
  srep H T L s -> L waiting = l0 ++ l1 -> (length l1 < fuel)%nat ->
  find_waiter fuel s (hd 0 l1) sem = Ok (hd 0 (waiters (wsem T) l1 sem)).
Proof.
  intros R. revert l0 fuel. induction l1 as [|y l1 IH]; intros l0 fuel E Hf; destruct fuel as [|fuel]; try (simpl in Hf; lia); simpl; [done|].
  destruct (sr_in _ _ _ _ R waiting y ltac:(rewrite E; set_solver)) as [t Ht].
  pose proof (sr_node _ _ _ _ R y ltac:(eauto)) as Hn. rewrite (proj2 (Z.eqb_neq y 0) (proj1 Hn)), (tget_Ok _ _ _ _ _ _ R Ht). simpl.
  assert (wsem T y = waitsem t) as Ew by (unfold wsem; by rewrite Ht). unfold waiters. rewrite filter_cons, Ew.
  destruct (waitsem t =? sem) eqn:Eq; b2p; simpl; [by rewrite decide_True|]. rewrite decide_False by done.
  pose proof (dqr_links _ _ _ (sr_q _ _ _ _ R waiting)) as Hl. rewrite E in Hl.
  destruct (dlinks_mid _ _ _ _ _ _ _ Hl) as [EF _]. rewrite (load_Ok _ _ _ (proj1 Hn) EF). simpl.
  apply (IH (l0 ++ [y])); [by rewrite <- app_assoc|simpl in Hf; lia].
Qed.

Lemma nxsem_post_spec T L S k sem c :
  kinv T L S k -> sem <> 0 -> S !! sem = Some c -> c < 32767 ->
  returns (nxsem_post k sem) (fun '(ret, sw, k') => ret = OK /\
    let S' := <[sem := c + 1]> S in
    if 0 <=? c then sw = false /\ kinv T L S' k'
    else exists x l, waiters (wsem T) (L waiting) sem = x :: l /\ x ∈ L waiting /\
      woken (alter (fun t => set_waitsem t 0) x T) T L S' x sw k').
Proof.
  intros I H0 E Hc. pose proof (count_range _ _ _ _ _ _ I E) as Hr. pose proof I as [S1 Es Hok Hsz Hla]. pose proof S1 as [[R W] _].
  unfold nxsem_post. rewrite (proj2 (Z.eqb_neq _ _) H0). cbn [negb].
  rewrite (load_Ok (sems k) sem c), bind_Ok by (done || by rewrite Es).
  rewrite (set_semcount_Ok _ _ c), bind_Ok by (rewrite ?Es; done || lia). cbn [sems sch].
  rewrite (load_Ok _ sem (c + 1)), bind_Ok by (done || by rewrite lookup_insert, decide_True). rewrite Es.
  destruct (0 <=? c) eqn:Ec; b2p.
  - rewrite (proj2 (Z.leb_gt (c + 1) 0)) by lia. apply returns_Ok. split_and!; try done. split; try done.
    apply (so_set _ _ _ Hok _ c); [done|lia..].
  - rewrite (proj2 (Z.leb_le (c + 1) 0)) by lia. destruct (so_first _ _ _ Hok _ _ E Ec) as (x & l & Ex & Hx & Hw).
    cbv zeta. rewrite (dqr_head _ _ _ (sr_q _ _ _ _ R waiting)).
    rewrite (find_waiter_spec T L _ sem [] (L waiting)), bind_Ok; [|done|done|].
    2: { pose proof (dq_rep_length _ _ _ (sr_q _ _ _ _ R waiting)). lia. }
    rewrite Ex. simpl hd. pose proof (wf_in _ _ _ W _ _ Hx) as Hs.
    rewrite (proj2 (Z.eqb_neq x 0)) by (by apply (sr_node _ _ _ _ R)). cbn [negb].
    eapply returns_bind; [apply ktupd_returns, (field_sinv H idle T L); try done|]. intros k1 (s1 & S2 & ->). cbn [set_sch sch sems].
    subst sem. eapply returns_bind.
    { apply (wake T L S k x c _ s1 (g_irqerrno k) (g_lastpid k) I Hx E S2); [intros; by apply prio_alter|intros; by apply locks_alter|intros; by apply wsem_set| |done].
      by apply tcbs_alter. }
    intros [sw s2] Hwk. apply returns_Ok. split; [done|]. by exists x, l.
Qed.

(** *** Ending a wait *)

(** What a task whose wait has been ended finds. *)
Definition end_wait (T : gmap Z tcb_s) (x errcode : Z) : gmap Z tcb_s :=
  alter (fun t => set_pterrno t errcode) x (alter (fun t => set_waitsem t 0) x T).

Lemma wf_waiting T L x t : wf T L -> T !! x = Some t -> task_state t = TSTATE_WAIT_SEM <-> x ∈ L waiting.
Proof.
  intros W Ht. rewrite (tstate_get _ _ _ Ht). split.
  - intros E. destruct (wf_all _ _ _ W x ltac:(by rewrite E)) as [l Hl]. rewrite (wf_state _ _ _ W l x Hl) in E.
    destruct l; try done. simpl in E. by case_decide.
  - intros Hx. by rewrite (wf_state _ _ _ W waiting x Hx).
Qed.

Lemma wait_state T L S k x t : kinv T L S k -> T !! x = Some t -> task_state t = TSTATE_WAIT_SEM <-> x ∈ L waiting.
Proof. intros I. apply wf_waiting, (ki_wf _ _ _ _ I). Qed.

Lemma nxsem_wait_irq_spec T L S k x errcode :
  kinv T L S k -> x ∈ L waiting ->
  returns (nxsem_wait_irq k x errcode) (fun '(sw, k') =>
    exists c, S !! wsem T x = Some c /\ c < 0 /\ woken (end_wait T x errcode) T L (<[wsem T x := c + 1]> S) x sw k').
Proof.
  intros I Hx. pose proof I as [S1 Es Hok Hsz Hla]. pose proof S1 as [[R W] _]. destruct (wf_in _ _ _ W _ _ Hx) as [t Ht].
  destruct (so_in _ _ _ Hok x Hx) as [H0 [c E]]. destruct (so_wake _ _ _ Hok x _ c (wf_nodup _ _ _ W waiting) Hx eq_refl E) as [_ Hc].
  pose proof (count_range _ _ _ _ _ _ I E) as Hr.
  unfold nxsem_wait_irq. rewrite (tget_Ok _ _ _ _ _ _ R Ht), bind_Ok, bool_decide_eq_true_2 by (by apply (wait_state T L S k x)).
  assert (waitsem t = wsem T x) as Ew by (unfold wsem; by rewrite Ht). cbv zeta. rewrite Ew.
  rewrite (load_Ok (sems k) _ c), bind_Ok by (done || by rewrite Es).
  rewrite (set_semcount_Ok _ _ c), bind_Ok by (rewrite ?Es; done || lia). rewrite Es.
  eapply returns_bind; [apply ktupd_returns, (field_sinv H idle T L); try done; eauto|]. intros k1 (s1 & S2 & ->). cbn [set_sch sch sems].
  eapply returns_bind; [apply ktupd_returns, (field_sinv H idle (alter (fun t => set_waitsem t 0) x T) L s1 x (fun t => set_pterrno t errcode)); try done; eauto with nx|].
  intros k2 (s2 & S3 & ->). cbn [set_sch sch sems]. fold (end_wait T x errcode) in S3.
  eapply returns_bind.
  { apply (wake T L S k x c _ s2 (g_irqerrno k) (g_lastpid k) I Hx E S3); unfold end_wait; intros.
    - by rewrite !prio_alter.
    - by rewrite !locks_alter.
    - rewrite wsem_alter by done. apply wsem_set. eauto.
    - by rewrite !tcbs_alter.
    - done. }
  intros [sw s3] Hwk. apply returns_Ok. eauto.
Qed.

(** *** Finding a task by its identifier *)

Definition pid_of (T : gmap Z tcb_s) (x : Z) : Z := match T !! x with Some t => pid t | None => -1 end.

Record hash_ok (T : gmap Z tcb_s) : Prop := {
  ho_len : length H = 16%nat;
  ho_pid x : is_Some (T !! x) -> pid_of T x <> 0 \/ x = idle -> 0 <= pid_of T x <= 32767 /\ H !! Z.to_nat (PIDHASH (pid_of T x)) = Some (x, pid_of T x);
  ho_tcb i x p : H !! i = Some (x, p) -> x <> 0 -> is_Some (T !! x) /\ pid_of T x = p /\ i = Z.to_nat (PIDHASH p)
}.

Lemma sched_gettcb_spec T L s p :
  srep H T L s -> hash_ok T ->
  returns (sched_gettcb s p) (fun x =>
    (x <> 0 -> is_Some (T !! x) /\ pid_of T x = p) /\
    forall y, is_Some (T !! y) -> pid_of T y = p -> p <> 0 \/ y = idle -> x = y).
Proof.
  intros R Ho. unfold sched_gettcb. destruct (0 <=? p) eqn:Ep; b2p.
  - assert (0 <= PIDHASH p < 16) as Hp.
    { unfold PIDHASH. change (CONFIG_MAX_TASKS - 1) with (Z.ones 4). rewrite Z.land_ones by lia. apply Z.mod_pos_bound. lia. }
    destruct (lookup_lt_is_Some_2 H (Z.to_nat (PIDHASH p))) as [[x hp] E]; [rewrite (ho_len _ Ho); lia|].
    unfold array_get. rewrite (sr_hash _ _ _ _ R), E, bind_Ok. apply returns_Ok. split.
    + destruct (p =? hp) eqn:Eq; b2p; [|done]. subst hp. intros H0. by destruct (ho_tcb _ Ho _ _ _ E H0) as (? & ? & _).
    + intros y Hy <- H0. destruct (ho_pid _ Ho y Hy H0) as [_ E']. rewrite E in E'. injection E' as -> ->. by rewrite Z.eqb_refl.
  - apply returns_Ok. split; [done|]. intros y Hy <- H0. destruct (ho_pid _ Ho y Hy H0). lia.
Qed.

Lemma nxsem_timeout_spec T L S k p :
  kinv T L S k -> hash_ok T -> p <> 0 ->
  returns (nxsem_timeout k p) (fun '(sw, k') =>
    (exists x c, x ∈ L waiting /\ pid_of T x = p /\ S !! wsem T x = Some c /\ c < 0 /\
      woken (end_wait T x ETIMEDOUT) T L (<[wsem T x := c + 1]> S) x sw k') \/
    ((forall x, x ∈ L waiting -> pid_of T x <> p) /\ sw = false /\ k' = k)).
Proof.
  intros I Ho H0. pose proof I as [[[R W] _] _ _ _ _]. unfold nxsem_timeout.
  eapply returns_bind; [by apply (sched_gettcb_spec T L (sch k) p)|]. intros x [Hx1 Hx2].
  assert (forall y, y ∈ L waiting -> pid_of T y = p -> x = y) as Hw.
  { intros y Hy Hp. apply Hx2; [by apply (wf_in _ _ _ W waiting)|done|by left]. }
  destruct (x =? 0) eqn:E0; b2p; cbn [negb].
  - apply returns_Ok. right. split_and!; try done. intros y Hy Hp. pose proof (Hw y Hy Hp) as <-.
    pose proof (wf_in _ _ _ W _ _ Hy) as Hs. by apply (sr_node _ _ _ _ R) in Hs as [? _].
  - destruct (Hx1 E0) as [[t Ht] Hp]. rewrite (tget_Ok _ _ _ _ _ _ R Ht), bind_Ok. case_bool_decide as Es.
    + apply (wait_state T L S k x t I Ht) in Es. eapply returns_impl; [by apply nxsem_wait_irq_spec|].
      intros [sw k'] (c & E & Hc & Hk). left. by exists x, c.
    + apply returns_Ok. right. split_and!; try done. intros y Hy Hp'. apply Es. pose proof (Hw y Hy Hp') as <-.
      by apply (wait_state T L S k x t I Ht).
Qed.
End SemOps.
