(* ===== verification/Task.v ===== *)
(** * Creating and deleting tasks (src/nuttx/sched/task)

    The part of the creation and the deletion of a task that concerns the
    scheduler: its identifier, its first list, and what a task that is deleted
    leaves behind.  A task control block that has not been set up is all zeros. *)

From stdpp Require Import functions.
From S2P Require Import Prelude Bits Links Queue Sched Sem.
Import Dq.
Local Open Scope Z_scope.

Definition INVALID_PROCESS_ID : Z := -1.
Definition TCB_FLAG_TTYPE_MASK : Z := 3.
Definition TCB_FLAG_TTYPE_TASK : Z := 0.
Definition TCB_FLAG_TTYPE_KERNEL : Z := 2.

Definition set_pid (t : tcb_s) (v : Z) : tcb_s :=
  mk_tcb v (sched_priority t) (task_state t) (flags t) (lockcount t) (timeslice t) (waitdog t) (waitsem t) (pterrno t).

Definition set_lastpid (k : ksys) (p : Z) : ksys := mk_ksys (sch k) (sems k) (g_irqerrno k) p.

Definition set_pidhash (s : sched) (h : list (Z * Z)) : sched := mk_sched (tcbs s) (links s) (lists s) h.

(** ** Identifiers *)

(** [for (tries = 0; tries < CONFIG_MAX_TASKS; tries++)], with [tries] rounds left. *)
Fixpoint assignpid_loop (tries : nat) (k : ksys) (tcb : Z) : res (Z * ksys) :=
  match tries with
  | O => Ok (ERROR, k)
  | S tries =>
      let n := s16 (g_lastpid k + 1) in
      let next_pid := if n <=? 0 then 1 else n in
      let k := set_lastpid k next_pid in
      let hash_ndx := Z.to_nat (PIDHASH next_pid) in
      '(htcb, _) ← array_get (g_pidhash (sch k)) hash_ndx;
      if htcb =? 0 then
        h ← array_set (g_pidhash (sch k)) hash_ndx (tcb, next_pid);
        k ← ktupd (set_sch k (set_pidhash (sch k) h)) tcb (fun t => set_pid t next_pid);
        Ok (OK, k)
      else assignpid_loop tries k tcb
  end.

(** [nxtask_assignpid] between [sched_lock] and [sched_unlock]. *)
Definition nxtask_assignpid (k : ksys) (tcb : Z) : res (Z * ksys) := assignpid_loop (Z.to_nat CONFIG_MAX_TASKS) k tcb.

Definition nxsched_releasepid (s : sched) (p : Z) : res sched :=
  h ← array_set (g_pidhash s) (Z.to_nat (PIDHASH p)) (0, INVALID_PROCESS_ID); Ok (set_pidhash s h).

(** ** Creation *)

(** The fields that [nxthread_schedsetup] sets once the task has its identifier. *)
Definition nxthread_setup (s : sched) (tcb priority ttype : Z) : res sched :=
  tupd s tcb (fun t =>
    let t := set_priority t (u8 priority) in
    let t := set_flags t (Z.lor (Z.land (flags t) (Z.lxor TCB_FLAG_TTYPE_MASK (2 ^ 16 - 1))) (Z.land ttype TCB_FLAG_TTYPE_MASK)) in
    set_state TSTATE_TASK_INVALID t).

(** Its end, between [sched_lock] and [sched_unlock]. *)
Definition nxthread_inactive (s : sched) (tcb : Z) : res sched :=
  '(d, q) ← dq_addfirst (links s) (lists s g_inactivetasks) tcb;
  tupd (set_list s g_inactivetasks d q) tcb (set_state TSTATE_TASK_INACTIVE).

Definition task_activate (s : sched) (tcb : Z) : res (bool * sched) := up_unblock_task s tcb.

(** ** Deletion *)

(** The part of [nxtask_recover] that [nxtask_exithook] calls: the task has no
    watchdog and waits for no message. *)
Definition nxtask_recover (k : ksys) (tcb : Z) : res ksys := nxsem_recover k tcb.

(** [nxtask_terminate] for a task with no stream, signal or group of its own. *)
Definition nxtask_terminate (k : ksys) (p : Z) : res (Z * ksys) :=
  dtcb ← sched_gettcb (sch k) p;
  if dtcb =? 0 then Ok (- ESRCH, k)
  else
    t ← tget (sch k) dtcb;
    tasklist ← tlist (task_state t);
    s ← trem (sch k) dtcb tasklist;
    s ← tupd s dtcb (set_state TSTATE_TASK_INVALID);
    k ← nxtask_recover (set_sch k s) dtcb;
    t ← tget (sch k) dtcb;
    s ← (if negb (pid t =? 0) then nxsched_releasepid (sch k) (pid t) else Ok (sch k));
    Ok (OK, set_sch k s).

(** ** Start-up *)

Definition TCB_FLAG_NONCANCELABLE : Z := 4.

(** The initialisation of the task lists, of the identifiers and of the idle task
    by [nx_start]. *)
Definition nx_start (k : ksys) (idle : Z) : res ksys :=
  h ← array_set (replicate (Z.to_nat CONFIG_MAX_TASKS) (0, INVALID_PROCESS_ID)) (Z.to_nat (PIDHASH 0)) (idle, 0);
  let s := mk_sched (tcbs (sch k)) (links (sch k)) (fun _ => dq_init) h in
  s ← tupd s idle (fun _ => mk_tcb 0 0 TSTATE_TASK_RUNNING (Z.lor TCB_FLAG_TTYPE_KERNEL TCB_FLAG_NONCANCELABLE) 0 0 0 0 0);
  '(d, q) ← dq_addfirst (links s) (lists s g_readytorun) idle;
  Ok (mk_ksys (set_list s g_readytorun d q) (sems k) (g_irqerrno k) 0).
