(* ===== verification/TaskOps.v ===== *)
(** * The operations on tasks

    What each function of [Task] does, in terms of the task lists and of the
    table of identifiers. *)

From stdpp Require Import functions.
From S2P Require Import Prelude Bits Links Queue Sched SchedRep SchedInv SchedOps SchedCalls SchedPrio Sem SemOps Task.
Import Dq.
Local Open Scope Z_scope.

Lemma alter_ext_at (T : gmap Z tcb_s) (x : Z) t f g : T !! x = Some t -> f t = g t -> alter f x T = alter g x T.
Proof.
  intros Ht E. apply map_eq. intros y. rewrite !lookup_alter. destruct (decide (x = y)) as [<-|]; [|done]. rewrite Ht. simpl. by rewrite E.
Qed.

Lemma PIDHASH_range p : 0 <= PIDHASH p < 16.
Proof. unfold PIDHASH. change (CONFIG_MAX_TASKS - 1) with (Z.ones 4). rewrite Z.land_ones by lia. apply Z.mod_pos_bound. lia. Qed.

Lemma PIDHASH_mod p : PIDHASH p = p mod 16.
Proof. unfold PIDHASH. change (CONFIG_MAX_TASKS - 1) with (Z.ones 4). by rewrite Z.land_ones by lia. Qed.

Lemma pid_of_alter T x y f : (forall t, pid (f t) = pid t) -> pid_of (alter f x T) y = pid_of T y.
Proof.
  intros Hf. unfold pid_of. rewrite lookup_alter. destruct (decide (x = y)) as [<-|]; [|done]. destruct (T !! x); simpl; [apply Hf|done].
Qed.

Lemma sees_pid T T' y : sees T T' -> pid_of T' y = pid_of T y.
Proof.
  intros E. unfold sees in E. apply (f_equal (lookup y)) in E. rewrite !lookup_fmap in E. unfold pid_of.
  destruct (T' !! y) as [t'|], (T !! y) as [t|]; try done. apply (inj Some) in E. by injection E.
Qed.

Lemma sees_is_Some T T' x : sees T T' -> is_Some (T' !! x) <-> is_Some (T !! x).
Proof. intros E. by rewrite <- !elem_of_dom, (sees_dom T T' E). Qed.

Section TaskOps.
Context (idle : Z).

Lemma hash_ext H T T' : (forall x, pid_of T' x = pid_of T x) -> (forall x, is_Some (T' !! x) <-> is_Some (T !! x)) -> hash_ok H idle T -> hash_ok H idle T'.
Proof.
  intros E1 E2 [H1 H2 H3]. split; [done|..].
  - intros x. rewrite E1, E2. apply H2.
  - intros i x p. rewrite E1, E2. apply H3.
Qed.

Lemma sinv_hash H H' T L s : sinv H idle T L s -> sinv H' idle T L (set_pidhash s H').
Proof. intros [[[R1 R2 R3 R4 R5 R6] W] Hl]. split; [split; [by split|done]|done]. Qed.

(** *** Identifiers *)

(** A control block that is about to get its identifier. *)
Definition unborn (T : gmap Z tcb_s) (x : Z) : Prop :=
  exists t, T !! x = Some t /\ pid t = 0 /\ task_state t = TSTATE_TASK_INVALID /\ x <> idle.

Lemma hash_add H T x p hp :
  hash_ok H idle T -> (forall y, is_Some (T !! y) -> y <> 0) -> unborn T x -> 1 <= p <= 32767 -> H !! Z.to_nat (PIDHASH p) = Some (0, hp) -> is_Some (T !! idle) -> pid_of T idle = 0 ->
  hash_ok (<[Z.to_nat (PIDHASH p) := (x, p)]> H) idle (alter (fun t => set_pid t p) x T).
Proof.
  intros Ho Hnz (t & Ht & Hp0 & _ & Hi) Hp Eh Hid Hid0. set (T' := alter _ x T).
  assert (pid_of T' x = p) as Ex by (unfold pid_of, T'; by rewrite lookup_alter, decide_True, Ht by done).
  assert (forall y, y <> x -> pid_of T' y = pid_of T y) as Ey by (intros y Hy; unfold pid_of, T'; by rewrite lookup_alter_ne).
  assert (forall y, is_Some (T' !! y) <-> is_Some (T !! y)) as Es by (intros y; unfold T'; by rewrite <- !elem_of_dom, dom_alter_L).
  assert (Z.to_nat (PIDHASH p) < length H)%nat as Hlt by (by apply lookup_lt_Some in Eh).
  split.
  - rewrite length_insert. apply (ho_len _ _ _ Ho).
  - intros y. rewrite Es. intros Hy Hy0. destruct (decide (y = x)) as [->|Hne].
    + rewrite Ex, list_lookup_insert_eq by done. split; [lia|done].
    + rewrite Ey in * by done. destruct (ho_pid _ _ _ Ho y Hy Hy0) as [Hr El]. split; [done|].
      rewrite list_lookup_insert_ne; [done|]. intros Eq. rewrite <- Eq, Eh in El. injection El as El _. by apply (Hnz y).
  - intros i y q. destruct (decide (i = Z.to_nat (PIDHASH p))) as [->|Hne].
    + rewrite list_lookup_insert_eq by done. intros [= <- <-] _. split; [rewrite Es; eauto|done].
    + rewrite list_lookup_insert_ne by done. intros El Hy0. destruct (ho_tcb _ _ _ Ho _ _ _ El Hy0) as (H1 & H2 & H3).
      rewrite Es. split; [done|]. split; [|done]. rewrite Ey; [done|]. intros ->.
      assert (q = 0) as -> by (unfold pid_of in H2; rewrite Ht in H2; congruence).
      destruct (ho_pid _ _ _ Ho idle Hid ltac:(by right)) as [_ E0]. rewrite Hid0, <- H3, El in E0. by injection E0.
Qed.

Lemma next_pid_range l : 0 <= l <= 32767 -> 1 <= (if s16 (l + 1) <=? 0 then 1 else s16 (l + 1)) <= 32767.
Proof.
  intros Hl. destruct (decide (l = 32767)) as [->|]; [by vm_compute|]. rewrite s16_fits by lia. destruct (l + 1 <=? 0) eqn:E; b2p; lia.
Qed.

Lemma assignpid_loop_spec n H T L S k x :
  kinv H idle T L S k -> hash_ok H idle T -> unborn T x -> pid_of T idle = 0 ->
  returns (assignpid_loop n k x) (fun '(ret, k') =>
    (exists H' p, ret = OK /\ 1 <= p <= 32767 /\ kinv H' idle (alter (fun t => set_pid t p) x T) L S k' /\
       hash_ok H' idle (alter (fun t => set_pid t p) x T)) \/
    (ret = ERROR /\ kinv H idle T L S k')).
Proof.
  intros I Ho Hx Hid. revert k I. induction n as [|n IH]; intros k I; simpl; [apply returns_Ok; by auto|].
  pose proof (next_pid_range _ (ki_last _ _ _ _ _ _ I)) as Hp. set (p := if s16 (g_lastpid k + 1) <=? 0 then 1 else s16 (g_lastpid k + 1)) in *.
  pose proof (PIDHASH_range p) as Hr. pose proof I as [S1 Es Hok Hsz Hla]. pose proof S1 as [[R W] _].
  destruct (lookup_lt_is_Some_2 H (Z.to_nat (PIDHASH p))) as [[ht hp] E]; [rewrite (ho_len _ _ _ Ho); lia|].
  unfold array_get. rewrite (sr_hash _ _ _ _ R), E, bind_Ok. destruct (ht =? 0) eqn:Eh; b2p.
  - subst ht. unfold array_set. rewrite (proj2 (Nat.ltb_lt _ _)), bind_Ok by (by apply lookup_lt_Some in E).
    pose proof Hx as (t & Ht & Hp0 & Hst & Hi). set (H' := <[_ := _]> H).
    eapply returns_bind.
    { apply ktupd_returns, (field_sinv H' idle T L); try done; eauto. by apply (sinv_hash H). }
    intros k' (s' & S' & ->). apply returns_Ok. left. exists H', p. split; [done|]. split; [done|]. split.
    + split; [done|done| |by rewrite tcbs_alter|cbn; lia]. apply (so_ext (wsem T) (L g_waitingforsemaphore)); [done| |done]. intros. by apply wsem_alter.
    + apply (hash_add H T x p hp); try done; [|by apply (wf_in _ _ _ W g_readytorun), (wf_idle_in _ _ _ W)].
      intros y Hy. by apply (sr_node _ _ _ _ R).
  - apply IH. split; try done. cbn. lia.
Qed.

(** *** The first list *)

Definition setup_tcb (p ttype : Z) (t : tcb_s) : tcb_s :=
  set_flags (set_priority t p) (Z.lor (Z.land (flags t) (Z.lxor TCB_FLAG_TTYPE_MASK (2 ^ 16 - 1))) (Z.land ttype TCB_FLAG_TTYPE_MASK)).

Lemma nxthread_setup_spec H T L s x p ttype :
  sinv H idle T L s -> is_Some (T !! x) -> tstate T x = TSTATE_TASK_INVALID -> x <> idle -> 1 <= p <= 255 ->
  returns (nxthread_setup s x p ttype) (sinv H idle (alter (setup_tcb p ttype) x T) L).
Proof.
  intros [[R W] Hlk] [t Ht] Hst Hi Hp. pose proof (wf_invalid _ _ _ _ W Hst) as Hno. unfold nxthread_setup. cbv zeta.
  eapply returns_impl; [apply (tupd_spec H _ _ _ x _ R); eauto|]. intros s' R'.
  match type of R' with SchedRep.srep _ (alter ?g _ _) _ _ => set (f := g) in * end.
  assert (alter f x T = alter (setup_tcb p ttype) x T) as E.
  { apply (alter_ext_at T x t); [done|]. unfold f, setup_tcb. rewrite (u8_prio p Hp). unfold tstate in Hst. rewrite Ht in Hst.
    unfold set_state, set_flags, set_priority. simpl. by rewrite Hst. }
  rewrite E in R'. split; [split; [done|]|by apply lock_ok_alter]. apply wf_alter; try done.
  - intros u Hu. by apply (lockcount_range idle T L x u W Hu).
  - intros _ l Hl. by apply Hno in Hl.
  - intros l Hl. apply (psorted_ext T); [|by apply W]. intros y Hy. unfold prio. rewrite lookup_alter_ne; [done|]. intros ->. by apply (Hno l).
Qed.

Lemma nxthread_inactive_spec H T L s x :
  sinv H idle T L s -> is_Some (T !! x) -> tstate T x = TSTATE_TASK_INVALID -> 1 <= prio T x <= 255 ->
  returns (nxthread_inactive s x) (sinv H idle (alter (set_state TSTATE_TASK_INACTIVE) x T) (<[g_inactivetasks := x :: L g_inactivetasks]> L)).
Proof.
  intros [[R W] Hlk] Hs Hst Hp. pose proof (wf_invalid _ _ _ _ W Hst) as Hno. unfold nxthread_inactive.
  destruct (dq_addfirst_spec _ _ _ _ (sr_q _ _ _ _ R g_inactivetasks) (sr_node _ _ _ _ R x Hs) (Hno g_inactivetasks)) as (d & q & -> & Hr & Hf).
  rewrite bind_Ok.
  assert (srep H T (<[g_inactivetasks := x :: L g_inactivetasks]> L) (set_list s g_inactivetasks d q)) as R1.
  { apply (set_list_spec H T L s g_inactivetasks x); try done. intros y Hy. by apply (dq_rep_node _ _ _ _ Hr). }
  eapply returns_impl; [by apply (tupd_spec H _ _ _ x (set_state TSTATE_TASK_INACTIVE) R1)|]. intros s' R'.
  split; [split; [done|]|].
  - change TSTATE_TASK_INACTIVE with (state_of L g_inactivetasks x). by apply wf_insert.
  - apply (lock_ok_keeps T); [apply keeps_alter|]. by apply lock_ok_other.
Qed.
End TaskOps.
