(* ===== verification/Kern.v ===== *)
(** * Tasks, interrupts and context switches

    The calls of tasks as sequences of sections that run without interruption.
    A section is a stretch of code with interrupts disabled, or one that touches
    nothing that an interrupt handler or another task touches; between two of
    them an interrupt may come, and in a section that blocks the running task or
    readies another one the processor may be switched.  Each task has the
    sections that are left of its call: [Run] executes the next one of the
    running task, [Call] begins a call and [Irq] is an interrupt. *)

From stdpp Require Import functions.
From S2P Require Import Prelude Bits Links Queue Sched Sem Task.
Import Dq.
Local Open Scope Z_scope.

(** ** Calls *)

Inductive act :=
  | ALock | AUnlock | AUnlockEnd
  | AWait (sem : Z) | AWaitEnd (sem saved_errno : Z) | ATrywait (sem : Z) | APost (sem : Z)
  | AYield | ASetparam (p prio : Z) | ASetscheduler (p policy prio : Z) | ASetpolicy (tcb policy : Z) | AReprio (tcb prio : Z)
  | AAssignpid (tcb prio ttype : Z) | ASetup (tcb prio ttype : Z) | AInactive (tcb : Z) | AActivate (tcb : Z)
  | AReturn (ret : Z).

Inductive call :=
  | CWait (sem : Z) | CTrywait (sem : Z) | CPost (sem : Z)
  | CLock | CUnlock | CYield
  | CSetparam (p prio : Z) | CSetscheduler (p policy prio : Z)
  | CCreate (tcb prio ttype : Z).

Definition body (c : call) : list act :=
  match c with
  | CWait sem => [AWait sem]
  | CTrywait sem => [ATrywait sem]
  | CPost sem => [APost sem]
  | CLock => [ALock]
  | CUnlock => [AUnlock]
  | CYield => [AYield]
  | CSetparam p prio => [ALock; ASetparam p prio]
  | CSetscheduler p policy prio => [ASetscheduler p policy prio]
  | CCreate tcb prio ttype => [ALock; AAssignpid tcb prio ttype]
  end.

(** What can be seen of a run: a unit of a semaphore taken or given, and the value
    that a call returns. *)
Inductive obs := OTake (sem : Z) | OPost (sem : Z) | OReturn (tcb ret : Z).

Definition took (sem ret : Z) : list obs := if ret =? OK then [OTake sem] else [].

(** ** Sections *)

(** [sched_unlock] and, unless the task has lost the processor, its end. *)
Definition unlock_section (s : sched) (rtcb : Z) : res (list act * sched) :=
  '(sw, s) ← sched_unlock s false;
  if (sw : bool) then Ok ([AUnlockEnd], s)
  else
    t ← tget s rtcb;
    s ← (if lockcount t <=? 0 then sched_unlock_end s rtcb else Ok s);
    Ok ([], s).

(** The task that [nxsched_setparam] is about. *)
Definition setparam_section (s : sched) (rtcb p prio : Z) : res (list act) :=
  t ← tget s rtcb;
  if (p =? 0) || (p =? pid t) then Ok [AReprio rtcb prio]
  else
    tcb ← sched_gettcb s p;
    if tcb =? 0 then Ok [AUnlock; AReturn (- ESRCH)] else Ok [AReprio tcb prio].

(** [nxsched_setscheduler] up to [sched_lock]. *)
Definition setscheduler_section (s : sched) (rtcb p policy prio : Z) : res (list act) :=
  if negb (policy =? SCHED_FIFO) && negb (policy =? SCHED_RR) then Ok [AReturn (- EINVAL)]
  else
    t ← tget s rtcb;
    tcb ← sched_gettcb s (if p =? 0 then pid t else p);
    if tcb =? 0 then Ok [AReturn (- ESRCH)] else Ok [ALock; ASetpolicy tcb policy; AReprio tcb prio].

(** The critical section of [nxsched_setscheduler]. *)
Definition setpolicy_section (s : sched) (tcb policy : Z) : res sched :=
  s ← tupd s tcb (fun t => set_flags t (Z.land (flags t) (Z.lxor TCB_FLAG_POLICY_MASK (2 ^ 16 - 1))));
  if policy =? SCHED_FIFO then
    tupd s tcb (fun t => set_timeslice (set_flags t (Z.lor (flags t) TCB_FLAG_SCHED_FIFO)) 0)
  else
    tupd s tcb (fun t => set_timeslice (set_flags t (Z.lor (flags t) TCB_FLAG_SCHED_RR)) (MSEC2TICK CONFIG_RR_INTERVAL)).

(** [sched_yield] *)
Definition sched_yield (s : sched) : res (Z * sched) :=
  let rtcb := this_task s in
  t ← tget s rtcb;
  '(ret, _, s) ← nxsched_setpriority s rtcb (sched_priority t);
  Ok (if ret <? 0 then ERROR else OK, s).

(** One section of a call of the task [rtcb]: the sections that follow it, in front
    of those that are left, and what is seen. *)
Definition exec (k : ksys) (rtcb : Z) (a : act) : res (list act * list obs * ksys) :=
  match a with
  | ALock => s ← sched_lock (sch k) false; Ok ([], [], set_sch k s)
  | AUnlock => '(p, s) ← unlock_section (sch k) rtcb; Ok (p, [], set_sch k s)
  | AUnlockEnd => s ← sched_unlock_end (sch k) rtcb; Ok ([], [], set_sch k s)
  | AWait sem =>
      '(o, k) ← nxsem_wait k sem;
      match o with
      | Done ret => Ok ([AReturn ret], took sem ret, k)
      | Block saved_errno => Ok ([AWaitEnd sem saved_errno], [], k)
      end
  | AWaitEnd sem saved_errno => '(ret, k) ← nxsem_wait_end k rtcb saved_errno; Ok ([AReturn ret], took sem ret, k)
  | ATrywait sem => '(ret, k) ← nxsem_trywait k sem; Ok ([AReturn ret], took sem ret, k)
  | APost sem => '(ret, _, k) ← nxsem_post k sem; Ok ([AReturn ret], if ret =? OK then [OPost sem] else [], k)
  | AYield => '(ret, s) ← sched_yield (sch k); Ok ([], [OReturn rtcb ret], set_sch k s)
  | ASetparam p prio => q ← setparam_section (sch k) rtcb p prio; Ok (q, [], k)
  | ASetscheduler p policy prio => q ← setscheduler_section (sch k) rtcb p policy prio; Ok (q, [], k)
  | ASetpolicy tcb policy => s ← setpolicy_section (sch k) tcb policy; Ok ([], [], set_sch k s)
  | AReprio tcb prio => '(ret, _, s) ← nxsched_setpriority (sch k) tcb prio; Ok ([AUnlock; AReturn ret], [], set_sch k s)
  | AAssignpid tcb prio ttype =>
      '(ret, k) ← nxtask_assignpid k tcb;
      Ok (if ret =? OK then [AUnlock; ASetup tcb prio ttype] else [AUnlock; AReturn ret], [], k)
  | ASetup tcb prio ttype =>
      s ← nxthread_setup (sch k) tcb prio ttype;
      Ok ([ALock; AInactive tcb], [], set_sch k s)
  | AInactive tcb => s ← nxthread_inactive (sch k) tcb; Ok ([AUnlock; AActivate tcb], [], set_sch k s)
  | AActivate tcb =>
      t ← tget (sch k) tcb;
      '(_, s) ← task_activate (sch k) tcb; Ok ([AReturn (pid t)], [], set_sch k s)
  | AReturn ret => '(v, k) ← api_return k ret; Ok ([], [OReturn rtcb v], k)
  end.

(** ** The system *)

Inductive irq := IPost (sem : Z) | ITick | ITimeout (p : Z).

Definition interrupt (k : ksys) (i : irq) : res (list obs * ksys) :=
  match i with
  | IPost sem => '(ret, _, k) ← nxsem_post k sem; Ok (if ret =? OK then [OPost sem] else [], k)
  | ITick => '(_, s) ← nxsched_cpu_scheduler (sch k); Ok ([], set_sch k s)
  | ITimeout p => '(_, k) ← nxsem_timeout k p; Ok ([], k)
  end.

Record kst := mk_kst { ks : ksys; progs : gmap Z (list act) }.

Inductive event := Call (c : call) | Run | Irq (i : irq).

Definition prog (st : kst) (x : Z) : list act := default [] (progs st !! x).

Definition kstep (st : kst) (e : event) : res (list obs * kst) :=
  let rtcb := this_task (sch (ks st)) in
  match e with
  | Call c => Ok ([], mk_kst (ks st) (<[rtcb := body c]> (progs st)))
  | Run =>
      match prog st rtcb with
      | [] => Ok ([], st)
      | a :: rest =>
          '(p, o, k) ← exec (ks st) rtcb a;
          Ok (o, mk_kst k (<[rtcb := p ++ rest]> (progs st)))
      end
  | Irq i => '(o, k) ← interrupt (ks st) i; Ok (o, mk_kst k (progs st))
  end.

(** ** What callers promise

    A semaphore is NULL or initialised, and its count is not raised beyond the
    range of [int16_t]; the preemption lock is not nested 32767 times; the idle
    task neither waits nor is it given a priority or a policy; a task is created
    in a control block that is all zeros, with a priority in range.  A task that
    is ready and does not run is only given a priority above that of the running
    task, because of what [nxsched_readytorun_setpriority] does otherwise. *)

Definition zero_tcb : tcb_s := mk_tcb 0 0 TSTATE_TASK_INVALID 0 0 0 0 0 0.

#[export] Instance tcb_eq_dec : EqDecision tcb_s.
Proof. solve_decision. Defined.

Definition sem_addr (k : ksys) (sem : Z) : bool := (sem =? 0) || bool_decide (is_Some (sems k !! sem)).

Definition sem_room (k : ksys) (sem : Z) : bool :=
  match sems k !! sem with Some c => c <? SEM_VALUE_MAX | None => true end.

Definition tcb_is (k : ksys) (tcb : Z) (f : tcb_s -> bool) : bool :=
  match tcbs (sch k) !! tcb with Some t => f t | None => false end.

Definition reprio_ok (k : ksys) (tcb prio : Z) : bool :=
  tcb_is k tcb (fun t => negb (bool_decide (task_state t = TSTATE_TASK_READYTORUN))) ||
  tcb_is k (this_task (sch k)) (fun r => sched_priority r <? prio).

Definition prio_ok (prio : Z) : bool := (SCHED_PRIORITY_MIN <=? prio) && (prio <=? SCHED_PRIORITY_MAX).

Definition act_ok (idle : Z) (k : ksys) (rtcb : Z) (a : act) : bool :=
  match a with
  | ALock => tcb_is k rtcb (fun t => lockcount t <? 32767)
  | AWait sem => sem_addr k sem && negb (rtcb =? idle)
  | ATrywait sem => sem_addr k sem
  | APost sem => sem_addr k sem && sem_room k sem
  | AYield => negb (rtcb =? idle)
  | ASetpolicy tcb _ => negb (tcb =? idle)
  | AReprio tcb prio => negb (tcb =? idle) && reprio_ok k tcb prio
  | AAssignpid tcb prio _ => negb (tcb =? idle) && tcb_is k tcb (fun t => bool_decide (t = zero_tcb)) && prio_ok prio
  | _ => true
  end.

Definition irq_ok (k : ksys) (i : irq) : bool :=
  match i with
  | IPost sem => sem_addr k sem && sem_room k sem
  | ITick => true
  | ITimeout p => negb (p =? 0)
  end.

(** Whether an event can come in a state. *)
Definition possible (idle : Z) (st : kst) (e : event) : bool :=
  let rtcb := this_task (sch (ks st)) in
  match e with
  | Call c => match prog st rtcb with [] => true | _ :: _ => false end
  | Run => match prog st rtcb with [] => false | a :: _ => act_ok idle (ks st) rtcb a end
  | Irq i => irq_ok (ks st) i
  end.

(** A run: the events that can come happen, the others are left out. *)
Fixpoint krun (idle : Z) (st : kst) (es : list event) : res (list obs * kst) :=
  match es with
  | [] => Ok ([], st)
  | e :: es =>
      if possible idle st e then
        '(o, st) ← kstep st e;
        '(os, st) ← krun idle st es;
        Ok (o ++ os, st)
      else krun idle st es
  end.

(** A run in which every event happens, and whether each of them can come in the
    state that it finds, as the callers promise. *)
Fixpoint ksteps (st : kst) (es : list event) : res (list obs * kst) :=
  match es with
  | [] => Ok ([], st)
  | e :: es =>
      '(o, st) ← kstep st e;
      '(os, st) ← ksteps st es;
      Ok (o ++ os, st)
  end.

Fixpoint promised (idle : Z) (st : kst) (es : list event) : bool :=
  match es with
  | [] => true
  | e :: es => possible idle st e && match kstep st e with Ok (_, st) => promised idle st es | Err _ => true end
  end.

Definition kernel (k : ksys) (idle : Z) (es : list event) : res (list obs * kst) :=
  k ← nx_start k idle; ksteps (mk_kst k ∅) es.

Definition kernel_promise (k : ksys) (idle : Z) (es : list event) : bool :=
  match nx_start k idle with Ok k => promised idle (mk_kst k ∅) es | Err _ => true end.

(** The system from start-up on. *)
Definition system (k : ksys) (idle : Z) (es : list event) : res (list obs * kst) :=
  k ← nx_start k idle; krun idle (mk_kst k ∅) es.

(** ** Counting what is seen *)

Definition obs_take (sem : Z) (o : obs) : Z := match o with OTake s => if s =? sem then 1 else 0 | _ => 0 end.
Definition obs_post (sem : Z) (o : obs) : Z := match o with OPost s => if s =? sem then 1 else 0 | _ => 0 end.

(** How often a unit of [sem] has been taken, and given. *)
Definition takes (sem : Z) (os : list obs) : Z := foldr (fun o n => obs_take sem o + n) 0 os.
Definition posts (sem : Z) (os : list obs) : Z := foldr (fun o n => obs_post sem o + n) 0 os.

(** ** What a state promises *)

(** The running task is the head of the ready list and the only one in that state;
    no ready task has a higher priority, and tasks are pending only while it holds
    the preemption lock. *)
Definition runs_highest (s : sched) : Prop :=
  exists c, tcbs s !! this_task s = Some c /\ task_state c = TSTATE_TASK_RUNNING /\
    forall x t, tcbs s !! x = Some t ->
      (task_state t = TSTATE_TASK_RUNNING -> x = this_task s) /\
      (task_state t = TSTATE_TASK_READYTORUN -> sched_priority t <= sched_priority c) /\
      (task_state t = TSTATE_TASK_PENDING -> 0 < lockcount c).

(** The tasks that satisfy [f], counted. *)
Definition count_tasks (st : kst) (f : Z -> tcb_s -> bool) : Z :=
  Z.of_nat (length (filter (fun '(x, t) => f x t = true) (map_to_list (tcbs (sch (ks st)))))).

Definition is_waiting (t : tcb_s) : bool := bool_decide (task_state t = TSTATE_WAIT_SEM).

(** The tasks that wait for [sem]. *)
Definition waiting_for (st : kst) (sem : Z) : Z := count_tasks st (fun _ t => is_waiting t && (waitsem t =? sem)).

(** The tasks that have been given a unit of [sem] while they waited, and have not
    yet run since. *)
Definition granted (st : kst) (sem : Z) : Z :=
  count_tasks st (fun x t =>
    match prog st x with AWaitEnd s _ :: _ => (s =? sem) && negb (is_waiting t) && (pterrno t =? 0) | _ => false end).
