(* ===== verification/KernInv.v ===== *)
(** * The invariant of the system

    Besides the invariant of the scheduler and of the semaphores: the table of
    identifiers is right, a task that waits for a semaphore is in the middle of a
    call to wait for it, and the control blocks that are being set up belong to
    one task each.  [pend] counts the tasks that are owed a unit of a semaphore:
    those that wait for it, and those that have been given it but have not run
    since. *)

From stdpp Require Import functions.
From S2P Require Import Prelude Bits Links Queue Sched SchedRep SchedInv SchedOps SchedCalls SchedPrio.
From S2P Require Import Sem SemOps Task TaskOps Kern.
Import Dq.
Local Open Scope Z_scope.

(** ** Counting *)

Definition csum (f : Z -> Z) (l : list Z) : Z := foldr (fun x n => f x + n) 0 l.

Lemma csum_ext f g l : (forall x, x ∈ l -> f x = g x) -> csum f l = csum g l.
Proof. induction l as [|x l IH]; intros E; simpl; [done|]. rewrite E, IH by (set_solver || (intros; apply E; set_solver)). done. Qed.

Lemma csum_one f g l z : NoDup l -> z ∈ l -> (forall x, x <> z -> g x = f x) -> csum g l = csum f l + g z - f z.
Proof.
  induction 1 as [|x l Hx Hnd IH]; intros Hz E; [by apply not_elem_of_nil in Hz|]. simpl.
  apply elem_of_cons in Hz as [->|Hz].
  - rewrite (csum_ext g f); [lia|]. intros y Hy. apply E. by intros ->.
  - rewrite IH, (E x) by (done || (by intros ->)). lia.
Qed.

Lemma csum_ge f g l : (forall x, x ∈ l -> f x <= g x) -> csum f l <= csum g l.
Proof.
  induction l as [|x l IH]; intros E; simpl; [lia|]. pose proof (E x ltac:(set_solver)). pose proof (IH ltac:(intros; apply E; set_solver)). lia.
Qed.

(** ** Programs *)

Definition wait_end (a : act) : bool := match a with AWaitEnd _ _ => true | _ => false end.

(** The control block that a section sets up. *)
Definition owns (a : act) : option Z := match a with ASetup t _ _ | AInactive t | AActivate t => Some t | _ => None end.
Definition owned (p : list act) : list Z := omap owns p.

Section Inv.
Context (idle : Z).

(** A control block that has its identifier but is in no list. *)
Definition newborn (T : gmap Z tcb_s) (L : tasklist -> list Z) (t : Z) : Prop :=
  is_Some (T !! t) /\ ~ listed L t /\ t <> idle /\ pid_of T t <> 0.

Definition act_inv (T : gmap Z tcb_s) (L : tasklist -> list Z) (a : act) : Prop :=
  match a with
  | AReprio t _ | ASetpolicy t _ => is_Some (T !! t)
  | AAssignpid _ p _ => True
  | ASetup t p _ => newborn T L t /\ 1 <= p <= 255
  | AInactive t => newborn T L t /\ 1 <= prio T t <= 255
  | AActivate t => t ∈ L g_inactivetasks
  | _ => True
  end.

Definition slice_ok (T : gmap Z tcb_s) : Prop :=
  forall x t, T !! x = Some t -> 0 <= timeslice t <= 200 /\ (is_rr t = true -> x <> idle).

Record ginv (H : list (Z * Z)) (T : gmap Z tcb_s) (L : tasklist -> list Z) (S : gmap Z Z) (F : gmap Z (list act)) (k : ksys) : Prop := {
  gi_k : kinv H idle T L S k;
  gi_hash : hash_ok H idle T;
  gi_idle : pid_of T idle = 0;
  gi_pid x : listed L x -> x <> idle -> pid_of T x <> 0;
  gi_slice : slice_ok T;
  gi_dom x : is_Some (F !! x) -> is_Some (T !! x);
  gi_wait x : x ∈ L waiting -> exists saved r, F !! x = Some (AWaitEnd (wsem T x) saved :: r) /\ terrno T x = 0;
  gi_tail x p : F !! x = Some p -> Forall (fun a => wait_end a = false) (tail p);
  gi_acts x p : F !! x = Some p -> Forall (act_inv T L) p;
  gi_nodup x p : F !! x = Some p -> NoDup (owned p);
  gi_own x y p q t : F !! x = Some p -> F !! y = Some q -> t ∈ owned p -> t ∈ owned q -> x = y
}.

(** ** Units that are owed *)

Definition owed (T : gmap Z tcb_s) (L : tasklist -> list Z) (F : gmap Z (list act)) (sem x : Z) : Z :=
  match F !! x with
  | Some (AWaitEnd s _ :: _) => if decide (s = sem /\ (x ∈ L waiting \/ terrno T x = 0)) then 1 else 0
  | _ => 0
  end.

Definition pend (T : gmap Z tcb_s) (L : tasklist -> list Z) (F : gmap Z (list act)) (sem : Z) : Z :=
  csum (owed T L F sem) (elements (dom T)).

(** ** A step *)

(** What a step leaves as it is, apart from the control blocks [O] that the task
    sets up. *)
Record calm (T : gmap Z tcb_s) (L : tasklist -> list Z) (T' : gmap Z tcb_s) (L' : tasklist -> list Z) (O : list Z) : Prop := {
  ca_pid y : pid_of T y <> 0 -> pid_of T' y <> 0;
  ca_dom : dom T' = dom T;
  ca_prio y : 1 <= prio T y <= 255 -> 1 <= prio T' y <= 255;
  ca_within y : listed L' y -> listed L y \/ y ∈ O;
  ca_inact y : y ∈ L g_inactivetasks -> y ∈ L' g_inactivetasks \/ y ∈ O
}.

Lemma calm_some T L T' L' O y : calm T L T' L' O -> is_Some (T' !! y) <-> is_Some (T !! y).
Proof. intros C. by rewrite <- !elem_of_dom, (ca_dom _ _ _ _ _ C). Qed.

Lemma calm_newborn T L T' L' O t : calm T L T' L' O -> t ∉ O -> newborn T L t -> newborn T' L' t.
Proof.
  intros C Ho (H1 & H2 & H3 & H4). split; [by apply (calm_some _ _ _ _ _ _ C)|]. split; [|split; [done|by apply C]].
  intros [Hl|Hl]%(ca_within _ _ _ _ _ C); done.
Qed.

Lemma calm_act T L T' L' O a : calm T L T' L' O -> (forall t, owns a = Some t -> t ∉ O) -> act_inv T L a -> act_inv T' L' a.
Proof.
  intros C Ho. destruct a; simpl in *; try done; rewrite ?(calm_some _ _ _ _ _ _ C); try done.
  - intros [Hn Hp]. split; [apply (calm_newborn T L _ _ O); auto|done].
  - intros [Hn Hp]. split; [apply (calm_newborn T L _ _ O); auto|by apply (ca_prio _ _ _ _ _ C)].
  - intros Hin. destruct (ca_inact _ _ _ _ _ C _ Hin) as [|Hx]; [done|]. by apply Ho in Hx.
Qed.

Lemma elem_of_owned t p : t ∈ owned p <-> exists a, a ∈ p /\ owns a = Some t.
Proof. unfold owned. rewrite list_elem_of_omap. done. Qed.

Lemma owned_cons a p : owned (a :: p) = match owns a with Some t => t :: owned p | None => owned p end.
Proof. done. Qed.

Lemma owned_one a t : t ∈ owned [a] -> owns a = Some t.
Proof. rewrite owned_cons. destruct (owns a); set_solver. Qed.

Lemma owned_head a p t : owns a = Some t -> t ∈ owned (a :: p).
Proof. rewrite owned_cons. intros ->. by left. Qed.

Lemma owned_tail a p t : t ∈ owned p -> t ∈ owned (a :: p).
Proof. rewrite owned_cons. destruct (owns a); [by right|done]. Qed.

Lemma owned_rest a p : NoDup (owned (a :: p)) -> NoDup (owned p).
Proof. rewrite owned_cons. destruct (owns a); [|done]. by intros [_ ?]%NoDup_cons. Qed.

Lemma owned_not_rest a p t : owns a = Some t -> NoDup (owned (a :: p)) -> t ∉ owned p.
Proof. rewrite owned_cons. intros ->. by intros [? _]%NoDup_cons. Qed.

Lemma owned_app p q : NoDup (owned p) -> NoDup (owned q) -> (forall t, t ∈ owned p -> t ∉ owned q) -> NoDup (owned (p ++ q)).
Proof. intros H1 H2 H3. unfold owned. rewrite omap_app. by apply NoDup_app. Qed.

(** The program of a task. *)
Definition pr (F : gmap Z (list act)) (x : Z) : list act := default [] (F !! x).

Lemma ginv_step H T L S F k H' T' L' S' F' k' x :
  ginv H T L S F k -> kinv H' idle T' L' S' k' -> hash_ok H' idle T' -> pid_of T' idle = 0 -> slice_ok T' ->
  calm T L T' L' (owned (pr F x)) -> (forall y, y <> x -> F' !! y = F !! y) -> is_Some (T !! x) ->
  (forall p', F' !! x = Some p' -> Forall (act_inv T' L') p' /\ Forall (fun a => wait_end a = false) (tail p') /\ NoDup (owned p') /\
     forall t, t ∈ owned p' -> t ∈ owned (pr F x) \/ forall y, t ∉ owned (pr F y)) ->
  (forall y, y ∈ L' waiting ->
     (y ∈ L waiting /\ y <> x /\ wsem T' y = wsem T y /\ terrno T' y = terrno T y) \/
     (y = x /\ exists saved r, F' !! x = Some (AWaitEnd (wsem T' x) saved :: r) /\ terrno T' x = 0)) ->
  ginv H' T' L' S' F' k'.
Proof.
  intros G K Ho Hid Hsl C HF Hs Hx Hw.
  assert (forall y p, F !! y = Some p -> pr F y = p) as Epr by (intros y p E; unfold pr; by rewrite E).
  split; try done.
  - intros y Hy Hi. apply (ca_pid _ _ _ _ _ C). destruct (ca_within _ _ _ _ _ C y Hy) as [Hl|Hl]; [by apply (gi_pid _ _ _ _ _ _ G)|].
    unfold pr in Hl. destruct (F !! x) as [px|] eqn:Ex; [|by apply not_elem_of_nil in Hl]. apply elem_of_owned in Hl as (a & Ha & Ea).
    pose proof (gi_acts _ _ _ _ _ _ G x px Ex) as Hacts. rewrite Forall_forall in Hacts. specialize (Hacts a Ha).
    destruct a; simplify_eq/=; try (by destruct Hacts as [(_ & _ & _ & ?) _]). apply (gi_pid _ _ _ _ _ _ G); [by eexists|done].
  - intros y Hy. apply (calm_some _ _ _ _ _ _ C). destruct (decide (y = x)) as [->|]; [done|]. rewrite HF in Hy by done. by apply (gi_dom _ _ _ _ _ _ G).
  - intros y Hy. destruct (Hw y Hy) as [(H1 & H2 & H3 & H4)|(-> & saved & r & H1 & H2)]; [|eauto].
    destruct (gi_wait _ _ _ _ _ _ G y H1) as (saved & r & E & Er). exists saved, r. rewrite HF, H3, H4 by done. done.
  - intros y p Hp. destruct (decide (y = x)) as [->|]; [by apply (Hx p Hp)|]. rewrite HF in Hp by done. by apply (gi_tail _ _ _ _ _ _ G y).
  - intros y p Hp. destruct (decide (y = x)) as [->|Hne]; [by apply (Hx p Hp)|]. rewrite HF in Hp by done.
    pose proof (gi_acts _ _ _ _ _ _ G y p Hp) as Ha. rewrite Forall_forall in Ha |- *. intros a Hin.
    apply (calm_act T L T' L' _ a C); [|by apply Ha]. intros t Ht Hox. unfold pr in Hox. destruct (F !! x) as [px|] eqn:Ex; [|by apply not_elem_of_nil in Hox].
    apply Hne. apply (gi_own _ _ _ _ _ _ G y x p px t); try done. apply elem_of_owned. eauto.
  - intros y p Hp. destruct (decide (y = x)) as [->|]; [by apply (Hx p Hp)|]. rewrite HF in Hp by done. by apply (gi_nodup _ _ _ _ _ _ G y).
  - assert (forall y q t, y <> x -> F !! y = Some q -> t ∈ owned q -> forall p', F' !! x = Some p' -> t ∉ owned p') as Hsep.
    { intros y q t Hne Hq Ht p' Hp' Ht'. destruct (Hx p' Hp') as (_ & _ & _ & Hown). destruct (Hown t Ht') as [Hold|Hnew].
      - unfold pr in Hold. destruct (F !! x) as [px|] eqn:Ex; [|by apply not_elem_of_nil in Hold]. apply Hne. by apply (gi_own _ _ _ _ _ _ G y x q px t).
      - apply (Hnew y). by rewrite (Epr _ _ Hq). }
    intros y z p q t Hp Hq H1 H2. destruct (decide (y = x)) as [->|Hy], (decide (z = x)) as [->|Hz]; try done.
    + rewrite HF in Hq by done. by destruct (Hsep z q t Hz Hq H2 p Hp).
    + rewrite HF in Hp by done. by destruct (Hsep y p t Hy Hp H1 q Hq).
    + rewrite HF in Hp, Hq by done. by apply (gi_own _ _ _ _ _ _ G y z p q t).
Qed.

(** *** Steps of the scheduler *)

(** Nothing changes for a task that waits. *)
Record still (T : gmap Z tcb_s) (L : tasklist -> list Z) (T' : gmap Z tcb_s) (L' : tasklist -> list Z) (x : Z) : Prop := {
  st_pid y : pid_of T' y = pid_of T y;
  st_dom : dom T' = dom T;
  st_wsem y : wsem T' y = wsem T y;
  st_errno y : y <> x -> terrno T' y = terrno T y;
  st_prio y : 1 <= prio T y <= 255 -> 1 <= prio T' y <= 255;
  st_stays : stays L L';
  st_within : within L L'
}.

Lemma still_calm T L T' L' x O : still T L T' L' x -> calm T L T' L' O.
Proof.
  intros [H1 H2 H3 H4 H5 H6 H7]. split; try done.
  - intros y. by rewrite H1.
  - intros y Hy. left. by apply H7.
  - intros y Hy. left. by rewrite (H6 g_inactivetasks eq_refl).
Qed.

Lemma owed_other T L F T' L' F' sem y :
  F' !! y = F !! y -> (y ∈ L' waiting <-> y ∈ L waiting) -> terrno T' y = terrno T y -> owed T' L' F' sem y = owed T L F sem y.
Proof.
  intros E1 E2 E3. unfold owed. rewrite E1, E3. destruct (F !! y) as [[|[] p]|]; try done.
  destruct (decide (sem0 = sem /\ (y ∈ L waiting \/ terrno T y = 0))) as [D|D]; [rewrite decide_True by tauto|rewrite decide_False by tauto]; done.
Qed.

Lemma pend_one T L F T' L' F' sem x :
  dom T' = dom T -> is_Some (T !! x) -> (forall y, y <> x -> owed T' L' F' sem y = owed T L F sem y) ->
  pend T' L' F' sem = pend T L F sem + owed T' L' F' sem x - owed T L F sem x.
Proof.
  intros E Hs Ho. unfold pend. rewrite E. apply csum_one; [apply NoDup_elements| |done]. by apply elem_of_elements, elem_of_dom.
Qed.

Lemma ginv_still H T L S F k T' L' S' k' x a rest p :
  ginv H T L S F k -> x ∉ L waiting -> F !! x = Some (a :: rest) -> kinv H idle T' L' S' k' -> still T L T' L' x -> slice_ok T' ->
  Forall (act_inv T' L') p -> Forall (fun a => wait_end a = false) p -> NoDup (owned p) -> (forall t, t ∈ owned p -> owns a = Some t) ->
  ginv H T' L' S' (<[x := p ++ rest]> F) k' /\
  forall sem, pend T' L' (<[x := p ++ rest]> F) sem = pend T L F sem - owed T L F sem x.
Proof.
  intros G Hx Ex K St Hsl Ha Hne Hnd Hown. pose proof (gi_dom _ _ _ _ _ _ G x ltac:(eauto)) as Hs. pose proof St as [H1 H2 H3 H4 H5 H6 H7].
  pose proof (gi_tail _ _ _ _ _ _ G _ _ Ex) as Htl. simpl in Htl. pose proof (gi_acts _ _ _ _ _ _ G _ _ Ex) as Hacts.
  assert (pr F x = a :: rest) as Epr by (unfold pr; by rewrite Ex).
  assert (Forall (fun a => wait_end a = false) (p ++ rest)) as Hnw by (by apply Forall_app).
  split.
  - apply (ginv_step H T L S F k H T' L' S' _ k' x); try done.
    + apply (hash_ext idle H T); [done| |apply G]. intros y. by rewrite <- !elem_of_dom, H2.
    + rewrite H1. apply G.
    + by apply (still_calm _ _ _ _ x).
    + intros y Hy. by rewrite lookup_insert_ne.
    + intros p'. rewrite lookup_insert, decide_True by done. intros [= <-]. split; [|split; [|split]].
      * apply Forall_app. split; [done|]. apply Forall_cons in Hacts as [_ Hacts]. rewrite Forall_forall in Hacts |- *. intros b Hb.
        apply (calm_act T L T' L' [] b); [by apply (still_calm _ _ _ _ x)|intros t _; apply not_elem_of_nil|by apply Hacts].
      * destruct (p ++ rest); [done|]. by apply Forall_cons in Hnw as [_ ?].
      * apply owned_app; [done| |].
        -- apply (owned_rest a). by apply (gi_nodup _ _ _ _ _ _ G x).
        -- intros t Ht%Hown. by apply (owned_not_rest a rest t Ht), (gi_nodup _ _ _ _ _ _ G x).
      * intros t Ht. left. rewrite Epr. apply elem_of_owned in Ht as (b & [Hb|Hb]%elem_of_app & Eb); apply elem_of_owned.
        -- exists a. split; [by left|]. apply Hown. apply elem_of_owned. eauto.
        -- exists b. split; [by right|done].
    + intros y Hy. left. rewrite (H6 waiting eq_refl) in Hy. assert (y <> x) by (by intros ->). auto.
  - intros sem. rewrite (pend_one T L F T' L' _ sem x); try done.
    + assert (owed T' L' (<[x := p ++ rest]> F) sem x = 0) as ->; [|lia]. unfold owed. rewrite lookup_insert, decide_True by done.
      destruct (p ++ rest) as [|b q]; [done|]. apply Forall_cons in Hnw as [Hb _]. by destruct b.
    + intros y Hy. apply owed_other; [by rewrite lookup_insert_ne|by rewrite (H6 waiting eq_refl)|by apply H4].
Qed.
End Inv.
