(* ===== verification/KernActs.v ===== *)
(** * The sections of calls keep the invariant

    Every section that a task runs, with what its callers promise, returns, keeps
    the invariant of the system, and neither loses nor makes units of
    semaphores. *)

From stdpp Require Import functions.
From S2P Require Import Prelude Bits Links Queue Sched SchedRep SchedInv SchedOps SchedCalls SchedPrio.
From S2P Require Import Sem SemOps Task TaskOps Kern KernInv.
Import Dq.
Local Open Scope Z_scope.

Section Acts.
Context (idle : Z).
Abbreviation ginv := (ginv idle).
Abbreviation act_inv := (act_inv idle).
Abbreviation slice_ok := (slice_ok idle).

(** What a semaphore has and what it owes changes by what is taken and given. *)
Definition balance (o : list obs) (T : gmap Z tcb_s) (L : tasklist -> list Z) (S : gmap Z Z) (F : gmap Z (list act))
    (T' : gmap Z tcb_s) (L' : tasklist -> list Z) (S' : gmap Z Z) (F' : gmap Z (list act)) : Prop :=
  forall sem c, S !! sem = Some c -> exists c', S' !! sem = Some c' /\
    c' + pend T' L' F' sem + takes sem o = c + pend T L F sem + posts sem o.

Definition stepped (T : gmap Z tcb_s) (L : tasklist -> list Z) (S : gmap Z Z) (F : gmap Z (list act)) (x : Z) (rest : list act)
    (r : list act * list obs * ksys) : Prop :=
  let '(p, o, k') := r in
  exists H' T' L' S', ginv H' T' L' S' (<[x := p ++ rest]> F) k' /\ balance o T L S F T' L' S' (<[x := p ++ rest]> F).

(** *** What stays the same *)

Lemma still_refl T L x : still T L T L x.
Proof. by split. Qed.

Lemma still_trans T1 L1 T2 L2 T3 L3 x : still T1 L1 T2 L2 x -> still T2 L2 T3 L3 x -> still T1 L1 T3 L3 x.
Proof.
  intros [A1 A2 A3 A4 A5 A6 A7] [B1 B2 B3 B4 B5 B6 B7]. split; try (intros; congruence).
  - intros y Hy. by rewrite B4, A4.
  - auto.
  - by trans L2.
  - by trans L2.
Qed.

Lemma still_sees T T' L L' x :
  sees T T' -> stays L L' -> within L L' -> (forall y, 1 <= prio T y <= 255 -> 1 <= prio T' y <= 255) -> still T L T' L' x.
Proof.
  intros E St Wi Hp. split; try done.
  - intros. by apply sees_pid.
  - by apply sees_dom.
  - intros. by apply sees_wsem.
  - intros. by apply sees_terrno.
Qed.

Lemma slice_sees T T' : sees T T' -> slice_ok T -> slice_ok T'.
Proof.
  intros E Hs x t Ht. unfold sees in E. apply (f_equal (lookup x)) in E. rewrite !lookup_fmap, Ht in E.
  destruct (T !! x) as [u|] eqn:Eu; [|done]. apply (inj Some) in E. destruct (Hs x u Eu) as [H1 H2].
  injection E as E1 E2 E3 E4 E5 E6. unfold is_rr. rewrite E2, E3. done.
Qed.

Lemma terrno_alter T z y f : (forall t, pterrno (f t) = pterrno t) -> terrno (alter f z T) y = terrno T y.
Proof.
  intros Hf. unfold terrno. rewrite lookup_alter. destruct (decide (z = y)) as [<-|]; [|done]. destruct (T !! z); simpl; [apply Hf|done].
Qed.

Lemma still_alter T L x z f :
  (forall t, pid (f t) = pid t) -> (forall t, waitsem (f t) = waitsem t) -> (forall t, pterrno (f t) = pterrno t) ->
  (forall t, sched_priority (f t) = sched_priority t) -> still T L (alter f z T) L x.
Proof.
  intros H1 H2 H3 H4. split; try done.
  - intros. by apply pid_of_alter.
  - by rewrite dom_alter_L.
  - intros. by apply wsem_alter.
  - intros. by apply terrno_alter.
  - intros. by rewrite prio_alter.
Qed.

Lemma slice_alter T z f :
  (forall t, T !! z = Some t -> 0 <= timeslice (f t) <= 200 /\ (is_rr (f t) = true -> z <> idle)) -> slice_ok T -> slice_ok (alter f z T).
Proof.
  intros Hf Hs x t. rewrite lookup_alter. destruct (decide (z = x)) as [<-|]; [|by apply Hs].
  destruct (T !! z) as [u|] eqn:E; simpl; [|done]. intros [= <-]. by apply Hf.
Qed.

(** *** Sections of the scheduler *)

Definition harmless (a : act) : Prop := match a with ALock | AUnlock | AUnlockEnd | AReturn _ => True | _ => False end.

Lemma harmless_ok p T L : Forall harmless p -> Forall (act_inv T L) p /\ Forall (fun a => wait_end a = false) p /\ owned p = [].
Proof.
  induction 1 as [|a p Ha Hp (IH1 & IH2 & IH3)]; [done|]. split_and!; [constructor; [by destruct a|done]..|]. by destruct a.
Qed.

Lemma step_still H T L S F k x a rest T' L' k' p o :
  ginv H T L S F k -> x ∉ L waiting -> F !! x = Some (a :: rest) -> wait_end a = false ->
  kinv H idle T' L' S k' -> still T L T' L' x -> slice_ok T' ->
  Forall (act_inv T' L') p -> Forall (fun a => wait_end a = false) p -> NoDup (owned p) -> (forall t, t ∈ owned p -> owns a = Some t) ->
  (forall sem, takes sem o = 0 /\ posts sem o = 0) -> stepped T L S F x rest (p, o, k').
Proof.
  intros G Hx Ex Hwe K St Hsl H1 H2 H3 H4 Ho.
  destruct (ginv_still idle H T L S F k T' L' S k' x a rest p G Hx Ex K St Hsl H1 H2 H3 H4) as [G' Hp].
  exists H, T', L', S. split; [done|]. intros sem c E. exists c. split; [done|]. rewrite Hp.
  assert (owed T L F sem x = 0) as -> by (unfold owed; rewrite Ex; by destruct a). destruct (Ho sem). lia.
Qed.

(** The common case: the scheduler has moved tasks, and what is left to do needs nothing. *)
Lemma step_sched H T L S F k x a rest T' L' s' p o :
  ginv H T L S F k -> x ∉ L waiting -> F !! x = Some (a :: rest) -> wait_end a = false ->
  sinv H idle T' L' s' -> still T L T' L' x -> slice_ok T' ->
  Forall harmless p -> (forall sem, takes sem o = 0 /\ posts sem o = 0) -> stepped T L S F x rest (p, o, set_sch k s').
Proof.
  intros G Hx Ex Hwe S' St Hsl Hp Ho. destruct (harmless_ok p T' L' Hp) as (H1 & H2 & H3).
  pose proof (gi_k _ _ _ _ _ _ _ G) as [K1 K2 K3 K4 K5].
  apply (step_still H T L S F k x a rest T' L'); try done.
  - split; try done.
    + apply (so_ext (wsem T) (L waiting)); [done|by apply St|by apply St].
    + by rewrite <- size_dom, (st_dom _ _ _ _ _ St), size_dom.
  - rewrite H3. apply NoDup_nil_2.
  - rewrite H3. intros t Ht. by apply not_elem_of_nil in Ht.
Qed.

(** The effect of a change of a task followed by moves of the scheduler. *)
Lemma still_moved H T L x T1 r s' :
  moved H idle T1 L r s' -> still T L T1 L x -> slice_ok T1 ->
  exists T' L', sinv H idle T' L' s' /\ still T L T' L' x /\ slice_ok T' /\ (r = false -> cur L' = cur L).
Proof.
  intros (T' & L' & S' & K & Hst & Hwi & Hc) St Hsl. exists T', L'. pose proof (keeps_sees _ _ K) as E. split_and!; try done.
  - apply (still_trans T L T1 L T' L' x St), still_sees; try done. intros y. by rewrite (keeps_prio _ _ _ K).
  - by apply (slice_sees T1).
Qed.

Lemma no_obs sem : takes sem [] = 0 /\ posts sem [] = 0.
Proof. done. Qed.

Lemma return_obs x r sem : takes sem [OReturn x r] = 0 /\ posts sem [OReturn x r] = 0.
Proof. done. Qed.

Lemma ginv_cur H T L S F k :
  ginv H T L S F k -> this_task (sch k) = cur L /\ is_Some (T !! cur L) /\ cur L ∉ L waiting /\ wsem T (cur L) = 0.
Proof. intros G. apply (kinv_cur H idle T L S k). apply G. Qed.

Lemma ginv_sinv H T L S F k : ginv H T L S F k -> sinv H idle T L (sch k).
Proof. intros G. apply G. Qed.

Lemma tcb_is_spec H T L S F k x f : ginv H T L S F k -> tcb_is k x f = true -> exists t, T !! x = Some t /\ f t = true.
Proof.
  intros G. unfold tcb_is. destruct (ginv_sinv _ _ _ _ _ _ G) as [[R _] _]. rewrite (sr_tcbs _ _ _ _ R).
  destruct (T !! x) as [t|]; [|done]. eauto.
Qed.

Section Run.
Context (H : list (Z * Z)) (T : gmap Z tcb_s) (L : tasklist -> list Z) (S : gmap Z Z) (F : gmap Z (list act)) (k : ksys) (rest : list act).
Hypothesis (G : ginv H T L S F k).
Abbreviation ok a := (F !! cur L = Some (a :: rest) -> act_ok idle k (cur L) a = true -> returns (exec k (cur L) a) (stepped T L S F (cur L) rest)).

Lemma exec_lock : ok ALock.
Proof.
  intros Ex Ha. destruct (ginv_cur _ _ _ _ _ _ G) as (Ec & [c Hc] & Hx & _). simpl in Ha.
  destruct (tcb_is_spec _ _ _ _ _ _ _ _ G Ha) as (t & Ht & Hlt). b2p.
  eapply returns_bind; [apply (sched_lock_spec H idle T L); [apply G|unfold locks; by rewrite Ht]|]. intros s' S'. apply returns_Ok.
  apply (step_sched H T L S F k (cur L) ALock rest _ L s' [] [] G Hx Ex eq_refl S'); try done.
  - by apply still_alter.
  - apply slice_alter; [|apply G]. intros u Hu. apply (gi_slice _ _ _ _ _ _ _ G (cur L) u Hu).
Qed.

Lemma slice_field T1 z f :
  (forall t, timeslice (f t) = timeslice t) -> (forall t, flags (f t) = flags t) -> slice_ok T1 -> slice_ok (alter f z T1).
Proof. intros H1 H2 Hs. apply slice_alter; [|done]. intros t Ht. unfold is_rr. rewrite H1, H2. by apply Hs. Qed.

(** The renewal of the slice. *)
Lemma unlock_end_still T1 L1 s1 x y :
  sinv H idle T1 L1 s1 -> is_Some (T1 !! x) -> slice_ok T1 ->
  returns (sched_unlock_end s1 x) (fun s' => exists T', sinv H idle T' L1 s' /\ still T1 L1 T' L1 y /\ slice_ok T').
Proof.
  intros S1 Hs Hsl. eapply returns_impl; [by apply (sched_unlock_end_spec H idle T1 L1 s1 x)|]. intros s' [S'|S'].
  - exists T1. by split_and!.
  - eexists. split; [exact S'|]. split; [by apply still_alter|]. apply slice_alter; [|done]. intros t Ht. split; [by vm_compute|]. by apply (Hsl x t).
Qed.

Lemma exec_unlock : ok AUnlock.
Proof.
  intros Ex _. destruct (ginv_cur _ _ _ _ _ _ G) as (Ec & Hs & Hx & _). simpl. unfold unlock_section.
  eapply returns_bind with (P := fun '(p, s') => Forall harmless p /\ exists T' L', sinv H idle T' L' s' /\ still T L T' L' (cur L) /\ slice_ok T').
  - eapply returns_bind; [apply (sched_unlock_spec H idle T L); apply G|]. intros [r s1] M.
    destruct (still_moved H T L (cur L) _ r s1 M) as (T1 & L1 & S1 & St1 & Hsl1 & _); [by apply still_alter|apply slice_field; [done|done|apply G]|].
    destruct r; [apply returns_Ok; split; [by repeat constructor|eauto]|].
    assert (is_Some (T1 !! cur L)) as [t1 Ht1] by (by rewrite <- elem_of_dom, (st_dom _ _ _ _ _ St1), elem_of_dom).
    rewrite (tget_Ok _ _ _ _ _ _ (proj1 (proj1 S1)) Ht1), bind_Ok.
    eapply returns_bind with (P := fun s' => exists T', sinv H idle T' L1 s' /\ still T1 L1 T' L1 (cur L) /\ slice_ok T').
    + destruct (lockcount t1 <=? 0); [by apply unlock_end_still; eauto|]. apply returns_Ok. exists T1. by split_and!.
    + intros s2 (T2 & S2 & St2 & Hsl2). apply returns_Ok. split; [done|]. exists T2, L1. split_and!; try done. by apply (still_trans _ _ T1 L1).
  - intros [p s'] (Hp & T' & L' & S' & St & Hsl). apply returns_Ok. by apply (step_sched H T L S F k (cur L) AUnlock rest T' L').
Qed.

Lemma exec_unlock_end : ok AUnlockEnd.
Proof.
  intros Ex _. destruct (ginv_cur _ _ _ _ _ _ G) as (Ec & Hs & Hx & _). simpl.
  eapply returns_bind; [by apply (unlock_end_still T L (sch k) (cur L) (cur L)); try apply G|].
  intros s' (T' & S' & St & Hsl). apply returns_Ok. by apply (step_sched H T L S F k (cur L) AUnlockEnd rest T' L).
Qed.

(** *** Returning *)

Lemma still_errno T1 L1 x v : still T1 L1 (alter (fun t => set_pterrno t v) x T1) L1 x.
Proof.
  split; try done.
  - intros. by apply pid_of_alter.
  - by rewrite dom_alter_L.
  - intros. by apply wsem_alter.
  - intros y Hy. unfold terrno. by rewrite lookup_alter_ne.
  - intros. by rewrite prio_alter.
Qed.

Lemma set_errno_Ok e :
  returns (set_errno k false e) (fun k' => exists s', k' = set_sch k s' /\ sinv H idle (alter (fun t => set_pterrno t e) (cur L) T) L s').
Proof.
  destruct (ginv_cur _ _ _ _ _ _ G) as (Ec & [c Hc] & Hx & _). pose proof (ginv_sinv _ _ _ _ _ _ G) as S1. pose proof S1 as [[R W] _].
  unfold set_errno. cbv zeta. rewrite Ec, (proj2 (Z.eqb_neq (cur L) 0)) by (apply (sr_node _ _ _ _ R); eauto). cbn [negb andb].
  rewrite (tget_Ok _ _ _ _ _ _ R Hc), bind_Ok, (tstate_get _ _ _ Hc), (wf_state _ _ _ W g_readytorun _ (wf_cur_in _ _ _ W)).
  simpl state_of. rewrite decide_True, bool_decide_eq_true_2 by done.
  eapply returns_impl; [apply ktupd_returns, (field_sinv H idle T L); eauto|]. intros k' (s' & S' & ->). eauto.
Qed.

Lemma exec_return ret : ok (AReturn ret).
Proof.
  intros Ex _. destruct (ginv_cur _ _ _ _ _ _ G) as (Ec & Hs & Hx & _). simpl. unfold api_return.
  eapply returns_bind with (P := fun '(_, k') => exists T' s', k' = set_sch k s' /\ sinv H idle T' L s' /\ still T L T' L (cur L) /\ slice_ok T').
  - destruct (ret <? 0).
    + eapply returns_bind; [apply set_errno_Ok|]. intros k' (s' & -> & S'). apply returns_Ok. eexists _, s'. split; [done|]. split; [exact S'|].
      split; [apply still_errno|apply slice_field; [done|done|apply G]].
    + apply returns_Ok. exists T, (sch k). split; [by destruct k|]. split; [apply G|]. split; [apply still_refl|apply G].
  - intros [v k'] (T' & s' & -> & S' & St & Hsl). apply returns_Ok. by apply (step_sched H T L S F k (cur L) (AReturn ret) rest T' L).
Qed.

(** *** Priorities *)

Lemma setpriority_still x p :
  is_Some (T !! x) -> x <> idle -> (x ∈ L g_readytorun -> x <> cur L -> prio T (cur L) < p) ->
  returns (nxsched_setpriority (sch k) x p) (fun '(_, _, s') => exists T' L', sinv H idle T' L' s' /\ still T L T' L' (cur L) /\ slice_ok T').
Proof.
  intros [t Ht] Hi Hlow. eapply returns_impl; [apply (nxsched_setpriority_any H idle T L (sch k) x p); eauto; apply G|].
  intros [[ret r] s'] Hr. case_bool_decide as Hp.
  - destruct Hr as [_ M]. destruct (still_moved H T L (cur L) _ r s' M) as (T' & L' & S' & St & Hsl & _); [| |eauto].
    + split; try done.
      * intros. by apply pid_of_alter.
      * by rewrite dom_alter_L.
      * intros. by apply wsem_alter.
      * intros. by apply terrno_alter.
      * intros y Hy. unfold prio in *. rewrite lookup_alter. destruct (decide (x = y)) as [<-|]; [|done]. by rewrite Ht.
    + apply slice_field; [done|done|apply G].
  - destruct Hr as (_ & _ & ->). exists T, L. split; [apply G|]. split; [apply still_refl|apply G].
Qed.

Lemma exec_reprio x p : ok (AReprio x p).
Proof.
  intros Ex Ha. destruct (ginv_cur _ _ _ _ _ _ G) as (Ec & _ & Hx & _). simpl in Ha. b2p.
  pose proof (gi_acts _ _ _ _ _ _ _ G _ _ Ex) as [Hs _]%Forall_cons. simpl in Hs. pose proof (ginv_sinv _ _ _ _ _ _ G) as [[R W] _].
  simpl. eapply returns_bind; [apply (setpriority_still x p Hs); [intros ->; by rewrite Z.eqb_refl in *|]|].
  - intros Hin Hne. unfold reprio_ok in *. destruct Hs as [t Ht]. match goal with H : _ || _ = true |- _ => apply orb_true_iff in H as [Hr|Hr] end.
    + destruct (tcb_is_spec _ _ _ _ _ _ _ _ G Hr) as (u & Hu & Hst). apply negb_true_iff, bool_decide_eq_false_1 in Hst.
      destruct Hst. rewrite (tstate_get _ _ _ Hu), (wf_state _ _ _ W g_readytorun x Hin). simpl. by rewrite decide_False.
    + rewrite Ec in Hr. destruct (tcb_is_spec _ _ _ _ _ _ _ _ G Hr) as (u & Hu & Hlt). b2p. unfold prio. by rewrite Hu.
  - intros [[ret r] s'] (T' & L' & S' & St & Hsl). apply returns_Ok. apply (step_sched H T L S F k (cur L) (AReprio x p) rest T' L'); try done. by repeat constructor.
Qed.

Lemma exec_yield : ok AYield.
Proof.
  intros Ex Ha. destruct (ginv_cur _ _ _ _ _ _ G) as (Ec & [c Hc] & Hx & _). simpl in Ha. unfold exec, sched_yield. cbv zeta. rewrite Ec.
  pose proof (ginv_sinv _ _ _ _ _ _ G) as [[R W] _]. rewrite (tget_Ok _ _ _ _ _ _ R Hc), bind_Ok.
  eapply returns_bind with (P := fun '(_, s') => exists T' L', sinv H idle T' L' s' /\ still T L T' L' (cur L) /\ slice_ok T').
  - eapply returns_bind; [apply (setpriority_still (cur L)); [eauto|intros Ei; by rewrite Ei, Z.eqb_refl in Ha|done]|].
    intros [[ret r] s'] M. by apply returns_Ok.
  - intros [ret s'] (T' & L' & S' & St & Hsl). apply returns_Ok. by apply (step_sched H T L S F k (cur L) AYield rest T' L').
Qed.

(** A section that only looks something up. *)
Lemma step_look a p :
  F !! cur L = Some (a :: rest) -> wait_end a = false -> Forall (act_inv T L) p -> Forall (fun b => wait_end b = false) p -> owned p = [] ->
  stepped T L S F (cur L) rest (p, [], k).
Proof.
  intros Ex Hwe H1 H2 H3. destruct (ginv_cur _ _ _ _ _ _ G) as (_ & _ & Hx & _).
  apply (step_still H T L S F k (cur L) a rest T L); try done; try apply G.
  - rewrite H3. apply NoDup_nil_2.
  - rewrite H3. intros t Ht. by apply not_elem_of_nil in Ht.
Qed.

Lemma gettcb_some p : returns (sched_gettcb (sch k) p) (fun x => x <> 0 -> is_Some (T !! x)).
Proof.
  pose proof (ginv_sinv _ _ _ _ _ _ G) as [[R _] _].
  eapply returns_impl; [apply (sched_gettcb_spec H idle T L (sch k) p R); apply G|]. intros x [Hx _] H0. by apply Hx.
Qed.

Lemma exec_setparam p prio : ok (ASetparam p prio).
Proof.
  intros Ex _. destruct (ginv_cur _ _ _ _ _ _ G) as (_ & [c Hc] & _ & _). pose proof (ginv_sinv _ _ _ _ _ _ G) as [[R W] _].
  unfold exec, setparam_section. rewrite (tget_Ok _ _ _ _ _ _ R Hc), bind_Ok.
  eapply returns_bind with (P := fun q => q = [AUnlock; AReturn (- ESRCH)] \/ exists x, q = [AReprio x prio] /\ is_Some (T !! x)).
  - destruct ((p =? 0) || (p =? pid c)); [apply returns_Ok; right; eauto|].
    eapply returns_bind; [apply gettcb_some|]. intros x Hx. destruct (x =? 0) eqn:E; b2p; apply returns_Ok; [by left|right; eauto].
  - intros q Hq. apply returns_Ok. apply (step_look (ASetparam p prio)); try done; destruct Hq as [->|(x & -> & Hx)]; by repeat constructor.
Qed.

Lemma exec_setscheduler p policy prio : ok (ASetscheduler p policy prio).
Proof.
  intros Ex _. destruct (ginv_cur _ _ _ _ _ _ G) as (_ & [c Hc] & _ & _). pose proof (ginv_sinv _ _ _ _ _ _ G) as [[R W] _].
  unfold exec, setscheduler_section.
  eapply returns_bind with (P := fun q => (exists r, q = [AReturn r]) \/ exists x, q = [ALock; ASetpolicy x policy; AReprio x prio] /\ is_Some (T !! x)).
  - destruct (negb (policy =? SCHED_FIFO) && negb (policy =? SCHED_RR)); [apply returns_Ok; left; eauto|].
    rewrite (tget_Ok _ _ _ _ _ _ R Hc), bind_Ok. eapply returns_bind; [apply gettcb_some|].
    intros x Hx. destruct (x =? 0) eqn:E; b2p; apply returns_Ok; [left; eauto|right; eauto].
  - intros q Hq. apply returns_Ok. apply (step_look (ASetscheduler p policy prio)); try done; destruct Hq as [(r & ->)|(x & -> & Hx)]; by repeat constructor.
Qed.

Lemma exec_setpolicy x policy : ok (ASetpolicy x policy).
Proof.
  intros Ex Ha. destruct (ginv_cur _ _ _ _ _ _ G) as (Ec & _ & Hx & _). simpl in Ha.
  pose proof (gi_acts _ _ _ _ _ _ _ G _ _ Ex) as [Hs _]%Forall_cons. simpl in Hs.
  assert (x <> idle) as Hi by (intros ->; by rewrite Z.eqb_refl in Ha). unfold exec, setpolicy_section.
  eapply returns_bind with (P := fun s' => exists T', sinv H idle T' L s' /\ still T L T' L (cur L) /\ slice_ok T').
  - eapply returns_bind; [apply (field_sinv H idle T L); [apply G|done..]|]. intros s1 S1. set (T1 := alter _ x T) in *.
    assert (is_Some (T1 !! x)) as Hs1 by (unfold T1; eauto with nx).
    assert (still T L T1 L (cur L)) as St1 by (by apply still_alter).
    assert (slice_ok T1) as Hsl1 by (apply slice_alter; [|apply G]; intros t Ht; split; [apply (gi_slice _ _ _ _ _ _ _ G x t Ht)|done]).
    destruct (policy =? SCHED_FIFO); (eapply returns_impl; [by apply (field_sinv H idle T1 L)|]; intros s2 S2; eexists; split; [exact S2|];
      split; [apply (still_trans _ _ T1 L); [done|by apply still_alter]|]; apply slice_alter; [|done]; intros t Ht; split; [by vm_compute|done]).
  - intros s' (T' & S' & St & Hsl). apply returns_Ok. by apply (step_sched H T L S F k (cur L) (ASetpolicy x policy) rest T' L).
Qed.

(** *** Creation *)

Lemma step_task H' T' L' k' a p :
  F !! cur L = Some (a :: rest) -> wait_end a = false -> kinv H' idle T' L' S k' -> hash_ok H' idle T' -> pid_of T' idle = 0 ->
  slice_ok T' -> calm T L T' L' (owned [a]) -> L' waiting = L waiting ->
  (forall y, wsem T' y = wsem T y) -> (forall y, terrno T' y = terrno T y) ->
  Forall (act_inv T' L') p -> Forall (fun b => wait_end b = false) p -> NoDup (owned p) ->
  (forall t, t ∈ owned p -> owns a = Some t \/ forall y, t ∉ owned (pr F y)) ->
  stepped T L S F (cur L) rest (p, [], k').
Proof.
  intros Ex Hwe K Ho Hid Hsl C Ew Hws Her Ha Hne Hnd Hown. destruct (ginv_cur _ _ _ _ _ _ G) as (_ & Hs & Hx & _).
  pose proof (gi_tail _ _ _ _ _ _ _ G _ _ Ex) as Htl. simpl in Htl. pose proof (gi_acts _ _ _ _ _ _ _ G _ _ Ex) as [_ Hacts]%Forall_cons.
  pose proof (gi_nodup _ _ _ _ _ _ _ G _ _ Ex) as Hno. assert (pr F (cur L) = a :: rest) as Epr by (unfold pr; by rewrite Ex).
  assert (Forall (fun b => wait_end b = false) (p ++ rest)) as Hnw by (by apply Forall_app).
  unfold stepped. set (F' := <[cur L := p ++ rest]> F). exists H', T', L', S. split.
  - apply (ginv_step idle H T L S F k H' T' L' S F' k' (cur L)); try done.
    + destruct C as [C1 C2 C3 C4 C5]. split; try done; intros y Hy; [destruct (C4 y Hy) as [|Ho']|destruct (C5 y Hy) as [|Ho']]; auto; right; rewrite Epr; by apply owned_head, owned_one.
    + intros y Hy. unfold F'. by rewrite lookup_insert_ne.
    + intros p'. unfold F'. rewrite lookup_insert, decide_True by done. intros [= <-]. split; [|split; [|split]].
      * apply Forall_app. split; [done|]. rewrite Forall_forall in Hacts |- *. intros b Hb.
        apply (calm_act idle T L T' L' _ b C); [|by apply Hacts]. intros t Ht Hin%owned_one.
        apply (owned_not_rest a rest t Hin Hno). apply elem_of_owned. eauto.
      * destruct (p ++ rest); [done|]. by apply Forall_cons in Hnw as [_ ?].
      * apply owned_app; [done|by apply (owned_rest a)|]. intros t [Ht|Ht]%Hown; [by apply (owned_not_rest a)|].
        specialize (Ht (cur L)). rewrite Epr in Ht. intros Hr. by apply Ht, owned_tail.
      * intros t Ht. apply elem_of_owned in Ht as (b & [Hb|Hb]%elem_of_app & Eb).
        -- destruct (Hown t) as [Ht|Ht]; [apply elem_of_owned; eauto| |by right]. left. rewrite Epr. by apply owned_head.
        -- left. rewrite Epr. apply owned_tail, elem_of_owned. eauto.
    + intros y Hy. left. rewrite Ew in Hy. assert (y <> cur L) by (by intros ->). auto.
  - intros sem c E. exists c. split; [done|]. rewrite (pend_one T L F T' L' F' sem (cur L)); [|apply C|done|].
    + assert (owed T L F sem (cur L) = 0) as -> by (unfold owed; rewrite Ex; by destruct a).
      assert (owed T' L' F' sem (cur L) = 0) as ->; [|simpl; lia]. unfold owed, F'. rewrite lookup_insert, decide_True by done.
      destruct (p ++ rest) as [|b q]; [done|]. apply Forall_cons in Hnw as [Hb _]. by destruct b.
    + intros y Hy. apply owed_other; [unfold F'; by rewrite lookup_insert_ne|by rewrite Ew|done].
Qed.

Lemma unborn_free x y : unborn idle T x -> x ∉ owned (pr F y).
Proof.
  intros (t & Ht & Hp & Hst & Hi) Hx. unfold pr in Hx. destruct (F !! y) as [p|] eqn:Ey; [|by apply not_elem_of_nil in Hx].
  apply elem_of_owned in Hx as (a & Ha & Eo). pose proof (gi_acts _ _ _ _ _ _ _ G _ _ Ey) as Hacts. rewrite Forall_forall in Hacts. specialize (Hacts a Ha).
  pose proof (ginv_sinv _ _ _ _ _ _ G) as [[_ W] _].
  assert (pid_of T x = 0) as Hp0 by (unfold pid_of; by rewrite Ht).
  destruct a; simplify_eq/=; try (by destruct Hacts as [(_ & _ & _ & ?) _]).
  eapply (wf_invalid idle T L x W); [|exact Hacts]. unfold tstate. by rewrite Ht.
Qed.

Lemma not_listed x : tstate T x = TSTATE_TASK_INVALID <-> ~ listed L x.
Proof.
  pose proof (ginv_sinv _ _ _ _ _ _ G) as [[_ W] _]. split.
  - intros E [l Hl]. by apply (wf_invalid _ _ _ _ W E l).
  - intros Hn. destruct (decide (tstate T x = TSTATE_TASK_INVALID)) as [|E]; [done|]. by destruct Hn, (wf_all _ _ _ W x E) as [l Hl]; exists l.
Qed.

Lemma calm_same T' O : (forall y, pid_of T y <> 0 -> pid_of T' y <> 0) -> dom T' = dom T -> (forall y, prio T' y = prio T y) -> calm T L T' L O.
Proof. intros H1 H2 H3. split; try done; [intros y; by rewrite H3|by left|by left]. Qed.

Lemma exec_assignpid x p ttype : ok (AAssignpid x p ttype).
Proof.
  intros Ex Ha. simpl in Ha. b2p. destruct (tcb_is_spec _ _ _ _ _ _ _ _ G ltac:(eassumption)) as (t & Ht & Hz). apply bool_decide_eq_true_1 in Hz. subst t.
  assert (x <> idle) as Hi by (intros ->; by rewrite Z.eqb_refl in *). assert (unborn idle T x) as Hu by (by eexists).
  assert (1 <= p <= 255) as Hp by (unfold prio_ok, SCHED_PRIORITY_MIN, SCHED_PRIORITY_MAX in *; b2p; lia).
  unfold exec, nxtask_assignpid. eapply returns_bind; [apply (assignpid_loop_spec idle _ H T L S); try apply G; done|].
  intros [ret k'] [(H' & q & -> & Hq & K & Ho)|(-> & K)]; apply returns_Ok.
  - set (T' := alter _ x T) in *.
    assert (forall y, y <> x -> pid_of T' y = pid_of T y) as Ey by (intros y Hy; unfold pid_of, T'; by rewrite lookup_alter_ne).
    assert (pid_of T' x = q) as Eq by (unfold pid_of, T'; by rewrite lookup_alter, decide_True, Ht by done).
    apply (step_task H' T' L k' (AAssignpid x p ttype)); try done.
    + rewrite Ey by done. apply G.
    + apply slice_field; [done|done|apply G].
    + apply calm_same; [|unfold T'; by rewrite dom_alter_L|intros; by apply prio_alter].
      intros y Hy. destruct (decide (y = x)) as [->|Hne]; [rewrite Eq; lia|by rewrite Ey].
    + intros y. by apply wsem_alter.
    + intros y. by apply terrno_alter.
    + constructor; [done|]. constructor; [|done]. split; [|done]. split; [unfold T'; eauto with nx|]. split; [|split; [done|rewrite Eq; lia]].
      apply not_listed. unfold tstate. by rewrite Ht.
    + by repeat constructor.
    + apply NoDup_singleton.
    + intros t Et. right. intros y. assert (t = x) as -> by set_solver. by apply unborn_free.
  - apply (step_task H T L k' (AAssignpid x p ttype)); try done; try apply G.
    + by apply calm_same.
    + by repeat constructor.
    + by repeat constructor.
    + apply NoDup_nil_2.
    + intros t Et. by apply not_elem_of_nil in Et.
Qed.

Lemma exec_setup x p ttype : ok (ASetup x p ttype).
Proof.
  intros Ex _. destruct (ginv_cur _ _ _ _ _ _ G) as (_ & _ & Hx & _).
  pose proof (gi_acts _ _ _ _ _ _ _ G _ _ Ex) as [[(Hs & Hn & Hi & Hpid) Hp] _]%Forall_cons. pose proof Hs as [t Ht]. unfold exec.
  eapply returns_bind; [apply (nxthread_setup_spec idle H T L); try done; [apply G|by apply not_listed]|]. intros s' S'. apply returns_Ok.
  set (T' := alter _ x T) in *. pose proof (gi_k _ _ _ _ _ _ _ G) as [K1 K2 K3 K4 K5].
  assert (prio T' x = p) as Epx by (unfold prio, T'; by rewrite lookup_alter, decide_True, Ht by done).
  assert (still T L T' L (cur L)) as St.
  { split; try done.
    - intros. by apply pid_of_alter.
    - unfold T'. by rewrite dom_alter_L.
    - intros. by apply wsem_alter.
    - intros. by apply terrno_alter.
    - intros y Hy. destruct (decide (y = x)) as [->|Hne]; [by rewrite Epx|]. unfold prio, T'. by rewrite lookup_alter_ne. }
  apply (step_still H T L S F k (cur L) (ASetup x p ttype) rest T' L); try done.
  - split; try done; [|unfold T'; by rewrite tcbs_alter]. apply (so_ext (wsem T) (L waiting)); [done|by apply St|done].
  - apply slice_alter; [|apply G]. intros u Hu. split; [apply (gi_slice _ _ _ _ _ _ _ G x u Hu)|done].
  - constructor; [done|]. constructor; [|done]. split; [|by rewrite Epx].
    split; [unfold T'; eauto with nx|]. split; [done|]. split; [done|]. by rewrite (st_pid _ _ _ _ _ St).
  - by repeat constructor.
  - apply NoDup_singleton.
  - intros u Hu. assert (u = x) as -> by set_solver. done.
Qed.

Lemma exec_inactive x : ok (AInactive x).
Proof.
  intros Ex _. pose proof (gi_acts _ _ _ _ _ _ _ G _ _ Ex) as [[(Hs & Hn & Hi & Hpid) Hp] _]%Forall_cons. unfold exec.
  eapply returns_bind; [apply (nxthread_inactive_spec idle H T L); try done; [apply G|by apply not_listed]|]. intros s' S'. apply returns_Ok.
  set (T' := alter _ x T) in *. set (L' := <[g_inactivetasks := _]> L) in *. pose proof (gi_k _ _ _ _ _ _ _ G) as [K1 K2 K3 K4 K5].
  assert (keeps T T') as K by apply keeps_alter. pose proof (keeps_sees _ _ K) as E.
  apply (step_task H T' L' (set_sch k s') (AInactive x)); try done.
  - split; try done; [|unfold T'; by rewrite tcbs_alter]. apply (so_ext (wsem T) (L waiting)); [done|intros; by apply wsem_alter|done].
  - apply (hash_ext idle H T); [intros; by apply sees_pid|intros; by apply sees_is_Some|apply G].
  - rewrite (sees_pid T) by done. apply G.
  - apply (slice_sees T); [done|apply G].
  - split.
    + intros y. by rewrite (sees_pid T T').
    + by apply sees_dom.
    + intros y. by rewrite (keeps_prio _ _ _ K).
    + intros y [l Hl]. unfold L' in Hl. destruct (decide (l = g_inactivetasks)) as [->|].
      * rewrite fn_lookup_insert in Hl. apply elem_of_cons in Hl as [->|Hl]; [right; by left|left; by eexists].
      * rewrite fn_lookup_insert_ne in Hl by done. left. by exists l.
    + intros y Hy. left. unfold L'. rewrite fn_lookup_insert. by right.
  - intros y. by apply wsem_alter.
  - intros y. by apply terrno_alter.
  - constructor; [done|]. constructor; [|done]. simpl. by left.
  - by repeat constructor.
  - apply NoDup_singleton.
  - intros u Hu. left. assert (u = x) as -> by set_solver. done.
Qed.

Lemma exec_activate x : ok (AActivate x).
Proof.
  intros Ex _. pose proof (gi_acts _ _ _ _ _ _ _ G _ _ Ex) as [Hx _]%Forall_cons. simpl in Hx. unfold exec, task_activate.
  pose proof (gi_k _ _ _ _ _ _ _ G) as [K1 K2 K3 K4 K5]. pose proof K1 as [[R W] _]. destruct (wf_in _ _ _ W _ _ Hx) as [t Ht].
  rewrite (tget_Ok _ _ _ _ _ _ R Ht), bind_Ok.
  eapply returns_bind; [apply (up_unblock_task_spec H idle T L (sch k) x g_inactivetasks); try done; by apply (wf_not_idle idle T L x g_inactivetasks)|].
  intros [sw s'] (T' & S' & K & _). apply returns_Ok. set (L' := unblock_lists T L x g_inactivetasks) in *. pose proof (keeps_sees _ _ K) as E.
  assert (L' waiting = L waiting) as Ew by (unfold L', unblock_lists, ready_add; by case_match).
  apply (step_task H T' L' (set_sch k s') (AActivate x)); try done.
  - split; try done; [|by rewrite (tcbs_sees T)]. rewrite Ew. apply (so_ext (wsem T) (L waiting)); [done|intros; by apply sees_wsem|done].
  - apply (hash_ext idle H T); [intros; by apply sees_pid|intros; by apply sees_is_Some|apply G].
  - rewrite (sees_pid T) by done. apply G.
  - apply (slice_sees T); [done|apply G].
  - split.
    + intros y. by rewrite (sees_pid T T').
    + by apply sees_dom.
    + intros y. by rewrite (keeps_prio _ _ _ K).
    + intros y Hy. left. by apply (within_unblock T L x g_inactivetasks Hx).
    + intros y Hy. destruct (decide (y = x)) as [->|Hne]; [right; by left|left].
      assert (L' g_inactivetasks = lrem x (L g_inactivetasks)) as -> by (unfold L', unblock_lists, ready_add; by case_match). by apply elem_of_lrem.
  - intros y. by apply sees_wsem.
  - intros y. by apply sees_terrno.
  - by repeat constructor.
  - by repeat constructor.
  - apply NoDup_nil_2.
  - intros u Hu. by apply not_elem_of_nil in Hu.
Qed.

(** *** Waking a task *)

Lemma ginv_wake z c T1 sw k' e :
  z ∈ L waiting -> S !! wsem T z = Some c -> woken H idle T1 T L (<[wsem T z := c + 1]> S) z sw k' ->
  sees (alter (fun t => set_pterrno t e) z (alter (fun t => set_waitsem t 0) z T)) T1 -> (forall y, prio T1 y = prio T y) ->
  exists T' L', ginv H T' L' (<[wsem T z := c + 1]> S) F k' /\ (forall y, y ∉ L waiting -> y ∉ L' waiting) /\
    forall sem, pend T' L' F sem = pend T L F sem - (if decide (e <> 0 /\ sem = wsem T z) then 1 else 0).
Proof.
  intros Hz E (T' & K & Kp & _) Es Ep. pose proof (ginv_sinv _ _ _ _ _ _ G) as [[R W] _]. pose proof (wf_in _ _ _ W _ _ Hz) as Hs. pose proof Hs as [t Ht].
  set (L' := unblock_lists T L z waiting) in *. set (T0 := alter _ z (alter _ z T)) in *.
  assert (sees T0 T') as E' by (trans T1; [done|by apply keeps_sees]).
  assert (L' waiting = lrem z (L waiting)) as Ew by apply unblock_waiting.
  assert (dom T' = dom T) as Ed by (rewrite (sees_dom T0 T' E'); unfold T0; by rewrite !dom_alter_L).
  assert (forall y, pid_of T' y = pid_of T y) as Epid by (intros y; rewrite (sees_pid T0) by done; unfold T0; by rewrite !pid_of_alter).
  assert (forall y, y <> z -> wsem T' y = wsem T y) as Ewz.
  { intros y Hy. rewrite (sees_wsem T0) by done. unfold wsem, T0. by rewrite !lookup_alter_ne. }
  assert (forall y, y <> z -> terrno T' y = terrno T y) as Eer.
  { intros y Hy. rewrite (sees_terrno T0) by done. unfold terrno, T0. by rewrite !lookup_alter_ne. }
  assert (terrno T' z = e) as Ee.
  { rewrite (sees_terrno T0) by done. unfold terrno, T0. by rewrite !lookup_alter, !decide_True, Ht by done. }
  assert (calm T L T' L' (owned (pr F z))) as C.
  { split; [intros y; by rewrite Epid|done| | |].
    - intros y. rewrite (keeps_prio _ _ _ Kp), Ep. done.
    - intros y Hy. left. by apply (within_unblock T L z waiting Hz).
    - intros y Hy. left. unfold L', unblock_lists, ready_add. by case_match. }
  exists T', L'. split; [|split].
  - apply (ginv_step idle H T L S F k H T' L' _ F k' z); try done.
    + apply (hash_ext idle H T); [done| |apply G]. intros y. by rewrite <- !elem_of_dom, Ed.
    + rewrite Epid. apply G.
    + apply (slice_sees T0); [done|]. unfold T0. apply slice_field; [done|done|]. apply slice_field; [done|done|apply G].
    + intros p' Hp'. split_and!; [|by apply (gi_tail _ _ _ _ _ _ _ G z)|by apply (gi_nodup _ _ _ _ _ _ _ G z)|intros u Hu; left; unfold pr; by rewrite Hp'].
      pose proof (gi_acts _ _ _ _ _ _ _ G _ _ Hp') as Ha. rewrite Forall_forall in Ha |- *. intros a Hin.
      apply (calm_act idle T L T' L' [] a); [|intros u _; apply not_elem_of_nil|by apply Ha].
      destruct C as [C1 C2 C3 C4 C5]. split; try done; [intros y Hy; left; by apply (within_unblock T L z waiting Hz)|].
      intros y Hy. left. unfold L', unblock_lists, ready_add. by case_match.
    + intros y. rewrite Ew, elem_of_lrem. intros [Hy Hne]. left. auto.
  - intros y Hy. rewrite Ew, elem_of_lrem. tauto.
  - intros sem. rewrite (pend_one T L F T' L' F sem z Ed Hs).
    + destruct (gi_wait _ _ _ _ _ _ _ G z Hz) as (saved & r & Ef & Er). unfold owed. rewrite Ef, Ee, Ew.
      assert (z ∉ lrem z (L waiting)) as Hnz by (rewrite elem_of_lrem; tauto).
      destruct (decide (wsem T z = sem)) as [->|Hne].
      * rewrite (decide_True (P := sem = sem /\ (z ∈ L waiting \/ _))) by tauto. destruct (decide (e = 0)) as [->|He].
        -- rewrite (decide_True (P := sem = sem /\ _)) by tauto. rewrite decide_False by tauto. lia.
        -- rewrite (decide_False (P := sem = sem /\ _)) by tauto. rewrite decide_True by tauto. lia.
      * rewrite !decide_False by naive_solver. lia.
    + intros y Hy. apply owed_other; [done|rewrite Ew, elem_of_lrem; tauto|by apply Eer].
Qed.

(** *** Semaphores *)

Lemma step_sem a S' k' p o :
  F !! cur L = Some (a :: rest) -> wait_end a = false -> kinv H idle T L S' k' -> Forall harmless p ->
  (forall sem c, S !! sem = Some c -> exists c', S' !! sem = Some c' /\ c' + takes sem o = c + posts sem o) ->
  stepped T L S F (cur L) rest (p, o, k').
Proof.
  intros Ex Hwe K Hp Hb. destruct (ginv_cur _ _ _ _ _ _ G) as (_ & _ & Hx & _). destruct (harmless_ok p T L Hp) as (H1 & H2 & H3).
  destruct (ginv_still idle H T L S F k T L S' k' (cur L) a rest p G Hx Ex K (still_refl T L _)) as [G' Hpe]; try done; [apply G|rewrite H3; apply NoDup_nil_2| |].
  - rewrite H3. intros t Ht. by apply not_elem_of_nil in Ht.
  - exists H, T, L, S'. split; [done|]. intros sem c E. destruct (Hb sem c E) as (c' & E' & Hc). exists c'. split; [done|]. rewrite Hpe.
    assert (owed T L F sem (cur L) = 0) as -> by (unfold owed; rewrite Ex; by destruct a). lia.
Qed.

Lemma sem_addr_spec sem : sem_addr k sem = true -> sem = 0 \/ (sem <> 0 /\ exists c, S !! sem = Some c).
Proof.
  unfold sem_addr. rewrite (ki_sems _ _ _ _ _ _ (gi_k _ _ _ _ _ _ _ G)). destruct (sem =? 0) eqn:E; b2p; [by left|]. simpl.
  intros [c Hc]%bool_decide_eq_true_1. eauto.
Qed.

Lemma sem_room_spec sem c : sem_room k sem = true -> S !! sem = Some c -> c < 32767.
Proof. unfold sem_room. rewrite (ki_sems _ _ _ _ _ _ (gi_k _ _ _ _ _ _ _ G)). intros Hr E. rewrite E in Hr. by b2p. Qed.

(** A unit is taken at once. *)
Lemma step_take a sem c k' :
  F !! cur L = Some (a :: rest) -> wait_end a = false -> S !! sem = Some c -> kinv H idle T L (<[sem := c - 1]> S) k' ->
  stepped T L S F (cur L) rest ([AReturn OK], took sem OK, k').
Proof.
  intros Ex Hwe E K. apply (step_sem a (<[sem := c - 1]> S)); try done; [by repeat constructor|].
  intros sem' c' E'. simpl. rewrite lookup_insert. destruct (decide (sem = sem')) as [<-|Hne].
  - exists (c - 1). split; [done|]. rewrite Z.eqb_refl. assert (c' = c) by congruence. lia.
  - exists c'. split; [done|]. rewrite (proj2 (Z.eqb_neq sem sem')) by done. lia.
Qed.

Lemma exec_trywait sem : ok (ATrywait sem).
Proof.
  intros Ex Ha. simpl in Ha. unfold exec. destruct (sem_addr_spec sem Ha) as [->|(H0 & c & E)].
  - unfold nxsem_trywait. cbn. apply returns_Ok. apply (step_look (ATrywait 0)); try done; by repeat constructor.
  - eapply returns_bind; [apply (nxsem_trywait_spec H idle T L S k sem c); try done; apply G|]. intros [ret k'] Hr. apply returns_Ok.
    destruct (0 <? c); [destruct Hr as [-> K]; by apply (step_take (ATrywait sem) sem c)|]. destruct Hr as [-> ->].
    apply (step_look (ATrywait sem)); try done; by repeat constructor.
Qed.

Lemma exec_wait_end sem saved : ok (AWaitEnd sem saved).
Proof.
  intros Ex _. destruct (ginv_cur _ _ _ _ _ _ G) as (_ & Hs & Hx & _). unfold exec.
  eapply returns_bind; [apply (nxsem_wait_end_spec H idle T L S k (cur L) saved); [apply G|done]|]. intros [ret k'] [-> K]. apply returns_Ok.
  set (T' := alter _ (cur L) T) in *. set (p := [AReturn (- terrno T (cur L))]).
  destruct (harmless_ok p T' L ltac:(by repeat constructor)) as (H1 & H2 & H3).
  destruct (ginv_still idle H T L S F k T' L S k' (cur L) _ rest p G Hx Ex K) as [G' Hpe]; try done.
  - apply still_errno.
  - apply slice_field; [done|done|apply G].
  - rewrite H3. apply NoDup_nil_2.
  - rewrite H3. intros t Ht. by apply not_elem_of_nil in Ht.
  - exists H, T', L, S. split; [done|]. intros sem' c E. exists c. split; [done|]. rewrite Hpe. unfold owed. rewrite Ex. unfold took, OK.
    destruct (- terrno T (cur L) =? 0) eqn:Et; b2p; simpl; destruct (decide (sem = sem')) as [->|Hne].
    + rewrite Z.eqb_refl, decide_True by (split; [done|right; lia]). lia.
    + rewrite (proj2 (Z.eqb_neq sem sem')), decide_False by tauto. lia.
    + rewrite decide_False; [lia|]. intros [_ [?|?]]; [done|lia].
    + rewrite decide_False by tauto. lia.
Qed.

Lemma step_block sem c T' k' saved :
  F !! cur L = Some (AWait sem :: rest) -> S !! sem = Some c -> cur L <> idle ->
  kinv H idle T' (block_lists T L (cur L) waiting) (<[sem := c - 1]> S) k' -> keeps (begin_wait T (cur L) sem) T' ->
  stepped T L S F (cur L) rest ([AWaitEnd sem saved], [], k').
Proof.
  intros Ex E Hi K Kp. destruct (ginv_cur _ _ _ _ _ _ G) as (_ & Hs & Hx & _). pose proof Hs as [t Ht]. pose proof (ginv_sinv _ _ _ _ _ _ G) as [[R W] _].
  pose proof (keeps_sees _ _ Kp) as Es. set (T0 := begin_wait T (cur L) sem) in *. set (L' := block_lists T L (cur L) waiting) in *.
  pose proof (gi_tail _ _ _ _ _ _ _ G _ _ Ex) as Htl. pose proof (gi_acts _ _ _ _ _ _ _ G _ _ Ex) as [_ Hacts]%Forall_cons.
  assert (pr F (cur L) = AWait sem :: rest) as Epr by (unfold pr; by rewrite Ex).
  assert (dom T' = dom T) as Ed by (rewrite (sees_dom T0 T' Es); unfold T0, begin_wait; by rewrite !dom_alter_L).
  assert (forall y, pid_of T' y = pid_of T y) as Epid by (intros y; rewrite (sees_pid T0) by done; unfold T0, begin_wait; by rewrite !pid_of_alter).
  assert (forall y, y <> cur L -> wsem T' y = wsem T y /\ terrno T' y = terrno T y) as Eo.
  { intros y Hy. rewrite (sees_wsem T0), (sees_terrno T0) by done. unfold wsem, terrno, T0, begin_wait. by rewrite !lookup_alter_ne. }
  assert (wsem T' (cur L) = sem /\ terrno T' (cur L) = 0) as [Ews Eer].
  { rewrite (sees_wsem T0), (sees_terrno T0) by done. unfold wsem, terrno, T0, begin_wait. by rewrite !lookup_alter, !decide_True, Ht by done. }
  assert (forall y, y ∈ L' waiting <-> y = cur L \/ y ∈ L waiting) as Ew.
  { intros y. change (L' waiting) with (pinsert T (cur L) (L waiting)). apply elem_of_pinsert. }
  assert (calm T L T' L' []) as C.
  { split; [intros y; by rewrite Epid|done| | |].
    - intros y. rewrite (keeps_prio _ _ _ Kp). unfold T0, begin_wait. by rewrite !prio_alter.
    - intros y Hy. left. by apply (within_block T L (cur L) waiting (wf_cur_in _ _ _ W)).
    - intros y Hy. by left. }
  unfold stepped. simpl app. set (F' := <[cur L := _]> F). exists H, T', L', (<[sem := c - 1]> S). split.
  - apply (ginv_step idle H T L S F k H T' L' _ F' k' (cur L)); try done.
    + apply (hash_ext idle H T); [done| |apply G]. intros y. by rewrite <- !elem_of_dom, Ed.
    + rewrite Epid. apply G.
    + apply (slice_sees T0); [done|]. unfold T0, begin_wait. apply slice_field; [done|done|]. apply slice_field; [done|done|apply G].
    + destruct C as [C1 C2 C3 C4 C5]. split; try done; intros y Hy; left.
      * by destruct (C4 y Hy) as [|[]%not_elem_of_nil].
      * by destruct (C5 y Hy) as [|[]%not_elem_of_nil].
    + intros y Hy. unfold F'. by rewrite lookup_insert_ne.
    + intros p'. unfold F'. rewrite lookup_insert, decide_True by done. intros [= <-]. split; [|split; [done|split]].
      * constructor; [done|]. rewrite Forall_forall in Hacts |- *. intros b Hb.
        apply (calm_act idle T L T' L' [] b C); [intros u _; apply not_elem_of_nil|by apply Hacts].
      * by apply (gi_nodup _ _ _ _ _ _ _ G (cur L) (AWait sem :: rest)).
      * intros u Hu. left. by rewrite Epr.
    + intros y [->|Hy]%Ew; [right; split; [done|]|left].
      * exists saved, rest. unfold F'. by rewrite lookup_insert, decide_True, Ews.
      * assert (y <> cur L) as Hne by (by intros ->). destruct (Eo y Hne). auto.
  - intros sem' c' E'. rewrite lookup_insert. rewrite (pend_one T L F T' L' F' sem' (cur L) Ed Hs).
    + assert (owed T L F sem' (cur L) = 0) as -> by (unfold owed; by rewrite Ex).
      assert (owed T' L' F' sem' (cur L) = if decide (sem = sem') then 1 else 0) as ->.
      { unfold owed, F'. rewrite lookup_insert, decide_True by done. destruct (decide (sem = sem')); [rewrite decide_True by tauto|rewrite decide_False by tauto]; done. }
      destruct (decide (sem = sem')) as [<-|Hne]; [exists (c - 1)|exists c']; (split; [done|]); [assert (c' = c) as -> by congruence|]; simpl; lia.
    + intros y Hy. apply owed_other; [unfold F'; by rewrite lookup_insert_ne|rewrite Ew; naive_solver|by apply Eo].
Qed.

Lemma exec_wait sem : ok (AWait sem).
Proof.
  intros Ex Ha. simpl in Ha. b2p. unfold exec. destruct (sem_addr_spec sem ltac:(done)) as [->|(Hs0 & c & E)].
  - unfold nxsem_wait. cbn. apply returns_Ok. apply (step_look (AWait 0)); try done; by repeat constructor.
  - assert (cur L <> idle) as Hi by (intros Ei; rewrite Ei, Z.eqb_refl in *; done).
    eapply returns_bind; [apply (nxsem_wait_spec H idle T L S k sem c); try done; apply G|]. intros [o k'] Hr.
    destruct (0 <? c).
    + destruct Hr as [-> K]. apply returns_Ok. by apply (step_take (AWait sem) sem c).
    + destruct Hr as (-> & T' & K & Kp). apply returns_Ok. by apply (step_block sem c T').
Qed.

(** *** Giving a unit *)

Lemma post_steps sem c :
  sem <> 0 -> S !! sem = Some c -> c < 32767 ->
  returns (nxsem_post k sem) (fun '(ret, _, k') => ret = OK /\
    exists T' L' S', ginv H T' L' S' F k' /\ (forall y, y ∉ L waiting -> y ∉ L' waiting) /\ S' = <[sem := c + 1]> S /\
      forall sem', pend T' L' F sem' = pend T L F sem').
Proof.
  intros Hs0 E Hc. eapply returns_impl; [apply (nxsem_post_spec H idle T L S k sem c); try done; apply G|].
  intros [[ret sw] k'] [-> Hr]. split; [done|]. cbv zeta in Hr. destruct (0 <=? c).
  - destruct Hr as [_ K]. exists T, L, (<[sem := c + 1]> S). split_and!; try done. by destruct G as [G1 G2 G3 G4 G5 G6 G7 G8 G9 G10]; split.
  - destruct Hr as (x & l & Ex & Hx & Hw).
    assert (wsem T x = sem) as Ews by (assert (x ∈ waiters (wsem T) (L waiting) sem) as [? _]%list_elem_of_filter by (rewrite Ex; set_solver); done). subst sem.
    destruct (gi_wait _ _ _ _ _ _ _ G x Hx) as (saved & r & _ & Er). pose proof (ginv_sinv _ _ _ _ _ _ G) as [[_ W] _]. destruct (wf_in _ _ _ W _ _ Hx) as [t Ht].
    destruct (ginv_wake x c _ sw k' 0 Hx E Hw) as (T' & L' & G' & Hwt & Hp).
    + apply map_eq. intros y. rewrite !lookup_fmap, !lookup_alter. destruct (decide (x = y)) as [<-|]; [|done].
      unfold terrno in Er. rewrite Ht in *. rewrite !decide_True by done. simpl. unfold view. simpl. by rewrite Er.
    + intros y. by apply prio_alter.
    + exists T', L', (<[wsem T x := c + 1]> S). split_and!; try done. intros sem'. rewrite Hp, decide_False by tauto. lia.
Qed.

Lemma post_balance sem c sem' c' :
  S !! sem = Some c -> S !! sem' = Some c' -> (<[sem := c + 1]> S) !! sem' = Some (c' + posts sem' [OPost sem]).
Proof.
  intros E E'. rewrite lookup_insert. simpl. destruct (decide (sem = sem')) as [<-|Hne].
  - rewrite Z.eqb_refl. assert (c' = c) as -> by congruence. f_equal; lia.
  - rewrite (proj2 (Z.eqb_neq sem sem')) by done. rewrite E'. f_equal; lia.
Qed.
End Run.

Section Run2.
Context (H : list (Z * Z)) (T : gmap Z tcb_s) (L : tasklist -> list Z) (S : gmap Z Z) (F : gmap Z (list act)) (k : ksys) (rest : list act).
Hypothesis (G : ginv H T L S F k).

Lemma exec_post sem :
  F !! cur L = Some (APost sem :: rest) -> act_ok idle k (cur L) (APost sem) = true ->
  returns (exec k (cur L) (APost sem)) (stepped T L S F (cur L) rest).
Proof.
  intros Ex Ha. destruct (ginv_cur _ _ _ _ _ _ G) as (_ & _ & Hx & _). simpl in Ha. b2p. unfold exec.
  destruct (sem_addr_spec H T L S F k G sem ltac:(done)) as [->|(Hs0 & c & E)].
  - unfold nxsem_post. cbn. apply returns_Ok. apply (step_look H T L S F k rest G (APost 0)); try done; by repeat constructor.
  - eapply returns_bind; [apply (post_steps H T L S F k G sem c); try done; by apply (sem_room_spec H T L S F k G sem)|].
    intros [[ret sw] k'] (-> & T' & L' & S' & G' & Hwt & -> & Hp). apply returns_Ok.
    set (p := [AReturn OK]). destruct (harmless_ok p T' L' ltac:(by repeat constructor)) as (Hh1 & Hh2 & Hh3).
    destruct (ginv_still idle H T' L' _ F k' T' L' _ k' (cur L) _ rest p G' (Hwt _ Hx) Ex (gi_k _ _ _ _ _ _ _ G') (still_refl T' L' _)) as [G2 Hpe]; try done.
    + apply G'.
    + rewrite Hh3. apply NoDup_nil_2.
    + rewrite Hh3. intros t Ht. by apply not_elem_of_nil in Ht.
    + exists H, T', L', (<[sem := c + 1]> S). split; [done|]. intros sem' c' E'. eexists. split; [by apply post_balance|].
      rewrite Hpe, Hp. assert (owed T' L' F sem' (cur L) = 0) as -> by (unfold owed; by rewrite Ex). simpl. lia.
Qed.

(** Every section. *)
Lemma exec_ok a :
  F !! cur L = Some (a :: rest) -> act_ok idle k (cur L) a = true -> returns (exec k (cur L) a) (stepped T L S F (cur L) rest).
Proof.
  destruct a.
  - by apply (exec_lock H T L S F k rest G).
  - by apply (exec_unlock H T L S F k rest G).
  - by apply (exec_unlock_end H T L S F k rest G).
  - by apply (exec_wait H T L S F k rest G).
  - by apply (exec_wait_end H T L S F k rest G).
  - by apply (exec_trywait H T L S F k rest G).
  - by apply exec_post.
  - by apply (exec_yield H T L S F k rest G).
  - by apply (exec_setparam H T L S F k rest G).
  - by apply (exec_setscheduler H T L S F k rest G).
  - by apply (exec_setpolicy H T L S F k rest G).
  - by apply (exec_reprio H T L S F k rest G).
  - by apply (exec_assignpid H T L S F k rest G).
  - by apply (exec_setup H T L S F k rest G).
  - by apply (exec_inactive H T L S F k rest G).
  - by apply (exec_activate H T L S F k rest G).
  - by apply (exec_return H T L S F k rest G).
Qed.
End Run2.
End Acts.
