(* ===== verification/KernRun.v ===== *)
(** * Runs of the system

    Interrupts and calls keep the invariant too, start-up establishes it, and so
    it holds along every run. *)

From stdpp Require Import functions.
From S2P Require Import Prelude Bits Links Queue Sched SchedRep SchedInv SchedOps SchedCalls SchedPrio Sem SemOps.
From S2P Require Import Task TaskOps Kern KernInv KernActs.
Import Dq.
Local Open Scope Z_scope.

Section Runs.
Context (idle : Z).
Abbreviation ginv := (ginv idle).
Abbreviation act_inv := (act_inv idle).
Abbreviation slice_ok := (slice_ok idle).

(** ** Interrupts *)

Section Irq.
Context (H : list (Z * Z)) (T : gmap Z tcb_s) (L : tasklist -> list Z) (S : gmap Z Z) (F : gmap Z (list act)) (k : ksys).
Hypothesis (G : ginv H T L S F k).

(** The invariant holds after an interrupt, and no unit is lost or made. *)
Definition handled (o : list obs) (k' : ksys) : Prop :=
  exists T' L' S', ginv H T' L' S' F k' /\ balance o T L S F T' L' S' F.

Lemma handled_none : handled [] k.
Proof. exists T, L, S. split; [done|]. intros sem c E. exists c. split; [done|simpl; lia]. Qed.

(** The scheduler has moved tasks. *)
Lemma ginv_moved T' L' s' :
  sinv H idle T' L' s' -> (forall x, still T L T' L' x) -> slice_ok T' -> handled [] (set_sch k s').
Proof.
  intros S' St Hsl. pose proof (gi_k _ _ _ _ _ _ _ G) as [K1 K2 K3 K4 K5]. destruct (ginv_cur _ _ _ _ _ _ _ G) as (_ & Hs & Hx & _).
  pose proof (St (cur L)) as [H1 H2 H3 _ H5 H6 H7].
  assert (forall y, terrno T' y = terrno T y) as H4.
  { intros y. destruct (decide (y = cur L)) as [->|Hne]; [|by apply (st_errno _ _ _ _ _ (St (cur L)))].
    apply (st_errno _ _ _ _ _ (St (cur L + 1))). lia. }
  assert (kinv H idle T' L' S (set_sch k s')) as K.
  { split; try done; [apply (so_ext (wsem T) (L waiting)); [done|done|by apply H6]|]. by rewrite <- size_dom, H2, size_dom. }
  exists T', L', S. split.
  - apply (ginv_step idle H T L S F k H T' L' S F _ (cur L)); try done.
    + apply (hash_ext idle H T); [done| |apply G]. intros y. by rewrite <- !elem_of_dom, H2.
    + rewrite H1. apply G.
    + by apply (still_calm T L T' L' (cur L)).
    + intros p' Hp'. split_and!; [|by apply (gi_tail _ _ _ _ _ _ _ G (cur L))|by apply (gi_nodup _ _ _ _ _ _ _ G (cur L))|intros u Hu; left; unfold pr; by rewrite Hp'].
      pose proof (gi_acts _ _ _ _ _ _ _ G _ _ Hp') as Ha. rewrite Forall_forall in Ha |- *. intros a Hin.
      apply (calm_act idle T L T' L' [] a); [by apply (still_calm T L T' L' (cur L))|intros u _; apply not_elem_of_nil|by apply Ha].
    + intros y Hy. left. rewrite (H6 waiting eq_refl) in Hy. assert (y <> cur L) by (by intros ->). auto.
  - intros sem c E. exists c. split; [done|]. simpl.
    assert (pend T' L' F sem = pend T L F sem) as ->; [|lia]. unfold pend. rewrite H2. apply csum_ext. intros y _.
    apply owed_other; [done|by rewrite (H6 waiting eq_refl)|done].
Qed.

Lemma tick_handled : returns (interrupt k ITick) (fun '(o, k') => handled o k').
Proof.
  destruct (ginv_cur _ _ _ _ _ _ _ G) as (_ & [t Ht] & _ & _). destruct (gi_slice _ _ _ _ _ _ _ G _ _ Ht) as [Hts Hrr].
  unfold interrupt. eapply returns_bind; [apply (nxsched_cpu_scheduler_spec H idle T L (sch k) t); [apply G|done|]|].
  { intros E. split; [by apply Hrr|lia]. }
  intros [sw s'] (T' & L' & S' & K & _ & El). apply returns_Ok. set (T1 := if is_rr t then _ else T) in *.
  assert (forall x, still T L T1 L x) as St1 by (intros x; unfold T1; destruct (is_rr t); [by apply still_alter|done]).
  assert (slice_ok T1) as Hsl1.
  { unfold T1. destruct (is_rr t); [|apply G]. apply slice_alter; [|apply G]. intros u Hu. destruct (gi_slice _ _ _ _ _ _ _ G _ _ Hu) as [Hu1 Hu2].
    split; [|done]. unfold new_slice. destruct (slice_ends u); [by vm_compute|]. simpl. lia. }
  apply (ginv_moved T' L' s'); [done| |by apply (slice_sees idle T1); [apply keeps_sees|]].
  intros x. apply (still_trans _ _ T1 L); [done|]. apply still_sees; [by apply keeps_sees| | |intros y; by rewrite (keeps_prio _ _ _ K)].
  - intros l Hl. rewrite El. destruct (is_rr t && slice_ends t); [|done]. by destruct l.
  - intros y [l Hl]. rewrite El in Hl. destruct (is_rr t && slice_ends t); [|by exists l].
    assert (within L (rr_lists T L)) as Hwi; [|by apply Hwi; exists l]. apply within_insert. intros z [->|[Hz _]%elem_of_lrem]%elem_of_pinsert; [|by eexists].
    exists g_readytorun. apply (wf_cur_in idle T L), (ki_wf H idle T L S k), G.
Qed.

Lemma post_handled sem : irq_ok k (IPost sem) = true -> returns (interrupt k (IPost sem)) (fun '(o, k') => handled o k').
Proof.
  simpl. intros Ha. b2p. destruct (sem_addr_spec idle H T L S F k G sem ltac:(done)) as [->|(Hs0 & c & E)].
  - unfold nxsem_post. cbn. apply returns_Ok. by apply handled_none.
  - eapply returns_bind; [apply (post_steps idle H T L S F k G sem c); try done; by apply (sem_room_spec idle H T L S F k G sem)|].
    intros [[ret sw] k'] (-> & T' & L' & S' & G' & _ & -> & Hp). apply returns_Ok. exists T', L', (<[sem := c + 1]> S). split; [done|].
    intros sem' c' E'. eexists. split; [by apply (post_balance S sem c)|]. rewrite Hp. simpl. lia.
Qed.

Lemma timeout_handled p : irq_ok k (ITimeout p) = true -> returns (interrupt k (ITimeout p)) (fun '(o, k') => handled o k').
Proof.
  simpl. intros Ha. apply negb_true_iff in Ha. b2p.
  eapply returns_bind; [apply (nxsem_timeout_spec H idle T L S k p); try done; apply G|].
  intros [sw k'] [(x & c & Hx & _ & E & _ & Hw)|(_ & _ & ->)]; apply returns_Ok; [|by apply handled_none].
  destruct (ginv_wake idle H T L S F k G x c _ sw k' ETIMEDOUT Hx E Hw) as (T' & L' & G' & _ & Hp).
  - reflexivity.
  - intros y. unfold end_wait. by rewrite !prio_alter.
  - exists T', L', (<[wsem T x := c + 1]> S). split; [done|]. intros sem' c' E'. rewrite lookup_insert, Hp. simpl.
    destruct (decide (wsem T x = sem')) as [<-|Hne].
    + rewrite decide_True by done. exists (c + 1). split; [done|]. assert (c' = c) as -> by congruence. lia.
    + rewrite decide_False by naive_solver. exists c'. split; [done|]. lia.
Qed.

Lemma irq_handled i : irq_ok k i = true -> returns (interrupt k i) (fun '(o, k') => handled o k').
Proof. destruct i; [by apply post_handled|intros _; apply tick_handled|by apply timeout_handled]. Qed.
End Irq.

(** ** Steps *)

(** The state of the system, with everything that the invariant speaks about. *)
Definition sys_inv (H : list (Z * Z)) (T : gmap Z tcb_s) (L : tasklist -> list Z) (S : gmap Z Z) (st : kst) : Prop :=
  ginv H T L S (progs st) (ks st).

Definition kept (T : gmap Z tcb_s) (L : tasklist -> list Z) (S : gmap Z Z) (st : kst) (o : list obs) (st' : kst) : Prop :=
  exists H' T' L' S', sys_inv H' T' L' S' st' /\ balance o T L S (progs st) T' L' S' (progs st').

Lemma call_kept H T L S st c :
  sys_inv H T L S st -> prog st (cur L) = [] -> kept T L S st [] (mk_kst (ks st) (<[cur L := body c]> (progs st))).
Proof.
  intros G Hp. unfold sys_inv in G. destruct (ginv_cur _ _ _ _ _ _ _ G) as (_ & Hs & Hx & _).
  assert (Forall (act_inv T L) (body c) /\ Forall (fun a => wait_end a = false) (body c) /\ owned (body c) = []) as (B1 & B2 & B3).
  { destruct c; (split; [by repeat constructor|split; [by repeat constructor|done]]). }
  exists H, T, L, S. split.
  - apply (ginv_step idle H T L S (progs st) (ks st) H T L S _ _ (cur L)); try done; try apply G.
    + by split; try done; intros y Hy; left.
    + intros y Hy. simpl. by rewrite lookup_insert_ne.
    + intros p'. simpl. rewrite lookup_insert, decide_True by done. intros [= <-]. rewrite B3. split_and!; try done; [|apply NoDup_nil_2|].
      * destruct (body c); [done|]. by apply Forall_cons in B2 as [_ ?].
      * intros u Hu. by apply not_elem_of_nil in Hu.
    + intros y Hy. left. assert (y <> cur L) by (by intros ->). auto.
  - intros sem c' E. exists c'. split; [done|]. simpl. rewrite (pend_one T L (progs st) T L _ sem (cur L) eq_refl Hs).
    + assert (owed T L (progs st) sem (cur L) = 0) as ->.
      { unfold owed. unfold prog in Hp. destruct (progs st !! cur L) as [q|]; [|done]. simpl in Hp. by rewrite Hp. }
      assert (owed T L (<[cur L := body c]> (progs st)) sem (cur L) = 0) as ->; [|lia]. unfold owed. rewrite lookup_insert, decide_True by done.
      destruct (body c) as [|a q]; [done|]. apply Forall_cons in B2 as [Ha _]. by destruct a.
    + intros y Hy. apply owed_other; [by rewrite lookup_insert_ne|done|done].
Qed.

Lemma kstep_kept H T L S st e :
  sys_inv H T L S st -> possible idle st e = true -> returns (kstep st e) (fun '(o, st') => kept T L S st o st').
Proof.
  intros G He. destruct (ginv_cur _ _ _ _ _ _ _ G) as (Ec & _). unfold possible in He. unfold kstep. cbv zeta in *. rewrite Ec in *.
  destruct e as [c| |i].
  - apply returns_Ok. apply (call_kept H T L S st c G). by destruct (prog st (cur L)).
  - destruct (prog st (cur L)) as [|a rest] eqn:Ep; [done|].
    assert (progs st !! cur L = Some (a :: rest)) as Ex by (unfold prog in Ep; destruct (progs st !! cur L); [by simplify_eq/=|done]).
    eapply returns_bind; [by apply (exec_ok idle H T L S (progs st) (ks st) rest G)|].
    intros [[p o] k'] (H' & T' & L' & S' & G' & B). apply returns_Ok. by exists H', T', L', S'.
  - eapply returns_bind; [by apply (irq_handled H T L S (progs st) (ks st) G)|].
    intros [o k'] (T' & L' & S' & G' & B). apply returns_Ok. by exists H, T', L', S'.
Qed.

Lemma takes_app sem o1 o2 : takes sem (o1 ++ o2) = takes sem o1 + takes sem o2.
Proof. unfold takes. induction o1 as [|o o1 IH]; simpl; lia. Qed.

Lemma posts_app sem o1 o2 : posts sem (o1 ++ o2) = posts sem o1 + posts sem o2.
Proof. unfold posts. induction o1 as [|o o1 IH]; simpl; lia. Qed.

Lemma kept_refl H T L S st : sys_inv H T L S st -> kept T L S st [] st.
Proof. intros G. exists H, T, L, S. split; [done|]. intros sem c E. exists c. split; [done|simpl; lia]. Qed.

Lemma balance_trans o1 o2 T1 L1 S1 F1 T2 L2 S2 F2 T3 L3 S3 F3 :
  balance o1 T1 L1 S1 F1 T2 L2 S2 F2 -> balance o2 T2 L2 S2 F2 T3 L3 S3 F3 -> balance (o1 ++ o2) T1 L1 S1 F1 T3 L3 S3 F3.
Proof.
  intros B1 B2 sem c E. destruct (B1 sem c E) as (c2 & E2 & Q2). destruct (B2 sem c2 E2) as (c3 & E3 & Q3).
  exists c3. split; [done|]. rewrite takes_app, posts_app. lia.
Qed.

Lemma krun_kept es H T L S st :
  sys_inv H T L S st -> returns (krun idle st es) (fun '(o, st') => kept T L S st o st').
Proof.
  revert H T L S st. induction es as [|e es IH]; intros H T L S st G; simpl; [apply returns_Ok; by apply (kept_refl H)|].
  destruct (possible idle st e) eqn:He; [|by apply (IH H)].
  eapply returns_bind; [by apply (kstep_kept H T L S)|]. intros [o st1] (H1 & T1 & L1 & S1 & G1 & B1).
  eapply returns_bind; [by apply (IH H1 T1 L1 S1)|]. intros [os st2] (H2 & T2 & L2 & S2 & G2 & B2). apply returns_Ok.
  exists H2, T2, L2, S2. split; [done|]. by apply (balance_trans _ _ _ _ _ _ T1 L1 S1 (progs st1)).
Qed.

(** ** Start-up *)

(** The memory that [nx_start] finds: control blocks that are all zeros, and
    semaphores with the counts they are initialised with. *)
Record fresh (k : ksys) : Prop := {
  fr_zero x t : tcbs (sch k) !! x = Some t -> t = zero_tcb;
  fr_idle : is_Some (tcbs (sch k) !! idle);
  fr_node x : is_Some (tcbs (sch k) !! x) -> is_node (links (sch k)) x;
  fr_size : Z.of_nat (size (tcbs (sch k))) <= 32767;
  fr_sems sem c : sems k !! sem = Some c -> 0 <= c <= 32767
}.

Definition boot_lists : tasklist -> list Z := <[g_readytorun := [idle]]> (fun _ => []).
Definition boot_idle : tcb_s := mk_tcb 0 0 TSTATE_TASK_RUNNING (Z.lor TCB_FLAG_TTYPE_KERNEL TCB_FLAG_NONCANCELABLE) 0 0 0 0 0.
Definition boot_hash : list (Z * Z) := (idle, 0) :: replicate 15 (0, INVALID_PROCESS_ID).

Lemma boot_elem l x : x ∈ boot_lists l -> l = g_readytorun /\ x = idle.
Proof. destruct l; simpl; [intros Hx; split; [done|]; set_solver|intros []%not_elem_of_nil..]. Qed.

Section Boot.
Context (k : ksys).
Hypothesis (Fr : fresh k).

Definition boot_tcbs : gmap Z tcb_s := <[idle := boot_idle]> (tcbs (sch k)).

Lemma boot_lookup x t : boot_tcbs !! x = Some t -> (x = idle /\ t = boot_idle) \/ (x <> idle /\ t = zero_tcb).
Proof.
  unfold boot_tcbs. rewrite lookup_insert. destruct (decide (idle = x)) as [<-|]; [intros [= <-]; by left|].
  intros Ht%(fr_zero _ Fr). right. split; [congruence|done].
Qed.

Lemma boot_some x : is_Some (boot_tcbs !! x) <-> is_Some (tcbs (sch k) !! x).
Proof.
  unfold boot_tcbs. rewrite lookup_insert. destruct (decide (idle = x)) as [<-|]; [|done]. split; [intros _; apply (fr_idle _ Fr)|eauto].
Qed.

Lemma boot_wf : wf idle boot_tcbs boot_lists.
Proof.
  assert (boot_tcbs !! idle = Some boot_idle) as Ei by (unfold boot_tcbs; by rewrite lookup_insert, decide_True).
  split.
  - intros []; simpl; [apply NoDup_singleton|apply NoDup_nil_2..].
  - intros l1 l2 x [-> _]%boot_elem [-> _]%boot_elem. done.
  - intros l x [_ ->]%boot_elem. rewrite Ei. eauto.
  - intros l x [-> ->]%boot_elem. unfold tstate. rewrite Ei. unfold state_of. by rewrite decide_True.
  - intros x Hx. exists g_readytorun. unfold tstate in Hx. destruct (boot_tcbs !! x) as [t|] eqn:E; [|done].
    destruct (boot_lookup _ _ E) as [[-> ->]|[_ ->]]; [|done]. by left.
  - intros l Hl. destruct l; repeat constructor.
  - done.
  - unfold prio. by rewrite Ei.
  - intros l x [_ ->]%boot_elem. done.
  - intros x. unfold locks. destruct (boot_tcbs !! x) as [t|] eqn:E; [|lia]. destruct (boot_lookup _ _ E) as [[_ ->]|[_ ->]]; simpl; lia.
Qed.

Lemma boot_zero x : wsem boot_tcbs x = 0 /\ (is_Some (boot_tcbs !! x) -> pid_of boot_tcbs x = 0).
Proof.
  unfold wsem, pid_of. destruct (boot_tcbs !! x) as [t|] eqn:E; [|split; [done|by intros []]].
  destruct (boot_lookup _ _ E) as [[_ ->]|[_ ->]]; done.
Qed.

Lemma nx_start_inv : returns (nx_start k idle) (fun k' => sys_inv boot_hash boot_tcbs boot_lists (sems k) (mk_kst k' ∅)).
Proof.
  unfold nx_start. change (array_set _ _ _) with (@Ok (list (Z * Z)) boot_hash). rewrite bind_Ok. cbv zeta.
  set (s0 := mk_sched _ _ _ _).
  assert (srep boot_hash (tcbs (sch k)) (fun _ => []) s0) as R0.
  { split; try done; [intros l; apply dq_init_spec|intros l1 l2 x []%not_elem_of_nil|intros l x []%not_elem_of_nil|intros x Hx; by apply (fr_node _ Fr)]. }
  destruct (fr_idle _ Fr) as [ti Hti].
  eapply returns_bind; [apply (tupd_spec boot_hash _ _ s0 idle _ R0); eauto|]. intros s1 R1.
  assert (alter (fun _ : tcb_s => boot_idle) idle (tcbs (sch k)) = boot_tcbs) as E.
  { apply map_eq. intros y. unfold boot_tcbs. rewrite lookup_alter, lookup_insert. destruct (decide (idle = y)) as [<-|]; [|done]. by rewrite Hti. }
  fold boot_idle in R1. rewrite E in R1.
  assert (is_Some (boot_tcbs !! idle)) as Hi by (apply boot_some; eauto).
  destruct (dq_addfirst_spec _ _ _ _ (sr_q _ _ _ _ R1 g_readytorun) (sr_node _ _ _ _ R1 idle Hi) (not_elem_of_nil idle)) as (d & q & -> & Hr & Hf).
  rewrite bind_Ok. apply returns_Ok.
  assert (srep boot_hash boot_tcbs boot_lists (set_list s1 g_readytorun d q)) as R2.
  { apply (set_list_spec boot_hash boot_tcbs (fun _ => []) s1 g_readytorun idle); try done; [intros; apply not_elem_of_nil|].
    intros y Hy. by apply (dq_rep_node _ _ _ _ Hr). }
  split; simpl; try (intros x; rewrite lookup_empty; by intros []); try (intros x p; by rewrite lookup_empty); try done.
  - split; simpl; try done.
    + split; [split; [done|apply boot_wf]|]. by apply lock_ok_none.
    + split; simpl.
      * intros x []%not_elem_of_nil.
      * intros x _. apply boot_zero.
      * intros sem c Ec. pose proof (fr_sems _ Fr sem c Ec). lia.
      * intros sem c Ec. pose proof (fr_sems _ Fr sem c Ec). lia.
    + unfold boot_tcbs. rewrite <- size_dom, dom_insert_lookup_L, size_dom by eauto. apply (fr_size _ Fr).
  - split; [done|..].
    + intros x Hx. rewrite (proj2 (boot_zero x) Hx). intros [?| ->]; done.
    + intros i x p Hp Hx. destruct i as [|i]; [|apply lookup_replicate in Hp as [Hp _]; congruence].
      simpl in Hp. injection Hp as <- <-. split; [done|]. split; [by apply boot_zero|done].
  - by apply boot_zero.
  - intros x [l [_ ->]%boot_elem]. done.
  - intros x t Ht. destruct (boot_lookup _ _ Ht) as [[-> ->]|[Hx ->]]; by vm_compute.
  - intros x []%not_elem_of_nil.
Qed.
End Boot.
End Runs.

(** * What the invariant says of the state of the system *)

Section Facts.
Context (idle : Z) (H : list (Z * Z)) (T : gmap Z tcb_s) (L : tasklist -> list Z) (S : gmap Z Z) (st : kst).
Hypothesis (G : sys_inv idle H T L S st).

Lemma sys_sinv : sinv H idle T L (sch (ks st)).
Proof. apply G. Qed.

Lemma sys_tcbs : tcbs (sch (ks st)) = T.
Proof. destruct sys_sinv as [[R _] _]. by apply (sr_tcbs _ _ _ _ R). Qed.

(** The list of a task by its state. *)
Lemma state_list x t : T !! x = Some t ->
  task_state t = TSTATE_TASK_INVALID \/ exists l, x ∈ L l /\ task_state t = state_of L l x.
Proof.
  intros Ht. destruct sys_sinv as [[_ W] _]. rewrite (tstate_get _ _ _ Ht).
  destruct (decide (tstate T x = TSTATE_TASK_INVALID)) as [|E]; [by left|right].
  destruct (wf_all _ _ _ W x E) as [l Hl]. exists l. split; [done|]. by apply W.
Qed.

Lemma sys_highest : runs_highest (sch (ks st)).
Proof.
  destruct sys_sinv as [[R W] Hlk]. destruct (ginv_cur _ _ _ _ _ _ _ G) as (Ec & [c Hc] & _). unfold runs_highest. rewrite Ec, sys_tcbs.
  exists c. split; [done|]. split.
  - rewrite (tstate_get _ _ _ Hc), (wf_state _ _ _ W g_readytorun _ (wf_cur_in _ _ _ W)). simpl. by rewrite decide_True.
  - intros x t Ht. destruct (state_list x t Ht) as [->|(l & Hl & ->)]; [done|]. split; [|split].
    + destruct l; simpl; try done. by case_decide.
    + destruct l; simpl; try done. intros _. pose proof (wf_highest _ _ _ _ W Hl) as Hp. unfold prio in Hp. by rewrite Ht, Hc in Hp.
    + destruct l; simpl; try done; [by case_decide|]. intros _. unfold lock_ok, locks in Hlk. rewrite Hc in Hlk. apply Hlk. intros E. rewrite E in Hl. by apply not_elem_of_nil in Hl.
Qed.

(** ** Counting *)

Lemma csum_perm f l1 l2 : l1 ≡ₚ l2 -> csum f l1 = csum f l2.
Proof. induction 1; simpl; lia. Qed.

Lemma count_csum (m : gmap Z tcb_s) f :
  Z.of_nat (length (filter (fun '(x, t) => f x t = true) (map_to_list m))) =
  csum (fun x => match m !! x with Some t => if f x t : bool then 1 else 0 | None => 0 end) (elements (dom m)).
Proof.
  assert (elements (dom m) ≡ₚ (map_to_list m).*1) as Ep.
  { apply NoDup_Permutation; [apply NoDup_elements|apply NoDup_fst_map_to_list|]. intros x. rewrite elem_of_elements, elem_of_dom, list_elem_of_fmap. split.
    - intros [t Ht]. exists (x, t). split; [done|]. by apply elem_of_map_to_list.
    - intros ([y t] & -> & Ht). apply elem_of_map_to_list in Ht. eauto. }
  rewrite (csum_perm _ _ _ Ep). clear Ep.
  assert (forall x t, (x, t) ∈ map_to_list m -> m !! x = Some t) as Hm by (intros x t; apply elem_of_map_to_list). revert Hm.
  induction (map_to_list m) as [|[x t] l IH]; intros Hm; [done|]. rewrite filter_cons, fmap_cons. simpl csum. rewrite (Hm x t) by (by left).
  specialize (IH ltac:(intros; apply Hm; by right)). case_decide as D; simpl in D.
  - rewrite D. simpl length. lia.
  - apply not_true_is_false in D. rewrite D. lia.
Qed.

Lemma csum_app f l1 l2 : csum f (l1 ++ l2) = csum f l1 + csum f l2.
Proof. induction l1 as [|x l1 IH]; simpl; lia. Qed.

Lemma csum_add f g l : csum (fun x => f x + g x) l = csum f l + csum g l.
Proof. induction l as [|x l IH]; simpl; lia. Qed.

Lemma csum_const v l : csum (fun _ => v) l = v * Z.of_nat (length l).
Proof. induction l as [|x l IH]; simpl; lia. Qed.

(** The members of a list, counted among all tasks. *)
Lemma csum_member (w l : list Z) : NoDup w -> NoDup l -> w ⊆ l -> csum (fun x => if decide (x ∈ w) then 1 else 0) l = Z.of_nat (length w).
Proof.
  intros Hw Hl Hs. assert (w ⊆+ l) as Hsub by (by apply NoDup_submseteq). apply submseteq_Permutation in Hsub as [r Er].
  rewrite (csum_perm _ _ _ Er), csum_app. rewrite Er in Hl. apply NoDup_app in Hl as (_ & Hd & _).
  rewrite (csum_ext _ (fun _ => 1) w) by (intros x Hx; by rewrite decide_True).
  rewrite (csum_ext _ (fun _ => 0) r) by (intros x Hx; rewrite decide_False; [done|]; intros Hx'; by apply (Hd x)).
  rewrite !csum_const. lia.
Qed.

Lemma waiting_iff x t : T !! x = Some t -> is_waiting t = bool_decide (x ∈ L waiting).
Proof. intros Ht. unfold is_waiting. apply bool_decide_ext. apply (wait_state H idle T L S (ks st) x t); [apply G|done]. Qed.

Lemma sys_waiting sem c : S !! sem = Some c -> waiting_for st sem = Z.max 0 (- c).
Proof.
  intros E. pose proof (gi_k _ _ _ _ _ _ _ G) as K. rewrite <- (so_count _ _ _ (ki_ok _ _ _ _ _ _ K) sem c E).
  pose proof (ki_wf _ _ _ _ _ _ K) as W. unfold waiting_for, count_tasks. rewrite count_csum, sys_tcbs.
  rewrite <- (csum_member (waiters (wsem T) (L waiting) sem) (elements (dom T))).
  - apply csum_ext. intros x [t Ht]%elem_of_elements%elem_of_dom. rewrite Ht, (waiting_iff x t Ht). unfold waiters, wsem.
    destruct (decide (x ∈ filter _ _)) as [D|D]; rewrite list_elem_of_filter, Ht in D.
    + destruct D as [D1 D2]. by rewrite bool_decide_eq_true_2, (proj2 (Z.eqb_eq _ _) D1).
    + destruct (bool_decide (x ∈ L waiting) && (waitsem t =? sem)) eqn:Eb; [|done]. b2p. destruct D. split; [done|]. by apply bool_decide_eq_true_1 in H0.
  - apply NoDup_filter, W.
  - apply NoDup_elements.
  - intros x [_ Hx]%list_elem_of_filter. apply elem_of_elements, elem_of_dom. by apply (wf_in _ _ _ W waiting).
Qed.

Lemma sys_pend sem : pend T L (progs st) sem = waiting_for st sem + granted st sem.
Proof.
  unfold pend, waiting_for, granted, count_tasks. rewrite !count_csum, <- csum_add, sys_tcbs. apply csum_ext.
  intros x [t Ht]%elem_of_elements%elem_of_dom. rewrite Ht, (waiting_iff x t Ht). unfold owed, prog.
  assert (terrno T x = pterrno t) as Et by (unfold terrno; by rewrite Ht). assert (wsem T x = waitsem t) as Ew by (unfold wsem; by rewrite Ht).
  rewrite Et. destruct (decide (x ∈ L waiting)) as [Hx|Hx].
  - destruct (gi_wait _ _ _ _ _ _ _ G x Hx) as (saved & r & Ef & Er). rewrite Ef, Ew, bool_decide_eq_true_2 by done. simpl.
    destruct (waitsem t =? sem) eqn:Es; b2p; [rewrite decide_True by tauto|rewrite decide_False by tauto]; done.
  - rewrite bool_decide_eq_false_2 by done. simpl. destruct (progs st !! x) as [[|a p]|]; simpl; try done. destruct a; try done. rewrite andb_true_r.
    destruct (decide (sem0 = sem /\ (x ∈ L waiting \/ pterrno t = 0))) as [[-> [?|D]]|D]; [done| |].
    + by rewrite Z.eqb_refl, (proj2 (Z.eqb_eq _ _) D).
    + destruct ((sem0 =? sem) && (pterrno t =? 0)) eqn:Eb; [|done]. b2p. tauto.
Qed.
End Facts.
