(* ===== verification/KernProps.v ===== *)
(** * Properties of the system

    What holds of every run of tasks and interrupts from start-up on: the highest
    priority runs, semaphores neither lose nor make units, the preemption lock
    keeps the processor, and a post wakes the right task. *)

From stdpp Require Import functions.
From S2P Require Import Prelude Bits Links Queue Sched SchedRep SchedInv SchedOps SchedCalls SchedPrio.
From S2P Require Import Sem SemOps Task TaskOps Kern KernInv KernActs KernRun.
Import Dq.
Local Open Scope Z_scope.

(** At start-up nothing is owed. *)
Lemma boot_pend k idle sem : pend (boot_tcbs idle k) (boot_lists idle) ∅ sem = 0.
Proof. unfold pend. rewrite (csum_ext _ (fun _ => 0)) by (intros x _; unfold owed; by rewrite lookup_empty). by rewrite csum_const. Qed.

(** The invariant after any run. *)
Lemma system_inv k idle es :
  fresh idle k -> returns (system k idle es) (fun '(o, st) =>
    exists H T L S, sys_inv idle H T L S st /\
      forall sem c, sems k !! sem = Some c -> exists c', S !! sem = Some c' /\ c' + pend T L (progs st) sem + takes sem o = c + posts sem o).
Proof.
  intros Fr. unfold system. eapply returns_bind; [by apply nx_start_inv|]. intros k' G0.
  eapply returns_impl; [by apply (krun_kept idle es _ _ _ _ _ G0)|]. intros [o st] (H & T & L & S & G & B). exists H, T, L, S. split; [done|].
  intros sem c E. destruct (B sem c E) as (c' & E' & Q). exists c'. split; [done|]. simpl in Q. rewrite boot_pend in Q. lia.
Qed.

(** When the callers keep their promises nothing is left out. *)
Lemma promised_krun idle es : forall st, promised idle st es = true -> krun idle st es = ksteps st es.
Proof.
  induction es as [|e es IH]; intros st; simpl; [done|]. intros [He Hs]%andb_true_iff. rewrite He.
  destruct (kstep st e) as [[o st1]|]; [|done]. by rewrite !bind_Ok, IH.
Qed.

Lemma promised_system k idle es : kernel_promise k idle es = true -> kernel k idle es = system k idle es.
Proof.
  unfold kernel_promise, kernel, system. destruct (nx_start k idle) as [k'|]; [|done]. intros Hp. by rewrite !bind_Ok, promised_krun.
Qed.

(** ** A concrete system *)

(** The idle task, two more control blocks, and a semaphore with one unit. *)
Definition demo_idle : Z := 4096.
Definition demo_a : Z := 8192.
Definition demo_b : Z := 12288.
Definition demo_sem : Z := 20480.
Definition demo_links : gmap Z Z := {[ demo_idle := 0; demo_a := 0; demo_b := 0 ]}.
Definition demo_sys : ksys :=
  mk_ksys (mk_sched {[ demo_idle := zero_tcb; demo_a := zero_tcb; demo_b := zero_tcb ]}
             {| dq_flink := demo_links; dq_blink := demo_links |} (fun _ => dq_init) [])
          {[ demo_sem := 1 ]} 0 0.

Lemma demo_sys_fresh : fresh demo_idle demo_sys.
Proof.
  assert (map_Forall (fun x t => t = zero_tcb /\ x <> 0 /\ is_Some (demo_links !! x)) (tcbs (sch demo_sys))) as Ht
    by (apply (bool_decide_unpack _); by vm_compute).
  assert (map_Forall (fun _ c => 0 <= c <= 32767) (sems demo_sys)) as Hs by (apply (bool_decide_unpack _); by vm_compute).
  split; simpl.
  - intros x t E. by apply (Ht x t).
  - by eexists.
  - intros x [t E]. destruct (Ht x t E) as (_ & H1 & H2). by split.
  - by vm_compute.
  - intros sem c E. by apply (Hs sem c).
Qed.

Definition runs (n : nat) : list event := repeat Run n.

(** A task of priority 100 takes the unit and creates one of priority 120, which
    then waits. *)
Definition demo_events : list event :=
  [Call (CCreate demo_a 100 0)] ++ runs 8 ++ [Call (CWait demo_sem)] ++ runs 2 ++ [Call (CCreate demo_b 120 0)] ++ runs 8 ++
  [Call (CWait demo_sem)] ++ runs 2.

(** ** Scheduling *)

(** C4: From start-up on, for every sequence of calls, context switches and
    interrupts that keeps the callers' promises, every operation returns (no bad
    access to a task list, no walk that does not end), and afterwards the one running
    task has the highest priority of all ready tasks; tasks are pending only while it
    holds the preemption lock.  The promises, [kernel_promise], are checked in the
    state that each event finds: semaphores are NULL or initialised and are not posted
    at SEM_VALUE_MAX, the preemption lock is nested less than 32767 times, the idle
    task does not wait or yield and is not given a priority or policy, a task is
    created in a control block that is all zeros with a priority in range, and a task
    that is ready but does not run is only given a priority above that of the running
    task.  Tasks are not deleted. *)
Theorem highest_priority_runs (k : ksys) (idle : Z) (es : list event) :
  fresh idle k -> kernel_promise k idle es = true ->
  exists o st, kernel k idle es = Ok (o, st) /\ runs_highest (sch (ks st)).
Proof.
  intros Fr Hp. destruct (system_inv k idle es Fr) as ([o st] & E & H & T & L & S & G & _). exists o, st.
  rewrite (promised_system k idle es Hp). split; [done|]. by apply (sys_highest idle H T L S).
Qed.

Lemma highest_priority_runs_witness : exists o st, kernel demo_sys demo_idle demo_events = Ok (o, st) /\ runs_highest (sch (ks st)).
Proof. apply highest_priority_runs; [exact demo_sys_fresh|vm_compute; reflexivity]. Defined.

(** ** Semaphores *)

(** C6: Units of semaphores are neither lost nor made, whatever tasks and
    interrupts do: those taken, those given to tasks that have not run since, and
    those left are together the initial count and the units posted.  So no more
    are taken than there are, and a task waits only when none is left. *)
Theorem units_conserved (k : ksys) (idle : Z) (es : list event) (sem c0 : Z) :
  fresh idle k -> sems k !! sem = Some c0 ->
  exists o st c, system k idle es = Ok (o, st) /\ sems (ks st) !! sem = Some c /\
    takes sem o + granted st sem + Z.max 0 c = c0 + posts sem o /\ waiting_for st sem = Z.max 0 (- c).
Proof.
  intros Fr E0. destruct (system_inv k idle es Fr) as ([o st] & E & H & T & L & S & G & B). destruct (B sem c0 E0) as (c & Ec & Q).
  exists o, st, c. split; [done|]. split; [by rewrite (ki_sems _ _ _ _ _ _ (gi_k _ _ _ _ _ _ _ G))|].
  pose proof (sys_waiting idle H T L S st G sem c Ec) as Hw. pose proof (sys_pend idle H T L S st G sem) as Hp. lia.
Qed.

Lemma units_conserved_witness :
  exists o st c, system demo_sys demo_idle demo_events = Ok (o, st) /\ sems (ks st) !! demo_sem = Some c /\
    takes demo_sem o + granted st demo_sem + Z.max 0 c = 1 + posts demo_sem o /\ waiting_for st demo_sem = Z.max 0 (- c).
Proof. apply units_conserved; [exact demo_sys_fresh|reflexivity]. Defined.

(** A state that a run leads to, with what the invariant needs to be used. *)
Lemma reached k idle es o st :
  fresh idle k -> system k idle es = Ok (o, st) -> exists H T L, sys_inv idle H T L (sems (ks st)) st /\ tcbs (sch (ks st)) = T.
Proof.
  intros Fr E. destruct (system_inv k idle es Fr) as ([o' st'] & E' & H & T & L & S & G & _). rewrite E in E'. injection E' as <- <-.
  exists H, T, L. rewrite (ki_sems _ _ _ _ _ _ (gi_k _ _ _ _ _ _ _ G)). split; [done|]. by apply (sys_tcbs idle H T L S).
Qed.

(** What a task waits for, and its priority, in a state. *)
Definition waits (s : sched) (x sem p : Z) : Prop :=
  exists t, tcbs s !! x = Some t /\ task_state t = TSTATE_WAIT_SEM /\ waitsem t = sem /\ sched_priority t = p.

Lemma kinv_waits H idle T L S k x sem p :
  kinv H idle T L S k -> waits (sch k) x sem p <-> x ∈ L waiting /\ wsem T x = sem /\ prio T x = p.
Proof.
  intros K. pose proof (ki_sched _ _ _ _ _ _ K) as [[R W] _]. unfold waits. rewrite (sr_tcbs _ _ _ _ R). unfold wsem, prio. split.
  - intros (t & Ht & Hst & Hw & Hp). rewrite Ht. split; [|done]. by apply (wait_state H idle T L S k x t K Ht).
  - intros (Hx & Hw & Hp). destruct (wf_in _ _ _ W _ _ Hx) as [t Ht]. rewrite Ht in *. exists t. split_and!; try done.
    by apply (wait_state H idle T L S k x t K Ht).
Qed.

Lemma psorted_waiters T w l sem : psorted T l -> psorted T (waiters w l sem).
Proof.
  unfold psorted, waiters. induction 1 as [|x l Hl IH Hx]; [constructor|]. rewrite filter_cons. case_decide; [|done]. constructor; [done|].
  rewrite Forall_forall in Hx |- *. intros y [_ Hy]%list_elem_of_filter. by apply Hx.
Qed.

(** C17: A post to a semaphore for which tasks wait ends the wait of exactly one of
    them, and none of the others that wait for it has a higher priority; the waits of
    all other tasks, for this or another semaphore, go on. *)
Theorem post_wakes_highest (k : ksys) (idle : Z) (es : list event) (o : list obs) (st : kst) (sem c : Z) :
  fresh idle k -> system k idle es = Ok (o, st) -> sem <> 0 -> sems (ks st) !! sem = Some c -> c < 0 ->
  exists x p sw k', nxsem_post (ks st) sem = Ok (OK, sw, k') /\ sems k' = <[sem := c + 1]> (sems (ks st)) /\
    waits (sch (ks st)) x sem p /\ (forall y q, waits (sch (ks st)) y sem q -> q <= p) /\
    forall y s q, waits (sch k') y s q <-> waits (sch (ks st)) y s q /\ y <> x.
Proof.
  intros Fr E H0 Ec Hc. destruct (reached k idle es o st Fr E) as (H & T & L & G & _). pose proof (gi_k _ _ _ _ _ _ _ G) as K.
  destruct (nxsem_post_spec H idle T L _ (ks st) sem c K H0 Ec ltac:(lia)) as ([[ret sw] k'] & -> & -> & Hr). cbv zeta in Hr.
  rewrite (proj2 (Z.leb_gt 0 c) Hc) in Hr. destruct Hr as (x & l & Ex & Hx & T' & K' & Kp & _).
  assert (wsem T x = sem) as Hw by (assert (x ∈ waiters (wsem T) (L waiting) sem) as [? _]%list_elem_of_filter by (rewrite Ex; set_solver); done).
  exists x, (prio T x), sw, k'. split; [done|]. split; [by apply K'|]. split; [by apply (kinv_waits H idle T L _ _ _ _ _ K)|]. split.
  - intros y q (Hy & Hwy & <-)%(kinv_waits H idle T L _ _ _ _ _ K).
    assert (psorted T (waiters (wsem T) (L waiting) sem)) as Hs.
    { apply psorted_waiters. by apply (wf_sorted _ _ _ (ki_wf _ _ _ _ _ _ K) waiting). }
    rewrite Ex in Hs. apply StronglySorted_inv in Hs as [_ Hs]. rewrite Forall_forall in Hs.
    assert (y ∈ x :: l) as [->|Hl]%elem_of_cons by (rewrite <- Ex; apply list_elem_of_filter; done); [lia|by apply Hs].
  - intros y s q. rewrite (kinv_waits H idle _ _ _ _ _ _ _ K'), (kinv_waits H idle T L _ _ _ _ _ K), unblock_waiting, elem_of_lrem.
    rewrite (sees_wsem _ _ y (keeps_sees _ _ Kp)), (keeps_prio _ _ y Kp), prio_alter by done.
    destruct (decide (y = x)) as [->|Hne]; [naive_solver|]. unfold wsem. rewrite lookup_alter_ne by done. tauto.
Qed.

Lemma post_wakes_highest_witness :
  exists o st, system demo_sys demo_idle demo_events = Ok (o, st) /\
  exists x p sw k', nxsem_post (ks st) demo_sem = Ok (OK, sw, k') /\ sems k' = <[demo_sem := -1 + 1]> (sems (ks st)) /\
    waits (sch (ks st)) x demo_sem p /\ (forall y q, waits (sch (ks st)) y demo_sem q -> q <= p) /\
    forall y s q, waits (sch k') y s q <-> waits (sch (ks st)) y s q /\ y <> x.
Proof.
  eexists _, _. split; [vm_compute; reflexivity|].
  eapply (post_wakes_highest demo_sys demo_idle demo_events); [exact demo_sys_fresh|vm_compute; reflexivity|discriminate|reflexivity|lia].
Defined.

(** ** The preemption lock *)

Lemma cur_unblock_locked idle T L x l :
  wf idle T L -> 0 < locks T (cur L) -> l <> g_readytorun -> cur (unblock_lists T L x l) = cur L.
Proof.
  intros W Hl Hne. unfold unblock_lists, ready_add. set (L1 := <[l := _]> L). assert (cur L1 = cur L) as Ec by (by apply cur_insert).
  rewrite Ec. destruct (prio T (cur L) <? prio T x) eqn:E.
  - rewrite (proj2 (Z.ltb_lt _ _) Hl). simpl. by rewrite cur_insert.
  - rewrite andb_false_r. unfold cur at 1. rewrite fn_lookup_insert. rewrite <- Ec. apply pinsert_hd. unfold L1. rewrite fn_lookup_insert_ne by done.
    destruct (wf_cur _ _ _ W) as [r ->]. done.
Qed.

Lemma woken_locked H idle T1 T L S x sw k' :
  wf idle T L -> 0 < locks T (cur L) -> woken H idle T1 T L S x sw k' -> this_task (sch k') = cur L.
Proof.
  intros W Hl (T' & K & _). pose proof (ki_sched _ _ _ _ _ _ K) as [[R _] _].
  rewrite (this_task_hd _ _ _ _ R). by apply (cur_unblock_locked idle).
Qed.

(** C19: While the running task holds the preemption lock no interrupt takes the
    processor from it: neither the end of its time slice, nor a post or a timeout
    that readies a task of higher priority. *)
Theorem lock_keeps_processor (k : ksys) (idle : Z) (es : list event) (o : list obs) (st : kst) (i : irq) (c : tcb_s) :
  fresh idle k -> system k idle es = Ok (o, st) -> tcbs (sch (ks st)) !! this_task (sch (ks st)) = Some c -> 0 < lockcount c -> irq_ok (ks st) i = true ->
  exists o' k', interrupt (ks st) i = Ok (o', k') /\ this_task (sch k') = this_task (sch (ks st)).
Proof.
  intros Fr E Hc Hl Hi. destruct (reached k idle es o st Fr E) as (H & T & L & G & Et). rewrite Et in Hc. destruct (ginv_cur _ _ _ _ _ _ _ G) as (Ec & _).
  rewrite Ec in Hc |- *. pose proof (gi_k _ _ _ _ _ _ _ G) as K. pose proof (ki_wf _ _ _ _ _ _ K) as W. pose proof (ki_sched _ _ _ _ _ _ K) as [[R _] _].
  assert (0 < locks T (cur L)) as Hlk by (unfold locks; by rewrite Hc). destruct i as [sem| |p]; simpl in Hi; b2p.
  - destruct (sem_addr_spec idle H T L _ (progs st) (ks st) G sem ltac:(done)) as [->|(Hs0 & n & En)]; [by eexists [], _|].
    pose proof (sem_room_spec idle H T L _ (progs st) (ks st) G sem n ltac:(done) En) as Hn. unfold interrupt.
    destruct (nxsem_post_spec H idle T L _ (ks st) sem n K Hs0 En Hn) as ([[ret sw] k'] & -> & -> & Hr). rewrite bind_Ok. eexists _, _. split; [done|].
    cbv zeta in Hr. destruct (0 <=? n).
    + destruct Hr as [_ K']. pose proof (ki_sched _ _ _ _ _ _ K') as [[R' _] _]. by rewrite (this_task_hd _ _ _ _ R').
    + destruct Hr as (x & l & _ & _ & Hw). by apply (woken_locked _ _ _ _ _ _ _ _ _ W Hlk Hw).
  - unfold interrupt. destruct (gi_slice _ _ _ _ _ _ _ G _ _ Hc) as [Hts Hrr].
    destruct (nxsched_cpu_scheduler_spec H idle T L (sch (ks st)) c) as ([sw s'] & -> & T' & L' & [[R' _] _] & _ & _ & El); [apply K|done|intros Er; split; [auto|lia]|].
    rewrite bind_Ok. eexists _, _. split; [done|]. simpl. rewrite (this_task_hd _ _ _ _ R'), El. unfold slice_ends.
    by rewrite (proj2 (Z.eqb_neq (lockcount c) 0)), !andb_false_r by lia.
  - apply negb_true_iff in Hi. b2p. unfold interrupt.
    destruct (nxsem_timeout_spec H idle T L _ (ks st) p K (gi_hash _ _ _ _ _ _ _ G) Hi) as ([sw k'] & -> & Hr). rewrite bind_Ok. eexists _, _. split; [done|].
    destruct Hr as [(x & n & _ & _ & _ & _ & Hw)|(_ & _ & ->)]; [by apply (woken_locked _ _ _ _ _ _ _ _ _ W Hlk Hw)|done].
Qed.

(** The task of priority 100 holds the lock while one of priority 120 waits. *)
Definition demo_locked : list event := demo_events ++ [Call CLock] ++ runs 1.

Lemma lock_keeps_processor_witness :
  exists o st, system demo_sys demo_idle demo_locked = Ok (o, st) /\
  exists o' k', interrupt (ks st) (IPost demo_sem) = Ok (o', k') /\ this_task (sch k') = this_task (sch (ks st)).
Proof.
  eexists _, _. split; [vm_compute; reflexivity|].
  eapply (lock_keeps_processor demo_sys demo_idle demo_locked); [exact demo_sys_fresh|vm_compute; reflexivity|vm_compute; reflexivity|reflexivity|reflexivity].
Defined.

(** ** Timeouts *)

(** The timeout of a wait ends that wait and no other, and gives back the unit
    the task was waiting to take; when the task runs again its wait returns
    ETIMEDOUT, with the value of errno from before the wait restored. *)
Theorem timeout_ends_wait (k : ksys) (idle : Z) (es : list event) (o : list obs) (st : kst) (x sem p c : Z) (t : tcb_s) :
  fresh idle k -> system k idle es = Ok (o, st) -> waits (sch (ks st)) x sem p -> tcbs (sch (ks st)) !! x = Some t -> sems (ks st) !! sem = Some c ->
  exists sw k', nxsem_timeout (ks st) (pid t) = Ok (sw, k') /\ sems k' = <[sem := c + 1]> (sems (ks st)) /\
    (forall y s q, waits (sch k') y s q <-> waits (sch (ks st)) y s q /\ y <> x) /\
    forall saved, exists k'' t'', nxsem_wait_end k' x saved = Ok (- ETIMEDOUT, k'') /\ tcbs (sch k'') !! x = Some t'' /\ pterrno t'' = saved.
Proof.
  intros Fr E Hwt Ht Ec. destruct (reached k idle es o st Fr E) as (H & T & L & G & Et). rewrite Et in Ht. pose proof (gi_k _ _ _ _ _ _ _ G) as K.
  pose proof (ki_wf _ _ _ _ _ _ K) as W. destruct (proj1 (kinv_waits H idle T L _ _ _ _ _ K) Hwt) as (Hx & Hw & _).
  assert (pid_of T x = pid t) as Hpid by (unfold pid_of; by rewrite Ht).
  assert (pid t <> 0) as H0 by (rewrite <- Hpid; apply (gi_pid _ _ _ _ _ _ _ G); [by eexists|by apply (wf_not_idle idle T L x waiting)]).
  destruct (nxsem_timeout_spec H idle T L _ (ks st) (pid t) K (gi_hash _ _ _ _ _ _ _ G) H0) as ([sw k'] & -> & [(z & n & Hz & Hzp & En & _ & Hwk)|(Hno & _)]); [|by destruct (Hno x Hx)].
  assert (z = x) as ->.
  { destruct (ho_pid _ _ _ (gi_hash _ _ _ _ _ _ _ G) z) as [_ E1]; [by apply (wf_in _ _ _ W waiting)|left; lia|].
    destruct (ho_pid _ _ _ (gi_hash _ _ _ _ _ _ _ G) x) as [_ E2]; [by apply (wf_in _ _ _ W waiting)|left; lia|]. rewrite Hzp in E1. rewrite Hpid in E2. congruence. }
  rewrite Hw in *. assert (n = c) as -> by congruence. destruct Hwk as (T' & K' & Kp & _). exists sw, k'. split; [done|]. split; [by apply K'|]. split.
  - intros y s q. rewrite (kinv_waits H idle _ _ _ _ _ _ _ K'), (kinv_waits H idle T L _ _ _ _ _ K), unblock_waiting, elem_of_lrem.
    rewrite (sees_wsem _ _ y (keeps_sees _ _ Kp)), (keeps_prio _ _ y Kp). unfold end_wait. rewrite !prio_alter by done.
    destruct (decide (y = x)) as [->|Hne]; [naive_solver|]. unfold wsem. rewrite !lookup_alter_ne by done. tauto.
  - intros saved. assert (terrno T' x = ETIMEDOUT) as Her.
    { rewrite (sees_terrno _ _ x (keeps_sees _ _ Kp)). unfold terrno, end_wait. by rewrite !lookup_alter, !decide_True, Ht by done. }
    assert (is_Some (T' !! x)) as [t' Ht'] by (apply (keeps_is_Some _ _ _ Kp); unfold end_wait; eauto with nx).
    destruct (nxsem_wait_end_spec H idle T' _ _ k' x saved K' ltac:(eauto)) as ([ret k''] & -> & -> & K''). rewrite Her.
    exists k'', (set_pterrno t' saved). split; [done|]. split; [|done]. pose proof (ki_sched _ _ _ _ _ _ K'') as [[R'' _] _].
    by rewrite (sr_tcbs _ _ _ _ R''), lookup_alter, decide_True, Ht' by done.
Qed.

Lemma timeout_ends_wait_witness :
  exists o st t, system demo_sys demo_idle demo_events = Ok (o, st) /\ tcbs (sch (ks st)) !! demo_b = Some t /\
  exists sw k', nxsem_timeout (ks st) (pid t) = Ok (sw, k') /\ sems k' = <[demo_sem := -1 + 1]> (sems (ks st)) /\
    (forall y s q, waits (sch k') y s q <-> waits (sch (ks st)) y s q /\ y <> demo_b) /\
    forall saved, exists k'' t'', nxsem_wait_end k' demo_b saved = Ok (- ETIMEDOUT, k'') /\ tcbs (sch k'') !! demo_b = Some t'' /\ pterrno t'' = saved.
Proof.
  eexists _, _, _. split; [vm_compute; reflexivity|]. split; [vm_compute; reflexivity|].
  eapply (timeout_ends_wait demo_sys demo_idle demo_events _ _ demo_b demo_sem 120);
    [exact demo_sys_fresh|vm_compute; reflexivity|eexists; split; [vm_compute; reflexivity|done]|vm_compute; reflexivity|reflexivity].
Defined.

(** ** Ranges *)

(** Tasks that are in the table of identifiers are not more than its entries. *)
Lemma hash_bound (H : list (Z * Z)) (l : list Z) : NoDup l -> (forall x, x ∈ l -> exists i p, H !! i = Some (x, p)) -> (length l <= length H)%nat.
Proof.
  intros Hnd Hl. rewrite <- (length_fmap fst H). apply submseteq_length, NoDup_submseteq; [done|]. intros x Hx.
  destruct (Hl x Hx) as (i & p & E). apply list_elem_of_fmap. exists (x, p). split; [done|]. by apply list_elem_of_lookup_2 in E.
Qed.

Section Ranges.
Context (idle : Z) (H : list (Z * Z)) (L : tasklist -> list Z) (S : gmap Z Z) (st : kst).
Abbreviation T := (tcbs (sch (ks st))).
Hypothesis (G : sys_inv idle H T L S st).

Lemma live_hash x t : T !! x = Some t -> task_state t <> TSTATE_TASK_INVALID ->
  (exists l, x ∈ L l) /\ 0 <= pid t <= 32767 /\ H !! Z.to_nat (PIDHASH (pid t)) = Some (x, pid t).
Proof.
  intros Ht Hst. pose proof (ki_wf _ _ _ _ _ _ (gi_k _ _ _ _ _ _ _ G)) as W.
  assert (exists l, x ∈ L l) as Hl by (apply (wf_all _ _ _ W); by rewrite <- (tstate_get _ _ _ Ht)). split; [done|].
  assert (pid_of T x = pid t) as <- by (unfold pid_of; by rewrite Ht). apply (ho_pid _ _ _ (gi_hash _ _ _ _ _ _ _ G)); [eauto|].
  destruct (decide (x = idle)) as [|Hi]; [by right|left]. by apply (gi_pid _ _ _ _ _ _ _ G).
Qed.

Lemma live_bound : count_tasks st (fun _ t => negb (bool_decide (task_state t = TSTATE_TASK_INVALID))) <= CONFIG_MAX_TASKS.
Proof.
  unfold count_tasks. rewrite <- (length_fmap fst). change CONFIG_MAX_TASKS with (Z.of_nat 16). rewrite <- (ho_len _ _ _ (gi_hash _ _ _ _ _ _ _ G)).
  apply inj_le, hash_bound.
  - apply (sublist_NoDup _ (map_to_list T).*1); [apply NoDup_fst_map_to_list|apply fmap_sublist, sublist_filter].
  - intros x ([y t] & -> & [Hf Ht%elem_of_map_to_list]%list_elem_of_filter)%list_elem_of_fmap. apply negb_true_iff, bool_decide_eq_false in Hf.
    destruct (live_hash y t Ht Hf) as (_ & _ & Hh). by eexists _, _.
Qed.

Lemma count_bound sem c : S !! sem = Some c -> 1 - CONFIG_MAX_TASKS <= c.
Proof.
  intros E. pose proof (gi_k _ _ _ _ _ _ _ G) as K. pose proof (ki_wf _ _ _ _ _ _ K) as W. pose proof (gi_hash _ _ _ _ _ _ _ G) as Ho.
  pose proof (so_count _ _ _ (ki_ok _ _ _ _ _ _ K) sem c E) as Hc. pose proof (waiters_length (wsem T) (L waiting) sem) as Hw.
  assert (length (idle :: L waiting) <= length H)%nat as Hl; [|rewrite (ho_len _ _ _ Ho) in Hl; simpl in Hl; change CONFIG_MAX_TASKS with 16; lia].
  apply hash_bound.
  - constructor; [|by apply W]. intros Hi. by apply (wf_not_idle idle T L idle waiting W Hi).
  - intros x [->|Hx]%elem_of_cons.
    + eexists _, _. apply (ho_pid _ _ _ Ho idle); [|by right]. apply (wf_in _ _ _ W g_readytorun), last_Some_elem_of, W.
    + eexists _, _. apply (ho_pid _ _ _ Ho x); [by apply (wf_in _ _ _ W waiting)|left].
      apply (gi_pid _ _ _ _ _ _ _ G); [by exists waiting|by apply (wf_not_idle idle T L x waiting)].
Qed.
End Ranges.

(** C34: Along every run that keeps the callers' promises the fields of the tasks stay
    in the range that the code assumes: a task that has been created has a priority
    between 1 and 255 (0 for the idle task), a lock count that is not negative, a slice
    of at most 200 ticks, and an identifier of [pid_t] that no other task has; there
    are never more than CONFIG_MAX_TASKS of them, and so the count of a semaphore never
    falls below 1 - CONFIG_MAX_TASKS.  The promises are those of [kernel_promise]; of
    these bounds they contain only that a task is created with a priority in range. *)
Theorem fields_in_range (k : ksys) (idle : Z) (es : list event) (o : list obs) (st : kst) :
  fresh idle k -> kernel_promise k idle es = true -> kernel k idle es = Ok (o, st) ->
  (forall x t, tcbs (sch (ks st)) !! x = Some t -> task_state t <> TSTATE_TASK_INVALID ->
     (if x =? idle then sched_priority t = 0 else 1 <= sched_priority t <= 255) /\ 0 <= lockcount t /\ 0 <= timeslice t <= 200 /\
     0 <= pid t <= 32767 /\ forall y u, tcbs (sch (ks st)) !! y = Some u -> task_state u <> TSTATE_TASK_INVALID -> pid u = pid t -> y = x) /\
  count_tasks st (fun _ t => negb (bool_decide (task_state t = TSTATE_TASK_INVALID))) <= CONFIG_MAX_TASKS /\
  forall sem c, sems (ks st) !! sem = Some c -> 1 - CONFIG_MAX_TASKS <= c.
Proof.
  intros Fr Hp E. rewrite (promised_system k idle es Hp) in E. destruct (reached k idle es o st Fr E) as (H & T & L & G & Et). subst T.
  pose proof (live_hash idle H L _ st G) as Hh. split; [|split; [by apply (live_bound idle H L _ st G)|by apply (count_bound idle H L _ st G)]].
  pose proof (ki_wf _ _ _ _ _ _ (gi_k _ _ _ _ _ _ _ G)) as W. set (T := tcbs (sch (ks st))) in *.
  intros x t Ht Hst. destruct (Hh x t Ht Hst) as ([l Hx] & Hpid & E2). split_and!; try apply (lockcount_range idle T L x t W Ht); try apply (gi_slice _ _ _ _ _ _ _ G x t Ht); try done; try lia.
  - assert (prio T x = sched_priority t) as Ep by (unfold prio; by rewrite Ht). rewrite <- Ep.
    destruct (x =? idle) eqn:Ei; b2p; [subst x; by apply W|]. by apply (wf_prio _ _ _ W l).
  - intros y u Hu Hsu Ep. destruct (Hh y u Hu Hsu) as (_ & _ & E1). rewrite Ep in E1. congruence.
Qed.

Lemma fields_in_range_witness :
  exists o st, kernel demo_sys demo_idle demo_events = Ok (o, st) /\
  (forall x t, tcbs (sch (ks st)) !! x = Some t -> task_state t <> TSTATE_TASK_INVALID -> 0 <= timeslice t <= 200) /\
  count_tasks st (fun _ t => negb (bool_decide (task_state t = TSTATE_TASK_INVALID))) <= CONFIG_MAX_TASKS /\
  forall sem c, sems (ks st) !! sem = Some c -> 1 - CONFIG_MAX_TASKS <= c.
Proof.
  destruct (kernel demo_sys demo_idle demo_events) as [[o st]|] eqn:E; [|exfalso; vm_compute in E; discriminate].
  destruct (fields_in_range demo_sys demo_idle demo_events o st demo_sys_fresh ltac:(vm_compute; reflexivity) E) as (Ht & Hn & Hc).
  exists o, st. split_and!; [reflexivity| |exact Hn|exact Hc]. intros x t Hx Hs. by destruct (Ht x t Hx Hs) as (_ & _ & ? & _).
Defined.
