(* ===== verification/SchedProps.v ===== *)
(** * Properties of single operations of the scheduler and of semaphores

    Statements about one call in any state that satisfies the invariant: the order
    in which tasks wait, time slices, the merge of the pending tasks compared with
    readying them one by one, identifiers of tasks, and the reset of a semaphore. *)

From stdpp Require Import functions.
From S2P Require Import Prelude Bits Links Queue Sched SchedRep SchedInv SchedOps SchedCalls SchedPrio.
From S2P Require Import Sem SemOps Task TaskOps Kern KernInv KernActs KernRun KernProps.
Import Dq.
Local Open Scope Z_scope.

(** ** Merging pending tasks *)

(** What a remark in [sched_mergepending] asks: remove each pending task and call
    [sched_addreadytorun]. *)
Fixpoint ready_each (n : nat) (s : sched) : res sched :=
  match n with
  | O => Ok s
  | S n =>
      let p := dq_head (lists s g_pendingtasks) in
      if p =? 0 then Ok s
      else
        s ← sched_removeblocked s p;
        '(_, s) ← sched_addreadytorun s p;
        ready_each n s
  end.

Section Merge.
Context (H : list (Z * Z)) (idle : Z).

(** The lists determine the states. *)
Lemma states_unique T T1 T2 L : wf idle T1 L -> wf idle T2 L -> keeps T T1 -> keeps T T2 -> T1 = T2.
Proof.
  intros W1 W2 K1 K2. assert (forall x, tstate T1 x = tstate T2 x) as Et.
  { intros x. destruct (decide (tstate T1 x = TSTATE_TASK_INVALID)) as [E1|E1].
    - destruct (decide (tstate T2 x = TSTATE_TASK_INVALID)) as [->|E2]; [done|]. destruct (wf_all _ _ _ W2 x E2) as [l Hl]. by apply (wf_invalid _ _ _ _ W1 E1) in Hl.
    - destruct (wf_all _ _ _ W1 x E1) as [l Hl]. by rewrite (wf_state _ _ _ W1 l x Hl), (wf_state _ _ _ W2 l x Hl). }
  assert (keeps T1 T2) as K by (trans T; [by symmetry|done]). apply map_eq. intros x. specialize (Et x). unfold tstate in Et.
  unfold keeps in K. apply (f_equal (lookup x)) in K. rewrite !lookup_fmap in K.
  destruct (T1 !! x) as [t1|], (T2 !! x) as [t2|]; try done. apply (inj Some) in K. f_equal. destruct t1, t2. unfold set_state in K. simpl in *. congruence.
Qed.

Lemma ready_each_spec n T L s :
  good H idle T L s -> (forall x, x ∈ cur L :: L g_pendingtasks -> locks T x = 0) -> (length (L g_pendingtasks) <= n)%nat ->
  returns (ready_each n s) (fun s' => exists T', good H idle T' (merged T L) s' /\ keeps T T').
Proof.
  revert T L s. induction n as [|n IH]; intros T L s G Hl Hn.
  - destruct (L g_pendingtasks) eqn:E; [|simpl in Hn; lia]. apply returns_Ok. exists T. split; [|done].
    apply (good_ext H idle T L); [|done]. unfold merged. rewrite E. by intros [].
  - simpl. destruct (L g_pendingtasks) as [|p P] eqn:E.
    + pose proof G as [R _]. rewrite (dqr_head _ _ _ (sr_q _ _ _ _ R g_pendingtasks)), E. simpl. apply returns_Ok. exists T. split; [|done].
      apply (good_ext H idle T L); [|done]. unfold merged. rewrite E. by intros [].
    + pose proof G as [R W]. assert (p ∈ L g_pendingtasks) as Hp by (rewrite E; set_solver).
      rewrite (dqr_head _ _ _ (sr_q _ _ _ _ R g_pendingtasks)), E. simpl hd.
      rewrite (proj2 (Z.eqb_neq p 0)) by (apply (sr_node _ _ _ _ R); by apply (wf_in _ _ _ W g_pendingtasks)).
      assert (p <> idle) as Hi by (by apply (wf_not_idle idle T L p g_pendingtasks)).
      eapply returns_bind; [by apply (sched_removeblocked_spec H idle T L s p g_pendingtasks)|]. intros s1 (T1 & G1 & K1 & E1).
      set (L1 := <[g_pendingtasks := _]> L) in *.
      assert (lrem p (L g_pendingtasks) = P) as Er by (rewrite E; apply (lrem_split p [] P); rewrite <- E; apply W).
      eapply returns_bind.
      { apply (sched_addreadytorun_spec H idle T1 L1 s1 p G1); [|done|].
        - apply (keeps_is_Some _ _ _ K1). by apply (wf_in _ _ _ W g_pendingtasks).
        - rewrite (keeps_prio _ _ _ K1). by apply (wf_prio _ _ _ W g_pendingtasks). }
      intros [r s2] (T2 & G2 & K2 & _). assert (keeps T T2) as K by (by trans T1).
      assert (ready_add T1 L1 p = <[g_readytorun := pinsert T p (L g_readytorun)]> L1) as Ea.
      { rewrite (ready_add_ext _ _ _ _ K1). unfold ready_add. rewrite Hl; [done|]. unfold L1. rewrite cur_insert by done. left. }
      rewrite Ea in G2. eapply returns_impl; [apply (IH T2 _ s2 G2)|].
      * intros x Hx. rewrite (keeps_locks _ _ _ K). apply Hl. unfold L1 in Hx. rewrite fn_lookup_insert_ne, fn_lookup_insert, Er in Hx by done.
        apply elem_of_cons in Hx as [->|Hx]; [|right; by right]. unfold cur at 1. rewrite fn_lookup_insert.
        destruct (wf_cur _ _ _ W) as [r0 Ec]. rewrite Ec at 1. simpl. destruct (_ <=? _); simpl; [left|right; left].
      * unfold L1. rewrite fn_lookup_insert_ne, fn_lookup_insert, Er by done. simpl in Hn. lia.
      * intros s3 (T3 & G3 & K3). exists T3. split; [|by trans T2].
        apply (good_ext H idle T3 (merged T2 (<[g_readytorun := pinsert T p (L g_readytorun)]> L1))); [|done].
        unfold merged, L1. rewrite Er, E. intros k. rewrite (pmerge_ext T T2) by (intros; by apply keeps_prio). by destruct k.
Qed.
End Merge.

(** C18: Merging the pending tasks into the ready list in one pass has the result of
    taking them from the list of pending tasks and readying them one by one: the
    same lists in the same order, and the same states.  This is for the case in which
    [sched_unlock] merges: neither the running task nor a pending one holds the
    preemption lock, which would keep tasks pending when they are readied one by one. *)
Theorem mergepending_readies_each (H : list (Z * Z)) (idle : Z) (T : gmap Z tcb_s) (L : tasklist -> list Z) (s : sched) :
  good H idle T L s -> (forall x, x ∈ cur L :: L g_pendingtasks -> locks T x = 0) ->
  exists r s1 s2 T' L', sched_mergepending s = Ok (r, s1) /\ ready_each (length (L g_pendingtasks)) s = Ok s2 /\
    good H idle T' L' s1 /\ good H idle T' L' s2 /\ L' g_pendingtasks = [].
Proof.
  intros G Hl. destruct (sched_mergepending_spec H idle T L s G) as ([r s1] & E1 & T1 & G1 & K1 & _).
  destruct (ready_each_spec H idle (length (L g_pendingtasks)) T L s G Hl ltac:(lia)) as (s2 & E2 & T2 & G2 & K2).
  assert (T2 = T1) as -> by (apply (states_unique idle T T2 T1 (merged T L)); [apply G2|apply G1|done|done]).
  by exists r, s1, s2, T1, (merged T L).
Qed.

(** The task of priority 120 has been readied while the other one holds the lock. *)
Definition demo_pending : list event := demo_locked ++ [Irq (IPost demo_sem)].

Definition demo_pending_state : kst :=
  Eval vm_compute in match system demo_sys demo_idle demo_pending with Ok (_, st) => st | _ => mk_kst demo_sys ∅ end.

Lemma demo_pending_run : exists o, system demo_sys demo_idle demo_pending = Ok (o, demo_pending_state).
Proof. eexists. vm_compute. reflexivity. Qed.

Lemma demo_pending_tcbs :
  map_Forall (fun x t => x = demo_a \/ lockcount t = 0) (tcbs (sch (ks demo_pending_state))) /\
  is_Some (tcbs (sch (ks demo_pending_state)) !! demo_a) /\
  exists t, tcbs (sch (ks demo_pending_state)) !! demo_b = Some t /\ task_state t = TSTATE_TASK_PENDING.
Proof.
  split; [apply (bool_decide_unpack _); by vm_compute|]. split; [by vm_compute; eexists|]. eexists. split; [vm_compute; reflexivity|done].
Qed.

(** The same with the lock given back, as [sched_unlock] finds it. *)
Lemma demo_merge_state :
  exists H T L s, good H demo_idle T L s /\ (forall x, locks T x = 0) /\ demo_b ∈ L g_pendingtasks.
Proof.
  destruct demo_pending_run as [o E]. destruct (reached demo_sys demo_idle demo_pending o demo_pending_state demo_sys_fresh E) as (H & T & L & G & Et).
  pose proof demo_pending_tcbs as (Hf & Ha & t & Ht & Hst). rewrite Et in Hf, Ha, Ht. clear E Et.
  pose proof (sys_sinv _ _ _ _ _ _ G) as [[R W] _]. set (T' := alter (fun t => set_lockcount t 0) demo_a T).
  destruct (field_in_place H demo_idle T L _ demo_a (fun t => set_lockcount t 0) R W Ha) as (s' & _ & G'); [done|done|intros; simpl; lia|].
  exists H, T', L, s'. split; [exact G'|]. split.
  - intros x. unfold locks, T'. rewrite lookup_alter. destruct (decide (demo_a = x)) as [<-|Hne].
    + destruct Ha as [u Hu]. by rewrite Hu.
    + destruct (T !! x) as [u|] eqn:Eu; [|done]. destruct (Hf x u Eu) as [->|?]; done.
  - destruct (state_list _ _ _ _ _ _ G demo_b t Ht) as [E|(l & Hl & E)]; [congruence|]. rewrite Hst in E. destruct l; try done. simpl in E. by case_decide.
Qed.

Lemma mergepending_readies_each_witness :
  exists (H : list (Z * Z)) (L : tasklist -> list Z) (s : sched), demo_b ∈ L g_pendingtasks /\
  exists r s1 s2 T' L', sched_mergepending s = Ok (r, s1) /\ ready_each (length (L g_pendingtasks)) s = Ok s2 /\
    good H demo_idle T' L' s1 /\ good H demo_idle T' L' s2 /\ L' g_pendingtasks = [].
Proof.
  destruct demo_merge_state as (H & T & L & s & G & Hl & Hb). exists H, L, s. split; [exact Hb|].
  exact (mergepending_readies_each H demo_idle T L s G (fun x _ => Hl x)).
Defined.

(** ** Time slices *)

(** The timer tick takes the processor from a task only if the task is scheduled
    round robin, has used up its slice and does not hold the preemption lock; it then
    goes behind the ready tasks of its own priority, in front of those of a lower one,
    and has a whole slice for its next turn.  A task scheduled FIFO is left alone. *)
Theorem tick_slices_round_robin (H : list (Z * Z)) (idle : Z) (T : gmap Z tcb_s) (L : tasklist -> list Z) (s : sched) (t : tcb_s) :
  sinv H idle T L s -> T !! cur L = Some t -> (is_rr t = true -> cur L <> idle /\ 0 <= timeslice t < 2 ^ 31) ->
  exists sw s' T' L', nxsched_cpu_scheduler s = Ok (sw, s') /\ sinv H idle T' L' s' /\
    (forall l, l <> g_readytorun -> L' l = L l) /\
    if is_rr t && (timeslice t <=? 1) && (lockcount t =? 0)
    then L' g_readytorun = pinsert T (cur L) (lrem (cur L) (L g_readytorun)) /\ exists u, T' !! cur L = Some u /\ timeslice u = 200
    else L' g_readytorun = L g_readytorun.
Proof.
  intros S Ht Hrr. destruct (nxsched_cpu_scheduler_spec H idle T L s t S Ht Hrr) as ([sw s'] & E & T' & L' & S' & K & _ & El).
  exists sw, s', T', L'. split; [done|]. split; [done|]. unfold slice_ends in El. rewrite andb_assoc in El. split.
  - intros l Hl. rewrite El. destruct (is_rr t && (timeslice t <=? 1) && (lockcount t =? 0)); [|done]. unfold rr_lists. by rewrite fn_lookup_insert_ne.
  - rewrite El. destruct (is_rr t && (timeslice t <=? 1) && (lockcount t =? 0)) eqn:Eb; [|done]. split; [unfold rr_lists; by rewrite fn_lookup_insert|].
    apply andb_true_iff in Eb as [[E1 E2]%andb_true_iff E3]. rewrite E1 in K. destruct (keeps_lookup _ _ (cur L) (set_timeslice t (new_slice t)) K) as (u & Hu & Eu).
    + by rewrite lookup_alter, decide_True, Ht by done.
    + exists u. split; [done|]. apply (f_equal timeslice) in Eu. simpl in Eu. rewrite Eu. unfold new_slice, slice_ends.
      by rewrite E2, E3.
Qed.

(** Two tasks of priority 100 scheduled round robin, the first one on its last tick. *)
Definition demo_slices : list event :=
  [Call (CCreate demo_a 100 0)] ++ runs 9 ++ [Call (CSetscheduler 0 SCHED_RR 100)] ++ runs 6 ++ [Call (CCreate demo_b 100 0)] ++ runs 9 ++ repeat (Irq ITick) 199.

Definition demo_slices_state : kst :=
  Eval vm_compute in match system demo_sys demo_idle demo_slices with Ok (_, st) => st | _ => mk_kst demo_sys ∅ end.

Lemma demo_slices_inv :
  exists H T L t, sinv H demo_idle T L (sch (ks demo_slices_state)) /\ T !! cur L = Some t /\
    is_rr t = true /\ timeslice t = 1 /\ lockcount t = 0 /\ cur L <> demo_idle.
Proof.
  assert (exists o, system demo_sys demo_idle demo_slices = Ok (o, demo_slices_state)) as [o E] by (eexists; vm_compute; reflexivity).
  destruct (reached demo_sys demo_idle demo_slices o demo_slices_state demo_sys_fresh E) as (H & T & L & G & Et).
  destruct (ginv_cur _ _ _ _ _ _ _ G) as (Ec & _). clear E.
  assert (this_task (sch (ks demo_slices_state)) = demo_a) as Ea by reflexivity. rewrite Ea in Ec.
  assert (exists t, tcbs (sch (ks demo_slices_state)) !! demo_a = Some t /\ is_rr t = true /\ timeslice t = 1 /\ lockcount t = 0) as (t & Ht & Hr)
    by (eexists; split; [vm_compute; reflexivity|done]).
  rewrite Et in Ht. exists H, T, L, t. split; [apply G|]. rewrite <- Ec. split; [done|]. split_and!; try apply Hr. done.
Qed.

Lemma tick_slices_round_robin_witness :
  exists (H : list (Z * Z)) (T : gmap Z tcb_s) (L : tasklist -> list Z) sw s' T' L',
    nxsched_cpu_scheduler (sch (ks demo_slices_state)) = Ok (sw, s') /\ sinv H demo_idle T' L' s' /\
    (forall l, l <> g_readytorun -> L' l = L l) /\
    L' g_readytorun = pinsert T (cur L) (lrem (cur L) (L g_readytorun)).
Proof.
  destruct demo_slices_inv as (H & T & L & t & S & Ht & E1 & E2 & E3 & Hi). exists H, T, L.
  destruct (tick_slices_round_robin H demo_idle T L _ t S Ht) as (sw & s' & T' & L' & E & S' & Hl & Hr).
  - intros _. split; [exact Hi|rewrite E2; lia].
  - rewrite E1, E2, E3 in Hr. destruct Hr as [Hr _]. exists sw, s', T', L'. auto.
Defined.

(** ** Waiting in order *)

(** A task that takes a semaphore with no unit left is put behind the waiting
    tasks of the same or a higher priority and in front of those of a lower one, its
    errno is saved, and the processor goes to the next task; with a unit left it is
    taken at once. *)
Theorem wait_in_order (H : list (Z * Z)) (idle : Z) (T : gmap Z tcb_s) (L : tasklist -> list Z) (S : gmap Z Z) (k : ksys) (sem c : Z) :
  kinv H idle T L S k -> sem <> 0 -> S !! sem = Some c -> cur L <> idle ->
  exists o k' T' L', nxsem_wait k sem = Ok (o, k') /\ kinv H idle T' L' (<[sem := c - 1]> S) k' /\
    if 0 <? c then o = Done OK /\ L' = L
    else o = Block (terrno T (cur L)) /\ L' waiting = pinsert T (cur L) (L waiting) /\ wsem T' (cur L) = sem /\
      L' g_readytorun = pmerge T (lrem (cur L) (L g_readytorun)) (L g_pendingtasks).
Proof.
  intros K H0 E Hi. destruct (nxsem_wait_spec H idle T L S k sem c K H0 E Hi) as ([o k'] & Ew & Hr). destruct (0 <? c).
  - destruct Hr as [-> K']. by exists (Done OK), k', T, L.
  - destruct Hr as (-> & T' & K' & Kp). exists (Block (terrno T (cur L))), k', T', (block_lists T L (cur L) waiting). split_and!; try done.
    destruct (kinv_cur H idle T L S k K) as (_ & [t Ht] & _). rewrite (sees_wsem _ _ _ (keeps_sees _ _ Kp)). unfold wsem, begin_wait.
    by rewrite !lookup_alter, !decide_True, Ht by done.
Qed.

Lemma demo_slices_kinv : exists H T L S, kinv H demo_idle T L S (ks demo_slices_state) /\ S !! demo_sem = Some 1 /\ cur L <> demo_idle.
Proof.
  assert (exists o, system demo_sys demo_idle demo_slices = Ok (o, demo_slices_state)) as [o E] by (eexists; vm_compute; reflexivity).
  destruct (reached demo_sys demo_idle demo_slices o demo_slices_state demo_sys_fresh E) as (H & T & L & G & Et).
  destruct (ginv_cur _ _ _ _ _ _ _ G) as (Ec & _). exists H, T, L, (sems (ks demo_slices_state)). split; [apply G|]. split; [reflexivity|].
  rewrite <- Ec. done.
Qed.

Lemma wait_in_order_witness :
  exists (H : list (Z * Z)) (S : gmap Z Z) o k' T' L', nxsem_wait (ks demo_slices_state) demo_sem = Ok (o, k') /\
    kinv H demo_idle T' L' (<[demo_sem := 1 - 1]> S) k' /\ o = Done OK.
Proof.
  destruct demo_slices_kinv as (H & T & L & S & K & E & Hi). exists H, S.
  destruct (wait_in_order H demo_idle T L S _ demo_sem 1 K ltac:(discriminate) E Hi) as (o & k' & T' & L' & Ew & K' & Ho & _).
  exists o, k', T', L'. auto.
Defined.

(** ** Identifiers *)

(** The identifier that is tried after [l]. *)
Definition nextp (l : Z) : Z := if s16 (l + 1) <=? 0 then 1 else s16 (l + 1).

Lemma nextp_eq l : 0 <= l <= 32767 -> nextp l = if l =? 32767 then 1 else l + 1.
Proof.
  intros Hl. unfold nextp. destruct (l =? 32767) eqn:E; b2p; [by subst|]. rewrite s16_fits by lia. by rewrite (proj2 (Z.leb_gt (l + 1) 0)) by lia.
Qed.

Lemma iter_nextp n l : 0 <= l -> l + Z.of_nat n <= 32767 -> Nat.iter n nextp l = l + Z.of_nat n.
Proof.
  intros Hl. induction n as [|n IH]; intros Hn; [simpl; lia|]. change (Nat.iter (Datatypes.S n) nextp l) with (nextp (Nat.iter n nextp l)). rewrite IH by lia.
  rewrite nextp_eq by lia. rewrite (proj2 (Z.eqb_neq (l + Z.of_nat n) 32767)) by lia. lia.
Qed.

Lemma iter_add m n l : Nat.iter (m + n) nextp l = Nat.iter m nextp (Nat.iter n nextp l).
Proof. induction m as [|m IH]; [done|]. change (Nat.iter (Datatypes.S m + n) nextp l) with (nextp (Nat.iter (m + n) nextp l)). by rewrite IH. Qed.

(** Sixteen tries in a row see every slot but that of the idle task. *)
Lemma pid_visits l i : 0 <= l <= 32767 -> 1 <= i <= 15 -> exists j, (j < 16)%nat /\ PIDHASH (Nat.iter (Datatypes.S j) nextp l) = i.
Proof.
  intros Hl Hi. set (d := (i - l - 1) mod 16 + 1). assert (1 <= d <= 16) as Hd by (unfold d; pose proof (Z.mod_pos_bound (i - l - 1) 16); lia).
  destruct (decide (l + d <= 32767)) as [Hle|Hgt].
  - exists (Z.to_nat (d - 1)). split; [lia|]. replace (Datatypes.S (Z.to_nat (d - 1))) with (Z.to_nat d) by lia.
    rewrite iter_nextp, Z2Nat.id, PIDHASH_mod by lia. unfold d. replace (l + ((i - l - 1) mod 16 + 1)) with (l + 1 + (i - l - 1) mod 16) by lia.
    rewrite Z.add_mod_idemp_r by lia. replace (l + 1 + (i - l - 1)) with i by lia. apply Z.mod_small. lia.
  - set (r := 32767 - l). assert (r + i < 16 + 1) as Hri.
    { unfold d in Hgt, Hd. pose proof (Z.div_mod (i - l - 1) 16 ltac:(lia)). unfold r. lia. }
    exists (Z.to_nat (i - 1) + Z.to_nat r)%nat. split; [lia|].
    replace (Datatypes.S (Z.to_nat (i - 1) + Z.to_nat r)) with (Z.to_nat (i - 1) + Datatypes.S (Z.to_nat r))%nat by lia.
    rewrite iter_add. change (Nat.iter (Datatypes.S (Z.to_nat r)) nextp l) with (nextp (Nat.iter (Z.to_nat r) nextp l)).
    rewrite (iter_nextp (Z.to_nat r)) by lia. rewrite nextp_eq by lia. rewrite (proj2 (Z.eqb_eq _ 32767)) by lia.
    rewrite iter_nextp by lia. rewrite PIDHASH_mod. replace (1 + Z.of_nat (Z.to_nat (i - 1))) with i by lia. apply Z.mod_small. lia.
Qed.

Section Pids.
Context (H : list (Z * Z)) (idle : Z) (T : gmap Z tcb_s) (L : tasklist -> list Z) (S : gmap Z Z).
Hypothesis (Ho : hash_ok H idle T).

(** One try. *)
Lemma assignpid_try n k x :
  kinv H idle T L S k -> unborn idle T x -> exists ht hp, H !! Z.to_nat (PIDHASH (nextp (g_lastpid k))) = Some (ht, hp) /\
    (ht = 0 -> exists k', assignpid_loop (Datatypes.S n) k x = Ok (OK, k')) /\
    (ht <> 0 -> assignpid_loop (Datatypes.S n) k x = assignpid_loop n (set_lastpid k (nextp (g_lastpid k))) x).
Proof.
  intros K (t & Ht & _). pose proof (ki_sched _ _ _ _ _ _ K) as [[R _] _]. pose proof (PIDHASH_range (nextp (g_lastpid k))) as Hr.
  destruct (lookup_lt_is_Some_2 H (Z.to_nat (PIDHASH (nextp (g_lastpid k))))) as [[ht hp] E]; [rewrite (ho_len _ _ _ Ho); lia|].
  exists ht, hp. split; [done|]. simpl. fold (nextp (g_lastpid k)). unfold array_get. rewrite (sr_hash _ _ _ _ R), E, bind_Ok. split.
  - intros ->. unfold array_set. rewrite (proj2 (Nat.ltb_lt _ _)) by (by apply lookup_lt_Some in E). simpl. unfold ktupd, tupd, tget. simpl.
    rewrite (proj2 (Z.eqb_neq x 0)) by (apply (sr_node _ _ _ _ R); eauto). rewrite (sr_tcbs _ _ _ _ R), Ht. simpl. eauto.
  - intros H0. by rewrite (proj2 (Z.eqb_neq ht 0)).
Qed.

Lemma assignpid_finds n k x j hp :
  kinv H idle T L S k -> unborn idle T x -> (j < n)%nat -> H !! Z.to_nat (PIDHASH (Nat.iter (Datatypes.S j) nextp (g_lastpid k))) = Some (0, hp) ->
  exists k', assignpid_loop n k x = Ok (OK, k').
Proof.
  revert k j. induction n as [|n IH]; intros k j K Hx Hj E; [lia|].
  destruct (assignpid_try n k x K Hx) as (ht & hq & Et & H1 & H2). destruct (decide (ht = 0)) as [->|Hne]; [by apply H1|]. rewrite H2 by done.
  destruct j as [|j]; [simpl in E; congruence|]. apply (IH _ j); [|done|lia|].
  - destruct K as [K1 K2 K3 K4 K5]. split; try done. simpl. pose proof (next_pid_range _ K5). unfold nextp. lia.
  - cbn [set_lastpid g_lastpid]. replace (Datatypes.S (Datatypes.S j)) with (Datatypes.S j + 1)%nat in E by lia. rewrite iter_add in E. exact E.
Qed.

Lemma assignpid_full n k x k' :
  kinv H idle T L S k -> unborn idle T x -> assignpid_loop n k x = Ok (OK, k') -> exists i hp, H !! i = Some (0, hp).
Proof.
  revert k. induction n as [|n IH]; intros k K Hx; [by simpl|].
  destruct (assignpid_try n k x K Hx) as (ht & hq & Et & H1 & H2). destruct (decide (ht = 0)) as [->|Hne]; [eauto|]. rewrite H2 by done. apply IH; [|done].
  destruct K as [K1 K2 K3 K4 K5]. split; try done. simpl. pose proof (next_pid_range _ K5). unfold nextp. lia.
Qed.
End Pids.

Lemma existsb_free (H : list (Z * Z)) : existsb (fun e => fst e =? 0) H = true <-> exists i hp, H !! i = Some (0, hp).
Proof.
  rewrite existsb_exists. split.
  - intros ([h hp] & Hin & E). simpl in E. b2p. subst h. apply list_elem_of_In, list_elem_of_lookup in Hin as [i Hi]. eauto.
  - intros (i & hp & E). exists (0, hp). split; [|done]. apply list_elem_of_In. by apply list_elem_of_lookup_2 in E.
Qed.

(** A new task gets an identifier whenever the table has a free slot, within
    sixteen tries and also when the identifiers wrap around; the identifier is
    between 1 and 32767, no other task has it, and looking it up then gives the new
    task.  With no free slot the call fails and changes no task. *)
Theorem assignpid_unique (H : list (Z * Z)) (idle : Z) (T : gmap Z tcb_s) (L : tasklist -> list Z) (S : gmap Z Z) (k : ksys) (x : Z) :
  kinv H idle T L S k -> hash_ok H idle T -> unborn idle T x -> pid_of T idle = 0 ->
  exists ret k', nxtask_assignpid k x = Ok (ret, k') /\
    if existsb (fun e => fst e =? 0) H then
      exists p, ret = OK /\ 1 <= p <= 32767 /\ tcbs (sch k') = alter (fun t => set_pid t p) x T /\
        (forall y, is_Some (T !! y) -> y <> x -> pid_of T y <> p) /\ sched_gettcb (sch k') p = Ok x
    else ret = ERROR /\ tcbs (sch k') = T.
Proof.
  intros K Ho Hx Hid. destruct (assignpid_loop_spec idle (Z.to_nat CONFIG_MAX_TASKS) H T L S k x K Ho Hx Hid) as ([ret k'] & E & Hr).
  exists ret, k'. split; [done|]. pose proof (ki_sched _ _ _ _ _ _ K) as [[R W] _]. pose proof Hx as (t & Ht & _ & _ & Hi).
  destruct (existsb (fun e => fst e =? 0) H) eqn:Ef.
  - apply existsb_free in Ef as (i & hp & Ei). assert (i < 16)%nat as Hi16 by (apply lookup_lt_Some in Ei; by rewrite (ho_len _ _ _ Ho) in Ei).
    assert (is_Some (T !! idle)) as Hsi by (apply (wf_in _ _ _ W g_readytorun), (wf_idle_in _ _ _ W)).
    assert (i <> 0%nat) as Hi0.
    { intros ->. destruct (ho_pid _ _ _ Ho idle Hsi ltac:(by right)) as [_ E0]. rewrite Hid in E0. change (Z.to_nat (PIDHASH 0)) with 0%nat in E0.
      assert (idle <> 0) by (by apply (sr_node _ _ _ _ R)). congruence. }
    destruct (pid_visits (g_lastpid k) (Z.of_nat i) (ki_last _ _ _ _ _ _ K) ltac:(lia)) as (j & Hj & Ej).
    destruct (assignpid_finds H idle T L S Ho 16 k x j hp K Hx Hj) as [k2 E2]; [by rewrite Ej, Nat2Z.id|].
    change (Z.to_nat CONFIG_MAX_TASKS) with 16%nat in E. rewrite E2 in E. injection E as <- <-.
    destruct Hr as [(H' & p & _ & Hp & K' & Ho')|[? _]]; [|done]. exists p. pose proof (ki_sched _ _ _ _ _ _ K') as [[R' _] _].
    assert (pid_of (alter (λ t, set_pid t p) x T) x = p) as Ep by (unfold pid_of; by rewrite lookup_alter, decide_True, Ht by done).
    split_and!; try done; try lia; [by apply (sr_tcbs _ _ _ _ R')| |].
    + intros y Hy Hne Epy. assert (pid_of (alter (λ t, set_pid t p) x T) y = p) as Ey by (unfold pid_of in *; by rewrite lookup_alter_ne).
      destruct (ho_pid _ _ _ Ho' y) as [_ E3]; [eauto with nx|left; rewrite Ey; lia|].
      destruct (ho_pid _ _ _ Ho' x) as [_ E4]; [eauto with nx|left; rewrite Ep; lia|]. rewrite Ey in E3. rewrite Ep in E4. congruence.
    + destruct (sched_gettcb_spec H' idle _ L (sch k2) p R' Ho') as (z & -> & _ & Hz). f_equal. apply Hz; [eauto with nx|done|left; lia].
  - destruct Hr as [(H' & p & -> & _)|[-> K']].
    + exfalso. destruct (assignpid_full H idle T L S Ho _ k x k' K Hx E) as (i & hp & Ei).
      assert (existsb (fun e => fst e =? 0) H = true) by (apply existsb_free; eauto). congruence.
    + split; [done|]. pose proof (ki_sched _ _ _ _ _ _ K') as [[R' _] _]. by apply (sr_tcbs _ _ _ _ R').
Qed.

(** At start-up, for the first task. *)
Lemma assignpid_unique_witness :
  exists ret k k', nx_start demo_sys demo_idle = Ok k /\ nxtask_assignpid k demo_a = Ok (ret, k') /\
    exists p, ret = OK /\ 1 <= p <= 32767 /\ sched_gettcb (sch k') p = Ok demo_a.
Proof.
  destruct (nx_start_inv demo_idle demo_sys demo_sys_fresh) as (k & E & G). pose proof (gi_k _ _ _ _ _ _ _ G) as K.
  destruct (assignpid_unique _ demo_idle _ _ _ k demo_a K (gi_hash _ _ _ _ _ _ _ G)) as (ret & k' & E' & p & Hr & Hp & _ & _ & Hg).
  - exists zero_tcb. split; [vm_compute; reflexivity|]. split; [reflexivity|]. split; [reflexivity|discriminate].
  - exact (gi_idle _ _ _ _ _ _ _ G).
  - exists ret, k, k'. split; [exact E|]. split; [exact E'|]. exists p. auto.
Defined.

(** ** Reset of a semaphore *)

Lemma waiters_first w W sem x l : NoDup W -> waiters w W sem = x :: l -> waiters w (lrem x W) sem = l.
Proof.
  intros Hnd E. assert (NoDup (x :: l)) as [Hx _]%NoDup_cons by (rewrite <- E; by apply NoDup_filter).
  assert (waiters w (lrem x W) sem = lrem x (waiters w W sem)) as ->.
  { unfold waiters, lrem. rewrite !list_filter_filter. apply list_filter_iff. tauto. }
  rewrite E. unfold lrem. rewrite filter_cons_False by tauto. by apply Sq.filter_ne_id.
Qed.

Section Reset.
Context (H : list (Z * Z)) (idle sem : Z).
Hypothesis (H0 : sem <> 0).

Lemma reset_loop_spec fuel T L S k c count :
  kinv H idle T L S k -> S !! sem = Some c -> 0 <= count <= 32767 -> count <= Z.of_nat fuel ->
  returns (reset_loop fuel k sem count) (fun '(n, _, k') => let m := Z.min count (Z.max 0 (- c)) in
    n = count - m /\ exists T' L', kinv H idle T' L' (<[sem := c + m]> S) k' /\
      waiters (wsem T') (L' waiting) sem = drop (Z.to_nat m) (waiters (wsem T) (L waiting) sem) /\
      (0 < locks T (cur L) -> cur L' = cur L)).
Proof.
  revert T L S k c count. induction fuel as [|n IH]; intros T L S k c count K E Hc Hf; simpl; rewrite (load_Ok (sems k) sem c), bind_Ok by (done || by rewrite (ki_sems _ _ _ _ _ _ K));
    (destruct ((c <? 0) && (0 <? count)) eqn:Ec;
     [apply andb_true_iff in Ec as [Ec Ep]; b2p|apply returns_Ok; cbv zeta; replace (Z.min _ _) with 0 by (apply andb_false_iff in Ec as [Ec|Ec]; b2p; lia);
      split; [lia|]; exists T, L; rewrite Z.add_0_r, insert_id by done; by split_and!]).
  - lia.
  - eapply returns_bind; [apply (nxsem_post_spec H idle T L S k sem c); try done; lia|]. intros [[ret sw] k1] [-> Hr]. cbv zeta in Hr.
      rewrite (proj2 (Z.leb_gt 0 c)) in Hr by lia. destruct Hr as (x & l & Ex & Hx & T1 & K1 & Kp & _). set (L1 := unblock_lists T L x waiting) in *.
      assert (waiters (wsem T1) (L1 waiting) sem = l) as E1.
      { assert (L1 waiting = lrem x (L waiting)) as -> by apply unblock_waiting. rewrite (waiters_ext (wsem T)).
        - apply waiters_first; [apply (ki_wf _ _ _ _ _ _ K)|done].
        - intros y [_ Hy]%elem_of_lrem. rewrite (sees_wsem _ _ y (keeps_sees _ _ Kp)). unfold wsem. by rewrite lookup_alter_ne. }
      rewrite s16_fits by lia. eapply returns_bind; [apply (IH T1 L1 _ k1 (c + 1) (count - 1) K1); [by rewrite lookup_insert, decide_True|lia..]|]. intros [[n' sw'] k2] Hr. cbv zeta in Hr.
      destruct Hr as (Hn & T2 & L2 & K2 & E2 & Hc2). apply returns_Ok. cbv zeta.
      set (m := Z.min (count - 1) (Z.max 0 (- (c + 1)))) in *. replace (Z.min count (Z.max 0 (- c))) with (m + 1) by lia.
      split; [lia|]. exists T2, L2. rewrite insert_insert, decide_True in K2 by done. replace (c + (m + 1)) with (c + 1 + m) by lia. split; [done|]. split.
      * rewrite E2, E1, Ex. replace (Z.to_nat (m + 1)) with (Datatypes.S (Z.to_nat m)) by lia. done.
      * intros Hl. assert (cur L1 = cur L) as Ec1 by (apply (cur_unblock_locked idle); [apply (ki_wf _ _ _ _ _ _ K)|done|done]).
        rewrite Hc2, Ec1; [done|]. rewrite (keeps_locks _ _ _ Kp), locks_alter, Ec1 by done. done.
Qed.
End Reset.

(** C35: Resetting a semaphore ends: it gives one unit to each waiting task in turn,
    in the order in which they wait, while there are units left, and what remains is
    the new count; with tasks waiting, [count] units make the count [c + count].  The
    task that holds the preemption lock keeps the processor.  [count] is not negative,
    as the code asserts. *)
Theorem reset_gives_out (H : list (Z * Z)) (idle : Z) (T : gmap Z tcb_s) (L : tasklist -> list Z) (S : gmap Z Z) (k : ksys) (sem c count : Z) :
  kinv H idle T L S k -> sem <> 0 -> S !! sem = Some c -> 0 <= count <= 32767 ->
  exists sw k' T' L', nxsem_reset_locked k sem count = Ok (sw, k') /\
    kinv H idle T' L' (<[sem := if c <? 0 then c + count else count]> S) k' /\
    waiters (wsem T') (L' waiting) sem = drop (Z.to_nat count) (waiters (wsem T) (L waiting) sem) /\ (0 < locks T (cur L) -> cur L' = cur L).
Proof.
  intros K H0 E Hn. destruct (reset_loop_spec H idle sem H0 (Z.to_nat count) T L S k c count K E Hn ltac:(lia)) as ([[n sw] k1] & E1 & Hr). cbv zeta in Hr.
  set (m := Z.min (count) (Z.max 0 (- c))) in *. destruct Hr as (En & T1 & L1 & K1 & Ew & Hc).
  pose proof (so_count _ _ _ (ki_ok _ _ _ _ _ _ K) sem c E) as Hl.
  assert (drop (Z.to_nat m) (waiters (wsem T) (L waiting) sem) = drop (Z.to_nat count) (waiters (wsem T) (L waiting) sem)) as Ed.
  { destruct (decide (count <= Z.max 0 (- c))) as [Hle|Hgt]; [by replace m with count by lia|]. rewrite !drop_ge by lia. done. }
  unfold nxsem_reset_locked. rewrite E1, bind_Ok, (load_Ok _ sem (c + m)), bind_Ok by (done || by rewrite (ki_sems _ _ _ _ _ _ K1), lookup_insert, decide_True).
  assert (sems k1 !! sem = Some (c + m)) as Es by (by rewrite (ki_sems _ _ _ _ _ _ K1), lookup_insert, decide_True).
  destruct (0 <=? c + m) eqn:Ec; b2p.
  - rewrite (set_semcount_Ok k1 sem (c + m)), bind_Ok by (done || lia). eexists _, _, T1, L1. split; [done|]. rewrite Ew, Ed. split; [|done].
    destruct K1 as [A1 A2 A3 A4 A5]. split; try done; simpl.
    + rewrite A2, insert_insert, decide_True by done. destruct (c <? 0) eqn:Eq; b2p; do 2 f_equal; lia.
    + replace (if c <? 0 then c + count else count) with (n) by (destruct (c <? 0) eqn:Eq; b2p; lia).
      rewrite <- (insert_insert_eq S sem (n) (c + m)).
      apply (so_set _ _ _ A3 sem (c + m)); [by rewrite lookup_insert, decide_True|done|lia].
  - rewrite bind_Ok. eexists _, _, T1, L1. split; [done|]. rewrite Ew, Ed. split; [|done].
    rewrite (proj2 (Z.ltb_lt c 0)) by lia. by replace (c + count) with (c + m) by lia.
Qed.

Definition demo_locked_state : kst :=
  Eval vm_compute in match system demo_sys demo_idle demo_locked with Ok (_, st) => st | _ => mk_kst demo_sys ∅ end.

Lemma demo_locked_kinv : exists H T L S, kinv H demo_idle T L S (ks demo_locked_state) /\ S !! demo_sem = Some (-1).
Proof.
  assert (exists o, system demo_sys demo_idle demo_locked = Ok (o, demo_locked_state)) as [o E] by (eexists; vm_compute; reflexivity).
  destruct (reached demo_sys demo_idle demo_locked o demo_locked_state demo_sys_fresh E) as (H & T & L & G & _).
  exists H, T, L, (sems (ks demo_locked_state)). split; [apply G|reflexivity].
Qed.

Lemma reset_gives_out_witness :
  exists H sw k' T' L' S, nxsem_reset_locked (ks demo_locked_state) demo_sem 5 = Ok (sw, k') /\
    kinv H demo_idle T' L' (<[demo_sem := -1 + 5]> S) k'.
Proof.
  destruct demo_locked_kinv as (H & T & L & S & K & E).
  destruct (reset_gives_out H demo_idle T L S _ demo_sem (-1) 5 K ltac:(discriminate) E ltac:(lia)) as (sw & k' & T' & L' & Er & K' & _).
  exists H, sw, k', T', L', S. auto.
Defined.
