(* ===== verification/SchedLimits.v ===== *)
(** * Where the kernel falls short

    What the scheduler and the semaphores do in the cases that the runs of
    [Kern.v] leave out: a lower priority for a task that is ready, the deletion
    of a task that waits, and a count that leaves the range of its type. *)

From stdpp Require Import functions.
From S2P Require Import Prelude Bits Links Queue Sched SchedRep SchedInv SchedOps SchedCalls SchedPrio.
From S2P Require Import Sem SemOps Task TaskOps Kern KernInv KernActs KernRun KernProps.
Import Dq.
Local Open Scope Z_scope.

(** ** A lower priority for a ready task *)

(** Three tasks, of priorities 100, 90 and 80, and a semaphore with one unit that
    the first one takes. *)
Definition trio_c : Z := 16384.
Definition trio_links : gmap Z Z := <[trio_c := 0]> demo_links.
Definition trio_sys : ksys :=
  mk_ksys (mk_sched (<[trio_c := zero_tcb]> (tcbs (sch demo_sys))) {| dq_flink := trio_links; dq_blink := trio_links |} (fun _ => dq_init) [])
          {[ demo_sem := 1 ]} 0 0.

Definition trio_events : list event :=
  [Call (CCreate demo_a 100 0)] ++ runs 9 ++ [Call (CCreate demo_b 90 0)] ++ runs 9 ++ [Call (CCreate trio_c 80 0)] ++ runs 9 ++
  [Call (CWait demo_sem)] ++ runs 2.

(** The first task gives the second one the priority 50, and waits. *)
Definition trio_lowers : list event := [Call (CSetparam 2 50)] ++ runs 5 ++ [Call (CWait demo_sem)] ++ runs 1.

Definition trio_state : kst :=
  Eval vm_compute in match system trio_sys demo_idle trio_events with Ok (_, st) => st | _ => mk_kst demo_sys ∅ end.
Definition trio_lowered : kst :=
  Eval vm_compute in match ksteps trio_state trio_lowers with Ok (_, st) => st | _ => mk_kst demo_sys ∅ end.

(** Lowering the priority of a task that is ready but does not run breaks the
    order of the ready list: the move is inside an assertion that the build leaves
    out.  When the running task then waits, the task whose priority is now 50 runs,
    though one of priority 80 is ready. *)
Theorem lowered_task_runs_first :
  exists (o o1 : list obs) (st st1 : kst) (t u : tcb_s), system trio_sys demo_idle trio_events = Ok (o, st) /\ ksteps st trio_lowers = Ok (o1, st1) /\
    this_task (sch (ks st1)) = demo_b /\ tcbs (sch (ks st1)) !! demo_b = Some t /\ sched_priority t = 50 /\
    tcbs (sch (ks st1)) !! trio_c = Some u /\ task_state u = TSTATE_TASK_READYTORUN /\ sched_priority u = 80 /\ ~ runs_highest (sch (ks st1)).
Proof.
  eexists _, _, trio_state, trio_lowered, _, _. split; [vm_compute; reflexivity|]. split; [vm_compute; reflexivity|]. do 6 (split; [vm_compute; reflexivity|]).
  intros (c & Hc & _ & Hr). assert (exists u, tcbs (sch (ks trio_lowered)) !! trio_c = Some u /\ task_state u = TSTATE_TASK_READYTORUN /\ sched_priority u = 80) as (u & Hu & Hs & Hp)
    by (eexists; split; [vm_compute; reflexivity|done]).
  assert (exists t, tcbs (sch (ks trio_lowered)) !! this_task (sch (ks trio_lowered)) = Some t /\ sched_priority t = 50) as (t & Ht & Ep)
    by (eexists; split; [vm_compute; reflexivity|done]).
  destruct (Hr trio_c u Hu) as (_ & H1 & _). specialize (H1 Hs). rewrite Hc in Ht. injection Ht as <-. lia.
Qed.

(** ** Deletion of a waiting task *)

Definition demo_state : kst :=
  Eval vm_compute in match system demo_sys demo_idle demo_events with Ok (_, st) => st | _ => mk_kst demo_sys ∅ end.
Definition demo_waiter : tcb_s :=
  Eval vm_compute in default zero_tcb (tcbs (sch (ks demo_state)) !! demo_b).

(** What [nxtask_terminate] does to a task that waits. *)
Lemma terminate_waiting H idle T L S k x t :
  kinv H idle T L S k -> hash_ok H idle T -> T !! x = Some t -> x ∈ L waiting -> pid t <> 0 ->
  exists H' l1 l2 s1, L waiting = l1 ++ x :: l2 /\ nxtask_terminate k (pid t) = Ok (OK, set_sch k s1) /\
    srep H' (alter (set_state TSTATE_TASK_INVALID) x T) (<[waiting := l1 ++ l2]> L) s1.
Proof.
  intros K Ho Ht Hx H0. pose proof (ki_sched _ _ _ _ _ _ K) as [[R W] _].
  assert (pid_of T x = pid t) as Hp by (unfold pid_of; by rewrite Ht). pose proof (sr_node _ _ _ _ R x ltac:(eauto)) as [Hx0 _].
  destruct (sched_gettcb_spec H idle T L (sch k) (pid t) R Ho) as (x' & Eg & _ & Hg).
  assert (x' = x) as -> by (apply Hg; [by eexists|done|by left]). unfold nxtask_terminate.
  rewrite Eg, bind_Ok, (proj2 (Z.eqb_neq x 0) Hx0), (tget_Ok _ _ _ _ _ _ R Ht), bind_Ok.
  assert (task_state t = TSTATE_WAIT_SEM) as -> by (by apply (wait_state H idle T L S k x t K Ht)).
  pose proof Hx as (l1 & l2 & El)%list_elem_of_split.
  destruct (trem_spec H T L (sch k) waiting l1 x l2 R El) as (s1 & E1 & R1).
  destruct (tupd_spec H T _ s1 x (set_state TSTATE_TASK_INVALID) R1 ltac:(eauto)) as (s2 & E2 & R2).
  set (T1 := alter _ x T) in R2. assert (T1 !! x = Some (set_state TSTATE_TASK_INVALID t)) as Ht1 by (unfold T1; by rewrite lookup_alter_eq, Ht).
  cbn [tlist TLIST_HEAD]. rewrite bind_Ok, E1, bind_Ok, E2, bind_Ok. unfold nxtask_recover, nxsem_recover. cbn [sch set_sch].
  rewrite (tget_Ok _ _ _ _ _ _ R2 Ht1), bind_Ok. cbn [task_state set_state]. rewrite bool_decide_eq_false_2, bind_Ok by done. cbn [sch set_sch].
  rewrite (tget_Ok _ _ _ _ _ _ R2 Ht1), bind_Ok. cbn [pid set_state]. rewrite (proj2 (Z.eqb_neq (pid t) 0) H0). cbn [negb].
  unfold nxsched_releasepid. rewrite (sr_hash _ _ _ _ R2). unfold array_set. pose proof (PIDHASH_range (pid t)) as Hr.
  rewrite (proj2 (Nat.ltb_lt _ _)), !bind_Ok by (rewrite (ho_len _ _ _ Ho); lia).
  eexists _, l1, l2, _. split; [done|]. split; [done|]. destruct R2 as [_ A2 A3 A4 A5 A6]. by split.
Qed.

(** A post when the count is negative and no task waits wakes nobody. *)
Lemma post_nobody H T L k sem c :
  srep H T L (sch k) -> sem <> 0 -> sems k !! sem = Some c -> - 32768 <= c < 0 -> waiters (wsem T) (L waiting) sem = [] ->
  exists k', nxsem_post k sem = Ok (OK, false, k') /\ sems k' = <[sem := c + 1]> (sems k) /\ sch k' = sch k /\
    nxsem_trywait k' sem = Ok (- EAGAIN, k').
Proof.
  intros R H0 E Hc Ew. unfold nxsem_post, nxsem_trywait. rewrite (proj2 (Z.eqb_neq sem 0) H0). cbn [negb].
  rewrite (load_Ok _ _ _ H0 E), bind_Ok, (set_semcount_Ok k sem c), bind_Ok by (done || lia). cbn [sems sch].
  rewrite (load_Ok _ sem (c + 1)), bind_Ok, (proj2 (Z.leb_le (c + 1) 0)) by (done || lia || by rewrite lookup_insert, decide_True).
  cbv zeta. rewrite (dqr_head _ _ _ (sr_q _ _ _ _ R waiting)), (find_waiter_spec H T L (sch k) sem [] (L waiting)), bind_Ok; [|done|done|].
  2: { pose proof (dq_rep_length _ _ _ (sr_q _ _ _ _ R waiting)). lia. }
  rewrite Ew. simpl. eexists. split; [done|]. split; [done|]. split; [done|]. simpl.
  rewrite (load_Ok _ sem (c + 1)), bind_Ok, (proj2 (Z.ltb_ge 0 (c + 1))) by (done || lia || by rewrite lookup_insert, decide_True). done.
Qed.

(** C36: Deleting a task that waits for a semaphore loses a unit, in every state that
    a run leads to.  The state of the task is set to TSTATE_TASK_INVALID before
    [nxsem_recover] asks whether it was TSTATE_WAIT_SEM, so that [nxtask_terminate]
    succeeds and ends the wait of the task, and of no other, but all counts stay as
    they were.  When no other task waited for the semaphore its count is then -1 though
    nobody waits: the next post succeeds and wakes nobody, and the unit cannot be
    taken. *)
Theorem terminate_loses_unit (k : ksys) (idle : Z) (es : list event) (o : list obs) (st : kst) (x sem p c : Z) (t : tcb_s) :
  fresh idle k -> system k idle es = Ok (o, st) -> waits (sch (ks st)) x sem p -> tcbs (sch (ks st)) !! x = Some t -> sems (ks st) !! sem = Some c ->
  exists k1, nxtask_terminate (ks st) (pid t) = Ok (OK, k1) /\ sems k1 = sems (ks st) /\
    (forall y s q, waits (sch k1) y s q <-> waits (sch (ks st)) y s q /\ y <> x) /\
    ((forall y q, waits (sch (ks st)) y sem q -> y = x) -> c = -1 /\
       exists k2, nxsem_post k1 sem = Ok (OK, false, k2) /\ sch k2 = sch k1 /\ nxsem_trywait k2 sem = Ok (- EAGAIN, k2)).
Proof.
  intros Fr E Hwt Ht Ec. destruct (reached k idle es o st Fr E) as (H & T & L & G & Et). pose proof (gi_k _ _ _ _ _ _ _ G) as K.
  rewrite Et in Ht. pose proof (ki_wf _ _ _ _ _ _ K) as W. destruct (proj1 (kinv_waits H idle T L _ _ _ _ _ K) Hwt) as (Hx & Hw & _).
  assert (pid t <> 0) as H0.
  { assert (pid_of T x = pid t) as <- by (unfold pid_of; by rewrite Ht). apply (gi_pid _ _ _ _ _ _ _ G); [by eexists|by apply (wf_not_idle idle T L x waiting)]. }
  destruct (terminate_waiting H idle T L _ _ x t K (gi_hash _ _ _ _ _ _ _ G) Ht Hx H0) as (H' & l1 & l2 & s1 & El & -> & R1).
  eexists. split; [done|]. split; [done|]. split; cbn [sch set_sch].
  - intros y s q. unfold waits. rewrite (sr_tcbs _ _ _ _ R1), Et. destruct (decide (y = x)) as [->|Hn].
    + rewrite lookup_alter_eq, Ht. split; [intros (? & [= <-] & ? & _); done|tauto].
    + rewrite lookup_alter_ne by done. split; [by intros ?|by intros [? _]].
  - intros Honly. destruct (so_in _ _ _ (ki_ok _ _ _ _ _ _ K) x Hx) as [Hs0 _]. rewrite Hw in Hs0.
    assert (waiters (wsem T) (L waiting) sem = [x]) as Ew.
    { assert (x ∈ waiters (wsem T) (L waiting) sem) as Hin by (by apply list_elem_of_filter).
      assert (NoDup (waiters (wsem T) (L waiting) sem)) as Hnd by (apply NoDup_filter, W).
      assert (forall y, y ∈ waiters (wsem T) (L waiting) sem -> y = x) as Hall.
      { intros y [Hy Hl]%list_elem_of_filter. apply (Honly y (prio T y)). by apply (kinv_waits H idle T L _ _ _ _ _ K). }
      destruct (waiters (wsem T) (L waiting) sem) as [|y [|z l]]; [by apply not_elem_of_nil in Hin|f_equal; apply Hall; by left|].
      pose proof (Hall y ltac:(by left)) as ->. pose proof (Hall z ltac:(right; by left)) as ->. apply NoDup_cons in Hnd as [[] _]. by left. }
    pose proof (so_count _ _ _ (ki_ok _ _ _ _ _ _ K) sem c Ec) as Hc. rewrite Ew in Hc. simpl in Hc. assert (c = -1) as -> by lia. split; [done|].
    destruct (post_nobody H' _ _ (set_sch (ks st) s1) sem (-1) R1 Hs0 Ec ltac:(lia)) as (k2 & E2 & _ & E3 & E4); [|by exists k2].
    rewrite fn_lookup_insert. rewrite El in Ew. unfold waiters in *. rewrite filter_app, filter_cons_True in Ew by done. rewrite filter_app.
    assert (forall y, wsem (alter (set_state TSTATE_TASK_INVALID) x T) y = wsem T y) as Hws.
    { intros y. unfold wsem. rewrite lookup_alter. destruct (decide (x = y)) as [<-|]; [|done]. by rewrite Ht. }
    assert (forall l, filter (fun y => wsem (alter (set_state TSTATE_TASK_INVALID) x T) y = sem) l = filter (fun y => wsem T y = sem) l) as Hf
      by (intros l; apply list_filter_iff; intros y; by rewrite Hws).
    rewrite !Hf. apply (f_equal length) in Ew. rewrite length_app in Ew. simpl in Ew. apply nil_length_inv. rewrite length_app. lia.
Qed.

Lemma terminate_loses_unit_witness :
  exists o st k1 k2, system demo_sys demo_idle demo_events = Ok (o, st) /\ nxtask_terminate (ks st) 2 = Ok (OK, k1) /\
    sems k1 !! demo_sem = Some (-1) /\ (forall x p, ~ waits (sch k1) x demo_sem p) /\
    nxsem_post k1 demo_sem = Ok (OK, false, k2) /\ nxsem_trywait k2 demo_sem = Ok (- EAGAIN, k2).
Proof.
  assert (map_Forall (fun x t => task_state t = TSTATE_WAIT_SEM -> x = demo_b) (tcbs (sch (ks demo_state)))) as Hb
    by (apply (bool_decide_unpack _); by vm_compute).
  assert (exists o, system demo_sys demo_idle demo_events = Ok (o, demo_state)) as [o E] by (eexists; vm_compute; reflexivity).
  assert (tcbs (sch (ks demo_state)) !! demo_b = Some demo_waiter) as Ht by reflexivity.
  assert (waits (sch (ks demo_state)) demo_b demo_sem 120) as Hw by (exists demo_waiter; split_and!; reflexivity).
  destruct (terminate_loses_unit demo_sys demo_idle demo_events o demo_state demo_b demo_sem 120 (-1) demo_waiter demo_sys_fresh E Hw Ht eq_refl)
    as (k1 & E1 & Es & Hk & Hone).
  assert (forall y q, waits (sch (ks demo_state)) y demo_sem q -> y = demo_b) as Honly by (intros y q (u & Hu & Hst & _); by apply (Hb y u)).
  destruct (Hone Honly) as (_ & k2 & E2 & _ & E3). change (pid demo_waiter) with 2 in E1. exists o, demo_state, k1, k2. split; [exact E|]. split; [exact E1|].
  split; [rewrite Es; reflexivity|]. split; [|split; [exact E2|exact E3]]. intros x q Hx. apply Hk in Hx as [Hx Hn]. by apply Hn, (Honly x q).
Defined.

(** ** A count that is too large *)

(** A post to a semaphore whose count is SEM_VALUE_MAX reports success, and the
    count becomes the most negative one: every later wait blocks. *)
Theorem post_overflows (H : list (Z * Z)) (idle : Z) (T : gmap Z tcb_s) (L : tasklist -> list Z) (S : gmap Z Z) (k : ksys) (sem : Z) :
  kinv H idle T L S k -> sem <> 0 -> S !! sem = Some SEM_VALUE_MAX ->
  exists k', nxsem_post k sem = Ok (OK, false, k') /\ sems k' = <[sem := -32768]> S /\ sch k' = sch k /\ nxsem_trywait k' sem = Ok (- EAGAIN, k').
Proof.
  intros K H0 E. pose proof (ki_sched _ _ _ _ _ _ K) as [[R _] _]. pose proof (so_count _ _ _ (ki_ok _ _ _ _ _ _ K) sem _ E) as Hl.
  assert (waiters (wsem T) (L waiting) sem = []) as Ew by (apply length_zero_iff_nil; change (Z.max 0 (- SEM_VALUE_MAX)) with 0 in Hl; lia).
  assert (sems k !! sem = Some SEM_VALUE_MAX) as Es by (by rewrite (ki_sems _ _ _ _ _ _ K)).
  assert (set_semcount k sem (SEM_VALUE_MAX + 1) = Ok (mk_ksys (sch k) (<[sem := -32768]> S) (g_irqerrno k) (g_lastpid k))) as Ek.
  { unfold set_semcount. by rewrite (store_Ok _ _ _ H0), (ki_sems _ _ _ _ _ _ K) by eauto. }
  unfold nxsem_post, nxsem_trywait. rewrite (proj2 (Z.eqb_neq sem 0) H0). cbn [negb].
  rewrite (load_Ok _ _ _ H0 Es), bind_Ok, Ek, bind_Ok. cbn [sems sch]. rewrite (load_Ok _ sem (-32768)), bind_Ok by (done || by rewrite lookup_insert, decide_True).
  change (-32768 <=? 0) with true. cbv iota zeta. rewrite (dqr_head _ _ _ (sr_q _ _ _ _ R waiting)), (find_waiter_spec H T L (sch k) sem [] (L waiting)), bind_Ok; [|done|done|].
  2: { pose proof (dq_rep_length _ _ _ (sr_q _ _ _ _ R waiting)). lia. }
  rewrite Ew. simpl. eexists. split; [done|]. split; [done|]. split; [done|]. simpl.
  by rewrite (load_Ok _ sem (-32768)) by (done || by rewrite lookup_insert, decide_True).
Qed.

Definition full_sys : ksys := mk_ksys (sch demo_sys) {[ demo_sem := SEM_VALUE_MAX ]} 0 0.

Lemma full_fresh : fresh demo_idle full_sys.
Proof.
  destruct demo_sys_fresh as [A B C D _]. split; try done. intros sem c. unfold full_sys. cbn [sems]. intros [_ <-]%lookup_singleton_Some. unfold SEM_VALUE_MAX. lia.
Qed.

Definition full_state : kst :=
  Eval vm_compute in match system full_sys demo_idle [] with Ok (_, st) => st | _ => mk_kst demo_sys ∅ end.

Lemma post_overflows_witness :
  exists k', nxsem_post (ks full_state) demo_sem = Ok (OK, false, k') /\ sems k' = <[demo_sem := -32768]> (sems (ks full_state)) /\
    sch k' = sch (ks full_state) /\ nxsem_trywait k' demo_sem = Ok (- EAGAIN, k').
Proof.
  assert (exists o, system full_sys demo_idle [] = Ok (o, full_state)) as [o E] by (eexists; vm_compute; reflexivity).
  destruct (reached full_sys demo_idle [] o full_state full_fresh E) as (H & T & L & G & _).
  eapply (post_overflows H demo_idle T L); [apply G|discriminate|reflexivity].
Defined.
