(* ===== verification/Calendar.v ===== *)
(** * Calendar time (src/nuttx/libs/libc/time, src/nuttx/sched/clock/clock_dow.c)

    Conversion between seconds since 1970 and broken-out time, for the
    configuration without [CONFIG_GREGORIAN_TIME] and [CONFIG_TIME_EXTENDED].
    [time_t] is an unsigned integer of 32 bits. *)

From S2P Require Import Prelude Bits.
Local Open Scope Z_scope.

Definition SEC_PER_MIN : Z := 60.
Definition SEC_PER_HOUR : Z := 60 * SEC_PER_MIN.
Definition SEC_PER_DAY : Z := 24 * SEC_PER_HOUR.

Record tm := mk_tm {
  tm_sec : Z;
  tm_min : Z;
  tm_hour : Z;
  tm_mday : Z;
  tm_mon : Z;
  tm_year : Z
}.

Definition clock_isleapyear (year : Z) : Z :=
  if negb (Z.rem year 400 =? 0) then
    if negb (Z.rem year 100 =? 0) then if negb (Z.rem year 4 =? 0) then 0 else 1
    else 0
  else 1.

Definition g_daysbeforemonth : list Z := [0; 31; 59; 90; 120; 151; 181; 212; 243; 273; 304; 334; 365].

Definition clock_daysbeforemonth (month : Z) (leapyear : bool) : res Z :=
  if month <? 0 then Err (BadAddr month)
  else
    retval ← array_get g_daysbeforemonth (Z.to_nat month);
    Ok (if (2 <=? month) && leapyear then retval + 1 else retval).

Definition leap (year : Z) : bool := negb (clock_isleapyear year =? 0).

Definition clock_calendar2utc (year month day : Z) : res Z :=
  let days := u32 ((year - 1970) * 365) in
  let days := u32 (days + Z.shiftr (year - 1969) 2) in
  before ← clock_daysbeforemonth month (leap year);
  let days := u32 (days + before) in
  Ok (u32 (days + (day - 1))).

(** The loop over the years: [value] is the year since 1970, [days] what is left. *)
Fixpoint utc_years (fuel : nat) (value days : Z) : res (Z * Z) :=
  match fuel with
  | O => Err Diverge
  | S fuel =>
      let tmp := if leap (value + 1970) then 366 else 365 in
      if tmp <=? days then utc_years fuel (value + 1) (u32 (days - tmp)) else Ok (value, days)
  end.

(** The search for the month. *)
Fixpoint utc_month (fuel : nat) (min max days : Z) (leapyear : bool) : res Z :=
  match fuel with
  | O => Err Diverge
  | S fuel =>
      let value := Z.shiftr (min + max) 1 in
      tmp ← clock_daysbeforemonth (value + 1) leapyear;
      if days <? tmp then
        tmp ← clock_daysbeforemonth value leapyear;
        if days <? tmp then
          let max := value - 1 in
          if min <? max then utc_month fuel min max days leapyear else Ok min
        else Ok value
      else
        let min := value + 1 in
        if min <? max then utc_month fuel min max days leapyear else Ok min
  end.

(** The year, the month from 1 and the day from 1. *)
Definition clock_utc2calendar (days : Z) : res (Z * Z * Z) :=
  let value := Z.quot days (4 * 365 + 1) in
  let days := u32 (days - value * (4 * 365 + 1)) in
  let value := Z.shiftl value 2 in
  '(value, days) ← utc_years 5 value days;
  let year := 1970 + value in
  let leapyear := leap (value + 1970) in
  month ← utc_month 12 0 11 days leapyear;
  before ← clock_daysbeforemonth month leapyear;
  Ok (year, month + 1, u32 (days - before) + 1).

Definition gmtime_r (timer : Z) : res tm :=
  let epoch := timer in
  let jdn := epoch / SEC_PER_DAY in
  let epoch := u32 (epoch - SEC_PER_DAY * jdn) in
  let hour := epoch / SEC_PER_HOUR in
  let epoch := u32 (epoch - SEC_PER_HOUR * hour) in
  let min := epoch / SEC_PER_MIN in
  let epoch := u32 (epoch - SEC_PER_MIN * min) in
  let sec := epoch in
  '(year, month, day) ← clock_utc2calendar jdn;
  Ok (mk_tm sec min hour day (month - 1) (year - 1900)).

Definition mktime (tp : tm) : res Z :=
  jdn ← clock_calendar2utc (tm_year tp + 1900) (tm_mon tp) (tm_mday tp);
  Ok (u32 (((jdn * 24 + tm_hour tp) * 60 + tm_min tp) * 60 + tm_sec tp)).

(** ** The day of the week *)

Definition g_lookup : list Z := [2; 5; 7; 10; 12; 15; 17; 20; 23; 25; 28; 30].

Definition clock_dow (year month day : Z) : res Z :=
  let '(day, year) := if month <? 2 then (day + year, year - 1) else (day + (year - 2), year) in
  if month <? 0 then Err (BadAddr month)
  else
    l ← array_get g_lookup (Z.to_nat month);
    Ok (Z.rem (l + day + 4 + Z.quot year 4 - Z.quot year 100 + Z.quot year 400) 7).

(** ** The calendar

    What the conversions are to compute: the date that follows 1 January 1970 by a
    number of days.  Months count from 0 and days from 1. *)

(** Every fourth year is a leap year, but of the years that end a century only every
    fourth one. *)
Definition gregorian_leap (year : Z) : bool :=
  (year mod 4 =? 0) && (negb (year mod 100 =? 0) || (year mod 400 =? 0)).

Definition month_days (year month : Z) : Z :=
  if month =? 1 then (if gregorian_leap year then 29 else 28)
  else if (month =? 3) || (month =? 5) || (month =? 8) || (month =? 10) then 30 else 31.

Definition tomorrow (date : Z * Z * Z) : Z * Z * Z :=
  let '(year, month, day) := date in
  if day <? month_days year month then (year, month, day + 1)
  else if month <? 11 then (year, month + 1, 1)
  else (year + 1, 0, 1).

Definition date_of (n : Z) : Z * Z * Z := Nat.iter (Z.to_nat n) tomorrow (1970, 0, 1).

Definition valid_date (year month day : Z) : bool := (0 <=? month) && (month <=? 11) && (1 <=? day) && (day <=? month_days year month).

Definition valid_tm (tp : tm) : bool :=
  valid_date (tm_year tp + 1900) (tm_mon tp) (tm_mday tp) &&
  (0 <=? tm_hour tp) && (tm_hour tp <? 24) && (0 <=? tm_min tp) && (tm_min tp <? 60) && (0 <=? tm_sec tp) && (tm_sec tp <? 60).
