(* ===== verification/CalendarProps.v ===== *)
(** * Properties of the calendar

    The conversions agree with the calendar until the years after 2100, which the
    code takes for a leap year in one direction only. *)

From S2P Require Import Prelude Bits Calendar.
Local Open Scope Z_scope.

(** ** Day numbers *)

(** The leap days from 1970 to the start of a year, and the days before a month. *)
Definition leaps (y : Z) : Z := (y - 1) / 4 - (y - 1) / 100 + (y - 1) / 400 - 477.

Definition before (b : bool) (m : Z) : Z := nth (Z.to_nat m) g_daysbeforemonth 0 + (if (2 <=? m) && b then 1 else 0).

Definition dayno (y m d : Z) : Z := 365 * (y - 1970) + leaps y + before (leap y) m + (d - 1).

Lemma leap_iff y : 0 <= y -> leap y = true <-> y mod 4 = 0 /\ (y mod 100 <> 0 \/ y mod 400 = 0).
Proof.
  intros Hy. unfold leap, clock_isleapyear. rewrite !Z.rem_mod_nonneg by lia.
  destruct (y mod 400 =? 0) eqn:E1, (y mod 100 =? 0) eqn:E2, (y mod 4 =? 0) eqn:E3; simpl; b2p; split; intros; try done; modlia.
Qed.

Lemma leaps_next y : 0 <= y -> leaps (y + 1) = leaps y + (if leap y then 1 else 0).
Proof.
  intros Hy. pose proof (leap_iff y Hy) as Hl. unfold leaps. destruct (leap y).
  - destruct Hl as [Hl _]. destruct (Hl eq_refl). modlia.
  - assert (~ (y mod 4 = 0 /\ (y mod 100 <> 0 \/ y mod 400 = 0))) by (intros H; by apply Hl in H). modlia.
Qed.

(** Case analysis on a month. *)
Ltac by_month m :=
  let C := fresh in
  assert (m = 0 \/ m = 1 \/ m = 2 \/ m = 3 \/ m = 4 \/ m = 5 \/ m = 6 \/ m = 7 \/ m = 8 \/ m = 9 \/ m = 10 \/ m = 11) as C by lia;
  destruct_or! C; subst m.

(** The code's leap years are those of the calendar. *)
Lemma leap_gregorian y : 0 <= y -> leap y = gregorian_leap y.
Proof.
  intros Hy. apply eq_true_iff_eq. rewrite (leap_iff y Hy). unfold gregorian_leap.
  rewrite andb_true_iff, orb_true_iff, negb_true_iff, !Z.eqb_eq, Z.eqb_neq. done.
Qed.

Lemma before_next y m : 0 <= y -> 0 <= m <= 11 -> before (leap y) (m + 1) = before (leap y) m + month_days y m.
Proof. intros Hy Hm. unfold month_days. rewrite <- leap_gregorian by done. by_month m; unfold before; destruct (leap y); reflexivity. Qed.

Lemma before_0 b : before b 0 = 0.
Proof. by destruct b. Qed.

Lemma before_12 y : before (leap y) 12 = 365 + if leap y then 1 else 0.
Proof. by destruct (leap y). Qed.

Lemma before_mono b m m' : 0 <= m -> m <= m' -> m' <= 12 -> before b m <= before b m'.
Proof.
  intros H1 H2 H3. rewrite <- (Z2Nat.id m), <- (Z2Nat.id m') by lia. assert (Z.to_nat m <= Z.to_nat m' <= 12)%nat as H by lia.
  generalize (Z.to_nat m) (Z.to_nat m') H. clear. intros i j H.
  do 13 (destruct j as [|j]; [do 13 (destruct i as [|i]; [destruct b; vm_compute; discriminate || lia|]); lia|]). lia.
Qed.

Definition valid (x : Z * Z * Z) : Prop := let '(y, m, d) := x in 1970 <= y /\ 0 <= m <= 11 /\ 1 <= d <= month_days y m.

Definition number (x : Z * Z * Z) : Z := let '(y, m, d) := x in dayno y m d.

Lemma month_days_pos y m : 28 <= month_days y m <= 31.
Proof. unfold month_days. repeat case_match; lia. Qed.

Lemma tomorrow_valid x : valid x -> valid (tomorrow x) /\ number (tomorrow x) = number x + 1.
Proof.
  destruct x as [[y m] d]. intros (Hy & Hm & Hd). unfold tomorrow. destruct (d <? month_days y m) eqn:E1; [|destruct (m <? 11) eqn:E2]; b2p; simpl; unfold dayno.
  - split; lia.
  - rewrite before_next by lia. pose proof (month_days_pos y (m + 1)). split; lia.
  - assert (m = 11) as -> by lia. pose proof (before_next y 11 ltac:(lia) ltac:(lia)) as Hb. change (11 + 1) with 12 in Hb. rewrite before_12 in Hb.
    pose proof (leaps_next y ltac:(lia)) as Hl. rewrite before_0. pose proof (month_days_pos (y + 1) 0). split; lia.
Qed.

Lemma date_of_valid n : valid (date_of (Z.of_nat n)) /\ number (date_of (Z.of_nat n)) = Z.of_nat n.
Proof.
  unfold date_of. rewrite Nat2Z.id. induction n as [|n [IH1 IH2]]; [by split; [vm_compute; intuition congruence|]|].
  rewrite Nat.iter_succ. destruct (tomorrow_valid _ IH1) as [H1 H2]. split; [done|]. rewrite H2, IH2. lia.
Qed.

(** A date is determined by its number. *)
Lemma leaps_bound y n : 1970 <= y -> 0 <= n -> leaps y <= leaps (y + n).
Proof. intros. unfold leaps. modlia. Qed.

Lemma number_year y m d : 1970 <= y -> 0 <= m <= 11 -> 1 <= d <= month_days y m ->
  365 * (y - 1970) + leaps y <= dayno y m d < 365 * (y + 1 - 1970) + leaps (y + 1).
Proof.
  intros Hy Hm Hd. unfold dayno. rewrite leaps_next by lia. pose proof (before_next y m ltac:(lia) Hm). pose proof (before_mono (leap y) (m + 1) 12 ltac:(lia) ltac:(lia) ltac:(lia)) as H1.
  pose proof (before_mono (leap y) 0 m ltac:(lia) ltac:(lia) ltac:(lia)) as H2. rewrite before_12 in H1. rewrite before_0 in H2. lia.
Qed.

Lemma number_inj x x' : valid x -> valid x' -> number x = number x' -> x = x'.
Proof.
  destruct x as [[y m] d], x' as [[y' m'] d']. intros (Hy & Hm & Hd) (Hy' & Hm' & Hd') E. simpl in E.
  pose proof (number_year y m d Hy Hm Hd) as B. pose proof (number_year y' m' d' Hy' Hm' Hd') as B'.
  assert (y = y') as <-.
  { destruct (Z.lt_trichotomy y y') as [Hl|[?|Hl]]; [|done|].
    - pose proof (leaps_bound (y + 1) (y' - (y + 1)) ltac:(lia) ltac:(lia)) as Hb. replace (y + 1 + (y' - (y + 1))) with y' in Hb by lia. lia.
    - pose proof (leaps_bound (y' + 1) (y - (y' + 1)) ltac:(lia) ltac:(lia)) as Hb. replace (y' + 1 + (y - (y' + 1))) with y in Hb by lia. lia. }
  unfold dayno in E. pose proof (before_next y m ltac:(lia) Hm). pose proof (before_next y m' ltac:(lia) Hm').
  assert (m = m') as <-; [|f_equal; lia]. destruct (Z.lt_trichotomy m m') as [Hl|[?|Hl]]; [|done|].
  - pose proof (before_mono (leap y) (m + 1) m' ltac:(lia) ltac:(lia) ltac:(lia)). lia.
  - pose proof (before_mono (leap y) (m' + 1) m ltac:(lia) ltac:(lia) ltac:(lia)). lia.
Qed.

Lemma date_of_number n x : 0 <= n -> valid x -> number x = n -> date_of n = x.
Proof.
  intros Hn Hv E. destruct (date_of_valid (Z.to_nat n)) as [H1 H2]. rewrite Z2Nat.id in H1, H2 by done. apply number_inj; [done..|congruence].
Qed.

(** ** The code *)

Lemma daysbeforemonth_Ok b m : 0 <= m <= 12 -> clock_daysbeforemonth m b = Ok (before b m).
Proof.
  intros Hm. rewrite <- (Z2Nat.id m) by lia. assert (Z.to_nat m <= 12)%nat as H by lia. generalize (Z.to_nat m) H. clear. intros i H.
  do 13 (destruct i as [|i]; [destruct b; reflexivity|]). lia.
Qed.

(** The month that a day of the year is in. *)
Definition month_ok (b : bool) (days : nat) : bool :=
  match utc_month 12 0 11 (Z.of_nat days) b with
  | Ok m => (0 <=? m) && (m <=? 11) && (before b m <=? Z.of_nat days) && (Z.of_nat days <? before b (m + 1))
  | Err _ => false
  end.

Lemma months_ok : forallb (month_ok false) (seq 0 365) && forallb (month_ok true) (seq 0 366) = true.
Proof. vm_compute. reflexivity. Qed.

Lemma utc_month_Ok (b : bool) days : 0 <= days < 365 + (if b then 1 else 0) ->
  exists m, utc_month 12 0 11 days b = Ok m /\ 0 <= m <= 11 /\ before b m <= days < before b (m + 1).
Proof.
  intros Hd. pose proof months_ok as H. apply andb_true_iff in H as [H0 H1]. rewrite forallb_forall in H0, H1.
  assert (month_ok b (Z.to_nat days) = true) as Hm by (destruct b; [apply H1|apply H0]; apply in_seq; lia).
  unfold month_ok in Hm. rewrite Z2Nat.id in Hm by lia. destruct (utc_month 12 0 11 days b) as [m|]; [|done]. exists m. b2p. split; [done|lia].
Qed.

Lemma utc_years_Ok n fuel : forall v days, 0 <= v -> 0 <= days < 365 * Z.of_nat fuel -> days < 2 ^ 32 ->
  365 * v + leaps (v + 1970) + days = n ->
  exists v' days', utc_years fuel v days = Ok (v', days') /\ v <= v' /\ 365 * v' + leaps (v' + 1970) + days' = n /\
    0 <= days' < 365 + if leap (v' + 1970) then 1 else 0.
Proof.
  induction fuel as [|fuel IH]; intros v days Hv Hd Hu E; [lia|]. cbn [utc_years]. cbv zeta.
  assert ((if leap (v + 1970) then 366 else 365) = 365 + if leap (v + 1970) then 1 else 0) as -> by (by destruct (leap _)).
  pose proof (leaps_next (v + 1970) ltac:(lia)) as Hl. assert (0 <= (if leap (v + 1970) then 1 else 0) <= 1) as Hb by (destruct (leap _); lia).
  destruct (_ <=? days) eqn:Ec; b2p.
  - rewrite u32_small by lia. destruct (IH (v + 1) (days - (365 + if leap (v + 1970) then 1 else 0))) as (v' & d' & E' & H1 & H2 & H3); try lia.
    + replace (v + 1 + 1970) with (v + 1970 + 1) by lia. lia.
    + exists v', d'. split; [done|]. split; [lia|]. done.
  - exists v, days. split; [done|]. split; [lia|]. split; [done|lia].
Qed.

(** The conversion of days is right up to 1 January 2102. *)
Lemma utc2calendar_Ok n : 0 <= n <= 48212 ->
  exists y m d, clock_utc2calendar n = Ok (y, m + 1, d) /\ valid (y, m, d) /\ dayno y m d = n.
Proof.
  intros Hn. unfold clock_utc2calendar. cbv zeta. change (4 * 365 + 1) with 1461. rewrite Z.quot_div_nonneg by lia.
  assert (0 <= n / 1461 <= 32 /\ 0 <= n - n / 1461 * 1461 < 1461) as [Hq Hr] by modlia. rewrite (u32_small (n - _)) by lia. rewrite Z.shiftl_mul_pow2 by lia.
  change (2 ^ 2) with 4.
  destruct (utc_years_Ok n 5 (n / 1461 * 4) (n - n / 1461 * 1461)) as (v & d & -> & Hv & E & Hd); try lia.
  { generalize (n / 1461) Hq. intros q Hq'. unfold leaps. modlia. }
  rewrite bind_Ok. replace (v + 1970) with (1970 + v) in * by lia. destruct (utc_month_Ok (leap (1970 + v)) d Hd) as (m & -> & Hm & Hb).
  pose proof (before_mono (leap (1970 + v)) 0 m ltac:(lia) ltac:(lia) ltac:(lia)) as H0. rewrite before_0 in H0.
  assert (0 <= (if leap (1970 + v) then 1 else 0) <= 1) by (destruct (leap _); lia).
  rewrite bind_Ok, daysbeforemonth_Ok, bind_Ok by lia. rewrite u32_small by lia. exists (1970 + v), m, (d - before (leap (1970 + v)) m + 1).
  split; [done|]. pose proof (before_next (1970 + v) m ltac:(lia) Hm). simpl. unfold dayno. split; lia.
Qed.

Lemma calendar2utc_Ok y m d : valid (y, m, d) -> y <= 2100 -> clock_calendar2utc y m d = Ok (dayno y m d).
Proof.
  intros (Hy & Hm & Hd) Hb. unfold clock_calendar2utc. cbv zeta. rewrite daysbeforemonth_Ok, bind_Ok by lia. rewrite Z.shiftr_div_pow2 by lia. change (2 ^ 2) with 4.
  assert ((y - 1969) / 4 = leaps y) as -> by (unfold leaps; modlia). assert (0 <= leaps y <= 40) by (unfold leaps; modlia).
  pose proof (number_year y m d Hy Hm Hd) as Hr. pose proof (leaps_next y ltac:(lia)).
  pose proof (before_mono (leap y) 0 m ltac:(lia) ltac:(lia) ltac:(lia)) as H2. rewrite before_0 in H2. unfold dayno in *.
  pose proof (before_mono (leap y) m 12 ltac:(lia) ltac:(lia) ltac:(lia)) as H3. rewrite before_12 in H3. assert (0 <= (if leap y then 1 else 0) <= 1) by (destruct (leap y); lia).
  rewrite (u32_small ((y - 1970) * 365)), (u32_small (_ + leaps y)), (u32_small (_ + before _ _)), u32_small by lia. f_equal. lia.
Qed.

Lemma gmtime_Ok t : 0 <= t < 48213 * SEC_PER_DAY ->
  exists y m d, valid (y, m, d) /\ dayno y m d = t / SEC_PER_DAY /\
    gmtime_r t = Ok (mk_tm (t mod 60) (t / 60 mod 60) (t / 3600 mod 24) d m (y - 1900)).
Proof.
  unfold gmtime_r. change SEC_PER_DAY with 86400. change SEC_PER_HOUR with 3600. change SEC_PER_MIN with 60. intros Ht. cbv zeta.
  destruct (utc2calendar_Ok (t / 86400)) as (y & m & d & -> & Hv & E); [modlia|]. exists y, m, d. split; [done|]. split; [done|]. rewrite bind_Ok.
  rewrite (u32_small (t - _)) by modlia. rewrite (u32_small (t - _ - _)) by modlia. rewrite (u32_small (t - _ - _ - _)) by modlia. do 2 f_equal; modlia.
Qed.

Lemma mktime_Ok y m d hh mm ss : valid (y, m, d) -> y <= 2100 -> 0 <= hh < 24 -> 0 <= mm < 60 -> 0 <= ss < 60 ->
  mktime (mk_tm ss mm hh d m (y - 1900)) = Ok (dayno y m d * 86400 + hh * 3600 + mm * 60 + ss) /\ 0 <= dayno y m d <= 47846.
Proof.
  intros Hv Hy Hh Hmm Hs. unfold mktime. cbn [tm_year tm_mon tm_mday tm_hour tm_min tm_sec]. replace (y - 1900 + 1900) with y by lia.
  rewrite calendar2utc_Ok, bind_Ok by done. assert (0 <= dayno y m d <= 47846) as Hr.
  { destruct Hv as (H1 & H2 & H3). pose proof (number_year y m d H1 H2 H3). pose proof (leaps_bound (y + 1) (2100 - y) ltac:(lia) ltac:(lia)) as Hb.
    replace (y + 1 + (2100 - y)) with 2101 in Hb by lia. change (leaps 2101) with 32 in Hb. pose proof (leaps_bound 1970 (y - 1970) ltac:(lia) ltac:(lia)) as Hc.
    replace (1970 + (y - 1970)) with y in Hc by lia. change (leaps 1970) with 0 in Hc. lia. }
  split; [|done]. rewrite u32_small by lia. f_equal. lia.
Qed.

Lemma valid_iff y m d : 1970 <= y -> valid_date y m d = true <-> valid (y, m, d).
Proof.
  intros Hy. unfold valid_date, valid. rewrite !andb_true_iff, !Z.leb_le. lia.
Qed.

(** C38: [gmtime_r] gives the date of the calendar: 1 January 1970 and as many days
    as have passed, one after the other with leap years, and the time of day; for
    all times up to 1 January 2102. *)
Theorem gmtime_is_calendar (t : Z) :
  0 <= t < 48213 * SEC_PER_DAY ->
  exists tp, gmtime_r t = Ok tp /\ valid_tm tp = true /\ date_of (t / SEC_PER_DAY) = (tm_year tp + 1900, tm_mon tp, tm_mday tp) /\
    tm_hour tp * SEC_PER_HOUR + tm_min tp * SEC_PER_MIN + tm_sec tp = t mod SEC_PER_DAY.
Proof.
  intros Ht. destruct (gmtime_Ok t Ht) as (y & m & d & Hv & E & ->). eexists. split; [done|]. cbn [tm_year tm_mon tm_mday tm_hour tm_min tm_sec].
  assert (0 <= t / SEC_PER_DAY) by (apply Z.div_pos; [lia|done]). replace (y - 1900 + 1900) with y by lia. split_and!.
  - unfold valid_tm. cbn [tm_year tm_mon tm_mday tm_hour tm_min tm_sec]. replace (y - 1900 + 1900) with y by lia.
    rewrite !andb_true_iff, !Z.leb_le, !Z.ltb_lt. rewrite (proj2 (valid_iff y m d (proj1 Hv)) Hv). split_and!; try done; modlia.
  - by apply (date_of_number _ (y, m, d)).
  - change SEC_PER_DAY with 86400. change SEC_PER_HOUR with 3600. change SEC_PER_MIN with 60. modlia.
Qed.

Lemma gmtime_is_calendar_witness : exists tp, gmtime_r 1709251199 = Ok tp /\ date_of 19782 = (tm_year tp + 1900, tm_mon tp, tm_mday tp) /\ tm_mday tp = 29.
Proof.
  destruct (gmtime_is_calendar 1709251199) as (tp & E & _ & Hd & _); [unfold SEC_PER_DAY, SEC_PER_HOUR, SEC_PER_MIN; lia|].
  exists tp. split; [exact E|]. split; [exact Hd|]. vm_compute in E. injection E as <-. reflexivity.
Defined.

(** [mktime] of what [gmtime_r] gives. *)
Lemma mktime_back t : 0 <= t < 47847 * SEC_PER_DAY ->
  exists y m d, valid (y, m, d) /\ dayno y m d = t / SEC_PER_DAY /\ let tp := mk_tm (t mod 60) (t / 60 mod 60) (t / 3600 mod 24) d m (y - 1900) in
    gmtime_r t = Ok tp /\ mktime tp = Ok t.
Proof.
  intros Ht. destruct (gmtime_Ok t) as (y & m & d & Hd & E & Eg); [unfold SEC_PER_DAY, SEC_PER_HOUR, SEC_PER_MIN in *; lia|]. exists y, m, d. do 2 (split; [done|]). split; [done|].
  change SEC_PER_DAY with 86400 in *. assert (y <= 2100) as Hy'.
  { destruct Hd as (H1 & H2 & H3). pose proof (number_year y m d H1 H2 H3) as Hn. rewrite E in Hn. assert (t / 86400 < 47847) by modlia.
    destruct (Z.le_gt_cases y 2100); [done|]. pose proof (leaps_bound 2101 (y - 2101) ltac:(lia) ltac:(lia)) as Hb. replace (2101 + (y - 2101)) with y in Hb by lia.
    change (leaps 2101) with 32 in Hb. lia. }
  destruct (mktime_Ok y m d (t / 3600 mod 24) (t / 60 mod 60) (t mod 60) Hd Hy') as [-> _]; try modlia. f_equal. rewrite E. modlia.
Qed.

(** C15: Until the end of 2100 the conversions are inverse to each other: [mktime]
    of what [gmtime_r] gives is the time, and [gmtime_r] of what [mktime] gives for a
    valid date is that date. *)
Theorem mktime_gmtime_inverse (t : Z) (tp : tm) :
  0 <= t < 47847 * SEC_PER_DAY -> valid_tm tp = true -> 70 <= tm_year tp <= 200 ->
  (exists tp', gmtime_r t = Ok tp' /\ mktime tp' = Ok t) /\ (exists t', mktime tp = Ok t' /\ gmtime_r t' = Ok tp).
Proof.
  intros Ht Hv Hy. split.
  - destruct (mktime_back t Ht) as (y & m & d & _ & _ & -> & E). eauto.
  - destruct tp as [ss mm hh d m yy]. unfold valid_tm in Hv. cbn [tm_year tm_mon tm_mday tm_hour tm_min tm_sec] in *. b2p.
    assert (valid (yy + 1900, m, d)) as Hd by (apply valid_iff; [lia|done]).
    destruct (mktime_Ok (yy + 1900) m d hh mm ss Hd) as [E Hr]; try lia. replace (yy + 1900 - 1900) with yy in E by lia. eexists. split; [exact E|].
    set (t' := dayno _ _ _ * 86400 + _ + _ + _). assert (t' / 86400 = dayno (yy + 1900) m d) as Eq by (unfold t'; modlia).
    destruct (gmtime_Ok t') as (y' & m' & d' & Hd' & E' & ->); [unfold t', SEC_PER_DAY, SEC_PER_HOUR, SEC_PER_MIN; lia|]. change SEC_PER_DAY with 86400 in E'.
    assert ((y', m', d') = (yy + 1900, m, d)) as [= -> -> ->] by (apply number_inj; [done..|]; simpl; congruence).
    f_equal. f_equal; unfold t'; modlia.
Qed.

Lemma mktime_gmtime_inverse_witness :
  (exists tp', gmtime_r 4133980799 = Ok tp' /\ mktime tp' = Ok 4133980799) /\
  (exists t', mktime (mk_tm 59 59 23 29 1 124) = Ok t' /\ gmtime_r t' = Ok (mk_tm 59 59 23 29 1 124)).
Proof.
  apply mktime_gmtime_inverse; [unfold SEC_PER_DAY, SEC_PER_HOUR, SEC_PER_MIN; lia|reflexivity|cbn; lia].
Defined.

(** In 2101 they are not: [clock_calendar2utc] counts 2100 as a leap year and
    [clock_utc2calendar] does not, so that midnight of 1 January 2101 comes back as
    2 January; and two days in a row are both 1 January 2102. *)
Theorem mktime_2101_off_by_a_day :
  (exists t, mktime (mk_tm 0 0 0 1 0 201) = Ok t /\ gmtime_r t = Ok (mk_tm 0 0 0 2 0 201)) /\
  gmtime_r (48212 * SEC_PER_DAY) = Ok (mk_tm 0 0 0 1 0 202) /\ gmtime_r (48213 * SEC_PER_DAY) = Ok (mk_tm 0 0 0 1 0 202).
Proof. split; [exists (47848 * SEC_PER_DAY); split; vm_compute; reflexivity|]. split; vm_compute; reflexivity. Qed.

(** [clock_dow] gives the day of the week: 1 January 1970 was a Thursday, and
    every day is followed by the next one. *)
Theorem clock_dow_correct (n y m d : Z) :
  0 <= n -> date_of n = (y, m, d) -> clock_dow y m d = Ok ((n + 4) mod 7).
Proof.
  intros Hn E. destruct (date_of_valid (Z.to_nat n)) as [Hv Hk]. rewrite Z2Nat.id in Hv, Hk by done. rewrite E in Hv, Hk.
  destruct Hv as (Hy & Hm & Hd). simpl in Hk. unfold dayno, leaps in Hk. pose proof (leap_iff y ltac:(lia)) as Hl. unfold clock_dow.
  rewrite (proj2 (Z.ltb_ge m 0)) by lia. destruct Hd as [Hd _]. clear E.
  destruct (leap y) eqn:El; [destruct Hl as [Hl _]; specialize (Hl eq_refl)|assert (~ (y mod 4 = 0 /\ (y mod 100 <> 0 \/ y mod 400 = 0))) as Hl' by (intros H; by apply Hl in H); clear Hl].
  all: by_month m; cbn [Z.ltb Z.compare Pos.compare Pos.compare_cont]; unfold before in Hk; simpl in Hk; unfold array_get; simpl;
    rewrite !Z.quot_div_nonneg, Z.rem_mod_nonneg by modlia; f_equal; modlia.
Qed.

Lemma clock_dow_correct_witness : clock_dow 2024 1 29 = Ok ((19782 + 4) mod 7).
Proof. apply clock_dow_correct; [lia|vm_compute; reflexivity]. Defined.

(** The conversion of seconds always returns. *)
Lemma utc2calendar_returns n : 0 <= n < 2 ^ 32 -> exists x, clock_utc2calendar n = Ok x.
Proof.
  intros Hn. unfold clock_utc2calendar. cbv zeta. change (4 * 365 + 1) with 1461. rewrite Z.quot_div_nonneg by lia.
  assert (0 <= n / 1461 /\ 0 <= n - n / 1461 * 1461 < 1461) as [Hq Hr] by modlia. rewrite (u32_small (n - _)) by lia. rewrite Z.shiftl_mul_pow2 by lia.
  destruct (utc_years_Ok (365 * (n / 1461 * 2 ^ 2) + leaps (n / 1461 * 2 ^ 2 + 1970) + (n - n / 1461 * 1461)) 5 (n / 1461 * 2 ^ 2) (n - n / 1461 * 1461))
    as (v & d & -> & Hv & _ & Hd); [lia..|done|].
  rewrite bind_Ok. destruct (utc_month_Ok (leap (v + 1970)) d Hd) as (m & -> & Hm & Hb). rewrite bind_Ok, daysbeforemonth_Ok, bind_Ok by lia. eauto.
Qed.

Lemma gmtime_returns t : 0 <= t < 2 ^ 32 -> exists tp, gmtime_r t = Ok tp.
Proof.
  intros Ht. unfold gmtime_r. cbv zeta. change SEC_PER_DAY with 86400. destruct (utc2calendar_returns (t / 86400)) as ([[y m] d] & ->); [modlia|].
  rewrite bind_Ok. eauto.
Qed.
