(* ===== verification/Rtc.v ===== *)
(** * The real-time clock (src/nuttx/arch/arm/src/stm32/stm32f40xxx_rtcc.c)

    The time and date registers hold two digits of each field in BCD.  What they
    hold when they are read is a parameter; how they are unlocked for writing is not
    modelled. *)

From S2P Require Import Prelude Bits Calendar.
Local Open Scope Z_scope.

(** ** Register fields (hardware/stm32_rtcc.h) *)

Definition RTC_TR_SU_SHIFT : Z := 0.
Definition RTC_TR_SU_MASK : Z := Z.shiftl 15 RTC_TR_SU_SHIFT.
Definition RTC_TR_ST_MASK : Z := Z.shiftl 7 4.
Definition RTC_TR_MNU_SHIFT : Z := 8.
Definition RTC_TR_MNU_MASK : Z := Z.shiftl 15 RTC_TR_MNU_SHIFT.
Definition RTC_TR_MNT_MASK : Z := Z.shiftl 7 12.
Definition RTC_TR_HU_SHIFT : Z := 16.
Definition RTC_TR_HU_MASK : Z := Z.shiftl 15 RTC_TR_HU_SHIFT.
Definition RTC_TR_HT_MASK : Z := Z.shiftl 3 20.
Definition RTC_DR_DU_SHIFT : Z := 0.
Definition RTC_DR_DU_MASK : Z := Z.shiftl 15 RTC_DR_DU_SHIFT.
Definition RTC_DR_DT_MASK : Z := Z.shiftl 3 4.
Definition RTC_DR_MU_SHIFT : Z := 8.
Definition RTC_DR_MU_MASK : Z := Z.shiftl 15 RTC_DR_MU_SHIFT.
Definition RTC_DR_MT : Z := Z.shiftl 1 12.
Definition RTC_DR_YU_SHIFT : Z := 16.
Definition RTC_DR_YU_MASK : Z := Z.shiftl 15 RTC_DR_YU_SHIFT.
Definition RTC_DR_YT_MASK : Z := Z.shiftl 15 20.
Definition RTC_DR_RESERVED_BITS : Z := 0xff0000c0.

(** ** Digits *)

Fixpoint bin2bcd_loop (fuel : nat) (msbcd value : Z) : Z * Z :=
  match fuel with
  | O => (msbcd, value)
  | S fuel => if 10 <=? value then bin2bcd_loop fuel (u32 (msbcd + 1)) (value - 10) else (msbcd, value)
  end.

(** One turn for every ten. *)
Definition rtc_bin2bcd (value : Z) : Z :=
  let '(msbcd, value) := bin2bcd_loop (Z.to_nat (value / 10)) 0 value in
  Z.lor (u32 (Z.shiftl msbcd 4)) (u32 value).

Definition rtc_bcd2bin (value : Z) : Z :=
  let tens := u32 (Z.shiftr value 4 * 10) in
  s32 (u32 (tens + Z.land value 0x0f)).

(** ** Registers *)

(** [tr] and [dr] as [stm32_rtc_setdatetime] writes them. *)
Definition rtc_registers (tp : tm) : Z * Z :=
  let tr := Z.lor (Z.lor (u32 (Z.shiftl (rtc_bin2bcd (tm_sec tp)) RTC_TR_SU_SHIFT)) (u32 (Z.shiftl (rtc_bin2bcd (tm_min tp)) RTC_TR_MNU_SHIFT)))
              (u32 (Z.shiftl (rtc_bin2bcd (tm_hour tp)) RTC_TR_HU_SHIFT)) in
  let dr := Z.lor (Z.lor (u32 (Z.shiftl (rtc_bin2bcd (tm_mday tp)) RTC_DR_DU_SHIFT)) (u32 (Z.shiftl (rtc_bin2bcd (tm_mon tp + 1)) RTC_DR_MU_SHIFT)))
              (u32 (Z.shiftl (rtc_bin2bcd (tm_year tp - 100)) RTC_DR_YU_SHIFT)) in
  (tr, Z.land dr (not32 RTC_DR_RESERVED_BITS)).

Definition up_rtc_settime (tv_sec : Z) : res (Z * Z) :=
  newtime ← gmtime_r tv_sec;
  Ok (rtc_registers newtime).

(** The loop that samples the registers; [rd i] is what they hold at the access [i]. *)
Fixpoint rtc_sample (fuel : nat) (rd : nat -> Z * Z) (i : nat) : res (Z * Z) :=
  match fuel with
  | O => Err Diverge
  | S fuel =>
      let dr := (rd i).2 in
      let tr := (rd (i + 1)%nat).1 in
      let tmp := (rd (i + 2)%nat).2 in
      if tmp =? dr then Ok (tr, dr) else rtc_sample fuel rd (i + 3)%nat
  end.

Definition rtc_fields (tr dr : Z) : tm :=
  mk_tm (rtc_bcd2bin (Z.shiftr (Z.land tr (Z.lor RTC_TR_SU_MASK RTC_TR_ST_MASK)) RTC_TR_SU_SHIFT))
        (rtc_bcd2bin (Z.shiftr (Z.land tr (Z.lor RTC_TR_MNU_MASK RTC_TR_MNT_MASK)) RTC_TR_MNU_SHIFT))
        (rtc_bcd2bin (Z.shiftr (Z.land tr (Z.lor RTC_TR_HU_MASK RTC_TR_HT_MASK)) RTC_TR_HU_SHIFT))
        (rtc_bcd2bin (Z.shiftr (Z.land dr (Z.lor RTC_DR_DU_MASK RTC_DR_DT_MASK)) RTC_DR_DU_SHIFT))
        (rtc_bcd2bin (Z.shiftr (Z.land dr (Z.lor RTC_DR_MU_MASK RTC_DR_MT)) RTC_DR_MU_SHIFT) - 1)
        (rtc_bcd2bin (Z.shiftr (Z.land dr (Z.lor RTC_DR_YU_MASK RTC_DR_YT_MASK)) RTC_DR_YU_SHIFT) + 100).

Definition up_rtc_getdatetime (fuel : nat) (rd : nat -> Z * Z) : res tm :=
  '(tr, dr) ← rtc_sample fuel rd 0;
  Ok (rtc_fields tr dr).
