(* ===== verification/Clock.v ===== *)
(** * The clock (src/nuttx/sched/clock)

    Ticks of one millisecond, the time since power-up, the time of day with its base
    time, and the conversions that timeouts use, at the widths of the code:
    [time_t] and [clock_t] are unsigned and [long] and [sclock_t] signed integers of
    32 bits. *)

From S2P Require Import Prelude Bits Calendar Rtc.
Local Open Scope Z_scope.

Definition NSEC_PER_SEC : Z := 1000000000.
Definition USEC_PER_SEC : Z := 1000000.
Definition MSEC_PER_SEC : Z := 1000.
Definition NSEC_PER_MSEC : Z := 1000000.
Definition NSEC_PER_USEC : Z := 1000.
Definition USEC_PER_TICK : Z := 1000.
Definition TICK_PER_SEC : Z := USEC_PER_SEC / USEC_PER_TICK.
Definition NSEC_PER_TICK : Z := USEC_PER_TICK * NSEC_PER_USEC.
Definition CLOCK_REALTIME : Z := 0.

Record timespec := mk_ts { tv_sec : Z; tv_nsec : Z }.

(** The variables of the clock. *)
Record clock_s := mk_clock { g_basetime : timespec; ck_timer : Z; g_rtc_enabled : bool; rtc_regs : Z * Z }.

(** ** Time since power-up *)

Definition clock_systimespec (now : Z) : timespec :=
  let msecs := u32 (now * 1) in
  let secs := msecs / MSEC_PER_SEC in
  let nsecs := (msecs - secs * MSEC_PER_SEC) * NSEC_PER_MSEC in
  mk_ts (u32 secs) (s32 nsecs).

(** ** Time of day *)

(** The result, the value of errno if it is set, and the time if it is written; from
    the base time and the ticks. *)
Definition clock_gettime (base : timespec) (now clock_id : Z) : Z * option Z * option timespec :=
  if clock_id =? CLOCK_REALTIME then
    let ts := clock_systimespec now in
    let sec := u32 (tv_sec ts + tv_sec base) in
    let nsec := s32 (tv_nsec ts + u32 (tv_nsec base)) in
    if NSEC_PER_SEC <=? nsec then
      let carry := u32 (Z.quot nsec NSEC_PER_SEC) in
      (OK, None, Some (mk_ts (u32 (sec + carry)) (s32 (nsec - carry * NSEC_PER_SEC))))
    else (OK, None, Some (mk_ts sec nsec))
  else (ERROR, Some EINVAL, None).

Definition clock_settime (c : clock_s) (clock_id : Z) (tp : timespec) : res (Z * option Z * clock_s) :=
  if clock_id =? CLOCK_REALTIME then
    let bias := clock_systimespec (ck_timer c) in
    let sec := tv_sec tp in
    let nsec := tv_nsec tp in
    let '(sec, nsec) := if nsec <? tv_nsec bias then (u32 (sec - 1), s32 (nsec + NSEC_PER_SEC)) else (sec, nsec) in
    let nsec := s32 (nsec - tv_nsec bias) in
    let sec := u32 (sec - tv_sec bias) in
    regs ← (if g_rtc_enabled c then up_rtc_settime (tv_sec tp) else Ok (rtc_regs c));
    Ok (OK, None, mk_clock (mk_ts sec nsec) (ck_timer c) (g_rtc_enabled c) regs)
  else Ok (ERROR, Some EINVAL, c).

(** ** Start-up

    [rd] is what the registers of the real-time clock hold when they are read. *)

Definition clock_basetime (fuel : nat) (rd : nat -> Z * Z) : res timespec :=
  rtctime ← up_rtc_getdatetime fuel rd;
  sec ← mktime rtctime;
  Ok (mk_ts sec 0).

Definition clock_inittime (fuel : nat) (rd : nat -> Z * Z) (c : clock_s) : res clock_s :=
  base ← clock_basetime fuel rd;
  Ok (mk_clock base 0 (g_rtc_enabled c) (rtc_regs c)).

(** ** Arithmetic on times *)

Definition clock_timespec_add (ts1 ts2 : timespec) : timespec :=
  let sec := u32 (tv_sec ts1 + tv_sec ts2) in
  let nsec := s32 (tv_nsec ts1 + tv_nsec ts2) in
  if NSEC_PER_SEC <=? nsec then mk_ts (u32 (sec + 1)) (nsec - NSEC_PER_SEC) else mk_ts sec nsec.

Definition clock_timespec_subtract (ts1 ts2 : timespec) : timespec :=
  if tv_sec ts1 <? tv_sec ts2 then mk_ts 0 0
  else if (tv_sec ts1 =? tv_sec ts2) && (tv_nsec ts1 <=? tv_nsec ts2) then mk_ts 0 0
  else
    let sec := u32 (tv_sec ts1 - tv_sec ts2) in
    if tv_nsec ts1 <? tv_nsec ts2 then mk_ts (u32 (sec - 1)) (s32 (tv_nsec ts1 + NSEC_PER_SEC - tv_nsec ts2))
    else mk_ts sec (s32 (tv_nsec ts1 - tv_nsec ts2)).

Definition compare_timespec (a b : timespec) : Z :=
  if tv_sec a <? tv_sec b then -1
  else if tv_sec b <? tv_sec a then 1
  else s32 (tv_nsec a - tv_nsec b).

Definition clock_time2ticks (reltime : timespec) : Z :=
  let relnsec := tv_sec reltime * NSEC_PER_SEC + tv_nsec reltime in
  s32 (Z.quot (relnsec + NSEC_PER_TICK - 1) NSEC_PER_TICK).

Definition clock_ticks2time (t : Z) : timespec :=
  let sec := u32 (Z.quot t TICK_PER_SEC) in
  let remainder := s32 (u32 (t - TICK_PER_SEC * sec)) in
  mk_ts sec (s32 (remainder * NSEC_PER_TICK)).

(** The result, and the ticks from now to [abstime] if they are written. *)
Definition clock_abstime2ticks (base : timespec) (now clockid : Z) (abstime : timespec) : Z * option Z :=
  match clock_gettime base now clockid with
  | (_, _, None) => (EINVAL, None)
  | (_, _, Some currtime) =>
      if compare_timespec abstime currtime <? 0 then (OK, Some (-1))
      else
        let nsec := s32 (tv_nsec abstime - tv_nsec currtime) in
        let sec := u32 (tv_sec abstime - tv_sec currtime) in
        let '(sec, nsec) := if nsec <? 0 then (u32 (sec - 1), s32 (nsec + NSEC_PER_SEC)) else (sec, nsec) in
        (OK, Some (clock_time2ticks (mk_ts sec nsec)))
  end.

(** ** Resynchronization *)

(** The base time stays; the ticks of the difference are added to the counter.  The
    result is [rtc_diff]. *)
Definition clock_resynchronize (fuel : nat) (rd : nat -> Z * Z) (c : clock_s) : res (timespec * clock_s) :=
  rtc_time ← clock_basetime fuel rd;
  let bias := clock_systimespec (ck_timer c) in
  let sec := u32 (tv_sec bias + tv_sec (g_basetime c)) in
  let nsec := s32 (tv_nsec bias + tv_nsec (g_basetime c)) in
  let '(sec, nsec) := if NSEC_PER_SEC <=? nsec then
      let carry := Z.quot nsec NSEC_PER_SEC in (u32 (sec + carry), s32 (nsec - carry * NSEC_PER_SEC)) else (sec, nsec) in
  if (tv_sec rtc_time <? sec) || ((sec =? tv_sec rtc_time) && (tv_nsec rtc_time <=? nsec)) then Ok (mk_ts 0 0, c)
  else
    let dsec := u32 (tv_sec rtc_time - sec) in
    let dnsec := s32 (tv_nsec rtc_time - nsec) in
    let carry := if dnsec <? 0 then - (Z.quot (- (dnsec + 1)) NSEC_PER_SEC + 1) else if NSEC_PER_SEC <=? dnsec then Z.quot dnsec NSEC_PER_SEC else 0 in
    let '(dsec, dnsec) := if carry =? 0 then (dsec, dnsec) else (u32 (dsec + carry), s32 (dnsec - carry * NSEC_PER_SEC)) in
    let t := u32 (ck_timer c + u32 (dsec * MSEC_PER_SEC)) in
    let t := u32 (t + Z.quot (dnsec + NSEC_PER_TICK / 2) NSEC_PER_TICK) in
    Ok (mk_ts dsec dnsec, mk_clock (g_basetime c) t (g_rtc_enabled c) (rtc_regs c)).
