(* ===== verification/ClockProps.v ===== *)
(** * Properties of the clock

    A time is a number of nanoseconds; the operations on [timespec] compute what
    they should as long as the times fit, and the theorems on their limits say what
    happens when they do not. *)

From S2P Require Import Prelude Bits Calendar CalendarProps Rtc Clock.
Local Open Scope Z_scope.

Ltac ns := unfold NSEC_PER_TICK, TICK_PER_SEC, NSEC_PER_SEC, USEC_PER_SEC, MSEC_PER_SEC, NSEC_PER_MSEC, NSEC_PER_USEC, USEC_PER_TICK in *.

(** ** Times *)

Definition nsecs (t : timespec) : Z := tv_sec t * NSEC_PER_SEC + tv_nsec t.

Definition valid_ts (t : timespec) : bool := (0 <=? tv_sec t) && (tv_sec t <? 2 ^ 32) && (0 <=? tv_nsec t) && (tv_nsec t <? NSEC_PER_SEC).

Lemma valid_ts_iff t : valid_ts t = true <-> 0 <= tv_sec t < 2 ^ 32 /\ 0 <= tv_nsec t < 1000000000.
Proof. unfold valid_ts. ns. rewrite !andb_true_iff, !Z.leb_le, !Z.ltb_lt. lia. Qed.

Lemma nsecs_inj t t' : valid_ts t = true -> valid_ts t' = true -> nsecs t = nsecs t' -> t = t'.
Proof. destruct t, t'. rewrite !valid_ts_iff. unfold nsecs. ns. simpl. intros ? ? E. f_equal; lia. Qed.

Lemma systimespec_Ok now : 0 <= now < 2 ^ 32 -> clock_systimespec now = mk_ts (now / 1000) (now mod 1000 * 1000000).
Proof.
  intros Hn. unfold clock_systimespec. ns. cbv zeta. rewrite Z.mul_1_r, (u32_small now) by done. rewrite u32_small by modlia. rewrite s32_small by modlia.
  f_equal. modlia.
Qed.

Lemma ts_mod s n : 0 <= n < 1000000000 -> s mod 2 ^ 32 * 1000000000 + n = (s * 1000000000 + n) mod (2 ^ 32 * 1000000000).
Proof. intros Hn. modlia. Qed.

(** The time of day: the base time and the ticks since. *)
Lemma gettime_Ok base now : valid_ts base = true -> 0 <= now < 2 ^ 32 ->
  exists t, clock_gettime base now CLOCK_REALTIME = (OK, None, Some t) /\ valid_ts t = true /\
    nsecs t = (nsecs base + now * NSEC_PER_TICK) mod (2 ^ 32 * NSEC_PER_SEC).
Proof.
  rewrite valid_ts_iff. intros [Hs Hn] Hw. unfold clock_gettime. rewrite Z.eqb_refl, systimespec_Ok by done. cbn [tv_sec tv_nsec]. cbv zeta.
  rewrite (u32_small (tv_nsec base)) by lia. assert (0 <= now mod 1000 < 1000) as Hm by (apply Z.mod_pos_bound; lia).
  rewrite s32_small by lia. set (n := now mod 1000 * 1000000 + tv_nsec base). assert (0 <= n < 2000000000) as Hr by (unfold n; lia).
  assert (nsecs base + now * NSEC_PER_TICK = (now / 1000 + tv_sec base) * NSEC_PER_SEC + n) as E by (unfold nsecs, n; ns; modlia). rewrite E. clear E.
  generalize (now / 1000 + tv_sec base). intros s. unfold u32. clearbody n. clear Hm. ns. destruct (1000000000 <=? n) eqn:Ec; b2p.
  - rewrite Z.quot_div_nonneg by lia. assert (n / 1000000000 = 1) as -> by modlia. change (1 mod 2 ^ 32) with 1. rewrite s32_small by lia. eexists. split; [done|].
    rewrite valid_ts_iff. unfold nsecs. ns. cbn [tv_sec tv_nsec]. rewrite Zplus_mod_idemp_l. split; [modlia|].
    rewrite Z.mul_1_l, ts_mod by lia. f_equal. lia.
  - eexists. split; [done|]. rewrite valid_ts_iff. unfold nsecs. ns. cbn [tv_sec tv_nsec]. split; [modlia|]. apply ts_mod. lia.
Qed.

Lemma settime_Ok c tp : 0 <= ck_timer c < 2 ^ 32 -> valid_ts tp = true ->
  exists regs base, clock_settime c CLOCK_REALTIME tp = Ok (OK, None, mk_clock base (ck_timer c) (g_rtc_enabled c) regs) /\
    (if g_rtc_enabled c then up_rtc_settime (tv_sec tp) = Ok regs else regs = rtc_regs c) /\
    valid_ts base = true /\ nsecs base = (nsecs tp - ck_timer c * NSEC_PER_TICK) mod (2 ^ 32 * NSEC_PER_SEC).
Proof.
  rewrite valid_ts_iff. intros Hw [Hs Hn]. unfold clock_settime. rewrite Z.eqb_refl, systimespec_Ok by done. cbn [tv_sec tv_nsec]. cbv zeta.
  assert (exists regs, (if g_rtc_enabled c then up_rtc_settime (tv_sec tp) else Ok (rtc_regs c)) = Ok regs) as [regs Er].
  { destruct (g_rtc_enabled c); [|eauto]. unfold up_rtc_settime. destruct (gmtime_returns (tv_sec tp) Hs) as [t ->]. rewrite bind_Ok. eauto. }
  set (now := ck_timer c) in *. assert (0 <= now mod 1000 < 1000) as Hm by (apply Z.mod_pos_bound; lia). set (n := now mod 1000 * 1000000) in *.
  assert (0 <= n < 1000000000) as Hr by (unfold n; lia).
  assert (nsecs tp - now * NSEC_PER_TICK = (tv_sec tp - now / 1000) * NSEC_PER_SEC + (tv_nsec tp - n)) as E by (unfold nsecs, n; ns; modlia). rewrite E. clear E.
  generalize (now / 1000). intros q. clearbody n. clear Hm. ns. rewrite Er. exists regs. destruct (tv_nsec tp <? n) eqn:Ec; b2p; rewrite bind_Ok.
  - eexists. split; [done|]. split; [by destruct (g_rtc_enabled c); [|injection Er as <-]|]. rewrite valid_ts_iff. unfold nsecs, u32. ns. cbn [tv_sec tv_nsec].
    rewrite !s32_small by (rewrite ?s32_small by lia; lia). split; [modlia|]. rewrite Zminus_mod_idemp_l, ts_mod by lia. f_equal. lia.
  - eexists. split; [done|]. split; [by destruct (g_rtc_enabled c); [|injection Er as <-]|]. rewrite valid_ts_iff. unfold nsecs, u32. ns. cbn [tv_sec tv_nsec].
    rewrite !s32_small by lia. split; [modlia|]. rewrite ts_mod by lia. f_equal.
Qed.

(** C40: Setting the time of day and reading it any number of ticks later gives the
    time that was set and those ticks of a millisecond, up to the range of [time_t],
    as long as the counter of the ticks does not wrap around; right away it gives the
    very time that was set. *)
Theorem settime_gettime (c : clock_s) (tp : timespec) (n : Z) :
  0 <= n -> 0 <= ck_timer c -> ck_timer c + n < 2 ^ 32 -> valid_ts tp = true ->
  exists c' t, clock_settime c CLOCK_REALTIME tp = Ok (OK, None, c') /\ ck_timer c' = ck_timer c /\
    clock_gettime (g_basetime c') (ck_timer c + n) CLOCK_REALTIME = (OK, None, Some t) /\ valid_ts t = true /\
    nsecs t = (nsecs tp + n * NSEC_PER_TICK) mod (2 ^ 32 * NSEC_PER_SEC) /\ (n = 0 -> t = tp).
Proof.
  intros Hn Hc Hw Hv. destruct (settime_Ok c tp ltac:(lia) Hv) as (regs & base & -> & _ & Hb & Eb).
  destruct (gettime_Ok base (ck_timer c + n) Hb ltac:(lia)) as (t & Et & Ht & En). eexists _, t. split; [done|]. split; [done|]. cbn [g_basetime ck_timer].
  assert (nsecs t = (nsecs tp + n * NSEC_PER_TICK) mod (2 ^ 32 * NSEC_PER_SEC)) as E.
  { rewrite En, Eb, Zplus_mod_idemp_l. f_equal. lia. }
  split_and!; try done. intros ->. apply nsecs_inj; [done..|]. rewrite E, Z.mul_0_l, Z.add_0_r. apply Z.mod_small.
  apply valid_ts_iff in Hv. unfold nsecs. ns. lia.
Qed.

Lemma settime_gettime_witness :
  exists c' t, clock_settime (mk_clock (mk_ts 0 0) 1999 true (0, 0)) CLOCK_REALTIME (mk_ts 1709251199 500) = Ok (OK, None, c') /\ ck_timer c' = 1999 /\
    clock_gettime (g_basetime c') (1999 + 1) CLOCK_REALTIME = (OK, None, Some t) /\ valid_ts t = true /\
    nsecs t = (nsecs (mk_ts 1709251199 500) + 1 * NSEC_PER_TICK) mod (2 ^ 32 * NSEC_PER_SEC) /\ (1 = 0 -> t = mk_ts 1709251199 500).
Proof. apply (settime_gettime (mk_clock (mk_ts 0 0) 1999 true (0, 0)) (mk_ts 1709251199 500) 1); cbn; [lia..|reflexivity]. Defined.

(** When the counter of the ticks wraps around, after 49.7 days, the time of day
    goes back by that much: the calculation with 64 bits starts from a counter of 32. *)
Theorem time_goes_back (base : timespec) :
  valid_ts base = true -> nsecs base + 2 ^ 32 * NSEC_PER_TICK < 2 ^ 32 * NSEC_PER_SEC ->
  exists t t', clock_gettime base (2 ^ 32 - 1) CLOCK_REALTIME = (OK, None, Some t) /\ clock_gettime base (u32 (2 ^ 32 - 1 + 1)) CLOCK_REALTIME = (OK, None, Some t') /\
    nsecs t' = nsecs t - (2 ^ 32 - 1) * NSEC_PER_TICK.
Proof.
  intros Hb Hr. destruct (gettime_Ok base (2 ^ 32 - 1) Hb ltac:(lia)) as (t & Et & _ & En).
  destruct (gettime_Ok base 0 Hb ltac:(lia)) as (t' & Et' & _ & En'). exists t, t'. split; [done|]. split; [exact Et'|].
  apply valid_ts_iff in Hb. assert (0 <= nsecs base) by (unfold nsecs; ns; lia). rewrite En, En', !Z.mod_small; ns; lia.
Qed.

Lemma time_goes_back_witness :
  exists t t', clock_gettime (mk_ts 1000000000 0) (2 ^ 32 - 1) CLOCK_REALTIME = (OK, None, Some t) /\
    clock_gettime (mk_ts 1000000000 0) (u32 (2 ^ 32 - 1 + 1)) CLOCK_REALTIME = (OK, None, Some t') /\ nsecs t' = nsecs t - (2 ^ 32 - 1) * NSEC_PER_TICK.
Proof. apply time_goes_back; [reflexivity|unfold nsecs; ns; cbn; lia]. Defined.

(** ** Ticks *)

Lemma time2ticks_Ok t : valid_ts t = true -> clock_time2ticks t = s32 ((nsecs t + 999999) / 1000000).
Proof.
  rewrite valid_ts_iff. intros [Hs Hn]. unfold clock_time2ticks. fold (nsecs t). cbv zeta. assert (0 <= nsecs t) by (unfold nsecs; ns; lia). ns.
  rewrite Z.quot_div_nonneg by lia. do 2 f_equal. lia.
Qed.

(** Ticks converted to a time and back. *)
Theorem ticks_roundtrip (t : Z) : 0 <= t < 2 ^ 31 -> valid_ts (clock_ticks2time t) = true /\ clock_time2ticks (clock_ticks2time t) = t.
Proof.
  intros Ht. assert (clock_ticks2time t = mk_ts (t / 1000) (t mod 1000 * 1000000)) as ->.
  { unfold clock_ticks2time. change TICK_PER_SEC with 1000. ns. cbv zeta. rewrite Z.quot_div_nonneg by lia. rewrite (u32_small (t / 1000)) by modlia.
    assert (t - 1000 * (t / 1000) = t mod 1000) as -> by modlia. rewrite u32_small, (s32_small (t mod 1000)), s32_small by modlia. done. }
  assert (valid_ts (mk_ts (t / 1000) (t mod 1000 * 1000000)) = true) as Hv by (apply valid_ts_iff; cbn [tv_sec tv_nsec]; modlia).
  split; [done|]. rewrite time2ticks_Ok by done. unfold nsecs. ns. cbn [tv_sec tv_nsec]. rewrite s32_small; modlia.
Qed.

(** The difference to the current time, with its borrow. *)
Lemma abstime2ticks_Ok base now abstime t :
  clock_gettime base now CLOCK_REALTIME = (OK, None, Some t) -> valid_ts t = true -> valid_ts abstime = true ->
  clock_abstime2ticks base now CLOCK_REALTIME abstime =
    (OK, Some (if nsecs abstime <? nsecs t then -1 else s32 ((nsecs abstime - nsecs t + 999999) / 1000000))).
Proof.
  intros E Ht Ha. unfold clock_abstime2ticks. rewrite E. clear E. pose proof Ht as [T1 T2]%valid_ts_iff. pose proof Ha as [A1 A2]%valid_ts_iff.
  assert ((compare_timespec abstime t <? 0) = (nsecs abstime <? nsecs t)) as ->.
  { unfold compare_timespec, nsecs. ns. destruct (tv_sec abstime <? tv_sec t) eqn:E1; [|destruct (tv_sec t <? tv_sec abstime) eqn:E2]; b2p; rewrite ?s32_small by lia; lia. }
  destruct (nsecs abstime <? nsecs t) eqn:Ec; [done|]. b2p. cbv zeta. rewrite (s32_small (tv_nsec abstime - tv_nsec t)) by lia. unfold nsecs in Ec. ns.
  destruct (tv_nsec abstime - tv_nsec t <? 0) eqn:Eb; b2p; repeat f_equal.
  - rewrite (u32_small (tv_sec abstime - tv_sec t)), (u32_small (_ - 1)), s32_small by lia. rewrite time2ticks_Ok by (apply valid_ts_iff; cbn [tv_sec tv_nsec]; lia).
    unfold nsecs. ns. cbn [tv_sec tv_nsec]. do 2 f_equal. lia.
  - rewrite u32_small by lia. rewrite time2ticks_Ok by (apply valid_ts_iff; cbn [tv_sec tv_nsec]; lia). unfold nsecs. ns. cbn [tv_sec tv_nsec]. do 2 f_equal. lia.
Qed.

(** C39: The conversion of a deadline to ticks: a deadline that has passed gives -1;
    one that is at most 2^31 - 1 ticks ahead gives the least number of ticks after
    which the time of day is not before it; and one further ahead, up to 49.7 days,
    gives a negative number, as if it had passed. *)
Theorem abstime2ticks_correct (base abstime : timespec) (now : Z) :
  valid_ts base = true -> valid_ts abstime = true -> 0 <= now < 2 ^ 32 ->
  exists t n, clock_gettime base now CLOCK_REALTIME = (OK, None, Some t) /\ clock_abstime2ticks base now CLOCK_REALTIME abstime = (OK, Some n) /\
    let ahead := nsecs abstime - nsecs t in
    (ahead < 0 -> n = -1) /\
    (0 <= ahead <= (2 ^ 31 - 1) * NSEC_PER_TICK -> 0 <= n < 2 ^ 31 /\ (n - 1) * NSEC_PER_TICK < ahead <= n * NSEC_PER_TICK) /\
    ((2 ^ 31 - 1) * NSEC_PER_TICK < ahead <= (2 ^ 32 - 1) * NSEC_PER_TICK -> n < 0).
Proof.
  intros Hb Ha Hn. destruct (gettime_Ok base now Hb Hn) as (t & Et & Ht & _). eexists t, _. split; [done|]. split; [by apply abstime2ticks_Ok|]. cbv zeta. ns.
  destruct (nsecs abstime <? nsecs t) eqn:Ec; b2p; [split_and!; lia|]. set (a := nsecs abstime - nsecs t). assert (0 <= a) as H0 by (unfold a; lia). clearbody a.
  split_and!; intros Hd; [lia|rewrite s32_small by modlia; modlia|]. unfold s32. modlia.
Qed.

Lemma abstime2ticks_correct_witness :
  exists t n, clock_gettime (mk_ts 1000000000 0) 500 CLOCK_REALTIME = (OK, None, Some t) /\
    clock_abstime2ticks (mk_ts 1000000000 0) 500 CLOCK_REALTIME (mk_ts 1002592000 0) = (OK, Some n) /\ n < 0.
Proof.
  destruct (abstime2ticks_correct (mk_ts 1000000000 0) (mk_ts 1002592000 0) 500) as (t & n & Et & En & _ & _ & H); [reflexivity|reflexivity|lia|].
  exists t, n. split; [exact Et|]. split; [exact En|]. apply H. vm_compute in Et. injection Et as <-. unfold nsecs. ns. cbn. lia.
Defined.

(** ** Sums and differences *)

(** [clock_timespec_add] and [clock_timespec_subtract] add and subtract times:
    sums are normalized and exact as long as the seconds fit, differences are exact
    and zero instead of negative, and subtracting what was added gives the time
    back. *)
Theorem timespec_add_subtract (t1 t2 : timespec) :
  valid_ts t1 = true -> valid_ts t2 = true -> nsecs t1 + nsecs t2 < 2 ^ 32 * NSEC_PER_SEC ->
  valid_ts (clock_timespec_add t1 t2) = true /\ nsecs (clock_timespec_add t1 t2) = nsecs t1 + nsecs t2 /\
  valid_ts (clock_timespec_subtract t1 t2) = true /\ nsecs (clock_timespec_subtract t1 t2) = Z.max 0 (nsecs t1 - nsecs t2) /\
  clock_timespec_subtract (clock_timespec_add t1 t2) t2 = t1.
Proof.
  intros H1 H2 Hs.
  assert (forall t t', valid_ts t = true -> valid_ts t' = true -> valid_ts (clock_timespec_subtract t t') = true /\
    nsecs (clock_timespec_subtract t t') = Z.max 0 (nsecs t - nsecs t')) as Hsub.
  { clear. intros t t' H1%valid_ts_iff H2%valid_ts_iff. rewrite valid_ts_iff. unfold clock_timespec_subtract, nsecs. ns.
    destruct (tv_sec t <? tv_sec t') eqn:E1; [|destruct ((tv_sec t =? tv_sec t') && (tv_nsec t <=? tv_nsec t')) eqn:E2]; b2p; cbn [tv_sec tv_nsec]; [lia..|].
    apply andb_false_iff in E2. rewrite Z.eqb_neq, Z.leb_gt in E2. destruct (tv_nsec t <? tv_nsec t') eqn:E3; b2p; cbn [tv_sec tv_nsec].
    - rewrite (u32_small (tv_sec t - tv_sec t')), u32_small, s32_small by lia. lia.
    - rewrite u32_small, s32_small by lia. lia. }
  assert (valid_ts (clock_timespec_add t1 t2) = true /\ nsecs (clock_timespec_add t1 t2) = nsecs t1 + nsecs t2) as [Ha Ea].
  { clear Hsub. apply valid_ts_iff in H1, H2. rewrite valid_ts_iff. unfold clock_timespec_add, nsecs in *. ns. rewrite s32_small, (u32_small (tv_sec t1 + _)) by lia.
    destruct (1000000000 <=? tv_nsec t1 + tv_nsec t2) eqn:E; b2p; cbn [tv_sec tv_nsec]; rewrite ?u32_small by lia; lia. }
  destruct (Hsub t1 t2 H1 H2) as [Hb Eb]. split_and!; try done. destruct (Hsub _ t2 Ha H2) as [Hc Ec]. apply nsecs_inj; [done..|]. rewrite Ec, Ea.
  apply valid_ts_iff in H1. unfold nsecs. ns. lia.
Qed.

Lemma timespec_add_subtract_witness :
  let t1 := mk_ts 1 600000000 in let t2 := mk_ts 2 700000000 in
  valid_ts (clock_timespec_add t1 t2) = true /\ nsecs (clock_timespec_add t1 t2) = nsecs t1 + nsecs t2 /\
  valid_ts (clock_timespec_subtract t1 t2) = true /\ nsecs (clock_timespec_subtract t1 t2) = Z.max 0 (nsecs t1 - nsecs t2) /\
  clock_timespec_subtract (clock_timespec_add t1 t2) t2 = t1.
Proof. intros t1 t2. apply timespec_add_subtract; [reflexivity|reflexivity|vm_compute; reflexivity]. Defined.

(** ** Resynchronization *)

(** The current time as [clock_resynchronize] computes it. *)
Lemma current_time base now t : valid_ts base = true -> 0 <= now < 2 ^ 32 -> clock_gettime base now CLOCK_REALTIME = (OK, None, Some t) ->
  let sec := u32 (now / 1000 + tv_sec base) in let nsec := s32 (now mod 1000 * 1000000 + tv_nsec base) in
  (if NSEC_PER_SEC <=? nsec then let carry := Z.quot nsec NSEC_PER_SEC in (u32 (sec + carry), s32 (nsec - carry * NSEC_PER_SEC)) else (sec, nsec)) = (tv_sec t, tv_nsec t).
Proof.
  rewrite valid_ts_iff. intros [_ Hn] Hw E. unfold clock_gettime in E. rewrite Z.eqb_refl, systimespec_Ok in E by done. cbn [tv_sec tv_nsec] in E. cbv zeta in *.
  rewrite (u32_small (tv_nsec base)) in E by lia. ns. assert (0 <= now mod 1000 < 1000) by (apply Z.mod_pos_bound; lia).
  rewrite (s32_small (_ + tv_nsec base)) in * by lia. destruct (1000000000 <=? _) eqn:Ec; b2p; injection E as <-; [|done]. cbn [tv_sec tv_nsec].
  rewrite !(u32_small (Z.quot _ _)) by (rewrite Z.quot_div_nonneg by lia; modlia). done.
Qed.

(** The difference of two times as it is normalized there. *)
Lemma time_difference r t : valid_ts r = true -> valid_ts t = true -> nsecs t < nsecs r ->
  let dsec := u32 (tv_sec r - tv_sec t) in let dnsec := s32 (tv_nsec r - tv_nsec t) in
  let carry := if dnsec <? 0 then - (Z.quot (- (dnsec + 1)) NSEC_PER_SEC + 1) else if NSEC_PER_SEC <=? dnsec then Z.quot dnsec NSEC_PER_SEC else 0 in
  exists d, (if carry =? 0 then (dsec, dnsec) else (u32 (dsec + carry), s32 (dnsec - carry * NSEC_PER_SEC))) = (tv_sec d, tv_nsec d) /\
    valid_ts d = true /\ nsecs d = nsecs r - nsecs t.
Proof.
  rewrite !valid_ts_iff. intros Hr Ht Hlt. cbv zeta. unfold nsecs in *. ns. rewrite (s32_small (tv_nsec r - _)), (u32_small (tv_sec r - _)) by lia.
  destruct (tv_nsec r - tv_nsec t <? 0) eqn:E; b2p.
  - rewrite Z.quot_small by lia. cbn [Z.add Z.opp Z.eqb]. rewrite u32_small, s32_small by lia.
    exists (mk_ts (tv_sec r - tv_sec t + -1) (tv_nsec r - tv_nsec t - -1 * 1000000000)). split; [done|]. rewrite valid_ts_iff. cbn [tv_sec tv_nsec]. lia.
  - rewrite (proj2 (Z.leb_gt 1000000000 _)) by lia. cbn [Z.eqb]. exists (mk_ts (tv_sec r - tv_sec t) (tv_nsec r - tv_nsec t)). split; [done|].
    rewrite valid_ts_iff. cbn [tv_sec tv_nsec]. lia.
Qed.

(** Resynchronization with the real-time clock never sets the time of day back:
    when the real-time clock is ahead, the time of day becomes its time, to half a
    tick, and the difference is reported; otherwise nothing changes. *)
Theorem resynchronize_forward (fuel : nat) (rd : nat -> Z * Z) (c : clock_s) (r t : timespec) :
  clock_basetime fuel rd = Ok r -> valid_ts r = true -> valid_ts (g_basetime c) = true -> 0 <= ck_timer c < 2 ^ 32 ->
  clock_gettime (g_basetime c) (ck_timer c) CLOCK_REALTIME = (OK, None, Some t) ->
  nsecs (g_basetime c) + ck_timer c * NSEC_PER_TICK < 2 ^ 32 * NSEC_PER_SEC -> nsecs r + NSEC_PER_TICK < 2 ^ 32 * NSEC_PER_SEC ->
  ck_timer c + (nsecs r - nsecs t) / NSEC_PER_TICK + 1 < 2 ^ 32 ->
  exists diff c' t', clock_resynchronize fuel rd c = Ok (diff, c') /\ nsecs diff = Z.max 0 (nsecs r - nsecs t) /\
    clock_gettime (g_basetime c') (ck_timer c') CLOCK_REALTIME = (OK, None, Some t') /\
    (if nsecs t <? nsecs r then Z.abs (nsecs t' - nsecs r) <= NSEC_PER_TICK / 2 /\ nsecs t <= nsecs t' else c' = c).
Proof.
  intros Er Hr Hb Hw Et Hn Hrr Hk. destruct (gettime_Ok (g_basetime c) (ck_timer c) Hb Hw) as (t0 & Et0 & Ht & En). rewrite Et in Et0. injection Et0 as <-.
  rewrite Z.mod_small in En by (apply valid_ts_iff in Hb; unfold nsecs in *; ns; lia).
  unfold clock_resynchronize. rewrite Er, bind_Ok, systimespec_Ok by done. cbv zeta. cbn [tv_sec tv_nsec].
  pose proof (current_time _ _ _ Hb Hw Et) as Ect. cbv zeta in Ect. rewrite Ect. pose proof Ht as Ht'%valid_ts_iff. pose proof Hr as Hr'%valid_ts_iff.
  assert ((tv_sec r <? tv_sec t) || ((tv_sec t =? tv_sec r) && (tv_nsec r <=? tv_nsec t)) = negb (nsecs t <? nsecs r)) as ->.
  { apply eq_true_iff_eq. rewrite orb_true_iff, andb_true_iff, negb_true_iff, Z.ltb_lt, Z.eqb_eq, Z.leb_le, Z.ltb_ge. unfold nsecs. ns. lia. }
  destruct (nsecs t <? nsecs r) eqn:Ec; b2p; cbn [negb].
  - destruct (time_difference r t Hr Ht Ec) as (d & Ed & Hd & En'). cbv zeta in Ed. rewrite Ed. pose proof Hd as Hd'%valid_ts_iff.
    assert ((nsecs d + 500000) / 1000000 = tv_sec d * 1000 + (tv_nsec d + 500000) / 1000000) as Eq by (unfold nsecs; ns; modlia).
    rewrite <- En' in Hk. ns. change (1000 * 1000) with 1000000 in *. change (1000000 / 2) with 500000. rewrite Z.quot_div_nonneg by lia.
    assert (0 <= (tv_nsec d + 500000) / 1000000) by (apply Z.div_pos; lia). assert ((nsecs d + 500000) / 1000000 <= nsecs d / 1000000 + 1) by modlia.
    rewrite (u32_small (tv_sec d * 1000)), (u32_small (ck_timer c + _)), u32_small by lia.
    replace (ck_timer c + tv_sec d * 1000 + (tv_nsec d + 500000) / 1000000) with (ck_timer c + (nsecs d + 500000) / 1000000) by lia.
    assert (0 <= nsecs d) by (unfold nsecs; ns; lia). assert (0 <= nsecs (g_basetime c)) by (apply valid_ts_iff in Hb; unfold nsecs; ns; lia).
    destruct (gettime_Ok (g_basetime c) (ck_timer c + (nsecs d + 500000) / 1000000) Hb) as (t' & Et' & _ & Ent'); [split; [modlia|lia]|].
    eexists d, _, t'. split; [by destruct d|]. split; [lia|]. split; [exact Et'|]. ns. change (1000 * 1000) with 1000000 in *.
    rewrite Z.mod_small in Ent' by (split; [modlia|]; assert ((nsecs d + 500000) / 1000000 * 1000000 <= nsecs d + 500000) by modlia; lia). split; modlia.
  - eexists (mk_ts 0 0), c, t. split; [done|]. split; [unfold nsecs at 1; cbn [tv_sec tv_nsec]; lia|]. done.
Qed.

(** The clock is one second behind. *)
Lemma resynchronize_forward_witness :
  let rd := fun _ : nat => (0x000001, 0x240229) in
  exists diff c' t', clock_resynchronize 1 rd (mk_clock (mk_ts 1709164800 0) 0 true (0, 0)) = Ok (diff, c') /\ nsecs diff = NSEC_PER_SEC /\
    clock_gettime (g_basetime c') (ck_timer c') CLOCK_REALTIME = (OK, None, Some t') /\ Z.abs (nsecs t' - nsecs (mk_ts 1709164801 0)) <= NSEC_PER_TICK / 2.
Proof.
  intros rd.
  destruct (resynchronize_forward 1 rd (mk_clock (mk_ts 1709164800 0) 0 true (0, 0)) (mk_ts 1709164801 0) (mk_ts 1709164800 0)) as (diff & c' & t' & E1 & E2 & E3 & E4).
  1-3, 5-8: vm_compute; reflexivity.
  - cbn. lia.
  - exists diff, c', t'. split; [exact E1|]. split; [exact E2|]. split; [exact E3|]. exact (proj1 E4).
Defined.
