(* ===== verification/RtcProps.v ===== *)
(** * Properties of the real-time clock

    What is written to the registers is read back, from 2000 to 2099; so the time of
    day that is set is found again after a restart. *)

From S2P Require Import Prelude Bits Calendar CalendarProps Rtc Clock ClockProps.
Local Open Scope Z_scope.

(** ** Digits *)

Definition bcd (v : Z) : Z := 16 * (v / 10) + v mod 10.

Lemma bcds : forallb (fun i => rtc_bin2bcd (Z.of_nat i) =? bcd (Z.of_nat i)) (seq 0 100) = true.
Proof. vm_compute. reflexivity. Qed.

Lemma bin2bcd_Ok v : 0 <= v <= 99 -> rtc_bin2bcd v = bcd v.
Proof.
  intros Hv. pose proof bcds as H. rewrite forallb_forall in H. specialize (H (Z.to_nat v) ltac:(apply in_seq; lia)). rewrite Z2Nat.id in H by lia. by b2p.
Qed.

Lemma bcd2bin_Ok v : 0 <= v <= 99 -> rtc_bcd2bin (bcd v) = v.
Proof.
  intros Hv. unfold rtc_bcd2bin, bcd. rewrite Z.shiftr_div_pow2 by lia. change 15 with (Z.ones 4). rewrite Z.land_ones by lia. change (2 ^ 4) with 16.
  rewrite (u32_small (_ * 10)), u32_small, s32_small by modlia. modlia.
Qed.

(** ** Fields *)

Lemma pack_Ok a b c : 0 <= a < 2 ^ 8 -> 0 <= b < 2 ^ 8 -> 0 <= c < 2 ^ 8 ->
  Z.lor (Z.lor (u32 (Z.shiftl a 0)) (u32 (Z.shiftl b 8))) (u32 (Z.shiftl c 16)) = a + b * 2 ^ 8 + c * 2 ^ 16.
Proof.
  intros Ha Hb Hc. rewrite (u32_small (Z.shiftl a 0)), (u32_small (Z.shiftl b 8)), (u32_small (Z.shiftl c 16)) by (rewrite Z.shiftl_mul_pow2 by lia; lia).
  rewrite Z.shiftl_0_r, (lor_shift a), lor_shift by lia. done.
Qed.

Lemma field_Ok w k x : 0 <= w -> 0 <= k -> Z.shiftr (Z.land x (Z.shiftl (Z.ones w) k)) k = x / 2 ^ k mod 2 ^ w.
Proof. intros Hw Hk. rewrite shiftr_field by done. unfold field. by rewrite Z.land_ones, Z.shiftr_div_pow2. Qed.

Lemma reserved_Ok a y : 0 <= a < 2 ^ 6 -> 0 <= y < 2 ^ 16 -> Z.land (a + y * 2 ^ 8) (not32 RTC_DR_RESERVED_BITS) = a + y * 2 ^ 8.
Proof.
  intros Ha Hy. change (not32 RTC_DR_RESERVED_BITS) with (Z.lor (Z.ones 6) (Z.shiftl (Z.ones 16) 8)). rewrite <- lor_shift by lia.
  rewrite Z.land_lor_distr_l, !Z.land_lor_distr_r, <- Z.shiftl_land, (land_low_id y), (land_low_id a) by lia.
  replace (Z.land a (Z.shiftl (Z.ones 16) 8)) with 0; [replace (Z.land (Z.shiftl y 8) (Z.ones 6)) with 0; [by rewrite Z.lor_0_r|]|].
  - rewrite Z.land_ones, Z.shiftl_mul_pow2 by lia. change (2 ^ 8) with (4 * 2 ^ 6). rewrite Z.mul_assoc, Z.mod_mul by lia. done.
  - symmetry. apply Z.bits_inj'. intros i Hi. rewrite Z.bits_0, Z.land_spec, ones_shift_bits by lia. destruct (8 <=? i) eqn:E; b2p; [|by rewrite andb_false_r].
    by rewrite (testbit_high a 6 i) by lia.
Qed.

Lemma bcd_range v n : 0 <= v <= n -> n <= 99 -> 0 <= bcd v <= bcd n.
Proof. intros H1 H2. unfold bcd. modlia. Qed.

(** The registers as the hardware has them: the digits of seconds, minutes and hours,
    and those of the day, the month (from 1), the weekday in three bits of its own, and
    the year of the century. *)
Definition time_reg (tp : tm) : Z := bcd (tm_sec tp) + bcd (tm_min tp) * 2 ^ 8 + bcd (tm_hour tp) * 2 ^ 16.
Definition date_reg (tp : tm) (wday : Z) : Z :=
  bcd (tm_mday tp) + bcd (tm_mon tp + 1) * 2 ^ 8 + wday * 2 ^ 13 + bcd (tm_year tp - 100) * 2 ^ 16.

(** The ranges of the digits of a date. *)
Lemma tm_digits tp : valid_tm tp = true -> 100 <= tm_year tp <= 199 ->
  (0 <= tm_sec tp < 60 /\ 0 <= tm_min tp < 60 /\ 0 <= tm_hour tp < 24 /\ 1 <= tm_mday tp <= 31 /\ 0 <= tm_mon tp <= 11) /\
  (0 <= bcd (tm_sec tp) <= 89 /\ 0 <= bcd (tm_min tp) <= 89 /\ 0 <= bcd (tm_hour tp) <= 35) /\
  (0 <= bcd (tm_mday tp) <= 49 /\ 0 <= bcd (tm_mon tp + 1) <= 18 /\ 0 <= bcd (tm_year tp - 100) <= 153).
Proof.
  unfold valid_tm, valid_date. intros H Hy. b2p. pose proof (month_days_pos (tm_year tp + 1900) (tm_mon tp)).
  pose proof (bcd_range (tm_sec tp) 59 ltac:(lia) ltac:(lia)). pose proof (bcd_range (tm_min tp) 59 ltac:(lia) ltac:(lia)). pose proof (bcd_range (tm_hour tp) 23 ltac:(lia) ltac:(lia)).
  pose proof (bcd_range (tm_mday tp) 31 ltac:(lia) ltac:(lia)). pose proof (bcd_range (tm_mon tp + 1) 12 ltac:(lia) ltac:(lia)). pose proof (bcd_range (tm_year tp - 100) 99 ltac:(lia) ltac:(lia)).
  change (bcd 59) with 89 in *. change (bcd 23) with 35 in *. change (bcd 31) with 49 in *. change (bcd 12) with 18 in *. change (bcd 99) with 153 in *. lia.
Qed.

(** What the driver writes. *)
Lemma registers_packed tp : valid_tm tp = true -> 100 <= tm_year tp <= 199 -> rtc_registers tp = (time_reg tp, date_reg tp 0).
Proof.
  intros Hv Hy. destruct (tm_digits tp Hv Hy) as (R & D1 & D2). unfold rtc_registers, time_reg, date_reg. rewrite !bin2bcd_Ok by lia.
  unfold RTC_TR_SU_SHIFT, RTC_TR_MNU_SHIFT, RTC_TR_HU_SHIFT, RTC_DR_DU_SHIFT, RTC_DR_MU_SHIFT, RTC_DR_YU_SHIFT. rewrite !pack_Ok by lia. f_equal.
  replace (bcd (tm_mday tp) + bcd (tm_mon tp + 1) * 2 ^ 8 + bcd (tm_year tp - 100) * 2 ^ 16)
    with (bcd (tm_mday tp) + (bcd (tm_mon tp + 1) + bcd (tm_year tp - 100) * 2 ^ 8) * 2 ^ 8) by lia.
  rewrite reserved_Ok by lia. lia.
Qed.

(** What it reads, whatever the weekday. *)
Lemma fields_packed tp wday : valid_tm tp = true -> 100 <= tm_year tp <= 199 -> 0 <= wday < 8 -> rtc_fields (time_reg tp) (date_reg tp wday) = tp.
Proof.
  intros Hv Hy Hw. destruct (tm_digits tp Hv Hy) as (R & D1 & D2). unfold rtc_fields.
  change (Z.lor RTC_TR_SU_MASK RTC_TR_ST_MASK) with (Z.shiftl (Z.ones 7) 0). change (Z.lor RTC_TR_MNU_MASK RTC_TR_MNT_MASK) with (Z.shiftl (Z.ones 7) 8).
  change (Z.lor RTC_TR_HU_MASK RTC_TR_HT_MASK) with (Z.shiftl (Z.ones 6) 16). change (Z.lor RTC_DR_DU_MASK RTC_DR_DT_MASK) with (Z.shiftl (Z.ones 6) 0).
  change (Z.lor RTC_DR_MU_MASK RTC_DR_MT) with (Z.shiftl (Z.ones 5) 8). change (Z.lor RTC_DR_YU_MASK RTC_DR_YT_MASK) with (Z.shiftl (Z.ones 8) 16).
  unfold RTC_TR_SU_SHIFT, RTC_TR_MNU_SHIFT, RTC_TR_HU_SHIFT, RTC_DR_DU_SHIFT, RTC_DR_MU_SHIFT, RTC_DR_YU_SHIFT. rewrite !field_Ok by lia.
  assert (forall x v, x = bcd v -> 0 <= v <= 99 -> rtc_bcd2bin x = v) as Hb by (intros x v ->; apply bcd2bin_Ok). unfold time_reg, date_reg.
  destruct tp as [ss mm hh d m y]. cbn [tm_sec tm_min tm_hour tm_mday tm_mon tm_year] in *. f_equal; [apply Hb; [modlia|lia]..| |].
  - rewrite (Hb _ (m + 1)); [lia|modlia|lia].
  - rewrite (Hb _ (y - 100)); [lia|modlia|lia].
Qed.

Lemma registers_fields tp : valid_tm tp = true -> 100 <= tm_year tp <= 199 -> rtc_fields (rtc_registers tp).1 (rtc_registers tp).2 = tp.
Proof. intros Hv Hy. rewrite registers_packed by done. apply fields_packed; [done|done|lia]. Qed.

(** The registers of the real-time clock hold what is written: any valid date
    and time from 2000 to 2099 is read back as it was set. *)
Theorem rtc_roundtrip (tp : tm) :
  valid_tm tp = true -> 100 <= tm_year tp <= 199 -> let '(tr, dr) := rtc_registers tp in rtc_fields tr dr = tp.
Proof. intros Hv Hy. pose proof (registers_fields tp Hv Hy) as E. by destruct (rtc_registers tp). Qed.

Lemma rtc_roundtrip_witness : let '(tr, dr) := rtc_registers (mk_tm 59 59 23 31 11 199) in rtc_fields tr dr = mk_tm 59 59 23 31 11 199.
Proof. apply (rtc_roundtrip (mk_tm 59 59 23 31 11 199)); [reflexivity|cbn; lia]. Defined.

(** ** A restart *)

(** The times at which the registers hold a year. *)
Definition Y2000 : Z := 946684800.
Definition Y2100 : Z := 4102444800.

(** The date and time of a second of the calendar. *)
Definition tm_of (t : Z) : tm :=
  let '(y, m, d) := date_of (t / SEC_PER_DAY) in mk_tm (t mod 60) (t / 60 mod 60) (t / 3600 mod 24) d m (y - 1900).

Lemma tm_of_Ok t : Y2000 <= t < Y2100 ->
  valid_tm (tm_of t) = true /\ 100 <= tm_year (tm_of t) <= 199 /\ gmtime_r t = Ok (tm_of t) /\ mktime (tm_of t) = Ok t.
Proof.
  unfold Y2000, Y2100. intros Ht. destruct (mktime_back t) as (y & m & d & Hv & E & Eg & Em); [unfold SEC_PER_DAY, SEC_PER_HOUR, SEC_PER_MIN; lia|].
  unfold tm_of. rewrite (date_of_number (t / SEC_PER_DAY) (y, m, d)) by (done || change SEC_PER_DAY with 86400; modlia). split_and!; try done.
  - unfold valid_tm. cbn [tm_year tm_mon tm_mday tm_hour tm_min tm_sec]. replace (y - 1900 + 1900) with y by lia.
    rewrite !andb_true_iff, !Z.leb_le, !Z.ltb_lt. rewrite (proj2 (valid_iff y m d (proj1 Hv)) Hv). split_and!; try done; modlia.
  - cbn [tm_year]. destruct Hv as (H1 & H2 & H3). pose proof (number_year y m d H1 H2 H3) as Hn. rewrite E in Hn. change SEC_PER_DAY with 86400 in Hn.
    assert (10957 <= t / 86400 < 47482) as Hr by modlia. destruct (Z.le_gt_cases 2000 y); [lia|]. pose proof (leaps_bound (y + 1) (2000 - (y + 1)) ltac:(lia) ltac:(lia)) as Hb.
    replace (y + 1 + (2000 - (y + 1))) with 2000 in Hb by lia. change (leaps 2000) with 7 in Hb. lia.
  - cbn [tm_year]. destruct Hv as (H1 & H2 & H3). pose proof (number_year y m d H1 H2 H3) as Hn. rewrite E in Hn. change SEC_PER_DAY with 86400 in Hn.
    assert (10957 <= t / 86400 < 47482) as Hr by modlia. destruct (Z.le_gt_cases y 2099); [lia|].
    pose proof (leaps_bound 2100 (y - 2100) ltac:(lia) ltac:(lia)) as Hb. replace (2100 + (y - 2100)) with y in Hb by lia. change (leaps 2100) with 32 in Hb. lia.
Qed.

(** The registers show a second of the calendar, with some weekday. *)
Definition wday_of (dr : Z) : Z := dr / 2 ^ 13 mod 8.
Definition rtc_shows (r : Z * Z) (t : Z) : Prop := r = (time_reg (tm_of t), date_reg (tm_of t) (wday_of r.2)).

Lemma wday_date tp wday : valid_tm tp = true -> 100 <= tm_year tp <= 199 -> 0 <= wday < 8 -> wday_of (date_reg tp wday) = wday.
Proof. intros Hv Hy Hw. destruct (tm_digits tp Hv Hy) as (_ & _ & D). unfold wday_of, date_reg. modlia. Qed.

(** Setting the time makes them show it, and reading them gives it back. *)
Lemma settime_shows t : Y2000 <= t < Y2100 -> exists r, up_rtc_settime t = Ok r /\ rtc_shows r t.
Proof.
  intros Ht. destruct (tm_of_Ok t Ht) as (Hv & Hy & Eg & _). exists (time_reg (tm_of t), date_reg (tm_of t) 0). unfold up_rtc_settime, rtc_shows.
  rewrite Eg, bind_Ok, registers_packed by done. split; [done|]. cbn [snd]. by rewrite wday_date by (done || lia).
Qed.

Lemma shows_time r t : Y2000 <= t < Y2100 -> rtc_shows r t -> mktime (rtc_fields r.1 r.2) = Ok t.
Proof.
  intros Ht Hr. destruct (tm_of_Ok t Ht) as (Hv & Hy & _ & Em). rewrite Hr. cbn [fst snd]. rewrite fields_packed; [done|done|done|]. unfold wday_of. apply Z.mod_pos_bound. lia.
Qed.

(** The date register tells the day, and no more. *)
Lemma date_register t t' r r' : Y2000 <= t < Y2100 -> Y2000 <= t' < Y2100 -> rtc_shows r t -> rtc_shows r' t' ->
  (t / SEC_PER_DAY = t' / SEC_PER_DAY -> wday_of r.2 = wday_of r'.2) -> r.2 = r'.2 <-> t / SEC_PER_DAY = t' / SEC_PER_DAY.
Proof.
  intros Ht Ht' Hr Hr' Hw. split.
  - intros Ed. pose proof (shows_time _ _ Ht Hr) as E1. pose proof (shows_time _ _ Ht' Hr') as E2.
    destruct (tm_of_Ok t Ht) as (Hv & Hy & _). destruct (tm_of_Ok t' Ht') as (Hv' & Hy' & _).
    assert (0 <= wday_of r.2 < 8) as W1 by (unfold wday_of; apply Z.mod_pos_bound; lia). assert (0 <= wday_of r'.2 < 8) as W2 by (unfold wday_of; apply Z.mod_pos_bound; lia).
    pose proof (fields_packed _ _ Hv Hy W1) as F1. pose proof (fields_packed _ _ Hv' Hy' W2) as F2.
    assert (r.2 = date_reg (tm_of t) (wday_of r.2)) as D1 by (by rewrite Hr at 1). assert (r'.2 = date_reg (tm_of t') (wday_of r'.2)) as D2 by (by rewrite Hr' at 1).
    rewrite <- D1 in F1. rewrite <- D2, <- Ed in F2. apply (f_equal (fun tp => (tm_year tp, tm_mon tp, tm_mday tp))) in F1, F2.
    change (tm_year (rtc_fields ?a ?b), tm_mon (rtc_fields ?a ?b), tm_mday (rtc_fields ?a ?b))
      with (tm_year (rtc_fields 0 b), tm_mon (rtc_fields 0 b), tm_mday (rtc_fields 0 b)) in F1, F2. rewrite F1 in F2.
    unfold tm_of in F2. assert (forall n, 0 <= n -> number (date_of n) = n) as Hn by (intros n Hn; pose proof (proj2 (date_of_valid (Z.to_nat n))) as Q; by rewrite Z2Nat.id in Q).
    change SEC_PER_DAY with 86400 in *. rewrite <- (Hn (t / 86400)), <- (Hn (t' / 86400)) by (unfold Y2000 in *; modlia).
    destruct (date_of (t / 86400)) as [[y m] d], (date_of (t' / 86400)) as [[y' m'] d']. cbn [tm_year tm_mon tm_mday] in F2. injection F2 as F3 F4 F5. do 2 f_equal; [f_equal|]; lia.
  - intros Ed. rewrite Hr, Hr'. cbn [snd]. rewrite (Hw Ed). unfold date_reg, tm_of. rewrite Ed. by destruct (date_of _) as [[y m] d].
Qed.

Section Restart.
(** What the registers hold some seconds after they were set: the clock counts the
    seconds of the calendar until the end of 2099, and the weekday changes with the day
    only. *)
Context (rtc_after : Z * Z -> Z -> Z * Z).
Hypothesis rtc_counts : forall t n r, Y2000 <= t -> 0 <= n -> t + n < Y2100 -> rtc_shows r t -> rtc_shows (rtc_after r n) (t + n).
Hypothesis rtc_weekday : forall t n n' r, Y2000 <= t -> 0 <= n -> 0 <= n' -> t + n < Y2100 -> t + n' < Y2100 -> rtc_shows r t -> (t + n) / SEC_PER_DAY = (t + n') / SEC_PER_DAY ->
  wday_of (rtc_after r n).2 = wday_of (rtc_after r n').2.

Lemma basetime_Ok t r (s : nat -> Z) :
  Y2000 <= t -> rtc_shows r t -> (forall i j, (i <= j)%nat -> s i <= s j) -> 0 <= s 0%nat -> s 5%nat < s 0%nat + SEC_PER_DAY -> t + s 5%nat < Y2100 ->
  exists i, (i <= 5)%nat /\ clock_basetime 2 (fun i => rtc_after r (s i)) = Ok (mk_ts (t + s i) 0).
Proof.
  intros Ht Er Hs H0 H5 Hm. assert (forall i, (i <= 5)%nat -> 0 <= s i /\ Y2000 <= t + s i < Y2100 /\ rtc_shows (rtc_after r (s i)) (t + s i)) as Hrd.
  { intros i Hi. pose proof (Hs 0%nat i ltac:(lia)). pose proof (Hs i 5%nat Hi). split; [lia|]. split; [lia|]. apply rtc_counts; try done; lia. }
  assert (forall i j, (i <= 5)%nat -> (j <= 5)%nat -> (rtc_after r (s i)).2 = (rtc_after r (s j)).2 <-> (t + s i) / SEC_PER_DAY = (t + s j) / SEC_PER_DAY) as Hday.
  { intros i j Hi Hj. destruct (Hrd i Hi) as (P1 & R1 & E1). destruct (Hrd j Hj) as (P2 & R2 & E2). apply date_register; try done. by apply rtc_weekday; try lia. }
  assert (forall i, (i <= 5)%nat -> mktime (rtc_fields (rtc_after r (s i)).1 (rtc_after r (s i)).2) = Ok (t + s i)) as Hmk.
  { intros i Hi. destruct (Hrd i Hi) as (_ & R1 & E1). by apply shows_time. }
  pose proof (Hs 0%nat 1%nat ltac:(lia)). pose proof (Hs 1%nat 2%nat ltac:(lia)). pose proof (Hs 2%nat 3%nat ltac:(lia)). pose proof (Hs 3%nat 4%nat ltac:(lia)). pose proof (Hs 4%nat 5%nat ltac:(lia)).
  unfold clock_basetime, up_rtc_getdatetime. cbn [rtc_sample Nat.add]. cbv zeta. change SEC_PER_DAY with 86400 in *. destruct (_ =? _) eqn:E; b2p.
  - exists 1%nat. split; [lia|]. rewrite bind_Ok. apply Hday in E; [|lia..]. rewrite (proj2 (Hday 0%nat 1%nat ltac:(lia) ltac:(lia))) by modlia. by rewrite bind_Ok, Hmk, bind_Ok by lia.
  - assert ((t + s 0%nat) / 86400 <> (t + s 2%nat) / 86400) as Hne by (intros Heq; apply E; symmetry; by apply Hday; [lia..|]).
    exists 4%nat. split; [lia|]. rewrite (proj2 (Z.eqb_eq _ _)) by (apply Hday; [lia..|modlia]). rewrite bind_Ok.
    rewrite (proj2 (Hday 3%nat 4%nat ltac:(lia) ltac:(lia))) by modlia. by rewrite bind_Ok, Hmk, bind_Ok by lia.
Qed.

(** C14: The time of day survives a restart: when it has been set, from 2000 on, and the
    system starts again any time later, until the end of 2099, the time of day is again what was set and the
    seconds that have passed, whatever second, minute or midnight passes while the
    registers are read. *)
Theorem time_survives_restart (c : clock_s) (tp : timespec) (s : nat -> Z) :
  g_rtc_enabled c = true -> 0 <= ck_timer c < 2 ^ 32 -> valid_ts tp = true -> Y2000 <= tv_sec tp ->
  (forall i j, (i <= j)%nat -> s i <= s j) -> 0 <= s 0%nat -> s 5%nat < s 0%nat + SEC_PER_DAY -> tv_sec tp + s 5%nat < Y2100 ->
  exists c' c'' i, clock_settime c CLOCK_REALTIME tp = Ok (OK, None, c') /\
    clock_inittime 2 (fun i => rtc_after (rtc_regs c') (s i)) c' = Ok c'' /\ (i <= 5)%nat /\
    clock_gettime (g_basetime c'') (ck_timer c'') CLOCK_REALTIME = (OK, None, Some (mk_ts (tv_sec tp + s i) 0)).
Proof.
  intros He Hw Hv Ht Hs H0 H5 Hm. destruct (settime_Ok c tp Hw Hv) as (regs & base & Es & Er & _). rewrite He in Er. eexists.
  pose proof (Hs 0%nat 5%nat ltac:(lia)) as H05. destruct (settime_shows (tv_sec tp) ltac:(lia)) as (r & Er' & Hr). rewrite Er in Er'. injection Er' as <-.
  destruct (basetime_Ok (tv_sec tp) regs s Ht Hr Hs H0 H5 Hm) as (i & Hi & Eb). eexists _, i. split; [exact Es|]. cbn [rtc_regs]. unfold clock_inittime. rewrite Eb, bind_Ok.
  split; [done|]. split; [done|]. cbn [g_basetime ck_timer]. pose proof (Hs 0%nat i ltac:(lia)). pose proof (Hs i 5%nat Hi). unfold Y2000, Y2100 in *.
  destruct (gettime_Ok (mk_ts (tv_sec tp + s i) 0) 0) as (t' & -> & Ht' & En); [apply valid_ts_iff; cbn [tv_sec tv_nsec]; lia|lia|].
  do 2 f_equal. apply nsecs_inj; [done|apply valid_ts_iff; cbn [tv_sec tv_nsec]; lia|]. rewrite En, Z.add_0_r. apply Z.mod_small. unfold nsecs. ns. cbn [tv_sec tv_nsec]. lia.
Qed.
End Restart.

(** A real-time clock that counts. *)
Definition demo_rtc (r : Z * Z) (n : Z) : Z * Z :=
  match mktime (rtc_fields r.1 r.2) with
  | Ok t => (time_reg (tm_of (t + n)), date_reg (tm_of (t + n)) (((t + n) / SEC_PER_DAY + 3) mod 7 + 1))
  | Err _ => r
  end.

Lemma demo_rtc_counts t n r : Y2000 <= t -> 0 <= n -> t + n < Y2100 -> rtc_shows r t -> rtc_shows (demo_rtc r n) (t + n).
Proof.
  intros H1 H2 H3 Hr. unfold demo_rtc. rewrite (shows_time r t) by (done || lia). destruct (tm_of_Ok (t + n) ltac:(lia)) as (Hv & Hy & _).
  unfold rtc_shows. cbn [snd]. rewrite wday_date; [done|done|done|]. pose proof (Z.mod_pos_bound ((t + n) / SEC_PER_DAY + 3) 7). lia.
Qed.

Lemma demo_rtc_weekday t n n' r : Y2000 <= t -> 0 <= n -> 0 <= n' -> t + n < Y2100 -> t + n' < Y2100 -> rtc_shows r t ->
  (t + n) / SEC_PER_DAY = (t + n') / SEC_PER_DAY -> wday_of (demo_rtc r n).2 = wday_of (demo_rtc r n').2.
Proof.
  intros H1 H2 H3 H4 H5 Hr Ed. unfold demo_rtc. rewrite (shows_time r t) by (done || lia). cbn [snd]. rewrite Ed.
  destruct (tm_of_Ok (t + n) ltac:(lia)) as (Hv & Hy & _). destruct (tm_of_Ok (t + n') ltac:(lia)) as (Hv' & Hy' & _).
  pose proof (Z.mod_pos_bound ((t + n') / SEC_PER_DAY + 3) 7 ltac:(lia)). by rewrite !wday_date by (done || lia).
Qed.

(** Set two seconds before midnight; the day ends while the registers are read. *)
Lemma time_survives_restart_witness :
  exists c' c'' i, clock_settime (mk_clock (mk_ts 0 0) 1999 true (0, 0)) CLOCK_REALTIME (mk_ts 1709251198 500) = Ok (OK, None, c') /\
    clock_inittime 2 (fun i => demo_rtc (rtc_regs c') (Z.of_nat i)) c' = Ok c'' /\ (i <= 5)%nat /\
    clock_gettime (g_basetime c'') (ck_timer c'') CLOCK_REALTIME = (OK, None, Some (mk_ts (1709251198 + Z.of_nat i) 0)).
Proof.
  apply (time_survives_restart demo_rtc demo_rtc_counts demo_rtc_weekday (mk_clock (mk_ts 0 0) 1999 true (0, 0)) (mk_ts 1709251198 500) Z.of_nat);
    cbn; unfold Y2000, Y2100, SEC_PER_DAY, SEC_PER_HOUR, SEC_PER_MIN; [reflexivity|lia|reflexivity|lia|intros i j; lia|lia|lia|lia].
Defined.

(** A time before 2000 is stored as a year that does not exist: setting 31
    December 1999 reports success, and is read back as a day in 2165. *)
Theorem rtc_before_2000 :
  exists r, up_rtc_settime (Y2000 - 1) = Ok r /\ rtc_fields r.1 r.2 = mk_tm 59 59 23 31 11 265.
Proof. eexists. split; [vm_compute; reflexivity|vm_compute; reflexivity]. Qed.
