(* ===== verification/Timed.v ===== *)
(** * Waiting with a timeout (src/nuttx/sched/semaphore/sem_tickwait.c, sem_timedwait.c)

    The scheduler and the semaphores of [Kern] together with the watchdogs of
    [Wdog] and the clock of [Clock].  A call of [nxsem_tickwait] or
    [nxsem_timedwait] takes a watchdog, tries to take the semaphore, and if that
    fails starts the watchdog and waits; the tick
    interrupt counts the clock, then the time slice, then the watchdogs, whose
    function [nxsem_timeout] ends the wait.  A task in such a call has a [twait]
    that says how far it has got; between its sections interrupts and other tasks
    run. *)

From stdpp Require Import functions.
From S2P Require Import Prelude Bits Links Queue Wdog Sched Sem Task Kern Clock.
Import Dq.
Local Open Scope Z_scope.

(** How long a call waits: [delay] ticks from [start] ([nxsem_tickwait]), or until a
    time of day ([nxsem_timedwait]). *)
Inductive limit := Ticks (start delay : Z) | Until (abstime : timespec).

(** Where a call is: before [wd_create], before the critical section, waiting, or
    before [wd_delete].  A call that waits has started its watchdog for what is left
    of [delay] ticks from [start]. *)
Inductive twait :=
  | WCreate (sem : Z) (lim : limit)
  | WTake (sem : Z) (lim : limit)
  | WBlocked (sem : Z) (lim : limit) (start delay : Z)
  | WDelete (ret : Z).

Record tst := mk_tst {
  tk : kst;
  wds : wd_state;
  g_system_timer : Z;
  calls : gmap Z twait;
  base : timespec
}.

Inductive tevent := TKern (e : event) | TCall (sem : Z) (lim : limit) | TRun (newmem : Z) (raw : wdog_s) | TTick.

Section Timed.
(** The address of [nxsem_timeout]. *)
Context (entry : Z).

(** ** Sections of the calls

    Each gives the rest of the call, or none when it returns. *)

(** [newmem] is what [kmm_malloc] returns in [wd_create], and [raw] its contents. *)
Definition tickwait_create (newmem : Z) (raw : wdog_s) (k : ksys) (w : wd_state) (rtcb sem : Z) (lim : limit) :
    res (option twait * list obs * ksys * wd_state) :=
  '(w, waitdog) ← wd_create false newmem raw w;
  k ← ktupd k rtcb (fun t => set_waitdog t waitdog);
  if waitdog =? 0 then Ok (None, [OReturn rtcb (- ENOMEM)], k, w)
  else Ok (Some (WTake sem lim), [], k, w).

Definition timedwait_create (newmem : Z) (raw : wdog_s) (k : ksys) (w : wd_state) (rtcb sem : Z) (lim : limit) :
    res (option twait * list obs * ksys * wd_state) :=
  if sem =? 0 then Ok (None, [OReturn rtcb (- EINVAL)], k, w)
  else tickwait_create newmem raw k w rtcb sem lim.

(** The critical section of [nxsem_tickwait], up to the call that blocks; with what
    the task does when it runs again. *)
Definition tickwait_take (now : Z) (k : ksys) (w : wd_state) (rtcb sem start delay : Z) :
    res (twait * list act * list obs * ksys * wd_state) :=
  '(ret, k) ← nxsem_trywait k sem;
  if ret =? OK then Ok (WDelete ret, [], [OTake sem], k, w)
  else if delay =? 0 then Ok (WDelete ret, [], [], k, w)
  else
    let elapsed := u32 (now - start) in
    if delay <=? elapsed then Ok (WDelete (- ETIMEDOUT), [], [], k, w)
    else
      t ← tget (sch k) rtcb;
      '(w, _) ← wd_start w (waitdog t) (s32 (u32 (delay - elapsed))) entry 1 [pid t];
      '(o, k) ← nxsem_wait k sem;
      match o with
      | Block saved_errno => Ok (WBlocked sem (Ticks start delay) start delay, [AWaitEnd sem saved_errno], [], k, w)
      | Done ret =>
          if ret <? 0 then Ok (WDelete ret, [], [], k, w)
          else '(w, _) ← wd_cancel w (waitdog t); Ok (WDelete ret, [], [OTake sem], k, w)
      end.

(** The critical section of [nxsem_timedwait]. *)
Definition timedwait_take (base : timespec) (now : Z) (k : ksys) (w : wd_state) (rtcb sem : Z) (abstime : timespec) :
    res (twait * list act * list obs * ksys * wd_state) :=
  '(ret, k) ← nxsem_trywait k sem;
  if ret =? OK then Ok (WDelete ret, [], [OTake sem], k, w)
  else if (tv_nsec abstime <? 0) || (1000000000 <=? tv_nsec abstime) then Ok (WDelete (- EINVAL), [], [], k, w)
  else
    match clock_abstime2ticks base now CLOCK_REALTIME abstime with
    | (status, None) => Ok (WDelete (- status), [], [], k, w)
    | (status, Some ticks) =>
        if ticks <=? 0 then Ok (WDelete (- ETIMEDOUT), [], [], k, w)
        else
          t ← tget (sch k) rtcb;
          '(w, _) ← wd_start w (waitdog t) ticks entry 1 [pid t];
          '(o, k) ← nxsem_wait k sem;
          match o with
          | Block saved_errno => Ok (WBlocked sem (Until abstime) now ticks, [AWaitEnd sem saved_errno], [], k, w)
          | Done ret => '(w, _) ← wd_cancel w (waitdog t); Ok (WDelete ret, [], took sem ret, k, w)
          end
    end.

(** The rest of the critical section, when the task runs again. *)
Definition tickwait_wake (k : ksys) (w : wd_state) (rtcb sem saved_errno : Z) : res (twait * list obs * ksys * wd_state) :=
  '(ret, k) ← nxsem_wait_end k rtcb saved_errno;
  t ← tget (sch k) rtcb;
  if ret <? 0 then Ok (WDelete ret, [], k, w)
  else '(w, _) ← wd_cancel w (waitdog t); Ok (WDelete ret, took sem ret, k, w).

Definition timedwait_wake (k : ksys) (w : wd_state) (rtcb sem saved_errno : Z) : res (twait * list obs * ksys * wd_state) :=
  '(ret, k) ← nxsem_wait_end k rtcb saved_errno;
  t ← tget (sch k) rtcb;
  '(w, _) ← wd_cancel w (waitdog t);
  Ok (WDelete ret, took sem ret, k, w).

(** The end of both calls. *)
Definition tickwait_delete (k : ksys) (w : wd_state) (rtcb ret : Z) : res (list obs * ksys * wd_state) :=
  t ← tget (sch k) rtcb;
  '(w, _, _) ← wd_delete w (waitdog t);
  k ← ktupd k rtcb (fun t => set_waitdog t 0);
  Ok ([OReturn rtcb ret], k, w).

(** ** The tick interrupt *)

Definition clock_timer (now : Z) : Z := u32 (now + 1).

Definition clock_systimer (now : Z) : Z := now.

(** The functions of the watchdogs that have expired, in their order. *)
Fixpoint run_expired (k : ksys) (log : list (Z * list Z)) : res ksys :=
  match log with
  | [] => Ok k
  | (func, args) :: log =>
      '(_, k) ← (if func =? entry then nxsem_timeout k (hd 0 args) else Ok (false, k));
      run_expired k log
  end.

(** The functions of watchdogs do not touch the watchdogs themselves. *)
Definition nxsched_process_timer (now : Z) (k : ksys) (w : wd_state) : res (Z * ksys * wd_state) :=
  let now := clock_timer now in
  '(_, s) ← nxsched_cpu_scheduler (sch k);
  '(w, log) ← wd_timer (fun _ _ w => Ok w) w;
  k ← run_expired (set_sch k s) log;
  Ok (now, k, w).

(** ** Steps *)

(** The next section of the call of the running task. *)
Definition trun1 (newmem : Z) (raw : wdog_s) (st : tst) (rtcb : Z) (f : twait) : res (list obs * tst) :=
  let k := ks (tk st) in
  let F := progs (tk st) in
  let now := g_system_timer st in
  match f with
  | WCreate sem lim =>
      '(f, o, k, w) ← match lim with
        | Ticks _ _ => tickwait_create newmem raw k (wds st) rtcb sem lim
        | Until _ => timedwait_create newmem raw k (wds st) rtcb sem lim
        end;
      Ok (o, mk_tst (mk_kst k F) w now (partial_alter (fun _ => f) rtcb (calls st)) (base st))
  | WTake sem lim =>
      '(f, p, o, k, w) ← match lim with
        | Ticks start delay => tickwait_take (clock_systimer now) k (wds st) rtcb sem start delay
        | Until abstime => timedwait_take (base st) (clock_systimer now) k (wds st) rtcb sem abstime
        end;
      Ok (o, mk_tst (mk_kst k (<[rtcb := p]> F)) w now (<[rtcb := f]> (calls st)) (base st))
  | WBlocked sem lim _ _ =>
      match prog (tk st) rtcb with
      | AWaitEnd _ saved_errno :: rest =>
          '(f, o, k, w) ← match lim with
            | Ticks _ _ => tickwait_wake k (wds st) rtcb sem saved_errno
            | Until _ => timedwait_wake k (wds st) rtcb sem saved_errno
            end;
          Ok (o, mk_tst (mk_kst k (<[rtcb := rest]> F)) w now (<[rtcb := f]> (calls st)) (base st))
      | _ => Ok ([], st)
      end
  | WDelete ret =>
      '(o, k, w) ← tickwait_delete k (wds st) rtcb ret;
      Ok (o, mk_tst (mk_kst k F) w now (delete rtcb (calls st)) (base st))
  end.

Definition tstep (st : tst) (ev : tevent) : res (list obs * tst) :=
  let rtcb := this_task (sch (ks (tk st))) in
  match ev with
  | TKern e => '(o, k) ← kstep (tk st) e; Ok (o, mk_tst k (wds st) (g_system_timer st) (calls st) (base st))
  | TCall sem lim =>
      Ok ([], mk_tst (tk st) (wds st) (g_system_timer st) (<[rtcb := WCreate sem lim]> (calls st)) (base st))
  | TRun newmem raw =>
      match calls st !! rtcb with
      | Some f => trun1 newmem raw st rtcb f
      | None => Ok ([], st)
      end
  | TTick =>
      '(now, k, w) ← nxsched_process_timer (g_system_timer st) (ks (tk st)) (wds st);
      Ok ([], mk_tst (mk_kst k (progs (tk st))) w now (calls st) (base st))
  end.
End Timed.

(** ** What callers promise

    A task has one call at a time; the semaphore exists; for [nxsem_tickwait] it is
    not NULL, as the code asserts, and the delay is less than 2^31 - 1 ticks, because
    [wd_start] takes it as [int32_t]; the fields of a time of day have the range of
    their types; the idle task does not wait; [kmm_malloc] returns new memory. *)

Definition limit_possible (sem : Z) (lim : limit) : bool :=
  match lim with
  | Ticks start delay => negb (sem =? 0) && (0 <=? delay) && (delay <? 2 ^ 31 - 1)
  | Until abstime => (0 <=? tv_sec abstime) && (tv_sec abstime <? 2 ^ 32) && (- 2 ^ 31 <=? tv_nsec abstime) && (tv_nsec abstime <? 2 ^ 31)
  end.

Definition tpossible (idle : Z) (st : tst) (ev : tevent) : bool :=
  let rtcb := this_task (sch (ks (tk st))) in
  let free := bool_decide (calls st !! rtcb = None) in
  match ev with
  | TKern (Irq (IPost sem)) => possible idle (tk st) (Irq (IPost sem))
  | TKern (Irq _) => false
  | TKern e => free && possible idle (tk st) e
  | TCall sem lim =>
      free && bool_decide (prog (tk st) rtcb = []) && negb (rtcb =? idle) && sem_addr (ks (tk st)) sem && limit_possible sem lim
  | TRun newmem _ => negb free && bool_decide (newmem ∉ dom (wd_tab (wds st)))
  | TTick => true
  end.

Fixpoint trun (entry idle : Z) (st : tst) (es : list tevent) : res (list obs * tst) :=
  match es with
  | [] => Ok ([], st)
  | e :: es =>
      if tpossible idle st e then
        '(o, st) ← tstep entry st e;
        '(os, st) ← trun entry idle st es;
        Ok (o ++ os, st)
      else trun entry idle st es
  end.

(** A run in which every event happens, and whether each of them can come in the
    state that it finds, as the callers promise. *)
Fixpoint tsteps (entry : Z) (st : tst) (es : list tevent) : res (list obs * tst) :=
  match es with
  | [] => Ok ([], st)
  | e :: es =>
      '(o, st) ← tstep entry st e;
      '(os, st) ← tsteps entry st es;
      Ok (o ++ os, st)
  end.

Fixpoint tpromised (entry idle : Z) (st : tst) (es : list tevent) : bool :=
  match es with
  | [] => true
  | e :: es => tpossible idle st e && match tstep entry st e with Ok (_, st) => tpromised entry idle st es | Err _ => true end
  end.

(** The state after start-up, at a tick and with a time of day; the pool of
    watchdogs is at [g_wdpool], of [size] bytes each. *)
Definition timed_start (k : ksys) (w : wd_state) (idle g_wdpool size now : Z) (base : timespec) : res tst :=
  k ← nx_start k idle;
  w ← wd_initialize g_wdpool size w;
  Ok (mk_tst (mk_kst k ∅) w now ∅ base).

(** The system from start-up on. *)
Definition timed_system (k : ksys) (w : wd_state) (entry idle g_wdpool size now : Z) (base : timespec) (es : list tevent) : res (list obs * tst) :=
  st ← timed_start k w idle g_wdpool size now base; trun entry idle st es.

Definition timed_kernel (k : ksys) (w : wd_state) (entry idle g_wdpool size now : Z) (base : timespec) (es : list tevent) : res (list obs * tst) :=
  st ← timed_start k w idle g_wdpool size now base; tsteps entry st es.

Definition timed_promise (k : ksys) (w : wd_state) (entry idle g_wdpool size now : Z) (base : timespec) (es : list tevent) : bool :=
  match timed_start k w idle g_wdpool size now base with Ok st => tpromised entry idle st es | Err _ => true end.
