(* ===== verification/KernQuiet.v ===== *)
(** * What a section does not touch

    A section of a call, or an interrupt, leaves the watchdog and the identifier of
    every task alone; it changes the [errno] of the running task only, and only the
    running task can begin to wait. *)

From stdpp Require Import functions.
From S2P Require Import Prelude Bits Links Queue Sched Sem Task Kern.
Import Dq.
Local Open Scope Z_scope.

Section Quiet.
(** The tasks that a function leaves alone. *)
Context (P : Z -> Prop).

Record quiet_tcb (x : Z) (t t' : tcb_s) : Prop := {
  qt_dog : waitdog t' = waitdog t;
  qt_pid : pid t <> 0 -> pid t' = pid t;
  qt_errno : P x -> pterrno t' = pterrno t;
  qt_wait : P x -> task_state t' = TSTATE_WAIT_SEM -> task_state t = TSTATE_WAIT_SEM
}.

Definition quiet (m m' : gmap Z tcb_s) : Prop :=
  forall x t, m !! x = Some t -> exists t', m' !! x = Some t' /\ quiet_tcb x t t'.

Lemma quiet_refl m : quiet m m.
Proof. intros x t E. exists t. by repeat split. Qed.

Lemma quiet_trans m1 m2 m3 : quiet m1 m2 -> quiet m2 m3 -> quiet m1 m3.
Proof.
  intros Q1 Q2 x t E. destruct (Q1 x t E) as (t2 & E2 & [A1 A2 A3 A4]). destruct (Q2 x t2 E2) as (t3 & E3 & [B1 B2 B3 B4]).
  exists t3. split; [done|]. split; try (by auto).
  - congruence.
  - intros Hp. specialize (A2 Hp). rewrite <- A2 in *. auto.
  - intros Hp. rewrite B3, A3; done.
Qed.

Lemma tupd_quiet s x f s' :
  tupd s x f = Ok s' -> (forall t, tcbs s !! x = Some t -> quiet_tcb x t (f t)) -> quiet (tcbs s) (tcbs s').
Proof.
  unfold tupd, tget. destruct (x =? 0); [done|]. destruct (tcbs s !! x) as [c|] eqn:E; [|done]. rewrite bind_Ok. intros [= <-] Hf y t Ey. simpl.
  rewrite lookup_insert. destruct (decide (x = y)) as [<-|]; [|exists t; by repeat split]. exists (f t). split; [congruence|]. apply Hf. congruence.
Qed.

(** ** Rules

    Each rule takes the last step of a computation that ended in [s'] back. *)

Section Rules.
Context (m : gmap Z tcb_s).

Lemma upd_quiet s x f s' :
  tupd s x f = Ok s' -> (forall t, quiet_tcb x t (f t)) -> quiet m (tcbs s) -> quiet m (tcbs s').
Proof. intros E Hf Q. apply (quiet_trans _ _ _ Q). apply (tupd_quiet _ _ _ _ E). auto. Qed.

(** A state other than waiting. *)
Lemma state_quiet s x v s' : tupd s x (set_state v) = Ok s' -> v <> TSTATE_WAIT_SEM -> quiet m (tcbs s) -> quiet m (tcbs s').
Proof. intros E Hv. apply (upd_quiet _ _ _ _ E). intros t. by split. Qed.

Lemma set_list_quiet s l d q : quiet m (tcbs s) -> quiet m (tcbs (set_list s l d q)).
Proof. done. Qed.

Lemma trem_quiet s x l s' : trem s x l = Ok s' -> quiet m (tcbs s) -> quiet m (tcbs s').
Proof. unfold trem. intros E. res_inv. done. Qed.
End Rules.

Create HintDb quiet.
#[local] Hint Resolve set_list_quiet trem_quiet : quiet.
#[local] Hint Extern 1 (quiet _ (tcbs ?s')) =>
  match goal with H : tupd _ _ (set_state _) = Ok s' |- _ => apply (state_quiet _ _ _ _ _ H); [done|] end : quiet.
#[local] Hint Extern 2 (quiet _ (tcbs ?s')) =>
  match goal with H : tupd _ _ _ = Ok s' |- _ => apply (upd_quiet _ _ _ _ _ H); [intros ?; by split|] end : quiet.

Ltac quiet_inv :=
  repeat match goal with
  | H : (_ ≫= _) = Ok _ |- _ => apply bind_Ok_inv in H as (? & ? & ?)
  | H : Ok _ = Ok _ |- _ => injection H; clear H; intros; subst
  | H : Err _ = Ok _ |- _ => discriminate H
  | H : (let '(_, _) := ?p in _) = Ok _ |- _ => destruct p
  | H : (if ?b then _ else _) = Ok _ |- _ => destruct b eqn:?
  end.
Ltac quiet_solve := cbv zeta; intros; quiet_inv; eauto 20 with quiet.

Section Sched.
Context (m : gmap Z tcb_s).

Lemma addprioritized_quiet s x l b s' : sched_addprioritized s x l = Ok (b, s') -> quiet m (tcbs s) -> quiet m (tcbs s').
Proof. unfold sched_addprioritized. quiet_solve. Qed.
#[local] Hint Resolve addprioritized_quiet : quiet.

Lemma addreadytorun_quiet s x b s' : sched_addreadytorun s x = Ok (b, s') -> quiet m (tcbs s) -> quiet m (tcbs s').
Proof. unfold sched_addreadytorun. quiet_solve. Qed.
#[local] Hint Resolve addreadytorun_quiet : quiet.

Lemma removereadytorun_quiet s x b s' : sched_removereadytorun s x = Ok (b, s') -> quiet m (tcbs s) -> quiet m (tcbs s').
Proof. unfold sched_removereadytorun. quiet_solve. Qed.
#[local] Hint Resolve removereadytorun_quiet : quiet.

Lemma removeblocked_quiet s x s' : sched_removeblocked s x = Ok s' -> quiet m (tcbs s) -> quiet m (tcbs s').
Proof. unfold sched_removeblocked. quiet_solve. Qed.
#[local] Hint Resolve removeblocked_quiet : quiet.

Lemma addblocked_quiet s x st s' : sched_addblocked s x st = Ok s' -> ~ P x -> quiet m (tcbs s) -> quiet m (tcbs s').
Proof.
  unfold sched_addblocked. intros E Hx Q. quiet_inv.
  all: match goal with H : tupd _ _ _ = Ok _ |- _ => apply (upd_quiet _ _ _ _ _ H); [intros; by split|] end; eauto with quiet.
Qed.

Lemma merge_loop_quiet fuel s p r ret b s' : merge_loop fuel s p r ret = Ok (b, s') -> quiet m (tcbs s) -> quiet m (tcbs s').
Proof.
  revert s p r ret. induction fuel as [|fuel IH]; intros s p r ret E Q; simpl in E; [done|]. quiet_inv; eauto 20 with quiet.
Qed.

Lemma mergepending_quiet s b s' : sched_mergepending s = Ok (b, s') -> quiet m (tcbs s) -> quiet m (tcbs s').
Proof. unfold sched_mergepending. intros E Q. quiet_inv. simpl. by eapply merge_loop_quiet. Qed.
#[local] Hint Resolve mergepending_quiet : quiet.

Lemma block_quiet s x st b s' : up_block_task s x st = Ok (b, s') -> ~ P x -> quiet m (tcbs s) -> quiet m (tcbs s').
Proof.
  unfold up_block_task. intros E Hx Q. quiet_inv; eauto 20 using addblocked_quiet with quiet.
Qed.

Lemma unblock_quiet s x b s' : up_unblock_task s x = Ok (b, s') -> quiet m (tcbs s) -> quiet m (tcbs s').
Proof. unfold up_unblock_task. quiet_solve. Qed.

Lemma reprioritize_quiet s x p b s' : up_reprioritize_rtr s x p = Ok (b, s') -> quiet m (tcbs s) -> quiet m (tcbs s').
Proof. unfold up_reprioritize_rtr. quiet_solve. Qed.
#[local] Hint Resolve reprioritize_quiet : quiet.

Lemma setpriority_quiet s x p r b s' : nxsched_setpriority s x p = Ok (r, b, s') -> quiet m (tcbs s) -> quiet m (tcbs s').
Proof.
  unfold nxsched_setpriority, nxsched_running_setpriority, nxsched_readytorun_setpriority, nxsched_blocked_setpriority.
  intros E Q. quiet_inv; [done|]. destruct (task_state _); quiet_inv; eauto 20 with quiet.
Qed.

Lemma lock_quiet s i s' : sched_lock s i = Ok s' -> quiet m (tcbs s) -> quiet m (tcbs s').
Proof. unfold sched_lock. quiet_solve. Qed.

Lemma unlock_quiet s i b s' : sched_unlock s i = Ok (b, s') -> quiet m (tcbs s) -> quiet m (tcbs s').
Proof. unfold sched_unlock, up_release_pending. quiet_solve. Qed.

Lemma unlock_end_quiet s x s' : sched_unlock_end s x = Ok s' -> quiet m (tcbs s) -> quiet m (tcbs s').
Proof. unfold sched_unlock_end. quiet_solve. Qed.

Lemma cpu_scheduler_quiet s b s' : nxsched_cpu_scheduler s = Ok (b, s') -> quiet m (tcbs s) -> quiet m (tcbs s').
Proof. unfold nxsched_cpu_scheduler, sched_roundrobin_process. quiet_solve. Qed.

Lemma assignpid_quiet tries k x r k' :
  assignpid_loop tries k x = Ok (r, k') -> (forall t, tcbs (sch k) !! x = Some t -> pid t = 0) ->
  quiet m (tcbs (sch k)) -> quiet m (tcbs (sch k')).
Proof.
  revert k. induction tries as [|n IH]; intros k E Hx Q; cbn [assignpid_loop] in E; [by simplify_eq|]. cbv zeta in E. quiet_inv; [|by eapply IH].
  unfold ktupd in *. quiet_inv. apply (quiet_trans _ _ _ Q). simpl.
  match goal with H : tupd _ _ _ = Ok _ |- _ => apply (tupd_quiet _ _ _ _ H) end.
  intros t Ht. split; try done. intros Hp. by destruct Hp, (Hx t).
Qed.

Lemma nxtask_assignpid_quiet k x r k' :
  nxtask_assignpid k x = Ok (r, k') -> (forall t, tcbs (sch k) !! x = Some t -> pid t = 0) -> quiet m (tcbs (sch k)) -> quiet m (tcbs (sch k')).
Proof. unfold nxtask_assignpid. generalize (Z.to_nat CONFIG_MAX_TASKS). intros n. apply assignpid_quiet. Qed.

#[local] Hint Resolve unblock_quiet setpriority_quiet lock_quiet unlock_quiet unlock_end_quiet : quiet.

Lemma post_quiet k sem r b k' : nxsem_post k sem = Ok (r, b, k') -> quiet m (tcbs (sch k)) -> quiet m (tcbs (sch k')).
Proof. unfold nxsem_post, set_semcount, ktupd. quiet_solve; simpl in *; eauto 20 with quiet. Qed.

Lemma own_quiet s x f s' :
  tupd s x f = Ok s' -> ~ P x -> (forall t, waitdog (f t) = waitdog t /\ pid (f t) = pid t) -> quiet m (tcbs s) -> quiet m (tcbs s').
Proof. intros E Hx Hf. apply (upd_quiet _ _ _ _ _ E). intros t. destruct (Hf t). by split. Qed.

Lemma errno_quiet k r v k' : api_return k r = Ok (v, k') -> ~ P (this_task (sch k)) -> quiet m (tcbs (sch k)) -> quiet m (tcbs (sch k')).
Proof.
  unfold api_return, set_errno, ktupd. cbv zeta. intros E Hx Q. quiet_inv; try done.
  match goal with H : tupd _ _ _ = Ok _ |- _ => by apply (own_quiet _ _ _ _ H) end.
Qed.

Lemma wait_quiet k sem o k' : nxsem_wait k sem = Ok (o, k') -> ~ P (this_task (sch k)) -> quiet m (tcbs (sch k)) -> quiet m (tcbs (sch k')).
Proof.
  unfold nxsem_wait, set_semcount, ktupd. cbv zeta. intros E Hx Q. quiet_inv; try done; cbn [sch set_sch] in *.
  - match goal with H : tupd _ _ _ = Ok _ |- _ => by apply (own_quiet _ _ _ _ H) end.
  - match goal with H : up_block_task _ _ _ = Ok _ |- _ => apply (block_quiet _ _ _ _ _ H); [done|] end.
    do 2 match goal with H : tupd _ _ _ = Ok ?s |- quiet _ (tcbs ?s) => apply (own_quiet _ _ _ _ H); [done|done|] end. done.
Qed.

Lemma wait_end_quiet k x saved r k' : nxsem_wait_end k x saved = Ok (r, k') -> ~ P x -> quiet m (tcbs (sch k)) -> quiet m (tcbs (sch k')).
Proof.
  unfold nxsem_wait_end, ktupd. cbv zeta. intros E Hx Q. quiet_inv.
  match goal with H : tupd _ _ _ = Ok _ |- _ => by apply (own_quiet _ _ _ _ H) end.
Qed.

Lemma trywait_quiet k sem r k' : nxsem_trywait k sem = Ok (r, k') -> quiet m (tcbs (sch k)) -> quiet m (tcbs (sch k')).
Proof. unfold nxsem_trywait, set_semcount, ktupd. cbv zeta. intros E Q. quiet_inv; try done; cbn [sch set_sch] in *; eauto with quiet. Qed.

Lemma setpolicy_quiet s x p s' : setpolicy_section s x p = Ok s' -> quiet m (tcbs s) -> quiet m (tcbs s').
Proof. unfold setpolicy_section. quiet_solve. Qed.

Lemma yield_quiet s r s' : sched_yield s = Ok (r, s') -> quiet m (tcbs s) -> quiet m (tcbs s').
Proof. unfold sched_yield. quiet_solve. Qed.

Lemma unlock_section_quiet s x p s' : unlock_section s x = Ok (p, s') -> quiet m (tcbs s) -> quiet m (tcbs s').
Proof. unfold unlock_section. quiet_solve. Qed.

Lemma setup_quiet s x p ty s' : nxthread_setup s x p ty = Ok s' -> quiet m (tcbs s) -> quiet m (tcbs s').
Proof. unfold nxthread_setup. intros E. apply (upd_quiet _ _ _ _ _ E). intros t. by split. Qed.

Lemma inactive_quiet s x s' : nxthread_inactive s x = Ok s' -> quiet m (tcbs s) -> quiet m (tcbs s').
Proof. unfold nxthread_inactive. quiet_solve. Qed.

#[local] Opaque nxtask_assignpid.

(** A section of a call of the running task. *)
Lemma exec_quiet k a p o k' :
  exec k (this_task (sch k)) a = Ok (p, o, k') -> ~ P (this_task (sch k)) ->
  (forall x pr ty t, a = AAssignpid x pr ty -> tcbs (sch k) !! x = Some t -> pid t = 0) ->
  quiet m (tcbs (sch k)) -> quiet m (tcbs (sch k')).
Proof.
  intros E Hx Ha Q. destruct a; cbn [exec] in E; apply bind_Ok_inv in E as (r & E1 & E2).
  all: quiet_inv; cbn [sch set_sch]; eauto using errno_quiet, wait_end_quiet, trywait_quiet, setpolicy_quiet, yield_quiet, unlock_section_quiet, setup_quiet, inactive_quiet, post_quiet with quiet.
  - match goal with H : nxsem_wait _ _ = Ok (?oc, ?k1) |- _ => assert (k1 = k') as -> by (by destruct oc; simplify_eq); by apply (wait_quiet _ _ _ _ H) end.
  - apply (nxtask_assignpid_quiet _ _ _ _ E1); [|exact Q]. intros t Ht. by apply (Ha _ _ _ t eq_refl).
Qed.
End Sched.
End Quiet.
