(* ===== verification/TimedDogs.v ===== *)
(** * The watchdogs of timed waits

    What the operations of [Wdog] that [nxsem_tickwait] uses do to one watchdog,
    and that they leave all others alone. *)

From S2P Require Import Prelude Bits Links Queue Wdog WdogRep WdogTime WdogProps SchedRep.
Import Sq.
Local Open Scope Z_scope.

(** The watchdogs are those of the pool and those from the heap that are in use. *)
Record wd_ok (pool : list Z) (st : wd_state) (tl : timers) (fr : list Z) : Prop := {
  wo_rep : wd_rep st tl fr;
  wo_pos : Forall (fun e : Z * Z => 1 <= e.2) tl;
  wo_free x : x ∈ fr -> x ∈ pool;
  wo_kind x w : wd_tab st !! x = Some w -> WDOG_ISSTATIC w = false /\ (WDOG_ISALLOCED w = false <-> x ∈ pool);
  wo_pool x : x ∈ pool -> x ∈ dom (wd_tab st)
}.

(** Only the watchdog [w] changes. *)
Record dogs_change (w : Z) (st : wd_state) (tl : timers) (fr : list Z) (st' : wd_state) (tl' : timers) (fr' : list Z) : Prop := {
  dc_tl e : e.1 <> w -> e ∈ tl' <-> e ∈ tl;
  dc_fire y : y <> w -> fire (wd_tab st') y = fire (wd_tab st) y;
  dc_dom y : y <> w -> y ∈ dom (wd_tab st') <-> y ∈ dom (wd_tab st);
  dc_free y : y <> w -> y ∈ fr' <-> y ∈ fr
}.

Lemma change_refl w st tl fr : dogs_change w st tl fr st tl fr.
Proof. by split. Qed.

(** Everything but [w] has the same body. *)
Definition others_same (w : Z) (st st' : wd_state) : Prop :=
  forall y, y <> w -> body <$> wd_tab st' !! y = body <$> wd_tab st !! y.

Lemma same_others w st st' : same_bodies st st' -> others_same w st st'.
Proof. intros Hs y _. apply Hs. Qed.

Lemma others_fire w st st' y : others_same w st st' -> y <> w -> fire (wd_tab st') y = fire (wd_tab st) y.
Proof.
  intros Hs Hy. specialize (Hs y Hy). unfold fire. destruct (wd_tab st' !! y) as [w'|], (wd_tab st !! y) as [w1|]; try done.
  simpl in Hs. injection Hs as E1 E2 E3 _. unfold wd_args. by rewrite E1, E2, E3.
Qed.

Lemma others_dom w st st' y : others_same w st st' -> y <> w -> y ∈ dom (wd_tab st') <-> y ∈ dom (wd_tab st).
Proof.
  intros Hs Hy. specialize (Hs y Hy). rewrite !elem_of_dom. destruct (wd_tab st' !! y), (wd_tab st !! y); try done; split; eauto.
Qed.

Lemma others_change w st tl fr st' tl' fr' :
  others_same w st st' -> (forall e, e.1 <> w -> e ∈ tl' <-> e ∈ tl) -> (forall y, y <> w -> y ∈ fr' <-> y ∈ fr) -> dogs_change w st tl fr st' tl' fr'.
Proof. intros Hs Ht Hf. split; try done; intros y Hy; [by apply (others_fire w)|by apply (others_dom w)]. Qed.

Lemma kind_others (pool : list Z) w st st' :
  others_same w st st' -> (forall x d, wd_tab st !! x = Some d -> WDOG_ISSTATIC d = false /\ (WDOG_ISALLOCED d = false <-> x ∈ pool)) ->
  (forall d, wd_tab st' !! w = Some d -> WDOG_ISSTATIC d = false /\ (WDOG_ISALLOCED d = false <-> w ∈ pool)) ->
  forall x d, wd_tab st' !! x = Some d -> WDOG_ISSTATIC d = false /\ (WDOG_ISALLOCED d = false <-> x ∈ pool).
Proof.
  intros Hs Hk Hw x d Hd. destruct (decide (x = w)) as [->|Hne]; [by apply Hw|]. specialize (Hs x Hne). rewrite Hd in Hs.
  destruct (wd_tab st !! x) as [d0|] eqn:E0; [|done]. apply (inj Some) in Hs. destruct (body_kind _ _ Hs) as [-> ->]. by apply Hk.
Qed.

Lemma free_dom st tl fr x : wd_rep st tl fr -> x ∈ fr -> x ∈ dom (wd_tab st).
Proof. intros H Hx. rewrite <- (wr_dom _ _ _ H). apply elem_of_dom, (sq_rep_node _ _ _ _ (wr_free _ _ _ H) Hx). Qed.

(** ** Timers *)

Lemma elem_wremove x e tl : e ∈ wremove x tl <-> e ∈ tl /\ e.1 <> x.
Proof. unfold wremove. rewrite list_elem_of_filter. tauto. Qed.

Lemma elem_winsert x d e tl : e ∈ winsert x d tl <-> e = (x, d) \/ e ∈ tl.
Proof.
  induction tl as [|[y r] tl IH]; simpl; [set_solver|]. destruct (d <? r); [set_solver|]. rewrite !elem_of_cons, IH. tauto.
Qed.

(** ** Operations *)

Lemma elem_later (tl : timers) e : e ∈ later tl <-> (e.1, e.2 + 1) ∈ tl /\ 0 < e.2.
Proof.
  unfold later, dec. rewrite list_elem_of_fmap. split.
  - intros ([x r] & -> & [He Hin]%list_elem_of_filter). simpl in *. replace (r - 1 + 1) with r by lia. split; [done|lia].
  - intros [Hin He]. destruct e as [x r]. exists (x, r + 1). simpl in *. split; [f_equal; lia|]. apply list_elem_of_filter. split; [simpl; lia|done].
Qed.

Section Ops.
Context (pool : list Z) (st : wd_state) (tl : timers) (fr : list Z).
Hypothesis (O : wd_ok pool st tl fr) (Hpool : Z.of_nat (length pool) < 2 ^ 16 - 1).

Lemma cancel_change x : x ∈ dom (wd_tab st) ->
  returns (wd_cancel st x) (fun '(st', _) => wd_ok pool st' (wremove x tl) fr /\ dogs_change x st tl fr st' (wremove x tl) fr /\ x ∈ dom (wd_tab st')).
Proof.
  intros Hx. destruct (wd_cancel_correct st tl fr x (wo_rep _ _ _ _ O) Hx) as (st' & ret & E & H' & Hs & _). exists (st', ret). split; [done|].
  assert (forall y, y ∈ dom (wd_tab st') <-> y ∈ dom (wd_tab st)) as Hd.
  { intros y. specialize (Hs y). rewrite !elem_of_dom. destruct (wd_tab st' !! y), (wd_tab st !! y); try done; split; eauto. }
  split; [|split; [|by apply Hd]].
  - split; try done; try apply O.
    + pose proof (wo_pos _ _ _ _ O) as Hp. rewrite Forall_forall in Hp |- *. intros e [He _]%elem_wremove. by apply Hp.
    + apply (kind_others pool x st st'); [by apply same_others|apply O|]. intros d Hdx. specialize (Hs x). rewrite Hdx in Hs.
      destruct (wd_tab st !! x) as [d0|] eqn:E0; [|done]. apply (inj Some) in Hs. destruct (body_kind _ _ Hs) as [-> ->]. by apply (wo_kind _ _ _ _ O).
    + intros y Hy. by apply Hd, (wo_pool _ _ _ _ O).
  - apply others_change; [by apply same_others| |done]. intros e He. rewrite elem_wremove. tauto.
Qed.

Lemma start_change x delay fn p : x ∈ dom (wd_tab st) -> x ∉ fr -> 0 <= delay < 2 ^ 31 ->
  let tl' := winsert x (Z.min (delay + 1) (2 ^ 31 - 1)) (wremove x tl) in
  returns (wd_start st x delay fn 1 [p]) (fun '(st', _) => wd_ok pool st' tl' fr /\ dogs_change x st tl fr st' tl' fr /\
    x ∈ dom (wd_tab st') /\ fire (wd_tab st') x = [(fn, [p])]).
Proof.
  intros Hx Hf Hd tl'. destruct (start_full st tl fr x delay fn [p] (wo_rep _ _ _ _ O) Hx Hf ltac:(lia) ltac:(simpl; lia)) as (st' & w & E & H' & Ew & Ef & Ea & Hs & Hk).
  exists (st', OK). split; [exact E|]. split; [|split; [|split]].
  - split; try done; try apply O.
    + pose proof (wo_pos _ _ _ _ O) as Hp. rewrite Forall_forall in Hp |- *. intros e [->|[He _]%elem_wremove]%elem_winsert; [simpl; lia|by apply Hp].
    + apply (kind_others pool x st st'); [done|apply O|]. intros d Hdx. rewrite Ew in Hdx. injection Hdx as <-.
      apply elem_of_dom in Hx as [w0 Ew0]. destruct (Hk w0 Ew0) as [-> ->]. by apply (wo_kind _ _ _ _ O).
    + intros y Hy%(wo_pool _ _ _ _ O). destruct (decide (y = x)) as [->|Hne]; [apply elem_of_dom; eauto|by apply (others_dom x st st')].
  - apply others_change; [done| |done]. intros e He. unfold tl'. rewrite elem_winsert, elem_wremove. split; [intros [->|?]; [done|tauto]|tauto].
  - apply elem_of_dom. eauto.
  - unfold fire. by rewrite Ew, Ea, Ef.
Qed.

(** What [wd_create] does to the watchdogs. *)
Lemma create_tab newmem raw st' ret :
  wd_create false newmem raw st = Ok (st', ret) ->
  if ret =? 0 then wd_tab st' = wd_tab st
  else exists w, wd_tab st' = <[ret := w]> (wd_tab st) /\ WDOG_ISSTATIC w = false /\
    ((WDOG_ISALLOCED w = true /\ ret = newmem) \/ (WDOG_ISALLOCED w = false /\ ret ∈ dom (wd_tab st))).
Proof.
  unfold wd_create. intros E. destruct (_ || _).
  - apply bind_Ok_inv in E as ([[fl q] x] & _ & E). destruct (x =? 0) eqn:E0; [by simplify_eq|].
    apply bind_Ok_inv in E as (st1 & E1 & E). apply bind_Ok_inv in E as (st2 & E2 & E). injection E as <- <-. rewrite E0.
    unfold set_next in E1. apply bind_Ok_inv in E1 as (fl1 & _ & [= <-]). unfold wd_update, wd_get in E2. rewrite E0 in E2. cbn [set_active set_free wd_tab] in E2.
    destruct (wd_tab st !! x) as [w|] eqn:Ew; [|done]. injection E2 as <-. exists (set_flags w 0). split_and!; try done. right. split; [done|]. apply elem_of_dom. eauto.
  - destruct (newmem =? 0) eqn:E0; [by simplify_eq|]. injection E as <- <-. rewrite E0. exists (set_flags raw WDOGF_ALLOCED). split_and!; try done. by left.
Qed.

Lemma create_change newmem raw : newmem ∉ dom (wd_tab st) ->
  returns (wd_create false newmem raw st) (fun '(st', ret) => exists fr', wd_ok pool st' tl fr' /\
    if ret =? 0 then wd_tab st' = wd_tab st /\ fr' = fr
    else dogs_change ret st tl fr st' tl fr' /\ ret ∈ dom (wd_tab st') /\ ret ∉ fr' /\ ret ∉ tl.*1 /\
      (ret ∈ dom (wd_tab st) -> ret ∈ fr)).
Proof.
  intros Hn. pose proof (wo_rep _ _ _ _ O) as H. destruct (wd_create_correct false newmem raw st tl fr H Hn) as (st' & ret & fr' & E & H' & Hr & Hbig & Hsmall).
  exists (st', ret). split; [done|]. exists fr'. pose proof (create_tab newmem raw st' ret E) as Ht.
  assert (fr' = fr \/ (fr' = List.tl fr /\ ret = hd 0 fr)) as Hfr.
  { destruct (decide (CONFIG_WDOG_INTRESERVE < Z.of_nat (length fr))) as [Hl|Hl]; [destruct Hbig; [by left|auto]|destruct Hsmall; [split; [lia|done]|auto]]. }
  assert (forall y, y ∈ fr' -> y ∈ fr) as Hsub by (destruct Hfr as [->|[-> _]]; [done|]; intros y Hy; destruct fr; [done|by right]).
  assert (wd_ok pool st' tl fr') as O'.
  { split; try done; [apply O|intros y Hy; by apply (wo_free _ _ _ _ O), Hsub| |].
    2: { intros x Hx%(wo_pool _ _ _ _ O). destruct (ret =? 0); [by rewrite Ht|]. destruct Ht as (w0 & Et & _). rewrite Et, dom_insert_L. set_solver. }
    intros x w Hw. destruct (ret =? 0); [rewrite Ht in Hw; by apply (wo_kind _ _ _ _ O)|].
    destruct Ht as (w0 & Et & Hs & Hk). rewrite Et, lookup_insert in Hw. destruct (decide (ret = x)) as [<-|]; [|by apply (wo_kind _ _ _ _ O)].
    injection Hw as <-. split; [done|]. destruct Hk as [[-> ->]|[-> Hd]]; [split; [done|intros Hp; by destruct Hn; apply (wo_pool _ _ _ _ O)]|]. split; [intros _|done].
    destruct (decide (CONFIG_WDOG_INTRESERVE < Z.of_nat (length fr))) as [Hl|Hl]; [|by destruct Hsmall as [-> _]; [split; [lia|done]|]].
    destruct Hbig as [-> _]; [by left|]. apply (wo_free _ _ _ _ O). destruct fr; [unfold CONFIG_WDOG_INTRESERVE in Hl; simpl in Hl; lia|by left]. }
  split; [done|]. destruct (ret =? 0) eqn:E0; b2p.
  - split; [done|]. destruct Hfr as [|[-> Eh]]; [done|]. destruct fr as [|y r]; [done|]. simpl in Eh. subst y.
    destruct (sq_rep_node _ _ _ _ (wr_free _ _ _ H) (list_elem_of_here ret r)) as [? _]. congruence.
  - destruct (Hr E0) as (Hd & Hf & _). destruct Ht as (w0 & Et & _). split; [split|split_and!; try done].
    + done.
    + intros y Hy. unfold fire. by rewrite Et, lookup_insert_ne.
    + intros y Hy. rewrite Et, dom_insert_L. set_solver.
    + intros y Hy. split; [apply Hsub|]. destruct Hfr as [->|[-> Eh]]; [done|]. destruct fr as [|z r]; [done|]. simpl in Eh. subst z. intros [->|?]%elem_of_cons; done.
    + intros Hin. destruct (rep_in _ _ _ _ H Hin) as (_ & Hs & _). destruct Hfr as [->|[-> Eh]].
      * destruct (decide (CONFIG_WDOG_INTRESERVE < Z.of_nat (length fr))) as [Hl|Hl]; [|destruct Hsmall as [-> _]; [split; [lia|done]|]; by apply Hn, elem_of_dom].
        destruct Hbig as [-> _]; [by left|]. destruct fr as [|z r]; [unfold CONFIG_WDOG_INTRESERVE in Hl; simpl in Hl; lia|]. simpl in Hin. by apply (wr_disj _ _ _ H z (list_elem_of_here z r)).
      * rewrite Eh in Hin. destruct fr as [|z r]; [simpl in Eh; congruence|]. simpl in Hin. by apply (wr_disj _ _ _ H z (list_elem_of_here z r)).
    + intros Hin. destruct (decide (CONFIG_WDOG_INTRESERVE < Z.of_nat (length fr))) as [Hl|Hl]; [|by destruct Hsmall as [-> _]; [split; [lia|done]|]].
      destruct Hbig as [-> _]; [by left|]. destruct fr; [unfold CONFIG_WDOG_INTRESERVE in Hl; simpl in Hl; lia|by left].
Qed.

Lemma free_length : Z.of_nat (length fr) <= Z.of_nat (length pool).
Proof.
  assert (fr ⊆+ pool) as Hs; [|apply submseteq_length in Hs; lia].
  apply NoDup_submseteq; [apply (wr_free _ _ _ (wo_rep _ _ _ _ O))|]. intros y. apply (wo_free _ _ _ _ O).
Qed.

(** What [wd_delete] does to the other watchdogs. *)
Lemma delete_tab x st' r f : wd_delete st x = Ok (st', r, f) -> x ∈ dom (wd_tab st) ->
  others_same x st st' /\ forall w, wd_tab st' !! x = Some w -> exists w0, wd_tab st !! x = Some w0 /\ body w = body w0.
Proof.
  intros E [w Ew]%elem_of_dom. destruct (stop_spec _ _ _ _ _ (wo_rep _ _ _ _ O) Ew) as (st1 & E1 & _ & Hs).
  assert (x <> 0) as Hx0 by (intros ->; apply (wr_null _ _ _ (wo_rep _ _ _ _ O)), elem_of_dom; eauto).
  unfold wd_delete in E. rewrite (wd_get_Ok _ _ _ Hx0 Ew), bind_Ok, E1, bind_Ok in E. apply bind_Ok_inv in E as (w1 & E2 & E).
  assert (wd_tab st' = delete x (wd_tab st1) \/ wd_tab st' = wd_tab st1) as [Et|Et].
  { destruct (WDOG_ISALLOCED w1); [left; by simplify_eq|right]. destruct (negb _); [|by simplify_eq]. apply bind_Ok_inv in E as ([fl q] & _ & [= <- _ _]). done. }
  - split; [|rewrite Et; intros w'; by rewrite lookup_delete_eq]. intros y Hy. rewrite Et, lookup_delete_ne by done. apply Hs.
  - split; [intros y _; rewrite Et; apply Hs|]. intros w' Hw'. exists w. split; [done|]. specialize (Hs x). rewrite Et in Hw'. rewrite Hw', Ew in Hs. by apply (inj Some) in Hs.
Qed.

Lemma delete_change x : x ∈ dom (wd_tab st) -> x ∉ fr ->
  returns (wd_delete st x) (fun '(st', _, _) => exists fr', wd_ok pool st' (wremove x tl) fr' /\ dogs_change x st tl fr st' (wremove x tl) fr' /\
    (x ∈ dom (wd_tab st') -> x ∈ fr')).
Proof.
  intros Hx Hf. pose proof Hx as [w Ew]%elem_of_dom. destruct (wo_kind _ _ _ _ O x w Ew) as [Hst Hp].
  destruct (wd_delete_correct st tl fr x w (wo_rep _ _ _ _ O) Ew Hf) as (st' & freed & E & Ha & Hn & _); [pose proof free_length; lia|].
  exists (st', OK, freed). split; [done|]. destruct (delete_tab x st' OK freed E Hx) as [Hs Hb].
  assert (Forall (fun e : Z * Z => 1 <= e.2) (wremove x tl)) as Hpos.
  { pose proof (wo_pos _ _ _ _ O) as Hq. rewrite Forall_forall in Hq |- *. intros e [He _]%elem_wremove. by apply Hq. }
  assert (forall y d, wd_tab st' !! y = Some d -> WDOG_ISSTATIC d = false /\ (WDOG_ISALLOCED d = false <-> y ∈ pool)) as Hk.
  { apply (kind_others pool x st st' Hs (wo_kind _ _ _ _ O)). intros d (w0 & Ew0 & Eb)%Hb. destruct (body_kind _ _ Eb) as [-> ->]. by apply (wo_kind _ _ _ _ O). }
  destruct (WDOG_ISALLOCED w) eqn:EA.
  - destruct (Ha eq_refl) as (_ & H' & Hd). exists fr. split; [split; try done; [apply O|]|split; [|done]].
    { intros y Hy. apply (others_dom x st st' y Hs); [|by apply (wo_pool _ _ _ _ O)]. intros ->. by apply Hp in Hy. }
    apply others_change; [done| |done]. intros e He. rewrite elem_wremove. tauto.
  - destruct (Hn eq_refl Hst) as [_ H']. exists (fr ++ [x]). split; [split; try done|split; [|set_solver]].
    + intros y [Hy| ->%list_elem_of_singleton]%elem_of_app; [by apply (wo_free _ _ _ _ O)|by apply Hp].
    + intros y Hy%(wo_pool _ _ _ _ O). destruct (decide (y = x)) as [->|Hne]; [|by apply (others_dom x st st')].
      apply (free_dom _ _ _ _ H'). set_solver.
    + apply others_change; [done| |intros y Hy; set_solver]. intros e He. rewrite elem_wremove. tauto.
Qed.

(** A tick: the timers that are due are called, the others have one tick less. *)
Lemma timer_change :
  returns (wd_timer (fun _ _ w => Ok w) st) (fun '(st', log) => log = (due tl).*1 ≫= fire (wd_tab st) /\ wd_ok pool st' (later tl) fr /\ same_bodies st st').
Proof.
  destruct (timer_spec (fun _ _ w => Ok w) (fun _ _ _ => eq_refl) st tl fr (wo_rep _ _ _ _ O) (wo_pos _ _ _ _ O)) as (st' & E & H' & Hs).
  eexists. split; [exact E|]. split; [done|]. split; [|done]. split; try done; try apply O.
  - apply Forall_forall. intros e He. unfold later, dec in He. apply list_elem_of_fmap in He as (e0 & -> & [He _]%list_elem_of_filter). simpl. lia.
  - intros x w Hw. specialize (Hs x). rewrite Hw in Hs. destruct (wd_tab st !! x) as [w0|] eqn:E0; [|done]. apply (inj Some) in Hs.
    destruct (body_kind _ _ Hs) as [-> ->]. by apply (wo_kind _ _ _ _ O).
  - intros x Hx%(wo_pool _ _ _ _ O). specialize (Hs x). apply elem_of_dom in Hx as [w Ew]. apply elem_of_dom. rewrite Ew in Hs. destruct (wd_tab st' !! x); [eauto|done].
Qed.

Lemma elem_due x : x ∈ (due tl).*1 <-> (x, 1) ∈ tl.
Proof.
  unfold due. rewrite list_elem_of_fmap. split.
  - intros ([y r] & -> & [He Hin]%list_elem_of_filter). simpl in *. pose proof (wo_pos _ _ _ _ O) as Hp. rewrite Forall_forall in Hp.
    pose proof (Hp _ Hin). simpl in *. by replace 1 with r by lia.
  - intros Hin. exists (x, 1). split; [done|]. apply list_elem_of_filter. by split.
Qed.

Lemma timers_inj x r r' : (x, r) ∈ tl -> (x, r') ∈ tl -> r = r'.
Proof.
  pose proof (sqr_nodup _ _ _ (wr_active _ _ _ (wo_rep _ _ _ _ O))) as Hnd. intros H1 H2.
  apply (elem_of_list_to_map_1 tl) in H1; [|done]. apply (elem_of_list_to_map_1 tl) in H2; [|done]. congruence.
Qed.
End Ops.
