(* ===== verification/TimedInv.v ===== *)
(** * The invariant of the system with timed waits

    Besides the invariant of the kernel: every watchdog is free or belongs to one
    call that waits with a timeout; a watchdog runs only for a call that is in its
    wait, and will call [nxsem_timeout] for that task; and while the task waits it
    has as many ticks left as the time since [start] leaves of the delay. *)

From stdpp Require Import functions.
From S2P Require Import Prelude Bits Links Queue Wdog WdogRep WdogTime WdogProps.
From S2P Require Import Sched SchedRep SchedInv SchedOps SchedCalls SchedPrio.
From S2P Require Import Sem SemOps Task TaskOps Kern KernInv KernActs KernRun KernQuiet Clock Timed TimedDogs.
Import Dq.
Local Open Scope Z_scope.

(** Whether a call has its watchdog. *)
Definition opened (f : twait) : bool := match f with WCreate _ _ => false | _ => true end.

Abbreviation WAIT := TSTATE_WAIT_SEM.

Section TimedInv.
Context (entry idle : Z) (pool : list Z).

(** The ticks after which [wd_start] ends a wait of [delay] ticks. *)
Definition lasts (delay : Z) : Z := Z.min (delay + 1) (2 ^ 31 - 1).

Definition args_ok (k : ksys) (sem : Z) (lim : limit) : Prop := (sem = 0 \/ is_Some (sems k !! sem)) /\ limit_possible sem lim = true.

(** How the ticks of a wait come from what the caller asked for. *)
Definition limit_ok (base : timespec) (lim : limit) (start delay : Z) : Prop :=
  match lim with
  | Ticks start' delay' => start = start' /\ delay = delay'
  | Until abstime => 0 <= start < 2 ^ 32 /\ 0 <= tv_nsec abstime < NSEC_PER_SEC /\ 0 <= tv_sec abstime < 2 ^ 32 /\
      clock_abstime2ticks base start CLOCK_REALTIME abstime = (OK, Some delay)
  end.

(** What holds of the call of [x].  [ds] are watchdogs that have expired and whose
    functions are still to be called. *)
Definition call_ok (k : ksys) (F : gmap Z (list act)) (w : wd_state) (tl : timers) (ds : list Z) (now x : Z) (f : twait) (t : tcb_s) : Prop :=
  match f with
  | WCreate sem lim => pr F x = [] /\ args_ok k sem lim
  | WTake sem lim => pr F x = [] /\ (sem <> 0 /\ args_ok k sem lim) /\ waitdog t ∉ tl.*1
  | WBlocked sem lim start delay =>
      (exists saved, pr F x = [AWaitEnd sem saved]) /\ 0 < delay < 2 ^ 31 /\
      (waitdog t ∈ tl.*1 \/ waitdog t ∈ ds -> fire (wd_tab w) (waitdog t) = [(entry, [pid t])]) /\
      (pterrno t = 0 \/ (pterrno t = ETIMEDOUT /\ waitdog t ∉ tl.*1)) /\
      (task_state t = WAIT ->
         (waitdog t ∈ ds /\ u32 (now - start) = lasts delay) \/ exists r, (waitdog t, r) ∈ tl /\ u32 (now - start) = lasts delay - r)
  | WDelete _ => pr F x = [] /\ waitdog t ∉ tl.*1
  end.

(** The owner of a watchdog. *)
Definition owner (C : gmap Z twait) (T : gmap Z tcb_s) (d x : Z) : Prop :=
  exists f t, C !! x = Some f /\ opened f = true /\ T !! x = Some t /\ waitdog t = d.

Definition blocked_owner (C : gmap Z twait) (T : gmap Z tcb_s) (d x : Z) : Prop :=
  exists sem lim start delay t, C !! x = Some (WBlocked sem lim start delay) /\ T !! x = Some t /\ waitdog t = d.

Record tinv (H : list (Z * Z)) (T : gmap Z tcb_s) (L : tasklist -> list Z) (S : gmap Z Z) (tl : timers) (fr ds : list Z) (st : tst) : Prop := {
  ti_kern : sys_inv idle H T L S (tk st);
  ti_dogs : wd_ok pool (wds st) tl fr;
  ti_now : 0 <= g_system_timer st < 2 ^ 32;
  ti_call x f : calls st !! x = Some f -> exists t, T !! x = Some t /\ pid t <> 0 /\ x <> idle /\
    (opened f = true -> waitdog t ∈ dom (wd_tab (wds st)) /\ waitdog t ∉ fr) /\
    call_ok (ks (tk st)) (progs (tk st)) (wds st) tl ds (g_system_timer st) x f t;
  ti_own d x y : owner (calls st) T d x -> owner (calls st) T d y -> x = y;
  ti_all d : d ∈ dom (wd_tab (wds st)) -> d ∈ fr \/ exists x, owner (calls st) T d x;
  ti_active d : d ∈ tl.*1 -> exists x, blocked_owner (calls st) T d x;
  ti_limit x sem lim start delay : calls st !! x = Some (WBlocked sem lim start delay) -> limit_ok (base st) lim start delay;
  ti_due d : d ∈ ds -> d ∉ tl.*1 /\ exists x, blocked_owner (calls st) T d x
}.

Lemma blocked_owns C T d x : blocked_owner C T d x -> owner C T d x.
Proof. intros (sem & lim & start & delay & t & E & Ht & Ed). by exists (WBlocked sem lim start delay), t. Qed.

Lemma tinv_tcbs H T L S tl fr ds st : tinv H T L S tl fr ds st -> tcbs (sch (ks (tk st))) = T.
Proof. intros I. by apply (sys_tcbs idle H T L S (tk st)), I. Qed.

Lemma tinv_sems H T L S tl fr ds st : tinv H T L S tl fr ds st -> sems (ks (tk st)) = S.
Proof. intros I. apply (ki_sems H idle T L S), (ti_kern _ _ _ _ _ _ _ _ I). Qed.

(** ** What the others see of a step *)

Record lives (t t' : tcb_s) : Prop := {
  lv_dog : waitdog t' = waitdog t;
  lv_pid : pid t <> 0 -> pid t' = pid t;
  lv_errno : pterrno t' = pterrno t;
  lv_wait : task_state t' = WAIT -> task_state t = WAIT
}.

Definition others (x : Z) (T T' : gmap Z tcb_s) : Prop :=
  forall y t, y <> x -> T !! y = Some t -> exists t', T' !! y = Some t' /\ lives t t'.

Lemma lives_refl t : lives t t.
Proof. by split. Qed.

Lemma others_refl x T : others x T T.
Proof. intros y t _ E. exists t. split; [done|apply lives_refl]. Qed.

Lemma others_trans x T1 T2 T3 : others x T1 T2 -> others x T2 T3 -> others x T1 T3.
Proof.
  intros O1 O2 y t Hy E. destruct (O1 y t Hy E) as (t2 & E2 & [A1 A2 A3 A4]). destruct (O2 y t2 Hy E2) as (t3 & E3 & [B1 B2 B3 B4]).
  exists t3. split; [done|]. split; try congruence; [|auto]. intros Hp. specialize (A2 Hp). rewrite <- A2 in *. auto.
Qed.

Lemma quiet_others x m m' : quiet (fun y => y <> x) m m' -> others x m m'.
Proof. intros Q y t Hy E. destruct (Q y t E) as (t' & E' & [A1 A2 A3 A4]). exists t'. split; [done|]. split; auto. Qed.

Lemma quiet_all x m m' : quiet (fun _ => True) m m' -> others x m m'.
Proof. intros Q y t Hy E. destruct (Q y t E) as (t' & E' & [A1 A2 A3 A4]). exists t'. split; [done|]. split; auto. Qed.

(** ** A step of one task

    Only the watchdog [d] changes, which is that of the task [x], if any. *)

Lemma change_keys d st tl fr st' tl' fr' e : dogs_change d st tl fr st' tl' fr' -> e <> d -> e ∈ tl'.*1 <-> e ∈ tl.*1.
Proof.
  intros C He. rewrite !list_elem_of_fmap. split; intros ([y r] & -> & Hin); simpl in *; exists (y, r); (split; [done|]); by apply (dc_tl _ _ _ _ _ _ _ C).
Qed.

Lemma call_other k F w tl fr ds now x f t k' F' w' tl' fr' t' d :
  call_ok k F w tl ds now x f t -> pid t <> 0 -> lives t t' -> F' !! x = F !! x -> (forall s, is_Some (sems k !! s) -> is_Some (sems k' !! s)) ->
  dogs_change d w tl fr w' tl' fr' -> (opened f = true -> waitdog t <> d) -> call_ok k' F' w' tl' ds now x f t'.
Proof.
  intros Hc Hp [L1 L2 L3 L4] EF Hs C Hd. specialize (L2 Hp).
  assert (pr F' x = pr F x) as Ep by (unfold pr; by rewrite EF).
  assert (opened f = true -> waitdog t' ∈ tl'.*1 <-> waitdog t ∈ tl.*1) as Ek by (intros Ho; rewrite L1; apply (change_keys _ _ _ _ _ _ _ _ C); auto).
  assert (forall sem lim, args_ok k sem lim -> args_ok k' sem lim) as Ha by (intros sem lim ([?|?] & ?); split; auto).
  destruct f as [sem lim|sem lim|sem lim start delay|ret]; simpl in *; rewrite Ep.
  - destruct Hc as [? ?]; auto.
  - destruct Hc as (? & [? ?] & ?). rewrite Ek by done. auto.
  - destruct Hc as (Hpr & Hr & Hf & He & Hw). specialize (Hd eq_refl). rewrite Ek, L1, L2, L3 by done. split_and!; try done; try lia.
    + intros Hin. rewrite (dc_fire _ _ _ _ _ _ _ C) by done. by apply Hf.
    + intros Hst. destruct (Hw (L4 Hst)) as [?|(r & Hin & Er)]; [by left|right]. exists r. split; [|done]. by apply (dc_tl _ _ _ _ _ _ _ C).
  - destruct Hc as (? & ?). rewrite Ek by done. auto.
Qed.

(** The state of the call of [x] after the step. *)
Record own_ok (st' : tst) (T' : gmap Z tcb_s) (tl' : timers) (fr' : list Z) (x d : Z) : Prop := {
  oo_call f : calls st' !! x = Some f -> exists t, T' !! x = Some t /\ pid t <> 0 /\ x <> idle /\
    (opened f = true -> waitdog t = d /\ d ∈ dom (wd_tab (wds st')) /\ d ∉ fr') /\
    call_ok (ks (tk st')) (progs (tk st')) (wds st') tl' [] (g_system_timer st') x f t;
  oo_all : d ∈ dom (wd_tab (wds st')) -> d ∈ fr' \/ owner (calls st') T' d x;
  oo_active : d ∈ tl'.*1 -> blocked_owner (calls st') T' d x;
  oo_limit sem lim start delay : calls st' !! x = Some (WBlocked sem lim start delay) -> limit_ok (base st') lim start delay
}.

Lemma owner_other C T C' T' x y d : others x T T' -> y <> x -> C' !! y = C !! y -> owner C T d y -> owner C' T' d y.
Proof.
  intros O Hy EC (f & t & E1 & E2 & E3 & E4). destruct (O y t Hy E3) as (t' & E' & Lv). exists f, t'. rewrite EC, (lv_dog _ _ Lv). done.
Qed.

Lemma owner_back C T C' T' x y d :
  others x T T' -> y <> x -> C' !! y = C !! y -> (forall f, C !! y = Some f -> is_Some (T !! y)) -> owner C' T' d y -> owner C T d y.
Proof.
  intros O Hy EC Hs (f & t' & E1 & E2 & E3 & E4). rewrite EC in E1. destruct (Hs f E1) as [t Ht]. destruct (O y t Hy Ht) as (t2 & E' & Lv).
  rewrite E' in E3. injection E3 as ->. exists f, t. rewrite <- (lv_dog _ _ Lv). done.
Qed.

Lemma blocked_other C T C' T' x y d : others x T T' -> y <> x -> C' !! y = C !! y -> blocked_owner C T d y -> blocked_owner C' T' d y.
Proof.
  intros O Hy EC (sem & lim & start & delay & t & E1 & E3 & E4). destruct (O y t Hy E3) as (t' & E' & Lv).
  exists sem, lim, start, delay, t'. rewrite EC, (lv_dog _ _ Lv). done.
Qed.

Lemma tinv_step H T L S tl fr st H' T' L' S' tl' fr' st' x d :
  tinv H T L S tl fr [] st -> sys_inv idle H' T' L' S' (tk st') -> wd_ok pool (wds st') tl' fr' -> g_system_timer st' = g_system_timer st -> base st' = base st ->
  others x T T' -> (forall y, y <> x -> calls st' !! y = calls st !! y) -> (forall y, y <> x -> progs (tk st') !! y = progs (tk st) !! y) ->
  (forall s, is_Some (S !! s) -> is_Some (S' !! s)) -> dogs_change d (wds st) tl fr (wds st') tl' fr' ->
  (forall y, y <> x -> ~ owner (calls st) T d y) -> (forall e, owner (calls st) T e x -> e = d) -> own_ok st' T' tl' fr' x d ->
  tinv H' T' L' S' tl' fr' [] st'.
Proof.
  intros I K' O' En Eb Ho EC EF ES C Hd Hx W.
  assert (forall y f, calls st !! y = Some f -> is_Some (T !! y)) as Hs by (intros y f Hy; destruct (ti_call _ _ _ _ _ _ _ _ I y f Hy) as (t & ? & _); eauto).
  assert (sems (ks (tk st')) = S') as ES' by (apply (ki_sems H' idle T' L' S'), K').
  split; try done; try (rewrite En; apply I).
  - intros y f Hy. destruct (decide (y = x)) as [->|Hne].
    { destruct (oo_call _ _ _ _ _ _ W f Hy) as (t & E1 & E2 & E3 & E4 & E5). exists t. split_and!; try done. intros Hop. by destruct (E4 Hop) as (-> & ? & ?). }
    rewrite EC in Hy by done. destruct (ti_call _ _ _ _ _ _ _ _ I y f Hy) as (t & Ht & Hp & Hi & Hop & Hc). destruct (Ho y t Hne Ht) as (t' & Ht' & Lv).
    assert (opened f = true -> waitdog t <> d) as Hnd by (intros Hf <-; apply (Hd y Hne); by exists f, t).
    exists t'. rewrite (lv_dog _ _ Lv), (lv_pid _ _ Lv Hp). split_and!; try done.
    + intros Hf. destruct (Hop Hf). rewrite (dc_dom _ _ _ _ _ _ _ C), (dc_free _ _ _ _ _ _ _ C) by auto. done.
    + rewrite En. apply (call_other (ks (tk st)) (progs (tk st)) (wds st) tl fr [] _ y f t _ _ _ _ fr' t' d); auto.
      intros s0. rewrite ES', (tinv_sems _ _ _ _ _ _ _ _ I). auto.
  - assert (forall e y, y <> x -> owner (calls st') T' e y -> owner (calls st) T e y /\ e <> d) as Hb.
    { intros e y Hne Hy. apply (owner_back (calls st) T (calls st') T' x) in Hy; [|by auto|by auto|by auto|by eauto]. split; [done|]. intros ->. by apply (Hd y Hne). }
    assert (forall e, owner (calls st') T' e x -> e = d) as Hxx.
    { intros e (f & t & E1 & E2 & E3 & E4). destruct (oo_call _ _ _ _ _ _ W f E1) as (t2 & F1 & _ & _ & F4 & _). destruct (F4 E2) as (? & _ & _). congruence. }
    intros e y z Hy Hz. destruct (decide (y = x)) as [->|Hyx], (decide (z = x)) as [->|Hzx]; try done.
    + apply Hxx in Hy. by destruct (Hb e z Hzx Hz).
    + apply Hxx in Hz. by destruct (Hb e y Hyx Hy).
    + apply (ti_own _ _ _ _ _ _ _ _ I e); [by apply (Hb e y)|by apply (Hb e z)].
  - intros e He. destruct (decide (e = d)) as [->|Hne]; [destruct (oo_all _ _ _ _ _ _ W He); eauto|].
    rewrite (dc_dom _ _ _ _ _ _ _ C) in He by done. rewrite (dc_free _ _ _ _ _ _ _ C) by done.
    destruct (ti_all _ _ _ _ _ _ _ _ I e He) as [|(y & Hy)]; [by left|right]. exists y.
    assert (y <> x) as Hyx by (intros ->; by apply Hne, Hx). apply (owner_other (calls st) T _ _ x); auto.
  - intros e He. destruct (decide (e = d)) as [->|Hne]; [exists x; by apply (oo_active _ _ _ _ _ _ W)|].
    rewrite (change_keys _ _ _ _ _ _ _ _ C) in He by done. destruct (ti_active _ _ _ _ _ _ _ _ I e He) as (y & Hy). exists y.
    assert (y <> x) as Hyx by (intros ->; by apply Hne, Hx, blocked_owns). apply (blocked_other (calls st) T _ _ x); auto.
  - intros y sem lim start delay Hy. destruct (decide (y = x)) as [->|Hne]; [by apply (oo_limit _ _ _ _ _ _ W sem)|]. rewrite EC in Hy by done.
    rewrite Eb. by apply (ti_limit _ _ _ _ _ _ _ _ I y sem).
  - intros e []%not_elem_of_nil.
Qed.
End TimedInv.
