(* ===== verification/TimedRun.v ===== *)
(** * Runs of the system with timed waits

    Every section of [nxsem_tickwait] and [nxsem_timedwait], every section of the other calls and every
    interrupt keeps the invariant, and no unit of a semaphore is lost or made. *)

From stdpp Require Import functions.
From S2P Require Import Prelude Bits Links Queue Wdog WdogRep WdogTime WdogProps Sched SchedRep SchedInv SchedOps SchedCalls.
From S2P Require Import SchedPrio Sem SemOps Task TaskOps Kern KernInv KernActs KernRun Clock Timed KernQuiet.
From S2P Require Import TimedDogs TimedInv.
Import Dq.
Local Open Scope Z_scope.

Lemma balance_some o T L S F T' L' S' F' : balance o T L S F T' L' S' F' -> forall s, is_Some (S !! s) -> is_Some (S' !! s).
Proof. intros B s [c E]. destruct (B s c E) as (c' & E' & _). eauto. Qed.

Lemma balance_refl T L S F : balance [] T L S F T L S F.
Proof. intros sem c E. exists c. split; [done|]. simpl. lia. Qed.

Lemma abstime2ticks_range base now abstime status n :
  clock_abstime2ticks base now CLOCK_REALTIME abstime = (status, Some n) -> status = OK /\ - 2 ^ 31 <= n < 2 ^ 31.
Proof.
  unfold clock_abstime2ticks. destruct (clock_gettime _ _ _) as [[? ?] [t|]]; [|done]. destruct (_ <? 0); [by intros [= <- <-]|].
  assert (forall x, - 2 ^ 31 <= s32 x < 2 ^ 31) as Hs by (intros x; unfold s32; modlia). destruct (s32 _ <? 0); intros [= <- <-]; (split; [done|apply Hs]).
Qed.

Section TimedRun.
Context (entry idle : Z) (pool : list Z).
Hypothesis (Hpool : Z.of_nat (length pool) < 2 ^ 16 - 1).
Abbreviation sys_inv := (sys_inv idle).
Abbreviation tinv := (tinv entry idle pool).
Abbreviation own_ok := (own_ok entry idle).

(** The invariant after a step, and what it took and gave. *)
Definition tkept (T : gmap Z tcb_s) (L : tasklist -> list Z) (S : gmap Z Z) (st : tst) (o : list obs) (st' : tst) : Prop :=
  exists H' T' L' S' tl' fr', tinv H' T' L' S' tl' fr' [] st' /\ balance o T L S (progs (tk st)) T' L' S' (progs (tk st')).

(** *** Kernel steps as parts of a section *)

Lemma sys_cur H T L S st : sys_inv H T L S st -> this_task (sch (ks st)) = cur L /\ is_Some (T !! cur L) /\ cur L ∉ L waiting.
Proof. intros G. by destruct (ginv_cur _ _ _ _ _ _ _ G) as (? & ? & ? & _). Qed.

(** A call with one section, made and run. *)
Lemma call_runs H T L S k F c a :
  sys_inv H T L S (mk_kst k F) -> pr F (cur L) = [] -> body c = [a] -> act_ok idle k (cur L) a = true ->
  returns (exec k (cur L) a) (fun '(p, o, k') => exists H' T' L' S',
    sys_inv H' T' L' S' (mk_kst k' (<[cur L := p]> F)) /\ balance o T L S F T' L' S' (<[cur L := p]> F)).
Proof.
  intros G Hp Hb Ha. destruct (call_kept idle H T L S (mk_kst k F) c G Hp) as (H1 & T1 & L1 & S1 & G1 & B1). rewrite Hb in G1, B1. simpl in G1, B1.
  assert (cur L1 = cur L) as Ec.
  { destruct (sys_cur _ _ _ _ _ G) as (E1 & _). destruct (sys_cur _ _ _ _ _ G1) as (E2 & _). simpl in *. congruence. }
  eapply returns_impl; [rewrite <- Ec; apply (exec_ok idle H1 T1 L1 S1 _ k [] G1)|].
  - simpl. by rewrite Ec, lookup_insert, decide_True by done.
  - by rewrite Ec.
  - intros [[p o] k'] (H2 & T2 & L2 & S2 & G2 & B2). simpl in G2, B2. rewrite Ec, app_nil_r, insert_insert, decide_True in G2, B2 by done.
    exists H2, T2, L2, S2. split; [done|]. by apply (balance_trans [] o _ _ _ _ T1 L1 S1 (<[cur L := [a]]> F)).
Qed.

(** The value that a call inside a section returns goes to the section. *)
Lemma drop_return H T L S k F x r :
  sys_inv H T L S (mk_kst k (<[x := [AReturn r]]> F)) ->
  sys_inv H T L S (mk_kst k (<[x := []]> F)) /\ forall sem, pend T L (<[x := []]> F) sem = pend T L (<[x := [AReturn r]]> F) sem.
Proof.
  intros G. unfold KernRun.sys_inv in *. cbn [ks progs] in *. set (F1 := <[x := [AReturn r]]> F) in *.
  assert (F1 !! x = Some [AReturn r]) as Ex by (unfold F1; by rewrite lookup_insert, decide_True).
  assert (x ∉ L waiting) as Hx by (intros Hx; destruct (gi_wait _ _ _ _ _ _ _ G x Hx) as (saved & q & E & _); congruence).
  pose proof (gi_dom _ _ _ _ _ _ _ G x ltac:(eauto)) as Hs.
  destruct (ginv_still idle H T L S F1 k T L S k x (AReturn r) [] [] G Hx Ex (gi_k _ _ _ _ _ _ _ G) (still_refl T L x) (gi_slice _ _ _ _ _ _ _ G)) as [G' Hp];
    [constructor|constructor|apply NoDup_nil_2|intros t []%not_elem_of_nil|].
  assert (<[x := [] ++ []]> F1 = <[x := []]> F) as E by (unfold F1; by rewrite insert_insert, decide_True by done).
  rewrite E in G', Hp. split; [done|]. intros sem. rewrite Hp. unfold owed. rewrite Ex. lia.
Qed.

Lemma drop_kept o H T L S T0 L0 S0 F0 k F x r :
  sys_inv H T L S (mk_kst k (<[x := [AReturn r]]> F)) -> balance o T0 L0 S0 F0 T L S (<[x := [AReturn r]]> F) ->
  sys_inv H T L S (mk_kst k (<[x := []]> F)) /\ balance o T0 L0 S0 F0 T L S (<[x := []]> F).
Proof.
  intros G B. destruct (drop_return _ _ _ _ _ _ _ _ G) as [G' Hp]. split; [done|]. intros sem c E. destruct (B sem c E) as (c' & E' & Q). exists c'. by rewrite Hp.
Qed.

(** The watchdog of a task is stored in its control block. *)
Lemma dog_step H T L S k F x v :
  sys_inv H T L S (mk_kst k F) -> is_Some (T !! x) ->
  returns (ktupd k x (fun t => set_waitdog t v)) (fun k' => exists L' S', let T' := alter (fun t => set_waitdog t v) x T in
    sys_inv H T' L' S' (mk_kst k' F) /\ balance [] T L S F T' L' S' F).
Proof.
  intros G Hs. eapply returns_impl; [apply ktupd_returns, (field_sinv H idle T L); try done; apply G|]. intros k' (s' & S1 & ->).
  set (T' := alter _ x T) in *.
  destruct (ginv_moved idle H T L S F k G T' L s' S1) as (T2 & L2 & S2 & G2 & B2).
  - intros y. by apply still_alter.
  - apply slice_alter; [|apply G]. intros t Ht. apply (gi_slice _ _ _ _ _ _ _ G x t Ht).
  - assert (T2 = T') as ->; [|by exists L2, S2]. destruct (gi_k _ _ _ _ _ _ _ G2) as [[[R2 _] _] _ _ _ _]. destruct S1 as [[R1 _] _].
    rewrite <- (sr_tcbs _ _ _ _ R2). by apply (sr_tcbs _ _ _ _ R1).
Qed.

Lemma dog_others T x v : others x T (alter (fun t => set_waitdog t v) x T).
Proof. intros y t Hy Ht. exists t. rewrite lookup_alter_ne by done. split; [done|apply lives_refl]. Qed.

(** *** No watchdog at address 0 *)

Lemma no_dog st tl fr H T L S : tinv H T L S tl fr [] st -> 0 ∉ dom (wd_tab (wds st)) /\ 0 ∉ tl.*1 /\ forall x, ~ owner (calls st) T 0 x.
Proof.
  intros I. pose proof (wo_rep _ _ _ _ (ti_dogs _ _ _ _ _ _ _ _ _ _ _ I)) as R. pose proof (wr_null _ _ _ R) as Hn. split_and!; [done| |].
  - intros Hin. by destruct (rep_in _ _ _ _ R Hin) as (? & _).
  - intros x (f & t & E1 & E2 & E3 & E4). destruct (ti_call _ _ _ _ _ _ _ _ _ _ _ I x f E1) as (t2 & F1 & _ & _ & F4 & _).
    assert (t2 = t) as -> by congruence. destruct (F4 E2) as [Hd _]. rewrite E4 in Hd. done.
Qed.

(** A step of the kernel that is not part of a timed wait. *)
Lemma tinv_kernel H T L S tl fr st H' T' L' S' k' x :
  tinv H T L S tl fr [] st -> sys_inv H' T' L' S' k' -> others x T T' -> calls st !! x = None ->
  (forall y, y <> x -> progs k' !! y = progs (tk st) !! y) -> (forall s, is_Some (S !! s) -> is_Some (S' !! s)) ->
  tinv H' T' L' S' tl fr [] (mk_tst k' (wds st) (g_system_timer st) (calls st) (base st)).
Proof.
  intros I K' O Hx HF HS. destruct (no_dog _ _ _ _ _ _ _ I) as (N1 & N2 & N3).
  apply (tinv_step entry idle pool H T L S tl fr st H' T' L' S' tl fr _ x 0); try done; try apply I.
  - intros e (f & t & E & _). congruence.
  - split; simpl; [intros f E; congruence|done|done|intros ? ? ? ? E; congruence].
Qed.

(** *** Steps of the kernel *)

Section Step.
Context (H : list (Z * Z)) (T : gmap Z tcb_s) (L : tasklist -> list Z) (S : gmap Z Z) (tl : timers) (fr : list Z) (st : tst).
Hypothesis (I : tinv H T L S tl fr [] st).

Lemma st_tcbs : tcbs (sch (ks (tk st))) = T.
Proof. by apply (tinv_tcbs _ _ _ _ _ _ _ _ _ _ _ I). Qed.

Lemma st_cur : this_task (sch (ks (tk st))) = cur L.
Proof. by destruct (sys_cur _ _ _ _ _ (ti_kern _ _ _ _ _ _ _ _ _ _ _ I)) as (? & _). Qed.

Lemma kern_tcbs H' T' L' S' k' : sys_inv H' T' L' S' k' -> tcbs (sch (ks k')) = T'.
Proof. apply sys_tcbs. Qed.

Lemma kern_event e :
  tpossible idle st (TKern e) = true -> returns (tstep entry st (TKern e)) (fun '(o, st') => tkept T L S st o st').
Proof.
  intros Hp. pose proof (ti_kern _ _ _ _ _ _ _ _ _ _ _ I) as K. pose proof st_tcbs as ET. pose proof st_cur as Ec. unfold tpossible in Hp. cbv zeta in Hp. rewrite Ec in Hp.
  assert (possible idle (tk st) e = true) as He.
  { destruct e as [c| |i]; [apply andb_true_iff in Hp as [_ Hp]; exact Hp..|by destruct i]. }
  destruct (kstep_kept idle H T L S (tk st) e K He) as ([o k'] & E & H' & T' & L' & S' & K' & B).
  exists (o, mk_tst k' (wds st) (g_system_timer st) (calls st) (base st)). split; [unfold tstep; by rewrite E|]. pose proof (kern_tcbs _ _ _ _ _ K') as ET'.
  assert (exists x, calls st !! x = None /\ others x T T' /\ forall y, y <> x -> progs k' !! y = progs (tk st) !! y) as (x & Hx & Ho & HF).
  { unfold kstep in E. cbv zeta in E. rewrite Ec in E. destruct e as [c| |i].
    - apply andb_true_iff in Hp as [Hf%bool_decide_eq_true_1 _]. injection E as <- <-. exists (cur L). split; [done|]. simpl in ET'. split.
      + rewrite <- ET', ET. apply others_refl.
      + intros y Hy. simpl. by rewrite lookup_insert_ne.
    - apply andb_true_iff in Hp as [Hf%bool_decide_eq_true_1 Hp]. exists (cur L). split; [done|]. unfold possible in Hp. cbv zeta in Hp. rewrite Ec in Hp.
      destruct (prog (tk st) (cur L)) as [|a rest]; [done|]. apply bind_Ok_inv in E as ([[p o1] k1] & E1 & [= -> <-]). simpl in ET'. split.
      + apply quiet_others. rewrite <- ET', <- ET. rewrite <- Ec in E1. eapply (exec_quiet _ _ _ _ _ _ _ E1); [rewrite Ec; tauto| |apply quiet_refl].
        intros z pz ty t -> Ht. simpl in Hp. b2p. unfold tcb_is in *. rewrite Ht in *.
        match goal with Hz : bool_decide (t = zero_tcb) = true |- _ => apply bool_decide_eq_true_1 in Hz as -> end. done.
      + intros y Hy. simpl. by rewrite lookup_insert_ne.
    - destruct i as [sem| |p]; try done. apply bind_Ok_inv in E as ([o1 k1] & E1 & [= -> <-]). exists 0. simpl in ET'. split; [|split; [|done]].
      + destruct (calls st !! 0) as [f|] eqn:E0; [|done]. destruct (ti_call _ _ _ _ _ _ _ _ _ _ _ I 0 f E0) as (t & Ht & _).
        destruct K as [[[[R _] _] _ _ _ _]]. by destruct (sr_node _ _ _ _ R 0 ltac:(eauto)) as [? _].
      + apply quiet_all. rewrite <- ET', <- ET. unfold interrupt in E1. apply bind_Ok_inv in E1 as ([[r sw] k2] & E2 & [= _ <-]).
        eapply (post_quiet _ _ _ _ _ _ _ E2). apply quiet_refl. }
  exists H', T', L', S', tl, fr. split; [|done]. apply (tinv_kernel H T L S tl fr st H' T' L' S' k' x); try done. by apply (balance_some _ _ _ _ _ _ _ _ _ B).
Qed.

(** *** The start of a timed wait *)

Lemma call_event sem lim :
  tpossible idle st (TCall sem lim) = true -> returns (tstep entry st (TCall sem lim)) (fun '(o, st') => tkept T L S st o st').
Proof.
  intros Hp. pose proof (ti_kern _ _ _ _ _ _ _ _ _ _ _ I) as K. pose proof st_cur as Ec. unfold tpossible in Hp. cbv zeta in Hp. rewrite Ec in Hp.
  apply andb_true_iff in Hp as [Hp H5]. apply andb_true_iff in Hp as [Hp H4].
  apply andb_true_iff in Hp as [Hp H3]. apply andb_true_iff in Hp as [H1%bool_decide_eq_true_1 H2%bool_decide_eq_true_1].
  apply negb_true_iff in H3. apply Z.eqb_neq in H3. destruct (sys_cur _ _ _ _ _ K) as (_ & [t Ht] & _). destruct (no_dog _ _ _ _ _ _ _ I) as (N1 & N2 & N3).
  assert (pid t <> 0) as Hpid.
  { pose proof (gi_pid _ _ _ _ _ _ _ K (cur L)) as Hg. unfold pid_of in Hg. rewrite Ht in Hg. apply Hg; [|done]. eexists. apply (wf_cur_in idle T L).
    apply (ki_wf H idle T L S (ks (tk st))), K. }
  apply returns_Ok. rewrite Ec. exists H, T, L, S, tl, fr. split; [|apply balance_refl].
  apply (tinv_step entry idle pool H T L S tl fr st H T L S tl fr _ (cur L) 0); try done; try apply I; simpl.
  - apply others_refl.
  - intros y Hy. by rewrite lookup_insert_ne.
  - intros e (f & t2 & E & _). congruence.
  - split; simpl; [|done|done|intros ? ? ? ?; by rewrite lookup_insert, decide_True by done].
    rewrite lookup_insert, decide_True by done. intros f [= <-]. exists t. split_and!; try done. split; [done|]. split; [|done].
    unfold sem_addr in H4. apply orb_true_iff in H4 as [H4%Z.eqb_eq|H4%bool_decide_eq_true_1]; auto.
Qed.

(** *** The sections of a timed wait *)

Lemma own_dog x f t : calls st !! x = Some f -> opened f = true -> T !! x = Some t ->
  (forall y, y <> x -> ~ owner (calls st) T (waitdog t) y) /\ (forall e, owner (calls st) T e x -> e = waitdog t).
Proof.
  intros E1 E2 E3. assert (owner (calls st) T (waitdog t) x) as Hx by (by exists f, t). split.
  - intros y Hy Ho. apply Hy. by apply (ti_own _ _ _ _ _ _ _ _ _ _ _ I (waitdog t)).
  - intros e (f2 & t2 & F1 & F2 & F3 & F4). congruence.
Qed.

Lemma free_unowned d y : d ∈ fr \/ d ∉ dom (wd_tab (wds st)) -> ~ owner (calls st) T d y.
Proof.
  intros Hd (f & t & E1 & E2 & E3 & E4). destruct (ti_call _ _ _ _ _ _ _ _ _ _ _ I y f E1) as (t2 & F1 & _ & _ & F4 & _).
  assert (t2 = t) as -> by congruence. destruct (F4 E2) as [G1 G2]. rewrite E4 in *. by destruct Hd.
Qed.

Abbreviation X := (cur L).

(** The state after a section of the running task. *)
Abbreviation st_after k F w c := (mk_tst (mk_kst k F) w (g_system_timer st) c (base st)).

(** The call that returns before it has a watchdog. *)
Lemma null_section newmem raw sem abstime :
  calls st !! X = Some (WCreate sem (Until abstime)) -> sem = 0 ->
  returns (trun1 entry newmem raw st X (WCreate sem (Until abstime))) (fun '(o, st') => tkept T L S st o st').
Proof.
  intros Ef ->. destruct (no_dog _ _ _ _ _ _ _ I) as (N1 & N2 & N3). unfold trun1. cbv zeta. unfold timedwait_create. rewrite Z.eqb_refl, bind_Ok.
  apply returns_Ok. exists H, T, L, S, tl, fr. split; [|apply balance_refl].
  apply (tinv_step entry idle pool H T L S tl fr st H T L S tl fr _ X 0); try done; try apply I; simpl; try exact (ti_kern _ _ _ _ _ _ _ _ _ _ _ I).
  - apply others_refl.
  - intros y Hy. by rewrite lookup_partial_alter_ne.
  - intros e (f & t2 & E1 & E2 & _). rewrite Ef in E1. injection E1 as <-. done.
  - split; simpl; try done; intros *; by rewrite lookup_partial_alter_eq.
Qed.

Lemma create_part newmem raw sem lim :
  calls st !! X = Some (WCreate sem lim) -> sem <> 0 -> newmem ∉ dom (wd_tab (wds st)) ->
  returns ('(f, o, k, w) ← tickwait_create newmem raw (ks (tk st)) (wds st) X sem lim;
           Ok (o, st_after k (progs (tk st)) w (partial_alter (fun _ => f) X (calls st)))) (fun '(o, st') => tkept T L S st o st').
Proof.
  intros Ef Hs0 Hn. destruct (ti_call _ _ _ _ _ _ _ _ _ _ _ I X _ Ef) as (t & Ht & Hp & Hi & _ & Hpr & Ha & Hl).
  destruct (no_dog _ _ _ _ _ _ _ I) as (N1 & N2 & N3). unfold tickwait_create.
  destruct (create_change pool (wds st) tl fr (ti_dogs _ _ _ _ _ _ _ _ _ _ _ I) Hpool newmem raw Hn) as ([w' d] & -> & fr' & O' & Hd). rewrite bind_Ok.
  destruct (dog_step H T L S (ks (tk st)) (progs (tk st)) X d) as (k' & -> & L' & S' & K' & B); [exact (ti_kern _ _ _ _ _ _ _ _ _ _ _ I)|eauto|]. rewrite bind_Ok.
  set (T' := alter _ X T) in *. assert (T' !! X = Some (set_waitdog t d)) as Ht' by (unfold T'; by rewrite lookup_alter, decide_True, Ht by done).
  pose proof (balance_some _ _ _ _ _ _ _ _ _ B) as HS. destruct (d =? 0) eqn:E0; b2p; rewrite bind_Ok; apply returns_Ok.
  - subst d. destruct Hd as [Et ->]. exists H, T', L', S', tl, fr. split; [|exact B].
    apply (tinv_step entry idle pool H T L S tl fr st H T' L' S' tl fr _ X 0); try done; try apply I; simpl.
    + apply dog_others.
    + intros y Hy. by rewrite lookup_partial_alter_ne.
    + split; try done; intros y Hy; simpl; by rewrite Et.
    + intros e (f & t2 & E1 & E2 & _). rewrite Ef in E1. injection E1 as <-. done.
    + split; simpl; rewrite ?Et; try done; intros *; by rewrite lookup_partial_alter_eq.
  - destruct Hd as (C & D1 & D2 & D3 & D4).
    exists H, T', L', S', tl, fr'. split; [|exact B].
    apply (tinv_step entry idle pool H T L S tl fr st H T' L' S' tl fr' _ X d); try done; try apply I; simpl.
    + apply dog_others.
    + intros y Hy. by rewrite lookup_partial_alter_ne.
    + intros y Hy. apply free_unowned. destruct (decide (d ∈ dom (wd_tab (wds st)))); [left; auto|by right].
    + intros e (f & t2 & E1 & E2 & _). rewrite Ef in E1. injection E1 as <-. done.
    + split; simpl; try done.
      * intros f. rewrite lookup_partial_alter_eq. intros [= <-]. exists (set_waitdog t d). split_and!; try done; simpl. split_and!; try done. split; [|done]. right.
        destruct Ha as [?|Ha]; [done|].
        assert (sems k' = S') as -> by (apply (ki_sems H idle T' L' S'), K'). apply HS. by rewrite <- (tinv_sems _ _ _ _ _ _ _ _ _ _ _ I).
      * intros _. right. exists (WTake sem lim), (set_waitdog t d). by rewrite lookup_partial_alter_eq.
      * intros *. by rewrite lookup_partial_alter_eq.
Qed.

Lemma create_section newmem raw sem lim :
  calls st !! X = Some (WCreate sem lim) -> newmem ∉ dom (wd_tab (wds st)) ->
  returns (trun1 entry newmem raw st X (WCreate sem lim)) (fun '(o, st') => tkept T L S st o st').
Proof.
  intros Ef Hn. destruct (ti_call _ _ _ _ _ _ _ _ _ _ _ I X _ Ef) as (_ & _ & _ & _ & _ & _ & _ & Hl). destruct lim as [start delay|abstime].
  - apply create_part; try done. simpl in Hl. intros ->. done.
  - destruct (decide (sem = 0)) as [E0|E0]; [by apply null_section|]. unfold trun1. cbv zeta. unfold timedwait_create. rewrite (proj2 (Z.eqb_neq _ _) E0). by apply create_part.
Qed.

(** A section that leaves the call before [wd_delete]. *)
Lemma to_delete f t ret tl' w' T' H' L' S' k' :
  calls st !! X = Some f -> opened f = true -> T !! X = Some t -> pid t <> 0 -> X <> idle -> waitdog t ∈ dom (wd_tab w') -> waitdog t ∉ fr ->
  wd_ok pool w' tl' fr -> dogs_change (waitdog t) (wds st) tl fr w' tl' fr -> waitdog t ∉ tl'.*1 ->
  sys_inv H' T' L' S' (mk_kst k' (<[X := []]> (progs (tk st)))) -> quiet (fun y => y <> X) T T' -> (forall s, is_Some (S !! s) -> is_Some (S' !! s)) ->
  tinv H' T' L' S' tl' fr [] (st_after k' (<[X := []]> (progs (tk st))) w' (<[X := WDelete ret]> (calls st))).
Proof.
  intros Ef Eo Ht Hp Hi D1 D2 O' C D3 K' Q HS. destruct (own_dog X f t Ef Eo Ht) as [W1 W2]. destruct (Q X t Ht) as (t' & Ht' & [Q1 Q2 _ _]).
  apply (tinv_step entry idle pool H T L S tl fr st H' T' L' S' tl' fr _ X (waitdog t)); try done; try apply I; simpl.
  - by apply quiet_others.
  - intros y Hy. by rewrite lookup_insert_ne.
  - intros y Hy. by rewrite lookup_insert_ne.
  - split; simpl; try done.
    + intros f'. rewrite lookup_insert, decide_True by done. intros [= <-]. exists t'. rewrite Q1, (Q2 Hp). split_and!; try done. simpl. rewrite Q1. split; [|done].
      unfold pr. by rewrite lookup_insert, decide_True by done.
    + intros _. right. exists (WDelete ret), t'. by rewrite lookup_insert, decide_True by done.
    + intros *. by rewrite lookup_insert, decide_True by done.
Qed.

Lemma delete_section newmem raw ret :
  calls st !! X = Some (WDelete ret) -> returns (trun1 entry newmem raw st X (WDelete ret)) (fun '(o, st') => tkept T L S st o st').
Proof.
  intros Ef. destruct (ti_call _ _ _ _ _ _ _ _ _ _ _ I X _ Ef) as (t & Ht & Hp & Hi & Hop & Hpr & Hd). destruct (Hop eq_refl) as [D1 D2].
  destruct (own_dog X _ t Ef eq_refl Ht) as [W1 W2]. unfold trun1. cbv zeta. unfold tickwait_delete.
  pose proof (ti_kern _ _ _ _ _ _ _ _ _ _ _ I) as K. pose proof (gi_k _ _ _ _ _ _ _ K) as [[[R _] _] _ _ _ _].
  rewrite (tget_Ok _ _ _ _ _ _ R Ht), bind_Ok.
  destruct (delete_change pool (wds st) tl fr (ti_dogs _ _ _ _ _ _ _ _ _ _ _ I) Hpool (waitdog t) D1 D2) as ([[w' r] f'] & -> & fr' & O' & C & Hin). rewrite bind_Ok.
  destruct (dog_step H T L S (ks (tk st)) (progs (tk st)) X 0) as (k' & -> & L' & S' & K' & B); [exact (ti_kern _ _ _ _ _ _ _ _ _ _ _ I)|eauto|]. rewrite !bind_Ok.
  apply returns_Ok. set (T' := alter _ X T) in *. exists H, T', L', S', (wremove (waitdog t) tl), fr'. split; [|exact B].
  apply (tinv_step entry idle pool H T L S tl fr st H T' L' S' (wremove (waitdog t) tl) fr' _ X (waitdog t)); try done; try apply I; simpl.
  - apply dog_others.
  - intros y Hy. by rewrite lookup_delete_ne.
  - apply (balance_some _ _ _ _ _ _ _ _ _ B).
  - split; simpl.
    + intros f. by rewrite lookup_delete_eq.
    + intros Hx. left. auto.
    + intros Hx. by apply wremove_notin in Hx.
    + intros *. by rewrite lookup_delete_eq.
Qed.

Lemma call_prog f : calls st !! X = Some f -> match f with WBlocked _ _ _ _ => True | _ => pr (progs (tk st)) X = [] end.
Proof. intros Ef. destruct (ti_call _ _ _ _ _ _ _ _ _ _ _ I X _ Ef) as (t & _ & _ & _ & _ & Hc). by destruct f; [apply Hc|apply Hc| |apply Hc]. Qed.

(** The attempt to take a unit without waiting. *)
Lemma try_part sem c : pr (progs (tk st)) X = [] -> sem <> 0 -> S !! sem = Some c ->
  exists ret k1 H1 T1 L1 S1, nxsem_trywait (ks (tk st)) sem = Ok (ret, k1) /\
    (if 0 <? c then ret = OK else ret = - EAGAIN /\ k1 = ks (tk st)) /\
    sys_inv H1 T1 L1 S1 (mk_kst k1 (<[X := []]> (progs (tk st)))) /\ quiet (fun y => y <> X) T T1 /\
    balance (took sem ret) T L S (progs (tk st)) T1 L1 S1 (<[X := []]> (progs (tk st))).
Proof.
  intros Hpr H0 Ec. pose proof (ti_kern _ _ _ _ _ _ _ _ _ _ _ I) as K.
  destruct (call_runs H T L S (ks (tk st)) (progs (tk st)) (CTrywait sem) (ATrywait sem) K Hpr eq_refl) as ([[p o] k1] & E & H1 & T1 & L1 & S1 & K1 & B1).
  { simpl. unfold sem_addr. rewrite (proj2 (Z.eqb_neq _ _) H0), (tinv_sems _ _ _ _ _ _ _ _ _ _ _ I), bool_decide_eq_true_2 by eauto. done. }
  unfold exec in E. apply bind_Ok_inv in E as ([ret k2] & E & [= <- <- ->]). destruct (drop_kept _ _ _ _ _ _ _ _ _ _ _ _ _ K1 B1) as [K2 B2].
  exists ret, k1, H1, T1, L1, S1. split; [done|]. split; [|split; [done|split; [|done]]].
  - destruct (nxsem_trywait_spec H idle T L S (ks (tk st)) sem c (gi_k _ _ _ _ _ _ _ K) H0 Ec) as ([r2 k2] & E2 & Hr). rewrite E in E2. injection E2 as <- <-.
    destruct (0 <? c); [by destruct Hr|done].
  - pose proof (kern_tcbs _ _ _ _ _ K1) as E1. simpl in E1. rewrite <- E1, <- st_tcbs. apply (trywait_quiet _ _ _ _ _ _ E). apply quiet_refl.
Qed.

(** The part of the wait that blocks. *)
Lemma wait_part sem c : pr (progs (tk st)) X = [] -> sem <> 0 -> S !! sem = Some c -> c <= 0 -> X <> idle ->
  exists saved k1 H1 T1 L1 S1, nxsem_wait (ks (tk st)) sem = Ok (Block saved, k1) /\
    sys_inv H1 T1 L1 S1 (mk_kst k1 (<[X := [AWaitEnd sem saved]]> (progs (tk st)))) /\ quiet (fun y => y <> X) T T1 /\ terrno T1 X = 0 /\
    balance [] T L S (progs (tk st)) T1 L1 S1 (<[X := [AWaitEnd sem saved]]> (progs (tk st))).
Proof.
  intros Hpr H0 Ec Hc Hi. pose proof (ti_kern _ _ _ _ _ _ _ _ _ _ _ I) as K.
  destruct (call_runs H T L S (ks (tk st)) (progs (tk st)) (CWait sem) (AWait sem) K Hpr eq_refl) as ([[p o] k1] & E & H1 & T1 & L1 & S1 & K1 & B1).
  { simpl. unfold sem_addr. rewrite (proj2 (Z.eqb_neq _ _) H0), (proj2 (Z.eqb_neq _ _) Hi), (tinv_sems _ _ _ _ _ _ _ _ _ _ _ I), bool_decide_eq_true_2 by eauto. done. }
  unfold exec in E. apply bind_Ok_inv in E as ([oc k2] & E & E').
  destruct (nxsem_wait_spec H idle T L S (ks (tk st)) sem c (gi_k _ _ _ _ _ _ _ K) H0 Ec Hi) as ([oc2 k3] & E2 & Hr). rewrite E in E2. injection E2 as <- <-.
  rewrite (proj2 (Z.ltb_ge 0 c) Hc) in Hr. destruct Hr as (-> & T2 & K2 & Kp). injection E' as <- <- ->.
  pose proof (kern_tcbs _ _ _ _ _ K1) as E1. simpl in E1. assert (T2 = T1) as ->.
  { rewrite <- E1. destruct K2 as [[[R2 _] _] _ _ _ _]. symmetry. apply (sr_tcbs _ _ _ _ R2). }
  exists (terrno T X), k1, H1, T1, L1, S1. split_and!; try done.
  - rewrite <- E1, <- st_tcbs. apply (wait_quiet _ _ _ _ _ _ E); [rewrite st_cur; tauto|apply quiet_refl].
  - rewrite (sees_terrno _ _ X (keeps_sees _ _ Kp)). unfold terrno, begin_wait. destruct (sys_cur _ _ _ _ _ K) as (_ & [t Ht] & _).
    by rewrite !lookup_alter, !decide_True, Ht by done.
Qed.

(** The watchdog is started and the task blocks. *)
Lemma block_part sem lim start delay left c t :
  calls st !! X = Some (WTake sem lim) -> T !! X = Some t -> pr (progs (tk st)) X = [] -> sem <> 0 -> S !! sem = Some c -> c <= 0 -> X <> idle -> pid t <> 0 ->
  waitdog t ∈ dom (wd_tab (wds st)) -> waitdog t ∉ fr -> limit_ok (base st) lim start delay -> 0 < delay < 2 ^ 31 -> 0 <= left < 2 ^ 31 ->
  lasts left = lasts delay - u32 (g_system_timer st - start) ->
  exists w' r saved k2, wd_start (wds st) (waitdog t) left entry 1 [pid t] = Ok (w', r) /\ nxsem_wait (ks (tk st)) sem = Ok (Block saved, k2) /\
    tkept T L S st [] (st_after k2 (<[X := [AWaitEnd sem saved]]> (progs (tk st))) w' (<[X := WBlocked sem lim start delay]> (calls st))).
Proof.
  intros Ef Ht Hpr Ha0 Hc Ec Hi Hp D1 D2 Hlim Hd Hl El. pose proof (ti_dogs _ _ _ _ _ _ _ _ _ _ _ I) as O.
  destruct (start_change pool (wds st) tl fr O (waitdog t) left entry (pid t) D1 D2 Hl) as ([w' r] & Ew & O' & C & D4 & D5). set (tl' := winsert _ _ _) in *.
  destruct (wait_part sem c Hpr Ha0 Hc Ec Hi) as (saved & k2 & H2 & T2 & L2 & S2 & E2 & K2 & Q2 & Er & B2). exists w', r, saved, k2. split; [done|]. split; [done|].
  exists H2, T2, L2, S2, tl', fr. split; [|exact B2]. destruct (own_dog X _ t Ef eq_refl Ht) as [W1 W2]. destruct (Q2 X t Ht) as (t' & Ht' & [Q3 Q4 _ _]).
  assert (terrno T2 X = pterrno t') as Ee by (unfold terrno; by rewrite Ht').
  apply (tinv_step entry idle pool H T L S tl fr st H2 T2 L2 S2 tl' fr _ X (waitdog t)); try done; try apply I; simpl.
  - by apply quiet_others.
  - intros y Hy. by rewrite lookup_insert_ne.
  - intros y Hy. by rewrite lookup_insert_ne.
  - apply (balance_some _ _ _ _ _ _ _ _ _ B2).
  - split; simpl.
    + intros f'. rewrite lookup_insert, decide_True by done. intros [= <-]. exists t'. rewrite Q3, (Q4 Hp). split_and!; try done. simpl. rewrite Q3, (Q4 Hp).
      split_and!; try done; try lia.
      * exists saved. unfold pr. by rewrite lookup_insert, decide_True by done.
      * intros _. right. exists (lasts left). split; [apply elem_winsert; by left|]. lia.
    + intros _. right. exists (WBlocked sem lim start delay), t'. by rewrite lookup_insert, decide_True by done.
    + intros _. exists sem, lim, start, delay, t'. by rewrite lookup_insert, decide_True by done.
    + intros sem' lim' start' delay'. rewrite lookup_insert, decide_True by done. by intros [= _ <- <- <-].
Qed.

(** What the attempt leaves: the call is over, or goes on where it was. *)
Lemma take_part sem lim :
  calls st !! X = Some (WTake sem lim) ->
  exists t c ret k1, T !! X = Some t /\ pid t <> 0 /\ X <> idle /\ waitdog t ∈ dom (wd_tab (wds st)) /\ waitdog t ∉ fr /\ pr (progs (tk st)) X = [] /\ sem <> 0 /\
    S !! sem = Some c /\ limit_possible sem lim = true /\ nxsem_trywait (ks (tk st)) sem = Ok (ret, k1) /\ (if 0 <? c then ret = OK else ret = - EAGAIN /\ k1 = ks (tk st)) /\
    forall r, tkept T L S st (took sem ret) (st_after k1 (<[X := []]> (progs (tk st))) (wds st) (<[X := WDelete r]> (calls st))).
Proof.
  intros Ef. destruct (ti_call _ _ _ _ _ _ _ _ _ _ _ I X _ Ef) as (t & Ht & Hp & Hi & Hop & Hpr & (Ha0 & Ha & Hl) & Hd). destruct (Hop eq_refl) as [D1 D2].
  destruct Ha as [?|[c Hc]]; [done|]. rewrite (tinv_sems _ _ _ _ _ _ _ _ _ _ _ I) in Hc.
  destruct (try_part sem c Hpr Ha0 Hc) as (ret & k1 & H1 & T1 & L1 & S1 & E1 & Hr & K1 & Q1 & B1). exists t, c, ret, k1. split_and!; try done.
  intros r. exists H1, T1, L1, S1, tl, fr. split; [|exact B1]. apply (to_delete (WTake sem lim) t); try done; [apply (ti_dogs _ _ _ _ _ _ _ _ _ _ _ I)|apply (balance_some _ _ _ _ _ _ _ _ _ B1)].
Qed.

Lemma tick_section newmem raw sem start delay :
  calls st !! X = Some (WTake sem (Ticks start delay)) -> returns (trun1 entry newmem raw st X (WTake sem (Ticks start delay))) (fun '(o, st') => tkept T L S st o st').
Proof.
  intros Ef. destruct (take_part _ _ Ef) as (t & c & ret & k1 & Ht & Hp & Hi & D1 & D2 & Hpr & Ha0 & Hc & Hl & E1 & Hr & Hdel). simpl in Hl. b2p.
  unfold trun1. cbv zeta. unfold tickwait_take, clock_systimer. rewrite E1, bind_Ok. destruct (0 <? c) eqn:Ec; b2p.
  { subst ret. rewrite Z.eqb_refl, bind_Ok. apply returns_Ok. apply Hdel. }
  destruct Hr as [-> ->]. change (- EAGAIN =? OK) with false. change (took sem (- EAGAIN)) with (@nil obs) in Hdel. cbv iota.
  destruct (delay =? 0) eqn:E0; b2p; [rewrite bind_Ok; apply returns_Ok; apply Hdel|]. set (el := u32 (g_system_timer st - start)).
  assert (0 <= el) as Hel by (unfold el, u32; apply Z.mod_pos_bound; lia).
  destruct (delay <=? el) eqn:El; b2p; [rewrite bind_Ok; apply returns_Ok; apply Hdel|].
  pose proof (ti_kern _ _ _ _ _ _ _ _ _ _ _ I) as K. pose proof (gi_k _ _ _ _ _ _ _ K) as [[[R _] _] _ _ _ _].
  rewrite (tget_Ok _ _ _ _ _ _ R Ht), bind_Ok. assert (s32 (u32 (delay - el)) = delay - el) as -> by (rewrite u32_small, s32_small; lia).
  destruct (block_part sem (Ticks start delay) start delay (delay - el) c t) as (w' & r & saved & k2 & -> & Ew & Hk); try done; try lia; [unfold lasts; fold el; lia|].
  rewrite bind_Ok, Ew, !bind_Ok. apply returns_Ok. exact Hk.
Qed.

Lemma time_section newmem raw sem abstime :
  calls st !! X = Some (WTake sem (Until abstime)) -> returns (trun1 entry newmem raw st X (WTake sem (Until abstime))) (fun '(o, st') => tkept T L S st o st').
Proof.
  intros Ef. destruct (take_part _ _ Ef) as (t & c & ret & k1 & Ht & Hp & Hi & D1 & D2 & Hpr & Ha0 & Hc & Hl & E1 & Hr & Hdel). simpl in Hl. b2p.
  unfold trun1. cbv zeta. unfold timedwait_take, clock_systimer. rewrite E1, bind_Ok. destruct (0 <? c) eqn:Ec; b2p.
  { subst ret. rewrite Z.eqb_refl, bind_Ok. apply returns_Ok. apply Hdel. }
  destruct Hr as [-> ->]. change (- EAGAIN =? OK) with false. change (took sem (- EAGAIN)) with (@nil obs) in Hdel. cbv iota.
  destruct ((tv_nsec abstime <? 0) || (1000000000 <=? tv_nsec abstime)) eqn:En; [rewrite bind_Ok; apply returns_Ok; apply Hdel|]. b2p.
  destruct (clock_abstime2ticks (base st) (g_system_timer st) CLOCK_REALTIME abstime) as [status [ticks|]] eqn:Et; [|rewrite bind_Ok; apply returns_Ok; apply Hdel].
  destruct (ticks <=? 0) eqn:E0; b2p; [rewrite bind_Ok; apply returns_Ok; apply Hdel|].
  pose proof (ti_kern _ _ _ _ _ _ _ _ _ _ _ I) as K. pose proof (gi_k _ _ _ _ _ _ _ K) as [[[R _] _] _ _ _ _].
  rewrite (tget_Ok _ _ _ _ _ _ R Ht), bind_Ok. destruct (abstime2ticks_range _ _ _ _ _ Et) as [-> Hr].
  destruct (block_part sem (Until abstime) (g_system_timer st) ticks ticks c t) as (w' & r & saved & k2 & -> & Ew & Hk); try done; try lia.
  { split; [apply (ti_now _ _ _ _ _ _ _ _ _ _ _ I)|]. unfold NSEC_PER_SEC. split_and!; try done; lia. }
  { rewrite Z.sub_diag. change (u32 0) with 0. lia. }
  rewrite bind_Ok, Ew, !bind_Ok. apply returns_Ok. exact Hk.
Qed.

Lemma wake_section newmem raw sem lim start delay :
  calls st !! X = Some (WBlocked sem lim start delay) -> returns (trun1 entry newmem raw st X (WBlocked sem lim start delay)) (fun '(o, st') => tkept T L S st o st').
Proof.
  intros Ef. destruct (ti_call _ _ _ _ _ _ _ _ _ _ _ I X _ Ef) as (t & Ht & Hp & Hi & Hop & (saved & Hpr) & Hdl & Hf & He & Hw). destruct (Hop eq_refl) as [D1 D2].
  pose proof (ti_kern _ _ _ _ _ _ _ _ _ _ _ I) as K. pose proof (ti_dogs _ _ _ _ _ _ _ _ _ _ _ I) as O. set (F := progs (tk st)) in *.
  assert (F !! X = Some [AWaitEnd sem saved]) as Ex by (unfold pr in Hpr; destruct (F !! X); [by simplify_eq/=|done]).
  destruct (exec_ok idle H T L S F (ks (tk st)) [] K (AWaitEnd sem saved) Ex eq_refl) as ([[p o] k1] & E & H1 & T1 & L1 & S1 & K1 & B1).
  unfold exec in E. apply bind_Ok_inv in E as ([ret k2] & E & [= <- <- ->]). rewrite app_nil_r in K1, B1.
  destruct (drop_kept (took sem ret) H1 T1 L1 S1 T L S F k1 F X ret K1 B1) as [K2 B2]. clear K1 B1.
  assert (ret = - pterrno t) as Hret.
  { destruct (nxsem_wait_end_spec H idle T L S (ks (tk st)) X saved (gi_k _ _ _ _ _ _ _ K) ltac:(eauto)) as ([r2 k2] & E2 & -> & _).
    rewrite E in E2. injection E2 as -> _. unfold terrno. by rewrite Ht. }
  pose proof (kern_tcbs _ _ _ _ _ K2) as E1. simpl in E1.
  assert (quiet (fun y => y <> X) T T1) as Q by (rewrite <- E1, <- st_tcbs; apply (wait_end_quiet _ _ _ _ _ _ _ E); [tauto|apply quiet_refl]).
  destruct (Q X t Ht) as (t' & Ht' & [Q1 _ _ _]). pose proof (gi_k _ _ _ _ _ _ _ K2) as [[[R2 _] _] _ _ _ _].
  cbn [ks] in R2. unfold trun1. cbv zeta. unfold prog. fold F. rewrite Ex. cbn [default from_option id]. unfold tickwait_wake, timedwait_wake.
  destruct (cancel_change pool (wds st) tl fr O (waitdog t) D1) as ([w' r] & Ew & O' & C & D3).
  assert (tkept T L S st (took sem ret) (st_after k1 (<[X := []]> F) w' (<[X := WDelete ret]> (calls st)))) as Hcancel.
  { exists H1, T1, L1, S1, (wremove (waitdog t) tl), fr. split; [|exact B2].
    apply (to_delete (WBlocked sem lim start delay) t); try done; [apply wremove_notin|apply (balance_some _ _ _ _ _ _ _ _ _ B2)]. }
  destruct lim as [st0 dl0|abstime]; rewrite E, bind_Ok, (tget_Ok _ _ _ _ _ _ R2 Ht'), bind_Ok, Q1; [|rewrite Ew, !bind_Ok; apply returns_Ok; exact Hcancel].
  destruct He as [He|[He Hn]]; rewrite He in Hret; subst ret.
  - change (- 0 <? 0) with false. cbv iota. rewrite Ew, !bind_Ok. apply returns_Ok. exact Hcancel.
  - change (- ETIMEDOUT <? 0) with true. cbv iota. rewrite bind_Ok. apply returns_Ok. exists H1, T1, L1, S1, tl, fr. split; [|exact B2].
    apply (to_delete (WBlocked sem (Ticks st0 dl0) start delay) t); try done. apply (balance_some _ _ _ _ _ _ _ _ _ B2).
Qed.

Lemma run_event newmem raw :
  tpossible idle st (TRun newmem raw) = true -> returns (tstep entry st (TRun newmem raw)) (fun '(o, st') => tkept T L S st o st').
Proof.
  intros Hp. unfold tpossible in Hp. cbv zeta in Hp. apply andb_true_iff in Hp as [_ Hn%bool_decide_eq_true_1]. unfold tstep. cbv zeta. rewrite st_cur.
  destruct (calls st !! X) as [f|] eqn:Ef.
  - destruct f as [sem lim|sem [start delay|abstime]|sem lim start delay|ret];
      [by apply create_section|by apply tick_section|by apply time_section|by apply wake_section|by apply delete_section].
  - apply returns_Ok. exists H, T, L, S, tl, fr. split; [done|apply balance_refl].
Qed.
End Step.
End TimedRun.

(** * The tick of the clock

    The tick interrupt counts the clock, charges the time slice, and calls
    [nxsem_timeout] for the watchdogs that expire; a timed wait ends with exactly
    the tick that its delay asks for. *)

Import Sq Dq.

Lemma u32_next now start n : u32 (now - start) = n -> n < 2 ^ 31 - 1 -> u32 (u32 (now + 1) - start) = n + 1.
Proof.
  unfold u32. intros <- Hn. rewrite Zminus_mod_idemp_l. replace (now + 1 - start) with (now - start + 1) by lia.
  rewrite <- Zplus_mod_idemp_l. apply Z.mod_small. pose proof (Z.mod_pos_bound (now - start) (2 ^ 32) ltac:(lia)). lia.
Qed.

Section Tick.
Context (entry idle : Z) (pool : list Z).
Hypothesis (Hpool : Z.of_nat (length pool) < 2 ^ 16 - 1).
Abbreviation sys_inv := (sys_inv idle).
Abbreviation tinv := (tinv entry idle pool).

(** A task that goes on as it was. *)
Definition steady (t t' : tcb_s) : Prop := lives t t' /\ (task_state t = WAIT -> task_state t' = WAIT).

Lemma steady_refl t : steady t t.
Proof. split; [apply lives_refl|done]. Qed.

Lemma sys_wait H T L S st x t : sys_inv H T L S st -> T !! x = Some t -> task_state t = WAIT <-> x ∈ L waiting.
Proof. intros G Ht. apply (wait_state H idle T L S (ks st) x t); [apply G|done]. Qed.

(** The tables say who has an identifier. *)
Lemma pid_owner H T L S st x z t :
  sys_inv H T L S st -> T !! x = Some t -> pid t <> 0 -> z ∈ L waiting -> pid_of T z = pid t -> z = x.
Proof.
  intros G Ht Hp Hz Ez. assert (pid_of T x = pid t) as Ex by (unfold pid_of; by rewrite Ht).
  destruct (ho_pid _ _ _ (gi_hash _ _ _ _ _ _ _ G) z) as [_ E1]; [apply (wf_in idle T L) with waiting; [apply (ki_wf H idle T L S (ks st)), G|done]|left; congruence|].
  destruct (ho_pid _ _ _ (gi_hash _ _ _ _ _ _ _ G) x) as [_ E2]; [eauto|left; congruence|]. rewrite Ez in E1. rewrite Ex in E2. congruence.
Qed.

(** The timeout of a task ends its wait, if it waits, and leaves all others alone. *)
Lemma expire_kernel H T L S k F x t :
  sys_inv H T L S (mk_kst k F) -> T !! x = Some t -> pid t <> 0 ->
  returns (nxsem_timeout k (pid t)) (fun '(_, k') => exists T' L' S', sys_inv H T' L' S' (mk_kst k' F) /\ balance [] T L S F T' L' S' F /\
    (forall y u, y <> x -> T !! y = Some u -> exists u', T' !! y = Some u' /\ steady u u') /\
    exists t', T' !! x = Some t' /\ waitdog t' = waitdog t /\ pid t' = pid t /\ task_state t' <> WAIT /\
      (pterrno t' = if decide (task_state t = WAIT) then ETIMEDOUT else pterrno t)).
Proof.
  intros G Ht Hp. pose proof (gi_k _ _ _ _ _ _ _ G) as K. simpl in K.
  assert (irq_ok k (ITimeout (pid t)) = true) as Hi by (simpl; by rewrite (proj2 (Z.eqb_neq _ _) Hp)).
  pose proof (timeout_handled idle H T L S F k G (pid t) Hi) as R1. unfold interrupt in R1.
  destruct (nxsem_timeout_spec H idle T L S k (pid t) K (gi_hash _ _ _ _ _ _ _ G) Hp) as ([sw k'] & E & Hr). rewrite E, bind_Ok in R1.
  destruct R1 as (r1 & [= <-] & T' & L' & S' & G' & B). exists (sw, k'). split; [done|]. exists T', L', S'. split; [done|]. split; [done|].
  destruct Hr as [(z & c & Hz & Ez & _ & _ & T2 & K2 & Kp & _)|(Hno & _ & ->)].
  - assert (z = x) as -> by (by apply (pid_owner H T L S (mk_kst k F) x z t)).
    assert (T2 = T') as ->. { destruct K2 as [[[R2 _] _] _ _ _ _]. destruct (gi_k _ _ _ _ _ _ _ G') as [[[R3 _] _] _ _ _ _]. rewrite <- (sr_tcbs _ _ _ _ R2). apply (sr_tcbs _ _ _ _ R3). }
    assert (forall y u, T' !! y = Some u -> task_state u = WAIT <-> y ∈ L waiting /\ y <> x) as Hst.
    { intros y u Hu. rewrite (wait_state H idle T' _ _ k' y u K2 Hu), unblock_waiting, elem_of_lrem. done. }
    split.
    + intros y u Hy Hu. destruct (keeps_lookup _ _ y u Kp) as (u' & Hu' & Eu); [unfold end_wait; by rewrite !lookup_alter_ne|].
      exists u'. split; [done|]. pose proof (f_equal waitdog Eu). pose proof (f_equal pid Eu). pose proof (f_equal pterrno Eu). simpl in *.
      pose proof (sys_wait _ _ _ _ _ _ _ G Hu) as Hwu. pose proof (Hst y u' Hu') as Hwu'. split; [split; try done|]; rewrite Hwu, Hwu'; tauto.
    + destruct (keeps_lookup _ _ x (set_pterrno (set_waitsem t 0) ETIMEDOUT) Kp) as (t' & Ht' & Et); [unfold end_wait; by rewrite !lookup_alter, !decide_True, Ht by done|].
      exists t'. pose proof (f_equal waitdog Et). pose proof (f_equal pid Et). pose proof (f_equal pterrno Et). simpl in *. split_and!; try done.
      * intros Hw. by apply (Hst x t' Ht') in Hw as [_ ?].
      * rewrite decide_True; [done|]. by apply (sys_wait _ _ _ _ _ _ _ G Ht).
  - assert (T' = T) as ->. { destruct K as [[[R2 _] _] _ _ _ _]. destruct (gi_k _ _ _ _ _ _ _ G') as [[[R3 _] _] _ _ _ _]. rewrite <- (sr_tcbs _ _ _ _ R2). symmetry. apply (sr_tcbs _ _ _ _ R3). }
    assert (task_state t <> WAIT) as Hnw by (intros Hw%(sys_wait _ _ _ _ _ _ _ G Ht); apply (Hno x Hw); unfold pid_of; by rewrite Ht).
    split; [intros y u _ Hu; exists u; split; [done|apply steady_refl]|]. exists t. by rewrite decide_False.
Qed.

(** ** The functions of the expired watchdogs *)

Section Loop.
Context (F : gmap Z (list act)) (w : wd_state) (now : Z) (C : gmap Z twait) (bt : timespec) (tl : timers) (fr : list Z).
Abbreviation tst_of k := (mk_tst (mk_kst k F) w now C bt).

Lemma tinv_expire H T L S d ds k x t T' L' S' k' t' :
  tinv H T L S tl fr (d :: ds) (tst_of k) -> d ∉ ds -> blocked_owner C T d x -> T !! x = Some t ->
  sys_inv H T' L' S' (mk_kst k' F) -> balance [] T L S F T' L' S' F ->
  (forall y u, y <> x -> T !! y = Some u -> exists u', T' !! y = Some u' /\ steady u u') ->
  T' !! x = Some t' -> waitdog t' = waitdog t -> pid t' = pid t -> task_state t' <> WAIT -> (pterrno t' = ETIMEDOUT \/ pterrno t' = pterrno t) ->
  tinv H T' L' S' tl fr ds (tst_of k').
Proof.
  intros I Hds Hb Ht K' B Ho Ht' E1 E2 E3 E4. destruct Hb as (sem & lim & start & delay & t0 & Ec & Ht0 & Ed). assert (t0 = t) as -> by congruence.
  assert (others x T T') as Ho' by (intros y u Hy Hu; destruct (Ho y u Hy Hu) as (u' & ? & ? & _); eauto).
  assert (forall e y, owner C T' e y -> owner C T e y) as Hback.
  { intros e y Hy. destruct (decide (y = x)) as [->|Hne]; [|apply (owner_back C T C T' x); try done; intros f Hf; destruct (ti_call _ _ _ _ _ _ _ _ _ _ _ I y f Hf) as (u & Hu & _); eauto].
    destruct Hy as (f & u & F1 & F2 & F3 & F4). exists f, t. split_and!; try done. congruence. }
  assert (forall e y, blocked_owner C T e y -> blocked_owner C T' e y) as Hfor.
  { intros e y Hy. destruct (decide (y = x)) as [->|Hne]; [|by apply (blocked_other C T C T' x)]. destruct Hy as (s1 & s0 & s2 & s3 & u & F1 & F3 & F4).
    exists s1, s0, s2, s3, t'. split_and!; try done. congruence. }
  assert (forall s, is_Some (sems k !! s) -> is_Some (sems k' !! s)) as HS.
  { intros s0. pose proof (tinv_sems _ _ _ _ _ _ _ _ _ _ _ I) as Es. simpl in Es. rewrite Es. assert (sems k' = S') as -> by (apply (ki_sems H idle T' L' S'), K').
    by apply (balance_some _ _ _ _ _ _ _ _ _ B). }
  split; try done; try apply I.
  - intros y f Hy. destruct (ti_call _ _ _ _ _ _ _ _ _ _ _ I y f Hy) as (u & Hu & Hp & Hi & Hop & Hc). simpl in *. destruct (decide (y = x)) as [->|Hne].
    + assert (u = t) as -> by congruence. assert (f = WBlocked sem lim start delay) as -> by congruence. exists t'. rewrite E1, E2. split_and!; try done.
      destruct Hc as (C1 & C2 & C3 & C4 & C5). simpl. rewrite E1, E2. split_and!; try done; try lia.
      * intros [Hin|Hin]; apply C3; [by left|right; by right].
      * destruct E4 as [->| ->]; [right; split; [done|]|done]. rewrite Ed. by apply (ti_due _ _ _ _ _ _ _ _ _ _ _ I d); left.
    + destruct (Ho' y u Hne Hu) as (u' & Hu' & Lv). exists u'. rewrite (lv_dog _ _ Lv), (lv_pid _ _ Lv Hp). split_and!; try done.
      assert (call_ok entry k' F w tl (d :: ds) now y f u') as Hc'.
      { apply (call_other entry k F w tl fr (d :: ds) now y f u k' F w tl fr u' 0); try done.
        intros Hf E0. destruct (Hop Hf) as [D1 _]. rewrite E0 in D1. by apply (wr_null _ _ _ (wo_rep _ _ _ _ (ti_dogs _ _ _ _ _ _ _ _ _ _ _ I))). }
      destruct f; try done. destruct Hc' as (C1 & C2 & C3 & C4 & C5). split_and!; try done; try lia.
      * intros [Hin|Hin]; apply C3; [by left|right; by right].
      * intros Hw. destruct (C5 Hw) as [[[Hin|Hin]%elem_of_cons Hq]|?]; [|by left|by right]. exfalso. apply Hne.
        apply (ti_own _ _ _ _ _ _ _ _ _ _ _ I d); [|by exists (WBlocked sem lim start delay), t]. rewrite <- Hin. eexists _, u. split; [done|]. split; [done|]. split; [done|].
        symmetry. by apply lv_dog.
  - intros e y z Hy Hz. apply (ti_own _ _ _ _ _ _ _ _ _ _ _ I e); by apply Hback.
  - intros e He. destruct (ti_all _ _ _ _ _ _ _ _ _ _ _ I e He) as [|(y & Hy)]; [by left|right]. exists y.
    destruct (decide (y = x)) as [->|Hne]; [|by apply (owner_other C T C T' x)]. destruct Hy as (f & u & F1 & F2 & F3 & F4). exists f, t'. split_and!; try done. congruence.
  - intros e He. destruct (ti_active _ _ _ _ _ _ _ _ _ _ _ I e He) as (y & Hy). eauto.
  - intros e He. destruct (ti_due _ _ _ _ _ _ _ _ _ _ _ I e ltac:(by right)) as (Hn & y & Hy). eauto.
Qed.

(** Whether the function of the watchdog of [x] is to be called. *)
Definition expires (ds : list Z) (x : Z) (t : tcb_s) : Prop := exists sem lim start delay, C !! x = Some (WBlocked sem lim start delay) /\ waitdog t ∈ ds.

(** What the timeout does to the task. *)
Definition ended (t t' : tcb_s) : Prop :=
  waitdog t' = waitdog t /\ pid t' = pid t /\ task_state t' <> WAIT /\ pterrno t' = if decide (task_state t = WAIT) then ETIMEDOUT else pterrno t.

Definition after_due (ds : list Z) (T T' : gmap Z tcb_s) : Prop :=
  forall x t, T !! x = Some t -> exists t', T' !! x = Some t' /\ (expires ds x t -> ended t t') /\ (~ expires ds x t -> steady t t').

Lemma after_due_nil T : after_due [] T T.
Proof.
  intros x t Ht. exists t. split; [done|]. split; [|intros _; apply steady_refl]. intros (? & ? & ? & ? & _ & []%not_elem_of_nil).
Qed.

Lemma steady_ended t t' t'' : pid t <> 0 -> steady t t' -> ended t' t'' -> ended t t''.
Proof.
  intros Hp [[A1 A2 A3 A4] A5] (B1 & B2 & B3 & B4). specialize (A2 Hp). split_and!; [congruence..|done|].
  rewrite B4, A3. destruct (decide (task_state t = WAIT)) as [E|E]; destruct (decide (task_state t' = WAIT)) as [E'|E']; try done; exfalso; auto.
Qed.

Lemma steady_trans t t' t'' : steady t t' -> steady t' t'' -> steady t t''.
Proof.
  intros [[A1 A2 A3 A4] A5] [[B1 B2 B3 B4] B5]. split; [|auto]. split; [congruence| |congruence|auto]. intros Hp. specialize (A2 Hp). rewrite B2; congruence.
Qed.

Lemma ended_steady t t' t'' : pid t <> 0 -> ended t t' -> steady t' t'' -> ended t t''.
Proof. intros Hp (A1 & A2 & A3 & A4) [[B1 B2 B3 B4] B5]. split_and!; [congruence|rewrite B2; congruence|auto|congruence]. Qed.

Lemma after_due_cons H T L S d ds k x t T' T'' :
  tinv H T L S tl fr (d :: ds) (tst_of k) -> d ∉ ds -> blocked_owner C T d x -> T !! x = Some t ->
  (forall y u, y <> x -> T !! y = Some u -> exists u', T' !! y = Some u' /\ steady u u') ->
  (exists t', T' !! x = Some t' /\ ended t t') -> after_due ds T' T'' -> after_due (d :: ds) T T''.
Proof.
  intros I Hds Hb Ht Ho (t' & Ht' & He) O y u Hu.
  assert (forall sem lim start delay, C !! y = Some (WBlocked sem lim start delay) -> pid u <> 0) as Hpid.
  { intros ? ? ? ? Ec. destruct (ti_call _ _ _ _ _ _ _ _ _ _ _ I y _ Ec) as (u2 & Hu2 & Hp & _). congruence. }
  destruct Hb as (sem & lim & start & delay & t0 & Ec & Ht0 & Ed). assert (t0 = t) as -> by congruence.
  destruct (decide (y = x)) as [->|Hne].
  - assert (u = t) as -> by congruence. destruct (O x t' Ht') as (t'' & Ht'' & O1 & O2). exists t''. split; [done|].
    assert (expires (d :: ds) x t) as Hx by (exists sem, lim, start, delay; split; [done|rewrite Ed; by left]). split; [intros _|done].
    apply (ended_steady t t'); [eauto|done|]. apply O2. intros (? & ? & ? & ? & _ & Hin). destruct He as (E1 & _). rewrite E1, Ed in Hin. done.
  - destruct (Ho y u Hne Hu) as (u' & Hu' & St). destruct (O y u' Hu') as (u'' & Hu'' & O1 & O2). exists u''. split; [done|].
    pose proof (lv_dog _ _ (proj1 St)) as Ew. split.
    + intros (s1 & s0 & s2 & s3 & E1 & Hin). apply (steady_ended u u'); [eauto|done|]. apply O1. exists s1, s0, s2, s3. split; [done|]. rewrite Ew.
      apply elem_of_cons in Hin as [Hin|Hin]; [|done]. destruct Hne. apply (ti_own _ _ _ _ _ _ _ _ _ _ _ I d); [by exists (WBlocked s1 s0 s2 s3), u|].
      by exists (WBlocked sem lim start delay), t.
    + intros Hn. apply (steady_trans u u'); [done|]. apply O2. intros (s1 & s0 & s2 & s3 & E1 & Hin). apply Hn. exists s1, s0, s2, s3. split; [done|].
      right. by rewrite <- Ew.
Qed.

Lemma expire_loop H ds : NoDup ds -> forall T L S k, tinv H T L S tl fr ds (tst_of k) ->
  returns (run_expired entry k (ds ≫= fire (wd_tab w))) (fun k' => exists T' L' S',
    tinv H T' L' S' tl fr [] (tst_of k') /\ balance [] T L S F T' L' S' F /\ after_due ds T T').
Proof.
  induction 1 as [|d ds Hd Hnd IH]; intros T L S k I.
  - apply returns_Ok. exists T, L, S. split; [done|]. split; [apply balance_refl|apply after_due_nil].
  - destruct (ti_due _ _ _ _ _ _ _ _ _ _ _ I d ltac:(by left)) as (_ & x & Hb). pose proof Hb as (sem & lim & start & delay & t & Ec & Ht & Ed).
    destruct (ti_call _ _ _ _ _ _ _ _ _ _ _ I x _ Ec) as (t0 & Ht0 & Hp & _ & _ & _ & _ & Hf & _). simpl in *. assert (t0 = t) as -> by congruence.
    rewrite Ed in Hf. rewrite Hf by (right; by left). cbn [app run_expired]. rewrite Z.eqb_refl. cbn [hd].
    eapply returns_bind; [by apply (expire_kernel H T L S k F x t (ti_kern _ _ _ _ _ _ _ _ _ _ _ I))|].
    intros [sw k'] (T' & L' & S' & K' & B & Ho & t' & Ht' & E1 & E2 & E3 & E4).
    eapply returns_impl; [apply IH; apply (tinv_expire H T L S d ds k x t T' L' S' k' t'); try done; case_decide; auto|].
    intros k'' (T'' & L'' & S'' & I'' & B'' & O''). exists T'', L'', S''. split; [done|]. split; [by apply (balance_trans [] [] _ _ _ _ _ _ _ _ _ _ _ _ B B'')|].
    apply (after_due_cons H T L S d ds k x t T'); try done. exists t'. by split_and!.
Qed.
End Loop.

(** ** The watchdogs and the clock *)

Lemma due_nodup tl : NoDup tl.*1 -> NoDup (due tl).*1.
Proof. intros Hn. apply (sublist_NoDup _ tl.*1 Hn). apply fmap_sublist. apply sublist_filter. Qed.

Lemma tinv_timer H T L S tl fr k w now C bt w' :
  tinv H T L S tl fr [] (mk_tst k w now C bt) -> wd_ok pool w' (later tl) fr -> same_bodies w w' ->
  tinv H T L S (later tl) fr (due tl).*1 (mk_tst k w' (clock_timer now) C bt).
Proof.
  intros I W' Sb. pose proof (ti_dogs _ _ _ _ _ _ _ _ _ _ _ I) as W. simpl in W.
  assert (dom (wd_tab w') = dom (wd_tab w)) as Ed.
  { apply set_eq. intros x. rewrite !elem_of_dom. specialize (Sb x). unfold is_Some. destruct (wd_tab w' !! x), (wd_tab w !! x); naive_solver. }
  assert (forall x, x ∈ (later tl).*1 -> x ∈ tl.*1) as Hl.
  { intros x. rewrite !list_elem_of_fmap. intros ([y r] & -> & [Hin _]%(elem_later tl)). eexists. split; [|exact Hin]. done. }
  assert (forall x, x ∈ (due tl).*1 -> x ∈ tl.*1) as Hd.
  { intros x Hx%(elem_due pool w tl fr W). apply list_elem_of_fmap. by exists (x, 1). }
  split; try done; try apply I; simpl; rewrite ?Ed; try apply I.
  - unfold clock_timer, u32. apply Z.mod_pos_bound. lia.
  - intros x f Hf. destruct (ti_call _ _ _ _ _ _ _ _ _ _ _ I x f Hf) as (t & Ht & Hp & Hi & Ho & Hc). exists t. split_and!; try done. simpl in *.
    destruct f; simpl in *; [done|destruct Hc as (? & [? ?] & Hn); split_and!; try done; intros Hx; by apply Hn, Hl| |destruct Hc as [? Hn]; split; [done|]; intros Hx; by apply Hn, Hl].
    destruct Hc as (C1 & C2 & C3 & C4 & C5). split_and!; try done; try lia.
    + rewrite (fire_body w w') by done. intros [Hx|Hx]; apply C3; left; auto.
    + destruct C4 as [?|[? ?]]; [by left|right; auto].
    + intros Hw. destruct (C5 Hw) as [[[]%not_elem_of_nil _]|(r & Hin & Er)]. pose proof (wo_pos _ _ _ _ W) as Hpos. rewrite Forall_forall in Hpos.
      specialize (Hpos _ Hin). simpl in Hpos. unfold clock_timer. rewrite (u32_next _ _ _ Er) by (unfold lasts; lia). destruct (decide (r = 1)) as [->|].
      * left. split; [by apply (elem_due pool w tl fr W)|lia].
      * right. exists (r - 1). split; [|lia]. apply elem_later. simpl. replace (r - 1 + 1) with r by lia. split; [done|lia].
  - intros d Hin. apply (ti_active _ _ _ _ _ _ _ _ _ _ _ I). auto.
  - intros d Hin. split; [|apply (ti_active _ _ _ _ _ _ _ _ _ _ _ I); auto]. intros Hla.
    apply (elem_due pool w tl fr W) in Hin. apply list_elem_of_fmap in Hla as ([y r] & -> & [Hy Hr]%(elem_later tl)). simpl in *.
    pose proof (timers_inj pool w tl fr W _ _ _ Hin Hy). lia.
Qed.

(** ** The time slice *)

Lemma slice_kernel H T L S k F :
  sys_inv H T L S (mk_kst k F) -> returns (nxsched_cpu_scheduler (sch k)) (fun '(_, s) => exists T' L' S',
    sys_inv H T' L' S' (mk_kst (set_sch k s) F) /\ balance [] T L S F T' L' S' F /\
    forall x t, T !! x = Some t -> exists t', T' !! x = Some t' /\ steady t t').
Proof.
  intros G. pose proof (tick_handled idle H T L S F k G) as R. destruct (ginv_cur _ _ _ _ _ _ _ G) as (_ & [c Hc] & _ & _).
  destruct (gi_slice _ _ _ _ _ _ _ G _ _ Hc) as [Hts Hrr].
  destruct (nxsched_cpu_scheduler_spec H idle T L (sch k) c) as ([sw s'] & E & T2 & L2 & [[R2 W2] _] & _ & _ & El); [apply G|done|intros Er; split; [auto|lia]|].
  unfold interrupt in R. rewrite E, bind_Ok in R. destruct R as (r & [= <-] & T' & L' & S' & G' & B). exists (sw, s'). split; [done|]. exists T', L', S'. split; [done|].
  split; [done|]. assert (T2 = T') as ->. { destruct (gi_k _ _ _ _ _ _ _ G') as [[[R3 _] _] _ _ _ _]. rewrite <- (sr_tcbs _ _ _ _ R2). apply (sr_tcbs _ _ _ _ R3). }
  assert (tcbs (sch k) = T) as ET by (apply (sys_tcbs idle H T L S (mk_kst k F)), G).
  pose proof (cpu_scheduler_quiet (fun _ => True) T _ _ _ E) as Q. rewrite ET, (sr_tcbs _ _ _ _ R2) in Q. specialize (Q (quiet_refl _ _)).
  intros x t Ht. destruct (Q x t Ht) as (t' & Ht' & [A1 A2 A3 A4]). exists t'. split; [done|]. split; [by split; auto|].
  rewrite (sys_wait _ _ _ _ _ _ _ G Ht), (wf_waiting idle T' L2 x t' W2 Ht'), El. by destruct (is_rr c && slice_ends c).
Qed.

(** ** The tick *)

Lemma tick_event H T L S tl fr st :
  tinv H T L S tl fr [] st ->
  returns (tstep entry st TTick) (fun '(o, st') => o = [] /\ calls st' = calls st /\ base st' = base st /\ g_system_timer st' = u32 (g_system_timer st + 1) /\
    exists T' L' S', tinv H T' L' S' (later tl) fr [] st' /\ balance [] T L S (progs (tk st)) T' L' S' (progs (tk st')) /\
      after_due (calls st) (due tl).*1 T T').
Proof.
  intros I. pose proof (ti_kern _ _ _ _ _ _ _ _ _ _ _ I) as K. destruct st as [[k F] w now C bt]. unfold tstep, nxsched_process_timer. cbn [tk ks progs wds g_system_timer calls].
  cbv zeta.
  destruct (slice_kernel H T L S k F K) as ([sw s] & -> & T1 & L1 & S1 & K1 & B1 & Q1). rewrite bind_Ok.
  assert (tinv H T1 L1 S1 tl fr [] (mk_tst (mk_kst (set_sch k s) F) w now C bt)) as I1.
  { apply (tinv_kernel entry idle pool H T L S tl fr (mk_tst (mk_kst k F) w now C bt) H T1 L1 S1 _ idle); try done.
    - intros y t _ Ht. destruct (Q1 y t Ht) as (t' & ? & ? & _). eauto.
    - destruct (C !! idle) as [f|] eqn:Ef; [|done]. by destruct (ti_call _ _ _ _ _ _ _ _ _ _ _ I idle f Ef) as (? & _ & _ & ? & _).
    - by apply (balance_some _ _ _ _ _ _ _ _ _ B1). }
  pose proof (ti_dogs _ _ _ _ _ _ _ _ _ _ _ I) as W. destruct (timer_change pool w tl fr W) as ([w' log] & Ew & -> & W' & Sb). cbn [wds] in Ew. rewrite Ew, bind_Ok.
  assert ((due tl).*1 ≫= fire (wd_tab w) = (due tl).*1 ≫= fire (wd_tab w')) as -> by (apply list_bind_ext; [intros y; symmetry; by apply fire_body|done]).
  pose proof (tinv_timer H T1 L1 S1 tl fr _ w now C bt w' I1 W' Sb) as I2.
  assert (NoDup (due tl).*1) as Hnd by (apply due_nodup; apply (sqr_nodup _ _ _ (wr_active _ _ _ (wo_rep _ _ _ _ W)))).
  destruct (expire_loop F w' (clock_timer now) C bt (later tl) fr H _ Hnd T1 L1 S1 _ I2) as (k' & -> & T' & L' & S' & I' & B' & O'). rewrite !bind_Ok.
  apply returns_Ok. split_and!; try done. exists T', L', S'. split; [done|]. split; [by apply (balance_trans [] [] _ _ _ _ _ _ _ _ _ _ _ _ B1 B')|].
  intros x t Ht. destruct (Q1 x t Ht) as (t1 & Ht1 & St). destruct (O' x t1 Ht1) as (t' & Ht' & O1 & O2). exists t'. split; [done|].
  pose proof (lv_dog _ _ (proj1 St)) as Ed. unfold expires in *. rewrite Ed in O1, O2. split.
  - intros Hx. apply (steady_ended t t1); auto. destruct Hx as (? & ? & ? & ? & Ec & _). destruct (ti_call _ _ _ _ _ _ _ _ _ _ _ I x _ Ec) as (t0 & Ht0 & Hp & _). congruence.
  - intros Hx. apply (steady_trans t t1); auto.
Qed.
End Tick.
