(* ===== verification/TimedProps.v ===== *)
(** * Properties of timed waits

    Runs of the system with timed waits from start-up on: scheduling and semaphores
    keep their promises, a wait ends with the tick that its delay or its deadline
    asks for and not before, and no watchdog is lost. *)

From stdpp Require Import functions.
From S2P Require Import Prelude Bits Links Queue Wdog WdogRep WdogTime WdogProps.
From S2P Require Import Sched SchedRep SchedInv SchedOps SchedCalls SchedPrio.
From S2P Require Import Sem SemOps Task TaskOps Kern KernInv KernActs KernRun KernProps KernQuiet.
From S2P Require Import Clock ClockProps.
From S2P Require Import Timed TimedDogs TimedInv TimedRun.
Import Sq Dq.
Local Open Scope Z_scope.

(** The addresses of the watchdogs of the pool. *)
Abbreviation wd_pool := (WdogProps.pool CONFIG_PREALLOC_WDOGS).

(** The watchdogs at start-up: those of the pool, all zero. *)
Record fresh_dogs (g_wdpool size : Z) (w : wd_state) : Prop := {
  fd_pool : 0 < g_wdpool;
  fd_size : 0 < size;
  fd_dom : dom (wd_next w) = dom (wd_tab w);
  fd_all x : x ∈ dom (wd_tab w) <-> x ∈ wd_pool size g_wdpool;
  fd_flags x d : wd_tab w !! x = Some d -> Wdog.flags d = 0
}.

Lemma pool_length size n : forall g, length (WdogProps.pool n size g) = n.
Proof. induction n as [|n IH]; intros g; simpl; [done|]. by rewrite IH. Qed.

Lemma pool_nodup size n : 0 < size -> forall g, NoDup (WdogProps.pool n size g).
Proof.
  intros Hs. induction n as [|n IH]; intros g; simpl; [constructor|]. constructor; [|done]. intros Hx. apply pool_ge in Hx; lia.
Qed.

(** ** Runs *)

Section Runs.
Context (entry idle : Z) (pl : list Z).
Hypothesis (Hpool : Z.of_nat (length pl) < 2 ^ 16 - 1).

Lemma tstep_kept H T L S tl fr st e :
  tinv entry idle pl H T L S tl fr [] st -> tpossible idle st e = true ->
  returns (tstep entry st e) (fun '(o, st') => tkept entry idle pl T L S st o st').
Proof.
  intros I Hp. destruct e as [e|sem start delay|newmem raw|].
  - by apply (kern_event entry idle pl H T L S tl fr st I).
  - by apply (call_event entry idle pl H T L S tl fr st I).
  - by apply (run_event entry idle pl Hpool H T L S tl fr st I).
  - eapply returns_impl; [by apply (tick_event entry idle pl H T L S tl fr st)|].
    intros [o st'] (-> & _ & _ & _ & T' & L' & S' & I' & B & _). by exists H, T', L', S', (later tl), fr.
Qed.

Lemma tstep_base st e o st' : tstep entry st e = Ok (o, st') -> base st' = base st.
Proof.
  unfold tstep. destruct e as [e|sem lim|newmem raw|]; cbv zeta; intros E.
  - by apply bind_Ok_inv in E as ([? ?] & _ & [= _ <-]).
  - by injection E as _ <-.
  - destruct (calls st !! _) as [f|]; [|by injection E as _ <-]. unfold trun1 in E. cbv zeta in E. destruct f as [sem lim|sem lim|sem lim start delay|ret].
    + by apply bind_Ok_inv in E as ([[[? ?] ?] ?] & _ & [= _ <-]).
    + by apply bind_Ok_inv in E as ([[[[? ?] ?] ?] ?] & _ & [= _ <-]).
    + destruct (prog _ _) as [|[] ?]; try by injection E as _ <-. by apply bind_Ok_inv in E as ([[[? ?] ?] ?] & _ & [= _ <-]).
    + by apply bind_Ok_inv in E as ([[? ?] ?] & _ & [= _ <-]).
  - by apply bind_Ok_inv in E as ([[? ?] ?] & _ & [= _ <-]).
Qed.

Lemma trun_base es : forall st o st', trun entry idle st es = Ok (o, st') -> base st' = base st.
Proof.
  induction es as [|e es IH]; intros st o st' E; cbn [trun] in E; [by injection E as _ <-|]. destruct (tpossible idle st e); [|by apply (IH _ o)].
  apply bind_Ok_inv in E as ([o1 st1] & E1 & E). apply bind_Ok_inv in E as ([o2 st2] & E2 & [= _ <-]). rewrite (IH _ _ _ E2). by apply (tstep_base _ e o1).
Qed.

Lemma trun_kept es : forall H T L S tl fr st, tinv entry idle pl H T L S tl fr [] st ->
  returns (trun entry idle st es) (fun '(o, st') => tkept entry idle pl T L S st o st').
Proof.
  induction es as [|e es IH]; intros H T L S tl fr st I; simpl.
  - apply returns_Ok. exists H, T, L, S, tl, fr. split; [done|apply balance_refl].
  - destruct (tpossible idle st e) eqn:Hp; [|by apply (IH H T L S tl fr)].
    destruct (tstep_kept _ _ _ _ _ _ _ _ I Hp) as ([o st1] & -> & H1 & T1 & L1 & S1 & tl1 & fr1 & I1 & B1). rewrite bind_Ok.
    destruct (IH _ _ _ _ _ _ _ I1) as ([os st2] & -> & H2 & T2 & L2 & S2 & tl2 & fr2 & I2 & B2). rewrite bind_Ok.
    apply returns_Ok. exists H2, T2, L2, S2, tl2, fr2. split; [done|]. by apply (balance_trans _ _ _ _ _ _ T1 L1 S1 (progs (tk st1))).
Qed.
End Runs.

(** ** Start-up *)

Section Start.
Context (k : ksys) (w : wd_state) (entry idle g_wdpool size now : Z) (bt : timespec).
Hypothesis (Fr : fresh idle k) (Fd : fresh_dogs g_wdpool size w) (Hnow : 0 <= now < 2 ^ 32).
Abbreviation PL := (wd_pool size g_wdpool).

Lemma start_dogs : returns (wd_initialize g_wdpool size w) (fun w' => wd_ok PL w' [] PL /\ wd_tab w' = wd_tab w).
Proof.
  destruct Fd as [D1 D2 D3 D4 D5]. destruct (init_spec g_wdpool size w D1 D2 D3) as (w' & E & Et & R).
  - rewrite D4. intros Hx. apply pool_ge in Hx; lia.
  - intros x Hx. apply elem_of_dom. rewrite D3. by apply D4.
  - intros x d Hd. left. by apply (D5 x).
  - exists w'. split; [done|]. split; [|done]. split; try done.
    + intros x d Hd. rewrite Et in Hd. unfold WDOG_ISSTATIC, WDOG_ISALLOCED. rewrite (D5 x d Hd). split; [done|]. split; [|done]. intros _. apply D4, elem_of_dom. eauto.
    + intros x Hx. rewrite Et. by apply D4.
Qed.

Lemma timed_inv es :
  returns (timed_system k w entry idle g_wdpool size now bt es) (fun '(o, st) => exists H T L S tl fr, tinv entry idle PL H T L S tl fr [] st /\ base st = bt /\
    forall sem c, sems k !! sem = Some c -> exists c', S !! sem = Some c' /\ c' + pend T L (progs (tk st)) sem + takes sem o = c + posts sem o).
Proof.
  unfold timed_system, timed_start. destruct (nx_start_inv idle k Fr) as (k' & -> & G0). destruct start_dogs as (w' & -> & W & Et). rewrite !bind_Ok.
  assert (tinv entry idle PL (boot_hash idle) (boot_tcbs idle k) (boot_lists idle) (sems k) [] PL [] (mk_tst (mk_kst k' ∅) w' now ∅ bt)) as I.
  { split; try done; simpl.
    - intros d x y (f & t & E & _). by rewrite lookup_empty in E.
    - intros d Hd. left. rewrite Et in Hd. by apply (fd_all _ _ _ Fd).
    - intros d []%not_elem_of_nil.
    - intros d []%not_elem_of_nil. }
  assert (Z.of_nat (length PL) < 2 ^ 16 - 1) as Hl by (rewrite pool_length; by vm_compute).
  destruct (trun_kept entry idle PL Hl es _ _ _ _ _ _ _ I) as ([o st] & E & H & T & L & S & tl & fr & I' & B). exists (o, st). split; [done|].
  exists H, T, L, S, tl, fr. split; [done|]. split; [exact (trun_base _ _ _ _ _ _ E)|]. clear E. intros sem c E. destruct (B sem c E) as (c' & E' & Q). exists c'. split; [done|]. simpl in Q. rewrite boot_pend in Q. lia.
Qed.

(** A state that a run leads to. *)
Lemma timed_reached es o st :
  timed_system k w entry idle g_wdpool size now bt es = Ok (o, st) -> exists H L S tl fr, tinv entry idle PL H (tcbs (sch (ks (tk st)))) L S tl fr [] st /\ base st = bt.
Proof.
  intros E. destruct (timed_inv es) as ([o' st'] & E' & H & T & L & S & tl & fr & I & Eb & _). rewrite E in E'. injection E' as <- <-.
  exists H, L, S, tl, fr. by rewrite (tinv_tcbs _ _ _ _ _ _ _ _ _ _ _ I).
Qed.
End Start.

(** ** Scheduling and semaphores *)

Lemma tpromised_trun entry idle es : forall st, tpromised entry idle st es = true -> trun entry idle st es = tsteps entry st es.
Proof.
  induction es as [|e es IH]; intros st; simpl; [done|]. intros [He Hs]%andb_true_iff. rewrite He.
  destruct (tstep entry st e) as [[o st1]|]; [|done]. by rewrite !bind_Ok, IH.
Qed.

(** C1: With timed waits too, for every sequence of calls, interrupts and ticks that
    keeps the callers' promises, every operation returns; afterwards the running task
    has the highest priority of all ready tasks, and the units of every semaphore are
    all accounted for, although timeouts give back what they were waiting for.  The
    promises, [timed_promise], are checked in the state that each event finds: those
    of the system without timeouts (semaphores are NULL or initialised and are not
    posted at SEM_VALUE_MAX, the lock is nested less than 32767 times, a ready task
    that does not run is only given a priority above that of the running task, tasks
    are created in zeroed control blocks with a priority in range, the idle task does
    not wait), delays are less than 2^31 - 1 ticks, and memory that kmm_malloc returns
    is not in use.  Tasks are not deleted. *)
Theorem timed_waits_safe (k : ksys) (w : wd_state) (entry idle g_wdpool size now : Z) (bt : timespec) (es : list tevent) :
  fresh idle k -> fresh_dogs g_wdpool size w -> 0 <= now < 2 ^ 32 ->
  timed_promise k w entry idle g_wdpool size now bt es = true ->
  exists o st, timed_kernel k w entry idle g_wdpool size now bt es = Ok (o, st) /\ runs_highest (sch (ks (tk st))) /\
    forall sem c0, sems k !! sem = Some c0 -> exists c, sems (ks (tk st)) !! sem = Some c /\
      takes sem o + granted (tk st) sem + Z.max 0 c = c0 + posts sem o /\ waiting_for (tk st) sem = Z.max 0 (- c).
Proof.
  intros Fr Fd Hn Hp. destruct (timed_inv k w entry idle g_wdpool size now bt Fr Fd Hn es) as ([o st] & E & H & T & L & S & tl & fr & I & _ & B).
  assert (timed_kernel k w entry idle g_wdpool size now bt es = Ok (o, st)) as Ek.
  { unfold timed_promise, timed_system, timed_kernel in *. destruct (timed_start _ _ _ _ _ _ _) as [st0|]; [|done]. rewrite !bind_Ok in *. by rewrite <- tpromised_trun with (idle := idle). }
  exists o, st. pose proof (ti_kern _ _ _ _ _ _ _ _ _ _ _ I) as G. split; [exact Ek|]. split; [by apply (sys_highest idle H T L S)|].
  intros sem c0 E0. destruct (B sem c0 E0) as (c & Ec & Q). exists c. split; [by rewrite (ki_sems _ _ _ _ _ _ (gi_k _ _ _ _ _ _ _ G))|].
  pose proof (sys_waiting idle H T L S (tk st) G sem c Ec) as Hw. pose proof (sys_pend idle H T L S (tk st) G sem) as Hq. lia.
Qed.

(** ** The length of a wait *)

(** The task [x] is in a timed wait, and at the time [now] the ticks since its start
    are more than its delay. *)
Definition overdue (C : gmap Z twait) (now x : Z) : bool :=
  match C !! x with Some (WBlocked _ _ start delay) => lasts delay <=? u32 (now - start) | _ => false end.

(** What a tick does to the tasks that wait. *)
Definition tick_ends (entry : Z) (st st' : tst) : Prop :=
  tstep entry st TTick = Ok ([], st') /\ calls st' = calls st /\ g_system_timer st' = u32 (g_system_timer st + 1) /\
  forall x t, tcbs (sch (ks (tk st))) !! x = Some t -> task_state t = TSTATE_WAIT_SEM ->
    overdue (calls st) (g_system_timer st) x = false /\
    exists t', tcbs (sch (ks (tk st'))) !! x = Some t' /\
      if overdue (calls st) (g_system_timer st') x then task_state t' <> TSTATE_WAIT_SEM /\ pterrno t' = ETIMEDOUT
      else task_state t' = TSTATE_WAIT_SEM /\ pterrno t' = pterrno t.

Section Ticks.
Context (entry idle : Z) (pl : list Z) (H : list (Z * Z)) (L : tasklist -> list Z) (S : gmap Z Z) (tl : timers) (fr : list Z) (st : tst).
Hypothesis (I : tinv entry idle pl H (tcbs (sch (ks (tk st)))) L S tl fr [] st).

(** The watchdog of a task that waits. *)
Lemma waiting_dog x t sem lim start delay :
  tcbs (sch (ks (tk st))) !! x = Some t -> task_state t = WAIT -> calls st !! x = Some (WBlocked sem lim start delay) ->
  exists r, (waitdog t, r) ∈ tl /\ 1 <= r /\ u32 (g_system_timer st - start) = lasts delay - r /\ 0 < delay < 2 ^ 31.
Proof.
  intros Ht Hw Ex. destruct (ti_call _ _ _ _ _ _ _ _ _ _ _ I x _ Ex) as (t0 & Ht0 & _ & _ & _ & _ & Hd & _ & _ & C5). assert (t0 = t) as -> by congruence.
  destruct (C5 Hw) as [[[]%not_elem_of_nil _]|(r & Hin & Er)]. exists r. pose proof (wo_pos _ _ _ _ (ti_dogs _ _ _ _ _ _ _ _ _ _ _ I)) as Hp.
  rewrite Forall_forall in Hp. by specialize (Hp _ Hin).
Qed.

Lemma overdue_expires x t : tcbs (sch (ks (tk st))) !! x = Some t -> task_state t = WAIT ->
  overdue (calls st) (g_system_timer st) x = false /\
  (overdue (calls st) (u32 (g_system_timer st + 1)) x = true <-> expires (calls st) (due tl).*1 x t).
Proof.
  intros Ht Hw. pose proof (ti_dogs _ _ _ _ _ _ _ _ _ _ _ I) as W. unfold overdue, expires.
  destruct (calls st !! x) as [[| |sem lim start delay|]|] eqn:Ex; try (split; [done|]; split; [done|]; intros (? & ? & ? & ? & ? & _); congruence).
  destruct (waiting_dog x t _ _ _ _ Ht Hw Ex) as (r & Hin & Hr & Er & Hd). split; [lia|]. rewrite Z.leb_le, (u32_next _ _ _ Er) by (unfold lasts; lia). split.
  - intros Hb. exists sem, lim, start, delay. split; [done|]. apply (elem_due _ _ _ _ W). by replace 1 with r by lia.
  - intros (_ & _ & _ & _ & _ & Hdue%(elem_due _ _ _ _ W)). pose proof (timers_inj _ _ _ _ W _ _ _ Hin Hdue). lia.
Qed.

Lemma tick_ends_waits : exists st', tick_ends entry st st'.
Proof.
  destruct (tick_event entry idle _ H _ L S tl fr st I) as ([o' st'] & E' & -> & Ec & _ & En & T' & L' & S' & I' & _ & O).
  exists st'. do 3 (split; [done|]). intros x t Ht Hw. destruct (O x t Ht) as (t' & Ht' & O1 & O2). destruct (overdue_expires x t Ht Hw) as [H0 He]. split; [done|].
  rewrite (tinv_tcbs _ _ _ _ _ _ _ _ _ _ _ I'), En. exists t'. split; [done|]. destruct (overdue (calls st) (u32 (g_system_timer st + 1)) x).
  - destruct (O1 (proj1 He eq_refl)) as (_ & _ & A3 & A4). by rewrite decide_True in A4 by done.
  - destruct O2 as [Lv Hk]; [by intros Hx%He|]. split; [auto|apply Lv].
Qed.
End Ticks.

(** C3: A timed wait ends with the tick that its delay asks for, and with no other:
    as long as a task waits, not more ticks than its delay have passed since its
    start; and a tick ends the waits whose delay is then exceeded, with the error
    ETIMEDOUT, and no other wait, timed or not. *)
Theorem timeout_on_time (k : ksys) (w : wd_state) (entry idle g_wdpool size now : Z) (bt : timespec) (es : list tevent) (o : list obs) (st : tst) :
  fresh idle k -> fresh_dogs g_wdpool size w -> 0 <= now < 2 ^ 32 -> timed_system k w entry idle g_wdpool size now bt es = Ok (o, st) ->
  exists st', tstep entry st TTick = Ok ([], st') /\ calls st' = calls st /\ g_system_timer st' = u32 (g_system_timer st + 1) /\
  forall x t, tcbs (sch (ks (tk st))) !! x = Some t -> task_state t = TSTATE_WAIT_SEM ->
    overdue (calls st) (g_system_timer st) x = false /\
    exists t', tcbs (sch (ks (tk st'))) !! x = Some t' /\
      if overdue (calls st) (g_system_timer st') x then task_state t' <> TSTATE_WAIT_SEM /\ pterrno t' = ETIMEDOUT
      else task_state t' = TSTATE_WAIT_SEM /\ pterrno t' = pterrno t.
Proof.
  intros Fr Fd Hn E. destruct (timed_reached k w entry idle g_wdpool size now bt Fr Fd Hn es o st E) as (H & L & S & tl & fr & I & _).
  exact (tick_ends_waits _ _ _ _ _ _ _ _ _ I).
Qed.

(** C16: A wait until a time of day ends when that time has come, and less than two
    ticks after it: while the task waits the time is less than a tick past the
    deadline, and when a tick ends the wait the deadline has passed.  This holds for
    deadlines up to 2^31 - 1 ticks ahead of the start of the wait, when neither the
    32-bit counter of the ticks nor the 32-bit seconds of the time of day wrap around
    during the wait. *)
Theorem timedwait_deadline (k : ksys) (w : wd_state) (entry idle g_wdpool size now : Z) (bt : timespec) (es : list tevent) (o : list obs) (st : tst)
    (x sem start delay : Z) (t : tcb_s) (abstime t0 : timespec) :
  fresh idle k -> fresh_dogs g_wdpool size w -> 0 <= now < 2 ^ 32 -> valid_ts bt = true -> timed_system k w entry idle g_wdpool size now bt es = Ok (o, st) ->
  tcbs (sch (ks (tk st))) !! x = Some t -> task_state t = TSTATE_WAIT_SEM -> calls st !! x = Some (WBlocked sem (Until abstime) start delay) ->
  clock_gettime bt start CLOCK_REALTIME = (OK, None, Some t0) -> nsecs abstime <= nsecs t0 + (2 ^ 31 - 1) * NSEC_PER_TICK ->
  start + delay + 1 < 2 ^ 32 -> nsecs bt + (start + delay + 1) * NSEC_PER_TICK < 2 ^ 32 * NSEC_PER_SEC ->
  exists st' t' t1, tstep entry st TTick = Ok ([], st') /\ tcbs (sch (ks (tk st'))) !! x = Some t' /\
    clock_gettime bt (g_system_timer st') CLOCK_REALTIME = (OK, None, Some t1) /\ nsecs t1 < nsecs abstime + 2 * NSEC_PER_TICK /\
    if bool_decide (task_state t' = TSTATE_WAIT_SEM) then nsecs t1 < nsecs abstime + NSEC_PER_TICK else nsecs abstime <= nsecs t1.
Proof.
  intros Fr Fd Hn Hv E Ht Hw Ex Et Hd Hs Hb. destruct (timed_reached k w entry idle g_wdpool size now bt Fr Fd Hn es o st E) as (H & L & S & tl & fr & I & Eb).
  destruct (tick_ends_waits _ _ _ _ _ _ _ _ _ I) as (st' & E' & Ec & En & Hx). destruct (Hx x t Ht Hw) as (_ & t' & Ht' & Hr).
  destruct (waiting_dog _ _ _ _ _ _ _ _ _ I x t _ _ _ _ Ht Hw Ex) as (r & _ & H1 & Er & Hdl).
  destruct (ti_limit _ _ _ _ _ _ _ _ _ _ _ I x _ _ _ _ Ex) as (L1 & L2 & L3 & L4). rewrite Eb in L4. pose proof (ti_now _ _ _ _ _ _ _ _ _ _ _ I) as Hnow.
  pose proof (u32_next _ _ _ Er ltac:(unfold lasts; lia)) as Er'. rewrite <- En in Er'. unfold overdue in Hr. rewrite Ex in Hr.
  assert (0 <= g_system_timer st' < 2 ^ 32) as Hnow' by (rewrite En; apply u32_range).
  assert (g_system_timer st' = start + (lasts delay - r + 1)) as Eg.
  { unfold u32 in Er'. pose proof (Z.div_mod (g_system_timer st' - start) (2 ^ 32) ltac:(lia)).
    pose proof (Z.mod_pos_bound (g_system_timer st' - start) (2 ^ 32) ltac:(lia)). unfold lasts in *. lia. }
  destruct (gettime_Ok bt start Hv L1) as (t0' & Et' & Hv0 & N0). rewrite Et in Et'. injection Et' as <-.
  destruct (gettime_Ok bt (g_system_timer st') Hv Hnow') as (t1 & Et1 & _ & N1).
  assert (lasts delay <= delay + 1) as Hla by (unfold lasts; lia).
  assert (0 <= nsecs bt) by (apply valid_ts_iff in Hv; unfold nsecs; ns; lia). rewrite Z.mod_small in N0, N1 by (ns; lia).
  assert (valid_ts abstime = true) as Hva by (apply valid_ts_iff; unfold NSEC_PER_SEC in L2; done).
  rewrite (abstime2ticks_Ok bt start abstime t0 Et Hv0 Hva) in L4. injection L4 as L4.
  destruct (nsecs abstime <? nsecs t0) eqn:Ep; b2p; [lia|]. ns. rewrite s32_small in L4 by modlia.
  exists st', t', t1. do 3 (split; [done|]). rewrite Er' in Hr. replace (nsecs t1) with (nsecs t0 + (lasts delay - r + 1) * 1000000) by lia.
  assert ((delay - 1) * 1000000 < nsecs abstime - nsecs t0 <= delay * 1000000) as Hdd by modlia. unfold lasts in *. split; [lia|].
  destruct (_ <=? _) eqn:Eo in Hr; b2p; [rewrite bool_decide_eq_false_2 by apply Hr|rewrite bool_decide_eq_true_2 by apply Hr]; lia.
Qed.

(** ** The watchdogs *)

(** C11: No watchdog is lost: when no call that waits with a timeout is in progress no
    timer runs, every watchdog of the pool is in the free list once, and all memory
    that came from the heap has been freed. *)
Theorem watchdogs_returned (k : ksys) (w : wd_state) (entry idle g_wdpool size now : Z) (bt : timespec) (es : list tevent) (o : list obs) (st : tst) :
  fresh idle k -> fresh_dogs g_wdpool size w -> 0 <= now < 2 ^ 32 -> timed_system k w entry idle g_wdpool size now bt es = Ok (o, st) -> calls st = ∅ ->
  exists fr, wd_rep (wds st) [] fr /\ fr ≡ₚ wd_pool size g_wdpool /\ forall x, x ∈ dom (wd_tab (wds st)) <-> x ∈ fr.
Proof.
  intros Fr Fd Hn E E0. destruct (timed_reached k w entry idle g_wdpool size now bt Fr Fd Hn es o st E) as (H & L & S & tl & fr & I & _).
  pose proof (ti_dogs _ _ _ _ _ _ _ _ _ _ _ I) as W. pose proof (wo_rep _ _ _ _ W) as R. exists fr.
  assert (tl = []) as ->.
  { destruct tl as [|[d r] tl]; [done|]. destruct (ti_active _ _ _ _ _ _ _ _ _ _ _ I d ltac:(by left)) as (x & ? & ? & ? & ? & ? & Ec & _). by rewrite E0, lookup_empty in Ec. }
  assert (forall x, x ∈ dom (wd_tab (wds st)) <-> x ∈ fr) as Hd.
  { intros x. split; [|by apply (free_dom _ _ _ _ R)]. intros Hx. destruct (ti_all _ _ _ _ _ _ _ _ _ _ _ I x Hx) as [|(y & f & t & Ec & _)]; [done|].
    by rewrite E0, lookup_empty in Ec. }
  split; [done|]. split; [|done]. apply NoDup_Permutation; [apply (sqr_nodup _ _ _ (wr_free _ _ _ R))|by apply pool_nodup, Fd|].
  intros x. split; [apply (wo_free _ _ _ _ W)|]. intros Hx. by apply Hd, (wo_pool _ _ _ _ W).
Qed.

(** ** A run *)

Lemma demo_wd_fresh : fresh_dogs 1000 28 demo_wd.
Proof.
  destruct demo_wd_pre as (H1 & _ & H3 & _). split; try done.
  - intros x. split.
    + intros [d Ed]%elem_of_dom. by apply elem_of_list_to_map_2, list_elem_of_fmap in Ed as (y & [= -> _] & Hy).
    + intros Hx%H3. rewrite <- H1. by apply elem_of_dom.
  - intros x d Ed. by apply elem_of_list_to_map_2, list_elem_of_fmap in Ed as (y & [= _ ->] & _).
Qed.

(** The only unit is taken; a task then waits for another one for three ticks, from
    a start shortly before the clock wraps around. *)
Definition demo_timed : list tevent :=
  map TKern ([Call (CCreate demo_a 100 0)] ++ runs 8 ++ [Call (CWait demo_sem)] ++ runs 2) ++
  [TCall demo_sem (Ticks (2 ^ 32 - 2) 3)] ++ repeat (TRun 0 (Wdog 0 0 0 0 [])) 2 ++ repeat TTick 3.

(** The wait times out, and the call returns. *)
Definition demo_timed_end : list tevent := demo_timed ++ [TTick] ++ repeat (TRun 0 (Wdog 0 0 0 0 [])) 2.

Abbreviation demo_timed_run es := (timed_system demo_sys demo_wd 4096 demo_idle 1000 28 (2 ^ 32 - 2) (mk_ts 0 0) es).

Lemma timed_waits_safe_witness :
  exists o st, timed_kernel demo_sys demo_wd 4096 demo_idle 1000 28 (2 ^ 32 - 2) (mk_ts 0 0) demo_timed_end = Ok (o, st) /\ runs_highest (sch (ks (tk st))) /\
    exists c, sems (ks (tk st)) !! demo_sem = Some c /\ takes demo_sem o + granted (tk st) demo_sem + Z.max 0 c = 1 + posts demo_sem o.
Proof.
  destruct (timed_waits_safe demo_sys demo_wd 4096 demo_idle 1000 28 (2 ^ 32 - 2) (mk_ts 0 0) demo_timed_end demo_sys_fresh demo_wd_fresh ltac:(lia) ltac:(vm_compute; reflexivity)) as (o & st & E & Hr & Hu).
  exists o, st. split; [exact E|]. split; [exact Hr|]. destruct (Hu demo_sem 1 eq_refl) as (c & Ec & Q & _). exists c. split; [exact Ec|exact Q].
Defined.

Lemma timeout_on_time_witness :
  exists o st st' t', demo_timed_run demo_timed = Ok (o, st) /\ tstep 4096 st TTick = Ok ([], st') /\
    overdue (calls st) (g_system_timer st) demo_a = false /\
    tcbs (sch (ks (tk st'))) !! demo_a = Some t' /\ task_state t' <> TSTATE_WAIT_SEM /\ pterrno t' = ETIMEDOUT.
Proof.
  destruct (demo_timed_run demo_timed) as [[o st]|] eqn:E; [|exfalso; vm_compute in E; discriminate].
  destruct (timeout_on_time demo_sys demo_wd 4096 demo_idle 1000 28 (2 ^ 32 - 2) (mk_ts 0 0) demo_timed o st demo_sys_fresh demo_wd_fresh ltac:(lia) E) as (st' & E' & Ec & En & Hw).
  vm_compute in E. injection E as <- <-. destruct (Hw demo_a _ eq_refl eq_refl) as (Hb & t' & Ht' & Hr).
  eexists _, _, st', t'. split; [reflexivity|]. split; [exact E'|]. split; [exact Hb|]. split; [exact Ht'|].
  rewrite En in Hr. exact Hr.
Defined.

(** The task waits until 2.5 milliseconds after the second; three ticks have passed. *)
Definition demo_deadline : list tevent :=
  map TKern ([Call (CCreate demo_a 100 0)] ++ runs 8 ++ [Call (CWait demo_sem)] ++ runs 2) ++
  [TCall demo_sem (Until (mk_ts 1000000000 2500000))] ++ repeat (TRun 0 (Wdog 0 0 0 0 [])) 2 ++ repeat TTick 3.

Lemma timedwait_deadline_witness :
  exists o st st' t' t1, timed_system demo_sys demo_wd 4096 demo_idle 1000 28 0 (mk_ts 1000000000 0) demo_deadline = Ok (o, st) /\
    tstep 4096 st TTick = Ok ([], st') /\ tcbs (sch (ks (tk st'))) !! demo_a = Some t' /\
    clock_gettime (mk_ts 1000000000 0) (g_system_timer st') CLOCK_REALTIME = (OK, None, Some t1) /\
    nsecs t1 < nsecs (mk_ts 1000000000 2500000) + 2 * NSEC_PER_TICK.
Proof.
  destruct (timed_system demo_sys demo_wd 4096 demo_idle 1000 28 0 (mk_ts 1000000000 0) demo_deadline) as [[o st]|] eqn:E; [|exfalso; vm_compute in E; discriminate].
  pose proof (timedwait_deadline demo_sys demo_wd 4096 demo_idle 1000 28 0 (mk_ts 1000000000 0) demo_deadline o st demo_a) as P.
  specialize (fun a b c d e f => P a b c d e f demo_sys_fresh demo_wd_fresh ltac:(lia) eq_refl E). vm_compute in E. injection E as <- <-.
  destruct (P _ _ _ _ _ _ eq_refl eq_refl eq_refl eq_refl) as (st' & t' & t1 & E1 & E2 & E3 & E4 & _); [vm_compute; first [reflexivity|discriminate]..|].
  eexists _, _, st', t', t1. split; [reflexivity|]. split; [exact E1|]. split; [exact E2|]. split; [exact E3|exact E4].
Defined.

Lemma watchdogs_returned_witness :
  exists o st fr, demo_timed_run demo_timed_end = Ok (o, st) /\ last o = Some (OReturn demo_a (- ETIMEDOUT)) /\
    wd_rep (wds st) [] fr /\ fr ≡ₚ wd_pool 28 1000.
Proof.
  destruct (demo_timed_run demo_timed_end) as [[o st]|] eqn:E; [|exfalso; vm_compute in E; discriminate].
  destruct (watchdogs_returned demo_sys demo_wd 4096 demo_idle 1000 28 (2 ^ 32 - 2) (mk_ts 0 0) demo_timed_end o st demo_sys_fresh demo_wd_fresh ltac:(lia) E) as (fr & R & P & _).
  - vm_compute in E. injection E as _ <-. vm_compute. reflexivity.
  - vm_compute in E. injection E as <- <-. eexists _, _, fr. split; [reflexivity|]. split; [reflexivity|]. split; [exact R|exact P].
Defined.
