(* ===== verification/WorkQ.v ===== *)
(** * Work queues (src/nuttx/sched/wqueue)

    Work structures are queued for a worker thread, with a delay in ticks; the thread
    performs those whose delay has elapsed and sleeps until the next one is due.  There
    is one thread per queue, as configured.  The code runs with interrupts disabled
    except while a worker function runs and while a thread sleeps or is about to call
    [work_process], and between the two halves of [work_queue]: these are the points
    between the steps of the system. *)

From S2P Require Import Prelude Bits Links Queue Clock.
Import Dq.
Local Open Scope Z_scope.

Definition HPWORK : Z := 0.
Definition LPWORK : Z := HPWORK + 1.
Definition WORK_DELAY_MAX : Z := 2 ^ 32 - 1.

Record work_s := mk_work { worker : Z; arg : Z; qtime : Z; delay : Z }.

Record kworker_s := mk_kworker { wpid : Z; busy : bool }.

Record kwork_wqueue_s := mk_wqueue { q : dq_queue_s; workers : list kworker_s }.

(** Where a worker thread is: about to call [work_process], in a worker function called
    from there (with the values of the locals [stick] and [next]), or asleep, for some
    microseconds or until it is signalled. *)
Inductive wthread :=
  | Looping
  | Calling (stick next : Z)
  | Sleeping (usec : option Z).

(** Both queues, the work structures with their links, the clock, the two threads and
    the process ids SIGWORK was sent to. *)
Record wstate := mk_wstate {
  links : dq_links;
  works : gmap Z work_s;
  g_hpwork : kwork_wqueue_s;
  g_lpwork : kwork_wqueue_s;
  wclock : Z;
  threads : bool -> wthread;
  sigwork : list Z
}.

(** The two queues; [true] is the one of high priority. *)
Definition wqueue (s : wstate) (hp : bool) : kwork_wqueue_s := if hp then g_hpwork s else g_lpwork s.

Definition set_q (s : wstate) (hp : bool) (d : dq_links) (x : dq_queue_s) : wstate :=
  let wq := mk_wqueue x (workers (wqueue s hp)) in
  mk_wstate d (works s) (if hp then wq else g_hpwork s) (if hp then g_lpwork s else wq) (wclock s) (threads s) (sigwork s).

Definition set_works (s : wstate) (m : gmap Z work_s) : wstate := mk_wstate (links s) m (g_hpwork s) (g_lpwork s) (wclock s) (threads s) (sigwork s).

Definition work_get (s : wstate) (work : Z) : res work_s :=
  match works s !! work with Some w => Ok w | None => Err (BadAddr work) end.

(** ** Queueing and cancelling *)

Definition work_qqueue (s : wstate) (hp : bool) (work worker_ arg_ delay_ : Z) : res wstate :=
  w ← work_get s work;
  s ← (if negb (worker w =? 0) then '(d, x) ← dq_rem (links s) (q (wqueue s hp)) work; Ok (set_q s hp d x) else Ok s);
  let s := set_works s (<[work := mk_work worker_ arg_ (wclock s) delay_]> (works s)) in
  '(d, x) ← dq_addlast (links s) (q (wqueue s hp)) work;
  Ok (set_q s hp d x).

(** What [work_signal] returns, or the thread it sends the signal to. *)
Inductive wsignal := Return (ret : Z) | Kill (p : Z).

Fixpoint find_idle (l : list kworker_s) : option Z :=
  match l with
  | [] => None
  | w :: l => if negb (busy w) then Some (wpid w) else find_idle l
  end.

Definition signal_queue (wq : kwork_wqueue_s) : wsignal :=
  match find_idle (workers wq) with None => Return OK | Some p => Kill p end.

Definition work_signal (s : wstate) (qid : Z) : wsignal :=
  if qid =? HPWORK then signal_queue (g_hpwork s)
  else if qid =? LPWORK then signal_queue (g_lpwork s)
  else Return (- EINVAL).

Definition work_queue (s : wstate) (qid work worker_ arg_ delay_ : Z) : res (wsignal * wstate) :=
  if qid =? HPWORK then s ← work_qqueue s true work worker_ arg_ delay_; Ok (work_signal s HPWORK, s)
  else if qid =? LPWORK then s ← work_qqueue s false work worker_ arg_ delay_; Ok (work_signal s LPWORK, s)
  else Ok (Return (- EINVAL), s).

(** The first half of [work_queue]. *)
Definition work_insert (s : wstate) (qid work worker_ arg_ delay_ : Z) : res wstate :=
  if qid =? HPWORK then work_qqueue s true work worker_ arg_ delay_
  else if qid =? LPWORK then work_qqueue s false work worker_ arg_ delay_
  else Ok s.

Definition work_qcancel (s : wstate) (hp : bool) (work : Z) : res (Z * wstate) :=
  w ← work_get s work;
  if negb (worker w =? 0) then
    '(d, x) ← dq_rem (links s) (q (wqueue s hp)) work;
    let s := set_q s hp d x in
    Ok (OK, set_works s (<[work := mk_work 0 (arg w) (qtime w) (delay w)]> (works s)))
  else Ok (- ENOENT, s).

Definition work_cancel (s : wstate) (qid work : Z) : res (Z * wstate) :=
  if qid =? HPWORK then work_qcancel s true work
  else if qid =? LPWORK then work_qcancel s false work
  else Ok (- EINVAL, s).

(** ** Performing work *)

Definition set_busy (s : wstate) (hp : bool) (b : bool) : wstate :=
  let wq := wqueue s hp in
  let wq := mk_wqueue (q wq) (alter (fun w => mk_kworker (wpid w) b) 0%nat (workers wq)) in
  mk_wstate (links s) (works s) (if hp then wq else g_hpwork s) (if hp then g_lpwork s else wq) (wclock s) (threads s) (sigwork s).

Definition set_thread (s : wstate) (hp : bool) (t : wthread) : wstate :=
  mk_wstate (links s) (works s) (g_hpwork s) (g_lpwork s) (wclock s)
    (fun b => if Bool.eqb b hp then t else threads s b) (sigwork s).

(** A call of a worker function. *)
Record called := mk_called { c_work : Z; c_worker : Z; c_arg : Z; c_time : Z }.

(** The loop of [work_process] from the entry [work] on, to the next call of a worker
    function or to the end of the queue; with the value of [next] there. *)
Fixpoint process_loop (fuel : nat) (hp : bool) (stick : Z) (s : wstate) (work next : Z) : res (option called * Z * wstate) :=
  match fuel with
  | O => Err Diverge
  | S fuel =>
      if work =? 0 then Ok (None, next, s)
      else
        w ← work_get s work;
        let ctick := wclock s in
        let elapsed := u32 (ctick - qtime w) in
        if delay w <=? elapsed then
          '(d, x) ← dq_rem (links s) (q (wqueue s hp)) work;
          let s := set_q s hp d x in
          if negb (worker w =? 0) then
            let s := set_works s (<[work := mk_work 0 (arg w) (qtime w) (delay w)]> (works s)) in
            Ok (Some (mk_called work (worker w) (arg w) ctick), next, s)
          else
            work ← load (dq_flink (links s)) work;
            process_loop fuel hp stick s work next
        else
          let elapsed := u32 (elapsed + u32 (ctick - stick)) in
          let elapsed := if delay w <? elapsed then delay w else elapsed in
          let remaining := u32 (delay w - elapsed) in
          let next := if remaining <? next then remaining else next in
          work ← load (dq_flink (links s)) work;
          process_loop fuel hp stick s work next
  end.

(** [work_process] from its start, or from the return of a worker function, to the next
    call of a worker function or to where the thread falls asleep. *)
Definition process_part (s : wstate) (hp : bool) (stick next : Z) : res (option called * wstate) :=
  '(c, next, s) ← process_loop (walk_fuel (dq_flink (links s))) hp stick s (dq_head (q (wqueue s hp))) next;
  match c with
  | Some c => Ok (Some c, set_thread s hp (Calling stick next))
  | None =>
      let s := set_busy s hp false in
      if next =? WORK_DELAY_MAX then Ok (None, set_thread s hp (Sleeping None))
      else Ok (None, set_thread s hp (Sleeping (Some (u32 (next * USEC_PER_TICK)))))
  end.

(** The thread runs: it is not asleep. *)
Definition work_process (s : wstate) (hp : bool) : res (option called * wstate) :=
  match threads s hp with
  | Looping => process_part s hp (wclock s) WORK_DELAY_MAX
  | Calling stick next => process_part s hp stick next
  | Sleeping _ => Ok (None, s)
  end.

(** A sleeping thread wakes up, signalled or after its time; SIGWORK is then no longer
    pending for it. *)
Definition work_wake (s : wstate) (hp : bool) : wstate :=
  match threads s hp with
  | Sleeping _ =>
      let me := match workers (wqueue s hp) with w :: _ => wpid w | [] => 0 end in
      let s := set_thread (set_busy s hp true) hp Looping in
      mk_wstate (links s) (works s) (g_hpwork s) (g_lpwork s) (wclock s) (threads s) (filter (fun p => p <> me) (sigwork s))
  | _ => s
  end.

(** ** The system *)

(** [work_queue] as a whole, or its halves: [work_qqueue], which is a critical section,
    and [work_signal], before which other threads and interrupts may run. *)
Inductive wevent :=
  | EQueue (qid work worker_ arg_ delay_ : Z)
  | EInsert (qid work worker_ arg_ delay_ : Z)
  | ESignal (qid : Z)
  | ECancel (qid work : Z)
  | ETick
  | EWake (hp : bool)
  | ERun (hp : bool).

Definition deliver (sg : wsignal) (s : wstate) : wstate :=
  match sg with
  | Return _ => s
  | Kill p => mk_wstate (links s) (works s) (g_hpwork s) (g_lpwork s) (wclock s) (threads s) (sigwork s ++ [p])
  end.

Definition wstep (s : wstate) (e : wevent) : res (option called * wstate) :=
  match e with
  | EQueue qid work worker_ arg_ delay_ =>
      '(sg, s) ← work_queue s qid work worker_ arg_ delay_; Ok (None, deliver sg s)
  | EInsert qid work worker_ arg_ delay_ => s ← work_insert s qid work worker_ arg_ delay_; Ok (None, s)
  | ESignal qid => Ok (None, deliver (work_signal s qid) s)
  | ECancel qid work => '(_, s) ← work_cancel s qid work; Ok (None, s)
  | ETick => Ok (None, mk_wstate (links s) (works s) (g_hpwork s) (g_lpwork s) (u32 (wclock s + 1)) (threads s) (sigwork s))
  | EWake hp => Ok (None, work_wake s hp)
  | ERun hp => work_process s hp
  end.

Fixpoint wrun (s : wstate) (es : list wevent) : res (list called * wstate) :=
  match es with
  | [] => Ok ([], s)
  | e :: es =>
      '(c, s) ← wstep s e;
      '(cs, s) ← wrun s es;
      Ok ((match c with Some c => [c] | None => [] end) ++ cs, s)
  end.

(** After [work_hpstart] and [work_lpstart]: both queues empty, both threads busy, and
    the work structures of the drivers all zero. *)
Definition work_start (hppid lppid now : Z) (structs : list Z) : wstate :=
  mk_wstate (DL (list_to_map ((fun x => (x, 0)) <$> structs)) (list_to_map ((fun x => (x, 0)) <$> structs)))
    (list_to_map ((fun x => (x, mk_work 0 0 0 0)) <$> structs))
    (mk_wqueue dq_init [mk_kworker hppid true]) (mk_wqueue dq_init [mk_kworker lppid true])
    now (fun _ => Looping) [].
