(* ===== verification/WorkProps.v ===== *)
(** * Work queues: the promise, the operations and the theorems

    The promise is about lists of pending entries; [wrep] relates them to the state of
    the code.  Each operation of the code does to its queue what the promise says. *)

From S2P Require Import Prelude Bits Links Queue SchedRep Clock WorkQ.
Import Dq.
Local Open Scope Z_scope.

(** ** The promise *)

Record entry := mk_entry { e_work : Z; e_worker : Z; e_arg : Z; e_qtime : Z; e_delay : Z }.

Definition entry_work (e : entry) : work_s := mk_work (e_worker e) (e_arg e) (e_qtime e) (e_delay e).

Record promise := mk_promise { pending : bool -> list entry; pclock : Z; asleep : bool -> bool }.

Definition upd {A} (f : bool -> A) (hp : bool) (v : A) : bool -> A := fun b => if Bool.eqb b hp then v else f b.

Definition set_pending (P : promise) (hp : bool) (l : list entry) : promise :=
  mk_promise (upd (pending P) hp l) (pclock P) (asleep P).

Definition set_asleep (P : promise) (hp b : bool) : promise := mk_promise (pending P) (pclock P) (upd (asleep P) hp b).

Definition without (w : Z) (l : list entry) : list entry := filter (fun e => e_work e <> w) l.

Definition due (now : Z) (e : entry) : bool := e_delay e <=? u32 (now - e_qtime e).

(** The first entry that is due, and the other ones. *)
Fixpoint first_due (now : Z) (l : list entry) : option (entry * list entry) :=
  match l with
  | [] => None
  | e :: l => if due now e then Some (e, l) else prod_map id (cons e) <$> first_due now l
  end.

Definition call_of (now : Z) (e : entry) : called := mk_called (e_work e) (e_worker e) (e_arg e) now.

Definition queue_of (qid : Z) : option bool :=
  if qid =? HPWORK then Some true else if qid =? LPWORK then Some false else None.

Definition pstep (P : promise) (e : wevent) : option called * promise :=
  match e with
  | EQueue qid w f a d =>
      match queue_of qid with
      | Some hp => (None, set_pending P hp (without w (pending P hp) ++ [mk_entry w f a (pclock P) d]))
      | None => (None, P)
      end
  | EInsert qid w f a d =>
      match queue_of qid with
      | Some hp => (None, set_pending P hp (without w (pending P hp) ++ [mk_entry w f a (pclock P) d]))
      | None => (None, P)
      end
  | ESignal _ => (None, P)
  | ECancel qid w =>
      match queue_of qid with
      | Some hp => (None, set_pending P hp (without w (pending P hp)))
      | None => (None, P)
      end
  | ETick => (None, mk_promise (pending P) (u32 (pclock P + 1)) (asleep P))
  | EWake hp => (None, set_asleep P hp false)
  | ERun hp =>
      if asleep P hp then (None, P)
      else match first_due (pclock P) (pending P hp) with
           | Some (e, l) => (Some (call_of (pclock P) e), set_pending P hp l)
           | None => (None, set_asleep P hp true)
           end
  end.

Fixpoint prun (P : promise) (es : list wevent) : list called * promise :=
  match es with
  | [] => ([], P)
  | e :: es =>
      let '(c, P) := pstep P e in
      let '(cs, P) := prun P es in
      ((match c with Some c => [c] | None => [] end) ++ cs, P)
  end.

Definition pstart (now : Z) : promise := mk_promise (fun _ => []) now (fun _ => false).

(** What the drivers promise, with what is pending when the event comes: the work
    structure exists, the function is not NULL, the delay is in the range of its type,
    and the structure is not pending on the other queue. *)
Definition wevent_ok (structs : list Z) (P : promise) (e : wevent) : bool :=
  let not_elsewhere qid w :=
    match queue_of qid with Some hp => bool_decide (w ∉ e_work <$> pending P (negb hp)) | None => true end in
  match e with
  | EQueue qid w f _ d | EInsert qid w f _ d =>
      bool_decide (w ∈ structs) && negb (f =? 0) && (0 <=? d) && (d <? 2 ^ 32) && not_elsewhere qid w
  | ECancel qid w => bool_decide (w ∈ structs) && not_elsewhere qid w
  | _ => true
  end.

Fixpoint wpromised (structs : list Z) (P : promise) (es : list wevent) : bool :=
  match es with
  | [] => true
  | e :: es => wevent_ok structs P e && wpromised structs (snd (pstep P e)) es
  end.

(** ** Lists of entries *)

Implicit Types (l : list entry).

Lemma upd_same {A} (f : bool -> A) hp v : upd f hp v hp = v.
Proof. unfold upd. by rewrite Bool.eqb_reflx. Qed.

Lemma upd_other {A} (f : bool -> A) hp v b : b <> hp -> upd f hp v b = f b.
Proof. unfold upd. by destruct (Bool.eqb_spec b hp). Qed.

Lemma elem_without w l e : e ∈ without w l <-> e ∈ l /\ e_work e <> w.
Proof. unfold without. rewrite list_elem_of_filter. tauto. Qed.

Lemma without_id w l : w ∉ e_work <$> l -> without w l = l.
Proof.
  induction l as [|e l IH]; [done|]. unfold without in *. simpl. intros H.
  rewrite filter_cons_True by set_solver. f_equal. apply IH. set_solver.
Qed.

Lemma without_split w l : NoDup (e_work <$> l) -> w ∈ e_work <$> l ->
  exists l1 e l2, l = l1 ++ e :: l2 /\ e_work e = w /\ without w l = l1 ++ l2.
Proof.
  intros HN (e & -> & (l1 & l2 & ->)%list_elem_of_split)%list_elem_of_fmap. exists l1, e, l2.
  split; [done|]. split; [done|]. rewrite fmap_app, fmap_cons in HN. apply NoDup_app in HN as (_ & H1 & [H2 _]%NoDup_cons).
  unfold without. rewrite filter_app, filter_cons_False by tauto. f_equal.
  - apply without_id. intros Hx. apply (H1 _ Hx). left.
  - by apply without_id.
Qed.

Lemma first_due_Some now l e l' : first_due now l = Some (e, l') ->
  exists l1 l2, l = l1 ++ e :: l2 /\ l' = l1 ++ l2 /\ due now e = true /\ Forall (fun e => due now e = false) l1.
Proof.
  revert l'. induction l as [|e0 l IH]; intros l'; simpl; [done|]. destruct (due now e0) eqn:E.
  - intros [= -> ->]. by exists [], l'.
  - destruct (first_due now l) as [[e1 l1']|]; [|done]. simpl. intros [= -> <-].
    destruct (IH l1' eq_refl) as (l1 & l2 & -> & -> & H1 & H2). exists (e0 :: l1), l2. eauto.
Qed.

Lemma first_due_None now l : first_due now l = None <-> Forall (fun e => due now e = false) l.
Proof.
  induction l as [|e l IH]; simpl; [done|]. rewrite Forall_cons. destruct (due now e); [naive_solver|].
  rewrite <- IH. destruct (first_due now l); naive_solver.
Qed.

(** The ticks [work_process] takes an entry to have left. *)
Definition ticks_left (stick now : Z) (e : entry) : Z :=
  let elapsed := u32 (u32 (now - e_qtime e) + u32 (now - stick)) in
  u32 (e_delay e - (if e_delay e <? elapsed then e_delay e else elapsed)).

Definition scan_next (stick now next : Z) (l : list entry) : Z :=
  fold_left (fun n e => Z.min (ticks_left stick now e) n) l next.

Lemma ticks_left_range stick now e : 0 <= ticks_left stick now e < 2 ^ 32.
Proof. apply u32_range. Qed.

Lemma scan_next_le stick now next l :
  scan_next stick now next l <= next /\ Forall (fun e => scan_next stick now next l <= ticks_left stick now e) l.
Proof.
  revert next. induction l as [|e l IH]; intros next; simpl; [split; [lia|done]|].
  destruct (IH (Z.min (ticks_left stick now e) next)) as [H1 H2]. unfold scan_next in *. split; [lia|].
  apply Forall_cons. split; [lia|done].
Qed.

Lemma scan_next_in stick now next l :
  scan_next stick now next l = next \/ Exists (fun e => scan_next stick now next l = ticks_left stick now e) l.
Proof.
  revert next. induction l as [|e l IH]; intros next; simpl; [by left|]. unfold scan_next in *.
  destruct (IH (Z.min (ticks_left stick now e) next)) as [->|H]; [|right; by apply Exists_cons_tl].
  destruct (Z.min_spec (ticks_left stick now e) next) as [[_ ->]|[_ ->]]; [right; by apply Exists_cons_hd|by left].
Qed.

(** ** The state of the code *)

Section Rep.
(** The work structures. *)
Context (structs : list Z).
Implicit Types (s : wstate) (P : promise).

Record wrep s P : Prop := {
  wr_q : forall hp, dq_rep (links s) (q (wqueue s hp)) (e_work <$> pending P hp);
  wr_entry : forall hp e, e ∈ pending P hp ->
    works s !! e_work e = Some (entry_work e) /\ e_worker e <> 0;
  wr_disj : forall hp x, x ∈ e_work <$> pending P hp -> x ∉ e_work <$> pending P (negb hp);
  wr_idle : forall x w, works s !! x = Some w -> worker w <> 0 -> exists hp, x ∈ e_work <$> pending P hp;
  wr_dom : forall x, x ∈ structs -> is_Some (works s !! x);
  wr_node : forall x, is_Some (works s !! x) -> is_node (links s) x;
  wr_clock : wclock s = pclock P /\ 0 <= pclock P < 2 ^ 32;
  wr_thread : forall hp, asleep P hp = match threads s hp with Sleeping _ => true | _ => false end;
  wr_busy : forall hp, exists p, workers (wqueue s hp) = [mk_kworker p (negb (asleep P hp))];
  wr_next : forall hp stick next, threads s hp = Calling stick next -> 0 <= next
}.

(** ** Changing a queue *)

Lemma dq_rep_frame d d' x (k k' : list Z) : dq_rep d x k -> dframe k' d d' -> (forall y, y ∈ k -> y ∉ k') -> dq_rep d' x k.
Proof.
  intros [H1 H2 H3 H4 H5] [F1 F2] HD. split; try done.
  eapply dlinks_ext; [|exact H3]. intros y Hy. split; [apply F1|apply F2]; by apply HD.
Qed.

Lemma wqueue_set_q s hp d x b : q (wqueue (set_q s hp d x) b) = if Bool.eqb b hp then x else q (wqueue s b).
Proof. by destruct b, hp. Qed.

Lemma workers_set_q s hp d x b : workers (wqueue (set_q s hp d x) b) = workers (wqueue s b).
Proof. by destruct b, hp. Qed.

(** One queue and the work structure [w], not pending on the other one, change. *)
Lemma wrep_change s P hp d x w v l' :
  wrep s P -> w ∉ e_work <$> pending P (negb hp) -> dq_rep d x (e_work <$> l') ->
  dframe (w :: (e_work <$> pending P hp)) (links s) d ->
  (forall y, y ∈ w :: (e_work <$> pending P hp) -> is_node d y) ->
  (forall e, e ∈ l' -> (e_work e = w /\ v = entry_work e /\ e_worker e <> 0) \/ (e_work e <> w /\ e ∈ pending P hp)) ->
  (forall e, e ∈ pending P hp -> e_work e <> w -> e ∈ l') ->
  (worker v <> 0 -> w ∈ e_work <$> l') ->
  wrep (set_works (set_q s hp d x) (<[w := v]> (works s))) (set_pending P hp l').
Proof.
  intros R Hw Hx HF HN H1 H2 H3.
  assert (HO : forall b e, b <> hp -> e ∈ pending P b -> e_work e ∉ w :: (e_work <$> pending P hp)).
  { intros b e Hb He. assert (b = negb hp) as -> by (by destruct b, hp). pose proof (list_elem_of_fmap_2 e_work _ _ He) as Hm.
    intros [E|Hm']%elem_of_cons; [by rewrite E in Hm|]. by apply (wr_disj _ _ R hp _ Hm'). }
  assert (HS : forall y, y ∈ e_work <$> l' -> y ∈ w :: (e_work <$> pending P hp)).
  { intros y (e & -> & He)%list_elem_of_fmap. destruct (H1 e He) as [(-> & _)|[_ He']]; [left|right; by apply list_elem_of_fmap_2]. }
  split; cbn [works set_works set_q links wclock threads set_pending pending pclock asleep].
  - intros b. change (q (wqueue (set_works ?s _) b)) with (q (wqueue s b)). rewrite wqueue_set_q.
    unfold upd. destruct (Bool.eqb_spec b hp); [done|]. eapply dq_rep_frame; [apply R|exact HF|].
    intros y (e & -> & He)%list_elem_of_fmap. by apply (HO b).
  - intros b e. unfold upd. destruct (Bool.eqb_spec b hp) as [->|Hb]; intros He.
    + destruct (H1 e He) as [(<- & -> & Hf)|[Hne Ho]]; [by rewrite lookup_insert_eq|].
      rewrite lookup_insert_ne by done. by apply (wr_entry _ _ R hp).
    + rewrite lookup_insert_ne by (intros ->; apply (HO b e Hb He); left). by apply (wr_entry _ _ R b).
  - intros b y. unfold upd. destruct (Bool.eqb_spec b hp) as [->|Hb].
    + rewrite (proj2 (Bool.eqb_false_iff (negb hp) hp)) by (by destruct hp). intros Hy%HS.
      intros (e & -> & He)%list_elem_of_fmap. by apply (HO (negb hp) e); [by destruct hp| |].
    + assert (negb b = hp) as -> by (by destruct b, hp). rewrite Bool.eqb_reflx. intros (e & -> & He)%list_elem_of_fmap Hy%HS. by apply (HO b e).
  - intros y u. unfold upd. destruct (decide (y = w)) as [->|Hne].
    + rewrite lookup_insert_eq. intros [= <-] Hu. exists hp. rewrite Bool.eqb_reflx. auto.
    + rewrite lookup_insert_ne by done. intros Hy Hu. destruct (wr_idle _ _ R y u Hy Hu) as [b Hm]. exists b.
      destruct (Bool.eqb_spec b hp) as [->|]; [|done].
      apply list_elem_of_fmap in Hm as (e & -> & He). apply list_elem_of_fmap. eauto.
  - intros y Hy. destruct (decide (y = w)) as [->|Hne]; [by rewrite lookup_insert_eq|].
    rewrite lookup_insert_ne by done. by apply R.
  - intros y Hy. destruct (decide (y ∈ w :: (e_work <$> pending P hp))) as [Hm|Hm]; [by apply HN|].
    rewrite lookup_insert_ne in Hy by set_solver. destruct (wr_node _ _ R y Hy) as (? & ? & ?), HF as [F1 F2].
    split; [done|]. by rewrite F1, F2.
  - apply R.
  - apply R.
  - intros b. change (workers (wqueue (set_works ?s _) b)) with (workers (wqueue s b)). rewrite workers_set_q. apply R.
  - apply R.
Qed.

(** Taking an entry out of its queue. *)
Lemma rem_entry s P hp w :
  wrep s P -> w ∈ e_work <$> pending P hp ->
  exists d x, dq_rem (links s) (q (wqueue s hp)) w = Ok (d, x) /\
    dq_rep d x (e_work <$> without w (pending P hp)) /\
    dframe (w :: (e_work <$> pending P hp)) (links s) d /\
    (forall y, y ∈ w :: (e_work <$> pending P hp) -> is_node d y).
Proof.
  intros R Hw. pose proof (wr_q _ _ R hp) as Hq.
  destruct (without_split w (pending P hp)) as (l1 & e & l2 & E & Ew & ->); [apply Hq|done|].
  rewrite E, fmap_app, fmap_cons, Ew in *. destruct (dq_rem_spec _ _ _ _ _ Hq) as (d & x & -> & Hd & [F1 F2] & L1 & L2).
  exists d, x. split; [done|]. rewrite fmap_app. split; [done|]. split; [split; intros y Hy; [apply F1|apply F2]; set_solver|].
  intros y Hy. destruct (decide (y = w)) as [->|Hne].
  - split; [|by rewrite L1, L2]. apply (dq_rep_node _ _ _ w Hq). set_solver.
  - apply (dq_rep_node _ _ _ _ Hd). set_solver.
Qed.

Lemma work_get_Ok s x w : works s !! x = Some w -> work_get s x = Ok w.
Proof. unfold work_get. by intros ->. Qed.

(** An idle structure is in no queue. *)
Lemma idle_out s P hp x w : wrep s P -> works s !! x = Some w -> worker w = 0 -> x ∉ e_work <$> pending P hp.
Proof.
  intros R Hx H0 (e & -> & He)%list_elem_of_fmap. destruct (wr_entry _ _ R _ _ He) as [Hy Hf].
  rewrite Hx in Hy. injection Hy as ->. done.
Qed.

Lemma idle_here s P hp x w :
  wrep s P -> works s !! x = Some w -> worker w <> 0 -> x ∉ e_work <$> pending P (negb hp) -> x ∈ e_work <$> pending P hp.
Proof. intros R Hx H0 Hn. destruct (wr_idle _ _ R x w Hx H0) as [b Hb]. destruct b, hp; done. Qed.

(** ** Queueing and cancelling *)

Lemma work_qqueue_spec s P hp w f a dl :
  wrep s P -> is_Some (works s !! w) -> w ∉ e_work <$> pending P (negb hp) -> f <> 0 ->
  returns (work_qqueue s hp w f a dl) (fun s' =>
    wrep s' (set_pending P hp (without w (pending P hp) ++ [mk_entry w f a (pclock P) dl])) /\
    sigwork s' = sigwork s /\ threads s' = threads s /\ forall b, workers (wqueue s' b) = workers (wqueue s b)).
Proof.
  intros R [v Hv] Hh Hf. unfold work_qqueue. rewrite (work_get_Ok _ _ _ Hv). cbn [mbind res_bind].
  apply (returns_bind _ _ (fun s' => exists d x, s' = set_q s hp d x /\
    dq_rep d x (e_work <$> without w (pending P hp)) /\ dframe (w :: (e_work <$> pending P hp)) (links s) d /\
    (forall y, y ∈ w :: (e_work <$> pending P hp) -> is_node d y))).
  { destruct (Z.eqb_spec (worker v) 0) as [E|E]; cbn [negb].
    - apply returns_Ok. exists (links s), (q (wqueue s hp)). pose proof (idle_out _ _ hp _ _ R Hv E) as Ho.
      rewrite without_id by done. split; [by destruct s as [? ? [] []], hp|].
      split; [apply R|]. split; [by split|]. intros y [->|Hy]%elem_of_cons; [apply R; eauto|].
      by apply (dq_rep_node _ _ _ _ (wr_q _ _ R hp)).
    - pose proof (idle_here _ _ _ _ _ R Hv E Hh) as Hm.
      destruct (rem_entry _ _ _ _ R Hm) as (d & x & -> & H). apply returns_Ok. eauto. }
  intros s' (d & x & -> & Hd & [F1 F2] & Hn).
  change (q (wqueue (set_works ?s _) hp)) with (q (wqueue s hp)). rewrite wqueue_set_q, Bool.eqb_reflx.
  cbn [links set_works set_q].
  destruct (dq_addlast_spec d x _ w Hd) as (d' & x' & -> & Hd' & [G1 G2]);
    [apply Hn; left|intros (e & Ee & He)%list_elem_of_fmap; apply elem_without in He; by destruct He|].
  apply returns_Ok. split; [|split; [done|split; [done|by intros []; destruct hp]]].
  replace (wclock (set_q s hp d x)) with (pclock P) by (symmetry; apply R).
  assert (Hin : forall y, y ∈ w :: (e_work <$> without w (pending P hp)) -> y ∈ w :: (e_work <$> pending P hp)).
  { intros y [->|(e & -> & [He _]%elem_without)%list_elem_of_fmap]%elem_of_cons; [left|]. right. apply list_elem_of_fmap. eauto. }
  replace (set_q (set_works (set_q s hp d x) _) hp d' x')
    with (set_works (set_q s hp d' x') (<[w := mk_work f a (pclock P) dl]> (works s))) by by destruct hp.
  apply wrep_change; try done.
  - by rewrite fmap_app.
  - split; intros y Hy; [rewrite G1, F1|rewrite G2, F2]; auto.
  - intros y Hy. destruct (decide (y ∈ e_work <$> without w (pending P hp) ++ [mk_entry w f a (pclock P) dl])) as [Hm|Hm].
    + apply (dq_rep_node _ _ _ _ Hd'). by rewrite fmap_app in Hm.
    + rewrite fmap_app in Hm. destruct (Hn y Hy) as (N1 & N2 & N3). split; [done|].
      rewrite G1, G2 by set_solver. done.
  - intros e [[He Hne]%elem_without|He%list_elem_of_singleton]%elem_of_app; [by right|subst e; by left].
  - intros e He Hne. apply elem_of_app. left. by apply elem_without.
  - intros _. rewrite fmap_app. set_solver.
Qed.

Lemma work_qcancel_spec s P hp w :
  wrep s P -> is_Some (works s !! w) -> w ∉ e_work <$> pending P (negb hp) ->
  returns (work_qcancel s hp w) (fun '(ret, s') =>
    wrep s' (set_pending P hp (without w (pending P hp))) /\
    ret = (if decide (w ∈ e_work <$> pending P hp) then OK else - ENOENT)).
Proof.
  intros R [v Hv] Hh. unfold work_qcancel. rewrite (work_get_Ok _ _ _ Hv). cbn [mbind res_bind].
  destruct (Z.eqb_spec (worker v) 0) as [E|E]; cbn [negb].
  - apply returns_Ok. pose proof (idle_out _ _ hp _ _ R Hv E) as Ho. rewrite decide_False by done. split; [|done].
    rewrite without_id by done.
    assert (EP : forall b, pending (set_pending P hp (pending P hp)) b = pending P b).
    { intros b. cbn [pending set_pending]. unfold upd. by destruct (Bool.eqb_spec b hp) as [->|]. }
    destruct R as [R1 R2 R3 R4 R5 R6 R7 R8 R9 R10].
    split; try done; intros *; rewrite ?EP; eauto. intros Hx Hu. destruct (R4 _ _ Hx Hu) as [b Hb]. exists b. by rewrite EP.
  - pose proof (idle_here _ _ _ _ _ R Hv E Hh) as Hm. rewrite decide_True by done.
    destruct (rem_entry _ _ _ _ R Hm) as (d & x & -> & Hd & HF & HN). apply returns_Ok. split; [|done].
    change (works (set_q s hp d x)) with (works s). apply wrep_change; try done.
    + intros e He%elem_without. right. tauto.
    + intros e He Hne. by apply elem_without.
Qed.

(** ** The loop of the worker thread *)

Lemma process_loop_spec s P hp stick l0 l fuel next :
  wrep s P -> pending P hp = l0 ++ l -> (length l < fuel)%nat ->
  returns (process_loop fuel hp stick s (hd 0 (e_work <$> l)) next) (fun '(c, next', s') =>
    (0 <= next -> 0 <= next') /\
    match first_due (pclock P) l with
    | Some (e, l') => c = Some (call_of (pclock P) e) /\ wrep s' (set_pending P hp (l0 ++ l')) /\ threads s' = threads s
    | None => c = None /\ s' = s /\ next' = scan_next stick (pclock P) next l
    end).
Proof.
  intros R. revert l0 fuel next. induction l as [|e l IH]; intros l0 [|fuel] next E Hf; simpl in Hf; try lia; cbn [process_loop fmap list_fmap hd].
  { by apply returns_Ok. }
  assert (He : e ∈ pending P hp) by (rewrite E; set_solver).
  destruct (wr_entry _ _ R _ _ He) as [Hw Hf0]. pose proof (wr_q _ _ R hp) as Hq.
  pose proof (proj2 (Z.eqb_neq _ _) (proj1 (dq_rep_node _ _ _ _ Hq (list_elem_of_fmap_2 e_work _ _ He)))) as Hz.
  rewrite Hz.
  rewrite (work_get_Ok _ _ _ Hw). cbn [mbind res_bind entry_work qtime delay worker arg].
  rewrite (proj1 (wr_clock _ _ R)). simpl first_due. unfold due at 1.
  destruct (e_delay e <=? u32 (pclock P - e_qtime e)) eqn:D.
  - destruct (rem_entry s P hp (e_work e) R) as (d & x & -> & Hd & HF & HN); [by apply list_elem_of_fmap_2|].
    cbn [mbind res_bind]. rewrite (proj2 (Z.eqb_neq _ _) Hf0). cbn [negb]. apply returns_Ok. split; [done|]. split; [done|]. split; [|done].
    change (works (set_q s hp d x)) with (works s).
    assert (HW : without (e_work e) (pending P hp) = l0 ++ l).
    { pose proof (dqr_nodup _ _ _ Hq) as HN'. rewrite E, fmap_app, fmap_cons in HN'.
      apply NoDup_app in HN' as (_ & N1 & [N2 _]%NoDup_cons). rewrite E. unfold without.
      rewrite filter_app, filter_cons_False by tauto. f_equal; apply without_id; [|done].
      intros Hx. apply (N1 _ Hx). left. }
    rewrite <- HW. apply wrep_change; try done; [by apply R, list_elem_of_fmap_2| |].
    + intros y Hy%elem_without. right. tauto.
    + intros y Hy Hne. by apply elem_without.
  - rewrite E, fmap_app, fmap_cons in Hq. destruct (dlinks_mid _ _ _ _ _ _ _ (dqr_links _ _ _ Hq)) as [EF _].
    unfold load. rewrite Hz, EF. cbn [mbind res_bind].
    match goal with |- context [if ?x <? next then ?x else next] => change x with (ticks_left stick (pclock P) e) end.
    eapply returns_impl; [apply (IH (l0 ++ [e])); [by rewrite E, <- app_assoc|lia]|].
    intros [[c next'] s'] [Hn H]. pose proof (ticks_left_range stick (pclock P) e).
    split; [intros ?; apply Hn; destruct (ticks_left _ _ _ <? _); lia|]. revert H.
    destruct (first_due (pclock P) l) as [[e1 l1]|]; simpl; [by rewrite <- app_assoc|].
    intros (-> & -> & ->). split; [done|]. split; [done|]. unfold scan_next. simpl. f_equal.
    case_match; b2p; lia.
Qed.
End Rep.

(** * Work queues: theorems

    The system of both queues, their threads and the drivers keeps the promise
    on lists above; no work is performed early, twice or unasked; a thread does not
    oversleep; and what goes wrong when a structure is moved between the queues. *)

Section System.
Context (structs : list Z).
Implicit Types (s : wstate) (P : promise).
Local Notation wrep := (wrep structs).

(** The fields a thread changes. *)
Lemma wrep_thread s s' P hp b :
  wrep s P -> links s' = links s -> works s' = works s -> wclock s' = wclock s ->
  (forall c, q (wqueue s' c) = q (wqueue s c)) ->
  (forall c, c <> hp -> threads s' c = threads s c /\ workers (wqueue s' c) = workers (wqueue s c)) ->
  b = match threads s' hp with Sleeping _ => true | _ => false end ->
  (forall st n, threads s' hp = Calling st n -> 0 <= n) ->
  (exists p, workers (wqueue s' hp) = [mk_kworker p (negb b)]) ->
  wrep s' (set_asleep P hp b).
Proof.
  intros [R1 R2 R2' R3 R3' R4 R5 R6 R7 R8] EL EW EC EQ EO Eb En Ep.
  split; cbn [set_asleep pending pclock asleep]; rewrite ?EL, ?EW, ?EC; try done.
  - intros c. rewrite EQ. apply R1.
  - intros c. destruct (decide (c = hp)) as [->|Hne]; [by rewrite upd_same|].
    rewrite upd_other by done. destruct (EO c Hne) as [-> _]. apply R6.
  - intros c. destruct (decide (c = hp)) as [->|Hne]; [by rewrite upd_same|].
    rewrite upd_other by done. destruct (EO c Hne) as [_ ->]. apply R7.
  - intros c st n. destruct (decide (c = hp)) as [->|Hne]; [apply En|]. destruct (EO c Hne) as [-> _]. apply R8.
Qed.

Lemma wrep_calling s P hp st n : 0 <= n -> wrep s P -> asleep P hp = false -> wrep (set_thread s hp (Calling st n)) P.
Proof.
  intros Hn [R1 R2 R2' R3 R3' R4 R5 R6 R7 R8] Ha. split; try done; try (by destruct hp).
  - intros c. cbn [set_thread threads]. destruct (Bool.eqb_spec c hp) as [->|]; [done|apply R6].
  - intros c st' n'. cbn [set_thread threads]. destruct (Bool.eqb_spec c hp) as [->|]; [by intros [= <- <-]|apply R8].
Qed.

(** The thread runs: the first entry that is due is performed, or it falls asleep. *)
Lemma process_part_spec s P hp stick next :
  wrep s P -> asleep P hp = false -> 0 <= next ->
  returns (process_part s hp stick next) (fun '(c, s') =>
    match first_due (pclock P) (pending P hp) with
    | Some (e, l) => c = Some (call_of (pclock P) e) /\ wrep s' (set_pending P hp l)
    | None => c = None /\ wrep s' (set_asleep P hp true) /\
        let n := scan_next stick (pclock P) next (pending P hp) in
        threads s' hp = Sleeping (if n =? WORK_DELAY_MAX then None else Some (u32 (n * USEC_PER_TICK)))
    end).
Proof.
  intros R Ha Hnext. unfold process_part. pose proof (wr_q _ _ _ R hp) as Hq. rewrite (dqr_head _ _ _ Hq).
  eapply returns_bind; [apply (process_loop_spec structs s P hp stick [] (pending P hp)); [done|done|]|].
  { pose proof (dq_rep_length _ _ _ Hq) as HL. by rewrite length_fmap in HL. }
  intros [[c n] s'] [Hn H]. specialize (Hn Hnext). destruct (first_due (pclock P) (pending P hp)) as [[e l]|].
  - destruct H as (-> & R' & _). apply returns_Ok. split; [done|]. by apply wrep_calling.
  - destruct H as (-> & -> & ->). destruct (wr_busy _ _ _ R hp) as [p Hp].
    case_match; apply returns_Ok; (split; [done|]; split; [|cbn; by rewrite Bool.eqb_reflx]);
      (apply (wrep_thread s); try done; [by intros []; destruct hp| |by cbn; rewrite Bool.eqb_reflx|by cbn; rewrite Bool.eqb_reflx|];
       [intros c Hc; split; [cbn; by destruct (Bool.eqb_spec c hp)|by destruct c, hp]
       |exists p; destruct hp; cbn in *; by rewrite Hp]).
Qed.

Lemma work_process_spec s P hp :
  wrep s P -> returns (work_process s hp) (fun '(c, s') => c = fst (pstep P (ERun hp)) /\ wrep s' (snd (pstep P (ERun hp)))).
Proof.
  intros R. unfold work_process. pose proof (wr_thread _ _ _ R hp) as Ht. simpl.
  destruct (threads s hp) as [|st n|u] eqn:E; rewrite Ht; [| |by apply returns_Ok];
    (eapply returns_impl; [apply process_part_spec; [done|done|first [done|by eapply R]]|]; intros [c s'];
     destruct (first_due (pclock P) (pending P hp)) as [[e l]|]; [done|tauto]).
Qed.

Lemma work_wake_spec s P hp : wrep s P -> wrep (work_wake s hp) (set_asleep P hp false).
Proof.
  intros R. destruct (wr_busy _ _ _ R hp) as [p Hp]. pose proof (wr_thread _ _ _ R hp) as Ht. unfold work_wake.
  destruct (threads s hp) as [|st n|u] eqn:E.
  1, 2: apply (wrep_thread s); try done; [by rewrite E|by apply R|exists p; by rewrite Hp, Ht].
  apply (wrep_thread s); try done; [by intros []; destruct hp| |by cbn; rewrite Bool.eqb_reflx|by cbn; rewrite Bool.eqb_reflx|].
  - intros c Hc. split; [cbn; by destruct (Bool.eqb_spec c hp)|by destruct c, hp].
  - exists p. destruct hp; cbn in *; by rewrite Hp.
Qed.

Lemma wrep_sigwork s P sg : wrep s P -> wrep (deliver sg s) P.
Proof. intros [R1 R2 R2' R3 R3' R4 R5 R6 R7 R8]. by destruct sg. Qed.

(** The promise about an event that queues or cancels. *)
Lemma wevent_queue P qid w f a d hp :
  wevent_ok structs P (EQueue qid w f a d) = true -> queue_of qid = Some hp ->
  w ∈ structs /\ f <> 0 /\ w ∉ e_work <$> pending P (negb hp).
Proof.
  intros H Hq. unfold wevent_ok in H. rewrite Hq in H. apply andb_true_iff in H as [H H1%bool_decide_eq_true].
  apply andb_true_iff in H as [[[H2%bool_decide_eq_true H3%negb_true_iff]%andb_true_iff _]%andb_true_iff _]. b2p. auto.
Qed.

Lemma wevent_cancel P qid w hp :
  wevent_ok structs P (ECancel qid w) = true -> queue_of qid = Some hp -> w ∈ structs /\ w ∉ e_work <$> pending P (negb hp).
Proof. intros H Hq. unfold wevent_ok in H. rewrite Hq in H. by apply andb_true_iff in H as [?%bool_decide_eq_true ?%bool_decide_eq_true]. Qed.

Lemma work_insert_spec s P qid w f a d :
  wrep s P -> wevent_ok structs P (EInsert qid w f a d) = true ->
  returns (work_insert s qid w f a d) (fun s' => wrep s' (snd (pstep P (EInsert qid w f a d)))).
Proof.
  intros R He. pose proof (wevent_queue P qid w f a d) as HP. specialize (fun hp => HP hp He). unfold work_insert. simpl pstep. unfold queue_of in *.
  destruct (qid =? HPWORK); [|destruct (qid =? LPWORK)]; [| |by apply returns_Ok];
    (destruct (HP _ eq_refl) as (Hw & Hf & Hh); eapply returns_impl; [by apply work_qqueue_spec; [| |exact Hh|]; [|by apply R|]|]; intros s' (R' & _); done).
Qed.

Lemma work_queue_insert s qid w f a d :
  work_queue s qid w f a d = (s ← work_insert s qid w f a d; Ok (work_signal s qid, s)).
Proof. unfold work_queue, work_insert, work_signal. destruct (Z.eqb_spec qid HPWORK) as [->|]; [done|]. by destruct (Z.eqb_spec qid LPWORK) as [->|]. Qed.

(** One event of the system. *)
Lemma wstep_refines s P e :
  wrep s P -> wevent_ok structs P e = true ->
  returns (wstep s e) (fun '(c, s') => c = fst (pstep P e) /\ wrep s' (snd (pstep P e))).
Proof.
  intros R He. destruct e as [qid w f a d|qid w f a d|qid|qid w| |hp|hp]; cbn [wstep].
  - rewrite work_queue_insert. destruct (work_insert_spec s P qid w f a d R He) as (s' & -> & R'). rewrite !bind_Ok.
    apply returns_Ok. split; [simpl; by destruct (queue_of qid)|]. by apply wrep_sigwork.
  - destruct (work_insert_spec s P qid w f a d R He) as (s' & -> & R'). apply returns_Ok. split; [simpl; by destruct (queue_of qid)|done].
  - apply returns_Ok. split; [done|]. by apply wrep_sigwork.
  - pose proof (wevent_cancel P qid w) as HP. specialize (fun hp => HP hp He). unfold work_cancel. simpl pstep. unfold queue_of in *.
    destruct (qid =? HPWORK); [|destruct (qid =? LPWORK)]; [| |by apply returns_Ok];
      (destruct (HP _ eq_refl) as (Hw & Hh); destruct (work_qcancel_spec structs s P _ w R (wr_dom _ _ _ R w Hw) Hh) as ([ret s'] & -> & R' & _);
       by apply returns_Ok).
  - apply returns_Ok. split; [done|]. destruct R as [R1 R2 R2' R3 R3' R4 [R5 R5'] R6 R7 R8]. split; try done.
    cbn [wclock pclock]. rewrite R5. split; [done|]. apply u32_range.
  - apply returns_Ok. split; [done|]. by apply work_wake_spec.
  - by apply work_process_spec.
Qed.

Lemma wrun_refines s P es :
  wrep s P -> wpromised structs P es = true ->
  returns (wrun s es) (fun '(cs, s') => cs = fst (prun P es) /\ wrep s' (snd (prun P es))).
Proof.
  revert s P. induction es as [|e es IH]; intros s P R HF; [by apply returns_Ok|].
  cbn [wpromised] in HF. apply andb_true_iff in HF as [He HF]. cbn [wrun prun].
  destruct (wstep_refines s P e R He) as ([c s1] & -> & -> & R1). destruct (pstep P e) as [c1 P1]. simpl in *.
  destruct (IH s1 P1 R1 HF) as ([cs s2] & -> & -> & R2). destruct (prun P1 es) as [cs1 P2]. by apply returns_Ok.
Qed.

Lemma start_rep hppid lppid now :
  0 ∉ structs -> 0 <= now < 2 ^ 32 -> wrep (work_start hppid lppid now structs) (pstart now).
Proof.
  intros H0 Hn.
  assert (HL : forall {A} (v : A) x, (list_to_map ((fun x => (x, v)) <$> structs) : gmap Z A) !! x = if decide (x ∈ structs) then Some v else None).
  { intros A v x. clear H0. induction structs as [|y l IH]; [done|]. cbn. destruct (decide (x = y)) as [->|Hne].
    - rewrite lookup_insert_eq, decide_True; [done|left].
    - rewrite lookup_insert_ne, IH by done. by repeat case_decide; set_solver. }
  split; cbn [works links work_start pending pstart wclock threads pclock].
  - intros []; apply dq_init_spec.
  - intros hp e He. by apply elem_of_nil in He.
  - intros hp x Hx. by apply elem_of_nil in Hx.
  - intros x w. rewrite HL. case_decide; [|done]. by intros [= <-].
  - intros x Hx. by rewrite HL, decide_True.
  - intros x. rewrite HL. case_decide; [|by intros []]. intros _.
    split; [by intros ->|]. cbn. by rewrite !HL, !decide_True.
  - done.
  - done.
  - intros []; by eexists.
  - done.
Qed.
End System.

(** ** No work unasked, early or twice *)

(** The entries the events queue, with the time they do. *)
Fixpoint asked (now : Z) (es : list wevent) : list entry :=
  match es with
  | [] => []
  | EQueue qid w f a d :: es | EInsert qid w f a d :: es =>
      (match queue_of qid with Some _ => [mk_entry w f a now d] | None => [] end) ++ asked now es
  | ETick :: es => asked (u32 (now + 1)) es
  | _ :: es => asked now es
  end.

Definition all_pending (P : promise) : list entry := pending P true ++ pending P false.

Definition performs (c : called) (e : entry) : Prop := c = call_of (c_time c) e /\ due (c_time c) e = true.

Lemma all_set P hp l l' k : pending P hp ≡ₚ k ++ l -> l' ≡ₚ l -> k ++ all_pending (set_pending P hp l') ≡ₚ all_pending P.
Proof. intros H1 H2. unfold all_pending. destruct hp; cbn; rewrite H1, H2; solve_Permutation. Qed.

Lemma all_without P hp w l : all_pending (set_pending P hp (without w (pending P hp) ++ l)) ⊆+ all_pending P ++ l.
Proof.
  assert (H : without w (pending P hp) ⊆+ pending P hp) by apply sublist_submseteq, sublist_filter.
  unfold all_pending. destruct hp; cbn.
  - rewrite <- !(assoc_L (++)), (Permutation_app_comm l). apply submseteq_app; [done|]. by rewrite Permutation_app_comm.
  - rewrite <- (assoc_L (++)). apply submseteq_app; [done|]. by apply submseteq_skips_r.
Qed.

Lemma pstep_asked P e :
  let '(c, P') := pstep P e in
  exists k, Forall2 performs (match c with Some c => [c] | None => [] end) k /\
    k ++ all_pending P' ⊆+ all_pending P ++ asked (pclock P) [e].
Proof.
  destruct e as [qid w f a d|qid w f a d|qid|qid w| |hp|hp]; simpl.
  1, 2: destruct (queue_of qid); exists []; (split; [constructor|]); simpl; rewrite ?app_nil_r; [apply all_without|done].
  - exists []. split; [constructor|]. by rewrite app_nil_r.
  - destruct (queue_of qid) as [hp|]; exists []; (split; [constructor|]); simpl; rewrite ?app_nil_r; [|done].
    pose proof (all_without P hp w []) as H. by rewrite !app_nil_r in H.
  - exists []. split; [constructor|]. by rewrite app_nil_r.
  - exists []. split; [constructor|]. by rewrite app_nil_r.
  - rewrite app_nil_r. destruct (asleep P hp); [by exists []; split; [constructor|]|].
    destruct (first_due (pclock P) (pending P hp)) as [[e l]|] eqn:E; [|by exists []; split; [constructor|]].
    apply first_due_Some in E as (l1 & l2 & E & -> & Hd & _). exists [e].
    split; [by repeat constructor|]. rewrite (all_set P hp (l1 ++ l2)); [done| |done]. rewrite E. solve_Permutation.
Qed.

Lemma asked_cons P e es : asked (pclock P) (e :: es) = asked (pclock P) [e] ++ asked (pclock (snd (pstep P e))) es.
Proof.
  destruct e as [qid w f a d|qid w f a d|qid|qid w| |hp|hp]; simpl; try done.
  1, 2: destruct (queue_of qid); simpl; done.
  - by destruct (queue_of qid).
  - destruct (asleep P hp); [done|]. by destruct (first_due _ _) as [[]|].
Qed.

Lemma prun_asked P es :
  exists k, Forall2 performs (fst (prun P es)) k /\ k ++ all_pending (snd (prun P es)) ⊆+ all_pending P ++ asked (pclock P) es.
Proof.
  revert P. induction es as [|e es IH]; intros P; [exists []; split; [constructor|]; simpl; by rewrite app_nil_r|].
  rewrite asked_cons. cbn [prun]. pose proof (pstep_asked P e) as H. destruct (pstep P e) as [c P1]. simpl.
  destruct H as (k & Hk & HS), (IH P1) as (k' & Hk' & HS'). destruct (prun P1 es) as [cs P2]. simpl in *.
  exists (k ++ k'). split; [by apply Forall2_app|]. rewrite <- (assoc_L (++)).
  etrans; [apply submseteq_skips_l, HS'|]. rewrite !(assoc_L (++)). by apply submseteq_skips_r.
Qed.

(** ** The theorems *)

(** C2: The work queues keep their promise.  From start-up, whatever drivers queue and
    cancel, however ticks, wake-ups and the two worker threads interleave (also between
    the queueing and its signal), nothing faults or hangs, the workers are called in
    exactly the order, with the arguments and at the times of the specification on
    lists, and both linked queues hold exactly its pending entries.  The drivers
    promise, [wpromised], that a work structure exists and that, while it is pending on
    one queue, it is not queued or cancelled on the other one; that functions are not
    NULL and delays are in the range of [clock_t]. *)
Theorem work_queues_refine structs hppid lppid now es :
  0 ∉ structs -> 0 <= now < 2 ^ 32 -> wpromised structs (pstart now) es = true ->
  exists s, wrun (work_start hppid lppid now structs) es = Ok (fst (prun (pstart now) es), s) /\
    wrep structs s (snd (prun (pstart now) es)).
Proof.
  intros H0 Hn HF. destruct (wrun_refines structs _ _ es (start_rep structs hppid lppid now H0 Hn) HF) as ([cs s] & -> & -> & R).
  eauto.
Qed.

(** C12: No work is performed unasked, early or twice.  The calls of worker functions
    correspond one to one to different requests of the drivers; each call has the
    function and argument of its request and comes when the delay has elapsed; and no
    request is both performed and still pending. *)
Theorem work_performed_once structs hppid lppid now es cs s :
  0 ∉ structs -> 0 <= now < 2 ^ 32 -> wpromised structs (pstart now) es = true ->
  wrun (work_start hppid lppid now structs) es = Ok (cs, s) ->
  exists P k, wrep structs s P /\ Forall2 performs cs k /\ k ++ all_pending P ⊆+ asked now es.
Proof.
  intros H0 Hn HF E. destruct (wrun_refines structs _ _ es (start_rep structs hppid lppid now H0 Hn) HF) as ([cs' s'] & E' & -> & R).
  rewrite E in E'. injection E' as -> ->. destruct (prun_asked (pstart now) es) as (k & Hk & HS). eauto.
Qed.

(** The ticks an entry really has left. *)
Definition until_due (now : Z) (e : entry) : Z := e_delay e - u32 (now - e_qtime e).

Lemma ticks_left_early stick now e :
  due now e = false -> e_delay e + u32 (now - stick) < WORK_DELAY_MAX -> 0 < until_due now e /\ ticks_left stick now e <= until_due now e.
Proof.
  unfold due, until_due, ticks_left, WORK_DELAY_MAX. intros D%Z.leb_gt H.
  pose proof (u32_range (now - e_qtime e)). pose proof (u32_range (now - stick)).
  rewrite (u32_small (_ + _)) by lia. destruct (Z.ltb_spec (e_delay e) (u32 (now - e_qtime e) + u32 (now - stick)));
    rewrite (u32_small (e_delay e - _)); lia.
Qed.

(** How long [work_process] has been running. *)
Definition running (s : wstate) (hp : bool) : Z :=
  match threads s hp with Calling stick _ => u32 (wclock s - stick) | _ => 0 end.

(** C13: A worker thread does not oversleep.  In every reachable state in which it runs
    and finds nothing to perform, it falls asleep; no pending entry is then due, it
    sleeps without a limit only when nothing is pending, and otherwise its sleep ends
    by the time the first entry is due, provided the delays, with the time the pass has
    taken, stay below 2^32 - 1 ticks. *)
Theorem worker_sleeps_in_time structs hppid lppid now es cs s hp s' :
  0 ∉ structs -> 0 <= now < 2 ^ 32 -> wpromised structs (pstart now) es = true ->
  wrun (work_start hppid lppid now structs) es = Ok (cs, s) ->
  let P := snd (prun (pstart now) es) in
  asleep P hp = false -> work_process s hp = Ok (None, s') ->
  (forall e, e ∈ pending P hp -> e_delay e + running s hp < WORK_DELAY_MAX) ->
  match threads s' hp with
  | Sleeping None => pending P hp = []
  | Sleeping (Some usec) => forall e, e ∈ pending P hp -> 0 < until_due (pclock P) e /\ usec <= until_due (pclock P) e * USEC_PER_TICK
  | _ => False
  end.
Proof.
  intros H0 Hn HF E P Ha Hp HD.
  destruct (wrun_refines structs _ _ es (start_rep structs hppid lppid now H0 Hn) HF) as ([cs' s''] & E' & -> & R).
  rewrite E in E'. injection E' as -> <-. fold P in R.
  assert (exists stick next, 0 <= next /\ process_part s hp stick next = Ok (None, s') /\ u32 (pclock P - stick) = running s hp)
    as (stick & next & Hnx & Hs & Hr).
  { unfold work_process, running in *. rewrite (proj1 (wr_clock _ _ _ R)) in *. pose proof (wr_thread _ _ _ R hp) as Ht.
    destruct (threads s hp) eqn:ET; [| |congruence]; do 2 eexists; (split; [|split; [exact Hp|]]); [done|by rewrite Z.sub_diag|by eapply R|done]. }
  destruct (process_part_spec structs s P hp stick next R Ha Hnx) as ([c s2] & E2 & H).
  rewrite Hs in E2. injection E2 as <- <-. destruct (first_due (pclock P) (pending P hp)) as [[e l]|] eqn:ED; [by destruct H|].
  apply first_due_None in ED. rewrite Forall_forall in ED. destruct H as (_ & _ & ->).
  destruct (scan_next_le stick (pclock P) next (pending P hp)) as [_ HL]. rewrite Forall_forall in HL.
  pose proof (fun e He => ticks_left_early stick (pclock P) e (ED e He) ltac:(rewrite Hr; auto)) as HE.
  destruct (Z.eqb_spec (scan_next stick (pclock P) next (pending P hp)) WORK_DELAY_MAX) as [EM|EM].
  - destruct (pending P hp) as [|e l]; [done|]. specialize (HL e ltac:(left)). specialize (HE e ltac:(left)).
    specialize (HD e ltac:(left)). unfold until_due, running, WORK_DELAY_MAX in *.
    pose proof (u32_range (pclock P - e_qtime e)). destruct (threads s hp) as [|st n|u]; [lia|pose proof (u32_range (wclock s - st)); lia|lia].
  - intros e He. destruct (HE e He). split; [done|]. specialize (HL e He). unfold USEC_PER_TICK, u32 in *.
    assert (0 <= scan_next stick (pclock P) next (pending P hp)).
    { destruct (scan_next_in stick (pclock P) next (pending P hp)) as [->|Hx]; [done|].
      apply Exists_exists in Hx as (e' & _ & ->). apply ticks_left_range. }
    etrans; [apply Z.mod_le; lia|]. lia.
Qed.

(** Queueing wakes the worker.  In every reachable state, queueing work succeeds;
    SIGWORK is sent to the queue's thread when it sleeps, and to nobody when it is
    awake, where it looks at the queue again before it sleeps. *)
Theorem queueing_wakes_worker structs hppid lppid now es cs s qid hp w f a d :
  0 ∉ structs -> 0 <= now < 2 ^ 32 -> wpromised structs (pstart now) es = true ->
  wrun (work_start hppid lppid now structs) es = Ok (cs, s) ->
  wevent_ok structs (snd (prun (pstart now) es)) (EQueue qid w f a d) = true -> queue_of qid = Some hp ->
  exists p s', wpid <$> workers (wqueue s hp) = [p] /\ wstep s (EQueue qid w f a d) = Ok (None, s') /\
    sigwork s' = sigwork s ++ (match threads s hp with Sleeping _ => [p] | _ => [] end).
Proof.
  intros H0 Hn HF E He Hq. destruct (wevent_queue structs _ _ _ _ _ _ _ He Hq) as (Hw & Hf & Hh).
  destruct (wrun_refines structs _ _ es (start_rep structs hppid lppid now H0 Hn) HF) as ([cs' s''] & E' & -> & R).
  rewrite E in E'. injection E' as -> <-. destruct (wr_busy _ _ _ R hp) as [p Hp]. rewrite (wr_thread _ _ _ R hp) in Hp.
  destruct (work_qqueue_spec structs s _ hp w f a d R (wr_dom _ _ _ R w Hw) Hh Hf) as (s' & EQ & _ & ES & _ & EW).
  specialize (EW hp). rewrite Hp in EW. exists p. cbn [wstep]. unfold work_queue. unfold queue_of in Hq.
  destruct (qid =? HPWORK); [|destruct (qid =? LPWORK); [|done]]; injection Hq as <-; rewrite EQ; eexists; rewrite Hp;
    (split; [done|]); (split; [done|]); cbn [work_signal]; unfold work_signal; simpl; unfold signal_queue; cbn in EW; rewrite EW;
    destruct (threads s _); simpl; by rewrite ES, ?app_nil_r.
Qed.

(** The only entry of the other queue, removed from the wrong queue: this one is then
    empty. *)
Lemma rem_elsewhere d x y w : dq_rep d y [w] -> exists d', dq_rem d x w = Ok (d', dq_init) /\ is_node d' w.
Proof.
  intros Hy. destruct (dqr_links _ _ _ Hy) as (EF & EB & _). cbn [hd] in EF.
  pose proof (dqr_null _ _ _ Hy) as H0. assert (w <> 0) as Hw by (intros ->; apply H0; left).
  unfold dq_rem. rewrite (load_Ok _ _ _ Hw EB), bind_Ok, (load_Ok _ _ _ Hw EF), bind_Ok. change (0 =? 0) with true. cbv iota. rewrite !bind_Ok. cbv iota.
  unfold set_flink, set_blink. rewrite store_Ok, !bind_Ok by (done || eauto). cbn [dq_blink dq_flink]. rewrite store_Ok, !bind_Ok by (done || eauto).
  eexists. split; [done|]. split; [done|]. cbn [dq_blink dq_flink]. by rewrite !lookup_insert_eq.
Qed.

Lemma work_qqueue_elsewhere structs s P hp w f a dl e :
  wrep structs s P -> pending P (negb hp) = [e] -> e_work e = w ->
  exists s', work_qqueue s hp w f a dl = Ok s' /\ dq_rep (links s') (q (wqueue s' hp)) [w] /\ q (wqueue s' (negb hp)) = q (wqueue s (negb hp)) /\
    works s' = <[w := mk_work f a (pclock P) dl]> (works s) /\ threads s' = threads s /\ wclock s' = pclock P /\
    forall b, workers (wqueue s' b) = workers (wqueue s b).
Proof.
  intros R Ep Ew. destruct (wr_entry _ _ _ R (negb hp) e) as [He Hf]; [rewrite Ep; left|]. rewrite Ew in He.
  pose proof (wr_q _ _ _ R (negb hp)) as Hq. rewrite Ep in Hq. cbn [fmap list_fmap] in Hq. rewrite Ew in Hq.
  unfold work_qqueue. rewrite (work_get_Ok _ _ _ He), bind_Ok. cbn [entry_work worker]. rewrite (proj2 (Z.eqb_neq _ _) Hf). cbn [negb].
  destruct (rem_elsewhere (links s) (q (wqueue s hp)) _ w Hq) as (d & -> & Hn). rewrite !bind_Ok. cbv zeta.
  change (q (wqueue (set_works ?s _) hp)) with (q (wqueue s hp)). rewrite wqueue_set_q, Bool.eqb_reflx. cbn [links set_works set_q].
  destruct (dq_addlast_spec d dq_init [] w (dq_init_spec d) Hn) as (d' & x' & -> & Hd' & _); [by apply not_elem_of_nil|]. rewrite bind_Ok.
  eexists. split; [done|]. split; [by rewrite wqueue_set_q, Bool.eqb_reflx|]. split; [by destruct hp|].
  split; [cbn; by rewrite (proj1 (wr_clock _ _ _ R))|]. split; [done|]. split; [apply R|]. by intros []; destruct hp.
Qed.

(** The thread performs the only entry of its queue, and sleeps without a limit. *)
Lemma run_only s hp w f a :
  dq_rep (links s) (q (wqueue s hp)) [w] -> works s !! w = Some (mk_work f a (wclock s) 0) -> f <> 0 -> threads s hp = Looping ->
  exists s', wrun s [ERun hp; ERun hp] = Ok ([mk_called w f a (wclock s)], s') /\ threads s' hp = Sleeping None /\
    works s' = <[w := mk_work 0 a (wclock s) 0]> (works s).
Proof.
  intros Hq Hw Hf Ht. pose proof (dqr_null _ _ _ Hq) as H0. assert (w <> 0) as Hw0 by (intros ->; apply H0; left).
  pose proof (dq_rep_length _ _ _ Hq) as HL.
  assert (exists d x, dq_rep d x [] /\ work_process s hp = Ok (Some (mk_called w f a (wclock s)),
    set_thread (set_works (set_q s hp d x) (<[w := mk_work 0 a (wclock s) 0]> (works s))) hp (Calling (wclock s) WORK_DELAY_MAX))) as (d & x & Hx & E1).
  { unfold work_process. rewrite Ht. unfold process_part. rewrite (dqr_head _ _ _ Hq). cbn [hd].
    destruct (walk_fuel (dq_flink (links s))) as [|n]; [simpl in HL; lia|]. cbn [process_loop]. rewrite (proj2 (Z.eqb_neq w 0) Hw0).
    rewrite (work_get_Ok _ _ _ Hw), bind_Ok. cbn [qtime delay worker arg]. rewrite Z.sub_diag. change (0 <=? u32 0) with true. cbv iota zeta.
    destruct (dq_rem_spec _ _ [] w [] Hq) as (d & x & -> & Hx & _). rewrite bind_Ok, (proj2 (Z.eqb_neq f 0) Hf). by exists d, x. }
  set (s1 := set_thread _ hp _) in E1. assert (threads s1 hp = Calling (wclock s) WORK_DELAY_MAX) as Ht1 by (unfold s1; cbn; by rewrite Bool.eqb_reflx).
  assert (exists s2, work_process s1 hp = Ok (None, s2) /\ threads s2 hp = Sleeping None /\ works s2 = works s1) as (s2 & E2 & T2 & W2).
  { unfold work_process. rewrite Ht1. unfold process_part. assert (dq_head (q (wqueue s1 hp)) = 0) as -> by (unfold s1; destruct hp; exact (dqr_head _ _ _ Hx)).
    destruct (walk_fuel (dq_flink (links s1))) as [|m] eqn:Em; [by unfold walk_fuel in Em|]. cbn [process_loop]. change (0 =? 0) with true. cbv iota.
    rewrite bind_Ok. eexists. split; [done|]. split; [cbn; by rewrite Bool.eqb_reflx|done]. }
  exists s2. cbn [wrun wstep]. rewrite E1, bind_Ok, E2, !bind_Ok. done.
Qed.


(** The longest delay is taken for no work at all: the thread sleeps without a limit. *)
Lemma longest_delay_not_timed :
  match wrun (work_start 3 4 0 [4]) [EQueue HPWORK 4 100 0 (2 ^ 32 - 1); ERun true] with
  | Ok (cs, s) => cs = [] /\ threads s true = Sleeping None /\ worker <$> works s !! 4 = Some 100
  | Err _ => False
  end.
Proof. vm_compute. done. Qed.

(** ** Witnesses *)

(** Work on both queues, delayed and not, cancelled and queued again while a worker runs. *)
Definition demo_work : list wevent :=
  [EQueue HPWORK 4 100 7 2; EQueue LPWORK 8 200 9 0; ERun true; ERun false; EQueue LPWORK 12 300 1 0; ECancel LPWORK 12;
   ETick; ERun false; ETick; EWake true; ERun true; EInsert LPWORK 4 101 8 5; ERun true; ESignal LPWORK].

Lemma demo_work_ok : wpromised [4; 8; 12] (pstart 0) demo_work = true.
Proof. by vm_compute. Qed.

Lemma demo_structs : 0 ∉ [4; 8; 12].
Proof. by apply (bool_decide_unpack _). Qed.

Lemma work_queues_refine_witness :
  exists s, wrun (work_start 3 4 0 [4; 8; 12]) demo_work = Ok (fst (prun (pstart 0) demo_work), s) /\
    wrep [4; 8; 12] s (snd (prun (pstart 0) demo_work)).
Proof. apply (work_queues_refine [4; 8; 12]); [exact demo_structs|lia|exact demo_work_ok]. Defined.

(** The calls and the state of the example. *)
Definition demo_end : list called * wstate :=
  match wrun (work_start 3 4 0 [4; 8; 12]) demo_work with Ok x => x | Err _ => ([], work_start 3 4 0 []) end.

Lemma work_performed_once_witness :
  c_worker <$> fst demo_end = [200; 100] /\
  exists P k, wrep [4; 8; 12] (snd demo_end) P /\ Forall2 performs (fst demo_end) k /\ k ++ all_pending P ⊆+ asked 0 demo_work.
Proof.
  split; [by vm_compute|].
  apply (work_performed_once [4; 8; 12] 3 4 0 demo_work (fst demo_end) (snd demo_end));
    [exact demo_structs|lia|exact demo_work_ok|by vm_compute].
Defined.

Definition demo_queued : list wevent := [EQueue HPWORK 4 100 7 5; ETick].

Definition demo_after (es : list wevent) : wstate :=
  match wrun (work_start 3 4 0 [4; 8; 12]) es with Ok (_, s) => s | Err _ => work_start 3 4 0 [] end.

Lemma demo_queued_ok : wpromised [4; 8; 12] (pstart 0) demo_queued = true.
Proof. by vm_compute. Qed.

Lemma demo_asleep_ok : wpromised [4; 8; 12] (pstart 0) (demo_queued ++ [ERun true]) = true.
Proof. by vm_compute. Qed.

Lemma worker_sleeps_in_time_witness :
  threads (demo_after (demo_queued ++ [ERun true])) true = Sleeping (Some 4000) /\
  match threads (demo_after (demo_queued ++ [ERun true])) true with
  | Sleeping None => pending (snd (prun (pstart 0) demo_queued)) true = []
  | Sleeping (Some usec) => forall e, e ∈ pending (snd (prun (pstart 0) demo_queued)) true ->
      0 < until_due 1 e /\ usec <= until_due 1 e * USEC_PER_TICK
  | _ => False
  end.
Proof.
  split; [by vm_compute|].
  apply (worker_sleeps_in_time [4; 8; 12] 3 4 0 demo_queued [] (demo_after demo_queued) true
    (demo_after (demo_queued ++ [ERun true]))); [exact demo_structs|lia|exact demo_queued_ok|by vm_compute|by vm_compute|by vm_compute|].
  intros e He. vm_compute in He. apply list_elem_of_singleton in He. subst e. by vm_compute.
Defined.

Lemma queueing_wakes_worker_witness :
  exists p s', wpid <$> workers (wqueue (demo_after (demo_queued ++ [ERun true])) true) = [p] /\
    wstep (demo_after (demo_queued ++ [ERun true])) (EQueue HPWORK 4 100 7 0) = Ok (None, s') /\
    sigwork s' = [3].
Proof.
  assert (H := queueing_wakes_worker [4; 8; 12] 3 4 0 (demo_queued ++ [ERun true]) []
    (demo_after (demo_queued ++ [ERun true])) HPWORK true 4 100 7 0 demo_structs ltac:(lia) demo_asleep_ok ltac:(by vm_compute)
    ltac:(by vm_compute) eq_refl).
  destruct H as (p & s' & Hp & Hs & Hk). exists p, s'. split; [exact Hp|]. split; [exact Hs|].
  injection Hp as <-. exact Hk.
Defined.

(** Work 8 pends on the low-priority queue, work 4 and 12 on the other one. *)
Definition demo_move : list wevent := [EQueue LPWORK 8 200 0 0; EQueue HPWORK 4 100 0 0; EQueue HPWORK 12 101 0 0].

